(* ===== verification/_CoqProject ===== *)
-Q . S2P
Prelude.v
Frame.v
Crc32.v
BlockDev.v
SectorIO.v
KfsFormat.v
KfsLog.v
Paths.v
KfsFs.v
KfsMount.v
KfsCrash.v
KfsData.v
KfsTree.v
KfsOps.v
KfsHistory.v
KfsFormatter.v
KfsTheorems.v
FsServer.v
FsPolicy.v
NetWire.v
NetCodec.v
NetRing.v
NetTcp.v
NetTcpStream.v
NetTcpLive.v
NetStack.v
NetStackFacts.v
NetDhcp.v
NetDhcpFacts.v
NetPort.v
NetPortFacts.v
NetTheorems.v
KernHeap.v
KernState.v
KernPorts.v
KernSched.v
KernSvc.v
KernCalls.v
KernFsImport.v
KernFacts.v
KernSafety.v
KernTheorems.v
KernLifecycle.v
KernFsTheorems.v
KernLink.v
TermFb.v
TermState.v
Terminal.v
TermFlush.v
TermFacts.v
TermEscape.v
TermText.v
TermPaint.v
TermServe.v
TermTheorems.v
Guest.v
FsClient.v
FsLink.v
FsBox.v
SvcFacts.v
Registry.v
RegistryFacts.v
GoText.v
Login.v
Supervisor.v
SweepFacts.v
WasmNum.v
WasmDecode.v
WasmModule.v
WasmRun.v
WasmWalk.v
WasmLower.v
WasmPlain.v
WasmSafe.v
WasmAccept.v
WasmTheorems.v
ModuleTools.v
ModuleFacts.v
ModuleTheorems.v
