(* ===== verification/Prelude.v ===== *)
(** * mkgo: a verification library for the kernel and the Go services

    mkgo is a capability microkernel in C++ whose services are Go programs
    compiled to WebAssembly.  This library verifies the kernel's core (memory,
    ports, scheduler, its own service endpoints, the imports that reach them)
    and the services with the formats they share: the file service (the
    log-structured file system KFS, the host tool that builds its images, and
    the file server with its access policy), the network service (packet
    windows, Ethernet to TCP, DHCP and the socket port), the terminal of the
    display service, the login and init services with the guest library they
    call, the engine that runs them all, and the tools that sign and install
    them.  Sessions send datagrams through ports; the kernel stamps them
    with the sender's uid, answers the ones to its endpoints itself, and turns
    a session's file calls into datagrams to the file service.

    ** The parts and the files

    - [Prelude]: bytes, machine integers, outcomes ([Ok], [Err], [Panic]), the
      state-and-error monad, slices.  [Frame]: the little-endian accessors and
      the canonical datagram header of [guests/lib/frame.go].
    - [Crc32]: the IEEE checksum and what it detects.
    - [BlockDev]: the block-device interface as a class with laws, and its
      instances: memory ([kfs/formatter.go]), a window of another device
      ([kfs/format.go], [Offset]) and a choice of two; the blank-device scan
      ([services/fs/blank.go]).  [SectorIO]: the read-modify-write loops over
      sectors and what they do to the bytes of a device.
    - [KfsFormat]: superblock, record framing and payloads ([kfs/format.go]).
      [KfsFs]: the file system ([services/fs/kfs.go]): the in-memory maps
      ([kfsMeta]), the log cursor, append, replay, path walking and every
      public operation, in the order of the source.  [Paths]: path splitting.
      [KfsLog], [KfsMount], [KfsCrash], [KfsData], [KfsTree], [KfsOps],
      [KfsHistory]: the log as a list of records, mounting, power loss, file
      contents, the directory tree, one operation, sequences of operations.
      [KfsFormatter]: the image builder ([kfs/formatter.go]).  [KfsTheorems]:
      the properties of KFS.
    - [FsServer]: sessions, the access policy and the request dispatcher of
      [services/fs/server.go] over any store (a class).  [FsPolicy]: its
      properties.
    - [NetWire]: the packet formats of [services/net] ([be.go], [eth.go],
      [ip.go], [arp.go], [udp.go], [tcp.go]).  [NetCodec]: building and
      parsing are inverse, and the theory of the ones-complement checksum.
      [NetRing]: the packet windows ([packet.go]).  [NetTcp]: connections and
      the connection table ([tcp.go]).  [NetTcpStream]: two connections and a
      network that loses, repeats and reorders.  [NetTcpLive]: a network that
      delivers.  [NetStack], [NetStackFacts]: one host's stack
      ([netstack.go], the ARP cache and the UDP ports).  [NetDhcp],
      [NetDhcpFacts]: the DHCP client ([dhcp.go]).  [NetPort],
      [NetPortFacts]: the socket port and the start-up of the service
      ([netport.go], [main.go]).  [NetTheorems]: the properties of the
      network service.
    - [KernHeap]: the pool and the heap ([core/mm.cc], [core/rt.cc]).
      [KernState]: the kernel's tables as one record [K], the log ring and the
      counters ([core/log.cc], [core/perf.cc]), and the class [Platform] of
      what lies outside.  [KernPorts], [KernSched],
      [KernSvc], [KernFsImport]: [core/ports.cc] with [core/fsroute.cc];
      [core/sched.cc] with [core/preempt.cc] and the device assignments of
      [core/vfio.cc]; [core/kernsvc.cc]; [core/fsimport.cc].  [KernCalls]:
      sending, [core/input.cc], the imports of [core/engine.cc], and the
      histories of the kernel as a step relation.  [KernFacts], [KernSafety]:
      what the operations keep, a small kernel for the evaluated examples,
      and where capabilities can come from.
      [KernTheorems], [KernLifecycle], [KernFsTheorems]: the properties.
    - [TermFb], [TermState], [Terminal], [TermFlush]: the display
      terminal ([services/display/terminal]): palette and font, the window and
      its mailbox ([fb.go], [fb_fake.go]), the [Terminal] structure, the
      parser with every operation, and rendering ([term.go]).  [TermFacts]:
      its invariant.  [TermEscape]: control sequences and the alternate
      screen.  [TermText]: plain text and its transcript.  [TermPaint],
      [TermServe]: what the drawing loops paint and the mailbox protocol (a
      class with the host backend as its instance).  [TermTheorems]: the
      properties.
    - [Guest], [FsClient], [Registry]: the guest library ([guests/lib]): the
      port client and the reply book ([frame.go], [kern.go]), the file client
      ([fsclient.go]), and the registry, power and device clients
      ([registry.go]), over the class [Kernel] of a guest's calls.
      [GoText]: the text functions and the digest of Go's library
      that the services use.  [Login], [Supervisor]: [services/login] and
      [services/init] with the control client ([initctl.go]).
    - The composition: [KernLink] moves one datagram between two sessions.
      [FsLink] proves the file client against two classes, a store of files
      and a carrier of requests; [FsBox] is the carrier made of the kernel, the
      server's loop and KFS.  [SvcFacts]: requests of a session to the
      kernel's endpoints.  [RegistryFacts]: the registry client over the
      kernel.  [SweepFacts]: the supervisor over the kernel.
    - The kernel's WebAssembly engine ([core/wasm]).  [WasmNum]: the data of
      [wasm.h] and the numeric instructions.  [WasmDecode]: the reader, the
      lowering of a body and the sections.  [WasmModule]: the validator and
      the acceptance of a module.  [WasmRun]: the interpreter, instantiation
      and the session ([owned_session.cc]).  [WasmWalk], [WasmLower],
      [WasmPlain], [WasmSafe], [WasmAccept]: what the validator knows at each
      instruction, how blocks are paired, the instructions one by one, the
      invariant of the interpreter, and how a session reaches it and pauses.
      [WasmTheorems]: the properties.
    - [ModuleTools]: the package manager ([services/pkg/pkg.go]), the tools
      that stamp and sign modules ([tools/modulesign], [tools/module-sign],
      [scripts/add_abiver.py]), and the numbers and sample module of the
      native compiler ([services/jitc/leb.go], [fibmod.go]).  [ModuleFacts]: a
      module as a list of sections, for every one of them and for the kernel.
      [ModuleTheorems]: the properties.

    ** How code and model correspond

    Definitions keep the names of the source; a method [T.m] whose name is
    taken is [T_m].  A Go function that changes state is a computation in the
    monad [M S E]: it gets a state and returns an outcome and the new state,
    and the state changes made before an error stay.  [Panic] is a run-time
    panic, and for the locks of the network stack also a lock that is never
    released.  Fixed-width integers are [Z] with the wrap-around written out
    ([u16], [u32], [u64], [i64]).  A pointer shared by several holders is an
    index into the state (UDP queues, TCP connections by local port).  Devices
    and packet feeds are classes; theorems about the code above them hold for
    every lawful instance.  A kernel function is a function of [K] in the
    state monad [KM], or a plain function of [K] when it changes nothing; its
    result codes are the source's, its pointers are [Z] with 0 for null, and
    its fixed tables are lists of the same length.

    ** What the theorems show

    - KFS: a session of operations is the same after a remount; an append cut
      by a power loss leaves the old or the new log; reads return what was
      written; the lazy and the eager reader agree; the host tool and the
      guest write the same bytes; record corruption is detected; deletes,
      huge offsets and the host replay break as stated.
    - File server: a user is confined to the own home and the public
      directories, for every request; replies match requests; /boot is never
      writable; a full listing does not fit a datagram.
    - Network: the window is a queue and is safe on any memory; the TCP stream
      is in order under any network, respects the window, and is delivered
      over a network that delivers; the states in which TCP loses data; wire
      round trips and corruption detection; ping, ARP and UDP end to end;
      the receive path that locks itself out; DHCP parsing and acquisition;
      the renewal that never settles; requests touch only their socket.
    - Kernel: datagrams arrive in order under the sender's true uid; no history
      of unprivileged calls adds a capability; every request to an endpoint is
      answered once; a ready session runs within twelve passes; heap blocks
      never overlap; the log ring keeps the last 16 KiB; a kill revokes
      everything; the file service reads the requests the kernel builds.  And
      where this fails: a port name with a NUL makes its creator the login
      service, an exit leaves its handles to the slot's next session, a drain
      hides other senders' messages, a self-kill is undone, one size class is
      never recycled, long routed writes are lost and calls without a file
      service use up the reply table.
    - Terminal: any bytes keep it well formed as long as their scrolling
      regions end on the screen; plain text shows as the last lines of its
      transcript; the alternate screen gives the screen back; [Flush] paints
      every pixel from the grid, the font and the cursor and no other.  And
      where it fails: a region below the screen and a window larger than its
      mapping panic, a mouse press is encoded as a release.
    - Composition: a file written through the client library, the kernel and
      the file service is on the volume and is read back; the registry client
      lists exactly the sessions the kernel has, and a sweep of the supervisor
      follows it.  And where it fails: the supervisor's answer to a control
      request can be a request to the kernel, and a dead service whose slot
      is taken is never started again.
    - Engine: whatever bytes the kernel accepts as a program run without a
      fault, and the only errors are the session's limits and the host's
      failures; pauses are invisible; lowering pairs blocks; bit operations,
      memory and growing do what WebAssembly says.  And where it fails:
      rounding of ties, truncation near the bounds, and a stack overflow in a
      call that is not recorded.
    - Modules: what is installed was signed and is what runs; a signed module
      installs and decodes as it was; a stamp is read alike by all; the
      compiler's numbers are the kernel's.  And where it fails: two stamps give
      two versions, and the sample module cannot be started.

    ** Bounds and fuel

    Recursion that is not structural takes fuel that the callers choose large
    enough: the number of bytes to write or read (each round moves at least
    one), the length of the log (each record is at least a header), the
    length of a message, the number of queued bytes, or the whole range of
    16-bit ports.  Theorems are stated for the callers, so running out of fuel
    would show as a result they exclude.  Budgets of the source (ARP and DHCP
    polls, ping, the spins of a routed call) are the model's own loop bounds.
    The size-class search makes at most 17 steps and the walk of the large
    list at most one per header.  The terminal's loops run as often as their
    bounds say; the poll of the framebuffer mailbox runs over a schedule of
    the backend's turns, and two turns are enough for a flush.  The guest
    library polls as often as its budget says; its loops without a bound (the
    search for a free reply port, the wait for the login port) take fuel, and
    running out of it is no result.  The engine's loops are bounded as in the
    source: at most 64 sections and a million instructions, five or ten bytes
    of a number, 64 rounds of a bit count.  The interpreter runs a given number
    of rounds; its safety is stated for each round, so it holds for all.  A
    scan of a module's sections takes at most one round per byte.

    ** What is not modelled

    In the network and display services, kernel calls (ports, clock, entropy,
    memory mapping) are arguments or absent; goroutine scheduling is not
    modelled, so each operation runs to its end; log lines are left out.  In a
    composition the other session runs when the caller yields, for any number
    of rounds of its loop.  The FAT16 store is
    modelled up to its path splitter.  In the kernel, locks and interrupt
    masking do not appear, as one core runs sessions and no operation modelled
    here is interrupted; context switches, device polling, the choice of the
    pool from the firmware's memory map, BAR mapping, the IOMMU, and the
    imports' bounds checks on guest memory are left out; the start of a
    WebAssembly image, PCI configuration space and uninitialised memory are
    the class [Platform] there.  In the engine, the arena's allocations
    succeed; the functions a program imports ([wasi_bridge.cc] and the imports
    of [engine.cc]) are the class [Host], of which only is asked that a
    function that completes has filled in its results and that none yields;
    which NaN an operation gives is the class [NaNs].  Ed25519 and the package
    manager's file system are classes with laws.  The compiler itself, boot and
    drivers, the shell, radio and remote shell services, the loops of the
    display service and the remaining tools are outside this library. *)

From Stdlib Require Export ZArith Lia.
From coqutil Require Export Byte Word.LittleEndianList.
From stdpp Require Export base strings numbers gmap list.
From Stdlib Require Strings.String.

#[export] Set Default Proof Using "Type".
Open Scope Z_scope.

(** ** Bytes and strings

    A Go [byte] is an element of the 256-value type [byte]; a Go [[]byte] and
    a Go [string] are both lists of bytes. *)

#[export] Instance byte_eq_decision : EqDecision byte := Byte.byte_eq_dec.

Definition bs (s : string) : list byte := Stdlib.Strings.String.list_byte_of_string s.

Abbreviation b2z := byte.unsigned.
Abbreviation z2b := byte.of_Z.

Lemma b2z_range (b : byte) : 0 <= b2z b < 256.
Proof. apply byte.unsigned_range. Qed.

Lemma b2z_z2b (z : Z) : b2z (z2b z) = z mod 256.
Proof. apply byte.unsigned_of_Z. Qed.

Lemma z2b_b2z (b : byte) : z2b (b2z b) = b.
Proof. apply byte.of_Z_unsigned. Qed.

#[export] Instance byte_countable : Countable byte := inj_countable Byte.to_N Byte.of_N Byte.of_to_N.

(** ** Machine integers: the wrap-around of each width *)

Definition u8 (z : Z) : Z := z mod 2 ^ 8.
Definition u16 (z : Z) : Z := z mod 2 ^ 16.
Definition u32 (z : Z) : Z := z mod 2 ^ 32.
Definition u64 (z : Z) : Z := z mod 2 ^ 64.
Definition swrap (w z : Z) : Z := (z + 2 ^ (w - 1)) mod 2 ^ w - 2 ^ (w - 1).
Definition i32 (z : Z) : Z := swrap 32 z.
Definition i64 (z : Z) : Z := swrap 64 z.

Lemma u16_range z : 0 <= u16 z < 2 ^ 16.
Proof. apply Z.mod_pos_bound; lia. Qed.
Lemma u32_range z : 0 <= u32 z < 2 ^ 32.
Proof. apply Z.mod_pos_bound; lia. Qed.
Lemma u64_range z : 0 <= u64 z < 2 ^ 64.
Proof. apply Z.mod_pos_bound; lia. Qed.
Lemma u16_small z : 0 <= z < 2 ^ 16 -> u16 z = z.
Proof. apply Z.mod_small. Qed.
Lemma u32_small z : 0 <= z < 2 ^ 32 -> u32 z = z.
Proof. apply Z.mod_small. Qed.
Lemma u64_small z : 0 <= z < 2 ^ 64 -> u64 z = z.
Proof. apply Z.mod_small. Qed.
Lemma i64_small z : - 2 ^ 63 <= z < 2 ^ 63 -> i64 z = z.
Proof. intros H. unfold i64, swrap. rewrite Z.mod_small by lia. lia. Qed.

(** ** Outcomes and the state-and-error monad

    A Go function that returns an [error] gives [Ok] or [Err]; a run-time
    panic (an index or a slice bound out of range) is [Panic].  State
    changes made before an error stay, as in Go. *)

Inductive outcome (E A : Type) : Type :=
| Ok (a : A)
| Err (e : E)
| Panic.
Arguments Ok {E A} a.
Arguments Err {E A} e.
Arguments Panic {E A}.

#[export] Instance outcome_ret E : MRet (outcome E) := fun A a => Ok a.
#[export] Instance outcome_bind E : MBind (outcome E) := fun A B f m =>
  match m with Ok a => f a | Err e => Err e | Panic => Panic end.

Definition M (S E A : Type) : Type := S -> outcome E A * S.

#[export] Instance M_ret S E : MRet (M S E) := fun A a s => (Ok a, s).
#[export] Instance M_bind S E : MBind (M S E) := fun A B f m s =>
  match m s with
  | (Ok a, s') => f a s'
  | (Err e, s') => (Err e, s')
  | (Panic, s') => (Panic, s')
  end.

Definition throw {S E A} (e : E) : M S E A := fun s => (Err e, s).
Definition panic {S E A} : M S E A := fun s => (Panic, s).
Definition getS {S E} : M S E S := fun s => (Ok s, s).
Definition putS {S E} (s : S) : M S E unit := fun _ => (Ok tt, s).
Definition modifyS {S E} (f : S -> S) : M S E unit := fun s => (Ok tt, f s).

(** A pure outcome inside a computation, and an error turned into a value
    ([if err != nil { break }]). *)
Definition liftO {S E A} (o : outcome E A) : M S E A := fun s => (o, s).
Definition catch {S E A} (m : M S E A) : M S E (option A) := fun s =>
  match m s with
  | (Ok a, s') => (Ok (Some a), s')
  | (Err _, s') => (Ok None, s')
  | (Panic, s') => (Panic, s')
  end.

(** [x, err := m] where the caller inspects [err]. *)
Definition attempt {S E A} (m : M S E A) : M S E (E + A) := fun s =>
  match m s with
  | (Ok a, s') => (Ok (inr a), s')
  | (Err e, s') => (Ok (inl e), s')
  | (Panic, s') => (Panic, s')
  end.

Lemma bind_ok {S E A B} (m : M S E A) (f : A -> M S E B) s a s' :
  m s = (Ok a, s') -> (m ≫= f) s = f a s'.
Proof. intros H. unfold mbind, M_bind. by rewrite H. Qed.

Lemma bind_err {S E A B} (m : M S E A) (f : A -> M S E B) s e s' :
  m s = (Err e, s') -> (m ≫= f) s = (Err e, s').
Proof. intros H. unfold mbind, M_bind. by rewrite H. Qed.

Lemma bind_panic {S E A B} (m : M S E A) (f : A -> M S E B) s s' :
  m s = (Panic, s') -> (m ≫= f) s = (Panic, s').
Proof. intros H. unfold mbind, M_bind. by rewrite H. Qed.

Lemma catch_ok {S E A} (m : M S E A) s a s' :
  m s = (Ok a, s') -> catch m s = (Ok (Some a), s').
Proof. intros H. unfold catch. by rewrite H. Qed.
Lemma catch_err {S E A} (m : M S E A) s e s' :
  m s = (Err e, s') -> catch m s = (Ok None, s').
Proof. intros H. unfold catch. by rewrite H. Qed.

Lemma bind_getS {S E B} (f : S -> M S E B) s : (getS ≫= f) s = f s s.
Proof. done. Qed.
Lemma bind_modifyS {S E B} g (f : unit -> M S E B) s : (modifyS g ≫= f) s = f tt (g s).
Proof. done. Qed.
Lemma bind_mret {S E A B} (a : A) (f : A -> M S E B) s : (mret a ≫= f) s = f a s.
Proof. done. Qed.
Lemma bind_liftO {S E A B} (a : A) (f : A -> M S E B) s : (liftO (Ok a) ≫= f) s = f a s.
Proof. done. Qed.

Lemma bind_inv_ok {S E A B} (m : M S E A) (f : A -> M S E B) s b s2 :
  (m ≫= f) s = (Ok b, s2) ->
  exists a s1, m s = (Ok a, s1) /\ f a s1 = (Ok b, s2).
Proof.
  unfold mbind, M_bind. destruct (m s) as [[a|e|] s1]; intros H; simplify_eq; eauto.
Qed.

(** The state a computation ends in, when its outcome is known. *)
Lemma outcome_eta {S E A} (x : outcome E A * S) r : fst x = r -> x = (r, snd x).
Proof. intros <-. by destruct x. Qed.

(** ** Slices: Go's [l[lo:hi]] and [copy(l[off:], src)] *)

Definition zlen {A} (l : list A) : Z := Z.of_nat (length l).

Definition slice {A} (l : list A) (lo hi : Z) : list A :=
  take (Z.to_nat (hi - lo)) (drop (Z.to_nat lo) l).

Definition splice {A} (l : list A) (off : Z) (src : list A) : list A :=
  take (Z.to_nat off) l ++ take (length l - Z.to_nat off) src
    ++ drop (Z.to_nat off + length src) l.

(** [b[i]] on a slice known to be long enough. *)
Definition idx (l : list byte) (i : Z) : byte := default Byte.x00 (l !! Z.to_nat i).

(** [make([]byte, n)] *)
Definition mkbuf (n : Z) : list byte := replicate (Z.to_nat n) Byte.x00.

Lemma zlen_nonneg {A} (l : list A) : 0 <= zlen l.
Proof. unfold zlen. lia. Qed.
Lemma zlen_nil {A} : zlen (@nil A) = 0.
Proof. done. Qed.
Lemma zlen_cons {A} (x : A) l : zlen (x :: l) = 1 + zlen l.
Proof. unfold zlen. simpl. lia. Qed.
Lemma zlen_app {A} (l k : list A) : zlen (l ++ k) = zlen l + zlen k.
Proof. unfold zlen. rewrite length_app. lia. Qed.
Lemma zlen_mkbuf n : 0 <= n -> zlen (mkbuf n) = n.
Proof. intros. unfold zlen, mkbuf. rewrite length_replicate. lia. Qed.
Lemma zlen_le_split n z : zlen (le_split n z) = Z.of_nat n.
Proof. unfold zlen. by rewrite length_le_split. Qed.

(** The [zlen] rewrite base holds the length of every construction of the
    development; [len_solve] closes goals about such lengths. *)
Create Rewrite HintDb zlen.
#[export] Hint Rewrite @zlen_app @zlen_le_split @zlen_cons @zlen_nil : zlen.

Ltac len_solve :=
  first [done | lia | autorewrite with zlen in *; first [done | lia]].

(** The lookup form of each slice operation: equalities between slices are
    proved index by index ([list_ext]). *)

Lemma lookup_slice {A} (l : list A) lo hi i :
  slice l lo hi !! i =
  if decide (i < Z.to_nat (hi - lo))%nat then l !! (Z.to_nat lo + i)%nat else None.
Proof.
  unfold slice. case_decide.
  - rewrite lookup_take_lt by lia. by rewrite lookup_drop.
  - by rewrite lookup_take_ge by lia.
Qed.

Lemma lookup_splice {A} (l : list A) off src i :
  (Z.to_nat off <= length l)%nat ->
  splice l off src !! i =
  if decide (Z.to_nat off <= i < Z.to_nat off + length src /\ i < length l)%nat
  then src !! (i - Z.to_nat off)%nat else l !! i.
Proof.
  intros Hoff. unfold splice.
  destruct (decide (i < Z.to_nat off)%nat).
  { rewrite lookup_app_l by (rewrite length_take; lia).
    rewrite lookup_take_lt by lia. rewrite decide_False by lia. done. }
  rewrite lookup_app_r by (rewrite length_take; lia).
  rewrite length_take, Nat.min_l by lia.
  destruct (decide (i - Z.to_nat off < length (take (length l - Z.to_nat off) src))%nat) as [H|H];
    rewrite length_take in H.
  { rewrite lookup_app_l by (rewrite length_take; lia).
    rewrite lookup_take_lt by lia. by rewrite decide_True by lia. }
  rewrite lookup_app_r by (rewrite length_take; lia).
  rewrite length_take, lookup_drop.
  destruct (decide (i < length l)%nat).
  - rewrite decide_False by lia. f_equal. lia.
  - rewrite decide_False by lia. rewrite !lookup_ge_None_2; [done|lia|lia].
Qed.

Lemma length_slice {A} (l : list A) lo hi :
  length (slice l lo hi) = Nat.min (Z.to_nat (hi - lo)) (length l - Z.to_nat lo).
Proof. unfold slice. by rewrite length_take, length_drop. Qed.

Lemma zlen_slice {A} (l : list A) lo hi :
  0 <= lo <= hi -> hi <= zlen l -> zlen (slice l lo hi) = hi - lo.
Proof. unfold zlen. intros. rewrite length_slice. lia. Qed.

Lemma length_splice {A} (l : list A) off src :
  (Z.to_nat off <= length l)%nat -> length (splice l off src) = length l.
Proof.
  intros H. unfold splice. rewrite !length_app, !length_take, length_drop. lia.
Qed.

Lemma zlen_splice {A} (l : list A) off src :
  0 <= off <= zlen l -> zlen (splice l off src) = zlen l.
Proof. unfold zlen. intros. rewrite length_splice; lia. Qed.

(** [list_ext] proves two lists equal index by index. *)
Ltac zlens := unfold zlen in *; rewrite ?length_slice, ?length_app, ?length_take, ?length_drop in *.

Ltac list_ext_step :=
  match goal with
  | |- context [slice _ _ _ !! _] => rewrite lookup_slice
  | |- context [splice _ _ _ !! _] =>
      rewrite lookup_splice by (rewrite ?length_splice, ?length_slice, ?length_drop, ?length_take, ?length_app by lia; lia)
  | |- context [take ?n _ !! ?i] =>
      destruct (decide (i < n)%nat);
      [rewrite (lookup_take_lt _ n i) by lia | rewrite (lookup_take_ge _ n i) by lia]
  | |- context [drop _ _ !! _] => rewrite lookup_drop
  | |- context [(?l ++ _) !! ?i] =>
      destruct (decide (i < length l)%nat);
      [rewrite (lookup_app_l l) by lia | rewrite (lookup_app_r l) by lia]
  | |- context [decide ?P] => destruct (decide P)
  end.

Ltac list_norm := cbn [length] in *; rewrite ?length_splice, ?length_slice, ?length_app, ?length_take, ?length_drop in * by lia.

Ltac list_ext :=
  unfold zlen in *; apply list_eq; intros i; repeat (list_ext_step; list_norm);
  try (f_equal; lia); try lia; rewrite ?lookup_ge_None_2 by lia; try done.

Lemma slice_splice_same {A} (l src : list A) off :
  0 <= off -> off + zlen src <= zlen l ->
  slice (splice l off src) off (off + zlen src) = src.
Proof. intros. list_ext. Qed.

Lemma slice_splice_before {A} (l src : list A) off lo hi :
  0 <= lo -> hi <= off -> off <= zlen l ->
  slice (splice l off src) lo hi = slice l lo hi.
Proof. intros. list_ext. Qed.

Lemma slice_splice_after {A} (l src : list A) off lo hi :
  0 <= off <= zlen l -> off + zlen src <= lo ->
  slice (splice l off src) lo hi = slice l lo hi.
Proof. intros. list_ext. Qed.

Lemma slice_app_split {A} (l : list A) lo mid hi :
  0 <= lo <= mid -> mid <= hi -> hi <= zlen l ->
  slice l lo hi = slice l lo mid ++ slice l mid hi.
Proof. intros. list_ext. Qed.

Lemma slice_slice {A} (l : list A) lo hi a b :
  0 <= lo -> 0 <= a -> b <= hi - lo ->
  slice (slice l lo hi) a b = slice l (lo + a) (lo + b).
Proof. intros. list_ext. Qed.

Lemma slice_full {A} (l : list A) hi : hi = zlen l -> slice l 0 hi = l.
Proof. intros ->. list_ext. Qed.

Lemma slice_empty {A} (l : list A) lo hi : hi <= lo -> slice l lo hi = [].
Proof. intros. unfold slice. by replace (Z.to_nat (hi - lo)) with 0%nat by lia. Qed.

Lemma Forall_splice {A} (P : A -> Prop) l off src :
  Forall P l -> Forall P src -> Forall P (splice l off src).
Proof. intros. unfold splice. repeat apply Forall_app_2; auto using Forall_take, Forall_drop. Qed.

Lemma splice_nil {A} (l : list A) off : 0 <= off <= zlen l -> splice l off [] = l.
Proof. intros. list_ext. Qed.

Lemma splice_app {A} (l s t : list A) off :
  0 <= off -> off + zlen s + zlen t <= zlen l ->
  splice (splice l off s) (off + zlen s) t = splice l off (s ++ t).
Proof. intros. list_ext. Qed.
