(* ===== verification/Frame.v ===== *)
(** * Frame: the little-endian framing primitives and the canonical header

    Models [guests/lib/frame.go]: [Put16]..[Get64], [AppendLStr]/[LStr], the
    24-byte canonical datagram header ([ParseHeader], [FrameCanonical]) and the
    NUL-padded name field ([padName], [cstr16] of [guests/lib/registry.go]).
    [kfs/format.go] carries byte-identical copies of the accessors.

    Go's [Put32(b[off:], v)] is [Put32 b off v]; a read [Get32(b[off:])] is
    [Get32 b off].  The shared lemmas give each accessor as a splice or a
    combination of a slice, and read back what was written. *)

From S2P Require Import Prelude.

(** ** Accessors *)

Definition Put16 (b : list byte) (off v : Z) : list byte :=
  splice b off [z2b v; z2b (Z.shiftr v 8)].

Definition Put32 (b : list byte) (off v : Z) : list byte :=
  splice b off [z2b v; z2b (Z.shiftr v 8); z2b (Z.shiftr v 16); z2b (Z.shiftr v 24)].

Definition Put64 (b : list byte) (off v : Z) : list byte :=
  splice b off (map (fun i => z2b (Z.shiftr v (8 * Z.of_nat i))) (seq 0 8)).

Definition Get16 (b : list byte) (off : Z) : Z :=
  Z.lor (b2z (idx b off)) (Z.shiftl (b2z (idx b (off + 1))) 8).

Definition Get32 (b : list byte) (off : Z) : Z :=
  Z.lor (Z.lor (Z.lor (b2z (idx b off)) (Z.shiftl (b2z (idx b (off + 1))) 8))
    (Z.shiftl (b2z (idx b (off + 2))) 16)) (Z.shiftl (b2z (idx b (off + 3))) 24).

Definition Get64 (b : list byte) (off : Z) : Z :=
  fold_left (fun v i => Z.lor (u64 (Z.shiftl v 8)) (b2z (idx b (off + i))))
    [7; 6; 5; 4; 3; 2; 1; 0] 0.

(** ** Length-prefixed strings *)

Definition AppendLStr (dst s : list byte) : list byte :=
  dst ++ [z2b (zlen s); z2b (Z.shiftr (zlen s) 8)] ++ s.

(** [None] is the Go result [ok=false]. *)
Definition LStr (b : list byte) (off : Z) : option (list byte * Z) :=
  if zlen b <? off + 2 then None
  else
    let n := Get16 b off in
    let off := off + 2 in
    if zlen b <? off + n then None
    else Some (slice b off (off + n), off + n).

(** ** The canonical datagram header *)

Definition CanonicalHeaderLen : Z := 24.

Record HeaderView := mkHeader { Op : Z; Seq : Z; UID : Z; RNam : list byte }.

Fixpoint cstr16 (b : list byte) : list byte :=
  match b with
  | [] => []
  | c :: b' => if decide (c = Byte.x00) then [] else c :: cstr16 b'
  end.

Definition padName (s : list byte) : list byte := splice (mkbuf 16) 0 s.

Definition ParseHeader (b : list byte) : option HeaderView :=
  if zlen b <? CanonicalHeaderLen then None
  else Some (mkHeader (Get16 b 0) (Get16 b 2) (Get32 b 4) (cstr16 (slice b 8 24))).

Definition FrameCanonical (op seq : Z) (rname payload : list byte) : list byte :=
  let req := mkbuf CanonicalHeaderLen in
  let req := Put16 req 0 op in
  let req := Put16 req 2 seq in
  let req := splice req 8 (padName rname) in
  req ++ payload.

(** ** Accessors as slices of [le_split]/[le_combine] *)

Lemma idx_slice b off i n :
  0 <= off -> 0 <= i < n -> idx (slice b off (off + n)) i = idx b (off + i).
Proof.
  intros. unfold idx. rewrite lookup_slice. rewrite decide_True by lia.
  do 2 f_equal. lia.
Qed.

Lemma Put16_split b off v : Put16 b off v = splice b off (le_split 2 v).
Proof. done. Qed.

Lemma Put32_split b off v : Put32 b off v = splice b off (le_split 4 v).
Proof. reflexivity. Qed.

Lemma Put64_split b off v : Put64 b off v = splice b off (le_split 8 v).
Proof. reflexivity. Qed.

Lemma le_split_u32 v : le_split 4 (u32 v) = le_split 4 v.
Proof. unfold u32. symmetry. apply (le_split_mod v 4). Qed.

Lemma list_of_length2 {A} (l : list A) :
  length l = 2%nat -> exists a b, l = [a; b].
Proof. destruct l as [|a [|b [|]]]; try done. eauto. Qed.

Lemma list_of_length4 {A} (l : list A) :
  length l = 4%nat -> exists a b c d, l = [a; b; c; d].
Proof. destruct l as [|a [|b [|c [|d [|]]]]]; try done. eauto 10. Qed.

Lemma Get16_combine b off :
  0 <= off -> off + 2 <= zlen b -> Get16 b off = le_combine (slice b off (off + 2)).
Proof.
  intros. unfold Get16.
  rewrite <- (Z.add_0_r off) at 1.
  rewrite <- !(idx_slice b off _ 2) by lia.
  destruct (list_of_length2 (slice b off (off + 2))) as (x & y & ->).
  { rewrite length_slice. unfold zlen in *. lia. }
  unfold idx, le_combine. simpl. rewrite Z.shiftl_0_l, Z.lor_0_r. done.
Qed.

Lemma Get32_combine b off :
  0 <= off -> off + 4 <= zlen b -> Get32 b off = le_combine (slice b off (off + 4)).
Proof.
  intros. unfold Get32.
  rewrite <- (Z.add_0_r off) at 1.
  rewrite <- !(idx_slice b off _ 4) by lia.
  destruct (list_of_length4 (slice b off (off + 4))) as (x & y & z & w & ->).
  { rewrite length_slice. unfold zlen in *. lia. }
  unfold idx, le_combine. cbn -[Z.shiftl Z.lor].
  rewrite Z.shiftl_0_l, Z.lor_0_r, !Z.shiftl_lor, !Z.shiftl_shiftl by lia.
  rewrite !Z.lor_assoc. done.
Qed.

Lemma le_combine_cons x l :
  le_combine (x :: l) = Z.lor (b2z x) (Z.shiftl (le_combine l) 8).
Proof. done. Qed.

Lemma Get64_step x l :
  (length l <= 7)%nat ->
  Z.lor (u64 (Z.shiftl (le_combine l) 8)) (b2z x) = le_combine (x :: l).
Proof.
  intros Hl. rewrite le_combine_cons, Z.lor_comm. f_equal.
  pose proof (le_combine_bound l) as Hb.
  apply u64_small. rewrite Z.shiftl_mul_pow2 by lia.
  assert (2 ^ (8 * Z.of_nat (length l)) <= 2 ^ 56) by (apply Z.pow_le_mono_r; lia).
  lia.
Qed.

Lemma Get64_combine b off :
  0 <= off -> off + 8 <= zlen b -> Get64 b off = le_combine (slice b off (off + 8)).
Proof.
  intros. unfold Get64. simpl fold_left.
  rewrite <- !(idx_slice b off _ 8) by lia.
  assert (Hlen : length (slice b off (off + 8)) = 8%nat).
  { rewrite length_slice. unfold zlen in *. lia. }
  destruct (slice b off (off + 8)) as [|b0 [|b1 [|b2 [|b3 [|b4 [|b5 [|b6 [|b7 [|]]]]]]]]];
    try done.
  unfold idx. simpl.
  change 0 with (le_combine []) at 1.
  rewrite !Get64_step by (simpl; lia). done.
Qed.

Lemma le_combine_split_small n v :
  0 <= v < 2 ^ (8 * Z.of_nat n) -> le_combine (le_split n v) = v.
Proof.
  intros. rewrite le_combine_split. apply Z.mod_small.
  by rewrite (Z.mul_comm (Z.of_nat n)).
Qed.

Lemma Get16_range b off : 0 <= Get16 b off < 2 ^ 16.
Proof.
  replace (Get16 b off) with (le_combine [idx b off; idx b (off + 1)]).
  { apply le_combine_bound. }
  unfold Get16, le_combine. by rewrite Z.shiftl_0_l, Z.lor_0_r.
Qed.

Lemma Get32_range b off : 0 <= Get32 b off < 2 ^ 32.
Proof.
  replace (Get32 b off) with
    (le_combine [idx b off; idx b (off + 1); idx b (off + 2); idx b (off + 3)]).
  { apply le_combine_bound. }
  unfold Get32, le_combine.
  rewrite Z.shiftl_0_l, Z.lor_0_r, !Z.shiftl_lor, !Z.shiftl_shiftl, !Z.lor_assoc by lia.
  done.
Qed.

Lemma Get64_range b off : 0 <= Get64 b off < 2 ^ 64.
Proof.
  replace (Get64 b off) with (le_combine (map (fun i => idx b (off + i)) [0; 1; 2; 3; 4; 5; 6; 7])).
  { apply le_combine_bound. }
  unfold Get64. simpl fold_left. cbn [map].
  repeat match goal with |- context [idx b ?o] => generalize (idx b o); intros ? end.
  change 0 with (le_combine []).
  by rewrite !Get64_step by (simpl; lia).
Qed.

(** Reading a field of a concatenation: skip the pieces before it, then read
    it at the front.  [fields] does this for buffers whose pieces have known
    lengths. *)

Lemma slice_app_mid {A} (p m q : list A) lo hi :
  lo = zlen p -> hi = lo + zlen m -> slice (p ++ m ++ q) lo hi = m.
Proof. intros -> ->. list_ext. Qed.

Lemma slice_skip {A} (p q : list A) lo hi lo' :
  lo = zlen p + lo' -> 0 <= lo' -> slice (p ++ q) lo hi = slice q lo' (hi - zlen p).
Proof. intros -> ?. list_ext. Qed.

Lemma slice_here {A} (p q : list A) hi : hi = zlen p -> slice (p ++ q) 0 hi = p.
Proof. intros ->. by rewrite (slice_app_mid [] p q). Qed.

Lemma slice_tail {A} (p m : list A) lo hi :
  lo = zlen p -> hi = lo + zlen m -> slice (p ++ m) lo hi = m.
Proof. intros -> ->. list_ext. Qed.

Lemma idx_skip p q off off' :
  off = zlen p + off' -> 0 <= off' -> idx (p ++ q) off = idx q off'.
Proof.
  intros -> ?. unfold idx, zlen. rewrite lookup_app_r by lia. do 2 f_equal. lia.
Qed.

Lemma idx_here (x : byte) q : idx (x :: q) 0 = x.
Proof. done. Qed.

Lemma Get16_skip p q off off' :
  off = zlen p + off' -> 0 <= off' -> Get16 (p ++ q) off = Get16 q off'.
Proof.
  intros. unfold Get16.
  by rewrite (idx_skip p q off off'), (idx_skip p q (off + 1) (off' + 1)) by lia.
Qed.

Lemma Get32_skip p q off off' :
  off = zlen p + off' -> 0 <= off' -> Get32 (p ++ q) off = Get32 q off'.
Proof.
  intros. unfold Get32.
  rewrite (idx_skip p q off off'), (idx_skip p q (off + 1) (off' + 1)),
    (idx_skip p q (off + 2) (off' + 2)), (idx_skip p q (off + 3) (off' + 3)) by lia. done.
Qed.

Lemma Get64_skip p q off off' :
  off = zlen p + off' -> 0 <= off' -> Get64 (p ++ q) off = Get64 q off'.
Proof.
  intros. unfold Get64. simpl fold_left.
  rewrite (idx_skip p q (off + 7) (off' + 7)), (idx_skip p q (off + 6) (off' + 6)),
    (idx_skip p q (off + 5) (off' + 5)), (idx_skip p q (off + 4) (off' + 4)),
    (idx_skip p q (off + 3) (off' + 3)), (idx_skip p q (off + 2) (off' + 2)),
    (idx_skip p q (off + 1) (off' + 1)), (idx_skip p q (off + 0) (off' + 0)) by lia. done.
Qed.

Lemma Get16_here v q : Get16 (le_split 2 v ++ q) 0 = u16 v.
Proof.
  pose proof (zlen_nonneg q).
  rewrite Get16_combine by len_solve. rewrite slice_here by len_solve.
  by rewrite le_combine_split.
Qed.

Lemma Get32_here v q : Get32 (le_split 4 v ++ q) 0 = u32 v.
Proof.
  pose proof (zlen_nonneg q).
  rewrite Get32_combine by len_solve. rewrite slice_here by len_solve.
  by rewrite le_combine_split.
Qed.

Lemma Get64_here v q : Get64 (le_split 8 v ++ q) 0 = u64 v.
Proof.
  pose proof (zlen_nonneg q).
  rewrite Get64_combine by len_solve. rewrite slice_here by len_solve.
  by rewrite le_combine_split.
Qed.

Lemma Get32_end v : Get32 (le_split 4 v) 0 = u32 v.
Proof. rewrite <- (app_nil_r (le_split 4 v)). apply Get32_here. Qed.

Lemma cons_app1 {A} (x : A) l : x :: l = [x] ++ l.
Proof. done. Qed.

Ltac field_skip lem p q off :=
  let n := eval lazy in (zlen p) in
  let o := eval lazy in (off - n) in
  rewrite (lem p q off o) by (first [done | lia]).

Ltac fields :=
  repeat first
  [ rewrite Get16_here | rewrite Get32_here | rewrite Get64_here | rewrite Get32_end
  | rewrite idx_here
  | match goal with
    | |- context [Get16 (?p ++ ?q) ?off] => field_skip Get16_skip p q off
    | |- context [Get32 (?p ++ ?q) ?off] => field_skip Get32_skip p q off
    | |- context [Get64 (?p ++ ?q) ?off] => field_skip Get64_skip p q off
    | |- context [idx (?p ++ ?q) ?off] => field_skip idx_skip p q off
    | |- context [Get32 (?x :: ?q) ?off] =>
        change (Get32 (x :: q) off) with (Get32 ([x] ++ q) off)
    end ].

Lemma AppendLStr_split dst s : AppendLStr dst s = dst ++ le_split 2 (zlen s) ++ s.
Proof. done. Qed.

Lemma zlen_AppendLStr dst s : zlen (AppendLStr dst s) = zlen dst + 2 + zlen s.
Proof. rewrite AppendLStr_split, !zlen_app, zlen_le_split. lia. Qed.

#[export] Hint Rewrite zlen_AppendLStr : zlen.

(** A string written by [AppendLStr] reads back, with the offset just past it,
    whatever follows; the 16-bit length field bounds the strings that do. *)
Lemma LStr_AppendLStr dst s q :
  zlen s < 2 ^ 16 ->
  LStr (AppendLStr dst s ++ q) (zlen dst) = Some (s, zlen dst + 2 + zlen s).
Proof.
  intros Hs. pose proof (zlen_nonneg s). pose proof (zlen_nonneg q). pose proof (zlen_nonneg dst).
  unfold LStr. rewrite AppendLStr_split, <- !app_assoc.
  rewrite (Get16_skip dst _ _ 0), Get16_here by lia. rewrite u16_small by lia.
  rewrite !zlen_app, zlen_le_split.
  rewrite (proj2 (Z.ltb_ge _ _)) by lia. rewrite (proj2 (Z.ltb_ge _ _)) by lia.
  rewrite (app_assoc dst), slice_app_mid by len_solve. done.
Qed.

(** ** The header *)

Lemma padName_eq s :
  zlen s <= 16 -> padName s = s ++ mkbuf (16 - zlen s).
Proof.
  unfold padName, mkbuf. intros H. unfold zlen in *.
  apply list_eq. intros i. rewrite lookup_splice by (rewrite length_replicate; lia).
  rewrite length_replicate. case_decide.
  - rewrite lookup_app_l by lia. f_equal. lia.
  - rewrite lookup_app_r by lia.
    destruct (decide (i < 16)%nat).
    + rewrite !lookup_replicate_2 by lia. done.
    + rewrite !lookup_ge_None_2; [done| |]; rewrite length_replicate; lia.
Qed.

Lemma cstr16_app s q : Byte.x00 ∉ s -> cstr16 (s ++ Byte.x00 :: q) = s.
Proof.
  induction s as [|c s IH]; intros Hn; simpl; [done|].
  rewrite decide_False by set_solver. f_equal. apply IH. set_solver.
Qed.

Lemma cstr16_id s : Byte.x00 ∉ s -> cstr16 s = s.
Proof.
  induction s as [|c s IH]; intros Hn; simpl; [done|].
  rewrite decide_False by set_solver. f_equal. apply IH. set_solver.
Qed.

Lemma cstr16_padName s :
  zlen s <= 16 -> Byte.x00 ∉ s -> cstr16 (padName s) = s.
Proof.
  intros Hl Hn. rewrite padName_eq by done. unfold mkbuf.
  destruct (Z.to_nat (16 - zlen s)) as [|n]; simpl.
  - rewrite app_nil_r. by apply cstr16_id.
  - by apply cstr16_app.
Qed.

Lemma zlen_padName s : zlen (padName s) = 16.
Proof. unfold padName. rewrite zlen_splice, zlen_mkbuf; [done|lia|]. rewrite zlen_mkbuf; lia. Qed.

#[export] Hint Rewrite zlen_padName : zlen.

Lemma splice_mkbuf_prefix (s : list byte) n :
  zlen s <= n -> splice (mkbuf n) 0 s = s ++ mkbuf (n - zlen s).
Proof.
  intros H. unfold mkbuf, zlen in *.
  apply list_eq. intros i. rewrite lookup_splice by (rewrite length_replicate; lia).
  rewrite length_replicate. case_decide.
  - rewrite lookup_app_l by lia. f_equal. lia.
  - rewrite lookup_app_r by lia.
    destruct (decide (i < Z.to_nat n)%nat).
    + rewrite !lookup_replicate_2 by lia. done.
    + rewrite !lookup_ge_None_2; [done| |]; rewrite length_replicate; lia.
Qed.

(** ** Buffers filled from the front *)

Lemma splice_frontier (p s : list byte) n off :
  off = zlen p -> zlen s <= n ->
  splice (p ++ mkbuf n) off s = p ++ s ++ mkbuf (n - zlen s).
Proof.
  intros -> Hs. rewrite <- (splice_mkbuf_prefix s n) by done.
  pose proof (zlen_nonneg s).
  assert (zlen (mkbuf n) = n) by (apply zlen_mkbuf; lia).
  list_ext.
Qed.

Lemma mkbuf_app0 n : mkbuf n = [] ++ mkbuf n.
Proof. done. Qed.

(** [enc_frontier] turns a sequence of in-order writes to a fresh buffer into
    the concatenation of the written fields. *)
Ltac enc_frontier :=
  rewrite ?Put16_split, ?Put32_split, ?Put64_split;
  rewrite (mkbuf_app0 _);
  repeat (rewrite splice_frontier by len_solve; rewrite ?app_assoc);
  rewrite ?zlen_le_split, ?zlen_cons, ?zlen_nil, <- ?app_assoc; cbn [app].

Lemma mkbuf_0 n : n <= 0 -> mkbuf n = [].
Proof. intros. unfold mkbuf. by replace (Z.to_nat n) with 0%nat by lia. Qed.

(** ** A word written into a window *)

Lemma Put32_slice (b : list byte) off v :
  0 <= off -> off + 4 <= zlen b -> slice (Put32 b off v) off (off + 4) = le_split 4 v.
Proof. intros. rewrite Put32_split. change 4 with (zlen (le_split 4 v)) at 1. by apply slice_splice_same. Qed.

Lemma Put32_other (b : list byte) off v lo hi :
  0 <= off -> off + 4 <= zlen b -> 0 <= lo -> hi <= off \/ off + 4 <= lo ->
  slice (Put32 b off v) lo hi = slice b lo hi.
Proof.
  intros Ho Hl Hlo [Hh|Hh]; rewrite Put32_split.
  - apply slice_splice_before; lia.
  - apply slice_splice_after; [lia|]. rewrite zlen_le_split. lia.
Qed.

Lemma zlen_Put32 (b : list byte) off v : 0 <= off <= zlen b -> zlen (Put32 b off v) = zlen b.
Proof. apply zlen_splice. Qed.

Lemma Get32_ext a b k : 0 <= k -> k + 4 <= zlen b -> zlen a = zlen b ->
  slice a k (k + 4) = slice b k (k + 4) -> Get32 a k = Get32 b k.
Proof. intros Hk Hb Hl E. rewrite !Get32_combine by lia. by rewrite E. Qed.

Lemma Get64_ext a b k : 0 <= k -> k + 8 <= zlen b -> zlen a = zlen b ->
  slice a k (k + 8) = slice b k (k + 8) -> Get64 a k = Get64 b k.
Proof. intros Hk Hb Hl E. rewrite !Get64_combine by lia. by rewrite E. Qed.

Lemma Get32_Put32_ne m off v k : 0 <= off -> off + 4 <= zlen m -> 0 <= k -> k + 4 <= zlen m ->
  k + 4 <= off \/ off + 4 <= k -> Get32 (Put32 m off v) k = Get32 m k.
Proof. intros. apply Get32_ext; [lia|lia|apply zlen_Put32; lia|]. apply Put32_other; lia. Qed.

Lemma Get32_Put32_eq m off v : 0 <= off -> off + 4 <= zlen m -> Get32 (Put32 m off v) off = u32 v.
Proof.
  intros Ho Hm. rewrite Get32_combine by (rewrite ?zlen_Put32; lia).
  rewrite Put32_slice by lia. apply le_combine_split.
Qed.
