(* ===== verification/Crc32.v ===== *)
(** * Crc32: Go's [hash/crc32.ChecksumIEEE]

    The standard library's table-driven update ([simpleUpdate] over the
    reflected IEEE polynomial), and the error-detection facts the KFS log
    relies on: the update is injective in the register and in the byte, so a
    change confined to one byte of the input always changes the checksum. *)

From S2P Require Import Prelude.

Definition crc_poly : Z := 0xEDB88320.

Definition crc_bit (s : Z) : Z :=
  if Z.odd s then Z.lxor (Z.shiftr s 1) crc_poly else Z.shiftr s 1.

(** Entry [i] of [crc32.IEEETable]. *)
Definition crc_table (i : Z) : Z := Nat.iter 8 crc_bit i.

(** [crc = tab[byte(crc)^v] ^ (crc >> 8)] *)
Definition crc_update (crc : Z) (v : byte) : Z :=
  Z.lxor (crc_table (Z.lxor (Z.land crc 255) (b2z v))) (Z.shiftr crc 8).

Definition ChecksumIEEE (p : list byte) : Z :=
  Z.lxor 0xFFFFFFFF (fold_left crc_update p 0xFFFFFFFF).

Example crc_check_value : ChecksumIEEE (bs "123456789") = 0xCBF43926.
Proof. vm_compute. reflexivity. Qed.

(** ** The top byte of a table entry determines its index *)

Definition crc_tops : list Z :=
  map (fun i => Z.shiftr (crc_table (Z.of_nat i)) 24) (seq 0 256).

Lemma crc_tops_nodup : NoDup crc_tops.
Proof.
  apply (bool_decide_unpack _). vm_compute. exact I.
Qed.

Lemma crc_table_top_inj i j :
  0 <= i < 256 -> 0 <= j < 256 ->
  Z.shiftr (crc_table i) 24 = Z.shiftr (crc_table j) 24 -> i = j.
Proof.
  intros Hi Hj E.
  assert (Hat : forall k, 0 <= k < 256 ->
    crc_tops !! Z.to_nat k = Some (Z.shiftr (crc_table k) 24)).
  { intros k Hk. unfold crc_tops.
    rewrite list_lookup_fmap, lookup_seq_lt by lia. simpl.
    by rewrite Z2Nat.id by lia. }
  pose proof (proj1 (NoDup_alt _) crc_tops_nodup (Z.to_nat i) (Z.to_nat j)
    (Z.shiftr (crc_table i) 24)) as H.
  rewrite (Hat i Hi), (Hat j Hj), E in H. specialize (H eq_refl eq_refl). lia.
Qed.

Lemma crc_table_range_all :
  Forall (fun i => 0 <= crc_table (Z.of_nat i) < 2 ^ 32) (seq 0 256).
Proof. apply (bool_decide_unpack _). vm_compute. exact I. Qed.

Lemma crc_table_range i : 0 <= i < 256 -> 0 <= crc_table i < 2 ^ 32.
Proof.
  intros Hi. assert (Hin : Z.to_nat i ∈ seq 0 256) by (apply elem_of_seq; lia).
  pose proof (proj1 (Forall_forall _ _) crc_table_range_all _ Hin) as H.
  cbv beta in H. by rewrite Z2Nat.id in H by lia.
Qed.

(** ** Range and injectivity of the update *)

Lemma testbit_small_high x n i : 0 <= x < 2 ^ n -> 0 <= n <= i -> Z.testbit x i = false.
Proof.
  intros Hx Hn. destruct (decide (x = 0)) as [->|]; [apply Z.bits_0|].
  apply Z.bits_above_log2; [lia|]. apply Z.log2_lt_pow2; [lia|].
  apply Z.lt_le_trans with (2 ^ n); [lia|]. apply Z.pow_le_mono_r; lia.
Qed.

Lemma bits_small x n :
  0 <= n -> 0 <= x -> (forall i, n <= i -> Z.testbit x i = false) -> x < 2 ^ n.
Proof.
  intros Hn Hx H. destruct (decide (x < 2 ^ n)); [done|exfalso].
  assert (0 < x) by (pose proof (Z.pow_pos_nonneg 2 n); lia).
  assert (Hl : n <= Z.log2 x) by (apply Z.log2_le_pow2; lia).
  specialize (H (Z.log2 x) Hl). rewrite Z.bit_log2 in H by lia. done.
Qed.

Lemma lxor_range a b n :
  0 <= n -> 0 <= a < 2 ^ n -> 0 <= b < 2 ^ n -> 0 <= Z.lxor a b < 2 ^ n.
Proof.
  intros Hn Ha Hb. split; [apply Z.lxor_nonneg; lia|].
  apply bits_small; [done|apply Z.lxor_nonneg; lia|].
  intros i Hi. rewrite Z.lxor_spec.
  rewrite (testbit_small_high a n i), (testbit_small_high b n i) by lia. done.
Qed.

Lemma crc_index_range crc v : 0 <= Z.lxor (Z.land crc 255) (b2z v) < 256.
Proof.
  apply (lxor_range _ _ 8); [lia| |apply b2z_range].
  change 255 with (Z.ones 8). rewrite Z.land_ones by lia. apply Z.mod_pos_bound. lia.
Qed.

Lemma crc_update_range crc v : 0 <= crc < 2 ^ 32 -> 0 <= crc_update crc v < 2 ^ 32.
Proof.
  intros H. unfold crc_update. apply lxor_range; [lia| |].
  - apply crc_table_range, crc_index_range.
  - rewrite Z.shiftr_div_pow2 by lia. split; [apply Z.div_pos; lia|].
    apply Z.div_lt_upper_bound; lia.
Qed.

Lemma crc_update_top crc v :
  0 <= crc < 2 ^ 32 ->
  Z.shiftr (crc_update crc v) 24 =
  Z.shiftr (crc_table (Z.lxor (Z.land crc 255) (b2z v))) 24.
Proof.
  intros H. unfold crc_update. rewrite Z.shiftr_lxor, (Z.shiftr_shiftr crc) by lia.
  rewrite (Z.shiftr_div_pow2 crc) by lia. rewrite Z.div_small by lia.
  apply Z.lxor_0_r.
Qed.

Lemma lxor_cancel_r a b c : Z.lxor a c = Z.lxor b c -> a = b.
Proof.
  intros H. apply (f_equal (fun x => Z.lxor x c)) in H.
  by rewrite !Z.lxor_assoc, !Z.lxor_nilpotent, !Z.lxor_0_r in H.
Qed.

Lemma lxor_cancel_l a b c : Z.lxor c a = Z.lxor c b -> a = b.
Proof. rewrite !(Z.lxor_comm c). apply lxor_cancel_r. Qed.

Lemma crc_update_inj c1 c2 v1 v2 :
  0 <= c1 < 2 ^ 32 -> 0 <= c2 < 2 ^ 32 ->
  crc_update c1 v1 = crc_update c2 v2 ->
  Z.lxor (Z.land c1 255) (b2z v1) = Z.lxor (Z.land c2 255) (b2z v2)
  /\ Z.shiftr c1 8 = Z.shiftr c2 8.
Proof.
  intros H1 H2 E.
  assert (Hi : Z.lxor (Z.land c1 255) (b2z v1) = Z.lxor (Z.land c2 255) (b2z v2)).
  { apply crc_table_top_inj; [apply crc_index_range..|].
    rewrite <- !crc_update_top by done. by rewrite E. }
  split; [done|]. unfold crc_update in E. rewrite Hi in E. by apply lxor_cancel_l in E.
Qed.

Lemma crc_update_inj_reg c1 c2 v :
  0 <= c1 < 2 ^ 32 -> 0 <= c2 < 2 ^ 32 ->
  crc_update c1 v = crc_update c2 v -> c1 = c2.
Proof.
  intros H1 H2 E. destruct (crc_update_inj _ _ _ _ H1 H2 E) as [Hl Hh].
  apply lxor_cancel_r in Hl. change 255 with (Z.ones 8) in Hl.
  rewrite !Z.land_ones in Hl by lia. rewrite !Z.shiftr_div_pow2 in Hh by lia.
  rewrite (Z.div_mod c1 (2 ^ 8)), (Z.div_mod c2 (2 ^ 8)) by lia. by rewrite Hl, Hh.
Qed.

Lemma crc_update_inj_byte c v1 v2 :
  0 <= c < 2 ^ 32 -> crc_update c v1 = crc_update c v2 -> v1 = v2.
Proof.
  intros H E. destruct (crc_update_inj _ _ _ _ H H E) as [Hl _].
  apply lxor_cancel_l in Hl. by apply byte.unsigned_inj.
Qed.

Lemma crc_fold_range p c :
  0 <= c < 2 ^ 32 -> 0 <= fold_left crc_update p c < 2 ^ 32.
Proof.
  revert c. induction p as [|v p IH]; intros c H; simpl; [done|].
  apply IH. by apply crc_update_range.
Qed.

Lemma crc_fold_inj p c1 c2 :
  0 <= c1 < 2 ^ 32 -> 0 <= c2 < 2 ^ 32 ->
  fold_left crc_update p c1 = fold_left crc_update p c2 -> c1 = c2.
Proof.
  revert c1 c2. induction p as [|v p IH]; intros c1 c2 H1 H2 E; simpl in E; [done|].
  apply IH in E; [|by apply crc_update_range..]. by apply crc_update_inj_reg in E.
Qed.

Lemma ChecksumIEEE_range p : 0 <= ChecksumIEEE p < 2 ^ 32.
Proof.
  unfold ChecksumIEEE. apply lxor_range; [lia|lia|]. apply crc_fold_range. lia.
Qed.

(** Replacing one byte of the input changes the checksum. *)
Lemma ChecksumIEEE_one_byte p v1 v2 q :
  v1 ≠ v2 -> ChecksumIEEE (p ++ v1 :: q) ≠ ChecksumIEEE (p ++ v2 :: q).
Proof.
  intros Hne E. unfold ChecksumIEEE in E. apply lxor_cancel_l in E.
  rewrite !fold_left_app in E. simpl in E.
  assert (0 <= fold_left crc_update p 0xFFFFFFFF < 2 ^ 32) by (apply crc_fold_range; lia).
  apply crc_fold_inj in E; [|by apply crc_update_range..].
  by apply crc_update_inj_byte in E.
Qed.
