(* ===== verification/BlockDev.v ===== *)
(** * BlockDev: the 512-byte-sector block surface

    The interface every filesystem layer is written against ([BlockDev] of
    [services/fs/fat16.go], [Device] of [kfs/format.go]) as a class of
    operations, and the contract they rely on as a class of laws over a flat
    byte image.  Instances: the in-memory device of [kfs/formatter.go] and
    the [Offset] wrapper of [kfs/format.go].  [deviceIsBlank] of
    [services/fs/blank.go] is proved against the contract. *)

From S2P Require Import Prelude.

(** The error values of [services/fs] and [kfs]; [ErrDevice] stands for the
    transports' own messages, which no caller inspects. *)
Inductive error :=
| ErrNoEntry | ErrExists | ErrNotDir | ErrIsDir | ErrNoSpace | ErrBadName
| ErrNotEmpt | ErrRange | ErrKFSBadSB | ErrBadSB | ErrTooSmall
| errBlankBadGeometry | ErrDevice | ErrBeyondDevice.

#[export] Instance error_eq_decision : EqDecision error.
Proof. solve_decision. Defined.

(** [Read(lba, buf)] fills the caller's buffer: the model takes the buffer
    before the call and returns it after.  Reads thread the device state too
    (a mailbox transport mutates its window on a read). *)
Class BlockDev (D : Type) := {
  blk_read : Z -> list byte -> M D error (list byte);
  blk_write : Z -> list byte -> M D error unit;
  blk_geometry : D -> Z * Z;
}.

(** The contract: whole-sector transfers inside the device succeed and act on
    a flat image of [512 * numBlocks] bytes. *)
Class BlockDevLaws (D : Type) `{BlockDev D} := {
  blk_img : D -> list byte;
  blk_wf : D -> Prop;
  blk_geometry_ok d : blk_wf d ->
    exists n, blk_geometry d = (512, n) /\ zlen (blk_img d) = 512 * n /\ n < 2 ^ 54;
  blk_read_ok d lba buf :
    blk_wf d -> 0 <= lba -> 0 < zlen buf -> zlen buf mod 512 = 0 ->
    lba * 512 + zlen buf <= zlen (blk_img d) ->
    exists d', blk_read lba buf d
        = (Ok (slice (blk_img d) (lba * 512) (lba * 512 + zlen buf)), d')
      /\ blk_wf d' /\ blk_img d' = blk_img d;
  blk_write_ok d lba buf :
    blk_wf d -> 0 <= lba -> 0 < zlen buf -> zlen buf mod 512 = 0 ->
    lba * 512 + zlen buf <= zlen (blk_img d) ->
    exists d', blk_write lba buf d = (Ok tt, d')
      /\ blk_wf d' /\ blk_img d' = splice (blk_img d) (lba * 512) buf;
}.

(** ** The in-memory device of [kfs/formatter.go] *)

Record memDevice := newMemDevice { mem_bs : Z; mem_n : Z; mem_buf : list byte }.

Definition newMem (bs blocks : Z) : memDevice :=
  newMemDevice bs blocks (mkbuf (blocks * bs)).

Definition mem_Read (lba : Z) (p : list byte) : M memDevice error (list byte) := fun m =>
  if mem_n m <=? lba then (Err ErrDevice, m)
  else (Ok (splice p 0 (drop (Z.to_nat (lba * mem_bs m)) (mem_buf m))), m).

Definition mem_Write (lba : Z) (p : list byte) : M memDevice error unit := fun m =>
  if mem_n m <=? lba then (Err ErrDevice, m)
  else (Ok tt, newMemDevice (mem_bs m) (mem_n m) (splice (mem_buf m) (lba * mem_bs m) p)).

Definition mem_Geometry (m : memDevice) : Z * Z := (mem_bs m, mem_n m).

#[export] Instance memDevice_BlockDev : BlockDev memDevice := {|
  blk_read := mem_Read; blk_write := mem_Write; blk_geometry := mem_Geometry |}.

Definition mem_wf (m : memDevice) : Prop :=
  mem_bs m = 512 /\ zlen (mem_buf m) = 512 * mem_n m /\ mem_n m < 2 ^ 54.

Lemma mem_Read_ok m lba buf :
  mem_wf m -> 0 <= lba -> 0 < zlen buf -> zlen buf mod 512 = 0 ->
  lba * 512 + zlen buf <= zlen (mem_buf m) ->
  exists m', mem_Read lba buf m
      = (Ok (slice (mem_buf m) (lba * 512) (lba * 512 + zlen buf)), m')
    /\ mem_wf m' /\ mem_buf m' = mem_buf m.
Proof.
  intros (Hbs & Hlen & Hn) Hlba Hpos Hmod Hin. exists m.
  unfold mem_Read. rewrite (proj2 (Z.leb_gt _ _)) by lia. rewrite Hbs.
  split; [|done]. do 2 f_equal. clear Hmod. list_ext.
Qed.

Lemma mem_Write_ok m lba buf :
  mem_wf m -> 0 <= lba -> 0 < zlen buf -> zlen buf mod 512 = 0 ->
  lba * 512 + zlen buf <= zlen (mem_buf m) ->
  exists m', mem_Write lba buf m = (Ok tt, m')
    /\ mem_wf m' /\ mem_buf m' = splice (mem_buf m) (lba * 512) buf.
Proof.
  intros (Hbs & Hlen & Hn) Hlba Hpos Hmod Hin.
  unfold mem_Write. rewrite (proj2 (Z.leb_gt _ _)) by lia. rewrite Hbs.
  eexists. split; [done|]. split; [|done].
  split; [done|]. simpl. rewrite zlen_splice by lia. done.
Qed.

Lemma mem_Geometry_ok m :
  mem_wf m -> exists n, mem_Geometry m = (512, n) /\ zlen (mem_buf m) = 512 * n /\ n < 2 ^ 54.
Proof. intros (Hbs & Hlen & Hn). exists (mem_n m). unfold mem_Geometry. by rewrite Hbs. Qed.

#[export] Instance memDevice_laws : BlockDevLaws memDevice := {|
  blk_img := mem_buf; blk_wf := mem_wf; blk_geometry_ok := mem_Geometry_ok;
  blk_read_ok := mem_Read_ok; blk_write_ok := mem_Write_ok |}.

(** ** [Offset]: a suffix of a device as a whole device *)

Record Offset (D : Type) := NewOffset { Inner : D; Base : Z }.
Arguments NewOffset {D} Inner Base.
Arguments Inner {D} o.
Arguments Base {D} o.

Section Offset.
Context {D : Type} `{BlockDevLaws D}.

Definition Offset_Read (lba : Z) (buf : list byte) : M (Offset D) error (list byte) :=
  fun o => let '(r, d') := blk_read (u64 (Base o + lba)) buf (Inner o) in
           (r, NewOffset d' (Base o)).

Definition Offset_Write (lba : Z) (buf : list byte) : M (Offset D) error unit :=
  fun o => let '(r, d') := blk_write (u64 (Base o + lba)) buf (Inner o) in
           (r, NewOffset d' (Base o)).

Definition Offset_Geometry (o : Offset D) : Z * Z :=
  let '(bs, n) := blk_geometry (Inner o) in
  if n <=? Base o then (bs, 0) else (bs, n - Base o).

#[export] Instance Offset_BlockDev : BlockDev (Offset D) := {|
  blk_read := Offset_Read; blk_write := Offset_Write; blk_geometry := Offset_Geometry |}.

Definition Offset_img (o : Offset D) : list byte :=
  drop (Z.to_nat (Base o * 512)) (blk_img (Inner o)).

Definition Offset_wf (o : Offset D) : Prop :=
  blk_wf (Inner o) /\ 0 <= Base o /\ Base o * 512 <= zlen (blk_img (Inner o)).

Lemma Offset_img_len o :
  Offset_wf o -> zlen (Offset_img o) = zlen (blk_img (Inner o)) - Base o * 512.
Proof. intros (_ & ? & ?). unfold Offset_img, zlen in *. rewrite length_drop. lia. Qed.

Lemma Offset_lba o lba len :
  Offset_wf o -> 0 <= lba -> 0 < len -> lba * 512 + len <= zlen (Offset_img o) ->
  u64 (Base o + lba) = Base o + lba.
Proof.
  intros Hwf Hlba Hlen Hin. rewrite Offset_img_len in Hin by done.
  destruct Hwf as (Hwf & Hb & Hb'). destruct (blk_geometry_ok _ Hwf) as (n & _ & Hn & Hn').
  apply u64_small. lia.
Qed.

Lemma Offset_Read_ok o lba buf :
  Offset_wf o -> 0 <= lba -> 0 < zlen buf -> zlen buf mod 512 = 0 ->
  lba * 512 + zlen buf <= zlen (Offset_img o) ->
  exists o', Offset_Read lba buf o
      = (Ok (slice (Offset_img o) (lba * 512) (lba * 512 + zlen buf)), o')
    /\ Offset_wf o' /\ Offset_img o' = Offset_img o.
Proof.
  intros Hwf Hlba Hpos Hmod Hin. unfold Offset_Read.
  rewrite (Offset_lba o lba (zlen buf)) by done.
  rewrite Offset_img_len in Hin by done. destruct Hwf as (Hwf & Hb & Hb').
  destruct (blk_read_ok (Inner o) (Base o + lba) buf) as (d' & -> & Hwf' & Himg);
    [done|lia|lia|done|lia|].
  exists (NewOffset d' (Base o)). split; [|unfold Offset_wf, Offset_img; cbn [Inner Base]; rewrite Himg; done].
  do 2 f_equal. unfold Offset_img. clear Hmod. list_ext.
Qed.

Lemma Offset_Write_ok o lba buf :
  Offset_wf o -> 0 <= lba -> 0 < zlen buf -> zlen buf mod 512 = 0 ->
  lba * 512 + zlen buf <= zlen (Offset_img o) ->
  exists o', Offset_Write lba buf o = (Ok tt, o')
    /\ Offset_wf o' /\ Offset_img o' = splice (Offset_img o) (lba * 512) buf.
Proof.
  intros Hwf Hlba Hpos Hmod Hin. unfold Offset_Write.
  rewrite (Offset_lba o lba (zlen buf)) by done.
  rewrite Offset_img_len in Hin by done. destruct Hwf as (Hwf & Hb & Hb').
  destruct (blk_write_ok (Inner o) (Base o + lba) buf) as (d' & -> & Hwf' & Himg);
    [done|lia|lia|done|lia|].
  eexists. split; [done|]. unfold Offset_wf, Offset_img. simpl. rewrite Himg.
  split; [split; [done|]|].
  - rewrite zlen_splice by lia. done.
  - clear Hmod Himg. list_ext.
Qed.

Lemma Offset_Geometry_ok o :
  Offset_wf o ->
  exists n, Offset_Geometry o = (512, n) /\ zlen (Offset_img o) = 512 * n /\ n < 2 ^ 54.
Proof.
  intros Hwf. pose proof (Offset_img_len o Hwf) as Hlen.
  destruct Hwf as (Hwf & Hb & Hb'). destruct (blk_geometry_ok _ Hwf) as (n & Hg & Hn & Hn').
  exists (n - Base o). unfold Offset_Geometry. rewrite Hg.
  destruct (Z.leb_spec n (Base o)).
  - replace (n - Base o) with 0 by lia. split; [done|]. lia.
  - split; [done|]. lia.
Qed.

#[export] Instance Offset_laws : BlockDevLaws (Offset D) := {|
  blk_img := Offset_img; blk_wf := Offset_wf; blk_geometry_ok := Offset_Geometry_ok;
  blk_read_ok := Offset_Read_ok; blk_write_ok := Offset_Write_ok |}.

(** The same contract with a stronger invariant: the base sector and every
    byte below it stay what they are.  A program verified against the
    contract therefore never touches the device outside its volume. *)
Definition Offset_below (b : Z) (pre : list byte) (o : Offset D) : Prop :=
  Offset_wf o /\ Base o = b /\ slice (blk_img (Inner o)) 0 (b * 512) = pre.

Lemma Offset_below_read b pre o lba buf :
  Offset_below b pre o -> 0 <= lba -> 0 < zlen buf -> zlen buf mod 512 = 0 ->
  lba * 512 + zlen buf <= zlen (Offset_img o) ->
  exists o', Offset_Read lba buf o
      = (Ok (slice (Offset_img o) (lba * 512) (lba * 512 + zlen buf)), o')
    /\ Offset_below b pre o' /\ Offset_img o' = Offset_img o.
Proof.
  intros (Hwf & Hb & Hp) Hlba Hpos Hmod Hin.
  destruct (Offset_Read_ok o lba buf Hwf Hlba Hpos Hmod Hin) as (o' & Hr & Hwf' & Hi).
  exists o'. split; [done|]. split; [|done]. split; [done|].
  unfold Offset_Read in Hr. rewrite (Offset_lba o lba (zlen buf)) in Hr by done.
  rewrite Offset_img_len in Hin by done. destruct Hwf as (Hwi & Hb0 & Hb1).
  destruct (blk_read_ok (Inner o) (Base o + lba) buf) as (d' & E & _ & Himg);
    [done|lia|lia|done|lia|]. rewrite E in Hr. injection Hr as _ <-. cbn [Base Inner].
  by rewrite Himg.
Qed.

Lemma Offset_below_write b pre o lba buf :
  Offset_below b pre o -> 0 <= lba -> 0 < zlen buf -> zlen buf mod 512 = 0 ->
  lba * 512 + zlen buf <= zlen (Offset_img o) ->
  exists o', Offset_Write lba buf o = (Ok tt, o')
    /\ Offset_below b pre o' /\ Offset_img o' = splice (Offset_img o) (lba * 512) buf.
Proof.
  intros (Hwf & Hb & Hp) Hlba Hpos Hmod Hin.
  destruct (Offset_Write_ok o lba buf Hwf Hlba Hpos Hmod Hin) as (o' & Hr & Hwf' & Hi).
  exists o'. split; [done|]. split; [|done]. split; [done|].
  unfold Offset_Write in Hr. rewrite (Offset_lba o lba (zlen buf)) in Hr by done.
  rewrite Offset_img_len in Hin by done. destruct Hwf as (Hwi & Hb0 & Hb1).
  destruct (blk_write_ok (Inner o) (Base o + lba) buf) as (d' & E & _ & Himg);
    [done|lia|lia|done|lia|]. rewrite E in Hr. injection Hr as <-. cbn [Base Inner].
  split; [done|]. rewrite Himg, slice_splice_before by lia. done.
Qed.

Definition Offset_laws_below (b : Z) (pre : list byte) : BlockDevLaws (Offset D) := {|
  blk_img := Offset_img; blk_wf := Offset_below b pre;
  blk_geometry_ok := fun o Ho => Offset_Geometry_ok o (proj1 Ho);
  blk_read_ok := Offset_below_read b pre; blk_write_ok := Offset_below_write b pre |}.
End Offset.

(** ** A device behind the interface: one of two implementations *)

Section Either.
Context {D1 D2 : Type} `{BlockDev D1, BlockDev D2}.

Definition Either_Read (lba : Z) (buf : list byte) : M (D1 + D2) error (list byte) := fun v =>
  match v with
  | inl d => let '(r, d) := blk_read lba buf d in (r, inl d)
  | inr d => let '(r, d) := blk_read lba buf d in (r, inr d)
  end.

Definition Either_Write (lba : Z) (buf : list byte) : M (D1 + D2) error unit := fun v =>
  match v with
  | inl d => let '(r, d) := blk_write lba buf d in (r, inl d)
  | inr d => let '(r, d) := blk_write lba buf d in (r, inr d)
  end.

Definition Either_Geometry (v : D1 + D2) : Z * Z :=
  match v with inl d => blk_geometry d | inr d => blk_geometry d end.

#[export] Instance Either_BlockDev : BlockDev (D1 + D2) := {|
  blk_read := Either_Read; blk_write := Either_Write; blk_geometry := Either_Geometry |}.

Context {L1 : BlockDevLaws D1} {L2 : BlockDevLaws D2}.

Definition Either_img (v : D1 + D2) : list byte :=
  match v with inl d => blk_img d | inr d => blk_img d end.
Definition Either_wf (v : D1 + D2) : Prop :=
  match v with inl d => blk_wf d | inr d => blk_wf d end.

Lemma Either_Read_ok v lba buf :
  Either_wf v -> 0 <= lba -> 0 < zlen buf -> zlen buf mod 512 = 0 ->
  lba * 512 + zlen buf <= zlen (Either_img v) ->
  exists v', Either_Read lba buf v
      = (Ok (slice (Either_img v) (lba * 512) (lba * 512 + zlen buf)), v')
    /\ Either_wf v' /\ Either_img v' = Either_img v.
Proof.
  intros Hwf H1 H2 H3 H4. destruct v as [d|d]; cbn in *.
  - destruct (blk_read_ok d lba buf Hwf H1 H2 H3 H4) as (d' & -> & ? & ?). by exists (inl d').
  - destruct (blk_read_ok d lba buf Hwf H1 H2 H3 H4) as (d' & -> & ? & ?). by exists (inr d').
Qed.

Lemma Either_Write_ok v lba buf :
  Either_wf v -> 0 <= lba -> 0 < zlen buf -> zlen buf mod 512 = 0 ->
  lba * 512 + zlen buf <= zlen (Either_img v) ->
  exists v', Either_Write lba buf v = (Ok tt, v')
    /\ Either_wf v' /\ Either_img v' = splice (Either_img v) (lba * 512) buf.
Proof.
  intros Hwf H1 H2 H3 H4. destruct v as [d|d]; cbn in *.
  - destruct (blk_write_ok d lba buf Hwf H1 H2 H3 H4) as (d' & -> & ? & ?). by exists (inl d').
  - destruct (blk_write_ok d lba buf Hwf H1 H2 H3 H4) as (d' & -> & ? & ?). by exists (inr d').
Qed.

Lemma Either_Geometry_ok v :
  Either_wf v ->
  exists n, Either_Geometry v = (512, n) /\ zlen (Either_img v) = 512 * n /\ n < 2 ^ 54.
Proof. destruct v; apply blk_geometry_ok. Qed.

#[export] Instance Either_laws : BlockDevLaws (D1 + D2) := {|
  blk_img := Either_img; blk_wf := Either_wf; blk_geometry_ok := Either_Geometry_ok;
  blk_read_ok := Either_Read_ok; blk_write_ok := Either_Write_ok |}.
End Either.

(** ** [deviceIsBlank] ([services/fs/blank.go])

    The scan reads eight sectors at a time and stops at the first non-zero
    byte.  [fuel] bounds the chunks; [numBlocks] is always enough. *)

Definition blankScanChunk : Z := 8.

Fixpoint blank_scan {D} `{BlockDev D} (fuel : nat) (bs numBlocks lba : Z) : M D error bool :=
  match fuel with
  | O => panic
  | S fuel =>
      if lba <? numBlocks then
        let n := Z.min blankScanChunk (numBlocks - lba) in
        buf ← blk_read lba (mkbuf (n * bs));
        if forallb (fun b => bool_decide (b = Byte.x00)) buf
        then blank_scan fuel bs numBlocks (lba + blankScanChunk)
        else mret false
      else mret true
  end.

Definition deviceIsBlank {D} `{BlockDev D} : M D error bool := fun d =>
  let '(bs, numBlocks) := blk_geometry d in
  if (bs =? 0) || (numBlocks =? 0) then (Err errBlankBadGeometry, d)
  else blank_scan (S (Z.to_nat numBlocks)) bs numBlocks 0 d.

Definition all_zero (l : list byte) : Prop := Forall (fun b => b = Byte.x00) l.

Lemma forallb_zero l :
  forallb (fun b => bool_decide (b = Byte.x00)) l = true <-> all_zero l.
Proof.
  unfold all_zero. rewrite forallb_forall, Forall_forall.
  setoid_rewrite bool_decide_eq_true. setoid_rewrite list_elem_of_In. done.
Qed.

Section Blank.
Context {D : Type} `{BlockDevLaws D}.

Lemma blank_scan_ok fuel d n lba :
  blk_wf d -> zlen (blk_img d) = 512 * n -> 0 <= lba ->
  n - lba < Z.of_nat fuel -> 0 < Z.of_nat fuel ->
  exists r d', blank_scan fuel 512 n lba d = (Ok r, d')
    /\ blk_wf d' /\ blk_img d' = blk_img d
    /\ (r = true <-> all_zero (slice (blk_img d) (lba * 512) (n * 512))).
Proof.
  revert d lba. induction fuel as [|fuel IH]; intros d lba Hwf Hlen Hlba Hfuel Hpos; [lia|].
  simpl. destruct (Z.ltb_spec lba n) as [Hlt|Hge].
  2:{ exists true, d. do 3 (split; [done|]). rewrite slice_empty by lia.
      split; [constructor|done]. }
  set (m := Z.min blankScanChunk (n - lba)).
  assert (Hm : 0 < m <= n - lba) by (unfold m, blankScanChunk; lia).
  assert (Hz : zlen (mkbuf (m * 512)) = m * 512) by (apply zlen_mkbuf; lia).
  destruct (blk_read_ok d lba (mkbuf (m * 512))) as (d1 & Hr & Hwf1 & Himg1);
    rewrite ?Hz; [done|lia|lia|apply Z.mod_mul; lia|lia|].
  rewrite Hz in Hr. rewrite (bind_ok _ _ _ _ _ Hr).
  assert (Hsplit : all_zero (slice (blk_img d) (lba * 512) (n * 512)) <->
    all_zero (slice (blk_img d) (lba * 512) (lba * 512 + m * 512)) /\
    all_zero (slice (blk_img d) (lba * 512 + m * 512) (n * 512))).
  { rewrite (slice_app_split _ _ (lba * 512 + m * 512)) by lia. apply Forall_app. }
  destruct (forallb _ _) eqn:Hb.
  - destruct (IH d1 (lba + blankScanChunk)) as (r & d2 & Hs & Hwf2 & Himg2 & Hiff);
      [done|by rewrite Himg1|unfold blankScanChunk; lia..|].
    exists r, d2. split; [done|]. split; [done|]. split; [congruence|].
    rewrite Hiff, Himg1, Hsplit. apply forallb_zero in Hb.
    destruct (Z.le_gt_cases (lba + blankScanChunk) n) as [Hle|Hgt].
    + replace (lba * 512 + m * 512) with ((lba + blankScanChunk) * 512) in *
        by (unfold m, blankScanChunk in *; lia).
      tauto.
    + rewrite slice_empty by lia. replace (lba * 512 + m * 512) with (n * 512) in *
        by (unfold m, blankScanChunk in *; lia).
      rewrite (slice_empty _ (n * 512)) by lia. unfold all_zero in *. tauto.
  - exists false, d1. split; [done|]. split; [done|]. split; [done|]. split; [done|].
    rewrite Hsplit. intros [Hz1 _]. apply forallb_zero in Hz1. congruence.
Qed.

(** The scan always ends with an answer, leaves the device as it was, and says
    "blank" exactly when every byte of the device is zero. *)
Lemma deviceIsBlank_ok d :
  blk_wf d -> 0 < zlen (blk_img d) ->
  exists r d', deviceIsBlank d = (Ok r, d')
    /\ blk_wf d' /\ blk_img d' = blk_img d
    /\ (r = true <-> all_zero (blk_img d)).
Proof.
  intros Hwf Hpos. destruct (blk_geometry_ok d Hwf) as (n & Hg & Hlen & Hn).
  unfold deviceIsBlank. rewrite Hg.
  rewrite (proj2 (Z.eqb_neq n 0)) by lia. cbn [orb Z.eqb].
  destruct (blank_scan_ok (S (Z.to_nat n)) d n 0) as (r & d' & Hs & Hwf' & Himg & Hiff);
    [done|done|lia|lia|lia|].
  exists r, d'. do 3 (split; [done|]). by rewrite slice_full in Hiff by lia.
Qed.
End Blank.
