(* ===== verification/SectorIO.v ===== *)
(** * SectorIO: byte-granular access over a sector device

    The two loops that both log implementations carry in the same words: the
    read-modify-write of [KFS.append] ([services/fs/kfs.go]) and of
    [Formatter.writeAt] ([kfs/formatter.go]), and the sector-by-sector
    read of [KFS.readAt].  Against the device contract the first is a
    splice of the flat image and the second a slice of it. *)

From S2P Require Import Prelude BlockDev.

(** One iteration reads the sector, overlays the record's part and writes the
    sector back; [sec] is the loop's reused buffer. *)
Fixpoint rmw_loop {D} `{BlockDev D} (fuel : nat) (start : Z) (buf sec : list byte) (done : Z)
  : M D error unit :=
  match fuel with
  | O => panic
  | S fuel =>
      if done <? zlen buf then
        let si := start + done in
        let off := si mod 512 in
        let take_ := Z.min (512 - off) (zlen buf - done) in
        sec ← blk_read (si / 512) sec;
        let sec := splice sec off (slice buf done (done + take_)) in
        _ ← blk_write (si / 512) sec;
        rmw_loop fuel start buf sec (done + take_)
      else mret tt
  end.

(** [writeAt]: aligned whole-sector transfers go straight to the device. *)
Definition writeAt {D} `{BlockDev D} (off : Z) (buf : list byte) : M D error unit :=
  if (off mod 512 =? 0) && (zlen buf mod 512 =? 0)
  then blk_write (off / 512) buf
  else rmw_loop (S (length buf)) off buf (mkbuf 512) 0.

Fixpoint read_loop {D} `{BlockDev D} (fuel : nat) (off : Z) (dst sec : list byte) (done : Z)
  : M D error (list byte) :=
  match fuel with
  | O => panic
  | S fuel =>
      if done <? zlen dst then
        let si := off + done in
        sec ← blk_read (si / 512) sec;
        let take_ := Z.min (512 - si mod 512) (zlen dst - done) in
        let dst := splice dst done (slice sec (si mod 512) (si mod 512 + take_)) in
        read_loop fuel off dst sec (done + take_)
      else mret dst
  end.

(** ** Against the contract *)

Section SectorIO.
Context {D : Type} `{BlockDevLaws D}.

(** A byte offset as its sector and the offset in it. *)
Lemma sector_split si : 0 <= si ->
  exists q r, si / 512 = q /\ si mod 512 = r /\ si = 512 * q + r /\ 0 <= q /\ 0 <= r < 512.
Proof.
  intros. exists (si / 512), (si mod 512).
  pose proof (Z.div_mod si 512 ltac:(lia)). pose proof (Z.mod_pos_bound si 512 ltac:(lia)).
  assert (0 <= si / 512) by (apply Z.div_pos; lia). tauto.
Qed.

Lemma img_sectors d : blk_wf d -> exists n, zlen (blk_img d) = 512 * n.
Proof. intros Hwf. destruct (blk_geometry_ok d Hwf) as (n & _ & Hn & _). eauto. Qed.

(** One sector's read-modify-write is a splice of the image. *)
Lemma rmw_image (img seg : list byte) q r :
  0 <= q -> 0 <= r -> r + zlen seg <= 512 -> 512 * q + 512 <= zlen img ->
  splice img (q * 512) (splice (slice img (q * 512) (q * 512 + 512)) r seg)
  = splice img (512 * q + r) seg.
Proof.
  intros.
  assert (length (splice (slice img (q * 512) (q * 512 + 512)) r seg) = 512%nat).
  { rewrite length_splice, length_slice; unfold zlen in *; [lia|rewrite length_slice; lia]. }
  list_ext.
Qed.

Lemma rmw_step d start buf sec done :
  blk_wf d -> 0 <= start -> 0 <= done < zlen buf -> zlen sec = 512 ->
  start + zlen buf <= zlen (blk_img d) ->
  let si := start + done in
  let take_ := Z.min (512 - si mod 512) (zlen buf - done) in
  let seg := slice buf done (done + take_) in
  exists sec1 d1 d2,
    blk_read (si / 512) sec d = (Ok sec1, d1)
    /\ blk_write (si / 512) (splice sec1 (si mod 512) seg) d1 = (Ok tt, d2)
    /\ zlen (splice sec1 (si mod 512) seg) = 512
    /\ blk_wf d2 /\ blk_img d2 = splice (blk_img d) si seg
    /\ 0 < take_ <= zlen buf - done.
Proof.
  intros Hwf Hs Hd Hsec Hin si take_ seg.
  destruct (sector_split si) as (q & r & Hq & Hr & Hsi & Hq0 & Hr0); [lia|].
  destruct (img_sectors d Hwf) as (n & Hn).
  assert (Ht : 0 < take_ <= zlen buf - done) by lia.
  assert (Htr : r + take_ <= 512) by lia.
  assert (Hseg : zlen seg = take_) by (unfold seg; rewrite zlen_slice by lia; lia).
  clearbody take_ seg. rewrite Hq, Hr in *.
  assert (Hqn : q * 512 + 512 <= zlen (blk_img d)) by lia.
  destruct (blk_read_ok d q sec) as (d1 & Hread & Hwf1 & Himg1);
    [done|lia|lia|by rewrite Hsec|by rewrite Hsec|]. rewrite Hsec in Hread.
  set (sec1 := slice (blk_img d) (q * 512) (q * 512 + 512)) in *.
  assert (Hs1 : zlen sec1 = 512) by (unfold sec1; rewrite zlen_slice; lia).
  assert (Hs2 : zlen (splice sec1 r seg) = 512) by (rewrite zlen_splice; lia).
  destruct (blk_write_ok d1 q (splice sec1 r seg)) as (d2 & Hwrite & Hwf2 & Himg2);
    [done|lia|lia|by rewrite Hs2|by rewrite Hs2, Himg1|].
  exists sec1, d1, d2. do 4 (split; [done|]). split; [|done].
  rewrite Himg2, Himg1, Hsi. apply rmw_image; lia.
Qed.

Lemma rmw_loop_ok fuel d start buf sec done :
  blk_wf d -> 0 <= start -> 0 <= done <= zlen buf -> zlen sec = 512 ->
  start + zlen buf <= zlen (blk_img d) -> zlen buf - done < Z.of_nat fuel ->
  exists d', rmw_loop fuel start buf sec done d = (Ok tt, d')
    /\ blk_wf d'
    /\ blk_img d' = splice (blk_img d) (start + done) (slice buf done (zlen buf)).
Proof.
  revert d sec done.
  induction fuel as [|fuel IH]; intros d sec done Hwf Hs Hd Hsec Hin Hf; [lia|].
  cbn [rmw_loop]. destruct (Z.ltb_spec done (zlen buf)) as [Hlt|Hge].
  2:{ exists d. split; [done|]. split; [done|].
      rewrite slice_empty, splice_nil by lia. done. }
  destruct (rmw_step d start buf sec done) as (sec1 & d1 & d2 & Hr & Hw & Hl & Hwf2 & Himg & Ht);
    [done|done|lia|done|done|].
  rewrite (bind_ok _ _ _ _ _ Hr). cbv zeta.
  rewrite (bind_ok _ _ _ _ _ Hw).
  set (si := start + done) in *. set (t := Z.min (512 - si mod 512) (zlen buf - done)) in *.
  destruct (IH d2 (splice sec1 (si mod 512) (slice buf done (done + t))) (done + t))
    as (d3 & Hrec & Hwf3 & Himg3); [done|done|lia|done| |lia|].
  { rewrite Himg, zlen_splice by lia. done. }
  exists d3. split; [done|]. split; [done|].
  rewrite Himg3, Himg. clearbody t. unfold si in *.
  assert (Hseg : zlen (slice buf done (done + t)) = t) by (rewrite zlen_slice; lia).
  replace (start + (done + t)) with (start + done + zlen (slice buf done (done + t))) by lia.
  rewrite splice_app by (rewrite ?zlen_slice by lia; lia).
  by rewrite <- slice_app_split by lia.
Qed.

(** Stopped after any number of sectors (the loop cut at [fuel] iterations),
    the image holds a prefix of the bytes and is otherwise untouched. *)
Lemma rmw_loop_cut fuel d start buf sec done :
  blk_wf d -> 0 <= start -> 0 <= done <= zlen buf -> zlen sec = 512 ->
  start + zlen buf <= zlen (blk_img d) ->
  exists j, done <= j <= zlen buf
    /\ blk_wf (snd (rmw_loop fuel start buf sec done d))
    /\ blk_img (snd (rmw_loop fuel start buf sec done d))
       = splice (blk_img d) (start + done) (slice buf done j).
Proof.
  revert d sec done.
  induction fuel as [|fuel IH]; intros d sec done Hwf Hs Hd Hsec Hin.
  { exists done. cbn. rewrite slice_empty, splice_nil by lia. split; [lia|done]. }
  cbn [rmw_loop]. destruct (Z.ltb_spec done (zlen buf)) as [Hlt|Hge].
  2:{ exists done. cbn. rewrite slice_empty, splice_nil by lia. split; [lia|done]. }
  destruct (rmw_step d start buf sec done) as (sec1 & d1 & d2 & Hr & Hw & Hl & Hwf2 & Himg & Ht);
    [done|done|lia|done|done|].
  rewrite (bind_ok _ _ _ _ _ Hr). cbv zeta.
  rewrite (bind_ok _ _ _ _ _ Hw).
  set (si := start + done) in *. set (t := Z.min (512 - si mod 512) (zlen buf - done)) in *.
  destruct (IH d2 (splice sec1 (si mod 512) (slice buf done (done + t))) (done + t))
    as (j & Hj & Hwf3 & Himg3); [done|done|lia|done| |].
  { rewrite Himg, zlen_splice by lia. done. }
  exists j. split; [lia|]. split; [done|].
  rewrite Himg3, Himg. clearbody t. unfold si in *.
  assert (Hseg : zlen (slice buf done (done + t)) = t) by (rewrite zlen_slice; lia).
  replace (start + (done + t)) with (start + done + zlen (slice buf done (done + t))) by lia.
  rewrite splice_app by (rewrite ?zlen_slice by lia; lia).
  by rewrite <- slice_app_split by lia.
Qed.

(** Both paths of [writeAt] put exactly the bytes at exactly the offset. *)
Lemma writeAt_ok d off buf :
  blk_wf d -> 0 <= off -> 0 < zlen buf -> off + zlen buf <= zlen (blk_img d) ->
  exists d', writeAt off buf d = (Ok tt, d')
    /\ blk_wf d' /\ blk_img d' = splice (blk_img d) off buf.
Proof.
  intros Hwf Hoff Hpos Hin. unfold writeAt.
  destruct (Z.eqb_spec (off mod 512) 0) as [Ho|_]; cbn [andb].
  1: destruct (Z.eqb_spec (zlen buf mod 512) 0) as [Hb|_].
  { destruct (sector_split off Hoff) as (q & r & Hq & Hr & Hsi & Hq0 & _). rewrite Hq.
    destruct (blk_write_ok d q buf) as (d' & Hw & Hwf' & Himg); [done|lia|done|done|lia|].
    exists d'. split; [done|]. split; [done|]. rewrite Himg. f_equal. lia. }
  all: destruct (rmw_loop_ok (S (length buf)) d off buf (mkbuf 512) 0) as (d' & Hl & Hwf' & Himg);
    [done|done|lia|done|done|unfold zlen; lia|];
    exists d'; split; [done|]; split; [done|];
    by rewrite Himg, slice_full, Z.add_0_r by done.
Qed.

Lemma read_loop_ok fuel d off dst sec done :
  blk_wf d -> 0 <= off -> 0 <= done <= zlen dst -> zlen sec = 512 ->
  off + zlen dst <= zlen (blk_img d) -> zlen dst - done < Z.of_nat fuel ->
  exists d', read_loop fuel off dst sec done d
      = (Ok (slice dst 0 done ++ slice (blk_img d) (off + done) (off + zlen dst)), d')
    /\ blk_wf d' /\ blk_img d' = blk_img d.
Proof.
  revert d dst sec done.
  induction fuel as [|fuel IH]; intros d dst sec done Hwf Ho Hd Hsec Hin Hf; [lia|].
  cbn [read_loop]. destruct (Z.ltb_spec done (zlen dst)) as [Hlt|Hge].
  2:{ exists d. split; [|done]. rewrite slice_full, slice_empty, app_nil_r by lia. done. }
  set (si := off + done).
  destruct (sector_split si) as (q & r & Hq & Hr & Hsi & Hq0 & Hr0); [lia|].
  destruct (img_sectors d Hwf) as (n & Hn). rewrite Hq, Hr.
  destruct (blk_read_ok d q sec) as (d1 & Hread & Hwf1 & Himg1);
    [done|lia|lia|by rewrite Hsec|rewrite Hsec; lia|]. rewrite Hsec in Hread.
  rewrite (bind_ok _ _ _ _ _ Hread). cbv zeta.
  set (t := Z.min (512 - r) (zlen dst - done)).
  assert (Ht : 0 < t <= zlen dst - done) by lia. assert (Htr : r + t <= 512) by lia.
  rewrite slice_slice by lia.
  set (seg := slice (blk_img d) _ _). assert (Hseg : zlen seg = t)
    by (unfold seg; rewrite zlen_slice by lia; lia).
  assert (Hdst : zlen (splice dst done seg) = zlen dst) by (rewrite zlen_splice; lia).
  destruct (IH d1 (splice dst done seg) (slice (blk_img d) (q * 512) (q * 512 + 512)) (done + t))
    as (d2 & Hrec & Hwf2 & Himg2);
    [done|done|lia|rewrite zlen_slice; lia|rewrite Hdst, Himg1; done|lia|].
  exists d2. rewrite Hrec, Hdst, Himg1. split; [|split; [done|congruence]].
  do 2 f_equal. replace (done + t) with (done + zlen seg) by lia.
  rewrite (slice_app_split _ 0 done) by (rewrite ?zlen_splice; lia).
  rewrite slice_splice_same, slice_splice_before by lia. rewrite <- app_assoc. f_equal.
  rewrite (slice_app_split (blk_img d) (off + done) (off + (done + zlen seg))) by lia.
  f_equal. rewrite Hseg. unfold seg, si in *. f_equal; lia.
Qed.

Lemma read_loop_full d off n :
  blk_wf d -> 0 <= off -> 0 <= n -> off + n <= zlen (blk_img d) ->
  exists d', read_loop (S (Z.to_nat n)) off (mkbuf n) (mkbuf 512) 0 d
      = (Ok (slice (blk_img d) off (off + n)), d')
    /\ blk_wf d' /\ blk_img d' = blk_img d.
Proof.
  intros Hwf Ho Hn Hin. pose proof (zlen_mkbuf n Hn) as Hl.
  destruct (read_loop_ok (S (Z.to_nat n)) d off (mkbuf n) (mkbuf 512) 0) as (d' & Hr & Hrest);
    rewrite ?Hl; [done|done|lia|done|done|lia|].
  exists d'. rewrite Hr, Hl, Z.add_0_r. by rewrite (slice_empty _ 0 0) by lia.
Qed.
End SectorIO.
