(* ===== verification/KfsFormat.v ===== *)
(** * KfsFormat: the KFS1 on-disk format ([kfs/format.go])

    The superblock sector, the CRC-framed log record, the four record
    payloads, the volume-split rule and the volume probe.  Each encoder gets
    its closed byte-string form, each decoder the round trip with its
    encoder, and the record framing its corruption detection. *)

From S2P Require Import Prelude Frame Crc32 BlockDev.

(** ** Constants *)

Definition SectorSize : Z := 512.
Definition LogStart : Z := 512.
Definition LogStartSector : Z := LogStart / SectorSize.
Definition HdrLen : Z := 9.
Definition MaxPayload : Z := 65536.
Definition CPEvery : Z := 64.
Definition RootIno : Z := 1.
Definition KindFile : byte := z2b 0.
Definition KindDir : byte := z2b 1.
Definition RecInode : byte := z2b 1.
Definition RecDirent : byte := z2b 2.
Definition RecData : byte := z2b 3.
Definition RecCheckpoint : byte := z2b 4.
Definition FormatVersion : Z := 1.
Definition TruncSentinel : Z := u64 (Z.lnot 0).
Definition DirentCreate : byte := z2b 0.
Definition DirentDelete : byte := z2b 1.

(** ** Superblock *)

Record Superblock := mkSuperblock {
  BlockSize : Z; NumBlocks : Z; LogSector : Z; Version : Z }.

Definition EncodeSuperblock (sb : Superblock) : list byte :=
  let b := mkbuf SectorSize in
  let b := splice b 0 (bs "KFS1") in
  let b := Put32 b 4 (BlockSize sb) in
  let b := Put64 b 8 (NumBlocks sb) in
  let b := Put32 b 16 (LogSector sb) in
  Put32 b 20 (Version sb).

Definition ParseSuperblock (b : list byte) : option Superblock :=
  if (zlen b <? 24) || negb (bool_decide (slice b 0 4 = bs "KFS1")) then None
  else
    let sb := mkSuperblock (Get32 b 4) (Get64 b 8) (Get32 b 16) (Get32 b 20) in
    if LogSector sb =? LogStartSector then Some sb else None.

(** ** Log records *)

Record Record_ := mkRecord { Type_ : byte; Payload : list byte }.

Definition EncodeRecord (typ : byte) (payload : list byte) : list byte :=
  let raw := mkbuf (HdrLen + zlen payload) in
  let raw := Put32 raw 0 (zlen payload) in
  let raw := Put32 raw 4 (ChecksumIEEE payload) in
  let raw := splice raw 8 [typ] in
  splice raw HdrLen payload.

Definition DecodeRecord (hdr payload : list byte) : option Record_ :=
  if zlen hdr <? HdrLen then None
  else
    let plen := Get32 hdr 0 in
    let crc := Get32 hdr 4 in
    if (plen <? 0) || (MaxPayload <? plen) || (zlen payload <? plen) then None
    else if ChecksumIEEE (slice payload 0 plen) =? crc
    then Some (mkRecord (idx hdr 8) (slice payload 0 plen))
    else None.

(** ** Payloads *)

Definition InodePayload (ino uid : Z) (kind : byte) (size : Z) : list byte :=
  let p := mkbuf 13 in
  let p := Put32 p 0 ino in
  let p := Put32 p 4 uid in
  let p := splice p 8 [kind] in
  Put32 p 9 size.

Definition DecodeInode (p : list byte) : option (Z * Z * byte * Z) :=
  if zlen p <? 13 then None
  else Some (Get32 p 0, Get32 p 4, idx p 8, Get32 p 9).

Definition DirentPayload (parent : Z) (op : byte) (name : list byte) (ino : Z) : list byte :=
  let p := Put32 (mkbuf 4) 0 parent in
  let p := p ++ [op] in
  let p := AppendLStr p name in
  if bool_decide (op = DirentCreate) then p ++ Put32 (mkbuf 4) 0 ino else p.

Definition DecodeDirent (p : list byte) : option (Z * byte * list byte * Z) :=
  if zlen p <? 7 then None
  else
    let parent := Get32 p 0 in
    let op := idx p 4 in
    match LStr p 5 with
    | None => None
    | Some (name, next) =>
        if bool_decide (op = DirentCreate) then
          if zlen p <? next + 4 then None else Some (parent, op, name, Get32 p next)
        else Some (parent, op, name, 0)
    end.

Definition DataPayload (ino off : Z) (data : list byte) : list byte :=
  let p := mkbuf (16 + zlen data) in
  let p := Put32 p 0 ino in
  let p := Put64 p 4 off in
  let p := Put32 p 12 (zlen data) in
  splice p 16 data.

Definition DecodeData (p : list byte) : option (Z * Z * list byte) :=
  if zlen p <? 16 then None
  else
    let dlen := Get32 p 12 in
    if zlen p <? 16 + dlen then None
    else Some (Get32 p 0, Get64 p 4, slice p 16 (16 + dlen)).

Definition CheckpointPayload (nextIno : Z) : list byte := Put32 (mkbuf 4) 0 nextIno.

Definition DecodeCheckpoint (p : list byte) : option Z :=
  if zlen p <? 4 then None else Some (Get32 p 0).

(** ** Volume placement *)

Definition SplitSectors (imageBytes : Z) : outcome error Z :=
  if imageBytes <? 2 * SectorSize then Err ErrTooSmall
  else
    let half := imageBytes / 2 in
    let half := half - half mod SectorSize in
    if half <=? 0 then Err ErrTooSmall else Ok (half / SectorSize).

(** [readSector] gives [nil] on any failure. *)
Definition readSector {D} `{BlockDev D} (lba : Z) (dev : D) : list byte * D :=
  let '(bs, _) := blk_geometry dev in
  if bs =? 0 then ([], dev)
  else match blk_read lba (mkbuf bs) dev with
       | (Ok buf, dev) => (buf, dev)
       | (_, dev) => ([], dev)
       end.

(** The found volume: the device itself, or a suffix of it. *)
Definition FindVolume {D} `{BlockDev D} (dev : D) : outcome error (D + Offset D) * D :=
  let '(s0, dev) := readSector 0 dev in
  match ParseSuperblock s0 with
  | Some _ => (Ok (inl dev), dev)
  | None =>
      let '(bs, n) := blk_geometry dev in
      match SplitSectors (i64 (i64 n * i64 bs)) with
      | Ok base =>
          let '(s1, dev) := readSector base dev in
          match ParseSuperblock s1 with
          | Some _ => (Ok (inr (NewOffset dev (u64 base))), dev)
          | None => (Err ErrBadSB, dev)
          end
      | Err e => (Err e, dev)
      | Panic => (Panic, dev)
      end
  end.

(** ** Closed forms of the encoders *)

Lemma EncodeSuperblock_eq sb :
  EncodeSuperblock sb =
  bs "KFS1" ++ le_split 4 (BlockSize sb) ++ le_split 8 (NumBlocks sb)
    ++ le_split 4 (LogSector sb) ++ le_split 4 (Version sb) ++ mkbuf 488.
Proof. unfold EncodeSuperblock, SectorSize. cbv zeta. enc_frontier. done. Qed.

Lemma EncodeRecord_eq typ p :
  EncodeRecord typ p = le_split 4 (zlen p) ++ le_split 4 (ChecksumIEEE p) ++ typ :: p.
Proof.
  unfold EncodeRecord, HdrLen. cbv zeta. pose proof (zlen_nonneg p).
  enc_frontier. by rewrite mkbuf_0, app_nil_r by lia.
Qed.

Lemma InodePayload_eq ino uid kind size :
  InodePayload ino uid kind size = le_split 4 ino ++ le_split 4 uid ++ kind :: le_split 4 size.
Proof. unfold InodePayload. cbv zeta. enc_frontier. by rewrite app_nil_r. Qed.

Lemma Put32_fresh v : Put32 (mkbuf 4) 0 v = le_split 4 v.
Proof. enc_frontier. by rewrite app_nil_r. Qed.

Lemma DirentPayload_create parent name ino :
  DirentPayload parent DirentCreate name ino =
  AppendLStr (le_split 4 parent ++ [DirentCreate]) name ++ le_split 4 ino.
Proof. unfold DirentPayload. cbv zeta. by rewrite !Put32_fresh. Qed.

Lemma DirentPayload_delete parent name ino :
  DirentPayload parent DirentDelete name ino =
  AppendLStr (le_split 4 parent ++ [DirentDelete]) name.
Proof. unfold DirentPayload. cbv zeta. by rewrite !Put32_fresh. Qed.

Lemma DataPayload_eq ino off data :
  DataPayload ino off data =
  le_split 4 ino ++ le_split 8 off ++ le_split 4 (zlen data) ++ data.
Proof.
  unfold DataPayload. cbv zeta. pose proof (zlen_nonneg data).
  enc_frontier. by rewrite mkbuf_0, app_nil_r by lia.
Qed.

Lemma zlen_EncodeSuperblock sb : zlen (EncodeSuperblock sb) = 512.
Proof. rewrite EncodeSuperblock_eq, !zlen_app, !zlen_le_split. done. Qed.

Lemma zlen_EncodeRecord typ p : zlen (EncodeRecord typ p) = HdrLen + zlen p.
Proof. rewrite EncodeRecord_eq, !zlen_app, !zlen_le_split, zlen_cons. unfold HdrLen. lia. Qed.

Lemma zlen_InodePayload ino uid kind size : zlen (InodePayload ino uid kind size) = 13.
Proof. rewrite InodePayload_eq, !zlen_app, zlen_cons, !zlen_le_split. lia. Qed.

Lemma zlen_DataPayload ino off data : zlen (DataPayload ino off data) = 16 + zlen data.
Proof. rewrite DataPayload_eq, !zlen_app, !zlen_le_split. lia. Qed.

Lemma zlen_CheckpointPayload n : zlen (CheckpointPayload n) = 4.
Proof. unfold CheckpointPayload. by rewrite Put32_fresh, zlen_le_split. Qed.

#[export] Hint Rewrite zlen_EncodeSuperblock zlen_EncodeRecord zlen_InodePayload
  zlen_DataPayload zlen_CheckpointPayload : zlen.

(** ** Round trips *)


Lemma ParseSuperblock_Encode sb :
  0 <= BlockSize sb < 2 ^ 32 -> 0 <= NumBlocks sb < 2 ^ 64 ->
  0 <= Version sb < 2 ^ 32 -> LogSector sb = LogStartSector ->
  ParseSuperblock (EncodeSuperblock sb) = Some sb.
Proof.
  intros Hb Hn Hv Hl. unfold ParseSuperblock. rewrite zlen_EncodeSuperblock.
  rewrite EncodeSuperblock_eq, slice_here by done.
  rewrite bool_decide_true by done. cbn [Z.ltb Z.compare orb negb].
  fields. cbn [LogSector]. rewrite Hl. rewrite !u32_small, u64_small by done.
  rewrite Z.eqb_refl. rewrite <- Hl. by destruct sb.
Qed.

(** The 9-byte header of an encoded record. *)
Definition rec_hdr (typ : byte) (p : list byte) : list byte :=
  le_split 4 (zlen p) ++ le_split 4 (ChecksumIEEE p) ++ [typ].

Lemma EncodeRecord_hdr typ p : EncodeRecord typ p = rec_hdr typ p ++ p.
Proof. rewrite EncodeRecord_eq. unfold rec_hdr. by rewrite <- !app_assoc. Qed.

Lemma zlen_rec_hdr typ p : zlen (rec_hdr typ p) = HdrLen.
Proof. unfold rec_hdr. rewrite !zlen_app, !zlen_le_split. done. Qed.

Lemma rec_hdr_len typ p : zlen p < 2 ^ 32 -> Get32 (rec_hdr typ p) 0 = zlen p.
Proof. intros. unfold rec_hdr. fields. apply u32_small. pose proof (zlen_nonneg p). lia. Qed.

Lemma rec_hdr_crc typ p : Get32 (rec_hdr typ p) 4 = ChecksumIEEE p.
Proof. unfold rec_hdr. fields. apply u32_small, ChecksumIEEE_range. Qed.

Lemma rec_hdr_typ typ p : idx (rec_hdr typ p) 8 = typ.
Proof. unfold rec_hdr. fields. done. Qed.

(** What a decoder does on a header written for [p], reading the bytes [q] in
    the payload's place. *)
Lemma DecodeRecord_hdr typ p q :
  zlen p <= MaxPayload ->
  DecodeRecord (rec_hdr typ p) q =
  if zlen q <? zlen p then None
  else if ChecksumIEEE (slice q 0 (zlen p)) =? ChecksumIEEE p
  then Some (mkRecord typ (slice q 0 (zlen p))) else None.
Proof.
  intros Hp. pose proof (zlen_nonneg p). unfold MaxPayload in *. unfold DecodeRecord.
  rewrite zlen_rec_hdr, rec_hdr_len, rec_hdr_crc, rec_hdr_typ by lia.
  unfold MaxPayload. rewrite Z.ltb_irrefl.
  rewrite (proj2 (Z.ltb_ge (zlen p) 0)), (proj2 (Z.ltb_ge 65536 (zlen p))) by lia. done.
Qed.

Lemma DecodeRecord_Encode typ p q :
  zlen p <= MaxPayload ->
  DecodeRecord (slice (EncodeRecord typ p) 0 HdrLen)
    (slice (EncodeRecord typ p ++ q) HdrLen (HdrLen + zlen p)) = Some (mkRecord typ p).
Proof.
  intros Hp. pose proof (zlen_nonneg p). rewrite EncodeRecord_hdr, <- app_assoc.
  rewrite slice_here by (by rewrite zlen_rec_hdr).
  rewrite slice_app_mid by (rewrite ?zlen_rec_hdr; done).
  rewrite DecodeRecord_hdr, Z.ltb_irrefl by done.
  rewrite slice_full by done. by rewrite Z.eqb_refl.
Qed.

(** A one-byte change anywhere in the payload is rejected. *)
Lemma DecodeRecord_corrupt typ a v1 v2 b :
  v1 ≠ v2 -> zlen (a ++ v1 :: b) <= MaxPayload ->
  DecodeRecord (rec_hdr typ (a ++ v1 :: b)) (a ++ v2 :: b) = None.
Proof.
  intros Hne Hp. rewrite DecodeRecord_hdr by done.
  assert (Hl : zlen (a ++ v2 :: b) = zlen (a ++ v1 :: b)) by len_solve.
  rewrite Hl, Z.ltb_irrefl, <- Hl, slice_full by done.
  destruct (Z.eqb_spec (ChecksumIEEE (a ++ v2 :: b)) (ChecksumIEEE (a ++ v1 :: b)))
    as [E|_]; [|done].
  by apply ChecksumIEEE_one_byte in E.
Qed.

Lemma DecodeInode_Inode ino uid kind size :
  0 <= ino < 2 ^ 32 -> 0 <= uid < 2 ^ 32 -> 0 <= size < 2 ^ 32 ->
  DecodeInode (InodePayload ino uid kind size) = Some (ino, uid, kind, size).
Proof.
  intros. unfold DecodeInode. rewrite zlen_InodePayload. cbn [Z.ltb Z.compare].
  rewrite InodePayload_eq. fields. by rewrite !u32_small by done.
Qed.

Lemma zlen_DirentPayload_delete parent name ino :
  zlen (DirentPayload parent DirentDelete name ino) = 7 + zlen name.
Proof. rewrite DirentPayload_delete, zlen_AppendLStr. len_solve. Qed.

Lemma zlen_DirentPayload_create parent name ino :
  zlen (DirentPayload parent DirentCreate name ino) = 11 + zlen name.
Proof. rewrite DirentPayload_create, zlen_app, zlen_AppendLStr. len_solve. Qed.

#[export] Hint Rewrite zlen_DirentPayload_delete zlen_DirentPayload_create zlen_rec_hdr : zlen.

Lemma dirent_name_create parent op name q :
  zlen name < 2 ^ 16 ->
  LStr (AppendLStr (le_split 4 parent ++ [op]) name ++ q) 5 = Some (name, 7 + zlen name).
Proof.
  intros. change 5 with (zlen (le_split 4 parent ++ [op])) at 1.
  rewrite LStr_AppendLStr by done. do 2 f_equal.
Qed.

Lemma DecodeDirent_create parent name ino :
  0 <= parent < 2 ^ 32 -> 0 <= ino < 2 ^ 32 -> zlen name < 2 ^ 16 ->
  DecodeDirent (DirentPayload parent DirentCreate name ino)
  = Some (parent, DirentCreate, name, ino).
Proof.
  intros. pose proof (zlen_nonneg name). unfold DecodeDirent.
  rewrite zlen_DirentPayload_create, DirentPayload_create.
  rewrite (proj2 (Z.ltb_ge _ _)) by lia. rewrite dirent_name_create by done.
  rewrite (proj2 (Z.ltb_ge (11 + zlen name) _)) by lia.
  rewrite (Get32_skip (AppendLStr _ _) _ (7 + zlen name) 0) by len_solve.
  unfold AppendLStr. rewrite <- !app_assoc. fields.
  rewrite bool_decide_true by done. by rewrite !u32_small by done.
Qed.

Lemma DecodeDirent_delete parent name ino :
  0 <= parent < 2 ^ 32 -> zlen name < 2 ^ 16 ->
  DecodeDirent (DirentPayload parent DirentDelete name ino)
  = Some (parent, DirentDelete, name, 0).
Proof.
  intros. pose proof (zlen_nonneg name). unfold DecodeDirent.
  rewrite zlen_DirentPayload_delete, DirentPayload_delete.
  rewrite (proj2 (Z.ltb_ge _ _)) by lia.
  rewrite <- (app_nil_r (AppendLStr _ _)), dirent_name_create by done.
  unfold AppendLStr. rewrite <- !app_assoc. fields.
  rewrite bool_decide_false by done. by rewrite u32_small by done.
Qed.

Lemma DecodeData_Data ino off data :
  0 <= ino < 2 ^ 32 -> 0 <= off < 2 ^ 64 -> zlen data < 2 ^ 32 ->
  DecodeData (DataPayload ino off data) = Some (ino, off, data).
Proof.
  intros. pose proof (zlen_nonneg data). unfold DecodeData.
  rewrite zlen_DataPayload, DataPayload_eq. fields.
  rewrite !u32_small, u64_small by lia.
  rewrite (proj2 (Z.ltb_ge _ _)) by lia. rewrite (proj2 (Z.ltb_ge _ _)) by lia.
  by rewrite !app_assoc, slice_tail by len_solve.
Qed.

Lemma DecodeCheckpoint_Checkpoint n :
  0 <= n < 2 ^ 32 -> DecodeCheckpoint (CheckpointPayload n) = Some n.
Proof.
  intros. unfold DecodeCheckpoint. rewrite zlen_CheckpointPayload.
  unfold CheckpointPayload. rewrite Put32_fresh. cbn [Z.ltb Z.compare]. fields.
  by rewrite u32_small by done.
Qed.
