(* ===== verification/KfsLog.v ===== *)
(** * KfsLog: the byte image of a log and its reference reader

    A log is the concatenation of its encoded records.  [parse_rec] is the
    reference framing check on a flat image; the host reader and the guest's
    mount are both proved equal to scans built from it.  Appending a record
    extends the log, zeroed space holds no record of a known type, and a cut
    in the middle of an append never harms the records before it. *)

From S2P Require Import Prelude Frame Crc32 BlockDev SectorIO KfsFormat.

Definition enc (r : Record_) : list byte := EncodeRecord (Type_ r) (Payload r).
Definition encode_log (rs : list Record_) : list byte := concat (map enc rs).
Definition rec_size (r : Record_) : Z := HdrLen + zlen (Payload r).

(** What a writer may append: a payload within the replay limit, not empty. *)
Definition rec_ok (r : Record_) : Prop := 0 < zlen (Payload r) <= MaxPayload.

(** The record at [pos] of an image whose log ends at [stop]. *)
Definition parse_rec (img : list byte) (pos stop : Z) : option Record_ :=
  if pos + HdrLen <=? stop then
    let hdr := slice img pos (pos + HdrLen) in
    let plen := Get32 hdr 0 in
    if (MaxPayload <? plen) || (stop <? pos + HdrLen + plen) then None
    else
      let payload := slice img (pos + HdrLen) (pos + HdrLen + plen) in
      if ChecksumIEEE payload =? Get32 hdr 4 then Some (mkRecord (idx hdr 8) payload) else None
  else None.

(** [log_at img w rs]: the image's log region up to [w] is exactly [rs]. *)
Record log_at (img : list byte) (w : Z) (rs : list Record_) : Prop := mkLogAt {
  la_end : w = LogStart + zlen (encode_log rs);
  la_fits : w <= zlen img;
  la_bytes : slice img LogStart w = encode_log rs;
  la_ok : Forall rec_ok rs;
}.

Lemma encode_log_app rs qs : encode_log (rs ++ qs) = encode_log rs ++ encode_log qs.
Proof. unfold encode_log. by rewrite map_app, concat_app. Qed.

Lemma encode_log_cons r rs : encode_log (r :: rs) = enc r ++ encode_log rs.
Proof. done. Qed.

Lemma encode_log_one r : encode_log [r] = enc r.
Proof. unfold encode_log. simpl. by rewrite app_nil_r. Qed.

Lemma zlen_enc r : zlen (enc r) = rec_size r.
Proof. apply zlen_EncodeRecord. Qed.

#[export] Hint Rewrite zlen_enc encode_log_app encode_log_cons encode_log_one : zlen.

Lemma rec_size_pos r : 9 <= rec_size r.
Proof. unfold rec_size, HdrLen. pose proof (zlen_nonneg (Payload r)). lia. Qed.

Lemma zlen_encode_log_nonneg rs : 0 <= zlen (encode_log rs).
Proof. apply zlen_nonneg. Qed.

(** ** Parsing what was encoded *)

Lemma parse_rec_enc img pos stop r :
  0 <= pos -> rec_ok r -> pos + rec_size r <= stop ->
  slice img pos (pos + rec_size r) = enc r ->
  parse_rec img pos stop = Some r.
Proof.
  intros Hpos [_ Hok] Hstop Himg. unfold rec_size in *. pose proof (zlen_nonneg (Payload r)).
  set (p := Payload r) in *.
  assert (Hh : slice img pos (pos + HdrLen) = rec_hdr (Type_ r) p).
  { transitivity (slice (enc r) 0 HdrLen).
    - rewrite <- Himg, slice_slice by (unfold HdrLen; lia). f_equal; lia.
    - unfold enc. rewrite EncodeRecord_hdr, slice_here by (by rewrite zlen_rec_hdr). done. }
  assert (Hp : slice img (pos + HdrLen) (pos + HdrLen + zlen p) = p).
  { transitivity (slice (enc r) HdrLen (HdrLen + zlen p)).
    - rewrite <- Himg, slice_slice by (unfold HdrLen; lia). f_equal; lia.
    - unfold enc. rewrite EncodeRecord_hdr, slice_tail; len_solve. }
  unfold parse_rec. rewrite Hh, rec_hdr_len, rec_hdr_crc, rec_hdr_typ
    by (unfold MaxPayload in *; lia).
  rewrite (proj2 (Z.leb_le _ _)) by lia.
  rewrite (proj2 (Z.ltb_ge MaxPayload _)) by lia.
  rewrite (proj2 (Z.ltb_ge stop _)) by lia. cbn [orb].
  rewrite Hp, Z.eqb_refl. unfold p. by destruct r.
Qed.

Lemma parse_rec_some img pos stop r :
  parse_rec img pos stop = Some r -> 0 <= pos -> stop <= zlen img ->
  zlen (Payload r) <= MaxPayload /\ pos + rec_size r <= stop
  /\ Payload r = slice img (pos + HdrLen) (pos + rec_size r)
  /\ zlen (Payload r) = Get32 (slice img pos (pos + HdrLen)) 0.
Proof.
  unfold parse_rec, rec_size. intros Hp Hpos Hstop.
  destruct (Z.leb_spec (pos + HdrLen) stop); [|done].
  pose proof (Get32_range (slice img pos (pos + HdrLen)) 0) as Hr.
  destruct (Z.ltb_spec MaxPayload (Get32 (slice img pos (pos + HdrLen)) 0)); [done|].
  destruct (Z.ltb_spec stop (pos + HdrLen + Get32 (slice img pos (pos + HdrLen)) 0)); [done|].
  cbn [orb] in Hp. case_match; [|done]. injection Hp as <-. cbn [Payload].
  set (n := Get32 _ 0) in *. unfold HdrLen in *.
  rewrite zlen_slice by lia. replace (pos + 9 + n - (pos + 9)) with n by lia.
  replace (pos + (9 + n)) with (pos + 9 + n) by lia. repeat split; lia.
Qed.

(** Zeroed space reads as an empty record of type 0, or as nothing. *)
Lemma slice_zero_image img lo hi a b :
  all_zero (slice img lo hi) -> 0 <= lo <= a -> a <= b -> b <= hi -> hi <= zlen img ->
  slice img a b = mkbuf (b - a).
Proof.
  intros Hz Ha Hab Hb Hhi. apply list_eq. intros i. unfold mkbuf.
  destruct (decide (i < Z.to_nat (b - a))%nat) as [Hi|Hi].
  - rewrite lookup_replicate_2 by lia. rewrite lookup_slice, decide_True by done.
    assert (Hlt : (Z.to_nat a + i < length img)%nat) by (unfold zlen in *; lia).
    destruct (lookup_lt_is_Some_2 _ _ Hlt) as [x Hx]. rewrite Hx.
    assert (Hin : slice img lo hi !! (Z.to_nat a + i - Z.to_nat lo)%nat = Some x).
    { rewrite lookup_slice, decide_True by lia. rewrite <- Hx. f_equal. lia. }
    f_equal. unfold all_zero in Hz. rewrite Forall_lookup in Hz. by eapply Hz.
  - rewrite lookup_slice, decide_False by done. symmetry. apply lookup_ge_None_2.
    rewrite length_replicate. lia.
Qed.

Lemma parse_rec_zero img pos stop :
  0 <= pos -> stop <= zlen img -> all_zero (slice img pos stop) ->
  parse_rec img pos stop =
  if pos + HdrLen <=? stop then Some (mkRecord (z2b 0) []) else None.
Proof.
  intros Hpos Hstop Hz. unfold parse_rec. destruct (Z.leb_spec (pos + HdrLen) stop); [|done].
  rewrite (slice_zero_image img pos stop pos (pos + HdrLen)) by (unfold HdrLen in *; done || lia).
  replace (pos + HdrLen - pos) with HdrLen by lia.
  change (Get32 (mkbuf HdrLen) 0) with 0. change (Get32 (mkbuf HdrLen) 4) with 0.
  change (MaxPayload <? 0) with false. rewrite (proj2 (Z.ltb_ge _ _)) by lia. cbn [orb].
  rewrite slice_empty by lia. done.
Qed.

(** ** Growing a log *)

Lemma splice_log img w rs raw :
  log_at img w rs -> w + zlen raw <= zlen img ->
  slice (splice img w raw) LogStart w = encode_log rs.
Proof.
  intros [He Hf Hb _] Hin. pose proof (zlen_encode_log_nonneg rs). unfold LogStart in *.
  rewrite slice_splice_before by lia. done.
Qed.

Lemma log_at_append img w rs r :
  log_at img w rs -> rec_ok r -> w + rec_size r <= zlen img ->
  log_at (splice img w (enc r)) (w + rec_size r) (rs ++ [r]).
Proof.
  intros Hlog Hok Hin. pose proof (rec_size_pos r).
  pose proof (zlen_encode_log_nonneg rs). destruct Hlog as [He Hf Hb Hall] eqn:E. clear E.
  unfold LogStart in *. assert (Hz : zlen (splice img w (enc r)) = zlen img)
    by (rewrite zlen_splice; lia).
  split.
  - rewrite encode_log_app, zlen_app, encode_log_one, zlen_enc. unfold LogStart. lia.
  - rewrite Hz. done.
  - unfold LogStart. rewrite (slice_app_split _ _ w) by lia.
    rewrite encode_log_app, encode_log_one. f_equal.
    + apply splice_log; [done|]. rewrite zlen_enc. lia.
    + rewrite <- zlen_enc. apply slice_splice_same; rewrite ?zlen_enc; lia.
  - apply Forall_app. split; [done|]. by constructor.
Qed.

Lemma log_at_start img : LogStart <= zlen img -> log_at img LogStart [].
Proof. intros. split; [done|done| |constructor]. by rewrite slice_empty by lia. Qed.

Lemma log_tail_zero img w r :
  0 <= w -> w + rec_size r <= zlen img ->
  all_zero (slice img w (zlen img)) ->
  all_zero (slice (splice img w (enc r)) (w + rec_size r) (zlen img)).
Proof.
  intros Hw Hin Hz. pose proof (rec_size_pos r).
  rewrite slice_splice_after by (rewrite ?zlen_enc; lia).
  rewrite (slice_app_split img w (w + rec_size r)) in Hz by lia.
  by apply Forall_app in Hz as [_ Hz].
Qed.

(** Where record [i] of a log sits. *)
Lemma log_at_split img w rs qs :
  log_at img w (rs ++ qs) ->
  log_at img (LogStart + zlen (encode_log rs)) rs
  /\ slice img (LogStart + zlen (encode_log rs)) w = encode_log qs.
Proof.
  intros [He Hf Hb Hall]. rewrite encode_log_app in *. rewrite zlen_app in He.
  pose proof (zlen_encode_log_nonneg rs). pose proof (zlen_encode_log_nonneg qs).
  unfold LogStart in *.
  rewrite (slice_app_split _ _ (512 + zlen (encode_log rs))) in Hb by lia.
  apply app_inj_1 in Hb as [Hb1 Hb2].
  2:{ assert (Hl := zlen_slice img 512 (512 + zlen (encode_log rs))). unfold zlen in *. lia. }
  apply Forall_app in Hall as [Hall1 Hall2]. split; [|done].
  split; unfold LogStart; [done|lia|done|done].
Qed.

Lemma parse_rec_log img w rs r qs stop :
  log_at img w (rs ++ r :: qs) -> w <= stop ->
  parse_rec img (LogStart + zlen (encode_log rs)) stop = Some r.
Proof.
  intros Hlog Hstop. destruct (log_at_split _ _ _ _ Hlog) as [_ Hb].
  destruct Hlog as [He Hf _ Hall]. rewrite encode_log_app, zlen_app, encode_log_cons, zlen_app, zlen_enc in He.
  pose proof (zlen_encode_log_nonneg rs). pose proof (zlen_encode_log_nonneg qs).
  pose proof (rec_size_pos r). unfold LogStart in *.
  apply Forall_app in Hall as [_ Hall]. apply Forall_cons in Hall as [Hr _].
  apply parse_rec_enc; [lia|done|lia|].
  rewrite encode_log_cons in Hb. apply (f_equal (fun l => slice l 0 (rec_size r))) in Hb.
  rewrite slice_here in Hb by (by rewrite zlen_enc). rewrite <- Hb.
  rewrite slice_slice by lia. f_equal; lia.
Qed.

(** A cut: only the first [j] bytes of the record reached the device. *)
Lemma log_at_cut img w rs r j :
  log_at img w rs -> w + rec_size r <= zlen img -> 0 <= j <= rec_size r ->
  log_at (splice img w (slice (enc r) 0 j)) w rs.
Proof.
  intros Hlog Hin Hj. assert (Hz : zlen (slice (enc r) 0 j) = j)
    by (rewrite zlen_slice; rewrite ?zlen_enc; lia).
  pose proof (splice_log img w rs (slice (enc r) 0 j) Hlog ltac:(lia)) as Hs.
  destruct Hlog as [He Hf Hb Hall]. pose proof (zlen_encode_log_nonneg rs).
  unfold LogStart in *. split; [done| |done|done]. rewrite zlen_splice; lia.
Qed.
