(* ===== verification/Paths.v ===== *)
(** * Paths: absolute path splitting

    [splitPath] of [services/fs/fat16.go], shared by the FAT16 and the KFS
    stores, over Go's [strings.Split]; and the path shape facts the
    filesystem and the server's policy theorems use. *)

From S2P Require Import Prelude BlockDev.

Definition slash : byte := Byte.x2f.
Definition dot : list byte := bs ".".
Definition dotdot : list byte := bs "..".

(** [strings.Split(s, sep)] for a one-byte separator: never empty. *)
Fixpoint Split (s : list byte) (sep : byte) : list (list byte) :=
  match s with
  | [] => [[]]
  | c :: s' =>
      if decide (c = sep) then [] :: Split s' sep
      else match Split s' sep with
           | p :: ps => (c :: p) :: ps
           | [] => [[c]]
           end
  end.

(** The loop of [splitPath]: empty and [.] components are dropped, [..] is
    refused. *)
Fixpoint split_loop (parts out : list (list byte)) : outcome error (list (list byte)) :=
  match parts with
  | [] => Ok out
  | p :: parts =>
      if bool_decide (p = []) || bool_decide (p = dot) then split_loop parts out
      else if bool_decide (p = dotdot) then Err ErrBadName
      else split_loop parts (out ++ [p])
  end.

Definition splitPath (path : list byte) : outcome error (list (list byte)) :=
  match path with
  | [] => Err ErrBadName
  | c :: rest =>
      if decide (c = slash) then split_loop (Split rest slash) [] else Err ErrBadName
  end.

Example splitPath_motd :
  splitPath (bs "/etc//./motd") = Ok [bs "etc"; bs "motd"].
Proof. reflexivity. Qed.

Example splitPath_dotdot : splitPath (bs "/tmp/../etc") = Err ErrBadName.
Proof. reflexivity. Qed.

(** ** What a split path looks like *)

(** A component the loop keeps. *)
Definition good_part (p : list byte) : Prop :=
  p ≠ [] /\ p ≠ dot /\ p ≠ dotdot /\ slash ∉ p.

Lemma Split_no_sep s sep : Forall (fun p => sep ∉ p) (Split s sep).
Proof.
  induction s as [|c s IH]; simpl;
    [constructor; [by apply not_elem_of_nil|constructor]|].
  case_decide; [constructor; [by apply not_elem_of_nil|done]|].
  destruct (Split s sep) as [|p ps];
    [constructor; [by rewrite list_elem_of_singleton|constructor]|].
  inversion IH; subst. constructor; [by rewrite not_elem_of_cons|done].
Qed.

Lemma Split_nonempty s sep : Split s sep ≠ [].
Proof. destruct s as [|c s]; simpl; [done|]. case_decide; [done|]. by destruct (Split s sep). Qed.

Lemma split_loop_good parts out r :
  Forall (fun p => slash ∉ p) parts -> Forall good_part out ->
  split_loop parts out = Ok r -> Forall good_part r.
Proof.
  revert out. induction parts as [|p parts IH]; intros out Hp Ho; simpl.
  { intros [= <-]. done. }
  inversion Hp as [|?? Hp1 Hp2]; subst.
  repeat case_bool_decide; simpl; try done; try (by apply IH).
  apply IH; [done|]. apply Forall_app. split; [done|]. repeat constructor; done.
Qed.

Lemma splitPath_good path parts : splitPath path = Ok parts -> Forall good_part parts.
Proof.
  destruct path as [|c rest]; simpl; [done|]. case_decide; [|done].
  apply split_loop_good; [apply Split_no_sep|constructor].
Qed.

Lemma splitPath_err path e : splitPath path = Err e -> e = ErrBadName.
Proof.
  destruct path as [|c rest]; simpl; [congruence|]. case_decide; [|congruence].
  generalize (@nil (list byte)). induction (Split rest slash) as [|p ps IH]; simpl; [done|].
  intros out. repeat case_bool_decide; simpl; try (by apply IH); congruence.
Qed.

Lemma splitPath_no_panic path : splitPath path ≠ Panic.
Proof.
  destruct path as [|c rest]; simpl; [done|]. case_decide; [|done].
  generalize (@nil (list byte)). induction (Split rest slash) as [|p ps IH]; simpl; [done|].
  intros out. repeat case_bool_decide; simpl; try (by apply IH); done.
Qed.

Lemma splitPath_not_panic path :
  (exists parts, splitPath path = Ok parts) \/ splitPath path = Err ErrBadName.
Proof.
  destruct (splitPath path) eqn:E; [eauto| |].
  - right. by rewrite (splitPath_err _ _ E).
  - by apply splitPath_no_panic in E.
Qed.

Lemma Split_len s sep p : p ∈ Split s sep -> zlen p <= zlen s.
Proof.
  revert p. induction s as [|c s IH]; intros p; simpl.
  { intros ->%list_elem_of_singleton. done. }
  rewrite zlen_cons. pose proof (zlen_nonneg s).
  case_decide; [intros [->|Hp]%elem_of_cons; [rewrite ?zlen_cons, ?zlen_nil; lia|apply IH in Hp; lia]|].
  destruct (Split s sep) as [|q qs]; [intros ->%list_elem_of_singleton; rewrite ?zlen_cons, ?zlen_nil; lia|].
  intros [->|Hp]%elem_of_cons.
  - rewrite zlen_cons. specialize (IH q ltac:(left)). lia.
  - specialize (IH p ltac:(by right)). lia.
Qed.

Lemma split_loop_sub parts out r p :
  split_loop parts out = Ok r -> p ∈ r -> p ∈ out \/ p ∈ parts.
Proof.
  revert out. induction parts as [|q parts IH]; intros out; simpl.
  { intros [= ->]. auto. }
  repeat case_bool_decide; simpl; try done; intros Hr Hp; apply (IH _ Hr) in Hp;
    rewrite ?elem_of_app, ?elem_of_cons, ?elem_of_nil in *; tauto.
Qed.

Lemma splitPath_len path parts p : splitPath path = Ok parts -> p ∈ parts -> zlen p < zlen path.
Proof.
  destruct path as [|c rest]; simpl; [done|]. case_decide; [|done]. intros Hs Hp.
  apply (split_loop_sub _ _ _ _ Hs) in Hp as [Hp%elem_of_nil|Hp]; [done|].
  apply Split_len in Hp. rewrite zlen_cons. lia.
Qed.
