(* ===== verification/KfsFs.v ===== *)
(** * KfsFs: the log-structured filesystem of [services/fs/kfs.go]

    The mounted volume as a record, every method as a definition.  [kfsMeta]
    groups the fields the log replays into (the maps of the Go struct), so
    that [apply] and the path lookups are functions of those fields alone;
    [KFS] adds the device and the log cursor.  The theorems about these
    definitions are in [KfsMount] and [KfsOps]. *)

From S2P Require Import Prelude Frame Crc32 BlockDev SectorIO KfsFormat Paths.

(** ** State *)

Record kfsInode := mkInode { i_ino : Z; i_uid : Z; i_kind : byte; i_size : Z }.
Record kfsDirent := mkDirent { d_parent : Z; d_name : list byte; d_ino : Z; d_dead : bool }.

Record kfsMeta := mkMeta {
  inodes : gmap Z kfsInode;
  children : gmap Z (list nat);
  dirents : list kfsDirent;
  data : gmap Z (list byte);
  nextIno : Z }.

Definition set_inodes m v := mkMeta v (children m) (dirents m) (data m) (nextIno m).
Definition set_children m v := mkMeta (inodes m) v (dirents m) (data m) (nextIno m).
Definition set_dirents m v := mkMeta (inodes m) (children m) v (data m) (nextIno m).
Definition set_data m v := mkMeta (inodes m) (children m) (dirents m) v (nextIno m).
Definition set_nextIno m v := mkMeta (inodes m) (children m) (dirents m) (data m) v.

Record KFS (D : Type) := mkKFS {
  dev : D;
  numBlocks : Z;
  meta : kfsMeta;
  logData : list byte;
  wOff : Z;
  recs : Z;
  logEnd : Z }.
Arguments mkKFS {D}.
Arguments dev {D}. Arguments numBlocks {D}. Arguments meta {D}. Arguments logData {D}.
Arguments wOff {D}. Arguments recs {D}. Arguments logEnd {D}.

Definition set_dev {D} (k : KFS D) (d : D) : KFS D :=
  mkKFS d (numBlocks k) (meta k) (logData k) (wOff k) (recs k) (logEnd k).
Definition set_meta {D} (k : KFS D) m :=
  mkKFS (dev k) (numBlocks k) m (logData k) (wOff k) (recs k) (logEnd k).
Definition set_logData {D} (k : KFS D) l :=
  mkKFS (dev k) (numBlocks k) (meta k) l (wOff k) (recs k) (logEnd k).
Definition set_wOff {D} (k : KFS D) w :=
  mkKFS (dev k) (numBlocks k) (meta k) (logData k) w (recs k) (logEnd k).
Definition set_recs {D} (k : KFS D) r :=
  mkKFS (dev k) (numBlocks k) (meta k) (logData k) (wOff k) r (logEnd k).

(** A device call and a change of the maps, as steps of the volume. *)
Definition onDev {D A} (m : M D error A) : M (KFS D) error A := fun k =>
  let '(r, d) := m (dev k) in (r, set_dev k d).
Definition onMeta {D A} (m : M kfsMeta error A) : M (KFS D) error A := fun k =>
  let '(r, m') := m (meta k) in (r, set_meta k m').
Definition updMeta {D} (f : kfsMeta -> kfsMeta) : M (KFS D) error unit :=
  modifyS (fun k => set_meta k (f (meta k))).

(** ** Lookups over the dirent maps *)

Fixpoint find_in (ds : list kfsDirent) (name : list byte) (ix : list nat) : option nat :=
  match ix with
  | [] => None
  | i :: ix =>
      match ds !! i with
      | Some d => if negb (d_dead d) && bool_decide (d_name d = name) then Some i
                  else find_in ds name ix
      | None => find_in ds name ix
      end
  end.

Definition findDirent (m : kfsMeta) (parent : Z) (name : list byte) : option nat :=
  find_in (dirents m) name (default [] (children m !! parent)).

(** [k.dirents[di].ino] for an index [findDirent] gave. *)
Definition dirent_ino (m : kfsMeta) (di : nat) : Z :=
  match dirents m !! di with Some d => d_ino d | None => 0 end.

Definition kill (d : kfsDirent) : kfsDirent := mkDirent (d_parent d) (d_name d) (d_ino d) true.

Definition removeDirent (m : kfsMeta) (parent : Z) (name : list byte) : kfsMeta :=
  match findDirent m parent name with
  | Some di => set_dirents m (alter kill di (dirents m))
  | None => m
  end.

(** Appending a dirent and indexing it under its parent. *)
Definition link (m : kfsMeta) (parent : Z) (name : list byte) (ino : Z) : kfsMeta :=
  let ds := dirents m ++ [mkDirent parent name ino false] in
  let m := set_dirents m ds in
  set_children m (<[parent := default [] (children m !! parent) ++ [(length ds - 1)%nat]]>
                    (children m)).

(** ** [apply]: one replayed record *)

Definition apply_inode (p : list byte) (m : kfsMeta) : kfsMeta :=
  let ino := Get32 p 0 in
  let m := set_inodes m (<[ino := mkInode ino (Get32 p 4) (idx p 8) (Get32 p 9)]> (inodes m)) in
  let m := if nextIno m <=? ino then set_nextIno m (u32 (ino + 1)) else m in
  if bool_decide (idx p 8 = KindDir) then
    match children m !! ino with
    | Some _ => m
    | None => set_children m (<[ino := []]> (children m))
    end
  else m.

(** [copy(buf[off:], p[16:])] panics when [off] is past the extended buffer. *)
Definition apply_data (p : list byte) : M kfsMeta error bool := fun m =>
  let ino := Get32 p 0 in
  let off := Get64 p 4 in
  let dlen := Get32 p 12 in
  if zlen p <? 16 + dlen then (Ok false, m)
  else
    let buf := default [] (data m !! ino) in
    if off =? TruncSentinel then (Ok true, set_data m (<[ino := []]> (data m)))
    else
      let end_ := i64 (i64 off + dlen) in
      let buf := buf ++ mkbuf (end_ - zlen buf) in
      if zlen buf <? off then (Panic, m)
      else (Ok true, set_data m (<[ino := splice buf off (drop 16 p)]> (data m))).

Definition apply (typ : byte) (p : list byte) : M kfsMeta error bool := fun m =>
  if bool_decide (typ = RecInode) then
    if zlen p <? 13 then (Ok false, m) else (Ok true, apply_inode p m)
  else if bool_decide (typ = RecDirent) then
    if zlen p <? 7 then (Ok false, m)
    else
      let parent := Get32 p 0 in
      let op := idx p 4 in
      match LStr p 5 with
      | None => (Ok false, m)
      | Some (name, next) =>
          if zlen p <? next + 4 then (Ok false, m)
          else
            let ino := Get32 p next in
            if bool_decide (op = z2b 1) then (Ok true, removeDirent m parent name)
            else (Ok true, link m parent name ino)
      end
  else if bool_decide (typ = RecData) then
    if zlen p <? 16 then (Ok false, m) else apply_data p m
  else if bool_decide (typ = RecCheckpoint) then
    if 4 <=? zlen p then
      let ni := Get32 p 0 in
      (Ok true, if nextIno m <? ni then set_nextIno m ni else m)
    else (Ok true, m)
  else (Ok false, m).

(** ** Path resolution *)

Fixpoint walk_loop (m : kfsMeta) (cur : Z) (parts : list (list byte)) : option Z :=
  match parts with
  | [] => Some cur
  | part :: parts =>
      match findDirent m cur part with
      | None => None
      | Some di => walk_loop m (dirent_ino m di) parts
      end
  end.

(** [None]: no such path ([ok == false]). *)
Definition walk (m : kfsMeta) (path : list byte) : outcome error (option Z) :=
  parts ← splitPath path;
  Ok (walk_loop m RootIno parts).

Definition is_dir (m : kfsMeta) (ino : Z) : bool :=
  match inodes m !! ino with
  | Some nd => bool_decide (i_kind nd = KindDir)
  | None => false
  end.

Fixpoint walkParent_loop (m : kfsMeta) (cur : Z) (parts : list (list byte)) : outcome error Z :=
  match parts with
  | [] => Ok cur
  | part :: parts =>
      match findDirent m cur part with
      | None => Err ErrNoEntry
      | Some di =>
          let cur := dirent_ino m di in
          if is_dir m cur then walkParent_loop m cur parts else Err ErrNotDir
      end
  end.

Definition walkParent (m : kfsMeta) (path : list byte) : outcome error (Z * list byte) :=
  match splitPath path with
  | Ok parts =>
      match last parts with
      | None => Err ErrBadName
      | Some leaf =>
          pino ← walkParent_loop m RootIno (take (length parts - 1) parts);
          Ok (pino, leaf)
      end
  | _ => Err ErrBadName
  end.

(** ** The queries *)

Record StatInfo := mkStat { st_Name : list byte; st_Attr : Z; st_Size : Z; st_Cluster : Z }.
Definition attrDir : Z := 0x10.

Definition Stat (m : kfsMeta) (path : list byte) : outcome error StatInfo :=
  if bool_decide (path = bs "/") then Ok (mkStat [] attrDir 0 0)
  else
    parts ← splitPath path;
    '(pino, leaf) ← walkParent m path;
    match findDirent m pino leaf with
    | None => Err ErrNoEntry
    | Some di =>
        let ino := dirent_ino m di in
        match inodes m !! ino with
        | Some nd => Ok (mkStat leaf (if bool_decide (i_kind nd = KindDir) then attrDir else 0)
                           (i_size nd) ino)
        | None => if (0 <? length parts)%nat then Err ErrNoEntry else Ok (mkStat leaf 0 0 ino)
        end
    end.

Definition list_entry (m : kfsMeta) (i : nat) : list StatInfo :=
  match dirents m !! i with
  | Some d =>
      if d_dead d then []
      else match inodes m !! d_ino d with
           | Some nd => [mkStat (d_name d)
                           (if bool_decide (i_kind nd = KindDir) then attrDir else 0)
                           (i_size nd) (d_ino d)]
           | None => [mkStat (d_name d) 0 0 (d_ino d)]
           end
  | None => []
  end.

Definition List (m : kfsMeta) (path : list byte) : outcome error (list StatInfo) :=
  pino ← (if bool_decide (path = bs "/") then Ok RootIno
          else r ← walk m path;
               match r with
               | None => Err ErrNoEntry
               | Some ino => if is_dir m ino then Ok ino else Err ErrNotDir
               end);
  Ok (concat (map (list_entry m) (default [] (children m !! pino)))).

Definition live (m : kfsMeta) (i : nat) : bool :=
  match dirents m !! i with Some d => negb (d_dead d) | None => false end.

Definition liveChildren (m : kfsMeta) (parent : Z) : list nat :=
  filter (fun i => live m i = true) (default [] (children m !! parent)).

Definition UID (m : kfsMeta) (path : list byte) : outcome error Z :=
  '(pino, leaf) ← walkParent m path;
  match findDirent m pino leaf with
  | None => Err ErrNoEntry
  | Some di => match inodes m !! dirent_ino m di with
               | Some nd => Ok (i_uid nd)
               | None => Err ErrNoEntry
               end
  end.

(** ** Log mechanics *)

Section Volume.
Context {D : Type} `{BlockDev D}.

(** The framing of a record: the length, the CRC, the type, the payload. *)
Definition frame (recType : byte) (payload : list byte) : list byte :=
  let raw := mkbuf (HdrLen + zlen payload) in
  let raw := Put32 raw 0 (u32 (zlen payload)) in
  let raw := Put32 raw 4 (ChecksumIEEE payload) in
  let raw := splice raw 8 [recType] in
  splice raw HdrLen payload.

(** The write of one record at the cursor.  The body's two paths (aligned
    write, read-modify-write) are [writeAt], word for word. *)
Definition append_raw (recType : byte) (payload : list byte) : M (KFS D) error unit :=
  k ← getS;
  let n := HdrLen + zlen payload in
  if logEnd k <? wOff k + n then throw ErrNoSpace
  else
    _ ← onDev (writeAt (wOff k) (frame recType payload));
    modifyS (fun k => set_wOff k (wOff k + n)).

Definition checkpoint_payload (k : KFS D) : list byte :=
  Put32 (mkbuf 4) 0 (nextIno (meta k)).

(** Checkpoints never re-trigger pacing, so the mutual recursion of [append]
    and [appendCheckpoint] is one level deep. *)
Definition appendCheckpoint : M (KFS D) error unit :=
  k ← getS; append_raw RecCheckpoint (checkpoint_payload k).

Definition append (recType : byte) (payload : list byte) : M (KFS D) error unit :=
  _ ← append_raw recType payload;
  if bool_decide (recType = RecCheckpoint) then mret tt
  else
    _ ← modifyS (fun k => set_recs k (recs k + 1));
    k ← getS;
    if recs k mod CPEvery =? 0 then appendCheckpoint else mret tt.

Definition padToSectorBoundary : M (KFS D) error unit :=
  modifyS (fun k =>
    let rem := wOff k mod SectorSize in
    if rem =? 0 then k else set_wOff k (wOff k + (SectorSize - rem))).

(** [dst] is the buffer to fill; the log cache serves reads inside it. *)
Definition readAt (off : Z) (dst : list byte) : M (KFS D) error (list byte) :=
  k ← getS;
  if (off <? 0) || (numBlocks k <=? off / 512) then throw ErrBeyondDevice
  else if off + zlen dst <=? zlen (logData k)
  then mret (slice (logData k) off (off + zlen dst))
  else onDev (read_loop (S (length dst)) off dst (mkbuf 512) 0).

(** [replay]'s loop; the result is the position it stops at.  Every
    iteration advances by at least [HdrLen], so [logEnd] bounds the fuel. *)
Fixpoint replay_loop (fuel : nat) (pos : Z) : M (KFS D) error Z :=
  match fuel with
  | O => panic
  | S fuel =>
      k ← getS;
      if pos + HdrLen <=? logEnd k then
        rh ← catch (readAt pos (mkbuf HdrLen));
        match rh with
        | None => mret pos
        | Some hdr =>
            let plen := Get32 hdr 0 in
            let crc := Get32 hdr 4 in
            let typ := idx hdr 8 in
            if (plen <? 0) || (MaxPayload <? plen) || (logEnd k <? pos + HdrLen + plen)
            then mret pos
            else
              rp ← catch (readAt (pos + HdrLen) (mkbuf plen));
              match rp with
              | None => mret pos
              | Some payload =>
                  if negb (ChecksumIEEE payload =? crc) then mret pos
                  else
                    ok ← onMeta (apply typ payload);
                    if (ok : bool) then replay_loop fuel (pos + (HdrLen + plen)) else mret pos
              end
        end
      else mret pos
  end.

Definition replay : M (KFS D) error unit :=
  k ← getS;
  pos ← replay_loop (S (Z.to_nat (logEnd k))) (wOff k);
  modifyS (fun k => set_wOff k pos).

(** One data record overlaid on the requested range. *)
Definition overlay (ino off want : Z) (payload out : list byte) : list byte :=
  if zlen payload <? 16 then out
  else if negb (Get32 payload 0 =? ino) then out
  else
    let doff := Get64 payload 4 in
    if doff =? TruncSentinel then mkbuf want
    else
      let dlen := Get32 payload 12 in
      if zlen payload <? 16 + dlen then out
      else
        let segStart := i64 doff in
        let segEnd := i64 (segStart + dlen) in
        let reqStart := off in
        let reqEnd := reqStart + want in
        if (reqEnd <=? segStart) || (segEnd <=? reqStart) then out
        else
          let ovStart := Z.max segStart reqStart in
          let ovEnd := Z.min segEnd reqEnd in
          let segOff := ovStart - segStart in
          let dstOff := ovStart - reqStart in
          splice out dstOff (slice payload (16 + segOff) (16 + segOff + (ovEnd - ovStart))).

Fixpoint replayData_loop (fuel : nat) (ino off want pos : Z) (out : list byte)
  : M (KFS D) error (list byte) :=
  match fuel with
  | O => panic
  | S fuel =>
      k ← getS;
      if pos + HdrLen <=? wOff k then
        hdr ← readAt pos (mkbuf HdrLen);
        let plen := Get32 hdr 0 in
        let crc := Get32 hdr 4 in
        let typ := idx hdr 8 in
        let recEnd := pos + (HdrLen + plen) in
        if (plen <? 0) || (MaxPayload <? plen) || (wOff k <? recEnd) then mret out
        else
          payload ← readAt (pos + HdrLen) (mkbuf plen);
          if negb (ChecksumIEEE payload =? crc) then mret out
          else
            replayData_loop fuel ino off want recEnd
              (if bool_decide (typ = RecData) then overlay ino off want payload out else out)
      else mret out
  end.

Definition replayData (ino off want : Z) : M (KFS D) error (list byte) :=
  k ← getS;
  replayData_loop (S (Z.to_nat (wOff k))) ino off want LogStart (mkbuf want).

(** Loading the log region into the RAM cache. *)
Fixpoint finalize_loop (fuel : nat) (lba : Z) : M (KFS D) error unit :=
  match fuel with
  | O => panic
  | S fuel =>
      k ← getS;
      if lba <? wOff k / SectorSize + 1 then
        if numBlocks k <=? lba then mret tt
        else
          let off := lba * SectorSize in
          if zlen (logData k) <? off + SectorSize then mret tt
          else
            buf ← onDev (blk_read lba (mkbuf SectorSize));
            _ ← modifyS (fun k => set_logData k (splice (logData k) off buf));
            finalize_loop fuel (lba + 1)
      else mret tt
  end.

Definition finalizeLogData : M (KFS D) error unit :=
  k ← getS;
  let logLen := wOff k - LogStart in
  if logLen <=? 0 then mret tt
  else
    _ ← modifyS (fun k => set_logData k (mkbuf (LogStart + logLen)));
    finalize_loop (S (S (Z.to_nat (wOff k / SectorSize)))) 0.

(** ** The operations *)

Definition kfsInodePayload (n : kfsInode) : list byte :=
  let p := mkbuf 13 in
  let p := Put32 p 0 (i_ino n) in
  let p := Put32 p 4 (i_uid n) in
  let p := splice p 8 [i_kind n] in
  Put32 p 9 (i_size n).

Definition appendDirent (parent : Z) (name : list byte) (ino : Z) : M (KFS D) error unit :=
  let pl := Put32 (mkbuf 4) 0 parent in
  let pl := pl ++ [z2b 0] in
  let pl := AppendLStr pl name in
  let pl := pl ++ Put32 (mkbuf 4) 0 ino in
  _ ← append RecDirent pl;
  updMeta (fun m => link m parent name ino).

Definition appendDirentDelete (parent : Z) (name : list byte) : M (KFS D) error unit :=
  let pl := Put32 (mkbuf 4) 0 parent in
  let pl := pl ++ [z2b 1] in
  let pl := AppendLStr pl name in
  _ ← append RecDirent pl;
  updMeta (fun m => removeDirent m parent name).

Definition appendData (ino off : Z) (dat : list byte) : M (KFS D) error unit :=
  let pl := mkbuf (16 + zlen dat) in
  let pl := Put32 pl 0 ino in
  let pl := Put64 pl 4 off in
  let pl := Put32 pl 12 (u32 (zlen dat)) in
  let pl := splice pl 16 dat in
  append RecData pl.

Definition allocIno : M (KFS D) error Z :=
  k ← getS;
  let ino := nextIno (meta k) in
  _ ← updMeta (fun m => set_nextIno m (u32 (nextIno m + 1)));
  mret ino.

Definition getMeta : M (KFS D) error kfsMeta := k ← getS; mret (meta k).

Definition put_inode (m : kfsMeta) (n : kfsInode) : kfsMeta :=
  set_inodes m (<[i_ino n := n]> (inodes m)).

(** [truncate]: the sentinel record, then the zero size when it changes.
    [nd.size = 0] is an update through the inode pointer. *)
Definition truncate (ino : Z) : M (KFS D) error unit :=
  let pl := Put32 (mkbuf 4) 0 ino ++ Put64 (mkbuf 8) 0 TruncSentinel ++ Put32 (mkbuf 4) 0 0 in
  _ ← append RecData pl;
  m ← getMeta;
  _ ← (match inodes m !! ino with
       | Some nd =>
           if i_size nd =? 0 then mret tt
           else
             _ ← append RecInode (kfsInodePayload (mkInode ino (i_uid nd) (i_kind nd) 0));
             updMeta (fun m => set_inodes m
               (<[ino := mkInode (i_ino nd) (i_uid nd) (i_kind nd) 0]> (inodes m)))
       | None => mret tt
       end);
  updMeta (fun m => set_data m (<[ino := []]> (data m))).

Definition Create (path : list byte) : M (KFS D) error unit :=
  m ← getMeta;
  '(pino, leaf) ← liftO (walkParent m path);
  match findDirent m pino leaf with
  | Some di =>
      let ino := dirent_ino m di in
      if is_dir m ino then throw ErrIsDir else truncate ino
  | None =>
      ino ← allocIno;
      _ ← append RecInode (kfsInodePayload (mkInode ino 0 KindFile 0));
      _ ← appendDirent pino leaf ino;
      updMeta (fun m =>
        set_data (put_inode m (mkInode ino 0 KindFile 0)) (<[ino := []]> (data m)))
  end.

Definition Mkdir (path : list byte) : M (KFS D) error unit :=
  m ← getMeta;
  '(pino, leaf) ← liftO (walkParent m path);
  match findDirent m pino leaf with
  | Some _ => throw ErrExists
  | None =>
      ino ← allocIno;
      _ ← append RecInode (kfsInodePayload (mkInode ino 0 KindDir 0));
      _ ← appendDirent pino leaf ino;
      updMeta (fun m =>
        set_children (put_inode m (mkInode ino 0 KindDir 0)) (<[ino := []]> (children m)))
  end.

Definition Delete (path : list byte) : M (KFS D) error unit :=
  m ← getMeta;
  '(pino, leaf) ← liftO (walkParent m path);
  match findDirent m pino leaf with
  | None => throw ErrNoEntry
  | Some di =>
      let ino := dirent_ino m di in
      if is_dir m ino && negb (bool_decide (liveChildren m ino = [])) then throw ErrNotEmpt
      else
        _ ← appendDirentDelete pino leaf;
        updMeta (fun m => set_data m (delete ino (data m)))
  end.

(** The result is [buf[:n]], the bytes read; [buflen] is [len(buf)]. *)
Definition ReadFile (path : list byte) (off buflen : Z) : M (KFS D) error (list byte) :=
  if buflen =? 0 then mret []
  else
    m ← getMeta;
    '(pino, leaf) ← liftO (walkParent m path);
    match findDirent m pino leaf with
    | None => throw ErrNoEntry
    | Some di =>
        let ino := dirent_ino m di in
        if is_dir m ino then throw ErrIsDir
        else
          let size := match inodes m !! ino with Some nd => i_size nd | None => 0 end in
          if size <=? off then mret []
          else
            let want := Z.min (size - off) buflen in
            let dat := default [] (data m !! ino) in
            if size <=? zlen dat then mret (slice dat off (off + want))
            else
              replayed ← replayData ino 0 size;
              _ ← updMeta (fun m => set_data m (<[ino := replayed]> (data m)));
              mret (slice replayed off (off + want))
    end.

Definition cacheFileData (path : list byte) (dat : list byte) : M (KFS D) error unit :=
  updMeta (fun m =>
    match walkParent m path with
    | Ok (pino, leaf) =>
        match findDirent m pino leaf with
        | Some di => set_data m (<[dirent_ino m di := dat]> (data m))
        | None => m
        end
    | _ => m
    end).

Definition WriteFile (path : list byte) (off : Z) (dat : list byte) : M (KFS D) error unit :=
  m ← getMeta;
  '(pino, leaf) ← liftO (walkParent m path);
  match findDirent m pino leaf with
  | None => throw ErrNoEntry
  | Some di =>
      let ino := dirent_ino m di in
      match inodes m !! ino with
      | None => throw ErrIsDir
      | Some nd =>
          if bool_decide (i_kind nd = KindDir) then throw ErrIsDir
          else
            _ ← appendData ino off dat;
            let end64 := u64 (off + zlen dat) in
            let newSize := if i_size nd <? end64 then u32 end64 else i_size nd in
            _ ← (if newSize =? i_size nd then mret tt
                 else
                   _ ← append RecInode
                         (kfsInodePayload (mkInode ino (i_uid nd) (i_kind nd) newSize));
                   updMeta (fun m => set_inodes m
                     (<[ino := mkInode (i_ino nd) (i_uid nd) (i_kind nd) newSize]> (inodes m))));
            updMeta (fun m => set_data m (<[ino := []]> (data m)))
      end
  end.

Definition SetUID (path : list byte) (uid : Z) : M (KFS D) error unit :=
  m ← getMeta;
  '(pino, leaf) ← liftO (walkParent m path);
  match findDirent m pino leaf with
  | None => throw ErrNoEntry
  | Some di =>
      let ino := dirent_ino m di in
      match inodes m !! ino with
      | None => throw ErrNoEntry
      | Some nd =>
          _ ← append RecInode (kfsInodePayload (mkInode (i_ino nd) uid (i_kind nd) (i_size nd)));
          updMeta (fun m => set_inodes m
            (<[ino := mkInode (i_ino nd) uid (i_kind nd) (i_size nd)]> (inodes m)))
      end
  end.

(** ** Format and mount *)

Definition empty_meta (next : Z) : kfsMeta := mkMeta ∅ ∅ [] ∅ next.

Definition FormatKFS : M D error unit := fun d =>
  let '(bs_, n) := blk_geometry d in
  if negb (bs_ =? 512) || (n <? 16) then (Err ErrKFSBadSB, d)
  else
    let sb := mkbuf 512 in
    let sb := splice sb 0 (bs "KFS1") in
    let sb := Put32 sb 4 bs_ in
    let sb := Put64 sb 8 n in
    let sb := Put32 sb 16 (u32 (LogStart / 512)) in
    let sb := Put32 sb 20 1 in
    match blk_write 0 sb d with
    | (Ok _, d) =>
        let k := mkKFS d n (empty_meta (RootIno + 1)) [] LogStart 0 (i64 (i64 n * 512)) in
        let '(r, k) :=
          (_ ← append RecInode (kfsInodePayload (mkInode RootIno 0 KindDir 0));
           appendCheckpoint) k in
        (r, dev k)
    | (Err e, d) => (Err e, d)
    | (Panic, d) => (Panic, d)
    end.

(** A failed mount gives back the device alone. *)
Definition MountKFS (d : D) : outcome error (KFS D) * D :=
  let '(bs_, n) := blk_geometry d in
  match blk_read 0 (mkbuf 512) d with
  | (Ok sb, d) =>
      if negb (bool_decide (slice sb 0 4 = bs "KFS1")) || negb (Get32 sb 4 =? bs_)
      then (Err ErrKFSBadSB, d)
      else if negb (Get32 sb 16 =? u32 (LogStart / 512)) then (Err ErrKFSBadSB, d)
      else
        let k := mkKFS d n (empty_meta 0) sb LogStart 0 (i64 (i64 n * 512)) in
        match replay k with
        | (Ok _, k) => (Ok k, dev k)
        | (Err e, k) => (Err e, dev k)
        | (Panic, k) => (Panic, dev k)
        end
  | (Err e, d) => (Err e, d)
  | (Panic, d) => (Panic, d)
  end.
End Volume.

(** ** [mountAuto] ([services/fs/mount.go]) *)

Definition mountAuto {D} `{BlockDev D} (d : D) : outcome error (KFS (D + Offset D)) :=
  match FindVolume d with
  | (Ok vol, _) => fst (MountKFS vol)
  | (Err e, _) => Err e
  | (Panic, _) => Panic
  end.
