(* ===== verification/KfsMount.v ===== *)
(** * KfsMount: the guest's reader and writer against the log

    [readAt] and [append] of [services/fs/kfs.go] act on the flat image;
    [replay] is the scan [replay_img] of that image, record by record, and on
    a well-formed log applies exactly the log's records; [replayData] is the
    fold of the data records over the requested window. *)

From S2P Require Import Prelude Frame Crc32 BlockDev SectorIO KfsFormat KfsLog Paths KfsFs.

(** The guest also refuses an empty record that ends the device exactly: its
    second [readAt] starts past the last sector. *)
Definition guest_rec (img : list byte) (pos stop : Z) : option Record_ :=
  if pos + HdrLen <? stop then parse_rec img pos stop else None.

(** The scan of [replay] on a flat image. *)
Fixpoint replay_img (fuel : nat) (img : list byte) (pos stop : Z) : M kfsMeta error Z :=
  match fuel with
  | O => panic
  | S fuel =>
      match guest_rec img pos stop with
      | None => mret pos
      | Some r =>
          ok ← apply (Type_ r) (Payload r);
          if (ok : bool) then replay_img fuel img (pos + rec_size r) stop else mret pos
      end
  end.

(** All records of a list applied in order, up to the first refused one. *)
Fixpoint apply_all (rs : list Record_) : M kfsMeta error bool :=
  match rs with
  | [] => mret true
  | r :: rs => ok ← apply (Type_ r) (Payload r); if (ok : bool) then apply_all rs else mret false
  end.

Lemma apply_all_app rs qs m m' :
  apply_all rs m = (Ok true, m') -> apply_all (rs ++ qs) m = apply_all qs m'.
Proof.
  revert m. induction rs as [|r rs IH]; intros m; simpl.
  { intros [= ->]. done. }
  intros H. apply bind_inv_ok in H as (ok & m1 & Hap & H). rewrite (bind_ok _ _ _ _ _ Hap).
  destruct ok; [by apply IH|done].
Qed.

Lemma apply_all_one r m m' :
  apply (Type_ r) (Payload r) m = (Ok true, m') -> apply_all [r] m = (Ok true, m').
Proof. intros H. simpl. by rewrite (bind_ok _ _ _ _ _ H). Qed.

Lemma apply_false_state typ p m m' : apply typ p m = (Ok false, m') -> m' = m.
Proof.
  unfold apply, apply_data. intros H. repeat (case_match; try congruence).
Qed.

(** ** Reads and appends against the image *)

Section Mount.
Context {D : Type} `{BlockDevLaws D}.

Definition img (k : KFS D) : list byte := blk_img (dev k).

Record kfs_ok (k : KFS D) : Prop := mkOk {
  ko_wf : blk_wf (dev k);
  ko_len : zlen (img k) = 512 * numBlocks k;
  ko_end : logEnd k = zlen (img k);
  ko_cache : zlen (logData k) <= 512;
}.

(** [k'] is [k] after reads: the device answered, its contents are the same. *)
Record same_img (k k' : KFS D) : Prop := mkSame {
  si_eq : k' = set_dev k (dev k');
  si_wf : blk_wf (dev k');
  si_img : img k' = img k;
}.

Lemma same_img_refl k : blk_wf (dev k) -> same_img k k.
Proof. intros. split; [by destruct k|done|done]. Qed.

Lemma same_img_trans k1 k2 k3 : same_img k1 k2 -> same_img k2 k3 -> same_img k1 k3.
Proof.
  intros [E1 W1 I1] [E2 W2 I2]. split; [|done|congruence].
  rewrite E2, E1. by destruct k1.
Qed.

Lemma si_meta k k' : same_img k k' -> meta k' = meta k.
Proof. intros [E _ _]. by rewrite E. Qed.

Lemma same_set_meta k k' m : same_img k k' -> same_img (set_meta k m) (set_meta k' m).
Proof. intros [E W I]. split; [|done|done]. rewrite E. by destruct k. Qed.

Lemma same_img_ok k k' : kfs_ok k -> same_img k k' -> kfs_ok k'.
Proof.
  intros [] [E W I]. rewrite E in *. unfold img in *. simpl in *.
  split; simpl; unfold img; simpl; congruence.
Qed.

Lemma kfs_ok_set_meta k m : kfs_ok k -> kfs_ok (set_meta k m).
Proof. intros []. by split. Qed.

Lemma kfs_ok_set_wOff k w : kfs_ok k -> kfs_ok (set_wOff k w).
Proof. intros []. by split. Qed.

Lemma readAt_ok k off n :
  kfs_ok k -> 512 <= off < zlen (img k) -> 0 <= n -> off + n <= zlen (img k) ->
  exists k', readAt off (mkbuf n) k = (Ok (slice (img k) off (off + n)), k') /\ same_img k k'.
Proof.
  intros [Hwf Hlen Hend Hc] Hoff Hn Hin. pose proof (zlen_mkbuf n Hn) as Hz.
  unfold readAt. rewrite bind_getS. rewrite (proj2 (Z.ltb_ge off 0)) by lia.
  assert (Hd : off / 512 < numBlocks k) by (apply Z.div_lt_upper_bound; lia).
  rewrite (proj2 (Z.leb_gt _ _) Hd). cbn [orb]. rewrite Hz.
  destruct (Z.leb_spec (off + n) (zlen (logData k))) as [Hle|Hgt].
  { exists k. split; [|by apply same_img_refl]. rewrite !slice_empty by lia. done. }
  destruct (read_loop_full (dev k) off n) as (d' & Hr & Hwf' & Himg); [done|lia|done|done|].
  unfold onDev. unfold mkbuf at 1. rewrite length_replicate.
  rewrite Hr. eexists. split; [done|]. split; [done|done|done].
Qed.

Lemma readAt_beyond k off dst :
  kfs_ok k -> zlen (img k) <= off -> readAt off dst k = (Err ErrBeyondDevice, k).
Proof.
  intros [Hwf Hlen Hend Hc] Hoff. unfold readAt. rewrite bind_getS.
  assert (Hd : numBlocks k <= off / 512) by (apply Z.div_le_lower_bound; lia).
  rewrite (proj2 (Z.leb_le _ _) Hd). by rewrite orb_true_r.
Qed.

(** [append] without its pacing: one record at the cursor, or no change. *)
Lemma frame_enc typ p : frame typ p = enc (mkRecord typ p).
Proof.
  unfold frame, enc, EncodeRecord. cbn [Type_ Payload]. cbv zeta.
  by rewrite !Put32_split, le_split_u32.
Qed.

(** A volume whose log is [rs], with nothing but zeros after it. *)
Record vol (k : KFS D) (rs : list Record_) : Prop := mkVol {
  vo_ok : kfs_ok k;
  vo_sb : exists n, slice (img k) 0 512 = EncodeSuperblock (mkSuperblock 512 n 1 1);
  vo_log : log_at (img k) (wOff k) rs;
  vo_tail : all_zero (slice (img k) (wOff k) (zlen (img k)));
}.

Lemma vol_wOff k rs : vol k rs -> 512 <= wOff k <= zlen (img k).
Proof.
  intros [_ _ [He Hf _ _] _]. pose proof (zlen_encode_log_nonneg rs). unfold LogStart in *. lia.
Qed.

Lemma vol_same k k' rs :
  vol k rs -> same_img k k' -> vol k' rs.
Proof.
  intros [Hok Hsb Hlog Ht] Hs. pose proof (same_img_ok _ _ Hok Hs) as Hok'.
  destruct Hs as [E W I]. assert (Ew : wOff k' = wOff k) by (rewrite E; done).
  split; [done|..]; rewrite ?I, ?Ew; done.
Qed.

Lemma vol_set_meta k rs m : vol k rs -> vol (set_meta k m) rs.
Proof. intros [[] Hsb Hlog Ht]. split; done. Qed.

Lemma append_raw_full k typ p :
  logEnd k < wOff k + rec_size (mkRecord typ p) ->
  append_raw typ p k = (Err ErrNoSpace, k).
Proof.
  intros Hf. unfold append_raw. rewrite bind_getS. cbv zeta.
  unfold rec_size in Hf. cbn [Payload] in Hf. by rewrite (proj2 (Z.ltb_lt _ _) Hf).
Qed.

Lemma append_raw_img k typ p :
  kfs_ok k -> 0 <= wOff k -> wOff k + rec_size (mkRecord typ p) <= logEnd k ->
  exists k', append_raw typ p k = (Ok tt, k') /\ kfs_ok k'
    /\ img k' = splice (img k) (wOff k) (enc (mkRecord typ p))
    /\ wOff k' = wOff k + rec_size (mkRecord typ p)
    /\ meta k' = meta k /\ recs k' = recs k /\ logEnd k' = logEnd k.
Proof.
  intros [Hwf Hlen Hend Hc] Hw Hfit. set (r := mkRecord typ p) in *. rewrite Hend in Hfit.
  pose proof (rec_size_pos r). pose proof (zlen_enc r) as Hze.
  destruct (writeAt_ok (dev k) (wOff k) (enc r)) as (d' & Hwr & Hwf' & Himg);
    [done|lia|lia|unfold img in *; lia|].
  unfold append_raw. rewrite bind_getS. cbv zeta.
  rewrite (proj2 (Z.ltb_ge _ _)) by (unfold rec_size, r in *; cbn [Payload] in *; lia).
  rewrite frame_enc. fold r. exists (mkKFS d' (numBlocks k) (meta k) (logData k)
    (wOff k + rec_size r) (recs k) (logEnd k)). split.
  { erewrite bind_ok by (unfold onDev; rewrite Hwr; done). done. }
  fold (img k) in Himg. split; [|done].
  assert (Hz : zlen (blk_img d') = zlen (img k)) by (rewrite Himg, zlen_splice; lia).
  split; unfold img; cbn [dev numBlocks logEnd logData]; by rewrite ?Hz.
Qed.

Lemma append_raw_ok k rs typ p :
  vol k rs -> rec_ok (mkRecord typ p) -> wOff k + rec_size (mkRecord typ p) <= logEnd k ->
  exists k', append_raw typ p k = (Ok tt, k') /\ vol k' (rs ++ [mkRecord typ p])
    /\ meta k' = meta k /\ recs k' = recs k.
Proof.
  intros Hv Hr Hfit. pose proof (vol_wOff _ _ Hv) as Hw.
  destruct Hv as [Hok (n & Hsb) Hlog Ht].
  destruct (append_raw_img k typ p Hok ltac:(lia) Hfit) as (k' & Ha & Hok' & Hi & Hw' & Hm & Hrec & _).
  exists k'. split; [done|]. split; [|done]. rewrite (ko_end _ Hok) in Hfit.
  pose proof (rec_size_pos (mkRecord typ p)).
  split; rewrite ?Hi, ?Hw'; [done|..].
  - exists n. rewrite slice_splice_before by lia. done.
  - by apply log_at_append.
  - rewrite zlen_splice by lia. apply log_tail_zero; [lia|done|done].
Qed.

Lemma checkpoint_payload_eq (k : KFS D) : checkpoint_payload k = CheckpointPayload (nextIno (meta k)).
Proof. done. Qed.

Lemma checkpoint_rec_ok n : rec_ok (mkRecord RecCheckpoint (CheckpointPayload n)).
Proof. unfold rec_ok. cbn [Payload]. rewrite zlen_CheckpointPayload. unfold MaxPayload. lia. Qed.

(** The checkpoint a paced append may add. *)
Definition cp_rec (m : kfsMeta) : Record_ := mkRecord RecCheckpoint (CheckpointPayload (nextIno m)).

Lemma appendCheckpoint_cases k rs :
  vol k rs ->
  exists k', vol k' (rs ++ [cp_rec (meta k)]) /\ meta k' = meta k
      /\ appendCheckpoint k = (Ok tt, k')
    \/ appendCheckpoint k = (Err ErrNoSpace, k).
Proof.
  intros Hv. unfold appendCheckpoint. rewrite bind_getS, checkpoint_payload_eq.
  destruct (Z.le_gt_cases (wOff k + rec_size (cp_rec (meta k))) (logEnd k)) as [Hle|Hgt].
  - destruct (append_raw_ok k rs RecCheckpoint (CheckpointPayload (nextIno (meta k))))
      as (k' & Hap & Hv' & Hm & _); [done|apply checkpoint_rec_ok|done|].
    exists k'. left. done.
  - exists k. right. by apply append_raw_full.
Qed.

(** Every outcome of [append]: the record alone, the record and a paced
    checkpoint, a full device, or a full device after the record was written. *)
Inductive appended (k k' : KFS D) (r : Record_) : outcome error unit -> list Record_ -> Prop :=
| app_rec : appended k k' r (Ok tt) [r]
| app_cp : appended k k' r (Ok tt) [r; cp_rec (meta k)]
| app_full : appended k k' r (Err ErrNoSpace) []
| app_cp_full : appended k k' r (Err ErrNoSpace) [r].

Lemma append_cases k rs typ p :
  vol k rs -> rec_ok (mkRecord typ p) -> typ ≠ RecCheckpoint ->
  exists k' res qs, append typ p k = (res, k') /\ vol k' (rs ++ qs) /\ meta k' = meta k
    /\ appended k k' (mkRecord typ p) res qs.
Proof.
  intros Hv Hr Ht. unfold append.
  destruct (Z.le_gt_cases (wOff k + rec_size (mkRecord typ p)) (logEnd k)) as [Hle|Hgt].
  2:{ exists k, (Err ErrNoSpace), [].
      rewrite (bind_err _ _ _ _ _ (append_raw_full _ _ _ Hgt)).
      rewrite app_nil_r. split; [done|]. split; [done|]. split; [done|constructor]. }
  destruct (append_raw_ok k rs typ p Hv Hr Hle) as (k1 & Hap & Hv1 & Hm1 & _).
  rewrite (bind_ok _ _ _ _ _ Hap), bool_decide_false by done.
  rewrite bind_modifyS, bind_getS. set (k2 := set_recs k1 (recs k1 + 1)).
  assert (Hv2 : vol k2 (rs ++ [mkRecord typ p])) by (destruct Hv1 as [[] ? ? ?]; split; done).
  assert (Hm2 : meta k2 = meta k) by done. clearbody k2.
  destruct (recs k2 mod CPEvery =? 0).
  - destruct (appendCheckpoint_cases k2 _ Hv2) as (k3 & [(Hv3 & Hm3 & Hcp)|Hcp]).
    + exists k3, (Ok tt), [mkRecord typ p; cp_rec (meta k)]. split; [done|].
      rewrite Hm2, <- app_assoc in Hv3. split; [done|]. split; [congruence|constructor].
    + exists k2, (Err ErrNoSpace), [mkRecord typ p]. do 3 (split; [done|]). constructor.
  - exists k2, (Ok tt), [mkRecord typ p]. do 3 (split; [done|]). constructor.
Qed.

(** ** [replay] is the scan of the image *)

Lemma guest_rec_cases k pos :
  kfs_ok k -> 512 <= pos -> pos + HdrLen <= zlen (img k) ->
  let hdr := slice (img k) pos (pos + HdrLen) in
  let plen := Get32 hdr 0 in
  (plen <? 0) || (MaxPayload <? plen) || (zlen (img k) <? pos + HdrLen + plen) = true ->
  guest_rec (img k) pos (zlen (img k)) = None.
Proof.
  intros Hok Hpos Hin hdr plen Hb. unfold guest_rec, parse_rec. fold hdr. fold plen.
  pose proof (Get32_range hdr 0) as Hr. fold plen in Hr.
  rewrite (proj2 (Z.ltb_ge plen 0)) in Hb by lia. cbn [orb] in Hb. rewrite Hb.
  by repeat case_match.
Qed.

(** One iteration of the loop, reduced to the reference framing check. *)
Lemma replay_loop_step fuel k pos :
  kfs_ok k -> 512 <= pos ->
  exists k1, same_img k k1 /\
    replay_loop (S fuel) pos k =
    match guest_rec (img k) pos (zlen (img k)) with
    | None => (Ok pos, k1)
    | Some r =>
        (ok ← onMeta (apply (Type_ r) (Payload r));
         if (ok : bool) then replay_loop fuel (pos + rec_size r) else mret pos) k1
    end.
Proof.
  intros Hok Hpos. cbn [replay_loop]. rewrite bind_getS, (ko_end _ Hok).
  destruct (Z.leb_spec (pos + HdrLen) (zlen (img k))) as [Hin|Hout].
  2:{ unfold guest_rec. rewrite (proj2 (Z.ltb_ge _ _)) by lia. exists k. split; [|done].
      apply same_img_refl. by destruct Hok. }
  destruct (readAt_ok k pos HdrLen) as (k1 & Hr1 & Hs1); [done|unfold HdrLen in *; lia..|].
  rewrite (bind_ok _ _ _ _ _ (catch_ok _ _ _ _ Hr1)). cbv zeta.
  pose proof (guest_rec_cases k pos Hok Hpos Hin) as Hbad. cbv zeta in Hbad.
  unfold guest_rec, parse_rec in *.
  set (hdr := slice (img k) pos (pos + HdrLen)) in *. set (plen := Get32 hdr 0) in *.
  destruct ((plen <? 0) || _ || _) eqn:Hb.
  { rewrite Hbad by done. by exists k1. }
  apply orb_false_iff in Hb as [Hb Hb3]. apply orb_false_iff in Hb as [Hb1 Hb2].
  rewrite (proj2 (Z.leb_le _ _) Hin), Hb2, Hb3. cbn [orb]. apply Z.ltb_ge in Hb1, Hb3.
  pose proof (same_img_ok _ _ Hok Hs1) as Hok1. pose proof (si_img _ _ Hs1) as I1.
  destruct (Z.ltb_spec (pos + HdrLen) (zlen (img k))) as [Hlt|Hge].
  2:{ rewrite <- I1 in Hge. exists k1. split; [done|].
      by rewrite (bind_ok _ _ _ _ _ (catch_err _ _ _ _ (readAt_beyond _ _ _ Hok1 Hge))). }
  destruct (readAt_ok k1 (pos + HdrLen) plen) as (k2 & Hr2 & Hs2);
    [done|rewrite I1; unfold HdrLen in *; lia|done|rewrite I1; lia|]. rewrite I1 in Hr2.
  rewrite (bind_ok _ _ _ _ _ (catch_ok _ _ _ _ Hr2)). exists k2.
  split; [by eapply same_img_trans|]. set (payload := slice (img k) (pos + HdrLen) _) in *.
  assert (Hz : zlen payload = plen)
    by (unfold payload; rewrite zlen_slice; unfold HdrLen in *; lia).
  destruct (ChecksumIEEE payload =? Get32 hdr 4); [|done].
  unfold rec_size. cbn [Type_ Payload negb]. by rewrite Hz.
Qed.

Lemma replay_loop_eq fuel k pos :
  kfs_ok k -> 512 <= pos ->
  let '(r, m) := replay_img fuel (img k) pos (zlen (img k)) (meta k) in
  exists k', replay_loop fuel pos k = (r, k') /\ same_img (set_meta k m) k'.
Proof.
  revert k pos. induction fuel as [|fuel IH]; intros k pos Hok Hpos.
  { exists k. split; [done|]. destruct Hok, k. by apply same_img_refl. }
  cbn [replay_img]. destruct (replay_loop_step fuel k pos Hok Hpos) as (k1 & Hs & Hstep).
  rewrite Hstep. destruct (guest_rec _ _ _) as [r|] eqn:Hg.
  2:{ exists k1. by destruct k. }
  unfold mbind, M_bind, onMeta. rewrite (si_meta _ _ Hs).
  destruct (apply (Type_ r) (Payload r) (meta k)) as [[[]|e|] m'] eqn:Ha;
    try (exists (set_meta k1 m'); split; [done|]; by apply same_set_meta).
  pose proof (rec_size_pos r).
  specialize (IH (set_meta k1 m') (pos + rec_size r)).
  assert (Himg : img (set_meta k1 m') = img k) by apply (si_img _ _ Hs). rewrite Himg in IH.
  cbn [meta set_meta] in IH. destruct (replay_img fuel _ _ _ m') as [res m2].
  destruct IH as (k' & Hrec & Hs2); [|lia|].
  { destruct (same_img_ok _ _ Hok Hs). split; done. }
  exists k'. split; [done|]. eapply same_img_trans; [|done].
  exact (same_set_meta k k1 m2 Hs).
Qed.
End Mount.

(** ** The scan of a well-formed log *)

Lemma length_log rs : 9 * Z.of_nat (length rs) <= zlen (encode_log rs).
Proof.
  induction rs as [|r rs IH]; [done|]. rewrite encode_log_cons, zlen_app, zlen_enc.
  pose proof (rec_size_pos r). cbn [length]. lia.
Qed.

Lemma guest_rec_log img w rs r qs stop :
  log_at img w (rs ++ r :: qs) -> w <= stop ->
  guest_rec img (LogStart + zlen (encode_log rs)) stop = Some r.
Proof.
  intros Hlog Hstop. unfold guest_rec. rewrite (parse_rec_log _ _ _ _ _ _ Hlog Hstop).
  destruct Hlog as [He _ _ Hall]. apply Forall_app in Hall as [_ Hall].
  apply Forall_cons in Hall as [[Hr _] _].
  rewrite encode_log_app, zlen_app, encode_log_cons, zlen_app, zlen_enc in He.
  pose proof (zlen_encode_log_nonneg qs). unfold rec_size in He.
  by rewrite (proj2 (Z.ltb_lt _ _)) by lia.
Qed.

Lemma replay_img_log fuel img w ds rs stop m m' :
  log_at img w (ds ++ rs) -> w <= stop -> apply_all rs m = (Ok true, m') ->
  replay_img (length rs + fuel) img (LogStart + zlen (encode_log ds)) stop m
  = replay_img fuel img w stop m'.
Proof.
  revert ds m. induction rs as [|r rs IH]; intros ds m Hlog Hstop Hap.
  { rewrite app_nil_r in Hlog. rewrite <- (la_end _ _ _ Hlog). by injection Hap as <-. }
  cbn [length Nat.add replay_img]. rewrite (guest_rec_log _ _ _ _ _ _ Hlog Hstop).
  apply bind_inv_ok in Hap as (ok & m1 & Ha & Hap). rewrite (bind_ok _ _ _ _ _ Ha).
  destruct ok; [|done]. rewrite cons_middle, app_assoc in Hlog.
  rewrite <- (IH (ds ++ [r]) m1 Hlog Hstop Hap). f_equal.
  rewrite encode_log_app, zlen_app, encode_log_one, zlen_enc. lia.
Qed.

Lemma apply_type0 p m : apply (z2b 0) p m = (Ok false, m).
Proof. done. Qed.

Lemma replay_img_zero fuel img pos stop m :
  0 <= pos -> stop <= zlen img -> all_zero (slice img pos stop) ->
  replay_img (S fuel) img pos stop m = (Ok pos, m).
Proof.
  intros Hpos Hstop Hz. cbn [replay_img]. unfold guest_rec.
  rewrite parse_rec_zero by done.
  destruct (pos + HdrLen <? stop); [|done]. by destruct (pos + HdrLen <=? stop).
Qed.

(** Reading a log with nothing after it gives back exactly its records. *)
Lemma replay_img_whole fuel img w rs m m' :
  log_at img w rs -> all_zero (slice img w (zlen img)) ->
  apply_all rs m = (Ok true, m') -> zlen img < Z.of_nat fuel ->
  replay_img fuel img LogStart (zlen img) m = (Ok w, m').
Proof.
  intros Hlog Hz Hap Hf. pose proof (length_log rs) as Hl.
  pose proof (zlen_encode_log_nonneg rs).
  assert (He := la_end _ _ _ Hlog). assert (Hfit := la_fits _ _ _ Hlog). unfold LogStart in *.
  pose proof (replay_img_log (S (fuel - length rs - 1)) img w [] rs (zlen img) m m') as Hr.
  cbn [app] in Hr. rewrite replay_img_zero in Hr by (try done; lia).
  replace (length rs + S (fuel - length rs - 1))%nat with fuel in Hr by lia.
  by apply Hr.
Qed.

(** ** Mounting *)

Section Mounting.
Context {D : Type} `{BlockDevLaws D}.

(** A device that holds a volume with log [rs] and nothing after it. *)
Record holds (d : D) (w : Z) (rs : list Record_) : Prop := mkHolds {
  ho_wf : blk_wf d;
  ho_sb : exists n, slice (blk_img d) 0 512 = EncodeSuperblock (mkSuperblock 512 n 1 1);
  ho_log : log_at (blk_img d) w rs;
}.

Lemma vol_holds k rs : vol k rs -> holds (dev k) (wOff k) rs.
Proof. intros [[] ? ? ?]. by split. Qed.

Lemma EncodeSuperblock_magic sb : slice (EncodeSuperblock sb) 0 4 = bs "KFS1".
Proof. rewrite EncodeSuperblock_eq. by rewrite slice_here by done. Qed.

Lemma EncodeSuperblock_bs sb : Get32 (EncodeSuperblock sb) 4 = u32 (BlockSize sb).
Proof. rewrite EncodeSuperblock_eq. fields. done. Qed.

Lemma EncodeSuperblock_log sb : Get32 (EncodeSuperblock sb) 16 = u32 (LogSector sb).
Proof. rewrite EncodeSuperblock_eq. fields. done. Qed.

(** Mounting is the scan of the image from an empty state. *)
Lemma MountKFS_scan d w rs :
  holds d w rs ->
  let '(r, m) := replay_img (S (Z.to_nat (zlen (blk_img d)))) (blk_img d) LogStart
                   (zlen (blk_img d)) (empty_meta 0) in
  match r with
  | Ok pos => exists k, MountKFS d = (Ok k, dev k) /\ kfs_ok k /\ meta k = m /\ wOff k = pos
                /\ recs k = 0 /\ img k = blk_img d
  | Err e => exists d', MountKFS d = (Err e, d')
  | Panic => exists d', MountKFS d = (Panic, d')
  end.
Proof.
  intros [Hwf (sn & Hsb) Hlog]. destruct (blk_geometry_ok d Hwf) as (n & Hg & Hlen & Hn).
  assert (Hw : 512 <= zlen (blk_img d)).
  { destruct Hlog as [He Hf _ _]. pose proof (zlen_encode_log_nonneg rs). unfold LogStart in *. lia. }
  assert (Hend : i64 (i64 n * 512) = zlen (blk_img d)) by (rewrite (i64_small n), i64_small by lia; lia).
  destruct (blk_read_ok d 0 (mkbuf 512)) as (d1 & Hr & Hwf1 & Himg1); [done|lia|done|done|done|].
  change (0 * 512 + zlen (mkbuf 512)) with 512 in Hr. change (0 * 512) with 0 in Hr.
  rewrite Hsb in Hr. unfold MountKFS. rewrite Hg, Hr.
  rewrite EncodeSuperblock_magic, EncodeSuperblock_bs, EncodeSuperblock_log.
  rewrite bool_decide_true by done. cbn [BlockSize LogSector].
  change (negb true || negb (u32 512 =? 512)) with false.
  change (negb (u32 1 =? u32 (LogStart / 512))) with false. cbv iota.
  rewrite Hend. set (k := mkKFS d1 n _ _ _ _ _).
  assert (Hk : kfs_ok k).
  { split; unfold k, img; cbn [dev numBlocks logEnd logData]; by rewrite ?Himg1. }
  unfold replay. rewrite bind_getS. change (logEnd k) with (zlen (blk_img d)).
  change (wOff k) with LogStart.
  pose proof (replay_loop_eq (S (Z.to_nat (zlen (blk_img d)))) k LogStart Hk ltac:(done)) as Hl.
  unfold img at 1 2 in Hl. change (dev k) with d1 in Hl. rewrite Himg1 in Hl.
  change (meta k) with (empty_meta 0) in Hl.
  destruct (replay_img _ _ _ _ _) as [[pos|e|] m]; destruct Hl as (k' & Hrl & [Es Ws Is]).
  - rewrite (bind_ok _ _ _ _ _ Hrl). cbn [modifyS].
    exists (set_wOff k' pos). split; [done|].
    assert (Hik : img (set_meta k m) = blk_img d1) by done.
    split; [|split; [by rewrite Es|split; [done|split; [by rewrite Es|change (img k' = blk_img d); congruence]]]].
    apply kfs_ok_set_wOff. eapply same_img_ok; [by apply (kfs_ok_set_meta k m)|]. by split.
  - rewrite (bind_err _ _ _ _ _ Hrl). eauto.
  - rewrite (bind_panic _ _ _ _ Hrl). eauto.
Qed.

(** A volume with nothing after its log mounts to exactly the state its
    records build. *)
Lemma MountKFS_ok d w rs m :
  holds d w rs -> all_zero (slice (blk_img d) w (zlen (blk_img d))) ->
  apply_all rs (empty_meta 0) = (Ok true, m) ->
  exists k, MountKFS d = (Ok k, dev k) /\ vol k rs /\ meta k = m /\ recs k = 0
    /\ img k = blk_img d.
Proof.
  intros Hh Hz Hap. pose proof (MountKFS_scan d w rs Hh) as Hs.
  destruct Hh as [Hwf Hsb Hlog].
  rewrite (replay_img_whole _ _ _ _ _ _ Hlog Hz Hap) in Hs
    by (pose proof (zlen_nonneg (blk_img d)); lia).
  destruct Hs as (k & Hm & Hok & Hmeta & Hw & Hr & Himg).
  exists k. split; [done|]. split; [|done]. split; rewrite ?Himg, ?Hw; done.
Qed.
End Mounting.
