(* ===== verification/KfsCrash.v ===== *)
(** * KfsCrash: power loss in the middle of an append

    An append reaches the device sector by sector; a crash leaves a prefix of
    the record's bytes, and zeros where the rest would have been.  Mounting
    such a device restores the state before the append or the state after
    it, never a third one, as long as the torn payload does not collide with
    the real one under CRC-32. *)

From S2P Require Import Prelude Frame Crc32 BlockDev SectorIO KfsFormat KfsLog Paths KfsFs KfsMount.

(** The payload a reader sees when only [n] bytes of it were written. *)
Definition torn (p : list byte) (n : Z) : list byte := slice p 0 n ++ mkbuf (zlen p - n).

(** No prefix of the payload, zero-filled, collides with it under CRC-32. *)
Definition no_collision (p : list byte) : Prop :=
  forall n, 0 <= n < zlen p -> ChecksumIEEE (torn p n) = ChecksumIEEE p -> torn p n = p.

Section Cut.
Variables (im : list byte) (w : Z) (rs : list Record_) (r : Record_) (j : Z).
Hypothesis Hlog : log_at im w rs.
Hypothesis Hzero : all_zero (slice im w (zlen im)).
Hypothesis Hok : rec_ok r.
Hypothesis Hfit : w + rec_size r <= zlen im.
Hypothesis Hj : 0 <= j < rec_size r.

Let cut := splice im w (slice (enc r) 0 j).

Lemma cut_pos : 512 <= w.
Proof using Hlog.
  destruct Hlog as [He _ _ _]. pose proof (zlen_encode_log_nonneg rs). unfold LogStart in *. lia.
Qed.

Lemma cut_seg : zlen (slice (enc r) 0 j) = j.
Proof using Hj. rewrite zlen_slice; rewrite ?zlen_enc; lia. Qed.

Lemma cut_len : zlen cut = zlen im.
Proof using Hlog Hfit Hj.
  pose proof cut_pos. pose proof (rec_size_pos r). unfold cut. rewrite zlen_splice; lia.
Qed.

(** What the reader sees from the cursor on: the prefix, then zeros. *)
Lemma cut_bytes a b :
  0 <= a <= b -> b <= rec_size r ->
  slice cut (w + a) (w + b) = slice (slice (enc r) 0 j ++ mkbuf (rec_size r - j)) a b.
Proof using Hlog Hzero Hfit Hj.
  intros Ha Hb. pose proof cut_pos. pose proof cut_len as Hl. pose proof cut_seg as Hs.
  assert (Hw : slice cut w (w + rec_size r) = slice (enc r) 0 j ++ mkbuf (rec_size r - j)).
  { rewrite (slice_app_split _ w (w + j)) by lia. f_equal.
    - unfold cut. rewrite <- Hs at 2. apply slice_splice_same; lia.
    - unfold cut. rewrite slice_splice_after by lia.
      rewrite (slice_zero_image im w (zlen im)) by (try done; lia). f_equal. lia. }
  rewrite <- Hw, slice_slice by lia. done.
Qed.

(** Cut inside the header: the type byte is still zero. *)
Lemma cut_in_header stop q :
  j < HdrLen -> parse_rec cut w stop = Some q -> Type_ q = z2b 0.
Proof using Hlog Hzero Hfit Hj.
  unfold parse_rec. intros Hh. repeat case_match; try done. intros [= <-]. cbn [Type_].
  pose proof (rec_size_pos r). pose proof (cut_bytes 0 HdrLen) as Hb.
  unfold HdrLen in *. rewrite Z.add_0_r in Hb. rewrite Hb by lia.
  unfold idx. rewrite lookup_slice. rewrite decide_True by lia.
  rewrite lookup_app_r by (rewrite length_slice; lia).
  pose proof cut_seg as Hs. unfold zlen in Hs.
  unfold mkbuf. rewrite lookup_replicate_2; [done|]. lia.
Qed.

(** Cut inside the payload: the header is whole, the payload is torn. *)
Lemma cut_in_payload :
  HdrLen <= j ->
  parse_rec cut w (zlen cut) =
  if ChecksumIEEE (torn (Payload r) (j - HdrLen)) =? ChecksumIEEE (Payload r)
  then Some (mkRecord (Type_ r) (torn (Payload r) (j - HdrLen))) else None.
Proof using Hlog Hzero Hok Hfit Hj.
  intros Hh. pose proof cut_pos. pose proof cut_len as Hl. destruct Hok as [Hp0 Hp1].
  unfold rec_size in *. set (p := Payload r) in *.
  assert (Hpre : slice (enc r) 0 j = rec_hdr (Type_ r) p ++ slice p 0 (j - HdrLen)).
  { unfold enc. rewrite EncodeRecord_hdr. fold p. clear Hp1 Hlog Hzero Hok.
    pose proof (zlen_rec_hdr (Type_ r) p). unfold HdrLen in *. list_ext. }
  assert (Hpost : slice (enc r) 0 j ++ mkbuf (HdrLen + zlen p - j)
    = rec_hdr (Type_ r) p ++ torn p (j - HdrLen)).
  { rewrite Hpre, <- app_assoc. unfold torn. do 3 f_equal. lia. }
  assert (Htl : zlen (torn p (j - HdrLen)) = zlen p).
  { unfold torn. rewrite zlen_app, zlen_slice, zlen_mkbuf by lia. lia. }
  pose proof (cut_bytes 0 HdrLen) as Hb1.
  pose proof (cut_bytes HdrLen (HdrLen + zlen p)) as Hb2.
  unfold rec_size in Hb1, Hb2. fold p in Hb1, Hb2. rewrite Hpost in Hb1, Hb2.
  rewrite Z.add_0_r in Hb1. rewrite Z.add_assoc in Hb2.
  unfold parse_rec. rewrite (proj2 (Z.leb_le _ _)) by lia.
  rewrite Hb1, slice_here by (unfold HdrLen in *; rewrite ?zlen_rec_hdr; done || lia).
  rewrite rec_hdr_len, rec_hdr_crc, rec_hdr_typ by (unfold MaxPayload in *; lia).
  rewrite (proj2 (Z.ltb_ge MaxPayload _)), (proj2 (Z.ltb_ge (zlen cut) _)) by lia. cbn [orb].
  rewrite Hb2 by (unfold HdrLen in *; lia).
  rewrite slice_tail by (rewrite ?zlen_app, ?zlen_rec_hdr, ?Htl; done || lia). done.
Qed.

(** When the torn payload is the payload, the write was complete. *)
Lemma cut_complete :
  HdrLen <= j -> torn (Payload r) (j - HdrLen) = Payload r -> cut = splice im w (enc r).
Proof using Hlog Hzero Hok Hfit Hj.
  intros Hh Ht. pose proof cut_pos. pose proof cut_len as Hl.
  pose proof (cut_bytes 0 (rec_size r)) as Hb. rewrite Z.add_0_r in Hb.
  assert (Hw : slice (enc r) 0 j ++ mkbuf (rec_size r - j) = enc r).
  { assert (Hpre : slice (enc r) 0 j = rec_hdr (Type_ r) (Payload r) ++ slice (Payload r) 0 (j - HdrLen)).
    { unfold enc. rewrite EncodeRecord_hdr. unfold rec_size in *. clear Hlog Hzero Hok Ht Hb.
      pose proof (zlen_rec_hdr (Type_ r) (Payload r)). unfold HdrLen in *. list_ext. }
    rewrite Hpre, <- app_assoc. unfold enc at 1. rewrite EncodeRecord_hdr.
    f_equal. transitivity (torn (Payload r) (j - HdrLen)); [|done].
    unfold torn, rec_size. do 2 f_equal. lia. }
  rewrite Hw in Hb. rewrite (slice_full (enc r)) in Hb by (by rewrite zlen_enc).
  pose proof (rec_size_pos r). specialize (Hb ltac:(lia) ltac:(lia)).
  rewrite <- Hb at 1. pose proof cut_seg as Hs.
  assert (Hout : forall i, (i < Z.to_nat w \/ Z.to_nat (w + rec_size r) <= i)%nat ->
    cut !! i = im !! i).
  { intros i Hi. unfold cut. rewrite lookup_splice by (unfold zlen in *; lia).
    rewrite decide_False; [done|]. unfold zlen in *. lia. }
  apply list_eq. intros i. rewrite lookup_splice by (unfold zlen in *; lia).
  rewrite length_slice. case_decide as Hi.
  - rewrite lookup_slice, decide_True by lia. f_equal. lia.
  - apply Hout. unfold zlen in *. lia.
Qed.

Lemma replay_cut fuel m m1 m2 :
  no_collision (Payload r) -> apply_all rs m = (Ok true, m1) ->
  apply (Type_ r) (Payload r) m1 = (Ok true, m2) -> zlen im < Z.of_nat fuel ->
  replay_img fuel cut LogStart (zlen cut) m = (Ok w, m1)
  \/ replay_img fuel cut LogStart (zlen cut) m = (Ok (w + rec_size r), m2).
Proof using Hlog Hzero Hok Hfit Hj.
  intros Hnc Hap Hr Hf. pose proof cut_pos. pose proof cut_len as Hl.
  pose proof (length_log rs). pose proof (la_end _ _ _ Hlog) as He. unfold LogStart in He.
  assert (Hc : log_at cut w rs) by (apply log_at_cut; try done; lia).
  destruct (decide (HdrLen <= j /\ torn (Payload r) (j - HdrLen) = Payload r)) as [[Hh Ht]|Hno].
  { right. assert (Hs := cut_complete Hh Ht).
    apply replay_img_whole with (rs ++ [r]); [|..|by rewrite Hl].
    - rewrite Hs. by apply log_at_append.
    - rewrite Hl, Hs. apply log_tail_zero; [lia|done|done].
    - rewrite (apply_all_app _ _ _ _ Hap). by apply apply_all_one. }
  left. pose proof (replay_img_log (S (fuel - length rs - 1)) cut w [] rs (zlen cut) m m1 Hc
    ltac:(lia) Hap) as Hstep.
  replace (length rs + S (fuel - length rs - 1))%nat with fuel in Hstep by lia.
  etransitivity; [exact Hstep|]. cbn [replay_img].
  unfold guest_rec. destruct (w + HdrLen <? zlen cut); [|done].
  destruct (Z.le_gt_cases HdrLen j) as [Hh|Hh].
  - rewrite cut_in_payload by done. destruct (Z.eqb_spec (ChecksumIEEE (torn (Payload r) (j - HdrLen)))
      (ChecksumIEEE (Payload r))) as [E|]; [|done].
    apply Hnc in E; [tauto|]. unfold rec_size in *. lia.
  - destruct (parse_rec cut w (zlen cut)) as [q|] eqn:Hq; [|done].
    apply cut_in_header in Hq; [|done]. by rewrite Hq.
Qed.
End Cut.

Section Crash.
Context {D : Type} `{BlockDevLaws D}.

(** Power is lost after [sectors] sectors of the append's loop. *)
Lemma crash_atomic d w rs r m1 m2 sectors :
  holds d w rs -> all_zero (slice (blk_img d) w (zlen (blk_img d))) ->
  rec_ok r -> w + rec_size r <= zlen (blk_img d) ->
  no_collision (Payload r) ->
  apply_all rs (empty_meta 0) = (Ok true, m1) ->
  apply (Type_ r) (Payload r) m1 = (Ok true, m2) ->
  let d' := snd (rmw_loop sectors w (frame (Type_ r) (Payload r)) (mkbuf 512) 0 d) in
  exists k, MountKFS d' = (Ok k, dev k)
    /\ (wOff k = w /\ meta k = m1 \/ wOff k = w + rec_size r /\ meta k = m2).
Proof.
  intros [Hwf Hsb Hlog] Hz Hr Hfit Hnc Hap Hr2 d'.
  assert (He : frame (Type_ r) (Payload r) = enc r) by (rewrite frame_enc; by destruct r).
  pose proof (cut_pos _ _ _ Hlog) as Hw. pose proof (rec_size_pos r). unfold d'. rewrite He.
  destruct (rmw_loop_cut sectors d w (enc r) (mkbuf 512) 0) as (j & Hj & Hwf' & Himg);
    rewrite ?zlen_enc; [done|lia|lia|done|done|]. clear d'.
  set (d' := snd _) in *. rewrite Z.add_0_r, zlen_enc in *.
  assert (Hl : zlen (blk_img d') = zlen (blk_img d)) by (rewrite Himg, zlen_splice; lia).
  assert (Hh : holds d' w rs).
  { split; [done|..|rewrite Himg; by apply log_at_cut].
    destruct Hsb as [n Hn]. exists n. rewrite Himg, slice_splice_before by lia. done. }
  pose proof (MountKFS_scan d' w rs Hh) as Hs.
  assert (Hres : exists pos m, replay_img (S (Z.to_nat (zlen (blk_img d')))) (blk_img d')
      LogStart (zlen (blk_img d')) (empty_meta 0) = (Ok pos, m)
    /\ (pos = w /\ m = m1 \/ pos = w + rec_size r /\ m = m2)).
  { destruct (Z.eq_dec j (rec_size r)) as [->|].
    - exists (w + rec_size r), m2. split; [|tauto]. rewrite Hl, Himg.
      rewrite slice_full by (by rewrite zlen_enc).
      rewrite <- (zlen_splice (blk_img d) w (enc r)) by lia.
      apply replay_img_whole with (rs ++ [r]); [by apply log_at_append|..].
      + rewrite zlen_splice by lia. apply log_tail_zero; [lia|done|done].
      + rewrite (apply_all_app _ _ _ _ Hap). by apply apply_all_one.
      + rewrite zlen_splice by lia. pose proof (zlen_nonneg (blk_img d)). lia.
    - destruct (replay_cut (blk_img d) w rs r j Hlog Hz Hr Hfit ltac:(lia)
        (S (Z.to_nat (zlen (blk_img d)))) (empty_meta 0) m1 m2 Hnc Hap Hr2) as [E|E];
        [pose proof (zlen_nonneg (blk_img d)); lia|..]; rewrite <- Himg, Hl in E;
        rewrite Hl; eauto 7. }
  destruct Hres as (pos & m & E & Hcase). rewrite E in Hs.
  destruct Hs as (k & Hm & _ & Hmeta & Hpos & _). exists k. split; [done|]. subst. tauto.
Qed.
End Crash.
