(* ===== verification/KfsData.v ===== *)
(** * KfsData: file contents from the log

    Two readers reconstruct a file's bytes: [apply] at mount time grows a
    buffer record by record, [replayData] overlays the same records on a
    window of the requested length.  They agree on every log whose data
    records are exact. *)

From S2P Require Import Prelude Frame Crc32 BlockDev SectorIO KfsFormat KfsLog Paths KfsFs KfsMount.

(** The contents of a file in a replayed state. *)
Definition content (m : kfsMeta) (ino : Z) : list byte := default [] (data m !! ino).

Lemma content_insert m i x : content (set_data m (<[i := x]> (data m))) i = x.
Proof. unfold content. cbn [data set_data]. by rewrite lookup_insert_eq. Qed.

Lemma content_insert_ne m i j x :
  i ≠ j -> content (set_data m (<[i := x]> (data m))) j = content m j.
Proof. intros. unfold content. cbn [data set_data]. by rewrite lookup_insert_ne. Qed.

(** The first [want] bytes of a buffer, zero-extended. *)
Definition window (want : Z) (buf : list byte) : list byte := slice (buf ++ mkbuf want) 0 want.

(** A write at an offset, as POSIX has it: the gap is zero-filled. *)
Definition write_at (buf : list byte) (off : Z) (dat : list byte) : list byte :=
  splice (buf ++ mkbuf (off + zlen dat - zlen buf)) off dat.

(** A data record as the writers emit it: no bytes past [dlen], and a range
    that stays inside 63 bits. *)
Definition data_exact (r : Record_) : Prop :=
  Type_ r = RecData ->
  let p := Payload r in
  zlen p = 16 + Get32 p 12
  /\ (Get64 p 4 = TruncSentinel \/ Get64 p 4 + Get32 p 12 < 2 ^ 63).

Lemma zlen_write_at buf off dat :
  0 <= off -> zlen (write_at buf off dat) = Z.max (zlen buf) (off + zlen dat).
Proof.
  intros Hoff. unfold write_at. pose proof (zlen_nonneg buf). pose proof (zlen_nonneg dat).
  destruct (Z.le_gt_cases (off + zlen dat) (zlen buf)).
  - rewrite (mkbuf_0 (_ - _)), app_nil_r by lia. rewrite zlen_splice by lia. lia.
  - assert (zlen (buf ++ mkbuf (off + zlen dat - zlen buf)) = off + zlen dat)
      by (rewrite zlen_app, zlen_mkbuf by lia; lia).
    rewrite zlen_splice by lia. lia.
Qed.

Lemma slice_write_at buf off dat :
  0 <= off -> slice (write_at buf off dat) off (off + zlen dat) = dat.
Proof.
  intros Hoff. unfold write_at. pose proof (zlen_nonneg buf). pose proof (zlen_nonneg dat).
  apply slice_splice_same; [done|].
  destruct (Z.le_gt_cases (off + zlen dat) (zlen buf)).
  - rewrite zlen_app. pose proof (zlen_nonneg (mkbuf (off + zlen dat - zlen buf))). lia.
  - rewrite zlen_app, zlen_mkbuf by lia. lia.
Qed.

Lemma zlen_window want buf : 0 <= want -> zlen (window want buf) = want.
Proof.
  intros. unfold window. pose proof (zlen_nonneg buf).
  rewrite zlen_slice; [lia|lia|]. rewrite zlen_app, zlen_mkbuf by lia. lia.
Qed.

Lemma window_nil want : 0 <= want -> window want [] = mkbuf want.
Proof. intros. unfold window. rewrite slice_full; [done|]. by rewrite zlen_app, zlen_mkbuf by lia. Qed.

Lemma window_exact buf : window (zlen buf) buf = buf.
Proof. unfold window. pose proof (zlen_nonneg buf). by rewrite slice_here by done. Qed.

Lemma lookup_mkbuf n i :
  mkbuf n !! i = if decide (i < Z.to_nat n)%nat then Some Byte.x00 else None.
Proof.
  unfold mkbuf. case_decide; [by apply lookup_replicate_2|].
  apply lookup_ge_None_2. rewrite length_replicate. lia.
Qed.

Lemma lookup_window want buf i :
  window want buf !! i =
  if decide (i < Z.to_nat want)%nat then Some (default Byte.x00 (buf !! i)) else None.
Proof.
  unfold window. rewrite lookup_slice, Z.sub_0_r. case_decide; [|done].
  change (Z.to_nat 0 + i)%nat with i. destruct (decide (i < length buf)%nat) as [Hi|Hi].
  - rewrite lookup_app_l by done. by destruct (lookup_lt_is_Some_2 _ _ Hi) as [x ->].
  - rewrite lookup_app_r by lia. rewrite (lookup_ge_None_2 buf) by lia.
    rewrite lookup_mkbuf, decide_True by lia. done.
Qed.

(** The bytes of a file after a write, zero past its end. *)
Lemma default_write_at buf off dat i :
  0 <= off -> default Byte.x00 (write_at buf off dat !! i) =
    if decide (Z.to_nat off <= i < Z.to_nat off + length dat)%nat
    then default Byte.x00 (dat !! (i - Z.to_nat off)%nat)
    else default Byte.x00 (buf !! i).
Proof.
  intros Hoff. unfold write_at. pose proof (zlen_nonneg buf). pose proof (zlen_nonneg dat).
  set (z := mkbuf (off + zlen dat - zlen buf)).
  assert (Hz : (Z.to_nat off + length dat <= length (buf ++ z))%nat).
  { rewrite length_app. unfold z, mkbuf, zlen. rewrite length_replicate. lia. }
  rewrite lookup_splice by lia. case_decide as H1; case_decide as H2; try lia; try done.
  destruct (decide (i < length buf)%nat).
  - by rewrite lookup_app_l by done.
  - rewrite lookup_app_r, (lookup_ge_None_2 buf) by lia. unfold z.
    rewrite lookup_mkbuf. by case_decide.
Qed.

Lemma list_eq_default (l l' : list byte) : zlen l = zlen l' ->
  (forall i, default Byte.x00 (l !! i) = default Byte.x00 (l' !! i)) -> l = l'.
Proof.
  unfold zlen. intros Hl Hd. apply list_eq. intros i. specialize (Hd i).
  destruct (decide (i < length l)%nat) as [Hi|Hi].
  - destruct (lookup_lt_is_Some_2 l i Hi) as [x Hx], (lookup_lt_is_Some_2 l' i) as [y Hy]; [lia|].
    rewrite Hx, Hy in *. cbn in Hd. congruence.
  - rewrite !lookup_ge_None_2 by lia. done.
Qed.

(** Two writes one after the other are one write. *)
Lemma write_at_app buf off d1 d2 : 0 <= off ->
  write_at (write_at buf off d1) (off + zlen d1) d2 = write_at buf off (d1 ++ d2).
Proof.
  intros Ho. pose proof (zlen_nonneg d1). pose proof (zlen_nonneg d2). apply list_eq_default.
  - rewrite !zlen_write_at, zlen_app by lia. lia.
  - intros i. rewrite !default_write_at by lia. rewrite length_app. unfold zlen in *.
    repeat case_decide; try lia; try done.
    + rewrite lookup_app_r by lia. do 2 f_equal. lia.
    + by rewrite lookup_app_l by lia.
Qed.

(** A write seen through a window is a clipped overlay of the window. *)
Lemma window_write want buf off dat :
  0 <= want -> 0 <= off ->
  window want (write_at buf off dat) =
  if decide (off < want) then splice (window want buf) off dat else window want buf.
Proof.
  intros Hw Hoff. pose proof (zlen_write_at buf off dat Hoff) as Hl.
  apply list_eq. intros i. rewrite lookup_window, default_write_at by done.
  pose proof (zlen_window want buf Hw) as Hzw. unfold zlen in Hzw.
  case_decide as Hlt; (destruct (decide (off < want)); [rewrite lookup_splice by lia|]);
    rewrite ?lookup_window; repeat case_decide; try lia; try done.
  destruct (dat !! (i - Z.to_nat off)%nat) eqn:E; [done|].
  apply lookup_ge_None_1 in E. lia.
Qed.

(** ** The two readers on one record *)

Lemma apply_data_write p m :
  zlen p = 16 + Get32 p 12 -> Get64 p 4 ≠ TruncSentinel -> Get64 p 4 + Get32 p 12 < 2 ^ 63 ->
  apply_data p m =
  (Ok true, set_data m (<[Get32 p 0 := write_at (content m (Get32 p 0)) (Get64 p 4) (drop 16 p)]>
                          (data m))).
Proof.
  intros Hl Hs Hb. pose proof (Get32_range p 12). pose proof (Get64_range p 4).
  unfold apply_data. cbv zeta. rewrite Hl, Z.ltb_irrefl, (proj2 (Z.eqb_neq _ _) Hs).
  rewrite (i64_small (Get64 p 4)), i64_small by lia. fold (content m (Get32 p 0)).
  set (buf := content m (Get32 p 0)). set (off := Get64 p 4) in *. set (n := Get32 p 12) in *.
  assert (Hd : zlen (drop 16 p) = n) by (unfold zlen in *; rewrite length_drop; lia).
  pose proof (zlen_nonneg buf).
  rewrite (proj2 (Z.ltb_ge _ off)); [unfold write_at; by rewrite Hd|].
  rewrite zlen_app. destruct (Z.le_gt_cases (off + n) (zlen buf)).
  - rewrite mkbuf_0 by lia. change (zlen (@nil byte)) with 0. lia.
  - rewrite zlen_mkbuf by lia. lia.
Qed.

Lemma apply_data_trunc p m :
  zlen p = 16 + Get32 p 12 -> Get64 p 4 = TruncSentinel ->
  apply_data p m = (Ok true, set_data m (<[Get32 p 0 := []]> (data m))).
Proof. intros Hl Hs. unfold apply_data. by rewrite Hl, Z.ltb_irrefl, Hs, Z.eqb_refl. Qed.

Lemma overlay_write want p buf :
  0 <= want -> zlen p = 16 + Get32 p 12 -> Get64 p 4 ≠ TruncSentinel ->
  Get64 p 4 + Get32 p 12 < 2 ^ 63 ->
  overlay (Get32 p 0) 0 want p (window want buf)
  = window want (write_at buf (Get64 p 4) (drop 16 p)).
Proof.
  intros Hw Hl Hs Hb. pose proof (Get32_range p 12). pose proof (Get64_range p 4).
  rewrite window_write by lia. pose proof (zlen_window want buf Hw) as Hz.
  unfold overlay. rewrite (proj2 (Z.ltb_ge _ 16)), Z.eqb_refl by lia. cbn [negb]. cbv zeta.
  rewrite (proj2 (Z.eqb_neq _ _) Hs), Hl, Z.ltb_irrefl.
  rewrite (i64_small (Get64 p 4)), i64_small by lia.
  set (off := Get64 p 4) in *. set (n := Get32 p 12) in *. clearbody off n.
  assert (Hd : zlen (drop 16 p) = n) by (unfold zlen in *; rewrite length_drop; lia).
  destruct (Z.leb_spec (0 + want) off); cbn [orb]; [by rewrite decide_False by lia|].
  rewrite decide_True by lia. destruct (Z.leb_spec (off + n) 0).
  { assert (drop 16 p = []) as -> by (apply length_zero_iff_nil; unfold zlen in *; lia).
    by rewrite splice_nil by lia. }
  rewrite Z.max_l by lia. replace (off - off) with 0 by lia. rewrite Z.sub_0_r, Z.add_0_r.
  set (wd := window want buf) in *. clearbody wd. clear Hd Hb. list_ext.
Qed.

(** Every record type, as far as one file's contents are concerned. *)
Definition overlay_rec (ino want : Z) (r : Record_) (out : list byte) : list byte :=
  if bool_decide (Type_ r = RecData) then overlay ino 0 want (Payload r) out else out.

Lemma apply_other_data typ p m m' b :
  typ ≠ RecData -> apply typ p m = (Ok b, m') -> data m' = data m.
Proof.
  intros Ht. unfold apply, apply_inode, removeDirent. rewrite (bool_decide_false (typ = RecData)) by done.
  intros Ha. repeat (case_match; simplify_eq); done.
Qed.

Lemma overlay_rec_apply r m m' ino want :
  0 <= want -> data_exact r -> apply (Type_ r) (Payload r) m = (Ok true, m') ->
  overlay_rec ino want r (window want (content m ino)) = window want (content m' ino).
Proof.
  intros Hw Hex Ha. unfold overlay_rec. case_bool_decide as Ht.
  2:{ unfold content. by rewrite (apply_other_data _ _ _ _ _ Ht Ha). }
  destruct (Hex Ht) as [Hl Hoff]. clear Hex. unfold apply in Ha. rewrite Ht in Ha.
  change (bool_decide (RecData = RecInode)) with false in Ha.
  change (bool_decide (RecData = RecDirent)) with false in Ha.
  change (bool_decide (RecData = RecData)) with true in Ha. cbv iota in Ha.
  set (p := Payload r) in *. pose proof (Get32_range p 12).
  rewrite (proj2 (Z.ltb_ge _ 16)) in Ha by lia.
  assert (Ha' : exists buf, m' = set_data m (<[Get32 p 0 := buf]> (data m)) /\
    overlay (Get32 p 0) 0 want p (window want (content m (Get32 p 0))) = window want buf).
  { destruct (decide (Get64 p 4 = TruncSentinel)) as [Hs|Hs].
    - rewrite apply_data_trunc in Ha by done. injection Ha as <-. eexists. split; [done|].
      unfold overlay. rewrite (proj2 (Z.ltb_ge _ 16)), Z.eqb_refl, Hs, Z.eqb_refl by lia.
      by rewrite window_nil.
    - destruct Hoff as [|Hoff]; [done|]. rewrite apply_data_write in Ha by done.
      injection Ha as <-. eexists. split; [done|]. by apply overlay_write. }
  destruct Ha' as (buf & -> & Hov). destruct (decide (Get32 p 0 = ino)) as [<-|Hi].
  - by rewrite content_insert.
  - rewrite content_insert_ne by done. unfold overlay.
    by rewrite (proj2 (Z.ltb_ge _ 16)), (proj2 (Z.eqb_neq _ _) Hi) by lia.
Qed.

Lemma overlay_all rs m m' ino want :
  0 <= want -> Forall data_exact rs -> apply_all rs m = (Ok true, m') ->
  fold_left (fun out r => overlay_rec ino want r out) rs (window want (content m ino))
  = window want (content m' ino).
Proof.
  intros Hw. revert m. induction rs as [|r rs IH]; intros m Hex Ha.
  { by injection Ha as ->. }
  apply Forall_cons in Hex as [Hr Hex]. apply bind_inv_ok in Ha as (ok & m1 & H1 & Ha).
  destruct ok; [|done]. cbn [fold_left]. rewrite (overlay_rec_apply _ _ _ _ _ Hw Hr H1).
  by apply IH.
Qed.

(** ** [replayData] on a volume *)

Section ReplayData.
Context {D : Type} `{BlockDevLaws D}.

Lemma log_bounds k ds r qs :
  vol k (ds ++ r :: qs) ->
  let pos := LogStart + zlen (encode_log ds) in
  512 <= pos /\ pos + rec_size r <= wOff k /\ 0 < zlen (Payload r) <= MaxPayload.
Proof.
  intros [_ _ [He _ _ Hall] _] pos. rewrite encode_log_app, zlen_app, encode_log_cons, zlen_app, zlen_enc in He.
  pose proof (zlen_encode_log_nonneg ds). pose proof (zlen_encode_log_nonneg qs).
  apply Forall_app in Hall as [_ Hall]. apply Forall_cons in Hall as [Hr _].
  unfold pos, LogStart in *. split; [lia|]. split; [lia|done].
Qed.

Lemma replayData_loop_step fuel k ds r qs ino want out :
  vol k (ds ++ r :: qs) ->
  let pos := LogStart + zlen (encode_log ds) in
  exists k', same_img k k' /\
    replayData_loop (S fuel) ino 0 want pos out k =
    replayData_loop fuel ino 0 want (pos + rec_size r) (overlay_rec ino want r out) k'.
Proof.
  intros Hv pos. destruct (log_bounds _ _ _ _ Hv) as (Hp & Hend & Hpl). fold pos in Hp, Hend.
  pose proof (vol_wOff _ _ Hv) as Hw. pose proof (vo_ok _ _ Hv) as Hok.
  pose proof (parse_rec_log _ _ _ _ _ (zlen (img k)) (vo_log _ _ Hv) (proj2 Hw)) as Hparse.
  fold pos in Hparse. unfold rec_size in *.
  destruct (parse_rec_some _ _ _ _ Hparse) as (_ & _ & Hpay & Hlen); [lia|lia|].
  destruct (readAt_ok k pos HdrLen) as (k1 & Hr1 & Hs1); [done|unfold HdrLen in *; lia..|].
  pose proof (same_img_ok _ _ Hok Hs1) as Hok1. pose proof (si_img _ _ Hs1) as I1.
  destruct (readAt_ok k1 (pos + HdrLen) (zlen (Payload r))) as (k2 & Hr2 & Hs2);
    [done|rewrite ?I1; unfold HdrLen in *; lia..|].
  exists k2. split; [by eapply same_img_trans|]. rewrite I1 in Hr2.
  unfold rec_size in Hpay. rewrite Z.add_assoc in Hpay. rewrite <- Hpay in Hr2.
  cbn [replayData_loop]. rewrite bind_getS, (proj2 (Z.leb_le _ _)) by lia.
  rewrite (bind_ok _ _ _ _ _ Hr1). cbv zeta. rewrite <- Hlen.
  rewrite (proj2 (Z.ltb_ge _ 0)), (proj2 (Z.ltb_ge MaxPayload _)), (proj2 (Z.ltb_ge (wOff k) _)) by lia.
  cbn [orb]. rewrite (bind_ok _ _ _ _ _ Hr2).
  assert (Hhdr : slice (img k) pos (pos + HdrLen) = rec_hdr (Type_ r) (Payload r)).
  { destruct (log_at_split _ _ _ _ (vo_log _ _ Hv)) as [_ Hb]. fold pos in Hb.
    rewrite encode_log_cons in Hb. unfold enc in Hb. rewrite EncodeRecord_hdr, <- app_assoc in Hb.
    apply (f_equal (fun l => slice l 0 HdrLen)) in Hb.
    rewrite slice_here in Hb by (by rewrite zlen_rec_hdr). rewrite <- Hb.
    rewrite slice_slice by (unfold HdrLen in *; lia). f_equal; lia. }
  rewrite Hhdr, rec_hdr_crc, rec_hdr_typ, Z.eqb_refl. done.
Qed.

Lemma replayData_loop_log fuel k ds rs ino want out :
  vol k (ds ++ rs) -> (length rs < fuel)%nat ->
  exists k', same_img k k' /\
    replayData_loop fuel ino 0 want (LogStart + zlen (encode_log ds)) out k
    = (Ok (fold_left (fun out r => overlay_rec ino want r out) rs out), k').
Proof.
  revert fuel k ds out. induction rs as [|r rs IH]; intros fuel k ds out Hv Hf;
    (destruct fuel as [|fuel]; [lia|]).
  { exists k. split; [apply same_img_refl; by destruct Hv as [[]]|].
    rewrite app_nil_r in Hv. cbn [replayData_loop]. rewrite bind_getS.
    rewrite <- (la_end _ _ _ (vo_log _ _ Hv)), (proj2 (Z.leb_gt _ _)) by (unfold HdrLen; lia). done. }
  cbn [length] in Hf.
  destruct (replayData_loop_step fuel k ds r rs ino want out Hv) as (k1 & Hs1 & ->).
  rewrite cons_middle, app_assoc in Hv.
  destruct (IH fuel k1 (ds ++ [r]) (overlay_rec ino want r out)) as (k2 & Hs2 & Hl);
    [by eapply vol_same|lia|].
  exists k2. split; [by eapply same_img_trans|].
  rewrite encode_log_app, zlen_app, encode_log_one, zlen_enc, Z.add_assoc in Hl. done.
Qed.

(** The lazy reader gives what the mount-time reader builds. *)
Lemma replayData_ok k rs m ino want :
  vol k rs -> Forall data_exact rs -> apply_all rs (empty_meta 0) = (Ok true, m) -> 0 <= want ->
  exists k', same_img k k' /\ replayData ino 0 want k = (Ok (window want (content m ino)), k').
Proof.
  intros Hv Hex Hap Hw. unfold replayData. rewrite bind_getS.
  destruct (replayData_loop_log (S (Z.to_nat (wOff k))) k [] rs ino want (mkbuf want))
    as (k' & Hs & Hl); [done| |].
  { pose proof (length_log rs). pose proof (la_end _ _ _ (vo_log _ _ Hv)).
    pose proof (vol_wOff _ _ Hv). unfold LogStart in *. lia. }
  exists k'. split; [done|]. change (LogStart + zlen (encode_log [])) with LogStart in Hl.
  rewrite Hl. rewrite <- (overlay_all _ _ _ _ _ Hw Hex Hap). do 3 f_equal.
  unfold content. cbn. by rewrite window_nil.
Qed.
End ReplayData.
