(* ===== verification/KfsTree.v ===== *)
(** * KfsTree: the directory tree a volume holds

    Facts about the maps alone, no device: two states with the same tree
    answer every query alike (setoid rewriting under [same_tree]); the
    well-formedness of a replayed state; the abstract effect of each
    operation and that it keeps the state well formed; and what [apply] does
    with each record the operations write. *)

From S2P Require Import Prelude Frame Crc32 BlockDev SectorIO KfsFormat KfsLog Paths KfsFs KfsMount KfsData.

(** ** States with the same tree *)

Record same_tree (m1 m2 : kfsMeta) : Prop := mkSameTree {
  st_inodes : inodes m1 = inodes m2;
  st_children : children m1 = children m2;
  st_dirents : dirents m1 = dirents m2;
}.

#[export] Instance same_tree_equiv : Equivalence same_tree.
Proof.
  split.
  - by intros m.
  - by intros m1 m2 [].
  - intros m1 m2 m3 [] []. split; congruence.
Qed.

#[export] Instance inodes_proper : Proper (same_tree ==> eq) inodes.
Proof. by intros m1 m2 []. Qed.
#[export] Instance children_proper : Proper (same_tree ==> eq) children.
Proof. by intros m1 m2 []. Qed.
#[export] Instance dirents_proper : Proper (same_tree ==> eq) dirents.
Proof. by intros m1 m2 []. Qed.

#[export] Instance findDirent_proper : Proper (same_tree ==> eq ==> eq ==> eq) findDirent.
Proof. intros m1 m2 [Hi Hc Hd] p ? <- n ? <-. unfold findDirent. by rewrite Hc, Hd. Qed.

#[export] Instance dirent_ino_proper : Proper (same_tree ==> eq ==> eq) dirent_ino.
Proof. intros m1 m2 [Hi Hc Hd] i ? <-. unfold dirent_ino. by rewrite Hd. Qed.

(** Rewriting with the leaf equations, also inside match branches. *)
Ltac tree_rw Hm :=
  rewrite ?(dirent_ino_proper _ _ Hm _ _ eq_refl), ?(st_inodes _ _ Hm),
    ?(st_children _ _ Hm), ?(st_dirents _ _ Hm).

#[export] Instance is_dir_proper : Proper (same_tree ==> eq ==> eq) is_dir.
Proof. intros m1 m2 [Hi Hc Hd] i ? <-. unfold is_dir. by rewrite Hi. Qed.

#[export] Instance walkParent_proper : Proper (same_tree ==> eq ==> eq) walkParent.
Proof.
  intros m1 m2 Hm p ? <-.
  assert (Hl : forall parts cur, walkParent_loop m1 cur parts = walkParent_loop m2 cur parts).
  { induction parts as [|x parts IH]; intros cur; [done|]. cbn [walkParent_loop].
    rewrite Hm. case_match; [|done]. cbv zeta. rewrite IH. tree_rw Hm. by rewrite ?Hm. }
  unfold walkParent. repeat case_match; try done. by rewrite Hl.
Qed.

#[export] Instance walk_proper : Proper (same_tree ==> eq ==> eq) walk.
Proof.
  intros m1 m2 Hm p ? <-.
  assert (Hl : forall parts cur, walk_loop m1 cur parts = walk_loop m2 cur parts).
  { induction parts as [|x parts IH]; intros cur; [done|]. cbn [walk_loop].
    rewrite Hm. case_match; [|done]. rewrite IH. tree_rw Hm. by rewrite ?Hm. }
  unfold walk. destruct (splitPath p); [|done..]. cbn. by rewrite Hl.
Qed.

#[export] Instance Stat_proper : Proper (same_tree ==> eq ==> eq) Stat.
Proof.
  intros m1 m2 Hm p ? <-. unfold Stat. case_bool_decide; [done|].
  destruct (splitPath p); [|done..]. cbn. rewrite Hm.
  destruct (walkParent m2 p) as [[pino leaf]|e|]; [|done..]. cbn. rewrite Hm.
  case_match; [|done]. by tree_rw Hm.
Qed.

#[export] Instance List_proper : Proper (same_tree ==> eq ==> eq) List.
Proof.
  intros m1 m2 Hm p ? <-. unfold List.
  assert (He : forall i, list_entry m1 i = list_entry m2 i).
  { intros i. unfold list_entry. by rewrite (st_dirents _ _ Hm), (st_inodes _ _ Hm). }
  assert (Hmap : forall l, map (list_entry m1) l = map (list_entry m2) l)
    by (intros l; by apply map_ext).
  case_bool_decide; cbn; [by rewrite Hmap, (st_children _ _ Hm)|].
  rewrite Hm. destruct (walk m2 p) as [[ino|]|e|]; cbn; try done.
  rewrite Hm. case_match; cbn; [|done]. by rewrite Hmap, (st_children _ _ Hm).
Qed.

#[export] Instance UID_proper : Proper (same_tree ==> eq ==> eq) UID.
Proof.
  intros m1 m2 Hm p ? <-. unfold UID. rewrite Hm.
  destruct (walkParent m2 p) as [[pino leaf]|e|]; [|done..]. cbn. rewrite Hm.
  case_match; [|done]. by tree_rw Hm.
Qed.

(** ** Well-formed states *)

Record meta_wf (m : kfsMeta) : Prop := mkMetaWf {
  mw_next : 2 <= nextIno m < 2 ^ 32;
  mw_inode ino nd : inodes m !! ino = Some nd ->
    i_ino nd = ino /\ 0 <= ino < nextIno m /\ 0 <= i_uid nd < 2 ^ 32 /\ 0 <= i_size nd < 2 ^ 32
    /\ (i_kind nd ≠ KindDir -> i_size nd = zlen (content m ino));
  mw_child p l i : children m !! p = Some l -> i ∈ l ->
    exists d, dirents m !! i = Some d /\ d_parent d = p;
  mw_unique p l i j di dj : children m !! p = Some l -> i ∈ l -> j ∈ l ->
    dirents m !! i = Some di -> dirents m !! j = Some dj -> d_dead di = false -> d_dead dj = false ->
    d_name di = d_name dj -> i = j;
  mw_key p l : children m !! p = Some l -> 0 <= p < nextIno m;
  mw_data ino b : data m !! ino = Some b -> 0 <= ino < nextIno m;
  mw_dirent i d : dirents m !! i = Some d -> is_Some (inodes m !! d_ino d);
  mw_dir ino nd : inodes m !! ino = Some nd -> i_kind nd = KindDir -> is_Some (children m !! ino);
  mw_root : is_dir m RootIno = true;
}.

(** The abstract effects: a new or changed inode, a file's new contents. *)
Definition add_inode (m : kfsMeta) (n : kfsInode) : kfsMeta :=
  mkMeta (<[i_ino n := n]> (inodes m))
    (if bool_decide (i_kind n = KindDir)
     then match children m !! i_ino n with
          | Some _ => children m
          | None => <[i_ino n := []]> (children m)
          end
     else children m)
    (dirents m) (data m)
    (if nextIno m <=? i_ino n then u32 (i_ino n + 1) else nextIno m).

Definition set_file (m : kfsMeta) (ino : Z) (nd : kfsInode) (buf : list byte) : kfsMeta :=
  mkMeta (<[ino := mkInode ino (i_uid nd) (i_kind nd) (zlen buf)]> (inodes m))
    (children m) (dirents m) (<[ino := buf]> (data m)) (nextIno m).

Definition new_node (m : kfsMeta) (kind : byte) (pino : Z) (leaf : list byte) : kfsMeta :=
  link (add_inode m (mkInode (nextIno m) 0 kind 0)) pino leaf (nextIno m).

Lemma content_fresh m : meta_wf m -> content m (nextIno m) = [].
Proof.
  intros Hwf. unfold content. destruct (data m !! nextIno m) eqn:E; [|done].
  apply (mw_data _ Hwf) in E. lia.
Qed.

Lemma fresh_inode m ino nd : meta_wf m -> inodes m !! ino = Some nd -> ino ≠ nextIno m.
Proof. intros Hwf Hi. destruct (mw_inode _ Hwf _ _ Hi) as (_ & ? & _). lia. Qed.

Lemma is_dir_lookup m ino : is_dir m ino = true -> exists nd, inodes m !! ino = Some nd /\ i_kind nd = KindDir.
Proof. unfold is_dir. case_match; [|done]. intros ?%bool_decide_eq_true. eauto. Qed.

Lemma wf_add_fresh m kind :
  meta_wf m -> nextIno m < 2 ^ 32 - 1 -> meta_wf (add_inode m (mkInode (nextIno m) 0 kind 0)).
Proof.
  intros Hwf Hn. pose proof (mw_next _ Hwf) as Hnext.
  assert (En : nextIno (add_inode m (mkInode (nextIno m) 0 kind 0)) = nextIno m + 1).
  { cbn. rewrite Z.leb_refl, u32_small by lia. done. }
  split; rewrite ?En.
  - lia.
  - cbn [inodes add_inode i_ino]. intros ino nd [[<- <-]|[Hne Hi]]%lookup_insert_Some.
    + cbn [i_ino i_uid i_size i_kind]. repeat split; try lia. intros _.
      change (content (add_inode m _) ?i) with (content m i). by rewrite content_fresh.
    + destruct (mw_inode _ Hwf _ _ Hi) as (? & ? & ? & ? & ?). repeat split; try lia; done.
  - cbn [children dirents add_inode i_ino i_kind]. intros p l i.
    repeat case_match; try apply (mw_child _ Hwf).
    intros [[<- <-]|[Hne Hi]]%lookup_insert_Some Hin; [by apply elem_of_nil in Hin|by eapply mw_child].
  - cbn [children dirents add_inode i_ino i_kind]. intros p l i j di dj.
    repeat case_match; try apply (mw_unique _ Hwf).
    intros [[<- <-]|[Hne Hi]]%lookup_insert_Some Hin; [by apply elem_of_nil in Hin|].
    revert Hin. by apply (mw_unique _ Hwf p).
  - cbn [children add_inode i_ino i_kind]. intros p l Hl.
    assert (p = nextIno m \/ children m !! p = Some l) as [->|Hp]; [|lia|].
    { repeat case_match; try by right. apply lookup_insert_Some in Hl as [[<- _]|[_ ?]]; auto. }
    apply (mw_key _ Hwf) in Hp. lia.
  - intros ino b Hb. apply (mw_data _ Hwf) in Hb. lia.
  - intros i d Hd. apply (mw_dirent _ Hwf) in Hd. cbn. apply lookup_insert_is_Some'. by right.
  - cbn [inodes children add_inode i_ino i_kind].
    intros ino nd [[<- <-]|[Hne Hi]]%lookup_insert_Some Hk.
    + cbn in Hk. rewrite bool_decide_true by done. destruct (children m !! nextIno m) eqn:E;
        [by rewrite E|by rewrite lookup_insert_eq].
    + pose proof (mw_dir _ Hwf _ _ Hi Hk) as Hs. repeat case_match; try done.
      apply lookup_insert_is_Some'. by right.
  - destruct (is_dir_lookup _ _ (mw_root _ Hwf)) as (nd & Hi & Hk).
    pose proof (fresh_inode _ _ _ Hwf Hi). unfold is_dir. cbn [inodes add_inode i_ino].
    rewrite lookup_insert_ne, Hi by done. by apply bool_decide_eq_true.
Qed.

(** [findDirent] finds nothing only when no live entry has the name. *)
Lemma findDirent_None m parent name l i d :
  findDirent m parent name = None -> children m !! parent = Some l -> i ∈ l ->
  dirents m !! i = Some d -> d_dead d = false -> d_name d ≠ name.
Proof.
  unfold findDirent. intros Hf Hl Hin Hd Hlive. rewrite Hl in Hf. cbn in Hf. clear Hl.
  induction l as [|x l IH]; [by apply elem_of_nil in Hin|]. cbn in Hf.
  apply elem_of_cons in Hin as [->|Hin].
  - rewrite Hd, Hlive in Hf. cbn in Hf. by case_bool_decide.
  - destruct (dirents m !! x) as [dx|]; [|by apply IH].
    destruct (negb (d_dead dx) && bool_decide (d_name dx = name)); [done|by apply IH].
Qed.

Lemma link_unique m pino leaf ino :
  findDirent m pino leaf = None ->
  (forall p l i j di dj, children m !! p = Some l -> i ∈ l -> j ∈ l ->
    dirents m !! i = Some di -> dirents m !! j = Some dj -> d_dead di = false ->
    d_dead dj = false -> d_name di = d_name dj -> i = j) ->
  (forall p l i, children m !! p = Some l -> i ∈ l -> exists d, dirents m !! i = Some d) ->
  forall p l i j di dj, children (link m pino leaf ino) !! p = Some l -> i ∈ l -> j ∈ l ->
    dirents (link m pino leaf ino) !! i = Some di -> dirents (link m pino leaf ino) !! j = Some dj ->
    d_dead di = false -> d_dead dj = false -> d_name di = d_name dj -> i = j.
Proof.
  intros Hnone Hu Hc p l i j di dj. cbn [children dirents link set_children set_dirents].
  rewrite length_app. cbn [length]. replace (length (dirents m) + 1 - 1)%nat with (length (dirents m)) by lia.
  set (n := length (dirents m)). set (nd := mkDirent pino leaf ino false).
  assert (Hlt : forall x dx, dirents m !! x = Some dx -> (x < n)%nat)
    by (intros x dx; apply lookup_lt_Some).
  assert (Hat : forall x dx, (dirents m ++ [nd]) !! x = Some dx ->
    x = n /\ dx = nd \/ (x < n)%nat /\ dirents m !! x = Some dx).
  { intros x dx [Hx|[Hx Hy]]%lookup_app_Some; [right; split; [by eapply lookup_lt_Some|done]|].
    apply list_lookup_singleton_Some in Hy as [Hy <-]. left. fold n in Hx, Hy. split; [lia|done]. }
  intros Hl Hi Hj Hdi%Hat Hdj%Hat Li Lj Hname.
  apply lookup_insert_Some in Hl as [[<- <-]|[Hne Hl]].
  - apply elem_of_app in Hi as [Hi|Hi%list_elem_of_singleton];
      apply elem_of_app in Hj as [Hj|Hj%list_elem_of_singleton]; subst; try done;
      (destruct (children m !! pino) as [l0|] eqn:El; [|by apply elem_of_nil in Hi || by apply elem_of_nil in Hj || done]);
      cbn in *.
    + destruct Hdi as [[-> _]|[_ Hdi]]; [destruct (Hc _ _ _ El Hi) as [? ?%Hlt]; lia|].
      destruct Hdj as [[-> _]|[_ Hdj]]; [destruct (Hc _ _ _ El Hj) as [? ?%Hlt]; lia|].
      by apply (Hu pino l0 i j di dj).
    + destruct Hdj as [[_ ->]|[? _]]; [|lia].
      destruct Hdi as [[-> _]|[_ Hdi]]; [done|]. by destruct (findDirent_None _ _ _ _ _ _ Hnone El Hi Hdi Li).
    + destruct Hdi as [[_ ->]|[? _]]; [|lia].
      destruct Hdj as [[-> _]|[_ Hdj]]; [done|]. by destruct (findDirent_None _ _ _ _ _ _ Hnone El Hj Hdj Lj).
  - destruct (Hc _ _ _ Hl Hi) as [di' Hdi']. destruct (Hc _ _ _ Hl Hj) as [dj' Hdj'].
    apply Hlt in Hdi', Hdj'.
    destruct Hdi as [[? _]|[_ Hdi]]; [lia|]. destruct Hdj as [[? _]|[_ Hdj]]; [lia|].
    by apply (Hu p l i j di dj).
Qed.

Lemma wf_link m pino leaf ino :
  meta_wf m -> 0 <= pino < nextIno m -> is_Some (inodes m !! ino) ->
  findDirent m pino leaf = None ->
  meta_wf (link m pino leaf ino).
Proof.
  intros Hwf Hp Hi Hnone. split.
  - apply Hwf.
  - apply (mw_inode _ Hwf).
  - cbn [children dirents link set_children set_dirents]. intros p l i Hl Hin.
    assert (Hold : forall l0, children m !! p = Some l0 -> i ∈ l0 ->
      exists d, (dirents m ++ [mkDirent pino leaf ino false]) !! i = Some d /\ d_parent d = p).
    { intros l0 Hl0 Hin0. destruct (mw_child _ Hwf _ _ _ Hl0 Hin0) as (d & Hd & Hpd).
      exists d. split; [|done]. by apply lookup_app_l_Some. }
    apply lookup_insert_Some in Hl as [[<- <-]|[_ Hl]]; [|by eapply Hold].
    apply elem_of_app in Hin as [Hin|Hin%list_elem_of_singleton].
    + destruct (children m !! pino) as [l0|] eqn:E; [|cbn in Hin; set_solver]. by eapply Hold.
    + exists (mkDirent pino leaf ino false). split; [|done]. subst i.
      rewrite length_app, lookup_app_r by (cbn; lia). cbn [length].
      by replace (length (dirents m) + 1 - 1 - length (dirents m))%nat with 0%nat by lia.
  - apply link_unique; [done|apply (mw_unique _ Hwf)|].
    intros p l i Hl Hin. destruct (mw_child _ Hwf _ _ _ Hl Hin) as (d & ? & _). eauto.
  - intros p l. cbn [children link set_children set_dirents nextIno].
    intros [[<- <-]|[_ Hl]]%lookup_insert_Some; [done|by eapply mw_key].
  - apply (mw_data _ Hwf).
  - cbn [dirents link set_children set_dirents inodes]. intros i d [Hd|[_ Hd]]%lookup_app_Some.
    + by eapply mw_dirent.
    + apply list_lookup_singleton_Some in Hd as [_ <-]. done.
  - cbn. intros j nd Hj Hk. apply lookup_insert_is_Some'. right. by apply (mw_dir _ Hwf _ _ Hj).
  - apply (mw_root _ Hwf).
Qed.

Lemma wf_new_node m kind pino leaf :
  meta_wf m -> nextIno m < 2 ^ 32 - 1 -> is_dir m pino = true ->
  findDirent m pino leaf = None ->
  meta_wf (new_node m kind pino leaf).
Proof.
  intros Hwf Hn Hd Hnone. destruct (is_dir_lookup _ _ Hd) as (nd & Hi & _).
  destruct (mw_inode _ Hwf _ _ Hi) as (_ & Hp & _).
  apply wf_link; [by apply wf_add_fresh|..].
  - cbn. rewrite Z.leb_refl, u32_small by lia. lia.
  - cbn. by rewrite lookup_insert_eq.
  - unfold findDirent in *. cbn [dirents children add_inode i_ino i_kind].
    pose proof (fresh_inode _ _ _ Hwf Hi). repeat case_match; try done.
    by rewrite lookup_insert_ne.
Qed.

Lemma wf_set_file m ino nd buf :
  meta_wf m -> inodes m !! ino = Some nd -> i_kind nd ≠ KindDir -> zlen buf < 2 ^ 32 ->
  meta_wf (set_file m ino nd buf).
Proof.
  intros Hwf Hi Hk Hb. destruct (mw_inode _ Hwf _ _ Hi) as (Hino & Hr & Hu & _ & _).
  assert (Hc : forall j, content (set_file m ino nd buf) j = if decide (ino = j) then buf else content m j).
  { intros j. unfold content, set_file. cbn [data]. case_decide; subst;
      [by rewrite lookup_insert_eq|by rewrite lookup_insert_ne]. }
  split; cbn [nextIno set_file inodes children dirents data].
  - apply Hwf.
  - intros j n [[<- <-]|[Hne Hj]]%lookup_insert_Some; rewrite Hc.
    + cbn. rewrite decide_True by done. pose proof (zlen_nonneg buf). repeat split; try lia; done.
    + rewrite decide_False by done. by apply (mw_inode _ Hwf).
  - apply (mw_child _ Hwf).
  - apply (mw_unique _ Hwf).
  - apply (mw_key _ Hwf).
  - intros j b [[<- <-]|[_ Hj]]%lookup_insert_Some; [done|by eapply mw_data].
  - intros i d Hd. apply (mw_dirent _ Hwf) in Hd. apply lookup_insert_is_Some'. by right.
  - intros j n [[<- <-]|[_ Hj]]%lookup_insert_Some; [done|by eapply mw_dir].
  - destruct (is_dir_lookup _ _ (mw_root _ Hwf)) as (rd & Hrd & Hk'). unfold is_dir. cbn.
    rewrite lookup_insert_ne, Hrd; [by apply bool_decide_eq_true|]. intros ->. congruence.
Qed.

Lemma wf_set_uid m ino nd uid :
  meta_wf m -> inodes m !! ino = Some nd -> 0 <= uid < 2 ^ 32 ->
  meta_wf (add_inode m (mkInode ino uid (i_kind nd) (i_size nd))).
Proof.
  intros Hwf Hi Hu. destruct (mw_inode _ Hwf _ _ Hi) as (Hino & Hr & _ & Hs & Hc).
  assert (En : nextIno (add_inode m (mkInode ino uid (i_kind nd) (i_size nd))) = nextIno m).
  { cbn. by rewrite (proj2 (Z.leb_gt _ _)) by lia. }
  split; rewrite ?En.
  - apply Hwf.
  - cbn [inodes add_inode i_ino]. intros j n [[<- <-]|[Hne Hj]]%lookup_insert_Some.
    + cbn. repeat split; try lia. done.
    + by apply (mw_inode _ Hwf).
  - cbn [children dirents add_inode i_ino i_kind]. intros p l i.
    repeat case_match; try apply (mw_child _ Hwf).
    intros [[<- <-]|[Hne Hj]]%lookup_insert_Some Hin; [by apply elem_of_nil in Hin|by eapply mw_child].
  - cbn [children dirents add_inode i_ino i_kind]. intros p l i j di dj.
    repeat case_match; try apply (mw_unique _ Hwf).
    intros [[<- <-]|[Hne Hj]]%lookup_insert_Some Hin; [by apply elem_of_nil in Hin|].
    revert Hin. by apply (mw_unique _ Hwf p).
  - cbn [children add_inode i_ino i_kind]. intros p l Hl.
    assert (p = ino \/ children m !! p = Some l) as [->|Hp]; [|lia|by eapply mw_key].
    repeat case_match; try by right. apply lookup_insert_Some in Hl as [[<- _]|[_ ?]]; auto.
  - apply (mw_data _ Hwf).
  - intros i d Hd. apply (mw_dirent _ Hwf) in Hd. cbn. apply lookup_insert_is_Some'. by right.
  - cbn [inodes children add_inode i_ino i_kind].
    intros j n [[<- <-]|[_ Hj]]%lookup_insert_Some Hk.
    + destruct (mw_dir _ Hwf _ _ Hi Hk) as [l Hl]. cbn in Hk. rewrite bool_decide_true, Hl by done.
      by rewrite Hl.
    + pose proof (mw_dir _ Hwf _ _ Hj Hk) as Hsm. repeat case_match; try done.
      apply lookup_insert_is_Some'. by right.
  - pose proof (mw_root _ Hwf) as Hroot. unfold is_dir in *. cbn [inodes add_inode i_ino].
    destruct (decide (ino = RootIno)) as [->|]; [rewrite lookup_insert_eq; by rewrite Hi in Hroot|].
    by rewrite lookup_insert_ne.
Qed.

(** ** What [apply] does with the records the operations write *)

Lemma kfsInodePayload_eq n :
  kfsInodePayload n = InodePayload (i_ino n) (i_uid n) (i_kind n) (i_size n).
Proof. done. Qed.

Definition inode_fits (n : kfsInode) : Prop :=
  0 <= i_ino n < 2 ^ 32 /\ 0 <= i_uid n < 2 ^ 32 /\ 0 <= i_size n < 2 ^ 32.

Lemma apply_inode_rec n m :
  inode_fits n -> apply RecInode (kfsInodePayload n) m = (Ok true, add_inode m n).
Proof.
  intros (Hi & Hu & Hs). unfold apply. rewrite bool_decide_true by done.
  rewrite kfsInodePayload_eq, zlen_InodePayload. cbn [Z.ltb Z.compare Pos.compare Pos.compare_cont].
  f_equal. unfold apply_inode, add_inode. cbv zeta.
  rewrite InodePayload_eq. fields. rewrite !u32_small by done.
  destruct n as [ino uid kind size]. cbn [i_ino i_uid i_kind i_size] in *.
  destruct (nextIno (set_inodes m _) <=? ino) eqn:E; cbn [nextIno set_inodes] in E; rewrite E;
    cbn [children set_nextIno set_inodes set_children inodes dirents data nextIno];
    case_bool_decide; try done; by destruct (children m !! ino).
Qed.

Lemma dirent_payload_eq parent name ino :
  AppendLStr (Put32 (mkbuf 4) 0 parent ++ [z2b 0]) name ++ Put32 (mkbuf 4) 0 ino
  = DirentPayload parent DirentCreate name ino.
Proof. done. Qed.

Lemma apply_dirent_rec parent name ino m :
  0 <= parent < 2 ^ 32 -> 0 <= ino < 2 ^ 32 -> zlen name < 2 ^ 16 ->
  apply RecDirent (DirentPayload parent DirentCreate name ino) m = (Ok true, link m parent name ino).
Proof.
  intros Hp Hi Hn. pose proof (zlen_nonneg name). unfold apply.
  rewrite bool_decide_false, bool_decide_true by done.
  rewrite zlen_DirentPayload_create, DirentPayload_create.
  rewrite (proj2 (Z.ltb_ge _ _)) by lia. cbv zeta. rewrite dirent_name_create by done.
  rewrite (proj2 (Z.ltb_ge (11 + zlen name) _)) by lia.
  rewrite (Get32_skip (AppendLStr _ _) _ (7 + zlen name) 0) by len_solve.
  unfold AppendLStr. rewrite <- !app_assoc. fields.
  rewrite bool_decide_false by done. by rewrite !u32_small by done.
Qed.

Lemma data_rec_exact ino off dat :
  0 <= off < 2 ^ 64 -> zlen dat < 2 ^ 32 -> off = TruncSentinel \/ off + zlen dat < 2 ^ 63 ->
  data_exact (mkRecord RecData (DataPayload ino off dat)).
Proof.
  intros Ho Hd Hs _. cbn [Payload]. pose proof (zlen_nonneg dat).
  rewrite zlen_DataPayload, DataPayload_eq. fields. rewrite u32_small, u64_small by lia. done.
Qed.

Lemma apply_data_rec ino off dat m :
  0 <= ino < 2 ^ 32 -> 0 <= off -> off + zlen dat < 2 ^ 32 ->
  apply RecData (DataPayload ino off dat) m
  = (Ok true, set_data m (<[ino := write_at (content m ino) off dat]> (data m))).
Proof.
  intros Hi Ho Hd. pose proof (zlen_nonneg dat).
  assert (H0 : Get32 (DataPayload ino off dat) 0 = ino)
    by (rewrite DataPayload_eq; fields; by apply u32_small).
  assert (H4 : Get64 (DataPayload ino off dat) 4 = off)
    by (rewrite DataPayload_eq; fields; apply u64_small; lia).
  assert (H12 : Get32 (DataPayload ino off dat) 12 = zlen dat)
    by (rewrite DataPayload_eq; fields; apply u32_small; lia).
  assert (H16 : drop 16 (DataPayload ino off dat) = dat).
  { rewrite DataPayload_eq, !app_assoc, drop_app_le by (rewrite !length_app, !length_le_split; lia).
    by rewrite drop_ge by (rewrite !length_app, !length_le_split; lia). }
  change (apply RecData ?p m) with (if zlen p <? 16 then (Ok false, m) else apply_data p m).
  rewrite zlen_DataPayload, (proj2 (Z.ltb_ge _ _)) by lia.
  rewrite apply_data_write; rewrite ?H0, ?H4, ?H12, ?H16, ?zlen_DataPayload; try done; [|lia].
  change TruncSentinel with (2 ^ 64 - 1). lia.
Qed.

Lemma trunc_payload_eq ino :
  Put32 (mkbuf 4) 0 ino ++ Put64 (mkbuf 8) 0 TruncSentinel ++ Put32 (mkbuf 4) 0 0
  = DataPayload ino TruncSentinel [].
Proof. done. Qed.

Lemma apply_trunc_rec ino m :
  0 <= ino < 2 ^ 32 ->
  apply RecData (DataPayload ino TruncSentinel []) m
  = (Ok true, set_data m (<[ino := []]> (data m))).
Proof.
  intros Hi. change (apply RecData ?p m) with (if zlen p <? 16 then (Ok false, m) else apply_data p m).
  rewrite zlen_DataPayload. cbn [zlen length Z.of_nat Z.add Z.ltb Z.compare Pos.compare Pos.compare_cont].
  assert (H0 : Get32 (DataPayload ino TruncSentinel []) 0 = ino)
    by (rewrite DataPayload_eq; fields; by apply u32_small).
  rewrite <- H0 at 2. apply apply_data_trunc.
  - rewrite zlen_DataPayload, DataPayload_eq. fields. done.
  - rewrite DataPayload_eq. fields. done.
Qed.

Lemma apply_cp_rec m n :
  0 <= n <= nextIno m -> n < 2 ^ 32 ->
  apply RecCheckpoint (CheckpointPayload n) m = (Ok true, m).
Proof.
  intros Hn Hr. unfold apply. rewrite !bool_decide_false, bool_decide_true by done.
  rewrite zlen_CheckpointPayload. change (4 <=? 4) with true. cbv iota zeta.
  unfold CheckpointPayload. rewrite Put32_fresh. rewrite <- (app_nil_r (le_split 4 n)), Get32_here.
  rewrite u32_small, (proj2 (Z.ltb_ge _ _)) by lia. done.
Qed.

(** ** Paths *)

Lemma walkParent_leaf m path pino leaf :
  walkParent m path = Ok (pino, leaf) -> good_part leaf /\ zlen leaf < zlen path.
Proof.
  unfold walkParent. destruct (splitPath path) as [parts|e|] eqn:Hs; [|done..].
  destruct (last parts) as [l|] eqn:Hl; [|done].
  destruct (walkParent_loop _ _ _); [|done..]. intros [= -> ->].
  apply last_Some_elem_of in Hl. split; [|by eapply splitPath_len].
  apply splitPath_good in Hs. rewrite Forall_forall in Hs. by apply Hs.
Qed.

Lemma walkParent_dir m path pino leaf :
  is_dir m RootIno = true -> walkParent m path = Ok (pino, leaf) -> is_dir m pino = true.
Proof.
  intros Hroot. unfold walkParent. destruct (splitPath path) as [parts|e|]; [|done..].
  destruct (last parts) as [l|]; [|done].
  assert (Hl : forall ps cur r, is_dir m cur = true -> walkParent_loop m cur ps = Ok r -> is_dir m r = true).
  { induction ps as [|x ps IH]; intros cur r Hc; cbn; [by intros [= <-]|].
    case_match; [|done]. case_match; [|done]. by apply IH. }
  destruct (walkParent_loop _ _ _) eqn:E; [|done..]. intros [= -> ->]. by eapply Hl.
Qed.

Lemma findDirent_live m parent name di :
  findDirent m parent name = Some di ->
  exists d, dirents m !! di = Some d /\ d_dead d = false /\ d_name d = name.
Proof.
  unfold findDirent. generalize (default [] (children m !! parent)).
  induction l as [|i l IH]; cbn; [done|]. destruct (dirents m !! i) as [d|] eqn:E; [|done].
  destruct (d_dead d) eqn:Hd; cbn; [done|]. case_bool_decide; [|done].
  intros [= <-]. eauto.
Qed.

Lemma findDirent_inode m parent name di :
  meta_wf m -> findDirent m parent name = Some di ->
  exists nd, inodes m !! dirent_ino m di = Some nd.
Proof.
  intros Hwf (d & Hd & _)%findDirent_live. unfold dirent_ino. rewrite Hd.
  by apply (mw_dirent _ Hwf) in Hd.
Qed.
