(* ===== verification/KfsOps.v ===== *)
(** * KfsOps: the operations of a mounted volume

    [durable k m] says that the log on the device replays to [m], that the
    live maps answer like [m], and that the live read cache is empty or
    right.  Every operation other than [Delete] keeps it, with the abstract
    effect of the operation on [m], unless the device is full; so mounting
    the device again gives back the same tree and the same contents. *)

From S2P Require Import Prelude Frame Crc32 BlockDev SectorIO KfsFormat KfsLog Paths KfsFs.
From S2P Require Import KfsMount KfsData KfsTree.

Section Ops.
Context {D : Type} `{BlockDevLaws D}.

(** [runs k c Q]: from [k] the computation ends in [Q], or the device is
    full; it never panics and fails with nothing else. *)
Definition runs {A} (k : KFS D) (c : M (KFS D) error A) (Q : A -> KFS D -> Prop) : Prop :=
  match c k with
  | (Ok a, k') => Q a k'
  | (Err e, _) => e = ErrNoSpace
  | (Panic, _) => False
  end.

Lemma runs_bind {A B} k (c : M (KFS D) error A) (f : A -> M (KFS D) error B) Q :
  runs k c (fun a k' => runs k' (f a) Q) -> runs k (c ≫= f) Q.
Proof. unfold runs, mbind, M_bind. by destruct (c k) as [[a|e|] k']. Qed.

Lemma runs_mono {A} k (c : M (KFS D) error A) (P Q : A -> KFS D -> Prop) :
  runs k c P -> (forall a k', P a k' -> Q a k') -> runs k c Q.
Proof. unfold runs. destruct (c k) as [[a|e|] k']; auto. Qed.

Lemma runs_ok {A} k (c : M (KFS D) error A) Q a k' :
  runs k c Q -> c k = (Ok a, k') -> Q a k'.
Proof. unfold runs. intros Hr E. by rewrite E in Hr. Qed.

(** The log on the device replays to [m]. *)
Definition logged (k : KFS D) (m : kfsMeta) : Prop :=
  exists rs, vol k rs /\ Forall data_exact rs /\ apply_all rs (empty_meta 0) = (Ok true, m).

Definition cache_ok (m live : kfsMeta) : Prop :=
  forall ino, content live ino = [] \/ content live ino = content m ino.

Record durable (k : KFS D) (m : kfsMeta) : Prop := mkDurable {
  du_log : logged k m;
  du_tree : same_tree m (meta k);
  du_next : nextIno m = nextIno (meta k);
  du_cache : cache_ok m (meta k);
  du_wf : meta_wf m;
}.

Lemma logged_set_meta k m m' : logged k m -> logged (set_meta k m') m.
Proof. intros (rs & Hv & Hrest). exists rs. split; [by apply vol_set_meta|done]. Qed.

Lemma append_runs k m m1 typ p :
  logged k m -> rec_ok (mkRecord typ p) -> data_exact (mkRecord typ p) -> typ ≠ RecCheckpoint ->
  apply typ p m = (Ok true, m1) ->
  0 <= nextIno (meta k) <= nextIno m1 -> nextIno (meta k) < 2 ^ 32 ->
  runs k (append typ p) (fun _ k' => logged k' m1 /\ meta k' = meta k).
Proof.
  intros (rs & Hv & Hex & Hap) Hr He Ht Ha Hn Hn2. unfold runs.
  destruct (append_cases k rs typ p Hv Hr Ht) as (k' & res & qs & -> & Hv' & Hm & Hc).
  assert (H1 : apply_all [mkRecord typ p] m = (Ok true, m1)) by (by apply apply_all_one).
  inversion Hc; subst; try done; (split; [|done]); eexists; (split; [done|]).
  - split; [apply Forall_app; split; [done|by apply Forall_singleton]|].
    by rewrite (apply_all_app _ _ _ _ Hap).
  - split; [apply Forall_app; split; [done|]; apply Forall_cons; split; [done|];
      apply Forall_singleton; by intros ?|].
    rewrite (apply_all_app _ _ _ _ Hap).
    change [mkRecord typ p; cp_rec (meta k)] with ([mkRecord typ p] ++ [cp_rec (meta k)]).
    rewrite (apply_all_app _ _ _ _ H1). apply apply_all_one.
    by apply apply_cp_rec.
Qed.

(** ** The records the operations append *)

Lemma inode_rec_ok n : rec_ok (mkRecord RecInode (kfsInodePayload n)).
Proof. unfold rec_ok. cbn [Payload]. rewrite kfsInodePayload_eq, zlen_InodePayload. unfold MaxPayload. lia. Qed.

Lemma append_inode_runs k m n :
  logged k m -> inode_fits n ->
  0 <= nextIno (meta k) <= nextIno (add_inode m n) -> nextIno (meta k) < 2 ^ 32 ->
  runs k (append RecInode (kfsInodePayload n))
    (fun _ k' => logged k' (add_inode m n) /\ meta k' = meta k).
Proof.
  intros Hl Hn H1 H2.
  apply append_runs with m; [done|apply inode_rec_ok|done|done|by apply apply_inode_rec|done|done].
Qed.

Lemma appendDirent_runs k m parent name ino :
  logged k m -> 0 <= parent < 2 ^ 32 -> 0 <= ino < 2 ^ 32 -> zlen name <= MaxPayload - 11 ->
  0 <= nextIno (meta k) <= nextIno m -> nextIno (meta k) < 2 ^ 32 ->
  runs k (appendDirent parent name ino)
    (fun _ k' => logged k' (link m parent name ino) /\ meta k' = link (meta k) parent name ino).
Proof.
  intros Hl Hp Hi Hn H1 H2. unfold MaxPayload in *. pose proof (zlen_nonneg name).
  unfold appendDirent. cbv zeta. rewrite dirent_payload_eq. apply runs_bind.
  eapply runs_mono.
  - apply (append_runs k m (link m parent name ino)); [done| |done|done| |done|done].
    + unfold rec_ok. cbn [Payload]. rewrite zlen_DirentPayload_create. unfold MaxPayload. lia.
    + apply apply_dirent_rec; lia.
  - intros _ k' [Hl' Hm']. split; [by apply logged_set_meta|]. cbn. by rewrite Hm'.
Qed.

Lemma appendData_runs k m ino off dat :
  logged k m -> 0 <= ino < 2 ^ 32 -> 0 <= off -> off + zlen dat < 2 ^ 32 ->
  zlen dat <= MaxPayload - 16 ->
  0 <= nextIno (meta k) <= nextIno m -> nextIno (meta k) < 2 ^ 32 ->
  runs k (appendData ino off dat)
    (fun _ k' => logged k' (set_data m (<[ino := write_at (content m ino) off dat]> (data m)))
                 /\ meta k' = meta k).
Proof.
  intros Hl Hi Ho Hb Hd H1 H2. pose proof (zlen_nonneg dat). unfold MaxPayload in *.
  assert (Hp : appendData ino off dat = append RecData (DataPayload ino off dat)).
  { unfold appendData, DataPayload. cbv zeta. by rewrite u32_small by lia. }
  rewrite Hp. apply append_runs with m; [done| | |done| |done|done].
  - unfold rec_ok. cbn [Payload]. rewrite zlen_DataPayload. unfold MaxPayload. lia.
  - apply data_rec_exact; lia.
  - by apply apply_data_rec.
Qed.

Lemma getMeta_bind {B} (f : kfsMeta -> M (KFS D) error B) k : (getMeta ≫= f) k = f (meta k) k.
Proof. done. Qed.

Lemma updMeta_bind {B} g (f : unit -> M (KFS D) error B) k :
  (updMeta g ≫= f) k = f tt (set_meta k (g (meta k))).
Proof. done. Qed.

(** ** A new node: the common part of [Create] and [Mkdir] *)

Definition make_node (kind : byte) (pino : Z) (leaf : list byte) (fin : Z -> kfsMeta -> kfsMeta)
  : M (KFS D) error unit :=
  ino ← allocIno;
  _ ← append RecInode (kfsInodePayload (mkInode ino 0 kind 0));
  _ ← appendDirent pino leaf ino;
  updMeta (fin ino).

Lemma make_node_runs k m kind pino leaf fin :
  durable k m -> nextIno m < 2 ^ 32 - 1 -> is_dir m pino = true ->
  findDirent m pino leaf = None -> zlen leaf <= MaxPayload - 11 ->
  (forall live, same_tree m live -> nextIno live = nextIno m + 1 -> cache_ok m live ->
     let live' := fin (nextIno m) (link live pino leaf (nextIno m)) in
     same_tree (new_node m kind pino leaf) live' /\ nextIno live' = nextIno m + 1
     /\ cache_ok (new_node m kind pino leaf) live') ->
  runs k (make_node kind pino leaf fin) (fun _ k' => durable k' (new_node m kind pino leaf)).
Proof.
  intros [Hl Ht Hn Hc Hwf] Hnext Hd Hnone Hleaf Hfin. pose proof (mw_next _ Hwf) as Hr.
  destruct (is_dir_lookup _ _ Hd) as (pd & Hpd & _).
  destruct (mw_inode _ Hwf _ _ Hpd) as (_ & Hp & _).
  pose proof (wf_new_node m kind pino leaf Hwf Hnext Hd Hnone) as Hwf'.
  set (k1 := set_meta k (set_nextIno (meta k) (u32 (nextIno (meta k) + 1)))).
  assert (Hn1 : nextIno (meta k1) = nextIno m + 1) by (cbn; rewrite u32_small; lia).
  assert (Hna : nextIno (add_inode m (mkInode (nextIno m) 0 kind 0)) = nextIno m + 1).
  { cbn. rewrite Z.leb_refl, u32_small by lia. done. }
  unfold make_node. change (runs k (allocIno ≫= ?f) ?Q) with (runs k1 (f (nextIno (meta k))) Q).
  rewrite <- Hn. apply runs_bind. eapply runs_mono.
  { apply (append_inode_runs k1 m); [by apply logged_set_meta| |lia..].
    unfold inode_fits. cbn. lia. }
  intros _ k2 [Hl2 Hm2]. apply runs_bind. eapply runs_mono.
  { apply (appendDirent_runs k2 _ pino leaf (nextIno m) Hl2); rewrite ?Hm2; lia. }
  intros _ k3 [Hl3 Hm3]. unfold runs, updMeta, modifyS.
  destruct (Hfin (meta k1)) as (Ht' & Hn' & Hc'); [|done|done|].
  { destruct Ht. by split. }
  split; [by apply logged_set_meta|..]; cbn [meta set_meta]; rewrite ?Hm3, ?Hm2; try done.
  unfold new_node. cbn [nextIno link set_children set_dirents]. lia.
Qed.

Lemma Create_runs k m path pino leaf :
  durable k m -> nextIno m < 2 ^ 32 - 1 -> zlen path <= 65526 ->
  walkParent m path = Ok (pino, leaf) -> findDirent m pino leaf = None ->
  runs k (Create path) (fun _ k' => durable k' (new_node m KindFile pino leaf)).
Proof.
  intros Hdu Hn Hp Hw Hf. destruct (walkParent_leaf _ _ _ _ Hw) as [_ Hl].
  pose proof (walkParent_dir _ _ _ _ (mw_root _ (du_wf _ _ Hdu)) Hw) as Hd.
  unfold runs, Create. rewrite getMeta_bind. pose proof Hw as Hw'. pose proof Hf as Hf'.
  rewrite (du_tree _ _ Hdu) in Hw', Hf'. rewrite Hw', bind_liftO, Hf'.
  apply (make_node_runs k m KindFile pino leaf); try done; [unfold MaxPayload; lia|].
  intros live [Ti Tc Td] Hnl Hc. split; [|split; [done|]].
  - split; cbn; rewrite ?Ti, ?Tc, ?Td; done.
  - intros j. unfold content at 1 2. cbn. destruct (decide (nextIno m = j)) as [<-|Hne].
    + left. by rewrite lookup_insert_eq.
    + rewrite lookup_insert_ne by done. apply Hc.
Qed.

Lemma Mkdir_runs k m path pino leaf :
  durable k m -> nextIno m < 2 ^ 32 - 1 -> zlen path <= 65526 ->
  walkParent m path = Ok (pino, leaf) -> findDirent m pino leaf = None ->
  runs k (Mkdir path) (fun _ k' => durable k' (new_node m KindDir pino leaf)).
Proof.
  intros Hdu Hn Hp Hw Hf. destruct (walkParent_leaf _ _ _ _ Hw) as [_ Hl].
  pose proof (walkParent_dir _ _ _ _ (mw_root _ (du_wf _ _ Hdu)) Hw) as Hd.
  unfold runs, Mkdir. rewrite getMeta_bind.
  pose proof (du_wf _ _ Hdu) as Hwf. pose proof Hw as Hw'. pose proof Hf as Hf'.
  rewrite (du_tree _ _ Hdu) in Hw', Hf'. rewrite Hw', bind_liftO, Hf'.
  apply (make_node_runs k m KindDir pino leaf); try done; [unfold MaxPayload; lia|].
  intros live [Ti Tc Td] Hnl Hc. split; [|split; [done|]].
  - destruct (is_dir_lookup _ _ Hd) as (nd & Hnd & _). pose proof (fresh_inode _ _ _ Hwf Hnd).
    assert (Hfresh : children m !! nextIno m = None).
    { destruct (children m !! nextIno m) eqn:E; [|done]. apply (mw_key _ Hwf) in E. lia. }
    split; cbn; rewrite ?Ti, <- ?Tc, ?Td, ?Hfresh; try done.
    rewrite bool_decide_true, lookup_insert_ne by done. by rewrite insert_insert_ne.
  - intros j. apply Hc.
Qed.

(** ** New contents of a file: the common part of [truncate] and [WriteFile] *)

Definition resize (ino : Z) (nd : kfsInode) (newSize : Z) : M (KFS D) error unit :=
  _ ← (if newSize =? i_size nd then mret tt
       else
         _ ← append RecInode (kfsInodePayload (mkInode ino (i_uid nd) (i_kind nd) newSize));
         updMeta (fun m => set_inodes m
           (<[ino := mkInode (i_ino nd) (i_uid nd) (i_kind nd) newSize]> (inodes m))));
  updMeta (fun m => set_data m (<[ino := []]> (data m))).

Lemma set_file_same m ino nd buf :
  inodes m !! ino = Some nd -> i_ino nd = ino -> zlen buf = i_size nd ->
  set_data m (<[ino := buf]> (data m)) = set_file m ino nd buf.
Proof.
  intros Hi Hn Hs. unfold set_data, set_file. f_equal. rewrite Hs.
  rewrite insert_id; [done|]. rewrite Hi. destruct nd. cbn in *. by subst.
Qed.

Lemma set_file_add m ino nd buf :
  i_kind nd ≠ KindDir -> ino < nextIno m ->
  add_inode (set_data m (<[ino := buf]> (data m))) (mkInode ino (i_uid nd) (i_kind nd) (zlen buf))
  = set_file m ino nd buf.
Proof.
  intros Hk Hn. unfold add_inode, set_file. cbn. rewrite bool_decide_false by done.
  by rewrite (proj2 (Z.leb_gt _ _)) by lia.
Qed.

Lemma resize_runs k k1 m ino nd buf :
  durable k m -> inodes m !! ino = Some nd -> i_kind nd ≠ KindDir -> zlen buf < 2 ^ 32 ->
  logged k1 (set_data m (<[ino := buf]> (data m))) -> meta k1 = meta k ->
  runs k1 (resize ino nd (zlen buf)) (fun _ k' => durable k' (set_file m ino nd buf)).
Proof.
  intros [Hl Ht Hn Hc Hwf] Hi Hk Hb Hl1 Hm1. pose proof (mw_next _ Hwf).
  destruct (mw_inode _ Hwf _ _ Hi) as (Hino & Hr & Hu & Hs & _). pose proof (zlen_nonneg buf).
  pose proof (wf_set_file m ino nd buf Hwf Hi Hk Hb) as Hwf'.
  assert (Hcache : forall live, data live = data (meta k) ->
    cache_ok (set_file m ino nd buf) (set_data live (<[ino := []]> (data live)))).
  { intros live Hd j. destruct (decide (ino = j)) as [<-|Hne]; [left; apply content_insert|].
    rewrite content_insert_ne by done. unfold content at 3, set_file. cbn [data].
    rewrite lookup_insert_ne by done. specialize (Hc j). unfold content in *. by rewrite Hd. }
  unfold resize. apply runs_bind. destruct (Z.eqb_spec (zlen buf) (i_size nd)) as [E|E].
  - change (runs k1 (mret tt) ?Q) with (Q tt k1). cbv beta.
    rewrite (set_file_same _ _ _ _ Hi Hino E) in Hl1.
    split; [by apply logged_set_meta|..]; cbn [meta set_meta]; rewrite ?Hm1; try done.
    + rewrite <- (set_file_same _ _ _ _ Hi Hino E). by destruct Ht.
    + by apply Hcache.
  - apply runs_bind. eapply runs_mono.
    { apply (append_inode_runs k1 _ _ Hl1); [by unfold inode_fits; cbn; lia|..];
        rewrite ?set_file_add, ?Hm1 by (done || lia); cbn [nextIno set_file]; lia. }
    intros _ k2 [Hl2 Hm2]. rewrite set_file_add in Hl2 by (done || lia).
    split; [by apply logged_set_meta, logged_set_meta|..];
      cbn [meta set_meta]; rewrite ?Hm2, ?Hm1; try done.
    + rewrite Hino. destruct Ht as [Ti Tc Td]. split; cbn; by rewrite ?Ti.
    + by apply Hcache.
Qed.

Lemma truncate_runs k m ino nd :
  durable k m -> inodes m !! ino = Some nd -> i_kind nd ≠ KindDir ->
  runs k (truncate ino) (fun _ k' => durable k' (set_file m ino nd [])).
Proof.
  intros Hdu Hi Hk. pose proof (mw_next _ (du_wf _ _ Hdu)) as Hr.
  destruct (mw_inode _ (du_wf _ _ Hdu) _ _ Hi) as (Hino & Hri & _).
  unfold truncate. cbv zeta. rewrite trunc_payload_eq. apply runs_bind. eapply runs_mono.
  { apply (append_runs k m (set_data m (<[ino := []]> (data m)))); [apply Hdu| |..].
    - done.
    - apply data_rec_exact; [done|done|by left].
    - done.
    - apply apply_trunc_rec. lia.
    - cbn. rewrite <- (du_next _ _ Hdu). lia.
    - rewrite <- (du_next _ _ Hdu). lia. }
  intros _ k1 [Hl1 Hm1]. unfold runs. rewrite getMeta_bind, Hm1.
  rewrite <- (st_inodes _ _ (du_tree _ _ Hdu)), Hi, Z.eqb_sym.
  by apply (resize_runs k k1 m ino nd []).
Qed.

Lemma Create_truncates k m path pino leaf di nd :
  durable k m -> walkParent m path = Ok (pino, leaf) -> findDirent m pino leaf = Some di ->
  inodes m !! dirent_ino m di = Some nd -> i_kind nd ≠ KindDir ->
  runs k (Create path) (fun _ k' => durable k' (set_file m (dirent_ino m di) nd [])).
Proof.
  intros Hdu Hw Hf Hi Hk. unfold runs, Create. rewrite getMeta_bind.
  pose proof (truncate_runs k m _ nd Hdu Hi Hk) as Ht.
  rewrite (du_tree _ _ Hdu) in Hw, Hf. rewrite Hw, bind_liftO, Hf.
  rewrite <- (dirent_ino_proper _ _ (du_tree _ _ Hdu) _ _ eq_refl).
  unfold is_dir. rewrite <- (st_inodes _ _ (du_tree _ _ Hdu)), Hi, bool_decide_false by done. done.
Qed.

Lemma WriteFile_runs k m path off dat pino leaf di nd :
  durable k m -> walkParent m path = Ok (pino, leaf) -> findDirent m pino leaf = Some di ->
  inodes m !! dirent_ino m di = Some nd -> i_kind nd ≠ KindDir ->
  0 <= off -> off + zlen dat < 2 ^ 32 -> zlen dat <= MaxPayload - 16 ->
  runs k (WriteFile path off dat)
    (fun _ k' => durable k' (set_file m (dirent_ino m di) nd
                               (write_at (content m (dirent_ino m di)) off dat))).
Proof.
  intros Hdu Hw Hf Hi Hk Ho Hb Hd. unfold runs, WriteFile. rewrite getMeta_bind.
  set (ino := dirent_ino m di) in *. pose proof (zlen_nonneg dat).
  pose proof (mw_next _ (du_wf _ _ Hdu)) as Hr. pose proof (du_next _ _ Hdu) as Hnx.
  destruct (mw_inode _ (du_wf _ _ Hdu) _ _ Hi) as (Hino & Hri & _ & Hs & Hsz).
  rewrite (du_tree _ _ Hdu) in Hw, Hf. rewrite Hw, bind_liftO, Hf.
  rewrite <- (dirent_ino_proper _ _ (du_tree _ _ Hdu) _ _ eq_refl). fold ino.
  rewrite <- (st_inodes _ _ (du_tree _ _ Hdu)), Hi, bool_decide_false by done.
  apply runs_bind. eapply runs_mono.
  { apply (appendData_runs k m); [apply Hdu|lia..]. }
  intros _ k1 [Hl1 Hm1].
  assert (Hsize : (if i_size nd <? u64 (off + zlen dat) then u32 (u64 (off + zlen dat)) else i_size nd)
    = zlen (write_at (content m ino) off dat)).
  { rewrite zlen_write_at, <- Hsz by done. rewrite u64_small, u32_small by lia.
    destruct (Z.ltb_spec (i_size nd) (off + zlen dat)); lia. }
  cbv zeta. rewrite Hsize. apply (resize_runs k k1); try done.
  rewrite zlen_write_at, <- Hsz by done. lia.
Qed.

Lemma SetUID_runs k m path uid pino leaf di nd :
  durable k m -> walkParent m path = Ok (pino, leaf) -> findDirent m pino leaf = Some di ->
  inodes m !! dirent_ino m di = Some nd -> 0 <= uid < 2 ^ 32 ->
  runs k (SetUID path uid)
    (fun _ k' => durable k' (add_inode m (mkInode (dirent_ino m di) uid (i_kind nd) (i_size nd)))).
Proof.
  intros Hdu Hw Hf Hi Hu. unfold runs, SetUID. rewrite getMeta_bind.
  set (ino := dirent_ino m di) in *. pose proof Hdu as [Hl Ht Hn Hc Hwf].
  pose proof (mw_next _ Hwf) as Hr. pose proof (wf_set_uid _ _ _ _ Hwf Hi Hu) as Hwf'.
  destruct (mw_inode _ Hwf _ _ Hi) as (Hino & Hri & _ & Hs & Hsz).
  rewrite Ht in Hw, Hf. rewrite Hw, bind_liftO, Hf.
  rewrite <- (dirent_ino_proper _ _ Ht _ _ eq_refl). fold ino.
  rewrite <- (st_inodes _ _ Ht), Hi, Hino. apply runs_bind. eapply runs_mono.
  { apply (append_inode_runs k m); [done|unfold inode_fits; cbn; lia|..]; [|lia].
    cbn. rewrite (proj2 (Z.leb_gt _ _)) by lia. lia. }
  intros _ k1 [Hl1 Hm1]. split; [by apply logged_set_meta|..]; cbn [meta set_meta]; rewrite ?Hm1; try done.
  - destruct Ht as [Ti Tc Td]. split; cbn; rewrite ?Ti, ?Td; try done. rewrite <- Tc.
    case_bool_decide as Hk; [|done]. by destruct (mw_dir _ Hwf _ _ Hi Hk) as [l ->].
  - cbn. rewrite (proj2 (Z.leb_gt _ _)) by lia. done.
Qed.

(** ** Reading *)

(** What a read returns: the bytes of the contents in the range, clipped. *)
Definition read_spec (m : kfsMeta) (path : list byte) (off n : Z) : outcome error (list byte) :=
  if n =? 0 then Ok []
  else
    '(pino, leaf) ← walkParent m path;
    match findDirent m pino leaf with
    | None => Err ErrNoEntry
    | Some di =>
        if is_dir m (dirent_ino m di) then Err ErrIsDir
        else Ok (slice (content m (dirent_ino m di)) off (off + n))
    end.

Lemma durable_same_img k k' m : durable k m -> same_img k k' -> durable k' m.
Proof.
  intros [(rs & Hv & Hrest) Ht Hn Hc Hwf] Hs. pose proof (si_meta _ _ Hs) as Hm.
  split; rewrite ?Hm; try done. exists rs. split; [by eapply vol_same|done].
Qed.

Lemma durable_cache k m ino buf :
  durable k m -> buf = content m ino ->
  durable (set_meta k (set_data (meta k) (<[ino := buf]> (data (meta k))))) m.
Proof.
  intros [Hl [] Hn Hc Hwf] ->. split; try done; [by apply logged_set_meta|].
  intros j. cbn [meta set_meta]. destruct (decide (ino = j)) as [<-|Hne].
  - right. apply content_insert.
  - rewrite content_insert_ne by done. apply Hc.
Qed.

Lemma slice_clip {A} (l : list A) off n :
  0 <= off < zlen l -> slice l off (off + Z.min (zlen l - off) n) = slice l off (off + n).
Proof.
  intros Ho. destruct (Z.le_gt_cases n (zlen l - off)); [f_equal; lia|].
  replace (off + Z.min (zlen l - off) n) with (zlen l) by lia.
  unfold slice. rewrite !take_ge; rewrite ?length_drop; unfold zlen in *; try done; lia.
Qed.

Lemma slice_past {A} (l : list A) off n : zlen l <= off -> slice l off n = [].
Proof. intros. unfold slice, zlen in *. rewrite drop_ge by lia. apply take_nil. Qed.

Lemma ReadFile_ok k m path off n :
  durable k m -> 0 <= off -> 0 <= n ->
  exists k', ReadFile path off n k = (read_spec m path off n, k') /\ durable k' m.
Proof.
  intros Hdu Ho Hn. unfold ReadFile, read_spec. destruct (Z.eqb_spec n 0) as [_|Hn0]; [by exists k|].
  rewrite getMeta_bind. pose proof (du_tree _ _ Hdu) as Ht.
  rewrite (walkParent_proper _ _ Ht _ _ eq_refl).
  destruct (walkParent (meta k) path) as [[pino leaf]|e|] eqn:Hw; [|by exists k..].
  rewrite bind_liftO. cbn [mbind outcome_bind].
  rewrite (findDirent_proper _ _ Ht _ _ eq_refl _ _ eq_refl).
  destruct (findDirent (meta k) pino leaf) as [di|] eqn:Hf; [|by exists k].
  rewrite <- Ht in Hf. destruct (findDirent_inode _ _ _ _ (du_wf _ _ Hdu) Hf) as [nd Hi].
  rewrite !(dirent_ino_proper _ _ Ht _ _ eq_refl) in *. set (ino := dirent_ino (meta k) di) in *.
  cbv zeta. rewrite !(is_dir_proper _ _ Ht _ _ eq_refl).
  destruct (is_dir (meta k) ino) eqn:Hd; [by exists k|].
  rewrite <- (st_inodes _ _ Ht), Hi.
  destruct (mw_inode _ (du_wf _ _ Hdu) _ _ Hi) as (_ & _ & _ & Hs & Hsz).
  assert (Hk : i_kind nd ≠ KindDir).
  { intros Hk. unfold is_dir in Hd. rewrite <- (st_inodes _ _ Ht), Hi in Hd.
    by rewrite bool_decide_true in Hd. }
  rewrite (Hsz Hk) in *. destruct (Z.leb_spec (zlen (content m ino)) off) as [Hle|Hlt].
  { exists k. by rewrite slice_past by done. }
  fold (content (meta k) ino).
  destruct (Z.leb_spec (zlen (content m ino)) (zlen (content (meta k) ino))) as [Hc|Hc].
  { exists k. destruct (du_cache _ _ Hdu ino) as [E|E]; rewrite E in *.
    - change (zlen (@nil byte)) with 0 in Hc. lia.
    - by rewrite slice_clip by lia. }
  destruct (du_log _ _ Hdu) as (rs & Hv & Hex & Hap).
  destruct (replayData_ok k rs m ino (zlen (content m ino)) Hv Hex Hap) as (k1 & Hs1 & Hr);
    [apply zlen_nonneg|]. rewrite window_exact in Hr.
  rewrite (bind_ok _ _ _ _ _ Hr), updMeta_bind, slice_clip by lia.
  eexists. split; [done|]. apply durable_cache; [|done]. by eapply durable_same_img.
Qed.

(** ** Mounting again *)

Lemma remount k m :
  durable k m ->
  exists k', MountKFS (dev k) = (Ok k', dev k') /\ durable k' m /\ meta k' = m
    /\ wOff k' = wOff k.
Proof.
  intros [(rs & Hv & Hex & Hap) Ht Hn Hc Hwf].
  destruct (MountKFS_ok (dev k) (wOff k) rs m) as (k' & Hm & Hv' & Hmeta & _ & Hi);
    [by apply vol_holds|apply Hv|done|].
  exists k'. split; [done|]. split; [|split; [done|]].
  - split; rewrite ?Hmeta; try done; [by exists rs|by right].
  - rewrite (la_end _ _ _ (vo_log _ _ Hv')). by rewrite (la_end _ _ _ (vo_log _ _ Hv)).
Qed.

(** Two volumes over the same replayed state answer every query alike. *)
Definition same_answers (k1 k2 : KFS D) : Prop :=
  forall path,
    Stat (meta k1) path = Stat (meta k2) path
    /\ List (meta k1) path = List (meta k2) path
    /\ UID (meta k1) path = UID (meta k2) path
    /\ forall off n, 0 <= off -> 0 <= n ->
         fst (ReadFile path off n k1) = fst (ReadFile path off n k2).

Lemma durable_answers k1 k2 m : durable k1 m -> durable k2 m -> same_answers k1 k2.
Proof.
  intros H1 H2 path. assert (Ht : same_tree (meta k1) (meta k2))
    by (rewrite <- (du_tree _ _ H1), <- (du_tree _ _ H2); done).
  rewrite Ht. do 3 (split; [done|]). intros off n Ho Hn.
  destruct (ReadFile_ok k1 m path off n H1 Ho Hn) as (? & -> & _).
  by destruct (ReadFile_ok k2 m path off n H2 Ho Hn) as (? & -> & _).
Qed.
End Ops.
