(* ===== verification/KfsHistory.v ===== *)
(** * KfsHistory: from a blank device through any sequence of operations

    The formatted volume, one operation in every case, a whole history, and
    the two places where a history does not survive a mount: a delete, and a
    write at an offset past 63 bits. *)

From S2P Require Import Prelude Frame Crc32 BlockDev SectorIO KfsFormat KfsLog Paths KfsFs.
From S2P Require Import KfsMount KfsData KfsTree KfsOps.

(** The requests of the file service that reach the volume, [Delete] apart. *)
Inductive fsop :=
| OCreate (path : list byte)
| OMkdir (path : list byte)
| OWrite (path : list byte) (off : Z) (dat : list byte)
| OSetUID (path : list byte) (uid : Z)
| ORead (path : list byte) (off n : Z).

(** What a request's fields satisfy: a path that fits its record, a chunk
    that fits one record, a file below 4 GiB. *)
Definition op_fits (o : fsop) : Prop :=
  match o with
  | OCreate p | OMkdir p => zlen p <= 65526
  | OWrite p off dat => 0 <= off /\ off + zlen dat < 2 ^ 32 /\ zlen dat <= MaxPayload - 16
  | OSetUID p uid => 0 <= uid < 2 ^ 32
  | ORead p off n => 0 <= off /\ 0 <= n
  end.

Section History.
Context {D : Type} `{BlockDevLaws D}.

Definition exec (o : fsop) : M (KFS D) error (list byte) :=
  match o with
  | OCreate p => _ ← Create p; mret []
  | OMkdir p => _ ← Mkdir p; mret []
  | OWrite p off dat => _ ← WriteFile p off dat; mret []
  | OSetUID p uid => _ ← SetUID p uid; mret []
  | ORead p off n => ReadFile p off n
  end.

(** A client's session: requests that fail leave the volume to the next one;
    a full device ends the session. *)
Fixpoint run (os : list fsop) (k : KFS D) : option (KFS D) :=
  match os with
  | [] => Some k
  | o :: os =>
      match exec o k with
      | (Ok _, k') => run os k'
      | (Err e, k') => if decide (e = ErrNoSpace) then None else run os k'
      | (Panic, _) => None
      end
  end.

(** One operation, every case: success on a durable volume, a refusal that
    changes nothing, or a full device. *)
Definition ends {A} (k : KFS D) (m : kfsMeta) (c : M (KFS D) error A) : Prop :=
  match c k with
  | (Ok _, k') => exists m', durable k' m' /\ nextIno m' <= nextIno m + 1
  | (Err e, k') => e = ErrNoSpace \/ k' = k
  | (Panic, _) => False
  end.

Lemma runs_ends {A} k m m' (c : M (KFS D) error A) :
  runs k c (fun _ k' => durable k' m') -> nextIno m' <= nextIno m + 1 -> ends k m c.
Proof. unfold runs, ends. destruct (c k) as [[a|e|] k']; eauto. Qed.

Lemma ends_ret {A} k m (c : M (KFS D) error A) :
  ends k m c -> ends k m (_ ← c; mret (@nil byte)).
Proof. unfold ends, mbind, M_bind. by destruct (c k) as [[a|e|] k']. Qed.

(** The lookups every operation starts with. *)
Inductive target (m : kfsMeta) (path : list byte) : Prop :=
| t_bad e : walkParent m path = Err e -> target m path
| t_none pino leaf : walkParent m path = Ok (pino, leaf) -> findDirent m pino leaf = None ->
    target m path
| t_some pino leaf di nd : walkParent m path = Ok (pino, leaf) ->
    findDirent m pino leaf = Some di -> inodes m !! dirent_ino m di = Some nd -> target m path.

Lemma walkParent_no_panic m path : walkParent m path ≠ Panic.
Proof.
  unfold walkParent. repeat case_match; try done.
  assert (Hl : forall ps cur, walkParent_loop m cur ps ≠ Panic).
  { induction ps as [|x ps IH]; intros cur; cbn; [done|]. repeat case_match; try done. }
  specialize (Hl (take (length a - 1) a) RootIno). by destruct (walkParent_loop _ _ _).
Qed.

Lemma target_cases m path : meta_wf m -> target m path.
Proof.
  intros Hwf. destruct (walkParent m path) as [[pino leaf]|e|] eqn:Hw.
  - destruct (findDirent m pino leaf) as [di|] eqn:Hf; [|by eapply t_none].
    destruct (findDirent_inode _ _ _ _ Hwf Hf) as [nd Hi]. by eapply t_some.
  - by eapply t_bad.
  - by apply walkParent_no_panic in Hw.
Qed.

Section One.
Variables (k : KFS D) (m : kfsMeta).
Hypothesis Hdu : durable k m.
Hypothesis Hnext : nextIno m < 2 ^ 32 - 1.

Let Ht := du_tree _ _ Hdu.

Lemma new_node_next kind pino leaf : nextIno (new_node m kind pino leaf) <= nextIno m + 1.
Proof using Hdu Hnext.
  pose proof (mw_next _ (du_wf _ _ Hdu)). cbn. rewrite Z.leb_refl, u32_small by lia. done.
Qed.

Lemma Create_ends path : zlen path <= 65526 -> ends k m (Create path).
Proof using Hdu Hnext.
  intros Hp. destruct (target_cases m path (du_wf _ _ Hdu)) as [e Hw|pino leaf Hw Hf|pino leaf di nd Hw Hf Hi].
  - unfold ends, Create. rewrite getMeta_bind, <- (walkParent_proper _ _ Ht _ _ eq_refl), Hw. by right.
  - eapply runs_ends; [by apply Create_runs|apply new_node_next].
  - destruct (decide (i_kind nd = KindDir)) as [Hk|Hk].
    + unfold ends, Create. rewrite getMeta_bind, <- (walkParent_proper _ _ Ht _ _ eq_refl), Hw.
      rewrite bind_liftO, <- (findDirent_proper _ _ Ht _ _ eq_refl _ _ eq_refl), Hf.
      unfold is_dir. tree_rw Ht. rewrite <- (st_inodes _ _ Ht).
      rewrite (dirent_ino_proper _ _ Ht _ _ eq_refl) in Hi. rewrite Hi, bool_decide_true by done. by right.
    + eapply runs_ends; [by apply (Create_truncates k m path pino leaf di nd)|cbn; lia].
Qed.

Lemma Mkdir_ends path : zlen path <= 65526 -> ends k m (Mkdir path).
Proof using Hdu Hnext.
  intros Hp. destruct (target_cases m path (du_wf _ _ Hdu)) as [e Hw|pino leaf Hw Hf|pino leaf di nd Hw Hf Hi].
  - unfold ends, Mkdir. rewrite getMeta_bind, <- (walkParent_proper _ _ Ht _ _ eq_refl), Hw. by right.
  - eapply runs_ends; [by apply Mkdir_runs|apply new_node_next].
  - unfold ends, Mkdir. rewrite getMeta_bind, <- (walkParent_proper _ _ Ht _ _ eq_refl), Hw.
    rewrite bind_liftO, <- (findDirent_proper _ _ Ht _ _ eq_refl _ _ eq_refl), Hf. by right.
Qed.

Lemma WriteFile_ends path off dat :
  0 <= off -> off + zlen dat < 2 ^ 32 -> zlen dat <= MaxPayload - 16 ->
  ends k m (WriteFile path off dat).
Proof using Hdu Hnext.
  intros Ho Hb Hd.
  destruct (target_cases m path (du_wf _ _ Hdu)) as [e Hw|pino leaf Hw Hf|pino leaf di nd Hw Hf Hi].
  1-2: unfold ends, WriteFile; rewrite getMeta_bind, <- (walkParent_proper _ _ Ht _ _ eq_refl), Hw.
  - by right.
  - rewrite bind_liftO, <- (findDirent_proper _ _ Ht _ _ eq_refl _ _ eq_refl), Hf. by right.
  - destruct (decide (i_kind nd = KindDir)) as [Hk|Hk].
    + unfold ends, WriteFile. rewrite getMeta_bind, <- (walkParent_proper _ _ Ht _ _ eq_refl), Hw.
      rewrite bind_liftO, <- (findDirent_proper _ _ Ht _ _ eq_refl _ _ eq_refl), Hf.
      rewrite <- (dirent_ino_proper _ _ Ht _ _ eq_refl), <- (st_inodes _ _ Ht), Hi.
      rewrite bool_decide_true by done. by right.
    + eapply runs_ends; [by apply (WriteFile_runs k m path off dat pino leaf di nd)|cbn; lia].
Qed.

Lemma SetUID_ends path uid : 0 <= uid < 2 ^ 32 -> ends k m (SetUID path uid).
Proof using Hdu Hnext.
  intros Hu. destruct (target_cases m path (du_wf _ _ Hdu)) as [e Hw|pino leaf Hw Hf|pino leaf di nd Hw Hf Hi].
  1-2: unfold ends, SetUID; rewrite getMeta_bind, <- (walkParent_proper _ _ Ht _ _ eq_refl), Hw.
  - by right.
  - rewrite bind_liftO, <- (findDirent_proper _ _ Ht _ _ eq_refl _ _ eq_refl), Hf. by right.
  - eapply runs_ends; [by apply (SetUID_runs k m path uid pino leaf di nd)|].
    destruct (mw_inode _ (du_wf _ _ Hdu) _ _ Hi) as (_ & Hr & _).
    cbn. rewrite (proj2 (Z.leb_gt _ _)) by lia. lia.
Qed.

Lemma ReadFile_ends path off n : 0 <= off -> 0 <= n ->
  match ReadFile path off n k with
  | (Ok _, k') | (Err _, k') => durable k' m
  | (Panic, _) => False
  end.
Proof using Hdu.
  intros Ho Hn. destruct (ReadFile_ok k m path off n Hdu Ho Hn) as (k' & -> & Hd).
  unfold read_spec. destruct (n =? 0); [done|]. destruct (walkParent m path) as [[]|e|] eqn:Hw; cbn;
    [|done|by apply walkParent_no_panic in Hw].
  destruct (findDirent _ _ _); [|done]. by destruct (is_dir _ _).
Qed.
End One.

(** A request on a durable volume leaves a durable volume, unless the device
    is full. *)
Lemma exec_durable o k m :
  durable k m -> nextIno m < 2 ^ 32 - 1 -> op_fits o ->
  match exec o k with
  | (Ok _, k') => exists m', durable k' m' /\ nextIno m' <= nextIno m + 1
  | (Err e, k') => e = ErrNoSpace \/ durable k' m
  | (Panic, _) => False
  end.
Proof.
  intros Hdu Hn Hf. destruct o; cbn [exec op_fits] in *.
  5:{ destruct Hf as [Ho Hn0]. pose proof (ReadFile_ends k m Hdu path off n Ho Hn0) as Hr.
      destruct (ReadFile path off n k) as [[a|e|] k']; [|by right|done].
      exists m. split; [done|lia]. }
  1: pose proof (ends_ret _ _ _ (Create_ends k m Hdu Hn path Hf)) as He.
  2: pose proof (ends_ret _ _ _ (Mkdir_ends k m Hdu Hn path Hf)) as He.
  3: destruct Hf as (? & ? & ?);
     assert (He := ends_ret _ _ _ (WriteFile_ends k m Hdu Hn path off dat ltac:(done) ltac:(done) ltac:(done))).
  4: pose proof (ends_ret _ _ _ (SetUID_ends k m Hdu Hn path uid Hf)) as He.
  all: unfold ends in He; match type of He with match ?x with _ => _ end => destruct x as [[a|e|] k'] end; [done| |done];
    destruct He as [-> | ->]; auto.
Qed.

Lemma run_durable os k k' m :
  durable k m -> Forall op_fits os -> nextIno m + Z.of_nat (length os) < 2 ^ 32 ->
  run os k = Some k' -> exists m', durable k' m'.
Proof.
  revert k m. induction os as [|o os IH]; intros k m Hdu Hf Hn Hr.
  { injection Hr as <-. by exists m. }
  apply Forall_cons in Hf as [Ho Hf]. cbn [length] in Hn. cbn [run] in Hr.
  pose proof (exec_durable o k m Hdu ltac:(lia) Ho) as He.
  destruct (exec o k) as [[a|e|] k1]; [..|done].
  - destruct He as (m1 & Hd1 & Hn1). by apply (IH k1 m1); [..|lia|].
  - destruct (decide (e = ErrNoSpace)); [done|]. destruct He as [->|Hd1]; [done|].
    by apply (IH k1 m); [..|lia|].
Qed.

(** ** The formatted volume *)

Definition root_rec : Record_ := mkRecord RecInode (kfsInodePayload (mkInode RootIno 0 KindDir 0)).
Definition fresh_log : list Record_ := [root_rec; mkRecord RecCheckpoint (CheckpointPayload 2)].
Definition fresh_meta : kfsMeta :=
  mkMeta {[ RootIno := mkInode RootIno 0 KindDir 0 ]} {[ RootIno := [] ]} [] ∅ 2.

Lemma fresh_log_size : zlen (encode_log fresh_log) = 35.
Proof. reflexivity. Qed.

Lemma fresh_log_applies : apply_all fresh_log (empty_meta 0) = (Ok true, fresh_meta).
Proof. reflexivity. Qed.

Lemma fresh_meta_wf : meta_wf fresh_meta.
Proof.
  unfold fresh_meta. split; cbn [nextIno inodes children data dirents].
  - lia.
  - intros ino nd [<- <-]%lookup_singleton_Some. cbn. unfold RootIno. repeat split; lia.
  - intros p l i [<- <-]%lookup_singleton_Some ?%elem_of_nil. done.
  - by intros p l i j di dj [<- <-]%lookup_singleton_Some ?%elem_of_nil.
  - intros p l [<- _]%lookup_singleton_Some. unfold RootIno. lia.
  - by intros ino b ?%lookup_empty_Some.
  - done.
  - intros ino nd [<- <-]%lookup_singleton_Some _. by rewrite lookup_singleton_eq.
  - done.
Qed.

(** Formatting writes the superblock and two records, and nothing else. *)
Lemma FormatKFS_img d n :
  blk_wf d -> zlen (blk_img d) = 512 * n -> 16 <= n ->
  exists d', FormatKFS d = (Ok tt, d') /\ blk_wf d'
    /\ blk_img d' = splice (splice (blk_img d) 0 (EncodeSuperblock (mkSuperblock 512 n 1 1)))
                      LogStart (encode_log fresh_log).
Proof.
  intros Hwf Hlen Hn16. destruct (blk_geometry_ok d Hwf) as (n' & Hg & Hlen' & Hn).
  assert (n' = n) as -> by lia. unfold FormatKFS. rewrite Hg.
  rewrite (proj2 (Z.ltb_ge _ _)) by lia. change (negb (512 =? 512) || false) with false.
  cbv iota zeta. set (sb := Put32 _ 20 1).
  assert (Hsb : sb = EncodeSuperblock (mkSuperblock 512 n 1 1)) by done. rewrite Hsb. clear sb Hsb.
  set (sb := EncodeSuperblock _). assert (Hzs : zlen sb = 512) by apply zlen_EncodeSuperblock.
  destruct (blk_write_ok d 0 sb) as (d1 & Hw & Hwf1 & Himg1); [done|lia|lia|by rewrite Hzs|lia|].
  rewrite Hw. change (0 * 512) with 0 in Himg1.
  assert (Hend : i64 (i64 n * 512) = 512 * n) by (rewrite (i64_small n), i64_small by lia; lia).
  rewrite Hend. set (k := mkKFS d1 n _ _ _ _ _).
  assert (Hk : kfs_ok k).
  { split; unfold k, img; cbn [dev numBlocks logEnd logData]; rewrite ?Himg1, ?zlen_splice by lia; done. }
  destruct (append_raw_img k RecInode (kfsInodePayload (mkInode RootIno 0 KindDir 0)) Hk)
    as (k1 & Ha1 & Hk1 & Hi1 & Hw1 & Hm1 & Hr1 & He1); [done|cbn [logEnd wOff k]; change (rec_size _) with 22; unfold LogStart; lia|].
  set (k1' := set_recs k1 (recs k1 + 1)).
  assert (Ha1' : append RecInode (kfsInodePayload (mkInode RootIno 0 KindDir 0)) k = (Ok tt, k1')).
  { unfold append. rewrite (bind_ok _ _ _ _ _ Ha1), bool_decide_false by done.
    rewrite bind_modifyS, bind_getS. fold k1'. unfold k1'. cbn [recs set_recs]. by rewrite Hr1. }
  rewrite (bind_ok _ _ _ _ _ Ha1').
  destruct (append_raw_img k1' RecCheckpoint (CheckpointPayload 2))
    as (k2 & Ha2 & Hk2 & Hi2 & Hw2 & _); [by destruct Hk1; split|cbn; rewrite Hw1; done|..].
  { cbn [wOff logEnd k1' set_recs]. rewrite Hw1, He1. cbn [wOff logEnd k].
    change (rec_size _) with 22 at 1. change (rec_size _) with 13. unfold LogStart. lia. }
  assert (Hcp : appendCheckpoint k1' = (Ok tt, k2)).
  { unfold appendCheckpoint. rewrite bind_getS, checkpoint_payload_eq. cbn [meta k1' set_recs].
    by rewrite Hm1. }
  rewrite Hcp. exists (dev k2). split; [done|]. split; [apply Hk2|].
  change (blk_img (dev k2)) with (img k2). rewrite Hi2. change (img k1') with (img k1).
  change (wOff k1') with (wOff k1). rewrite Hi1, Hw1. change (img k) with (blk_img d1).
  rewrite Himg1. change (wOff k) with LogStart. rewrite <- zlen_enc.
  rewrite splice_app; [done|done|]. rewrite zlen_splice, !zlen_enc by lia.
  change (rec_size _) with 22 at 1. change (rec_size _) with 13. unfold LogStart. lia.
Qed.

(** ** A blank device, formatted and mounted *)

Lemma format_mount d n :
  blk_wf d -> zlen (blk_img d) = 512 * n -> 16 <= n -> all_zero (blk_img d) ->
  exists d' k, FormatKFS d = (Ok tt, d') /\ MountKFS d' = (Ok k, dev k)
    /\ durable k fresh_meta /\ vol k fresh_log.
Proof.
  intros Hwf Hlen Hn Hz. destruct (FormatKFS_img d n Hwf Hlen Hn) as (d' & Hf & Hwf' & Himg).
  set (sb := EncodeSuperblock _) in Himg. assert (Hzs : zlen sb = 512) by apply zlen_EncodeSuperblock.
  pose proof fresh_log_size as Hfl. unfold LogStart in *.
  assert (Hl1 : zlen (splice (blk_img d) 0 sb) = 512 * n) by (rewrite zlen_splice; lia).
  assert (Hl : zlen (blk_img d') = 512 * n) by (rewrite Himg, zlen_splice; lia).
  assert (Hlog : log_at (blk_img d') 547 fresh_log).
  { split; [by rewrite Hfl|lia| |by repeat constructor].
    rewrite Himg. change 547 with (512 + zlen (encode_log fresh_log)). unfold LogStart.
    apply slice_splice_same; lia. }
  assert (Hsb : slice (blk_img d') 0 512 = sb).
  { rewrite Himg, slice_splice_before by lia. rewrite <- Hzs at 1. apply slice_splice_same; lia. }
  assert (Htail : all_zero (slice (blk_img d') 547 (zlen (blk_img d')))).
  { rewrite Hl, Himg, slice_splice_after, slice_splice_after by lia.
    rewrite <- (slice_full (blk_img d) (zlen (blk_img d)) eq_refl) in Hz.
    rewrite (slice_app_split _ 0 547), Hlen in Hz by lia. by apply Forall_app in Hz as [_ Hz]. }
  destruct (MountKFS_ok d' 547 fresh_log fresh_meta) as (k & Hm & Hv & Hmeta & _);
    [split; eauto|done|apply fresh_log_applies|].
  exists d', k. split; [done|]. split; [done|].
  split; [|done]. split; rewrite ?Hmeta; [|done|done|by left|apply fresh_meta_wf].
  exists fresh_log. split; [done|]. split; [by repeat constructor|apply fresh_log_applies].
Qed.

(** ** Deleting *)

Definition del_payload (parent : Z) (name : list byte) : list byte :=
  DirentPayload parent DirentDelete name 0.

(** [apply] wants an inode number after the name of every dirent record; the
    delete record has none, so it is refused and ends the scan. *)
Lemma apply_delete_refused parent name m :
  zlen name < 2 ^ 16 -> apply RecDirent (del_payload parent name) m = (Ok false, m).
Proof.
  intros Hn. pose proof (zlen_nonneg name). unfold apply, del_payload.
  rewrite bool_decide_false, bool_decide_true by done.
  rewrite zlen_DirentPayload_delete, DirentPayload_delete.
  rewrite (proj2 (Z.ltb_ge _ _)) by lia. cbv zeta.
  rewrite <- (app_nil_r (AppendLStr _ _)), dirent_name_create by done.
  by rewrite (proj2 (Z.ltb_lt _ _)) by lia.
Qed.

(** The scan of a volume reaches every record the ones before it allow. *)
Lemma scan_reaches k rs m r qs :
  vol k (rs ++ r :: qs) -> apply_all rs (empty_meta 0) = (Ok true, m) ->
  let im := blk_img (dev k) in
  let pos := LogStart + zlen (encode_log rs) in
  exists fuel,
    replay_img (S (Z.to_nat (zlen im))) im LogStart (zlen im) (empty_meta 0) =
    (ok ← apply (Type_ r) (Payload r);
     if (ok : bool) then replay_img fuel im (pos + rec_size r) (zlen im) else mret pos) m.
Proof.
  intros Hv Hap im pos. pose proof (vo_log _ _ Hv) as Hlog. pose proof (vol_wOff _ _ Hv) as Hw.
  destruct (log_at_split _ _ _ _ Hlog) as [Hrs _].
  pose proof (la_fits _ _ _ Hrs) as Hfit. pose proof (length_log rs) as Hlen.
  unfold img in *. fold im in Hlog, Hw, Hrs, Hfit.
  exists (Z.to_nat (zlen im) - length rs)%nat. set (fuel := (Z.to_nat (zlen im) - length rs)%nat).
  assert (Hfuel : S (Z.to_nat (zlen im)) = (length rs + S fuel)%nat)
    by (unfold fuel, LogStart in *; lia).
  pose proof (replay_img_log (S fuel) im _ [] rs (zlen im) (empty_meta 0) m Hrs Hfit Hap) as Hstep.
  change (LogStart + zlen (encode_log [])) with LogStart in Hstep. rewrite Hfuel, Hstep.
  cbn [replay_img]. by rewrite (guest_rec_log _ _ _ _ _ _ Hlog (proj2 Hw)).
Qed.

Lemma mount_stops_at k rs m r qs :
  vol k (rs ++ r :: qs) -> apply_all rs (empty_meta 0) = (Ok true, m) ->
  apply (Type_ r) (Payload r) m = (Ok false, m) ->
  exists k2, MountKFS (dev k) = (Ok k2, dev k2) /\ meta k2 = m
    /\ wOff k2 = LogStart + zlen (encode_log rs).
Proof.
  intros Hv Hap Hr. pose proof (MountKFS_scan _ _ _ (vol_holds _ _ Hv)) as Hs.
  destruct (scan_reaches k rs m r qs Hv Hap) as [fuel Hscan]. rewrite Hscan in Hs.
  rewrite (bind_ok _ _ _ _ _ Hr) in Hs.
  destruct Hs as (k2 & Hm & _ & Hmeta & Hpos & _). eauto.
Qed.

(** [Delete] as a step on the maps, and the record it leaves. *)
Lemma Delete_inv k m path k' :
  durable k m -> Delete path k = (Ok tt, k') -> zlen path <= 65526 ->
  exists pino leaf di,
    walkParent m path = Ok (pino, leaf) /\ findDirent m pino leaf = Some di
    /\ same_tree (removeDirent m pino leaf) (meta k')
    /\ exists rs qs, vol k' (rs ++ mkRecord RecDirent (del_payload pino leaf) :: qs)
        /\ LogStart + zlen (encode_log rs) = wOff k
        /\ apply_all rs (empty_meta 0) = (Ok true, m).
Proof.
  intros Hdu Hdel Hlen. destruct (du_log _ _ Hdu) as (rs & Hv & _ & Hap).
  pose proof (du_tree _ _ Hdu) as Ht. unfold Delete in Hdel. rewrite getMeta_bind in Hdel.
  rewrite <- (walkParent_proper _ _ Ht _ _ eq_refl) in Hdel.
  destruct (walkParent m path) as [[pino leaf]|e|] eqn:Hw; [|done..]. rewrite bind_liftO in Hdel.
  rewrite <- (findDirent_proper _ _ Ht _ _ eq_refl _ _ eq_refl) in Hdel.
  destruct (findDirent m pino leaf) as [di|] eqn:Hf; [|done].
  destruct (is_dir _ _ && _); [done|]. apply bind_inv_ok in Hdel as ([] & k1 & Hd & Hfin).
  unfold appendDirentDelete in Hd. cbv zeta in Hd.
  change (AppendLStr (Put32 (mkbuf 4) 0 pino ++ [z2b 1]) leaf) with (del_payload pino leaf) in Hd.
  destruct (walkParent_leaf _ _ _ _ Hw) as [_ Hleaf]. pose proof (zlen_nonneg leaf).
  destruct (append_cases k rs RecDirent (del_payload pino leaf)) as (k0 & res & qs & Hap0 & Hv0 & Hm0 & Hc);
    [done| |done|].
  { unfold rec_ok, del_payload. cbn [Payload]. rewrite zlen_DirentPayload_delete. unfold MaxPayload. lia. }
  apply bind_inv_ok in Hd as ([] & k0' & Hd0 & Hupd). rewrite Hap0 in Hd0. injection Hd0 as -> ->.
  injection Hupd as <-. injection Hfin as <-. exists pino, leaf, di. do 2 (split; [done|]). split.
  - cbn [meta set_meta]. rewrite Hm0. unfold removeDirent.
    rewrite <- (findDirent_proper _ _ Ht _ _ eq_refl _ _ eq_refl), Hf.
    destruct Ht as [Ti Tc Td]. split; cbn; congruence.
  - exists rs. rewrite (la_end _ _ _ (vo_log _ _ Hv)).
    inversion Hc; subst; eexists; (split; [apply vol_set_meta, vol_set_meta; done|done]).
Qed.

(** Killing the entry found for a name leaves no entry of that name, and
    every other lookup as it was. *)
Lemma findDirent_removed m parent name di p n :
  meta_wf m -> findDirent m parent name = Some di ->
  findDirent (removeDirent m parent name) p n =
  if decide (findDirent m p n = Some di) then None else findDirent m p n.
Proof.
  intros Hwf Hf. unfold removeDirent. rewrite Hf. unfold findDirent. cbn [dirents children set_dirents].
  assert (Hlook : forall x, alter kill di (dirents m) !! x =
    if decide (x = di) then kill <$> dirents m !! x else dirents m !! x).
  { intros x. case_decide; [subst; by rewrite list_lookup_alter_eq|by rewrite list_lookup_alter_ne]. }
  assert (Hne : forall ix, find_in (dirents m) n ix ≠ Some di ->
    find_in (alter kill di (dirents m)) n ix = find_in (dirents m) n ix).
  { induction ix as [|x ix IH]; [done|]. cbn [find_in]. rewrite Hlook.
    destruct (dirents m !! x) as [d|]; case_decide; cbn; try done; subst.
    - destruct (negb (d_dead d) && bool_decide (d_name d = n)); [congruence|done].
    - by destruct (negb (d_dead d) && bool_decide (d_name d = n)). }
  case_decide as Hd; [|by apply Hne].
  destruct (children m !! p) as [l|] eqn:El; cbn in *; [|done].
  destruct (findDirent_live m p n di) as (d0 & Hd0 & Hl0 & Hn0); [by unfold findDirent; rewrite El|].
  assert (Hin : di ∈ l).
  { clear -Hd. induction l as [|x l IH]; cbn in Hd; [done|]. repeat case_match; simplify_eq;
      (by left) || (right; by apply IH). }
  assert (Hsub : forall ix, (forall x, x ∈ ix -> x ∈ l) -> find_in (alter kill di (dirents m)) n ix = None).
  { induction ix as [|x ix IH]; intros Hs; [done|]. cbn [find_in]. rewrite Hlook.
    assert (Hx : x ∈ l) by (apply Hs; left). assert (IH' := IH (fun y Hy => Hs y ltac:(by right))).
    destruct (dirents m !! x) as [d|] eqn:Ed; case_decide as Hxd; cbn; try done.
    destruct (d_dead d) eqn:Hdd; cbn; [done|]. case_bool_decide as Hnm; [|done].
    destruct Hxd. apply (mw_unique _ Hwf p l x di d d0); try done. congruence. }
  by apply Hsub.
Qed.

Lemma removed_gone m path pino leaf di :
  meta_wf m -> walkParent m path = Ok (pino, leaf) -> findDirent m pino leaf = Some di ->
  Stat (removeDirent m pino leaf) path = Err ErrNoEntry.
Proof.
  intros Hwf Hw Hf. pose proof (findDirent_removed m pino leaf di) as Hrem.
  set (m' := removeDirent m pino leaf) in *.
  assert (Hi : inodes m' = inodes m) by (unfold m', removeDirent; by rewrite Hf).
  assert (Hino : forall x, dirent_ino m' x = dirent_ino m x).
  { intros x. unfold dirent_ino, m', removeDirent. rewrite Hf. cbn.
    destruct (decide (x = di)) as [->|]; [rewrite list_lookup_alter_eq|by rewrite list_lookup_alter_ne].
    by destruct (dirents m !! di). }
  assert (Hloop : forall ps cur, walkParent_loop m' cur ps = walkParent_loop m cur ps
    \/ walkParent_loop m' cur ps = Err ErrNoEntry).
  { induction ps as [|x ps IH]; intros cur; cbn [walkParent_loop]; [by left|].
    rewrite Hrem by done. case_decide; [by right|]. destruct (findDirent m cur x); [|by left].
    rewrite Hino. unfold is_dir. rewrite Hi. case_match; [apply IH|by left]. }
  unfold Stat, walkParent in *. case_bool_decide as Hr; [by subst|].
  destruct (splitPath path) as [parts|e|]; [|done..]. cbn [mbind outcome_bind].
  destruct (last parts) as [lf|]; [|done].
  destruct (Hloop (take (length parts - 1) parts) RootIno) as [E|E]; rewrite E; cbn; [|done].
  destruct (walkParent_loop m RootIno _) as [pi|e|]; [|done..]. cbn in *. injection Hw as -> ->.
  by rewrite Hrem, decide_True by done.
Qed.

(** ** Writes past 63 bits *)

Lemma apply_data_past p m :
  zlen p = 16 + Get32 p 12 -> 2 ^ 63 <= Get64 p 4 < 2 ^ 64 - 1 ->
  zlen (content m (Get32 p 0)) < 2 ^ 63 -> apply_data p m = (Panic, m).
Proof.
  intros Hl Ho Hc. pose proof (Get32_range p 12). unfold apply_data. cbv zeta.
  rewrite Hl, Z.ltb_irrefl. change TruncSentinel with (2 ^ 64 - 1).
  rewrite (proj2 (Z.eqb_neq _ _)) by lia. fold (content m (Get32 p 0)).
  set (off := Get64 p 4) in *. set (dl := Get32 p 12) in *.
  assert (Ei : i64 off = off - 2 ^ 64).
  { unfold i64, swrap. replace (off + 2 ^ (64 - 1)) with ((off - 2 ^ 63) + 1 * 2 ^ 64) by lia.
    rewrite Z.mod_add, Z.mod_small by lia. lia. }
  rewrite Ei, i64_small by lia. pose proof (zlen_nonneg (content m (Get32 p 0))).
  rewrite (proj2 (Z.ltb_lt _ _)); [done|]. rewrite zlen_app.
  destruct (Z.le_gt_cases (off - 2 ^ 64 + dl - zlen (content m (Get32 p 0))) 0).
  - rewrite mkbuf_0 by lia. change (zlen (@nil byte)) with 0. lia.
  - rewrite zlen_mkbuf by lia. lia.
Qed.

Lemma mount_panics_at k rs m r qs :
  vol k (rs ++ r :: qs) -> apply_all rs (empty_meta 0) = (Ok true, m) ->
  apply (Type_ r) (Payload r) m = (Panic, m) -> fst (MountKFS (dev k)) = Panic.
Proof.
  intros Hv Hap Hr. pose proof (MountKFS_scan _ _ _ (vol_holds _ _ Hv)) as Hs.
  destruct (scan_reaches k rs m r qs Hv Hap) as [fuel Hscan]. rewrite Hscan in Hs.
  rewrite (bind_panic _ _ _ _ Hr) in Hs. by destruct Hs as [d' ->].
Qed.

(** The record a successful write leaves, whatever the offset. *)
Lemma WriteFile_record k m path off dat k' :
  durable k m -> 0 <= off < 2 ^ 64 -> zlen dat <= MaxPayload - 16 ->
  WriteFile path off dat k = (Ok tt, k') ->
  exists ino nd rs qs, inodes m !! ino = Some nd /\ i_kind nd ≠ KindDir
    /\ vol k' (rs ++ mkRecord RecData (DataPayload ino off dat) :: qs)
    /\ apply_all rs (empty_meta 0) = (Ok true, m).
Proof.
  intros Hdu Ho Hd Hwr. destruct (du_log _ _ Hdu) as (rs & Hv & _ & Hap).
  pose proof (du_tree _ _ Hdu) as Ht. unfold WriteFile in Hwr. rewrite getMeta_bind in Hwr.
  destruct (walkParent (meta k) path) as [[pino leaf]|e|] eqn:Hw; [|done..]. rewrite bind_liftO in Hwr.
  destruct (findDirent (meta k) pino leaf) as [di|] eqn:Hf; [|done].
  set (ino := dirent_ino (meta k) di) in *. cbv zeta in Hwr.
  destruct (inodes (meta k) !! ino) as [nd|] eqn:Hi; [|done].
  case_bool_decide as Hk; [done|]. apply bind_inv_ok in Hwr as ([] & k1 & Hd1 & Hwr).
  pose proof (zlen_nonneg dat). unfold MaxPayload in Hd.
  assert (Hp : appendData ino off dat = append RecData (DataPayload ino off dat)).
  { unfold appendData, DataPayload. cbv zeta. by rewrite u32_small by lia. }
  rewrite Hp in Hd1.
  destruct (append_cases k rs RecData (DataPayload ino off dat)) as (k0 & res & qs & Ha & Hv0 & Hm0 & Hc);
    [done| |done|].
  { unfold rec_ok. cbn [Payload]. rewrite zlen_DataPayload. unfold MaxPayload. lia. }
  rewrite Ha in Hd1. injection Hd1 as -> ->.
  exists ino, nd, rs. rewrite (st_inodes _ _ Ht).
  assert (Hv1 : exists qs1, vol k1 (rs ++ mkRecord RecData (DataPayload ino off dat) :: qs1))
    by (inversion Hc; subst; eauto).
  destruct Hv1 as [qs1 Hv1]. apply bind_inv_ok in Hwr as ([] & k2 & Hr & Hfin).
  injection Hfin as <-. destruct (_ =? i_size nd).
  { injection Hr as <-. exists qs1. do 2 (split; [done|]). split; [by apply vol_set_meta|done]. }
  apply bind_inv_ok in Hr as ([] & k3 & Hin & Hupd). injection Hupd as <-.
  match type of Hin with append RecInode ?p _ = _ =>
    destruct (append_cases k1 _ RecInode p Hv1) as (k4 & res & qs2 & Ha2 & Hv2 & _);
      [apply inode_rec_ok|done|] end.
  rewrite Ha2 in Hin. injection Hin as -> ->. exists (qs1 ++ qs2). do 2 (split; [done|]).
  split; [|done]. rewrite <- app_assoc in Hv2. by apply vol_set_meta, vol_set_meta.
Qed.

Lemma write_past_panics k m path off dat k' :
  durable k m -> 2 ^ 63 <= off < 2 ^ 64 - 1 -> zlen dat <= MaxPayload - 16 ->
  WriteFile path off dat k = (Ok tt, k') -> fst (MountKFS (dev k')) = Panic.
Proof.
  intros Hdu Ho Hd Hw. pose proof (zlen_nonneg dat). unfold MaxPayload in Hd.
  destruct (WriteFile_record k m path off dat k' Hdu) as (ino & nd & rs & qs & Hi & Hk & Hv & Hap);
    [lia|unfold MaxPayload; lia|done|].
  destruct (mw_inode _ (du_wf _ _ Hdu) _ _ Hi) as (_ & Hr & _ & Hs & Hsz). specialize (Hsz Hk).
  pose proof (mw_next _ (du_wf _ _ Hdu)). apply (mount_panics_at k' rs m _ qs Hv Hap).
  cbn [Type_ Payload].
  change (apply RecData ?p m) with (if zlen p <? 16 then (Ok false, m) else apply_data p m).
  rewrite zlen_DataPayload, (proj2 (Z.ltb_ge _ _)) by lia.
  assert (E0 : Get32 (DataPayload ino off dat) 0 = ino)
    by (rewrite DataPayload_eq; fields; apply u32_small; lia).
  assert (E4 : Get64 (DataPayload ino off dat) 4 = off)
    by (rewrite DataPayload_eq; fields; apply u64_small; lia).
  assert (E12 : Get32 (DataPayload ino off dat) 12 = zlen dat)
    by (rewrite DataPayload_eq; fields; apply u32_small; lia).
  apply apply_data_past; rewrite ?E0, ?E4, ?E12, ?zlen_DataPayload; lia.
Qed.
End History.
