(* ===== verification/KfsFormatter.v ===== *)
(** * KfsFormatter: the host-side log writer ([kfs/formatter.go])

    [Formatter] appends records to an image at build time; [Replay] is the
    package's own reader.  Both are related to the log image of [KfsLog] and
    to the guest's [FormatKFS]. *)

From S2P Require Import Prelude Frame Crc32 BlockDev SectorIO KfsFormat KfsLog Paths KfsFs.
From S2P Require Import KfsMount KfsData KfsTree KfsOps KfsHistory.

Record Formatter (D : Type) := mkFormatter {
  f_dev : D; f_logEnd : Z; f_wOff : Z; f_recs : Z; f_nextIno : Z }.
Arguments mkFormatter {D}.
Arguments f_dev {D}. Arguments f_logEnd {D}. Arguments f_wOff {D}.
Arguments f_recs {D}. Arguments f_nextIno {D}.

Section Formatter.
Context {D : Type} `{BlockDev D}.

Definition f_set_nextIno (f : Formatter D) (v : Z) : Formatter D :=
  mkFormatter (f_dev f) (f_logEnd f) (f_wOff f) (f_recs f) v.

Definition NewFormatter (dev : D) : outcome error (Formatter D) :=
  let '(bs_, n) := blk_geometry dev in
  if (bs_ =? 0) || (n =? 0) then Err ErrBadSB
  else Ok (mkFormatter dev (i64 (i64 n * bs_)) LogStart 0 (RootIno + 1)).

(** The write of one record at the cursor. *)
Definition Append_raw (typ : byte) (payload : list byte) : M (Formatter D) error unit := fun f =>
  let raw := EncodeRecord typ payload in
  if f_logEnd f <? f_wOff f + zlen raw then (Err ErrNoSpace, f)
  else
    let '(r, d) := writeAt (f_wOff f) raw (f_dev f) in
    match r with
    | Ok _ => (Ok tt, mkFormatter d (f_logEnd f) (f_wOff f + zlen raw) (f_recs f) (f_nextIno f))
    | Err e => (Err e, mkFormatter d (f_logEnd f) (f_wOff f) (f_recs f) (f_nextIno f))
    | Panic => (Panic, mkFormatter d (f_logEnd f) (f_wOff f) (f_recs f) (f_nextIno f))
    end.

Definition AppendCheckpoint : M (Formatter D) error unit := fun f =>
  Append_raw RecCheckpoint (CheckpointPayload (f_nextIno f)) f.

Definition Append (typ : byte) (payload : list byte) : M (Formatter D) error unit :=
  _ ← Append_raw typ payload;
  if bool_decide (typ = RecCheckpoint) then mret tt
  else
    _ ← modifyS (fun f => mkFormatter (f_dev f) (f_logEnd f) (f_wOff f) (f_recs f + 1) (f_nextIno f));
    f ← getS;
    if f_recs f mod CPEvery =? 0 then AppendCheckpoint else mret tt.

Definition SetNextIno (v : Z) : M (Formatter D) error unit :=
  modifyS (fun f => f_set_nextIno f v).

Definition AppendInode (uid : Z) (kind : byte) (size : Z) : M (Formatter D) error Z :=
  f ← getS;
  let ino := f_nextIno f in
  _ ← Append RecInode (InodePayload ino uid kind size);
  _ ← modifyS (fun f => f_set_nextIno f (u32 (f_nextIno f + 1)));
  mret ino.

Definition AppendDirent (parent : Z) (name : list byte) (ino : Z) : M (Formatter D) error unit :=
  Append RecDirent (DirentPayload parent DirentCreate name ino).

Definition AppendData (ino off : Z) (dat : list byte) : M (Formatter D) error unit :=
  if off =? TruncSentinel then Append RecData (DataPayload ino off [])
  else Append RecData (DataPayload ino off dat).

Definition Format : M D error unit := fun dev =>
  let '(bs_, n) := blk_geometry dev in
  if n <? 16 then (Err ErrBadSB, dev)
  else
    let sb := EncodeSuperblock (mkSuperblock bs_ n LogStartSector FormatVersion) in
    match blk_write 0 sb dev with
    | (Ok _, dev) =>
        match NewFormatter dev with
        | Ok f =>
            let '(r, f) :=
              (_ ← Append RecInode (InodePayload RootIno 0 KindDir 0);
               AppendCheckpoint) f in
            (r, f_dev f)
        | Err e => (Err e, dev)
        | Panic => (Panic, dev)
        end
    | (Err e, dev) => (Err e, dev)
    | (Panic, dev) => (Panic, dev)
    end.

(** [readBytes]: [None] is [nil]. *)
Fixpoint readBytes_loop (fuel : nat) (off n bs_ : Z) (out sec : list byte) : M D error (option (list byte)) :=
  match fuel with
  | O => panic
  | S fuel =>
      if zlen out <? n then
        let si := off + zlen out in
        r ← catch (blk_read (si / bs_) sec);
        match r with
        | None => mret None
        | Some sec =>
            let within := si mod bs_ in
            let take_ := Z.min (bs_ - within) (n - zlen out) in
            readBytes_loop fuel off n bs_ (out ++ slice sec within (within + take_)) sec
        end
      else mret (Some out)
  end.

Definition readBytes (off n bs_ : Z) : M D error (option (list byte)) :=
  readBytes_loop (S (Z.to_nat n)) off n bs_ [] (mkbuf bs_).

Fixpoint Replay_loop (fuel : nat) (bs_ logEnd_ pos : Z) (rs : list Record_) : M D error (list Record_) :=
  match fuel with
  | O => panic
  | S fuel =>
      if pos + HdrLen <=? logEnd_ then
        r0 ← catch (blk_read (pos / bs_) (mkbuf HdrLen));
        match r0 with
        | None => mret rs
        | Some _ =>
            rh ← readBytes pos HdrLen bs_;
            match rh with
            | None => mret rs
            | Some hdr =>
                let plen := Get32 hdr 0 in
                if (plen <? 0) || (MaxPayload <? plen) || (logEnd_ <? pos + HdrLen + plen)
                then mret rs
                else
                  rp ← readBytes (pos + HdrLen) plen bs_;
                  match rp with
                  | None => mret rs
                  | Some payload =>
                      match DecodeRecord hdr payload with
                      | None => mret rs
                      | Some r => Replay_loop fuel bs_ logEnd_ (pos + (HdrLen + plen)) (rs ++ [r])
                      end
                  end
            end
        end
      else mret rs
  end.

(** [Replay]: [None] is [ok == false]. *)
Definition Replay (d : D) : outcome error (option (list Record_)) * D :=
  let '(bs_, n) := blk_geometry d in
  match blk_read 0 (mkbuf bs_) d with
  | (Ok sec, d) =>
      match ParseSuperblock sec with
      | None => (Ok None, d)
      | Some sb =>
          let logEnd_ := i64 (i64 n * bs_) in
          let '(r, d) := Replay_loop (S (Z.to_nat logEnd_)) bs_ logEnd_ (LogSector sb * bs_) [] d in
          match r with
          | Ok rs => (Ok (Some rs), d)
          | Err e => (Err e, d)
          | Panic => (Panic, d)
          end
      end
  | (Err _, d) => (Ok None, d)
  | (Panic, d) => (Panic, d)
  end.
End Formatter.

(** ** The two writers are the same writer

    No device contract is needed: the host's [Formatter] and the guest's
    volume make the same device calls with the same bytes. *)

Section Simulation.
Context {D : Type} `{BlockDev D}.

Record same_writer (f : Formatter D) (k : KFS D) : Prop := mkSameWriter {
  sw_dev : f_dev f = dev k;
  sw_end : f_logEnd f = logEnd k;
  sw_off : f_wOff f = wOff k;
  sw_recs : f_recs f = recs k;
  sw_next : f_nextIno f = nextIno (meta k);
}.

(** The same outcome, and again the same cursor, pacing and device. *)
Definition agrees {A} (r : outcome error A * Formatter D) (q : outcome error A * KFS D) : Prop :=
  fst r = fst q /\ same_writer (snd r) (snd q).

Lemma agrees_bind {A B} (m1 : M (Formatter D) error A) (m2 : M (KFS D) error A)
    (g1 : A -> M (Formatter D) error B) (g2 : A -> M (KFS D) error B) f k :
  agrees (m1 f) (m2 k) ->
  (forall a f' k', same_writer f' k' -> agrees (g1 a f') (g2 a k')) ->
  agrees ((m1 ≫= g1) f) ((m2 ≫= g2) k).
Proof.
  unfold agrees, mbind, M_bind. destruct (m1 f) as [r1 f1], (m2 k) as [r2 k2]. cbn.
  intros [-> Hs] Hg. destruct r2; [by apply Hg|done|done].
Qed.

Lemma Append_raw_sim typ p f k :
  same_writer f k -> agrees (Append_raw typ p f) (append_raw typ p k).
Proof.
  intros [Ed Ee Eo Er En]. unfold agrees, Append_raw, append_raw. rewrite bind_getS. cbv zeta.
  rewrite zlen_EncodeRecord, Ee, Eo, Ed. destruct (logEnd k <? _); [done|].
  unfold mbind at 1 2, M_bind, onDev. rewrite frame_enc. unfold enc. cbn [Type_ Payload].
  destruct (writeAt (wOff k) (EncodeRecord typ p) (dev k)) as [[[]|e|] d]; cbn; (split; [done|]);
    split; cbn; congruence.
Qed.

Lemma AppendCheckpoint_sim f k :
  same_writer f k -> agrees (AppendCheckpoint f) (appendCheckpoint k).
Proof.
  intros Hs. unfold AppendCheckpoint, appendCheckpoint. rewrite bind_getS, checkpoint_payload_eq.
  rewrite (sw_next _ _ Hs). by apply Append_raw_sim.
Qed.

Lemma Append_sim typ p f k :
  same_writer f k -> agrees (Append typ p f) (append typ p k).
Proof.
  intros Hs. apply agrees_bind; [by apply Append_raw_sim|]. intros _ f1 k1 Hs1.
  case_bool_decide; [done|]. rewrite !bind_modifyS, !bind_getS. cbn [f_recs recs set_recs].
  assert (Hs2 : same_writer
    (mkFormatter (f_dev f1) (f_logEnd f1) (f_wOff f1) (f_recs f1 + 1) (f_nextIno f1))
    (set_recs k1 (recs k1 + 1))) by (destruct Hs1; split; cbn; congruence).
  rewrite (sw_recs _ _ Hs1) in *. destruct (_ =? 0); [by apply AppendCheckpoint_sim|done].
Qed.

Lemma Format_sim d n :
  blk_geometry d = (512, n) -> 16 <= n < 2 ^ 63 ->
  (forall d1, snd (blk_write 0 (EncodeSuperblock (mkSuperblock 512 n 1 1)) d) = d1 ->
     blk_geometry d1 = (512, n)) ->
  Format d = FormatKFS d.
Proof.
  intros Hg Hn Hg1. unfold Format, FormatKFS. rewrite Hg.
  rewrite (proj2 (Z.ltb_ge _ _)) by lia. change (negb (512 =? 512) || false) with false.
  cbv iota zeta. set (sb := Put32 _ 20 1). change (EncodeSuperblock _) with sb.
  change (EncodeSuperblock (mkSuperblock 512 n 1 1)) with sb in Hg1.
  destruct (blk_write 0 sb d) as [[[]|e|] d1]; [|done|done].
  unfold NewFormatter. rewrite (Hg1 d1 eq_refl). change (512 =? 0) with false.
  rewrite (proj2 (Z.eqb_neq n 0)) by lia. cbn [orb].
  set (f := mkFormatter _ _ _ _ _). set (k := mkKFS _ _ _ _ _ _ _).
  assert (Hs : same_writer f k) by done.
  pose proof (agrees_bind _ _ (fun _ => AppendCheckpoint) (fun _ => appendCheckpoint) f k
    (Append_sim RecInode (InodePayload RootIno 0 KindDir 0) f k Hs)
    (fun _ f' k' Hs' => AppendCheckpoint_sim f' k' Hs')) as [E1 E2].
  rewrite kfsInodePayload_eq. cbn [i_ino i_uid i_kind i_size].
  destruct (mbind (fun _ => AppendCheckpoint) (Append RecInode (InodePayload RootIno 0 KindDir 0)) f) as [r f'].
  destruct (mbind (fun _ => appendCheckpoint) (append RecInode (InodePayload RootIno 0 KindDir 0)) k) as [q k'].
  cbn in E1, E2. by rewrite E1, (sw_dev _ _ E2).
Qed.
End Simulation.

(** ** The host reader *)

(** The host reader also issues one read shorter than a sector; devices that
    serve it satisfy this law as well. *)
Class ShortReads (D : Type) `{BlockDevLaws D} := short_read_ok d lba buf :
  blk_wf d -> 0 <= lba -> 0 < zlen buf <= 512 -> lba * 512 < zlen (blk_img d) ->
  exists x d', blk_read lba buf d = (Ok x, d') /\ blk_wf d' /\ blk_img d' = blk_img d.

#[export] Instance memDevice_short : ShortReads memDevice.
Proof.
  intros m lba buf (Hbs & Hlen & Hn) Hlba Hb Hin. cbn in *. unfold mem_Read.
  rewrite (proj2 (Z.leb_gt _ _)) by lia. eexists _, m. split; [done|]. by split.
Qed.

(** The reference scan: every record the framing accepts, of any type. *)
Fixpoint scan_log (fuel : nat) (im : list byte) (pos stop : Z) : list Record_ :=
  match fuel with
  | O => []
  | S fuel =>
      match parse_rec im pos stop with
      | None => []
      | Some r => r :: scan_log fuel im (pos + rec_size r) stop
      end
  end.

Section HostReader.
Context {D : Type} {HB : BlockDev D} {HL : BlockDevLaws D} {HS : ShortReads D}.

Lemma readBytes_loop_ok fuel d off n out sec :
  blk_wf d -> 0 <= off -> zlen out <= n -> zlen sec = 512 -> off + n <= zlen (blk_img d) ->
  n - zlen out < Z.of_nat fuel -> out = slice (blk_img d) off (off + zlen out) ->
  exists d', readBytes_loop fuel off n 512 out sec d
      = (Ok (Some (slice (blk_img d) off (off + n))), d')
    /\ blk_wf d' /\ blk_img d' = blk_img d.
Proof.
  revert d out sec. induction fuel as [|fuel IH]; intros d out sec Hwf Ho Hn Hs Hin Hf Hout; [lia|].
  cbn [readBytes_loop]. pose proof (zlen_nonneg out).
  destruct (Z.ltb_spec (zlen out) n) as [Hlt|Hge].
  2:{ exists d. split; [|done]. replace n with (zlen out) by lia. by rewrite <- Hout. }
  destruct (sector_split (off + zlen out)) as (q & r & Hq & Hr & Hsi & Hq0 & Hr0); [lia|].
  destruct (img_sectors d Hwf) as (nb & Hnb). rewrite Hq, Hr.
  destruct (blk_read_ok d q sec) as (d1 & Hread & Hwf1 & Himg1);
    [done|lia|lia|by rewrite Hs|rewrite Hs; lia|]. rewrite Hs in Hread.
  rewrite (bind_ok _ _ _ _ _ (catch_ok _ _ _ _ Hread)). cbv zeta.
  set (t := Z.min (512 - r) (n - zlen out)). rewrite slice_slice by lia.
  set (seg := slice (blk_img d) _ _).
  assert (Hseg : zlen seg = t) by (unfold seg; rewrite zlen_slice by lia; lia).
  destruct (IH d1 (out ++ seg) (slice (blk_img d) (q * 512) (q * 512 + 512))) as (d' & Hl & Hwf' & Himg');
    [done|done|rewrite zlen_app; lia|rewrite zlen_slice; lia|by rewrite Himg1|rewrite zlen_app; lia|..].
  { rewrite zlen_app, Hseg, Z.add_assoc, Himg1.
    rewrite (slice_app_split _ off (off + zlen out)) by lia. f_equal; [done|].
    unfold seg. f_equal; lia. }
  exists d'. rewrite Himg1 in *. done.
Qed.

Lemma readBytes_ok d off n :
  blk_wf d -> 0 <= off -> 0 <= n -> off + n <= zlen (blk_img d) ->
  exists d', readBytes off n 512 d = (Ok (Some (slice (blk_img d) off (off + n))), d')
    /\ blk_wf d' /\ blk_img d' = blk_img d.
Proof.
  intros Hwf Ho Hn Hin.
  apply readBytes_loop_ok; rewrite ?zlen_nil; [done|done|lia|done|done|lia|].
  by rewrite slice_empty by lia.
Qed.

Lemma Replay_loop_ok fuel d pos rs :
  blk_wf d -> 0 <= pos -> zlen (blk_img d) - pos < Z.of_nat fuel -> 0 < Z.of_nat fuel ->
  exists d', Replay_loop fuel 512 (zlen (blk_img d)) pos rs d
      = (Ok (rs ++ scan_log fuel (blk_img d) pos (zlen (blk_img d))), d')
    /\ blk_wf d' /\ blk_img d' = blk_img d.
Proof using HS.
  revert d pos rs. induction fuel as [|fuel IH]; intros d pos rs Hwf Hpos Hf Hf0; [lia|].
  cbn [Replay_loop scan_log]. unfold parse_rec.
  destruct (Z.leb_spec (pos + HdrLen) (zlen (blk_img d))) as [Hin|Hout].
  2:{ exists d. by rewrite app_nil_r. }
  destruct (short_read_ok d (pos / 512) (mkbuf HdrLen)) as (x & d1 & Hr1 & Hwf1 & Himg1);
    [done|apply Z.div_pos; lia|by split|pose proof (Z.mul_div_le pos 512); unfold HdrLen in *; lia|].
  rewrite (bind_ok _ _ _ _ _ (catch_ok _ _ _ _ Hr1)). rewrite <- Himg1 in *.
  destruct (readBytes_ok d1 pos HdrLen) as (d2 & Hr2 & Hwf2 & Himg2); [done|done|done|done|].
  rewrite (bind_ok _ _ _ _ _ Hr2). cbv zeta. rewrite <- Himg2 in *.
  set (hdr := slice (blk_img d2) pos (pos + HdrLen)) in *. pose proof (Get32_range hdr 0).
  assert (Hh : zlen hdr = HdrLen) by (unfold hdr; rewrite zlen_slice; unfold HdrLen in *; lia).
  set (plen := Get32 hdr 0) in *. rewrite (proj2 (Z.ltb_ge plen 0)) by lia. cbn [orb].
  destruct (MaxPayload <? plen) eqn:Hmax; cbn [orb]; [exists d2; by rewrite app_nil_r|].
  destruct (Z.ltb_spec (zlen (blk_img d2)) (pos + HdrLen + plen)); [exists d2; by rewrite app_nil_r|].
  destruct (readBytes_ok d2 (pos + HdrLen) plen) as (d3 & Hr3 & Hwf3 & Himg3);
    [done|unfold HdrLen; lia|lia|done|].
  rewrite (bind_ok _ _ _ _ _ Hr3). rewrite <- Himg3 in *.
  set (payload := slice (blk_img d3) (pos + HdrLen) _) in *.
  assert (Hp : zlen payload = plen) by (unfold payload; rewrite zlen_slice; unfold HdrLen in *; lia).
  unfold DecodeRecord. rewrite Hh, Z.ltb_irrefl. fold plen. rewrite Hmax, Hp, Z.ltb_irrefl.
  rewrite (proj2 (Z.ltb_ge plen 0)) by lia. cbn [orb]. rewrite slice_full by done.
  destruct (ChecksumIEEE payload =? Get32 hdr 4); [|exists d3; by rewrite app_nil_r].
  unfold rec_size. cbn [Payload]. rewrite Hp.
  destruct (IH d3 (pos + (HdrLen + plen)) (rs ++ [mkRecord (idx hdr 8) payload])) as (d4 & Hr4 & Hd4);
    [done|unfold HdrLen; lia|unfold HdrLen in *; lia|unfold HdrLen in *; lia|].
  exists d4. by rewrite Hr4, <- app_assoc.
Qed.

(** The image of a whole volume as the host reader sees it: its records, then
    one empty record of type 0 for every nine zero bytes left. *)
Lemma scan_log_zero fuel im pos stop :
  0 <= pos -> stop <= zlen im -> all_zero (slice im pos stop) -> stop - pos < 9 * Z.of_nat fuel ->
  scan_log fuel im pos stop = replicate (Z.to_nat ((stop - pos) / 9)) (mkRecord (z2b 0) []).
Proof.
  revert pos. induction fuel as [|fuel IH]; intros pos Hp Hs Hz Hf.
  { cbn. destruct (Z.le_gt_cases (stop - pos) (-1)).
    - assert ((stop - pos) / 9 < 0) by (apply Z.div_lt_upper_bound; lia).
      by replace (Z.to_nat ((stop - pos) / 9)) with 0%nat by lia.
    - lia. }
  cbn [scan_log]. rewrite parse_rec_zero by done. unfold HdrLen.
  destruct (Z.leb_spec (pos + 9) stop).
  - change (rec_size _) with 9. rewrite IH; [|lia|done| |lia].
    + replace (stop - pos) with ((stop - (pos + 9)) + 1 * 9) by lia. rewrite Z.div_add by lia.
      assert (0 <= (stop - (pos + 9)) / 9) by (apply Z.div_pos; lia).
      replace (Z.to_nat ((stop - (pos + 9)) / 9 + 1)) with (S (Z.to_nat ((stop - (pos + 9)) / 9))) by lia.
      done.
    + rewrite (slice_app_split _ pos (pos + 9)) in Hz by lia. by apply Forall_app in Hz as [_ Hz].
  - assert ((stop - pos) / 9 < 1) by (apply Z.div_lt_upper_bound; lia).
    by replace (Z.to_nat ((stop - pos) / 9)) with 0%nat by lia.
Qed.

Lemma scan_log_log fuel im w ds rs stop :
  log_at im w (ds ++ rs) -> w <= stop ->
  scan_log (length rs + fuel) im (LogStart + zlen (encode_log ds)) stop
  = rs ++ scan_log fuel im w stop.
Proof.
  revert ds. induction rs as [|r rs IH]; intros ds Hlog Hstop.
  { rewrite app_nil_r in Hlog. by rewrite <- (la_end _ _ _ Hlog). }
  cbn [length Nat.add scan_log app]. rewrite (parse_rec_log _ _ _ _ _ _ Hlog Hstop). f_equal.
  rewrite cons_middle, app_assoc in Hlog. rewrite <- (IH (ds ++ [r]) Hlog Hstop). f_equal.
  rewrite encode_log_app, zlen_app, encode_log_one, zlen_enc. lia.
Qed.

Lemma Replay_ok d w rs :
  holds d w rs -> all_zero (slice (blk_img d) w (zlen (blk_img d))) ->
  exists d', Replay d =
    (Ok (Some (rs ++ replicate (Z.to_nat ((zlen (blk_img d) - w) / 9)) (mkRecord (z2b 0) []))), d')
    /\ blk_img d' = blk_img d.
Proof using HS.
  intros [Hwf (sn & Hsb) Hlog] Hz. destruct (blk_geometry_ok d Hwf) as (n & Hg & Hlen & Hn).
  pose proof (la_end _ _ _ Hlog) as He. pose proof (la_fits _ _ _ Hlog) as Hfit.
  pose proof (length_log rs) as Hl. pose proof (zlen_encode_log_nonneg rs). unfold LogStart in He.
  assert (Hend : i64 (i64 n * 512) = zlen (blk_img d)) by (rewrite (i64_small n), i64_small by lia; lia).
  destruct (blk_read_ok d 0 (mkbuf 512)) as (d1 & Hr & Hwf1 & Himg1); [done|lia|done|done|change (zlen (mkbuf 512)) with 512; lia|].
  change (0 * 512 + zlen (mkbuf 512)) with 512 in Hr. change (0 * 512) with 0 in Hr.
  rewrite Hsb in Hr. unfold Replay. rewrite Hg, Hr.
  assert (Hps : exists sb, ParseSuperblock (EncodeSuperblock (mkSuperblock 512 sn 1 1)) = Some sb
    /\ LogSector sb = 1).
  { unfold ParseSuperblock. rewrite zlen_EncodeSuperblock, EncodeSuperblock_magic.
    rewrite bool_decide_true by done. cbn [Z.ltb Z.compare orb negb LogSector].
    rewrite EncodeSuperblock_log. by eexists. }
  destruct Hps as (sb & -> & Hls). rewrite Hls, Hend. change (1 * 512) with LogStart.
  rewrite <- Himg1 in *.
  destruct (Replay_loop_ok (S (Z.to_nat (zlen (blk_img d1)))) d1 LogStart [])
    as (d2 & Hloop & _ & Himg2); [done|done|unfold LogStart; lia|lia|].
  rewrite Hloop. exists d2. split; [|done]. do 3 f_equal. cbn [app].
  replace (S (Z.to_nat (zlen (blk_img d1))))
    with (length rs + S (Z.to_nat (zlen (blk_img d1)) - length rs))%nat by lia.
  etransitivity; [by apply (scan_log_log _ _ w [] rs)|]. f_equal.
  apply scan_log_zero; [lia|done|done|lia].
Qed.
End HostReader.

(** ** Formatting a device twice, and appending after a format *)

Section Reuse.
Context {D : Type} `{BlockDevLaws D}.

Lemma splice_id {A} (l s : list A) off :
  0 <= off -> off + zlen s <= zlen l -> slice l off (off + zlen s) = s -> splice l off s = l.
Proof.
  intros Ho Hin Hs. apply list_eq. intros i. rewrite lookup_splice by (unfold zlen in *; lia).
  case_decide as Hi; [|done]. rewrite <- Hs, lookup_slice, decide_True by (unfold zlen in *; lia).
  f_equal. lia.
Qed.

Lemma Format_guest d n :
  blk_wf d -> zlen (blk_img d) = 512 * n -> 16 <= n -> Format d = FormatKFS d.
Proof.
  intros Hwf Hlen Hn. destruct (blk_geometry_ok d Hwf) as (n' & Hg & Hlen' & Hb).
  assert (n' = n) as -> by lia. apply (Format_sim d n Hg); [lia|]. intros d1 <-.
  destruct (blk_write_ok d 0 (EncodeSuperblock (mkSuperblock 512 n 1 1))) as (d1 & -> & Hwf1 & Hi1);
    rewrite ?zlen_EncodeSuperblock; [done|lia|lia|done|lia|]. cbn [snd].
  destruct (blk_geometry_ok d1 Hwf1) as (n1 & Hg1 & Hl1 & _). rewrite Hg1.
  rewrite Hi1, zlen_splice in Hl1 by lia. do 2 f_equal. lia.
Qed.

Lemma Format_again d n w qs :
  holds d w (fresh_log ++ qs) -> zlen (blk_img d) = 512 * n -> 16 <= n ->
  slice (blk_img d) 0 512 = EncodeSuperblock (mkSuperblock 512 n 1 1) ->
  exists d', Format d = (Ok tt, d') /\ blk_img d' = blk_img d.
Proof.
  intros [Hwf _ Hlog] Hlen Hn Hsb. rewrite (Format_guest d n Hwf Hlen Hn).
  destruct (FormatKFS_img d n Hwf Hlen Hn) as (d' & Hf & _ & Himg). exists d'. split; [done|].
  pose proof (zlen_EncodeSuperblock (mkSuperblock 512 n 1 1)) as Hz. pose proof fresh_log_size as Hfl.
  rewrite Himg, (splice_id (blk_img d) (EncodeSuperblock (mkSuperblock 512 n 1 1)))
    by (rewrite ?Hz; done || lia).
  destruct (log_at_split _ _ _ _ Hlog) as [Hl _]. pose proof (la_bytes _ _ _ Hl) as Hb.
  apply splice_id; [done|unfold LogStart; lia|done].
Qed.

(** A new formatter starts at the log start, whatever the log holds. *)
Lemma NewFormatter_overwrites d n typ p f f' :
  blk_wf d -> zlen (blk_img d) = 512 * n -> 0 < n ->
  NewFormatter d = Ok f -> Append typ p f = (Ok tt, f') ->
  blk_img (f_dev f') = splice (blk_img d) LogStart (enc (mkRecord typ p)).
Proof.
  intros Hwf Hlen Hn Hnf Hap. destruct (blk_geometry_ok d Hwf) as (n' & Hg & Hlen' & Hb).
  assert (n' = n) as -> by lia. unfold NewFormatter in Hnf. rewrite Hg in Hnf.
  rewrite (proj2 (Z.eqb_neq n 0)) in Hnf by lia. change (512 =? 0) with false in Hnf.
  cbn [orb] in Hnf. rewrite (i64_small n), i64_small in Hnf by lia. injection Hnf as <-.
  apply bind_inv_ok in Hap as ([] & f1 & Hraw & Hfin). pose proof (zlen_nonneg p).
  unfold Append_raw in Hraw. cbn [f_dev f_logEnd f_wOff f_recs f_nextIno] in Hraw.
  rewrite zlen_EncodeRecord in Hraw. destruct (Z.ltb_spec (n * 512) (LogStart + (HdrLen + zlen p))); [done|].
  unfold LogStart, HdrLen in *.
  destruct (writeAt_ok d 512 (EncodeRecord typ p)) as (d1 & Hw & _ & Himg);
    [done|lia|rewrite zlen_EncodeRecord; unfold HdrLen; lia|rewrite zlen_EncodeRecord; unfold HdrLen; lia|].
  rewrite Hw in Hraw. injection Hraw as <-.
  case_bool_decide; [by injection Hfin as <-|]. rewrite bind_modifyS, bind_getS in Hfin.
  by injection Hfin as <-.
Qed.
End Reuse.

(** ** Finding a volume in the second half of an image *)

Section Find.
Context {D : Type} `{BlockDevLaws D}.

Lemma SplitSectors_half n : 2 <= n -> SplitSectors (512 * n) = Ok (n / 2).
Proof.
  intros Hn. unfold SplitSectors, SectorSize. rewrite (proj2 (Z.ltb_ge _ _)) by lia. cbv zeta.
  assert (E : 512 * n / 2 - (512 * n / 2) mod 512 = 512 * (n / 2)).
  { replace (512 * n) with (256 * n * 2) by lia. rewrite Z.div_mul by lia.
    pose proof (Z.div_mod n 2 ltac:(lia)) as Hd. pose proof (Z.mod_pos_bound n 2 ltac:(lia)) as Hm.
    assert ((256 * n) mod 512 = 256 * (n mod 2)) as ->; [|lia].
    rewrite Hd at 1. replace (256 * (2 * (n / 2) + n mod 2)) with (256 * (n mod 2) + (n / 2) * 512) by lia.
    rewrite Z.mod_add by lia. apply Z.mod_small. lia. }
  rewrite E. assert (1 <= n / 2) by (apply Z.div_le_lower_bound; lia).
  rewrite (proj2 (Z.leb_gt _ _)) by lia. rewrite Z.mul_comm, Z.div_mul by lia. done.
Qed.

Lemma readSector_ok d n lba :
  blk_wf d -> zlen (blk_img d) = 512 * n -> 0 <= lba < n ->
  exists d', readSector lba d = (slice (blk_img d) (lba * 512) (lba * 512 + 512), d')
    /\ blk_wf d' /\ blk_img d' = blk_img d.
Proof.
  intros Hwf Hlen Hl. destruct (blk_geometry_ok d Hwf) as (n' & Hg & Hlen' & _).
  unfold readSector. rewrite Hg. change (512 =? 0) with false. cbv iota.
  destruct (blk_read_ok d lba (mkbuf 512)) as (d' & Hr & Hd');
    change (zlen (mkbuf 512)) with 512 in *; [done|lia|lia|done|lia|].
  exists d'. by rewrite Hr.
Qed.

Lemma FindVolume_split d n v :
  blk_wf d -> zlen (blk_img d) = 512 * n -> 2 <= n ->
  ParseSuperblock (slice (blk_img d) 0 512) = None ->
  ParseSuperblock (slice (blk_img d) (n / 2 * 512) (n / 2 * 512 + 512)) = Some v ->
  exists d', FindVolume d = (Ok (inr (NewOffset d' (n / 2))), d') /\ blk_wf d' /\ blk_img d' = blk_img d.
Proof.
  intros Hwf Hlen Hn Hs0 Hv. assert (1 <= n / 2) by (apply Z.div_le_lower_bound; lia).
  assert (n / 2 < n) by (apply Z.div_lt; lia).
  destruct (blk_geometry_ok d Hwf) as (n0 & _ & Hl0 & Hb). assert (n0 = n) as -> by lia.
  destruct (readSector_ok d n 0 Hwf Hlen) as (d1 & Hr1 & Hwf1 & Hi1); [lia|].
  change (0 * 512 + 512) with 512 in Hr1. change (0 * 512) with 0 in Hr1.
  unfold FindVolume. rewrite Hr1, Hs0.
  destruct (blk_geometry_ok d1 Hwf1) as (n1 & Hg1 & Hl1 & _). rewrite Hi1 in Hl1.
  assert (n1 = n) as -> by lia. rewrite Hg1. rewrite (i64_small n), (i64_small 512), i64_small by lia.
  replace (n * 512) with (512 * n) by lia. rewrite SplitSectors_half by done.
  destruct (readSector_ok d1 n (n / 2)) as (d2 & Hr2 & Hwf2 & Hi2); [done|by rewrite Hi1|lia|].
  rewrite Hr2, Hi1, Hv. rewrite u64_small by lia. exists d2. split; [done|]. split; [done|congruence].
Qed.

(** The volume a formatted blank region holds. *)
Lemma formatted_holds (im sb : list byte) n :
  zlen im = 512 * n -> 16 <= n -> all_zero im -> zlen sb = 512 ->
  let im' := splice (splice im 0 sb) LogStart (encode_log fresh_log) in
  log_at im' 547 fresh_log /\ slice im' 0 512 = sb /\ all_zero (slice im' 547 (zlen im')).
Proof.
  intros Hlen Hn Hz Hzs im'. pose proof fresh_log_size as Hfl. unfold LogStart in *.
  assert (Hl1 : zlen (splice im 0 sb) = 512 * n) by (rewrite zlen_splice; lia).
  assert (Hl : zlen im' = 512 * n) by (unfold im'; rewrite zlen_splice; lia).
  split; [|split].
  - split; [by rewrite Hfl|lia| |by repeat constructor].
    unfold im'. change 547 with (512 + zlen (encode_log fresh_log)). unfold LogStart.
    apply slice_splice_same; lia.
  - unfold im'. rewrite slice_splice_before by lia. 
    pose proof (slice_splice_same im sb 0) as Hs. rewrite Hzs in Hs. apply Hs; lia.
  - rewrite Hl. unfold im'. rewrite slice_splice_after, slice_splice_after by lia.
    rewrite <- (slice_full im (zlen im) eq_refl) in Hz.
    rewrite (slice_app_split _ 0 547), Hlen in Hz by lia. by apply Forall_app in Hz as [_ Hz].
Qed.

(** Seeding the second half of an image and finding it again: the boundary
    the builder writes at is the one the guest probes, and the first half is
    left byte for byte as it was. *)
Lemma seed_then_find d n :
  blk_wf d -> zlen (blk_img d) = 512 * n -> 32 <= n ->
  ParseSuperblock (slice (blk_img d) 0 512) = None ->
  exists o d', Format (NewOffset d (n / 2)) = (Ok tt, o)
    /\ slice (blk_img (Inner o)) 0 (n / 2 * 512) = slice (blk_img d) 0 (n / 2 * 512)
    /\ FindVolume (Inner o) = (Ok (inr (NewOffset d' (n / 2))), d')
    /\ (all_zero (slice (blk_img d) (n / 2 * 512) (512 * n)) ->
        exists k, mountAuto (Inner o) = Ok k /\ meta k = fresh_meta).
Proof.
  intros Hwf Hlen Hn Hs0. assert (16 <= n / 2) by (apply Z.div_le_lower_bound; lia).
  assert (n / 2 <= n - 16) by (apply Z.div_le_upper_bound; lia).
  set (b := n / 2) in *. set (pre := slice (blk_img d) 0 (b * 512)).
  assert (Hw0 : Offset_wf (NewOffset d b)) by (split; cbn; [done|lia]).
  pose proof (Offset_img_len _ Hw0) as Hol. cbn [Inner Base] in Hol.
  assert (Hbl : Offset_below b pre (NewOffset d b)) by done.
  destruct (@FormatKFS_img _ _ (Offset_laws_below b pre) (NewOffset d b) (n - b) Hbl)
    as (o & Hf & (Hwo & Hbo & Hpre) & Himg); [cbn; lia|lia|].
  pose proof (@Format_guest _ _ (Offset_laws_below b pre) (NewOffset d b) (n - b) Hbl) as Hfg.
  rewrite Hfg by (cbn; lia). cbn [blk_img Offset_laws_below] in Himg.
  assert (Hil : zlen (blk_img (Inner o)) = 512 * n).
  { pose proof (Offset_img_len _ Hwo) as Ho. rewrite Himg, Hbo in Ho.
    pose proof fresh_log_size. unfold LogStart in Ho. rewrite !zlen_splice in Ho; rewrite ?zlen_splice; lia. }
  assert (Hsec : slice (blk_img (Inner o)) (b * 512) (b * 512 + 512)
    = EncodeSuperblock (mkSuperblock 512 (n - b) 1 1)).
  { transitivity (slice (Offset_img o) 0 512).
    { unfold Offset_img. rewrite Hbo. unfold slice. rewrite drop_drop. f_equal; [lia|].
      f_equal. lia. }
    rewrite Himg. unfold LogStart. rewrite slice_splice_before by (rewrite ?zlen_splice; lia).
    pose proof (slice_splice_same (Offset_img (NewOffset d b))
      (EncodeSuperblock (mkSuperblock 512 (n - b) 1 1)) 0) as Hs.
    rewrite zlen_EncodeSuperblock in Hs. apply Hs; lia. }
  destruct (FindVolume_split (Inner o) n (mkSuperblock 512 (n - b) 1 1)) as (d' & Hfv & Hwf' & Hi');
    [apply Hwo|done|lia|..].
  - rewrite <- Hs0. f_equal. unfold pre in Hpre.
    rewrite <- (slice_slice (blk_img (Inner o)) 0 (b * 512) 0 512),
      <- (slice_slice (blk_img d) 0 (b * 512) 0 512) by lia. by rewrite Hpre.
  - fold b. rewrite Hsec. destruct (blk_geometry_ok d Hwf) as (n0 & _ & Hl0 & Hb).
    apply ParseSuperblock_Encode; cbn; lia || done.
  - exists o, d'. split; [done|]. split; [done|]. split; [done|]. intros Hz. fold b in Hz.
    unfold mountAuto. rewrite Hfv. fold b.
    assert (Hoi : blk_img (inr (NewOffset d' b) : D + Offset D) = Offset_img o).
    { cbn. unfold Offset_img. cbn. by rewrite Hi', Hbo. }
    destruct (formatted_holds (Offset_img (NewOffset d b))
      (EncodeSuperblock (mkSuperblock 512 (n - b) 1 1)) (n - b)) as (Hlog & Hsb & Htl);
      [lia|lia| |apply zlen_EncodeSuperblock|].
    { unfold Offset_img. cbn [Inner Base]. unfold slice in Hz.
      rewrite take_ge in Hz; [done|]. rewrite length_drop. unfold zlen in *. lia. }
    rewrite <- Himg, <- Hoi in Hlog, Hsb, Htl.
    destruct (MountKFS_ok (inr (NewOffset d' b) : D + Offset D) 547 fresh_log fresh_meta)
      as (k & Hm & _ & Hmeta & _); [|done|apply fresh_log_applies|].
    + split; [|by exists (n - b)|done]. cbn. split; cbn; [done|]. rewrite Hi'. lia.
    + exists k. by rewrite Hm.
Qed.
End Find.

