(* ===== verification/KfsTheorems.v ===== *)
(** * KfsTheorems: what the log-structured filesystem guarantees

    The properties of the on-disk format, the guest volume and the host
    formatter, each with an instance on a 16-sector in-memory device. *)

From S2P Require Import Prelude Frame Crc32 BlockDev SectorIO KfsFormat KfsLog Paths KfsFs.
From S2P Require Import KfsMount KfsCrash KfsData KfsTree KfsOps KfsHistory KfsFormatter.

(** ** Lemmas on one operation *)

Section Effects.
Variables (m : kfsMeta) (ino : Z) (nd : kfsInode) (buf : list byte).
Hypothesis Hi : inodes m !! ino = Some nd.

Lemma set_file_is_dir j : is_dir (set_file m ino nd buf) j = is_dir m j.
Proof using Hi.
  unfold is_dir. cbn. destruct (decide (ino = j)) as [<-|]; [|by rewrite lookup_insert_ne].
  by rewrite lookup_insert_eq, Hi.
Qed.

Lemma set_file_walk path : walkParent (set_file m ino nd buf) path = walkParent m path.
Proof using Hi.
  assert (Hl : forall ps cur, walkParent_loop (set_file m ino nd buf) cur ps = walkParent_loop m cur ps).
  { induction ps as [|x ps IH]; intros cur; [done|]. cbn [walkParent_loop].
    change (findDirent (set_file m ino nd buf) cur x) with (findDirent m cur x).
    destruct (findDirent m cur x) as [di|]; [|done]. cbv zeta. rewrite IH.
    by rewrite (set_file_is_dir _ : is_dir _ (dirent_ino (set_file m ino nd buf) di) = _). }
  unfold walkParent. repeat case_match; try done. by rewrite Hl.
Qed.

Lemma set_file_read path off n pino leaf di :
  walkParent m path = Ok (pino, leaf) -> findDirent m pino leaf = Some di -> dirent_ino m di = ino ->
  i_kind nd ≠ KindDir -> 0 < n ->
  read_spec (set_file m ino nd buf) path off n = Ok (slice buf off (off + n)).
Proof using Hi.
  intros Hw Hf He Hk Hn. unfold read_spec. rewrite (proj2 (Z.eqb_neq n 0)) by lia.
  rewrite set_file_walk, Hw. cbn [mbind outcome_bind].
  change (findDirent (set_file m ino nd buf) pino leaf) with (findDirent m pino leaf). rewrite Hf.
  change (dirent_ino (set_file m ino nd buf) di) with (dirent_ino m di). rewrite He.
  rewrite set_file_is_dir. unfold is_dir. rewrite Hi, bool_decide_false by done.
  unfold content. cbn. by rewrite lookup_insert_eq.
Qed.
End Effects.

Section WriteRead.
Context {D : Type} `{BlockDevLaws D}.

(** A write that succeeds had a regular file to write to. *)
Lemma WriteFile_target k m path off dat k1 :
  durable k m -> WriteFile path off dat k = (Ok tt, k1) ->
  exists pino leaf di nd, walkParent m path = Ok (pino, leaf) /\ findDirent m pino leaf = Some di
    /\ inodes m !! dirent_ino m di = Some nd /\ i_kind nd ≠ KindDir.
Proof.
  intros Hdu Hw. pose proof (du_tree _ _ Hdu) as Ht.
  unfold WriteFile in Hw. rewrite getMeta_bind, <- (walkParent_proper _ _ Ht _ _ eq_refl) in Hw.
  destruct (walkParent m path) as [[pino leaf]|e|]; [|done..].
  rewrite bind_liftO, <- (findDirent_proper _ _ Ht _ _ eq_refl _ _ eq_refl) in Hw.
  destruct (findDirent m pino leaf) as [di|] eqn:Hf; [|done]. cbv zeta in Hw.
  rewrite <- (dirent_ino_proper _ _ Ht _ _ eq_refl), <- (st_inodes _ _ Ht) in Hw.
  destruct (inodes m !! dirent_ino m di) as [nd|] eqn:Hi; [|done].
  case_bool_decide; [done|]. by exists pino, leaf, di, nd.
Qed.

Lemma write_read k m path off dat k1 :
  durable k m -> 0 <= off -> off + zlen dat < 2 ^ 32 -> zlen dat <= MaxPayload - 16 ->
  WriteFile path off dat k = (Ok tt, k1) ->
  exists old,
    (forall o n, 0 <= o -> 0 < n -> fst (ReadFile path o n k) = Ok (slice old o (o + n)))
    /\ (forall o n, 0 <= o -> 0 < n ->
         fst (ReadFile path o n k1) = Ok (slice (write_at old off dat) o (o + n))).
Proof.
  intros Hdu Ho Hb Hd Hw.
  destruct (WriteFile_target _ _ _ _ _ _ Hdu Hw) as (pino & leaf & di & nd & Hp & Hf & Hi & Hk).
  pose proof (runs_ok _ _ _ _ _ (WriteFile_runs k m path off dat pino leaf di nd Hdu Hp Hf Hi Hk Ho Hb Hd) Hw) as Hd1.
  exists (content m (dirent_ino m di)). split; intros o n Hoo Hn.
  - destruct (ReadFile_ok k m path o n Hdu Hoo ltac:(lia)) as (? & -> & _). cbn [fst].
    unfold read_spec. rewrite (proj2 (Z.eqb_neq n 0)) by lia. rewrite Hp. cbn [mbind outcome_bind].
    rewrite Hf. unfold is_dir. by rewrite Hi, bool_decide_false.
  - destruct (ReadFile_ok _ _ path o n Hd1 Hoo ltac:(lia)) as (? & -> & _). cbn [fst].
    by apply (set_file_read m _ nd _ Hi path o n pino leaf di).
Qed.
End WriteRead.

(** ** A concrete volume *)

Definition disk0 : memDevice := newMem 512 16.

Lemma disk0_wf : blk_wf disk0.
Proof. repeat split. Qed.

Lemma disk0_zero : all_zero (blk_img disk0).
Proof. unfold all_zero. apply Forall_forall. by intros x [-> _]%elem_of_replicate. Qed.

Definition vol0 : KFS memDevice :=
  match MountKFS (snd (FormatKFS disk0)) with
  | (Ok k, _) => k
  | (_, d) => mkKFS d 0 (empty_meta 0) [] 0 0 0
  end.

Lemma vol0_durable : durable vol0 fresh_meta.
Proof.
  destruct (format_mount disk0 16 disk0_wf eq_refl ltac:(lia) disk0_zero) as (d' & k & Hf & Hm & Hd & _).
  unfold vol0. rewrite Hf. cbn [snd]. by rewrite Hm.
Qed.

Lemma vol0_vol : vol vol0 fresh_log.
Proof.
  destruct (format_mount disk0 16 disk0_wf eq_refl ltac:(lia) disk0_zero) as (d' & k & Hf & Hm & _ & Hv).
  unfold vol0. rewrite Hf. cbn [snd]. by rewrite Hm.
Qed.

(** [/a] created on the fresh volume. *)
Definition vol1 : KFS memDevice := snd (Create (bs "/a") vol0).
Definition meta1 : kfsMeta := new_node fresh_meta KindFile RootIno (bs "a").

Lemma vol1_durable : durable vol1 meta1.
Proof.
  pose proof (Create_runs vol0 fresh_meta (bs "/a") RootIno (bs "a") vol0_durable
    ltac:(done) ltac:(done) eq_refl eq_refl) as Hr.
  assert (Hok : fst (Create (bs "/a") vol0) = Ok tt) by (vm_compute; reflexivity).
  unfold runs in Hr. unfold vol1. destruct (Create (bs "/a") vol0) as [r k]. cbn in Hok. by subst r.
Qed.

(** ** The guarantees *)

Section Guarantees.
Context {D : Type} `{BlockDevLaws D}.

(** C4: A blank device of at least sixteen sectors can be formatted and
    mounted; after any session of create, mkdir, write, chown and read
    requests whose fields fit their records and that does not fill the
    device, mounting the device again succeeds and gives the same answer to
    every stat, list, owner and read query as the live volume. *)
Theorem kfs_session_survives_remount d n os :
  blk_wf d -> zlen (blk_img d) = 512 * n -> 16 <= n -> all_zero (blk_img d) ->
  Forall op_fits os -> Z.of_nat (length os) < 2 ^ 31 ->
  exists d1 k, FormatKFS d = (Ok tt, d1) /\ MountKFS d1 = (Ok k, dev k) /\
    forall k', run os k = Some k' ->
      exists k2, MountKFS (dev k') = (Ok k2, dev k2) /\ same_answers k2 k'.
Proof.
  intros Hwf Hlen Hn Hz Hf Hos.
  destruct (format_mount d n Hwf Hlen Hn Hz) as (d1 & k & Hfm & Hm & Hd & _).
  exists d1, k. do 2 (split; [done|]). intros k' Hr.
  destruct (run_durable os k k' fresh_meta Hd Hf) as [m' Hd']; [cbn; lia|done|].
  destruct (remount k' m' Hd') as (k2 & Hm2 & Hd2 & _).
  exists k2. split; [done|]. by eapply durable_answers.
Qed.


(** C12: After a successful write, a read of any range returns the old
    contents with the written bytes in place, the gap zero-filled. *)
Theorem kfs_read_after_write k m path off dat k1 :
  durable k m -> 0 <= off -> off + zlen dat < 2 ^ 32 -> zlen dat <= MaxPayload - 16 ->
  WriteFile path off dat k = (Ok tt, k1) ->
  exists old,
    (forall o n, 0 <= o -> 0 < n -> fst (ReadFile path o n k) = Ok (slice old o (o + n)))
    /\ (forall o n, 0 <= o -> 0 < n ->
         fst (ReadFile path o n k1) = Ok (slice (write_at old off dat) o (o + n))).
Proof. apply write_read. Qed.

(** C13: The lazy reader ([replayData], overlaying data records on a window)
    and the mount-time reader ([apply], growing a buffer) build the same
    contents from the same log, for every file and every length. *)
Theorem kfs_lazy_reader_agrees k rs m ino want :
  vol k rs -> Forall data_exact rs -> apply_all rs (empty_meta 0) = (Ok true, m) -> 0 <= want ->
  fst (replayData ino 0 want k) = Ok (window want (default [] (data m !! ino))).
Proof. intros Hv Hx Ha Hw. by destruct (replayData_ok k rs m ino want Hv Hx Ha Hw) as (k' & _ & ->). Qed.

(** A successful delete unlinks the path: the live volume no longer
    finds it. *)
Theorem kfs_delete_unlinks k m path k' :
  durable k m -> zlen path <= 65526 -> Delete path k = (Ok tt, k') ->
  Stat (meta k') path = Err ErrNoEntry.
Proof.
  intros Hdu Hl Hd. destruct (Delete_inv k m path k' Hdu Hd Hl) as (pino & leaf & di & Hw & Hf & Ht & _).
  rewrite <- Ht. by apply removed_gone with di; [apply Hdu|..].
Qed.


(** A write at an offset of 2^63 or more is accepted and logged, and the
    volume can then no longer be mounted: replay panics. *)
Theorem kfs_huge_offset_poisons_mount k m path off dat k' :
  durable k m -> 2 ^ 63 <= off < 2 ^ 64 - 1 -> zlen dat <= MaxPayload - 16 ->
  WriteFile path off dat k = (Ok tt, k') -> fst (MountKFS (dev k')) = Panic.
Proof. apply write_past_panics. Qed.

(** The two paths of a log write (aligned whole sectors straight to the
    device, anything else by read-modify-write) have the same effect: exactly
    the given bytes at exactly the given offset, nothing else changed. *)
Theorem log_write_is_splice d off buf :
  blk_wf d -> 0 <= off -> 0 < zlen buf -> off + zlen buf <= zlen (blk_img d) ->
  exists d', writeAt off buf d = (Ok tt, d')
    /\ blk_wf d' /\ blk_img d' = splice (blk_img d) off buf.
Proof. apply writeAt_ok. Qed.

(** The host's [Format] and the guest's [FormatKFS] are the same
    function of the device: the same outcome and the same bytes. *)
Theorem host_format_is_guest_format d n :
  blk_wf d -> zlen (blk_img d) = 512 * n -> 16 <= n -> Format d = FormatKFS d.
Proof. apply Format_guest. Qed.

(** The first-boot scan always ends with an answer, leaves the device as
    it was, and says "blank" exactly when every byte is zero. *)
Theorem blank_scan_exact d :
  blk_wf d -> 0 < zlen (blk_img d) ->
  exists r d', deviceIsBlank d = (Ok r, d') /\ blk_img d' = blk_img d
    /\ (r = true <-> all_zero (blk_img d)).
Proof.
  intros Hwf Hl. destruct (deviceIsBlank_ok d Hwf Hl) as (r & d' & E & _ & Hi & Hr). by exists r, d'.
Qed.

(** A volume seeded at the split boundary of an image is the one the
    guest's probe finds; seeding leaves the first half of the image byte for
    byte as it was; and when the second half was blank the guest mounts the
    fresh volume. *)
Theorem seeded_volume_is_found d n :
  blk_wf d -> zlen (blk_img d) = 512 * n -> 32 <= n ->
  ParseSuperblock (slice (blk_img d) 0 512) = None ->
  exists o d', Format (NewOffset d (n / 2)) = (Ok tt, o)
    /\ slice (blk_img (Inner o)) 0 (n / 2 * 512) = slice (blk_img d) 0 (n / 2 * 512)
    /\ FindVolume (Inner o) = (Ok (inr (NewOffset d' (n / 2))), d')
    /\ (all_zero (slice (blk_img d) (n / 2 * 512) (512 * n)) ->
        exists k, mountAuto (Inner o) = Ok k /\ meta k = fresh_meta).
Proof. apply seed_then_find. Qed.

(** Formatting a volume that has been formatted before changes nothing:
    the superblock and the two records it writes are the bytes already
    there, and the old log behind them stays, so every old file comes back
    at the next mount. *)
Theorem format_again_keeps_the_log d n w qs :
  holds d w (fresh_log ++ qs) -> zlen (blk_img d) = 512 * n -> 16 <= n ->
  slice (blk_img d) 0 512 = EncodeSuperblock (mkSuperblock 512 n 1 1) ->
  exists d', Format d = (Ok tt, d') /\ blk_img d' = blk_img d.
Proof. apply Format_again. Qed.

(** A new formatter on a formatted device does not append after the
    existing log: its first record lands on the first record of the log (the
    root inode). *)
Theorem new_formatter_overwrites_the_log d n typ p f f' :
  blk_wf d -> zlen (blk_img d) = 512 * n -> 0 < n ->
  NewFormatter d = Ok f -> Append typ p f = (Ok tt, f') ->
  blk_img (f_dev f') = splice (blk_img d) LogStart (enc (mkRecord typ p)).
Proof. apply NewFormatter_overwrites. Qed.
End Guarantees.

Section HostGuarantees.
Context {D : Type} {HB : BlockDev D}.

(** The host formatter and the guest volume append records the same way,
    call for call: from the same device, cursor, pacing counter and inode
    watermark they give the same outcome and end in the same state, also when
    a checkpoint is due, when the log is full and when the device fails. *)
Theorem host_append_is_guest_append typ p (f : Formatter D) (k : KFS D) :
  same_writer f k -> agrees (Append typ p f) (append typ p k).
Proof. apply Append_sim. Qed.

Context {HL : BlockDevLaws D} {HS : ShortReads D}.

(** On a volume with free space the host's reference reader returns the
    log's records followed by one empty record of type 0 for every nine zero
    bytes left: nine zeros carry a valid length, CRC and no type check. *)
Theorem host_replay_reads_phantom_records d w rs :
  holds d w rs -> all_zero (slice (blk_img d) w (zlen (blk_img d))) ->
  fst (Replay d) =
  Ok (Some (rs ++ replicate (Z.to_nat ((zlen (blk_img d) - w) / 9)) (mkRecord (z2b 0) []))).
Proof using HS. intros Hh Hz. by destruct (Replay_ok d w rs Hh Hz) as (d' & -> & _). Qed.
End HostGuarantees.


(** Every payload decodes to the fields it was built from, and a framed
    record to its type and payload, whatever follows it. *)
Theorem record_roundtrip typ p q ino uid kind size parent name off dat :
  zlen p <= MaxPayload -> 0 <= ino < 2 ^ 32 -> 0 <= uid < 2 ^ 32 -> 0 <= size < 2 ^ 32 ->
  0 <= parent < 2 ^ 32 -> zlen name < 2 ^ 16 -> 0 <= off < 2 ^ 64 -> zlen dat < 2 ^ 32 ->
  DecodeRecord (slice (EncodeRecord typ p) 0 HdrLen)
    (slice (EncodeRecord typ p ++ q) HdrLen (HdrLen + zlen p)) = Some (mkRecord typ p)
  /\ DecodeInode (InodePayload ino uid kind size) = Some (ino, uid, kind, size)
  /\ DecodeDirent (DirentPayload parent DirentCreate name ino) = Some (parent, DirentCreate, name, ino)
  /\ DecodeDirent (DirentPayload parent DirentDelete name ino) = Some (parent, DirentDelete, name, 0)
  /\ DecodeData (DataPayload ino off dat) = Some (ino, off, dat)
  /\ DecodeCheckpoint (CheckpointPayload ino) = Some ino.
Proof.
  intros. split; [by apply DecodeRecord_Encode|]. split; [by apply DecodeInode_Inode|].
  split; [by apply DecodeDirent_create|]. split; [by apply DecodeDirent_delete|].
  split; [by apply DecodeData_Data|by apply DecodeCheckpoint_Checkpoint].
Qed.

(** ** Instances *)

#[local] Opaque vol0 vol1.

Definition session0 : list fsop :=
  [OMkdir (bs "/etc"); OCreate (bs "/etc/motd"); OWrite (bs "/etc/motd") 0 (bs "hello");
   OCreate (bs "/etc"); OSetUID (bs "/etc/motd") 1000; ORead (bs "/etc/motd") 1 3].

Lemma session0_fits : Forall op_fits session0.
Proof.
  unfold session0. repeat (apply Forall_cons; split; [repeat split; vm_compute; (reflexivity || discriminate)|]).
  apply Forall_nil. exact I.
Qed.

Lemma kfs_session_survives_remount_witness :
  is_Some (run session0 vol0) /\
  exists d1 k, FormatKFS disk0 = (Ok tt, d1) /\ MountKFS d1 = (Ok k, dev k) /\
    forall k', run session0 k = Some k' ->
      exists k2, MountKFS (dev k') = (Ok k2, dev k2) /\ same_answers k2 k'.
Proof.
  split.
  - assert (E : bool_decide (is_Some (run session0 vol0)) = true) by (vm_compute; reflexivity).
    apply bool_decide_eq_true in E. exact E.
  - apply (kfs_session_survives_remount disk0 16 session0).
    + exact disk0_wf.
    + reflexivity.
    + lia.
    + exact disk0_zero.
    + exact session0_fits.
    + reflexivity.
Defined.

Definition cp7 : Record_ := mkRecord RecCheckpoint (CheckpointPayload 7).

Lemma cp7_no_collision : no_collision (Payload cp7).
Proof.
  intros n Hn. change (zlen (Payload cp7)) with 4 in Hn.
  assert (Hc : n = 0 \/ n = 1 \/ n = 2 \/ n = 3) by lia.
  destruct Hc as [-> | [-> | [-> | ->]]]; vm_compute; [discriminate|reflexivity..].
Qed.


Lemma kfs_read_after_write_witness :
  exists old,
    (forall o n, 0 <= o -> 0 < n -> fst (ReadFile (bs "/a") o n vol1) = Ok (slice old o (o + n)))
    /\ (forall o n, 0 <= o -> 0 < n ->
         fst (ReadFile (bs "/a") o n (snd (WriteFile (bs "/a") 3 (bs "hi") vol1)))
         = Ok (slice (write_at old 3 (bs "hi")) o (o + n))).
Proof.
  apply (kfs_read_after_write vol1 meta1).
  - exact vol1_durable.
  - lia.
  - reflexivity.
  - vm_compute; discriminate.
  - apply outcome_eta. vm_compute. reflexivity.
Defined.

Lemma kfs_lazy_reader_agrees_witness :
  fst (replayData 1 0 4 vol0) = Ok (window 4 (default [] (data fresh_meta !! 1))).
Proof.
  apply (kfs_lazy_reader_agrees vol0 fresh_log).
  - exact vol0_vol.
  - repeat constructor; discriminate.
  - reflexivity.
  - lia.
Defined.

Lemma kfs_delete_unlinks_witness :
  Stat (meta (snd (Delete (bs "/a") vol1))) (bs "/a") = Err ErrNoEntry.
Proof.
  apply (kfs_delete_unlinks vol1 meta1).
  - exact vol1_durable.
  - vm_compute; discriminate.
  - apply outcome_eta. vm_compute. reflexivity.
Defined.


Lemma kfs_huge_offset_poisons_mount_witness :
  fst (MountKFS (dev (snd (WriteFile (bs "/a") (2 ^ 63) (bs "x") vol1)))) = Panic.
Proof.
  apply (kfs_huge_offset_poisons_mount vol1 meta1 (bs "/a") (2 ^ 63) (bs "x")).
  - exact vol1_durable.
  - lia.
  - vm_compute; discriminate.
  - apply outcome_eta. vm_compute. reflexivity.
Defined.

Lemma log_write_is_splice_witness :
  exists d', writeAt 700 (bs "abc") disk0 = (Ok tt, d')
    /\ blk_wf d' /\ blk_img d' = splice (blk_img disk0) 700 (bs "abc").
Proof.
  apply (log_write_is_splice disk0 700 (bs "abc")).
  - exact disk0_wf.
  - lia.
  - reflexivity.
  - vm_compute; discriminate.
Defined.

Lemma host_append_is_guest_append_witness :
  agrees (Append RecInode (InodePayload 2 0 KindFile 0) (mkFormatter disk0 8192 512 63 2))
    (append RecInode (InodePayload 2 0 KindFile 0) (mkKFS disk0 16 (empty_meta 2) [] 512 63 8192)).
Proof.
  apply (host_append_is_guest_append RecInode).
  split; reflexivity.
Defined.

Lemma host_format_is_guest_format_witness : Format disk0 = FormatKFS disk0.
Proof.
  apply (host_format_is_guest_format disk0 16).
  - exact disk0_wf.
  - reflexivity.
  - lia.
Defined.


Lemma record_roundtrip_witness :
  DecodeRecord (slice (EncodeRecord RecData (bs "ab")) 0 HdrLen)
    (slice (EncodeRecord RecData (bs "ab") ++ bs "zz") HdrLen (HdrLen + zlen (bs "ab")))
    = Some (mkRecord RecData (bs "ab"))
  /\ DecodeInode (InodePayload 2 0 KindFile 5) = Some (2, 0, KindFile, 5)
  /\ DecodeDirent (DirentPayload 1 DirentCreate (bs "a") 2) = Some (1, DirentCreate, bs "a", 2)
  /\ DecodeDirent (DirentPayload 1 DirentDelete (bs "a") 2) = Some (1, DirentDelete, bs "a", 0)
  /\ DecodeData (DataPayload 2 7 (bs "hi")) = Some (2, 7, bs "hi")
  /\ DecodeCheckpoint (CheckpointPayload 2) = Some 2.
Proof.
  apply (record_roundtrip RecData (bs "ab") (bs "zz") 2 0 KindFile 5 1 (bs "a") 7 (bs "hi"));
    first [lia | reflexivity | vm_compute; discriminate].
Defined.

Lemma blank_scan_exact_witness :
  exists r d', deviceIsBlank disk0 = (Ok r, d') /\ blk_img d' = blk_img disk0
    /\ (r = true <-> all_zero (blk_img disk0)).
Proof.
  apply (blank_scan_exact disk0).
  - exact disk0_wf.
  - reflexivity.
Defined.

Definition disk1 : memDevice := newMem 512 32.

Lemma disk1_wf : blk_wf disk1.
Proof. split; [|split]; vm_compute; reflexivity. Qed.

Lemma seeded_volume_is_found_witness :
  exists o d', Format (NewOffset disk1 (32 / 2)) = (Ok tt, o)
    /\ slice (blk_img (Inner o)) 0 (32 / 2 * 512) = slice (blk_img disk1) 0 (32 / 2 * 512)
    /\ FindVolume (Inner o) = (Ok (inr (NewOffset d' (32 / 2))), d')
    /\ (all_zero (slice (blk_img disk1) (32 / 2 * 512) (512 * 32)) ->
        exists k, mountAuto (Inner o) = Ok k /\ meta k = fresh_meta).
Proof.
  apply (seeded_volume_is_found disk1 32).
  - exact disk1_wf.
  - vm_compute; reflexivity.
  - lia.
  - vm_compute; reflexivity.
Defined.

Lemma host_replay_reads_phantom_records_witness :
  fst (Replay (dev vol0)) = Ok (Some (fresh_log
    ++ replicate (Z.to_nat ((zlen (blk_img (dev vol0)) - wOff vol0) / 9)) (mkRecord (z2b 0) []))).
Proof.
  apply (host_replay_reads_phantom_records (dev vol0) (wOff vol0)).
  - exact (vol_holds _ _ vol0_vol).
  - exact (vo_tail _ _ vol0_vol).
Defined.

Lemma format_again_keeps_the_log_witness :
  exists d', Format (dev vol0) = (Ok tt, d') /\ blk_img d' = blk_img (dev vol0).
Proof.
  apply (format_again_keeps_the_log (dev vol0) 16 (wOff vol0) []).
  - rewrite app_nil_r. exact (vol_holds _ _ vol0_vol).
  - vm_compute; reflexivity.
  - lia.
  - vm_compute; reflexivity.
Defined.

Definition fmt0 : Formatter memDevice := mkFormatter (dev vol0) 8192 LogStart 0 2.

Lemma new_formatter_overwrites_the_log_witness :
  blk_img (f_dev (snd (Append RecInode (InodePayload 2 0 KindDir 0) fmt0)))
  = splice (blk_img (dev vol0)) LogStart (enc (mkRecord RecInode (InodePayload 2 0 KindDir 0))).
Proof.
  apply (new_formatter_overwrites_the_log (dev vol0) 16 RecInode (InodePayload 2 0 KindDir 0) fmt0).
  - exact (ho_wf _ _ _ (vol_holds _ _ vol0_vol)).
  - vm_compute; reflexivity.
  - lia.
  - vm_compute; reflexivity.
  - apply outcome_eta. vm_compute. reflexivity.
Defined.
