(* ===== verification/FsServer.v ===== *)
(** * FsServer: the file service ([services/fs/server.go])

    The wire protocol's dispatcher and the multiuser policy.  The store below
    it is an interface (the Go [store] interface) with the KFS volume as an
    instance.  The policy theorems say where a request of a non-root uid can
    end up; the dispatcher's confinement theorem says that such a request
    changes the store only through calls the policy allows, for any store. *)

From S2P Require Import Prelude Frame BlockDev KfsFormat Paths KfsFs.

(** ** Strings

    The [strings] functions the policy uses.  Case folding is modelled on
    ASCII, the alphabet of account names. *)

Definition HasPrefix (s p : list byte) : bool := bool_decide (take (length p) s = p).
Definition TrimPrefix (s p : list byte) : list byte :=
  if HasPrefix s p then drop (length p) s else s.

Fixpoint IndexByte (s : list byte) (c : byte) : option nat :=
  match s with
  | [] => None
  | x :: s => if decide (x = c) then Some O else S <$> IndexByte s c
  end.

Definition lower_byte (b : byte) : byte :=
  if (65 <=? b2z b) && (b2z b <=? 90) then z2b (b2z b + 32) else b.
Definition ToLower (s : list byte) : list byte := map lower_byte s.
Definition EqualFold (s t : list byte) : bool := bool_decide (ToLower s = ToLower t).

(** The part before the first slash: [if i := IndexByte(s, '/'); i >= 0]. *)
Definition first_comp (s : list byte) : list byte :=
  match IndexByte s slash with Some i => take i s | None => s end.

(** ** Constants *)

Definition OpFSStat : Z := 1.
Definition OpFSList : Z := 2.
Definition OpFSRead : Z := 3.
Definition OpFSWrite : Z := 4.
Definition OpFSCreate : Z := 5.
Definition OpFSMkdir : Z := 6.
Definition OpFSDelete : Z := 7.
Definition OpFSRegister : Z := 8.

Definition FSOK : Z := 0.
Definition FSIO : Z := -1.
Definition FSNoEntry : Z := -2.
Definition FSExists : Z := -3.
Definition FSNotDir : Z := -4.
Definition FSIsDir : Z := -5.
Definition FSNoSpace : Z := -6.
Definition FSBadName : Z := -7.
Definition FSNotEmpty : Z := -8.
Definition FSRange : Z := -9.
Definition FSAccess : Z := -10.

Definition MaxMsg : Z := 4096.
Definition CapFSAdmin : Z := Z.shiftl 1 4.

(** ** Sessions and policy *)

Record fsSession := mkSession { s_name : list byte; s_mask : Z }.

Definition registerSession (sessions : gmap Z fsSession) (payload : list byte)
  : gmap Z fsSession * Z :=
  if zlen payload <? 14 then (sessions, FSBadName)
  else
    let uid := Get32 payload 0 in
    match LStr payload 4 with
    | None => (sessions, FSBadName)
    | Some (name, off) =>
        if zlen payload <? off + 8 then (sessions, FSBadName)
        else
          let mask := Get64 payload off in
          if bool_decide (name = []) || (32 <? zlen name) then (sessions, FSBadName)
          else (<[uid := mkSession (ToLower name) mask]> sessions, FSOK)
    end.

Definition absPath (raw : list byte) : list byte := if HasPrefix raw [slash] then raw else [].

Definition hasDotDot (raw : list byte) : bool :=
  existsb (fun p => bool_decide (p = dotdot)) (Split raw slash).

Definition fs_admin (sess : option fsSession) : bool :=
  match sess with
  | Some s => negb (Z.land (s_mask s) CapFSAdmin =? 0)
  | None => false
  end.

Definition gateAbsolute (uid : Z) (sess : option fsSession) (clean : list byte) (write : bool)
  : list byte * Z :=
  let top := first_comp clean in
  if bool_decide (top = bs "tmp") then (slash :: clean, FSOK)
  else if bool_decide (top = bs "etc") then
    if write && negb (fs_admin sess) then ([], FSAccess) else (slash :: clean, FSOK)
  else if bool_decide (top = bs "boot") then
    if write then ([], FSAccess) else (slash :: clean, FSOK)
  else if bool_decide (top = bs "home") then
    let rest := if bool_decide (clean = bs "home") then [] else TrimPrefix clean (bs "home/") in
    let owner := first_comp rest in
    if bool_decide (owner = []) then
      if write && negb (uid =? 0) && negb (fs_admin sess) then ([], FSAccess)
      else match sess with
           | Some s => (bs "/home/" ++ s_name s, FSOK)
           | None => ([], FSNoEntry)
           end
    else match sess with
         | Some s => if EqualFold owner (s_name s) then (bs "/home/" ++ rest, FSOK)
                     else ([], FSNoEntry)
         | None => ([], FSNoEntry)
         end
  else ([], FSNoEntry).

Definition authorize (sessions : gmap Z fsSession) (uid : Z) (raw : list byte) (write : bool)
  : list byte * Z :=
  if negb (uid =? 0) && hasDotDot raw then ([], FSAccess)
  else if uid =? 0 then
    let p := absPath raw in
    if bool_decide (p = []) then ([], FSBadName) else (p, FSOK)
  else
    let clean := TrimPrefix raw [slash] in
    let isRel := negb (HasPrefix raw [slash]) in
    match sessions !! uid with
    | Some sess =>
        if isRel then (bs "/home/" ++ s_name sess ++ slash :: clean, FSOK)
        else gateAbsolute uid (Some sess) clean write
    | None =>
        if isRel then ([], FSAccess) else gateAbsolute uid None clean write
    end.

Definition resolveFor := authorize.

Definition authPath (sessions : gmap Z fsSession) (uid : Z) (payload : list byte) (write : bool)
  : list byte * Z :=
  match LStr payload 0 with
  | None => ([], FSBadName)
  | Some (path, _) => resolveFor sessions uid path write
  end.

Definition fsStatus (err : option error) : Z :=
  match err with
  | None => FSOK
  | Some ErrNoEntry => FSNoEntry
  | Some ErrExists => FSExists
  | Some ErrNotDir => FSNotDir
  | Some ErrIsDir => FSIsDir
  | Some ErrNoSpace => FSNoSpace
  | Some ErrBadName => FSBadName
  | Some ErrNotEmpt => FSNotEmpty
  | Some ErrRange => FSRange
  | Some _ => FSIO
  end.

(** ** The store interface *)

Class Store (S : Type) := {
  st_Create : list byte -> M S error unit;
  st_Mkdir : list byte -> M S error unit;
  st_Delete : list byte -> M S error unit;
  st_Stat : list byte -> M S error StatInfo;
  st_List : list byte -> M S error (list StatInfo);
  st_ReadFile : list byte -> Z -> Z -> M S error (list byte);
  st_WriteFile : list byte -> Z -> list byte -> M S error unit;
}.

#[export] Instance KFS_Store {D} `{BlockDev D} : Store (KFS D) := {|
  st_Create := Create; st_Mkdir := Mkdir; st_Delete := Delete;
  st_Stat := fun p k => (Stat (meta k) p, k);
  st_List := fun p k => (List (meta k) p, k);
  st_ReadFile := ReadFile; st_WriteFile := WriteFile |}.

Section Server.
Context {S : Type} `{Store S}.

(** [if _, err := fat.Stat(p); err == ErrNoEntry { act }], the result of
    [act] discarded. *)
Definition if_missing (p : list byte) (act : M S error unit) : M S error unit :=
  r ← attempt (st_Stat p);
  match r with
  | inl ErrNoEntry => _ ← attempt act; mret tt
  | _ => mret tt
  end.

Fixpoint ensure_dirs (ds : list (list byte)) : M S error unit :=
  match ds with
  | [] => mret tt
  | d :: ds => _ ← if_missing d (st_Mkdir d); ensure_dirs ds
  end.

Definition ensureStandardDirs : M S error unit :=
  _ ← ensure_dirs [bs "/etc"; bs "/home"; bs "/tmp"; bs "/boot"; bs "/boot/modules"];
  if_missing (bs "/etc/motd")
    (_ ← attempt (st_Create (bs "/etc/motd"));
     st_WriteFile (bs "/etc/motd") 0 (bs "Welcome to the capability microkernel" ++ [z2b 10])).

(** ** Replies *)

Definition reply (op seq status : Z) (body : list byte) : list byte :=
  let rep := mkbuf 28 in
  let rep := Put16 rep 0 op in
  let rep := Put16 rep 2 seq in
  let rep := Put32 rep 24 (u32 status) in
  rep ++ body.

Definition statusOnly (op seq status : Z) : list byte := reply op seq status [].

Definition stat_body (st : StatInfo) : list byte :=
  let body := mkbuf 9 in
  let body := Put32 body 0 (st_Size st) in
  let body := splice body 4 [z2b (st_Attr st)] in
  Put32 body 5 (st_Cluster st).

Fixpoint list_body (ents : list StatInfo) (body : list byte) : list byte :=
  match ents with
  | [] => body
  | e :: ents =>
      if MaxMsg - 16 <? zlen body + 2 + zlen (st_Name e) + 5 then body
      else
        let body := AppendLStr body (st_Name e) in
        let body := body ++ [z2b (st_Attr e)] in
        list_body ents (body ++ Put32 (mkbuf 4) 0 (st_Size e))
  end.

Definition home_filter (sessions : gmap Z fsSession) (uid : Z) (path : list byte)
    (ents : list StatInfo) : list StatInfo :=
  if negb (uid =? 0) && bool_decide (path = bs "/home") then
    match sessions !! uid with
    | Some sess => filter (fun e => EqualFold (st_Name e) (s_name sess) = true) ents
    | None => []
    end
  else ents.

(** ** The dispatcher

    [None] is the silent drop ([ok == false]); otherwise the reply and the
    port it goes to.  The store and the session table are the state. *)

Definition onStore {A} (m : M S error A) : M (S * gmap Z fsSession) error A := fun st =>
  let '(r, s) := m (fst st) in (r, (s, snd st)).

Definition do_stat (uid op seq : Z) (payload : list byte) : M (S * gmap Z fsSession) error (list byte) :=
  st ← getS;
  let '(path, pst) := authPath (snd st) uid payload false in
  if negb (pst =? FSOK) then mret (reply op seq pst [])
  else
    r ← onStore (attempt (st_Stat path));
    match r with
    | inl e => mret (reply op seq (fsStatus (Some e)) [])
    | inr s => mret (reply op seq FSOK (stat_body s))
    end.

Definition do_list (uid op seq : Z) (payload : list byte) : M (S * gmap Z fsSession) error (list byte) :=
  st ← getS;
  let '(path, pst) := authPath (snd st) uid payload false in
  if negb (pst =? FSOK) then mret (reply op seq pst [])
  else
    r ← onStore (attempt (st_List path));
    match r with
    | inl e => mret (reply op seq (fsStatus (Some e)) [])
    | inr ents =>
        let ents := home_filter (snd st) uid path ents in
        mret (reply op seq FSOK (list_body ents (Put32 (mkbuf 4) 0 (u32 (zlen ents)))))
    end.

Definition do_read (uid op seq : Z) (payload : list byte)
  : M (S * gmap Z fsSession) error (option (list byte)) :=
  st ← getS;
  match LStr payload 0 with
  | None => mret None
  | Some (rawPath, plen) =>
      if zlen payload <? plen + 10 then mret None
      else
        let '(path, pst) := resolveFor (snd st) uid rawPath false in
        if negb (pst =? FSOK) then mret (Some (reply op seq pst []))
        else
          let roff := Get64 payload plen in
          let rcnt := Z.min (Get16 payload (plen + 8)) (MaxMsg - 16) in
          r ← onStore (attempt (st_ReadFile path roff rcnt));
          match r with
          | inl e => mret (Some (reply op seq (fsStatus (Some e)) []))
          | inr buf => mret (Some (reply op seq FSOK (Put16 (mkbuf 2) 0 (u16 (zlen buf)) ++ buf)))
          end
  end.

Definition do_write (uid op seq : Z) (payload : list byte)
  : M (S * gmap Z fsSession) error (option (list byte)) :=
  st ← getS;
  match LStr payload 0 with
  | None => mret None
  | Some (rawPath, plen) =>
      if zlen payload <? plen + 10 then mret None
      else
        let '(path, pst) := resolveFor (snd st) uid rawPath true in
        if negb (pst =? FSOK) then mret (Some (reply op seq pst []))
        else
          let woff := Get64 payload plen in
          let wcnt := Get16 payload (plen + 8) in
          if zlen payload <? plen + 10 + wcnt then mret None
          else
            r ← onStore (attempt (st_WriteFile path woff (slice payload (plen + 10) (plen + 10 + wcnt))));
            match r with
            | inl e => mret (Some (reply op seq (fsStatus (Some e)) []))
            | inr _ =>
                r2 ← onStore (attempt (st_Stat path));
                match r2 with
                | inl e => mret (Some (reply op seq (fsStatus (Some e)) []))
                | inr s => mret (Some (reply op seq FSOK (Put32 (mkbuf 4) 0 (st_Size s))))
                end
            end
  end.

Definition do_path_op (uid op seq : Z) (payload : list byte)
  : M (S * gmap Z fsSession) error (option (list byte)) :=
  st ← getS;
  match LStr payload 0 with
  | None => mret None
  | Some (rawPath, _) =>
      let '(path, pst) := resolveFor (snd st) uid rawPath true in
      if negb (pst =? FSOK) then mret (Some (reply op seq pst []))
      else
        let fn := if op =? OpFSCreate then st_Create
                  else if op =? OpFSMkdir then st_Mkdir else st_Delete in
        r ← onStore (attempt (fn path));
        mret (Some (reply op seq (fsStatus (match r with inl e => Some e | inr _ => None end)) []))
  end.

Definition do_register (uid op seq : Z) (payload : list byte) : M (S * gmap Z fsSession) error (list byte) :=
  if negb (uid =? 0) then mret (statusOnly op seq FSAccess)
  else
    st ← getS;
    let '(sessions, rst) := registerSession (snd st) payload in
    _ ← putS (fst st, sessions);
    if rst =? FSOK then
      match sessions !! Get32 payload 0 with
      | Some sess =>
          _ ← onStore (if_missing (bs "/home/" ++ s_name sess) (st_Mkdir (bs "/home/" ++ s_name sess)));
          mret (statusOnly op seq rst)
      | None => mret (statusOnly op seq rst)
      end
    else mret (statusOnly op seq rst).

(** The request after its header. *)
Definition do_op (uid op seq : Z) (payload : list byte)
  : M (S * gmap Z fsSession) error (option (list byte)) :=
  if op =? OpFSRegister then r ← do_register uid op seq payload; mret (Some r)
  else if op =? OpFSStat then r ← do_stat uid op seq payload; mret (Some r)
  else if op =? OpFSList then r ← do_list uid op seq payload; mret (Some r)
  else if op =? OpFSRead then do_read uid op seq payload
  else if op =? OpFSWrite then do_write uid op seq payload
  else if (op =? OpFSCreate) || (op =? OpFSMkdir) || (op =? OpFSDelete)
       then do_path_op uid op seq payload
  else mret None.

Definition dispatch (req : list byte)
  : M (S * gmap Z fsSession) error (option (list byte * list byte)) :=
  match ParseHeader req with
  | None => mret None
  | Some hdr =>
      if bool_decide (RNam hdr = []) then mret None
      else
        rep ← do_op (Frame.UID hdr) (Op hdr) (Seq hdr) (drop 24 req);
        mret (match rep with Some r => Some (r, RNam hdr) | None => None end)
  end.
End Server.
