(* ===== verification/FsPolicy.v ===== *)
(** * FsPolicy: the multiuser policy of the file service

    Where [authorize] can send a request of a non-root uid, stated on the
    path components the store will walk; and that the dispatcher reaches the
    store only through such paths. *)

From S2P Require Import Prelude Frame BlockDev SectorIO KfsFormat KfsLog Paths KfsFs KfsMount.
From S2P Require Import KfsData KfsTree KfsOps KfsHistory KfsTheorems FsServer.

(** ** Splitting composed paths *)

Lemma Split_app a b : Split (a ++ slash :: b) slash = Split a slash ++ Split b slash.
Proof.
  induction a as [|c a IH]; cbn [app Split].
  { by rewrite decide_True by done. }
  case_decide; [by rewrite IH|]. rewrite IH.
  pose proof (Split_nonempty a slash). by destruct (Split a slash).
Qed.

Lemma Split_no_slash a : slash ∉ a -> Split a slash = [a].
Proof.
  induction a as [|c a IH]; [done|]. intros [Hc Ha]%not_elem_of_cons. cbn [Split].
  by rewrite decide_False, IH by congruence || done.
Qed.

Lemma first_comp_Split s : exists ps, Split s slash = first_comp s :: ps.
Proof.
  unfold first_comp. induction s as [|c s [ps IH]]; [by exists []|]. cbn [IndexByte Split].
  case_decide; [by eexists|]. rewrite IH. destruct (IndexByte s slash); cbn; by eexists.
Qed.

Lemma TrimPrefix_app p s : HasPrefix s p = true -> s = p ++ TrimPrefix s p.
Proof.
  intros Hp. unfold TrimPrefix. rewrite Hp. apply bool_decide_eq_true in Hp.
  rewrite <- Hp at 1. by rewrite take_drop.
Qed.

(** The components [splitPath] keeps, when none of them is [..]. *)
Definition kept (ps : list (list byte)) : list (list byte) :=
  filter (fun p => p ≠ [] /\ p ≠ dot) ps.

Lemma split_loop_kept ps out :
  Forall (fun p => p ≠ dotdot) ps -> split_loop ps out = Ok (out ++ kept ps).
Proof.
  revert out. induction ps as [|p ps IH]; intros out Hp; [by rewrite app_nil_r|].
  apply Forall_cons in Hp as [Hp Hps]. cbn [split_loop].
  destruct (decide (p = [] \/ p = dot)) as [Hd|Hd].
  - assert (bool_decide (p = []) || bool_decide (p = dot) = true) as ->.
    { destruct Hd as [-> | ->]; by rewrite ?bool_decide_true, ?orb_true_r by done. }
    rewrite IH by done. unfold kept. rewrite filter_cons_False by tauto. done.
  - rewrite !bool_decide_false by tauto. cbn [orb]. rewrite IH by done.
    unfold kept. rewrite filter_cons_True by tauto. by rewrite <- app_assoc.
Qed.

Lemma hasDotDot_false raw : hasDotDot raw = false -> Forall (fun p => p ≠ dotdot) (Split raw slash).
Proof.
  unfold hasDotDot. intros Hd. apply Forall_forall. intros p Hp ->.
  apply not_true_iff_false in Hd. apply Hd, existsb_exists. exists dotdot.
  split; [by apply list_elem_of_In|by apply bool_decide_eq_true].
Qed.

Lemma splitPath_slash clean :
  Forall (fun p => p ≠ dotdot) (Split clean slash) ->
  splitPath (slash :: clean) = Ok (kept (Split clean slash)).
Proof. intros Hd. cbn [splitPath]. rewrite decide_True by done. by rewrite split_loop_kept. Qed.

(** ** The policy *)

(** Account names as the login service registers them. *)
Definition sessions_ok (sessions : gmap Z fsSession) : Prop :=
  forall uid s, sessions !! uid = Some s -> good_part (s_name s).

(** Where a non-root uid may go: scratch space, [/etc] (writes with
    CAP_FS_ADMIN), [/boot] (never writes), and its own home. *)
Definition allowed (sess : option fsSession) (write : bool) (parts : list (list byte)) : Prop :=
  match parts with
  | [] => False
  | top :: rest =>
      top = bs "tmp"
      \/ top = bs "etc" /\ (write = true -> fs_admin sess = true)
      \/ top = bs "boot" /\ write = false
      \/ top = bs "home" /\ exists s owner rest', sess = Some s /\ rest = owner :: rest'
           /\ EqualFold owner (s_name s) = true
  end.

Lemma kept_top top ps :
  top ≠ [] -> top ≠ dot -> kept (top :: ps) = top :: kept ps.
Proof. intros. unfold kept. by rewrite filter_cons_True. Qed.

Lemma gate_top sess write clean :
  Forall (fun p => p ≠ dotdot) (Split clean slash) ->
  first_comp clean ≠ [] -> first_comp clean ≠ dot ->
  (forall ps, allowed sess write (first_comp clean :: ps)) ->
  exists parts, splitPath (slash :: clean) = Ok parts /\ allowed sess write parts.
Proof.
  intros Hd H1 H2 Ha. exists (kept (Split clean slash)). split; [by apply splitPath_slash|].
  destruct (first_comp_Split clean) as [ps ->]. by rewrite kept_top.
Qed.

(** Under [/home]: the rest of the path after the owner's name. *)
Lemma home_path s owner ps rest :
  slash ∉ owner -> owner ≠ [] -> owner ≠ dot -> EqualFold owner (s_name s) = true ->
  Split rest slash = owner :: ps -> Forall (fun p => p ≠ dotdot) (Split rest slash) ->
  forall write, exists parts, splitPath (bs "/home/" ++ rest) = Ok parts /\ allowed (Some s) write parts.
Proof.
  intros Hs Hne Hdt He Hps Hd write.
  assert (Hsp : Split (bs "home" ++ slash :: rest) slash = bs "home" :: owner :: ps)
    by (rewrite Split_app, Hps; done).
  exists (kept (bs "home" :: owner :: ps)). split.
  - change (bs "/home/" ++ rest) with (slash :: (bs "home" ++ slash :: rest)).
    rewrite splitPath_slash; rewrite Hsp; [done|]. rewrite <- Hps. by apply Forall_cons.
  - rewrite !kept_top by done. right. right. right. split; [done|]. by exists s, owner, (kept ps).
Qed.

Lemma EqualFold_refl s : EqualFold s s = true.
Proof. by apply bool_decide_eq_true. Qed.

Lemma EqualFold_nodot owner name :
  EqualFold owner name = true -> name ≠ dot -> owner ≠ dot.
Proof.
  intros He%bool_decide_eq_true Hn ->. apply Hn. symmetry in He. unfold ToLower in He.
  destruct name as [|c [|]]; try done. cbn in He. injection He as He.
  assert (c = Byte.x2e) as ->; [|done].
  unfold lower_byte in He. destruct ((65 <=? b2z c) && (b2z c <=? 90)) eqn:E; [|done].
  apply andb_prop in E as [E1%Z.leb_le E2%Z.leb_le].
  apply (f_equal b2z) in He. rewrite b2z_z2b, Z.mod_small in He by lia.
  change (b2z Byte.x2e) with 46 in He. lia.
Qed.

Lemma Split_TrimPrefix_home clean :
  first_comp clean = bs "home" -> clean ≠ bs "home" ->
  Split clean slash = bs "home" :: Split (TrimPrefix clean (bs "home/")) slash.
Proof.
  intros Ht Hn. unfold first_comp in Ht.
  destruct (IndexByte clean slash) as [i|] eqn:Hi; [|done].
  assert (Hat : clean !! i = Some slash /\ clean = take i clean ++ slash :: drop (S i) clean).
  { assert (Hl : forall s j, IndexByte s slash = Some j -> s !! j = Some slash).
    { induction s as [|x s IH]; intros j; cbn; [done|]. case_decide; [by intros [= <-]; subst|].
      destruct (IndexByte s slash) eqn:E; [|done]. intros [= <-]. cbn. by apply IH. }
    apply Hl in Hi. split; [done|]. by rewrite take_drop_middle. }
  destruct Hat as [_ Hc]. rewrite Ht in Hc.
  assert (E : TrimPrefix clean (bs "home/") = drop (S i) clean).
  { rewrite Hc at 1. done. }
  rewrite E. rewrite Hc at 1. by rewrite Split_app.
Qed.

Lemma gateAbsolute_allowed uid sess clean write path :
  (forall s, sess = Some s -> good_part (s_name s)) ->
  Forall (fun p => p ≠ dotdot) (Split clean slash) ->
  gateAbsolute uid sess clean write = (path, FSOK) ->
  exists parts, splitPath path = Ok parts /\ allowed sess write parts.
Proof.
  intros Hs Hd. unfold gateAbsolute. cbv zeta.
  case_bool_decide as Htmp.
  { intros [= <-]. apply gate_top; rewrite ?Htmp; try done. intros ps. by left. }
  case_bool_decide as Hetc.
  { destruct (write && negb (fs_admin sess)) eqn:Hw; [done|]. intros [= <-].
    apply gate_top; rewrite ?Hetc; try done. intros ps. right. left. split; [done|].
    intros ->. cbn in Hw. by apply negb_false_iff in Hw. }
  case_bool_decide as Hboot.
  { destruct write; [done|]. intros [= <-]. apply gate_top; rewrite ?Hboot; try done.
    intros ps. right. right. by left. }
  case_bool_decide as Hhome; [|done].
  set (rest := if bool_decide (clean = bs "home") then [] else TrimPrefix clean (bs "home/")).
  case_bool_decide as Hown.
  - destruct (write && _ && _); [done|]. destruct sess as [s|]; [|done]. intros [= <-].
    destruct (Hs s eq_refl) as (Hne & Hdt & Hdd & Hsl).
    apply (home_path s (s_name s) []); try done; [apply EqualFold_refl|by apply Split_no_slash|].
    rewrite Split_no_slash by done. by apply Forall_singleton.
  - destruct sess as [s|]; [|done]. destruct (EqualFold _ _) eqn:He; [|done]. intros [= <-].
    destruct (Hs s eq_refl) as (Hne & Hdt & Hdd & Hsl).
    destruct (first_comp_Split rest) as [ps Hps].
    assert (Hin : slash ∉ first_comp rest).
    { pose proof (Split_no_sep rest slash) as Hf. rewrite Hps in Hf. by apply Forall_cons in Hf as [? _]. }
    apply (home_path s (first_comp rest) ps); try done; [by eapply EqualFold_nodot|].
    unfold rest. case_bool_decide as Hc; [by apply Forall_singleton|].
    rewrite (Split_TrimPrefix_home clean Hhome Hc) in Hd. by apply Forall_cons in Hd as [_ Hd].
Qed.

(** Every path a non-root uid is given lies where the policy allows. *)
Lemma authorize_allowed sessions uid raw write path :
  sessions_ok sessions -> uid ≠ 0 -> authorize sessions uid raw write = (path, FSOK) ->
  exists parts, splitPath path = Ok parts /\ allowed (sessions !! uid) write parts.
Proof.
  intros Hok Hu. unfold authorize. rewrite (proj2 (Z.eqb_neq _ _) Hu). cbn [negb andb].
  destruct (hasDotDot raw) eqn:Hdd; [done|]. apply hasDotDot_false in Hdd.
  destruct (HasPrefix raw [slash]) eqn:Hp; cbn [negb].
  - assert (Hraw : raw = slash :: TrimPrefix raw [slash]) by (by apply (TrimPrefix_app [slash])).
    rewrite Hraw in Hdd. change (slash :: TrimPrefix raw [slash]) with ([] ++ slash :: TrimPrefix raw [slash]) in Hdd.
    rewrite Split_app in Hdd. apply Forall_app in Hdd as [_ Hdd].
    destruct (sessions !! uid) as [s|] eqn:Hs; intros Hg;
      (eapply gateAbsolute_allowed; [|done|exact Hg]).
    + intros s' [= <-]. by eapply Hok.
    + done.
  - destruct (sessions !! uid) as [s|] eqn:Hs; [|done]. intros [= <-].
    unfold TrimPrefix. rewrite Hp. destruct (Hok _ _ Hs) as (Hne & Hdt & Hdot & Hsl).
    assert (Hsp : Split (s_name s ++ slash :: raw) slash = s_name s :: Split raw slash)
      by (rewrite Split_app, Split_no_slash by done; done).
    apply (home_path s (s_name s) (Split raw slash)); try done; [apply EqualFold_refl|].
    rewrite Hsp. by apply Forall_cons.
Qed.

(** ** The dispatcher under the policy *)

Lemma allowed_read sess parts : allowed sess true parts -> allowed sess false parts.
Proof.
  destruct parts as [|top rest]; [done|].
  intros [Ht|[[Ht Hc]|[[_ Hf]|Hh]]]; [by left|right; left; by split|done|right; right; by right].
Qed.

Definition preserves {S A} (I : S -> Prop) (m : M S error A) : Prop := forall s, I s -> I (snd (m s)).

Lemma preserves_attempt {S A} (I : S -> Prop) (m : M S error A) :
  preserves I m -> preserves I (attempt m).
Proof. intros Hm s Hs. specialize (Hm s Hs). unfold attempt. by destruct (m s) as [[]]. Qed.

Lemma preserves_ret {S A} (I : S -> Prop) (a : A) : preserves I (mret a : M S error A).
Proof. by intros s. Qed.

Lemma preserves_bind {S A B} (I : S -> Prop) (m : M S error A) (f : A -> M S error B) :
  preserves I m -> (forall a, preserves I (f a)) -> preserves I (m ≫= f).
Proof.
  intros Hm Hf s Hs. specialize (Hm s Hs). unfold mbind, M_bind.
  destruct (m s) as [[a|e|] s']; [by apply Hf|done|done].
Qed.

Section Confined.
Context {S : Type} `{Store S}.
Variables (sessions : gmap Z fsSession) (uid : Z) (I : S -> Prop).
Hypothesis Hok : sessions_ok sessions.
Hypothesis Hu : uid ≠ 0.

(** What the store keeps under the calls the policy allows this uid. *)
Hypothesis Hread : forall path parts, splitPath path = Ok parts ->
  allowed (sessions !! uid) false parts ->
  preserves I (st_Stat path) /\ preserves I (st_List path)
  /\ forall off n, preserves I (st_ReadFile path off n).
Hypothesis Hwrite : forall path parts, splitPath path = Ok parts ->
  allowed (sessions !! uid) true parts ->
  preserves I (st_Create path) /\ preserves I (st_Mkdir path) /\ preserves I (st_Delete path)
  /\ forall off dat, preserves I (st_WriteFile path off dat).

Let J (st : S * gmap Z fsSession) : Prop := I (fst st) /\ snd st = sessions.

Lemma onStore_J {A} (m : M S error A) : preserves I m -> preserves J (onStore m).
Proof.
  intros Hm [s ss] [Hs Hss]. unfold onStore. cbn in *. specialize (Hm s Hs).
  destruct (m s) as [r s']. by split.
Qed.

(** The sub-computations after [getS] see the session table [sessions]. *)
Lemma getS_J {A} (f : S * gmap Z fsSession -> M (S * gmap Z fsSession) error A) :
  (forall st, snd st = sessions -> preserves J (f st)) -> preserves J (getS ≫= f).
Proof. intros Hf st Hst. rewrite bind_getS. by apply Hf; [apply Hst|]. Qed.

Lemma authorize_read_J raw path pst :
  authorize sessions uid raw false = (path, pst) -> (pst =? FSOK) = true ->
  preserves I (st_Stat path) /\ preserves I (st_List path)
  /\ forall off n, preserves I (st_ReadFile path off n).
Proof using Hok Hu Hread.
  intros Ha ->%Z.eqb_eq. destruct (authorize_allowed _ _ _ _ _ Hok Hu Ha) as (parts & Hp & Hal).
  by eapply Hread.
Qed.

Lemma authorize_write_J raw path pst :
  authorize sessions uid raw true = (path, pst) -> (pst =? FSOK) = true ->
  preserves I (st_Stat path)
  /\ preserves I (st_Create path) /\ preserves I (st_Mkdir path) /\ preserves I (st_Delete path)
  /\ forall off dat, preserves I (st_WriteFile path off dat).
Proof using Hok Hu Hread Hwrite.
  intros Ha ->%Z.eqb_eq. destruct (authorize_allowed _ _ _ _ _ Hok Hu Ha) as (parts & Hp & Hal).
  split; [|by eapply Hwrite]. apply allowed_read in Hal. by apply (Hread path parts).
Qed.

Lemma authPath_read_J payload path pst :
  authPath sessions uid payload false = (path, pst) -> (pst =? FSOK) = true ->
  preserves I (st_Stat path) /\ preserves I (st_List path).
Proof using Hok Hu Hread.
  unfold authPath, resolveFor. destruct (LStr payload 0) as [[p n]|]; [|by intros [= <- <-]].
  intros Ha Hp. by destruct (authorize_read_J _ _ _ Ha Hp) as (? & ? & _).
Qed.

Lemma do_stat_J op seq payload : preserves J (do_stat uid op seq payload).
Proof using Hok Hu Hread.
  apply getS_J. intros st ->. destruct (authPath sessions uid payload false) as [path pst] eqn:Ha.
  destruct (pst =? FSOK) eqn:Hp; cbn [negb]; [|apply preserves_ret].
  apply preserves_bind; [|intros []; apply preserves_ret].
  apply onStore_J, preserves_attempt, (authPath_read_J _ _ _ Ha Hp).
Qed.

Lemma do_list_J op seq payload : preserves J (do_list uid op seq payload).
Proof using Hok Hu Hread.
  apply getS_J. intros st ->. destruct (authPath sessions uid payload false) as [path pst] eqn:Ha.
  destruct (pst =? FSOK) eqn:Hp; cbn [negb]; [|apply preserves_ret].
  apply preserves_bind; [|intros []; apply preserves_ret].
  apply onStore_J, preserves_attempt, (authPath_read_J _ _ _ Ha Hp).
Qed.

Lemma do_read_J op seq payload : preserves J (do_read uid op seq payload).
Proof using Hok Hu Hread.
  apply getS_J. intros st ->. destruct (LStr payload 0) as [[raw plen]|]; [|apply preserves_ret].
  destruct (_ <? _); [apply preserves_ret|]. unfold resolveFor.
  destruct (authorize sessions uid raw false) as [path pst] eqn:Ha.
  destruct (pst =? FSOK) eqn:Hp; cbn [negb]; [|apply preserves_ret]. cbv zeta.
  apply preserves_bind; [|intros []; apply preserves_ret].
  apply onStore_J, preserves_attempt, (authorize_read_J _ _ _ Ha Hp).
Qed.

Lemma do_write_J op seq payload : preserves J (do_write uid op seq payload).
Proof using Hok Hu Hread Hwrite.
  apply getS_J. intros st ->. destruct (LStr payload 0) as [[raw plen]|]; [|apply preserves_ret].
  destruct (_ <? _); [apply preserves_ret|]. unfold resolveFor.
  destruct (authorize sessions uid raw true) as [path pst] eqn:Ha.
  destruct (pst =? FSOK) eqn:Hp; cbn [negb]; [|apply preserves_ret]. cbv zeta.
  destruct (_ <? _); [apply preserves_ret|].
  destruct (authorize_write_J _ _ _ Ha Hp) as (Hs & _ & _ & _ & Hw).
  apply preserves_bind; [by apply onStore_J, preserves_attempt|]. intros []; [apply preserves_ret|].
  apply preserves_bind; [by apply onStore_J, preserves_attempt|]. intros []; apply preserves_ret.
Qed.

Lemma do_path_op_J op seq payload : preserves J (do_path_op uid op seq payload).
Proof using Hok Hu Hread Hwrite.
  apply getS_J. intros st ->. destruct (LStr payload 0) as [[raw plen]|]; [|apply preserves_ret].
  unfold resolveFor. destruct (authorize sessions uid raw true) as [path pst] eqn:Ha.
  destruct (pst =? FSOK) eqn:Hp; cbn [negb]; [|apply preserves_ret]. cbv zeta.
  destruct (authorize_write_J _ _ _ Ha Hp) as (_ & Hc & Hm & Hd & _).
  apply preserves_bind; [|intros []; apply preserves_ret]. apply onStore_J, preserves_attempt.
  destruct (op =? OpFSCreate); [done|]. by destruct (op =? OpFSMkdir).
Qed.

Lemma do_op_J op seq payload : preserves J (do_op uid op seq payload).
Proof using Hok Hu Hread Hwrite.
  unfold do_op. destruct (op =? OpFSRegister).
  { unfold do_register. rewrite (proj2 (Z.eqb_neq _ _) Hu). by intros st. }
  repeat (case_match; [first [apply do_read_J | apply do_write_J | apply do_path_op_J |
    apply preserves_bind; [first [apply do_stat_J | apply do_list_J]|intros; apply preserves_ret]]|]).
  apply preserves_ret.
Qed.

Lemma dispatch_J req hdr :
  ParseHeader req = Some hdr -> Frame.UID hdr = uid -> preserves J (dispatch req).
Proof using Hok Hu Hread Hwrite.
  intros Hp Huid. unfold dispatch. rewrite Hp, Huid. case_bool_decide; [apply preserves_ret|].
  apply preserves_bind; [apply do_op_J|intros; apply preserves_ret].
Qed.
End Confined.

(** ** Replies *)

Lemma reply_eq op seq status body :
  reply op seq status body = le_split 2 op ++ le_split 2 seq ++ mkbuf 20 ++ le_split 4 (u32 status) ++ body.
Proof.
  unfold reply. cbv zeta. rewrite !Put16_split, Put32_split.
  rewrite (mkbuf_app0 28).
  repeat (rewrite (splice_frontier _ (le_split 2 _)) by len_solve; rewrite ?app_assoc).
  rewrite !zlen_le_split. change (mkbuf (28 - Z.of_nat 2 - Z.of_nat 2)) with (mkbuf 20 ++ mkbuf 4).
  rewrite app_assoc, (splice_frontier _ (le_split 4 _)) by len_solve.
  rewrite zlen_le_split. change (mkbuf (4 - Z.of_nat 4)) with (@nil byte).
  by rewrite app_nil_r, <- !app_assoc.
Qed.

Lemma Get16_reply op seq status body :
  0 <= op < 2 ^ 16 -> 0 <= seq < 2 ^ 16 ->
  Get16 (reply op seq status body) 0 = op /\ Get16 (reply op seq status body) 2 = seq.
Proof. intros Ho Hs. rewrite reply_eq. split; fields; by apply u16_small. Qed.

Definition yields {S A} (P : A -> Prop) (m : M S error A) : Prop :=
  forall s a s', m s = (Ok a, s') -> P a.

Lemma yields_bind {S A B} (P : B -> Prop) (m : M S error A) (f : A -> M S error B) :
  (forall a, yields P (f a)) -> yields P (m ≫= f).
Proof. intros Hf s b s2 Hb. apply bind_inv_ok in Hb as (a & s1 & _ & Hb). by eapply Hf. Qed.

Lemma yields_ret {S A} (P : A -> Prop) (a : A) : P a -> yields P (mret a : M S error A).
Proof. by intros Ha s b s' [= <- <-]. Qed.

Section Replies.
Context {S : Type} `{Store S}.

Definition answers (op seq : Z) (rep : list byte) : Prop :=
  exists status body, rep = reply op seq status body.
Definition answers' (op seq : Z) (rep : option (list byte)) : Prop :=
  match rep with Some r => answers op seq r | None => True end.

Ltac yields_go :=
  repeat first
    [ apply yields_bind; intros
    | progress cbv zeta
    | apply yields_ret; first [done | eexists _, _; reflexivity]
    | case_match ].

Lemma do_op_answers uid op seq payload : yields (answers' op seq) (do_op uid op seq payload).
Proof.
  assert (Hlift : forall m : M (S * gmap Z fsSession) error (list byte),
    yields (answers op seq) m -> yields (answers' op seq) (r ← m; mret (Some r))).
  { intros m Hm s b s2 Hb. apply bind_inv_ok in Hb as (a & s1 & Ha & Hb). injection Hb as <- <-.
    by eapply Hm. }
  unfold do_op. repeat (case_match; [try apply Hlift;
    unfold do_register, do_stat, do_list, do_read, do_write, do_path_op, statusOnly; yields_go|]).
  by apply yields_ret.
Qed.

Lemma dispatch_answers req st rep inbox st' :
  dispatch req st = (Ok (Some (rep, inbox)), st') ->
  exists hdr, ParseHeader req = Some hdr /\ inbox = RNam hdr /\ inbox ≠ []
    /\ Get16 rep 0 = Op hdr /\ Get16 rep 2 = Seq hdr.
Proof.
  unfold dispatch. destruct (ParseHeader req) as [hdr|] eqn:Hp; [|done].
  case_bool_decide as Hr; [done|]. intros Hd. apply bind_inv_ok in Hd as (r & s1 & Hop & Hd).
  destruct r as [r|]; [|done]. injection Hd as -> <- _.
  apply do_op_answers in Hop as (status & body & ->).
  exists hdr. do 3 (split; [done|]). apply Get16_reply; unfold ParseHeader in Hp;
    (destruct (_ <? _); [done|]); injection Hp as <-; apply Get16_range.
Qed.
End Replies.

(** ** The guarantees *)



(** Every reply carries the operation and the sequence number of its
    request and goes to the reply port the request named; a request without a
    reply port gets none. *)
Theorem fs_reply_matches_request {S} `{Store S} req st rep inbox st' :
  dispatch req st = (Ok (Some (rep, inbox)), st') ->
  exists hdr, ParseHeader req = Some hdr /\ inbox = RNam hdr /\ inbox ≠ []
    /\ Get16 rep 0 = Op hdr /\ Get16 rep 2 = Seq hdr.
Proof. apply dispatch_answers. Qed.

(** No non-root uid can write under [/boot], whatever its capability
    mask holds (CAP_FS_ADMIN included). *)
Theorem fs_boot_never_writable sessions uid clean :
  uid ≠ 0 -> first_comp clean = bs "boot" ->
  authorize sessions uid (slash :: clean) true = ([], FSAccess).
Proof.
  intros Hu Hf. unfold authorize. rewrite (proj2 (Z.eqb_neq _ _) Hu). cbn [negb andb].
  destruct (hasDotDot (slash :: clean)); [done|].
  change (HasPrefix (slash :: clean) [slash]) with true. cbn [negb].
  change (TrimPrefix (slash :: clean) [slash]) with clean.
  destruct (sessions !! uid); unfold gateAbsolute; cbv zeta; rewrite Hf; done.
Qed.

(** ** Instances *)

Definition sessions0 : gmap Z fsSession := {[ 1000 := mkSession (bs "alice") CapFSAdmin ]}.

Lemma sessions0_ok : sessions_ok sessions0.
Proof.
  unfold sessions0. intros uid s [_ <-]%lookup_singleton_Some. cbn [s_name].
  do 3 (split; [discriminate|]). apply (bool_decide_unpack _). vm_compute. exact I.
Qed.


(** A store that records the path of every mutation it is asked for. *)
Definition recorder : Store (list (list byte)) := {|
  st_Create := fun p s => (Ok tt, p :: s);
  st_Mkdir := fun p s => (Ok tt, p :: s);
  st_Delete := fun p s => (Ok tt, p :: s);
  st_Stat := fun p s => (Err ErrNoEntry, s);
  st_List := fun p s => (Err ErrNoEntry, s);
  st_ReadFile := fun p off n s => (Err ErrNoEntry, s);
  st_WriteFile := fun p off dat s => (Ok tt, p :: s) |}.

(** The kernel's stamp: the sender's uid in the header. *)
Definition stamp (uid : Z) (req : list byte) : list byte := Put32 req 4 uid.

Definition create_req (path : list byte) : list byte :=
  stamp 1000 (FrameCanonical OpFSCreate 7 (bs "sh.1") (AppendLStr [] path)).


Lemma fs_reply_matches_request_witness :
  exists hdr, ParseHeader (create_req (bs "notes")) = Some hdr /\ bs "sh.1" = RNam hdr
    /\ bs "sh.1" ≠ [] /\ Get16 (reply OpFSCreate 7 0 []) 0 = Op hdr
    /\ Get16 (reply OpFSCreate 7 0 []) 2 = Seq hdr.
Proof.
  apply (@fs_reply_matches_request _ recorder (create_req (bs "notes")) ([], sessions0)
    (reply OpFSCreate 7 0 []) (bs "sh.1") ([bs "/home/alice/notes"], sessions0)).
  vm_compute. reflexivity.
Defined.

Lemma fs_boot_never_writable_witness :
  authorize sessions0 1000 (bs "/boot/modules/fs.wasm") true = ([], FSAccess).
Proof.
  apply (fs_boot_never_writable sessions0 1000 (bs "boot/modules/fs.wasm")).
  - discriminate.
  - reflexivity.
Defined.

(** ** The size of a listing *)

Definition list_req (path : list byte) : list byte :=
  stamp 1000 (FrameCanonical OpFSList 8 (bs "sh.1") (AppendLStr [] path)).

Definition long_name : list byte := replicate 4060 Byte.x61.

(** The standard tree on the fresh volume, then one create and one list by an
    unregistered uid. *)
Definition long_list : outcome error (option (list byte * list byte)) :=
  let st := (snd (ensureStandardDirs vol0), ∅) in
  fst ((_ ← dispatch (create_req (bs "/tmp/" ++ long_name)); dispatch (list_req (bs "/tmp"))) st).

(** A listing can be longer than a datagram.  The dispatcher stops
    adding entries at [MaxMsg - 16] bytes of body, but the reply's header is
    28 bytes: one file with a 4060-byte name in [/tmp], which any uid may
    create in one datagram, makes the reply to listing [/tmp] larger than the
    4096 bytes a port accepts. *)
Theorem fs_list_reply_exceeds_datagram :
  zlen (create_req (bs "/tmp/" ++ long_name)) <= MaxMsg /\
  match long_list with
  | Ok (Some (rep, _)) => Get32 rep 24 = FSOK /\ MaxMsg < zlen rep
  | _ => False
  end.
Proof. vm_compute. split; [discriminate|]. split; reflexivity. Qed.
