(* ===== verification/NetWire.v ===== *)
(** * NetWire: the wire formats of the network service

    Models [services/net/be.go], [eth.go], [ip.go], the packet part of
    [arp.go], [udp.go] and [tcp.go] and the checksums of [netstack.go]: big-endian accessors,
    hardware and IPv4 addresses with their text forms, Ethernet II, IPv4,
    ICMP echo, ARP, UDP and TCP segments.  Arrays [[6]byte] and [[4]byte] are
    records of bytes; [uint8] fields are bytes and wider fields are [Z]. *)

From S2P Require Import Prelude Frame BlockDev Paths.

(** The error values of [services/net]. *)
Inductive neterr :=
| ErrShortFrame | ErrIPv4 | ErrTooBig | ErrBadICMP | ErrBadARP | ErrUDP | ErrTCP
| ErrMac | ErrMacOctet | ErrMacDigit | ErrIP | ErrIPOctet | ErrIPDigit
| ErrArpTimeout | ErrNoRoute | ErrNoReplyNet | ErrPortInUse | ErrNoPending
| ErrClosed | ErrConnReset | ErrRemoteClosed
| errShort | errMagic | errHType | errTruncated | errOptLen | errNoEnd
| errNoReply | errNoOffer | errNoAck | randomErr.

#[export] Instance neterr_eq_decision : EqDecision neterr.
Proof. solve_decision. Defined.

(** ** Big-endian accessors *)

Definition BePut16 (b : list byte) (off v : Z) : list byte :=
  splice b off [z2b (Z.shiftr v 8); z2b v].

Definition BePut32 (b : list byte) (off v : Z) : list byte :=
  splice b off [z2b (Z.shiftr v 24); z2b (Z.shiftr v 16); z2b (Z.shiftr v 8); z2b v].

Definition BeGet16 (b : list byte) (off : Z) : Z :=
  Z.lor (Z.shiftl (b2z (idx b off)) 8) (b2z (idx b (off + 1))).

Definition BeGet32 (b : list byte) (off : Z) : Z :=
  Z.lor (Z.lor (Z.lor (Z.shiftl (b2z (idx b off)) 24) (Z.shiftl (b2z (idx b (off + 1))) 16))
    (Z.shiftl (b2z (idx b (off + 2))) 8)) (b2z (idx b (off + 3))).

(** ** Addresses *)

Record MAC := mkMAC { m0 : byte; m1 : byte; m2 : byte; m3 : byte; m4 : byte; m5 : byte }.
Record IP4 := mkIP4 { a0 : byte; a1 : byte; a2 : byte; a3 : byte }.

#[export] Instance MAC_eq_decision : EqDecision MAC.
Proof. solve_decision. Defined.
#[export] Instance IP4_eq_decision : EqDecision IP4.
Proof. solve_decision. Defined.

Definition mac_bytes (m : MAC) : list byte := [m0 m; m1 m; m2 m; m3 m; m4 m; m5 m].
Definition ip_bytes (a : IP4) : list byte := [a0 a; a1 a; a2 a; a3 a].

(** [copy(m[:], b[off:off+6])] and [copy(ip[:], b[off:off+4])]. *)
Definition mac_at (b : list byte) (off : Z) : MAC :=
  mkMAC (idx b off) (idx b (off + 1)) (idx b (off + 2)) (idx b (off + 3))
    (idx b (off + 4)) (idx b (off + 5)).
Definition ip_at (b : list byte) (off : Z) : IP4 :=
  mkIP4 (idx b off) (idx b (off + 1)) (idx b (off + 2)) (idx b (off + 3)).

#[export] Instance IP4_countable : Countable IP4.
Proof.
  refine (inj_countable' (fun a => (a0 a, a1 a, a2 a, a3 a))
    (fun '(a, b, c, d) => mkIP4 a b c d) _). by intros [].
Defined.

Definition BroadcastMAC : MAC :=
  mkMAC Byte.xff Byte.xff Byte.xff Byte.xff Byte.xff Byte.xff.

Definition IsBroadcast (m : MAC) : bool := bool_decide (m = BroadcastMAC).

Definition IP4_zero : IP4 := mkIP4 Byte.x00 Byte.x00 Byte.x00 Byte.x00.
Definition IsZero (a : IP4) : bool := bool_decide (a = IP4_zero).
Definition broadcastIP : IP4 := mkIP4 Byte.xff Byte.xff Byte.xff Byte.xff.

(** *** Text forms *)

Definition hexdigits : list byte := bs "0123456789abcdef".

Definition mac_octet (b : byte) : list byte :=
  [idx hexdigits (Z.shiftr (b2z b) 4); idx hexdigits (Z.land (b2z b) 0xf)].

Definition colon : byte := Byte.x3a.

Definition MAC_String (m : MAC) : list byte :=
  mac_octet (m0 m) ++ [colon] ++ mac_octet (m1 m) ++ [colon] ++ mac_octet (m2 m) ++ [colon]
  ++ mac_octet (m3 m) ++ [colon] ++ mac_octet (m4 m) ++ [colon] ++ mac_octet (m5 m).

Definition hexVal (c : byte) : option Z :=
  let v := b2z c in
  if (48 <=? v) && (v <=? 57) then Some (v - 48)
  else if (97 <=? v) && (v <=? 102) then Some (v - 97 + 10)
  else if (65 <=? v) && (v <=? 70) then Some (v - 65 + 10)
  else None.

Definition parse_hex_octet (p : list byte) : outcome neterr byte :=
  match p with
  | [h; l] =>
      match hexVal h, hexVal l with
      | Some hi, Some lo => Ok (z2b (Z.lor (Z.shiftl hi 4) lo))
      | _, _ => Err ErrMacDigit
      end
  | _ => Err ErrMacOctet
  end.

(** The [for i, p := range parts] loops of the two address parsers: the
    first error ends the loop. *)
Fixpoint each {A B} (f : A -> outcome neterr B) (ps : list A) : outcome neterr (list B) :=
  match ps with
  | [] => Ok []
  | p :: ps => x ← f p; xs ← each f ps; Ok (x :: xs)
  end.

Definition ParseMAC (s : list byte) : outcome neterr MAC :=
  let parts := Split s colon in
  if negb (zlen parts =? 6) then Err ErrMac
  else m ← each parse_hex_octet parts; Ok (mac_at m 0).

Fixpoint uitoa_loop (fuel : nat) (v : Z) (acc : list byte) : list byte :=
  match fuel with
  | O => acc
  | S fuel => if v =? 0 then acc else uitoa_loop fuel (v / 10) (z2b (48 + v mod 10) :: acc)
  end.

(** The digits fill a 20-byte array from its end; 20 digits hold any 64-bit value. *)
Definition uitoa64 (v : Z) : list byte :=
  if v =? 0 then bs "0" else uitoa_loop 20 v [].

Definition itoa (v : Z) : list byte := uitoa64 (u64 v).

Definition full_stop : byte := Byte.x2e.

Definition IP4_String (a : IP4) : list byte :=
  itoa (b2z (a0 a)) ++ [full_stop] ++ itoa (b2z (a1 a)) ++ [full_stop]
  ++ itoa (b2z (a2 a)) ++ [full_stop] ++ itoa (b2z (a3 a)).

Fixpoint parse_digits (p : list byte) (v : Z) : outcome neterr Z :=
  match p with
  | [] => Ok v
  | ch :: p =>
      if (b2z ch <? 48) || (57 <? b2z ch) then Err ErrIPDigit
      else parse_digits p (v * 10 + (b2z ch - 48))
  end.

Definition parse_dec_octet (p : list byte) : outcome neterr byte :=
  if (zlen p =? 0) || (3 <? zlen p) then Err ErrIPOctet
  else v ← parse_digits p 0; if 255 <? v then Err ErrIPOctet else Ok (z2b v).

Definition ParseIP (s : list byte) : outcome neterr IP4 :=
  let parts := Split s full_stop in
  if negb (zlen parts =? 4) then Err ErrIP
  else ip ← each parse_dec_octet parts; Ok (ip_at ip 0).

(** ** Ethernet II *)

Definition SlotDataLen : Z := 1526.
Definition MaxFrame : Z := SlotDataLen.
Definition EthHdrLen : Z := 14.
Definition EthMinLen : Z := 60.
Definition EthPayloadM : Z := MaxFrame - EthHdrLen.
Definition EthTypeARP : Z := 0x0806.
Definition EthTypeIPv4 : Z := 0x0800.

Record EthFrame := mkEth { eth_Dst : MAC; eth_Src : MAC; eth_Type : Z; eth_Payload : list byte }.

Definition ParseEth (raw : list byte) : outcome neterr EthFrame :=
  if zlen raw <? EthHdrLen then Err ErrShortFrame
  else Ok (mkEth (mac_at raw 0) (mac_at raw 6) (BeGet16 raw 12) (drop 14 raw)).

Definition BuildEth (dst src : MAC) (ethertype : Z) (payload : list byte) : list byte :=
  let n := EthHdrLen + zlen payload in
  let n := if n <? EthMinLen then EthMinLen else n in
  let out := mkbuf n in
  let out := splice out 0 (mac_bytes dst) in
  let out := splice out 6 (mac_bytes src) in
  let out := BePut16 out 12 ethertype in
  splice out EthHdrLen payload.

(** ** IPv4 *)

Definition IP4HdrLen : Z := 20.
Definition IP4ProtoICMP : byte := Byte.x01.
Definition IP4ProtoUDP : byte := Byte.x11.
Definition IP4ProtoTCP : byte := Byte.x06.

Record IP4Packet := mkIP4Packet {
  ip_Src : IP4; ip_Dst : IP4; ip_Proto : byte; ip_TTL : byte; ip_Payload : list byte }.

(** The 16-bit words of a buffer added into a 32-bit accumulator; an odd last
    byte is a high byte. *)
Fixpoint sum_words (b : list byte) (sum : Z) : Z :=
  match b with
  | x :: y :: b => sum_words b (u32 (sum + BeGet16 [x; y] 0))
  | [x] => u32 (sum + Z.shiftl (b2z x) 8)
  | [] => sum
  end.

(** [for sum>>16 != 0 { sum = sum&0xffff + sum>>16 }]; [carry_small] shows
    that three rounds end it for every 32-bit sum. *)
Fixpoint fold_carry (fuel : nat) (sum : Z) : Z :=
  match fuel with
  | O => sum
  | S fuel =>
      if Z.shiftr sum 16 =? 0 then sum
      else fold_carry fuel (u32 (Z.land sum 0xffff + Z.shiftr sum 16))
  end.

Definition Checksum (b : list byte) : Z := u16 (Z.lnot (fold_carry 3 (sum_words b 0))).

Definition ParseIP4 (p : list byte) : outcome neterr IP4Packet :=
  if zlen p <? IP4HdrLen then Err ErrShortFrame
  else if negb (Z.shiftr (b2z (idx p 0)) 4 =? 4) || negb (Z.land (b2z (idx p 0)) 0x0f =? 5)
  then Err ErrIPv4
  else
    let total := BeGet16 p 2 in
    if (total <? IP4HdrLen) || (zlen p <? total) then Err ErrIPv4
    else if negb (Z.land (BeGet16 p 6) 0x1FFF =? 0) then Err ErrIPv4
    else
      let pkt := mkIP4Packet (ip_at p 12) (ip_at p 16) (idx p 9) (idx p 8)
                   (slice p IP4HdrLen total) in
      if negb (Checksum (slice p 0 IP4HdrLen) =? 0) then Err ErrIPv4 else Ok pkt.

Definition IP4_Build (p : IP4Packet) : outcome neterr (list byte) :=
  if EthPayloadM - IP4HdrLen <? zlen (ip_Payload p) then Err ErrTooBig
  else
    let out := mkbuf (IP4HdrLen + zlen (ip_Payload p)) in
    let out := splice out 0 [Byte.x45] in
    let out := BePut16 out 2 (zlen out) in
    let out := splice out 6 [Byte.x40; Byte.x00] in
    let out := splice out 8 [ip_TTL p] in
    let out := if decide (idx out 8 = Byte.x00) then splice out 8 [z2b 64] else out in
    let out := splice out 9 [ip_Proto p] in
    let out := splice out 12 (ip_bytes (ip_Src p)) in
    let out := splice out 16 (ip_bytes (ip_Dst p)) in
    let out := BePut16 out 10 (Checksum (slice out 0 IP4HdrLen)) in
    Ok (splice out IP4HdrLen (ip_Payload p)).

(** ** ICMP echo *)

Definition ICMPEchoReply : byte := Byte.x00.
Definition ICMPEchoRequest : byte := Byte.x08.

Record ICMPPacket := mkICMP {
  icmp_Type : byte; icmp_Code : byte; icmp_ID : Z; icmp_Seq : Z; icmp_Data : list byte }.

Definition ParseICMP (p : list byte) : outcome neterr ICMPPacket :=
  if zlen p <? 8 then Err ErrShortFrame
  else if negb (Checksum p =? 0) then Err ErrBadICMP
  else Ok (mkICMP (idx p 0) (idx p 1) (BeGet16 p 4) (BeGet16 p 6) (drop 8 p)).

Definition ICMP_Build (c : ICMPPacket) : list byte :=
  let out := mkbuf (8 + zlen (icmp_Data c)) in
  let out := splice out 0 [icmp_Type c] in
  let out := splice out 1 [icmp_Code c] in
  let out := BePut16 out 4 (icmp_ID c) in
  let out := BePut16 out 6 (icmp_Seq c) in
  let out := splice out 8 (icmp_Data c) in
  BePut16 out 2 (Checksum out).

Definition BuildEchoReply (req : ICMPPacket) : list byte :=
  ICMP_Build (mkICMP ICMPEchoReply Byte.x00 (icmp_ID req) (icmp_Seq req) (icmp_Data req)).

(** ** ARP *)

Definition ARPHwEther : Z := 1.
Definition ARPProtoIPv4 : Z := 0x0800.
Definition ARPLen : Z := 28.
Definition ARPOpRequest : Z := 1.
Definition ARPOpReply : Z := 2.

Record ARPPacket := mkARP {
  arp_Oper : Z; arp_SrcMAC : MAC; arp_SrcIP : IP4; arp_DstMAC : MAC; arp_DstIP : IP4 }.

Definition ParseARP (p : list byte) : outcome neterr ARPPacket :=
  if zlen p <? ARPLen then Err ErrShortFrame
  else if negb (BeGet16 p 0 =? ARPHwEther) || negb (BeGet16 p 2 =? ARPProtoIPv4)
       || negb (bool_decide (idx p 4 = Byte.x06)) || negb (bool_decide (idx p 5 = Byte.x04))
  then Err ErrBadARP
  else Ok (mkARP (BeGet16 p 6) (mac_at p 8) (ip_at p 14) (mac_at p 18) (ip_at p 24)).

Definition ARP_Build (a : ARPPacket) : list byte :=
  let p := mkbuf ARPLen in
  let p := BePut16 p 0 ARPHwEther in
  let p := BePut16 p 2 ARPProtoIPv4 in
  let p := splice p 4 [Byte.x06; Byte.x04] in
  let p := BePut16 p 6 (arp_Oper a) in
  let p := splice p 8 (mac_bytes (arp_SrcMAC a)) in
  let p := splice p 14 (ip_bytes (arp_SrcIP a)) in
  let p := splice p 18 (mac_bytes (arp_DstMAC a)) in
  splice p 24 (ip_bytes (arp_DstIP a)).

(** ** UDP *)

Definition UDPHdrLen : Z := 8.
Definition MaxUDPPayload : Z := EthPayloadM - IP4HdrLen - UDPHdrLen.

Record UDPDatagram := mkUDP {
  udp_SrcPort : Z; udp_DstPort : Z; udp_Data : list byte;
  udp_checksumSrc : IP4; udp_checksumDst : IP4 }.

Definition ParseUDP (p : list byte) : outcome neterr UDPDatagram :=
  if zlen p <? UDPHdrLen then Err ErrShortFrame
  else
    let total := BeGet16 p 4 in
    if (total <? UDPHdrLen) || (zlen p <? total) then Err ErrUDP
    else Ok (mkUDP (BeGet16 p 0) (BeGet16 p 2) (slice p UDPHdrLen total) IP4_zero IP4_zero).

(** The pseudo-header, the segment and the padding byte the transport
    checksums run over. *)
Definition pseudo (src dst : IP4) (proto : byte) (seg : list byte) : list byte :=
  let buf := ip_bytes src ++ ip_bytes dst ++ [Byte.x00; proto]
             ++ BePut16 (mkbuf 2) 0 (zlen seg) ++ seg in
  if zlen buf mod 2 =? 0 then buf else buf ++ [Byte.x00].

Definition pseudo_sum (src dst : IP4) (proto : byte) (seg : list byte) : Z :=
  fold_carry 3 (sum_words (pseudo src dst proto seg) 0).

Definition UDP_Build (d : UDPDatagram) : list byte :=
  let out := mkbuf (UDPHdrLen + zlen (udp_Data d)) in
  let out := BePut16 out 0 (udp_SrcPort d) in
  let out := BePut16 out 2 (udp_DstPort d) in
  let out := BePut16 out 4 (zlen out) in
  let out := splice out UDPHdrLen (udp_Data d) in
  if IsZero (udp_checksumSrc d) && IsZero (udp_checksumDst d) then BePut16 out 6 0
  else BePut16 out 6 (u16 (Z.lnot (pseudo_sum (udp_checksumSrc d) (udp_checksumDst d) IP4ProtoUDP out))).

(** ** TCP segments *)

Definition TCPHdrLen : Z := 20.
Definition TCPFin : Z := 1.
Definition TCPSyn : Z := 2.
Definition TCPRst : Z := 4.
Definition TCPPsh : Z := 8.
Definition TCPAck : Z := 16.

Record TCPSegment := mkTCP {
  seg_SrcPort : Z; seg_DstPort : Z; seg_Seq : Z; seg_Ack : Z; seg_Flags : Z;
  seg_Window : Z; seg_Payload : list byte }.

Definition ParseTCP (p : list byte) : outcome neterr TCPSegment :=
  if zlen p <? TCPHdrLen then Err ErrShortFrame
  else
    let off := Z.shiftr (b2z (idx p 12)) 4 * 4 in
    if (off <? TCPHdrLen) || (zlen p <? off) then Err ErrTCP
    else Ok (mkTCP (BeGet16 p 0) (BeGet16 p 2) (BeGet32 p 4) (BeGet32 p 8)
               (Z.land (b2z (idx p 13)) 0x1f) (BeGet16 p 14) (drop (Z.to_nat off) p)).

Definition TCP_Build (t : TCPSegment) : list byte :=
  let out := mkbuf (TCPHdrLen + zlen (seg_Payload t)) in
  let out := BePut16 out 0 (seg_SrcPort t) in
  let out := BePut16 out 2 (seg_DstPort t) in
  let out := BePut32 out 4 (seg_Seq t) in
  let out := BePut32 out 8 (seg_Ack t) in
  let out := splice out 12 [z2b (Z.shiftl 5 4)] in
  let out := splice out 13 [z2b (Z.land (seg_Flags t) 0x1f)] in
  let out := BePut16 out 14 (seg_Window t) in
  splice out TCPHdrLen (seg_Payload t).

(** The checksum [SendTCPSegment] writes into bytes 16 and 17. *)
Definition tcp_with_checksum (src dst : IP4) (seg : list byte) : list byte :=
  let sum := pseudo_sum src dst IP4ProtoTCP seg in
  splice seg 16 [z2b (Z.shiftr (u32 (Z.lnot sum)) 8); z2b (u32 (Z.lnot sum))].
