(* ===== verification/NetCodec.v ===== *)
(** * NetCodec: round trips and checksums of the wire formats

    The big-endian accessors as arithmetic, the Internet checksum as a sum
    modulo 65535, the closed form of every packet builder, and from them the
    round trips, the validity of the checksums written and the errors they
    detect. *)

From coqutil Require Import Z.BitOps.
From S2P Require Import Prelude Frame BlockDev Paths NetWire.

(** ** Big-endian fields *)

Lemma lor_shl a b n : 0 <= n -> 0 <= b < 2 ^ n -> Z.lor (Z.shiftl a n) b = 2 ^ n * a + b.
Proof.
  intros Hn Hb. rewrite or_to_plus.
  - rewrite Z.shiftl_mul_pow2 by lia. lia.
  - apply Z.bits_inj'. intros i Hi. rewrite Z.land_spec, Z.bits_0.
    destruct (Z.lt_ge_cases i n).
    + by rewrite Z.shiftl_spec_low by lia.
    + rewrite <- (Z.mod_small b (2 ^ n)) by done.
      by rewrite Z.mod_pow2_bits_high, andb_false_r by lia.
Qed.

Lemma be16_val x y : Z.lor (Z.shiftl (b2z x) 8) (b2z y) = 256 * b2z x + b2z y.
Proof. apply lor_shl; [lia|apply b2z_range]. Qed.

Lemma be32_val x y z w :
  Z.lor (Z.lor (Z.lor (Z.shiftl (b2z x) 24) (Z.shiftl (b2z y) 16)) (Z.shiftl (b2z z) 8)) (b2z w)
  = 2 ^ 24 * b2z x + 2 ^ 16 * b2z y + 256 * b2z z + b2z w.
Proof.
  pose proof (b2z_range x). pose proof (b2z_range y). pose proof (b2z_range z).
  pose proof (b2z_range w).
  rewrite <- !Z.lor_assoc, be16_val.
  rewrite (lor_shl (b2z y)), (lor_shl (b2z x)) by lia. lia.
Qed.

Lemma be16_join v :
  Z.lor (Z.shiftl (b2z (z2b (Z.shiftr v 8))) 8) (b2z (z2b v)) = u16 v.
Proof.
  rewrite be16_val, !b2z_z2b, Z.shiftr_div_pow2 by lia. change (2 ^ 8) with 256.
  unfold u16. change (2 ^ 16) with (256 * 256). rewrite Z.rem_mul_r by lia. lia.
Qed.

Lemma be32_join v :
  Z.lor (Z.lor (Z.lor (Z.shiftl (b2z (z2b (Z.shiftr v 24))) 24)
    (Z.shiftl (b2z (z2b (Z.shiftr v 16))) 16))
    (Z.shiftl (b2z (z2b (Z.shiftr v 8))) 8)) (b2z (z2b v)) = u32 v.
Proof.
  rewrite be32_val, !b2z_z2b, !Z.shiftr_div_pow2 by lia. unfold u32.
  change (2 ^ 32) with (256 * (256 * (256 * 256))).
  rewrite (Z.rem_mul_r v 256), (Z.rem_mul_r (v / 256) 256), (Z.rem_mul_r (v / 256 / 256) 256) by lia.
  rewrite !Z.div_div by lia.
  change (256 * 256 * 256) with (2 ^ 24). change (256 * 256) with (2 ^ 16).
  change (2 ^ 8) with 256. lia.
Qed.

Lemma BeGet16_at b off v :
  idx b off = z2b (Z.shiftr v 8) -> idx b (off + 1) = z2b v -> BeGet16 b off = u16 v.
Proof. intros H1 H2. unfold BeGet16. rewrite H1, H2. apply be16_join. Qed.

Lemma BeGet32_at b off v :
  idx b off = z2b (Z.shiftr v 24) -> idx b (off + 1) = z2b (Z.shiftr v 16) ->
  idx b (off + 2) = z2b (Z.shiftr v 8) -> idx b (off + 3) = z2b v -> BeGet32 b off = u32 v.
Proof. intros H1 H2 H3 H4. unfold BeGet32. rewrite H1, H2, H3, H4. apply be32_join. Qed.

Lemma BeGet16_range b off : 0 <= BeGet16 b off < 2 ^ 16.
Proof.
  unfold BeGet16. rewrite be16_val.
  pose proof (b2z_range (idx b off)). pose proof (b2z_range (idx b (off + 1))). lia.
Qed.

(** ** The Internet checksum *)

(** The plain sum of the 16-bit words of a buffer. *)
Fixpoint wsum (b : list byte) : Z :=
  match b with
  | x :: y :: b => 256 * b2z x + b2z y + wsum b
  | [x] => 256 * b2z x
  | [] => 0
  end.

(** Induction two bytes at a time. *)
Lemma pair_ind (P : list byte -> Prop) :
  P [] -> (forall x, P [x]) -> (forall x y b, P b -> P (x :: y :: b)) -> forall b, P b.
Proof.
  intros H0 H1 H2. assert (forall b, P b /\ forall x, P (x :: b)) as H; [|apply H].
  induction b as [|y b [IH1 IH2]]; [done|]. split; [apply IH2|]. intros x. by apply H2.
Qed.

Lemma wsum_bound b : 0 <= wsum b <= 65535 * zlen b.
Proof.
  induction b as [|x|x y b IH] using pair_ind; cbn [wsum]; unfold zlen in *; cbn [length] in *.
  - lia.
  - pose proof (b2z_range x). lia.
  - pose proof (b2z_range x). pose proof (b2z_range y). lia.
Qed.

Lemma sum_words_wsum b s :
  0 <= s -> s + wsum b < 2 ^ 32 -> sum_words b s = s + wsum b.
Proof.
  revert s. induction b as [|x|x y b IH] using pair_ind; intros s H0 H1; cbn [wsum sum_words] in *.
  - lia.
  - pose proof (b2z_range x). rewrite Z.shiftl_mul_pow2 by lia. rewrite u32_small; lia.
  - unfold BeGet16. change (idx [x; y] 0) with x. change (idx [x; y] (0 + 1)) with y.
    pose proof (b2z_range x). pose proof (b2z_range y). pose proof (wsum_bound b).
    pose proof (zlen_nonneg b).
    rewrite be16_val, u32_small by lia. rewrite IH by lia. lia.
Qed.

Lemma wsum_app a b : Nat.even (length a) = true -> wsum (a ++ b) = wsum a + wsum b.
Proof.
  induction a as [|x|x y a IH] using pair_ind; cbn; intros H; [done|done|].
  rewrite IH by done. lia.
Qed.

Lemma wsum_pad b : wsum (b ++ [Byte.x00]) = wsum b.
Proof. induction b as [|x|x y b IH] using pair_ind; cbn; [done|lia|]. rewrite IH. lia. Qed.

(** One round of carry folding: smaller, congruent, zero only from zero. *)
Lemma carry_round s :
  0 <= s < 2 ^ 32 ->
  Z.land s 0xffff + Z.shiftr s 16 = s mod 65536 + s / 65536.
Proof.
  intros. rewrite Z.shiftr_div_pow2 by lia. change 0xffff with (Z.ones 16).
  by rewrite Z.land_ones by lia.
Qed.

Lemma fold_carry_spec s :
  0 <= s < 2 ^ 32 ->
  let r := fold_carry 3 s in
  0 <= r < 65536 /\ r mod 65535 = s mod 65535 /\ (r = 0 <-> s = 0).
Proof.
  intros Hs.
  assert (Hstep : forall t, 0 <= t < 2 ^ 32 ->
    let r := t mod 65536 + t / 65536 in
    u32 (Z.land t 0xffff + Z.shiftr t 16) = r /\ 0 <= r <= 65535 + t / 65536
    /\ r mod 65535 = t mod 65535 /\ (r = 0 <-> t = 0)).
  { intros t Ht. cbv zeta.
    pose proof (Z.div_mod t 65536 ltac:(lia)). pose proof (Z.mod_pos_bound t 65536 ltac:(lia)).
    assert (0 <= t / 65536 < 65536) by (split; [apply Z.div_pos; lia|apply Z.div_lt_upper_bound; lia]).
    rewrite carry_round, u32_small by lia. repeat split; try lia.
    replace t with (t mod 65536 + t / 65536 + t / 65536 * 65535) at 3 by lia.
    by rewrite Z_mod_plus_full. }
  assert (Hsmall : forall t, 0 <= t < 65536 -> (Z.shiftr t 16 =? 0) = true).
  { intros t Ht. rewrite Z.shiftr_div_pow2 by lia. apply Z.eqb_eq, Z.div_small. lia. }
  assert (Hdone : forall n t, 0 <= t < 65536 -> fold_carry n t = t).
  { intros [|n] t Ht; cbn [fold_carry]; [done|]. by rewrite Hsmall. }
  cbv zeta.
  destruct (Z.lt_ge_cases s 65536) as [|Hbig]; [rewrite Hdone by lia; lia|].
  destruct (Hstep s Hs) as (E1 & B1 & M1 & Z1).
  pose proof (Z.div_lt_upper_bound s 65536 65536 ltac:(lia) ltac:(lia)) as Hq.
  cbn [fold_carry]. rewrite (proj2 (Z.eqb_neq (Z.shiftr s 16) 0)).
  2:{ rewrite Z.shiftr_div_pow2 by lia. change (2 ^ 16) with 65536.
      pose proof (Z.div_le_lower_bound s 65536 1 ltac:(lia) ltac:(lia)). lia. }
  rewrite E1. set (s1 := s mod 65536 + s / 65536) in *.
  destruct (Z.lt_ge_cases s1 65536) as [|Hb1]; [rewrite Hsmall by lia; lia|].
  destruct (Hstep s1 ltac:(lia)) as (E2 & B2 & M2 & Z2).
  assert (s1 / 65536 = 1) by (symmetry; apply (Z.div_unique s1 65536 1 (s1 - 65536)); lia).
  assert (s1 mod 65536 = s1 - 65536) by (rewrite Z.mod_eq by lia; lia).
  rewrite (proj2 (Z.eqb_neq (Z.shiftr s1 16) 0)).
  2:{ rewrite Z.shiftr_div_pow2 by lia. change (2 ^ 16) with 65536. lia. }
  rewrite E2, Hsmall by lia. lia.
Qed.

(** The checksum of a buffer completes its sum to a positive multiple of 65535. *)
Lemma Checksum_sum b :
  zlen b <= 65536 ->
  0 <= Checksum b <= 65535 /\ (wsum b + Checksum b) mod 65535 = 0 /\ 0 < wsum b + Checksum b.
Proof.
  intros Hl. pose proof (wsum_bound b) as Hw. unfold Checksum.
  rewrite sum_words_wsum by lia. rewrite Z.add_0_l.
  destruct (fold_carry_spec (wsum b)) as (Hr & Hm & Hz); [lia|].
  set (r := fold_carry 3 (wsum b)) in *.
  assert (Hc : u16 (Z.lnot r) = 65535 - r).
  { unfold u16, Z.lnot. replace (Z.pred (- r)) with (65535 - r + (-1) * 2 ^ 16) by lia.
    rewrite Z_mod_plus_full. apply Z.mod_small. lia. }
  rewrite Hc. split; [lia|]. split; [|lia].
  replace (wsum b + (65535 - r)) with (wsum b - r + 1 * 65535) by lia.
  rewrite Z_mod_plus_full, Zminus_mod, Hm, Z.sub_diag. done.
Qed.

Lemma Checksum_zero b :
  zlen b <= 65536 -> Checksum b = 0 <-> 0 < wsum b /\ wsum b mod 65535 = 0.
Proof.
  intros Hl. destruct (Checksum_sum b Hl) as (Hr & Hm & Hp). split.
  - intros Hc. rewrite Hc, Z.add_0_r in Hm, Hp. done.
  - intros [Hp0 Hm0]. pose proof (wsum_bound b) as Hw. unfold Checksum in *.
    rewrite sum_words_wsum, Z.add_0_l in * by lia.
    destruct (fold_carry_spec (wsum b)) as (Hr' & Hm' & Hz); [lia|].
    set (r := fold_carry 3 (wsum b)) in *.
    assert (r = 65535) as ->; [|done].
    rewrite Hm0 in Hm'. apply Z.mod_divide in Hm' as [k Hk]; [|lia]. lia.
Qed.

Definition be16 (v : Z) : list byte := [z2b (Z.shiftr v 8); z2b v].
Definition be32 (v : Z) : list byte :=
  [z2b (Z.shiftr v 24); z2b (Z.shiftr v 16); z2b (Z.shiftr v 8); z2b v].

Lemma wsum_be16 v b : wsum (be16 v ++ b) = u16 v + wsum b.
Proof. cbn [be16 app wsum]. by rewrite <- be16_val, be16_join. Qed.

(** Writing the checksum of a buffer over a zero word of it makes the
    checksum of the whole zero. *)
Lemma checksum_written a b :
  Nat.even (length a) = true -> zlen a + zlen b <= 65534 ->
  Checksum (a ++ be16 (Checksum (a ++ be16 0 ++ b)) ++ b) = 0.
Proof.
  intros Ha Hl. set (c := Checksum _).
  assert (Hlen : forall v, zlen (a ++ be16 v ++ b) <= 65536)
    by (intros v; rewrite !zlen_app; change (zlen (be16 v)) with 2; lia).
  destruct (Checksum_sum _ (Hlen 0)) as (Hr & Hm & Hp). fold c in Hr, Hm, Hp.
  rewrite wsum_app, wsum_be16 in Hm, Hp by done. change (u16 0) with 0 in *.
  apply Checksum_zero; [apply Hlen|]. rewrite wsum_app, wsum_be16, u16_small by (done || lia).
  split; [lia|]. etrans; [|exact Hm]. f_equal; lia.
Qed.

(** ** Writing a header in front of a payload *)

Lemma mkbuf_split n k : 0 <= n -> 0 <= k -> mkbuf (n + k) = mkbuf n ++ mkbuf k.
Proof. intros. unfold mkbuf. rewrite <- replicate_add. f_equal. lia. Qed.

Lemma splice_exact (a p : list byte) n :
  n = zlen a -> splice (a ++ mkbuf (zlen p)) n p = a ++ p.
Proof.
  intros ->. rewrite splice_frontier by lia. by rewrite Z.sub_diag, app_nil_r.
Qed.

Lemma slice_to_end {A} (l : list A) n m : m = zlen l -> slice l n m = drop (Z.to_nat n) l.
Proof.
  intros ->. unfold slice. apply take_ge. rewrite length_drop. unfold zlen. lia.
Qed.

Lemma splice_prefix (a b s : list byte) off :
  0 <= off -> off + zlen s <= zlen a -> splice (a ++ b) off s = splice a off s ++ b.
Proof. intros. list_ext. Qed.

(** [hdr_writes] moves every write to a header of constant length out of the
    buffer that holds the payload. *)
Ltac hdr_writes :=
  unfold BePut16, BePut32;
  repeat rewrite splice_prefix by (vm_compute; discriminate).

(** *** Ethernet *)

Definition eth_hdr (dst src : MAC) (t : Z) : list byte := mac_bytes dst ++ mac_bytes src ++ be16 t.

Lemma BuildEth_eq dst src t p :
  BuildEth dst src t p = eth_hdr dst src t ++ p ++ mkbuf (46 - zlen p).
Proof.
  pose proof (zlen_nonneg p) as Hp. unfold BuildEth, EthHdrLen, EthMinLen. cbv zeta.
  set (n := if 14 + zlen p <? 60 then 60 else 14 + zlen p).
  replace n with (14 + (n - 14)) by lia.
  assert (0 <= n - 14 /\ zlen p <= n - 14 /\ n - 14 - zlen p = Z.max 0 (46 - zlen p)) as (H1 & H2 & H3)
    by (unfold n; case (Z.ltb_spec (14 + zlen p) 60); lia).
  rewrite mkbuf_split by lia.
  hdr_writes. change (splice (eth_hdr dst src t ++ mkbuf (n - 14)) 14 p = eth_hdr dst src t ++ p ++ mkbuf (46 - zlen p)).
  rewrite splice_frontier by done. rewrite H3. do 2 f_equal. unfold mkbuf. f_equal. lia.
Qed.

Lemma ParseEth_Build dst src t p :
  ParseEth (BuildEth dst src t p) = Ok (mkEth dst src (u16 t) (p ++ mkbuf (46 - zlen p))).
Proof.
  pose proof (zlen_nonneg p) as Hp. rewrite BuildEth_eq. unfold ParseEth, EthHdrLen.
  rewrite zlen_app. change (zlen (eth_hdr dst src t)) with 14.
  rewrite (proj2 (Z.ltb_ge _ _)) by (pose proof (zlen_nonneg (p ++ mkbuf (46 - zlen p))); lia).
  rewrite (BeGet16_at _ _ t) by reflexivity. by destruct dst, src.
Qed.

(** *** IPv4 *)

Definition ip_ttl (p : IP4Packet) : byte :=
  if decide (ip_TTL p = Byte.x00) then z2b 64 else ip_TTL p.

Definition ip_hdr_front (p : IP4Packet) : list byte :=
  [Byte.x45; Byte.x00] ++ be16 (20 + zlen (ip_Payload p)) ++ [Byte.x00; Byte.x00; Byte.x40; Byte.x00]
  ++ [ip_ttl p; ip_Proto p].
Definition ip_hdr_addrs (p : IP4Packet) : list byte := ip_bytes (ip_Src p) ++ ip_bytes (ip_Dst p).

Definition ip_hdr (p : IP4Packet) : list byte :=
  ip_hdr_front p ++ be16 (Checksum (ip_hdr_front p ++ be16 0 ++ ip_hdr_addrs p)) ++ ip_hdr_addrs p.

Lemma IP4_Build_eq p :
  zlen (ip_Payload p) <= EthPayloadM - IP4HdrLen -> IP4_Build p = Ok (ip_hdr p ++ ip_Payload p).
Proof.
  intros Hl. pose proof (zlen_nonneg (ip_Payload p)) as Hp. unfold IP4_Build.
  rewrite (proj2 (Z.ltb_ge _ _)) by lia. cbv zeta. unfold IP4HdrLen.
  rewrite (zlen_splice (mkbuf _)) by (rewrite zlen_mkbuf; lia). rewrite zlen_mkbuf by lia.
  rewrite mkbuf_split by lia. hdr_writes.
  match goal with |- context [decide (idx ?b 8 = _)] => change (idx b 8) with (ip_TTL p) end.
  unfold ip_hdr, ip_hdr_front, ip_ttl.
  destruct (decide (ip_TTL p = Byte.x00)); hdr_writes; rewrite slice_here by reflexivity;
    hdr_writes; rewrite splice_exact by reflexivity; reflexivity.
Qed.

Lemma ip_hdr_checksum p : Checksum (ip_hdr p) = 0.
Proof. by apply checksum_written. Qed.

(** A built datagram parses back, also with padding behind it; a zero time
    to live becomes 64. *)
Lemma ParseIP4_hdr p q :
  zlen (ip_Payload p) <= EthPayloadM - IP4HdrLen ->
  ParseIP4 (ip_hdr p ++ ip_Payload p ++ q)
  = Ok (mkIP4Packet (ip_Src p) (ip_Dst p) (ip_Proto p) (ip_ttl p) (ip_Payload p)).
Proof.
  intros Hl. pose proof (zlen_nonneg (ip_Payload p)) as Hp. pose proof (zlen_nonneg q) as Hq.
  unfold ParseIP4, IP4HdrLen, EthPayloadM, MaxFrame, SlotDataLen, EthHdrLen, IP4HdrLen in *.
  rewrite !zlen_app. change (zlen (ip_hdr p)) with 20.
  rewrite (proj2 (Z.ltb_ge _ _)) by lia.
  change (negb _ || negb _) with false at 1. cbv iota beta zeta.
  rewrite (BeGet16_at _ 2 (20 + zlen (ip_Payload p))) by reflexivity. rewrite u16_small by lia.
  rewrite !(proj2 (Z.ltb_ge _ _)) by lia. cbn [orb].
  rewrite (BeGet16_at _ 6 0x4000) by reflexivity. change (negb (Z.land (u16 0x4000) 0x1FFF =? 0)) with false.
  rewrite slice_here by reflexivity. rewrite ip_hdr_checksum. cbn [Z.eqb negb].
  rewrite slice_app_mid by (reflexivity || (change (zlen (ip_hdr p)) with 20; lia)).
  by destruct p as [[] [] ? ? ?].
Qed.

(** *** What the checksum detects: any change of a single byte *)

Lemma wsum_insert b i x y :
  b !! i = Some y ->
  wsum (<[i:=x]> b) = wsum b + (b2z x - b2z y) * (if Nat.even i then 256 else 1).
Proof.
  revert i. induction b as [|z|z w b IH] using pair_ind; intros i Hi; [done| |].
  - destruct i as [|i]; [|done]. cbn in *. simplify_eq. lia.
  - destruct i as [|[|i]]; cbn in Hi; simplify_eq; cbn [insert list_insert wsum Nat.even]; [lia|lia|].
    change (list_insert i x b) with (<[i:=x]> b). rewrite IH by done. lia.
Qed.

Lemma checksum_detects b i x y :
  zlen b <= 65536 -> Checksum b = 0 -> b !! i = Some y -> x ≠ y -> Checksum (<[i:=x]> b) ≠ 0.
Proof.
  intros Hl Hc Hi Hxy Hc'.
  apply Checksum_zero in Hc as [_ Hm]; [|done].
  apply Checksum_zero in Hc' as [_ Hm']; [|unfold zlen in *; by rewrite length_insert].
  rewrite (wsum_insert _ _ _ _ Hi) in Hm'.
  set (e := if Nat.even i then 256 else 1) in *.
  assert (1 <= e <= 256) as He by (unfold e; destruct (Nat.even i); lia).
  pose proof (b2z_range x). pose proof (b2z_range y).
  apply Z.mod_divide in Hm as [k Hk]; [|lia]. apply Z.mod_divide in Hm' as [k' Hk']; [|lia].
  assert ((b2z x - b2z y) * e = 65535 * (k' - k)) as Hd by lia.
  assert (- 65535 < (b2z x - b2z y) * e < 65535) as Hb by nia.
  assert (k' - k = 0) as Hk0 by lia. rewrite Hk0 in Hd.
  assert (b2z x = b2z y) as Heq by nia.
  apply Hxy. by rewrite <- (z2b_b2z x), Heq, z2b_b2z.
Qed.

Lemma ip_header_detects p i x r :
  (i < 20)%nat -> ip_hdr p !! i ≠ Some x ->
  ParseIP4 (<[i:=x]> (ip_hdr p ++ ip_Payload p)) ≠ Ok r.
Proof.
  intros Hi Hx. rewrite insert_app_l by (change (length (ip_hdr p)) with 20%nat; lia).
  destruct (lookup_lt_is_Some_2 (ip_hdr p) i) as [y Hy]; [change (length (ip_hdr p)) with 20%nat; lia|].
  assert (Hck : Checksum (<[i:=x]> (ip_hdr p)) ≠ 0).
  { apply (checksum_detects _ _ _ y); [done|apply ip_hdr_checksum|done|congruence]. }
  unfold ParseIP4. repeat (case_match; try done).
  match goal with H : negb (Checksum ?b =? 0) = false |- _ => rename H into Hz end.
  apply negb_false_iff, Z.eqb_eq in Hz.
  rewrite slice_here in Hz; [done|]. unfold zlen. by rewrite length_insert.
Qed.

(** *** ICMP *)

Definition icmp_tail (c : ICMPPacket) : list byte :=
  be16 (icmp_ID c) ++ be16 (icmp_Seq c) ++ icmp_Data c.

Lemma ICMP_Build_eq c :
  ICMP_Build c = [icmp_Type c; icmp_Code c]
    ++ be16 (Checksum ([icmp_Type c; icmp_Code c] ++ be16 0 ++ icmp_tail c)) ++ icmp_tail c.
Proof.
  pose proof (zlen_nonneg (icmp_Data c)). unfold ICMP_Build. cbv zeta.
  rewrite mkbuf_split by lia. hdr_writes. rewrite splice_exact by reflexivity.
  rewrite splice_prefix by (vm_compute; discriminate). reflexivity.
Qed.

Lemma ParseICMP_Build c :
  zlen (icmp_Data c) <= 65528 ->
  ParseICMP (ICMP_Build c)
  = Ok (mkICMP (icmp_Type c) (icmp_Code c) (u16 (icmp_ID c)) (u16 (icmp_Seq c)) (icmp_Data c)).
Proof.
  intros Hl. rewrite ICMP_Build_eq. unfold ParseICMP.
  rewrite checksum_written; [|done|].
  2:{ unfold icmp_tail. rewrite !zlen_app. change (zlen [icmp_Type c; icmp_Code c]) with 2.
      change (zlen (be16 ?v)) with 2. lia. }
  rewrite (proj2 (Z.ltb_ge _ _)).
  2:{ unfold icmp_tail. rewrite !zlen_app. pose proof (zlen_nonneg (icmp_Data c)).
      change (zlen [icmp_Type c; icmp_Code c]) with 2. change (zlen (be16 ?v)) with 2. lia. }
  rewrite (BeGet16_at _ 4 (icmp_ID c)), (BeGet16_at _ 6 (icmp_Seq c)) by reflexivity. done.
Qed.

(** *** ARP *)

Lemma ARP_Build_eq a :
  ARP_Build a = be16 1 ++ be16 0x0800 ++ [Byte.x06; Byte.x04] ++ be16 (arp_Oper a)
    ++ mac_bytes (arp_SrcMAC a) ++ ip_bytes (arp_SrcIP a) ++ mac_bytes (arp_DstMAC a)
    ++ ip_bytes (arp_DstIP a).
Proof. reflexivity. Qed.

Lemma ParseARP_Build a q :
  ParseARP (ARP_Build a ++ q)
  = Ok (mkARP (u16 (arp_Oper a)) (arp_SrcMAC a) (arp_SrcIP a) (arp_DstMAC a) (arp_DstIP a)).
Proof.
  pose proof (zlen_nonneg q). unfold ParseARP, ARPLen, ARPHwEther, ARPProtoIPv4.
  rewrite zlen_app. change (zlen (ARP_Build a)) with 28. rewrite (proj2 (Z.ltb_ge _ _)) by lia.
  rewrite (BeGet16_at _ 0 1), (BeGet16_at _ 2 0x0800), (BeGet16_at _ 6 (arp_Oper a)) by reflexivity.
  by destruct a as [? [] [] [] []].
Qed.

(** *** The transport checksums *)

Lemma zlen_pseudo src dst pr seg :
  zlen (pseudo src dst pr seg) <= zlen seg + 13.
Proof.
  unfold pseudo. cbv zeta. case_match; rewrite !zlen_app;
    change (zlen (ip_bytes ?x)) with 4; change (zlen (BePut16 (mkbuf 2) 0 ?v)) with 2;
    change (zlen [Byte.x00; pr]) with 2; change (zlen [Byte.x00]) with 1; lia.
Qed.

Lemma pseudo_checksum src dst pr seg :
  u16 (Z.lnot (pseudo_sum src dst pr seg)) = Checksum (pseudo src dst pr seg).
Proof. unfold pseudo_sum, Checksum. reflexivity. Qed.

(** The pseudo-header buffer around one word of the segment. *)
Definition pseudo_front (src dst : IP4) (pr : byte) (n : Z) : list byte :=
  ip_bytes src ++ ip_bytes dst ++ [Byte.x00; pr] ++ be16 n.

Definition pad_even (b : list byte) : list byte :=
  if zlen b mod 2 =? 0 then b else b ++ [Byte.x00].

Lemma pseudo_word src dst pr h v t :
  Nat.even (length h) = true ->
  pseudo src dst pr (h ++ be16 v ++ t)
  = (pseudo_front src dst pr (zlen h + 2 + zlen t) ++ h) ++ be16 v ++ pad_even t.
Proof.
  intros Hh. unfold pseudo, pad_even. cbv zeta.
  assert (Hm : zlen (ip_bytes src ++ ip_bytes dst ++ [Byte.x00; pr]
    ++ BePut16 (mkbuf 2) 0 (zlen (h ++ be16 v ++ t)) ++ h ++ be16 v ++ t) mod 2 = zlen t mod 2).
  { rewrite !zlen_app. change (zlen (ip_bytes ?x)) with 4. change (zlen [Byte.x00; pr]) with 2.
    change (zlen (BePut16 (mkbuf 2) 0 ?x)) with 2. change (zlen (be16 v)) with 2.
    apply Nat.even_spec in Hh as [k Hk].
    replace (4 + (4 + (2 + (2 + (zlen h + (2 + zlen t)))))) with (zlen t + (7 + Z.of_nat k) * 2)
      by (unfold zlen; lia).
    apply Z_mod_plus_full. }
  rewrite Hm. change (BePut16 (mkbuf 2) 0 ?x) with (be16 x).
  replace (zlen (h ++ be16 v ++ t)) with (zlen h + 2 + zlen t)
    by (rewrite !zlen_app; change (zlen (be16 v)) with 2; lia).
  unfold pseudo_front. case_match; rewrite <- !app_assoc; reflexivity.
Qed.

(** A segment whose zero checksum word is replaced by the checksum of its
    pseudo-header buffer verifies. *)
Lemma pseudo_written src dst pr h t :
  Nat.even (length h) = true -> zlen h + zlen t <= 65000 ->
  Checksum (pseudo src dst pr (h ++ be16 (Checksum (pseudo src dst pr (h ++ be16 0 ++ t))) ++ t)) = 0.
Proof.
  intros Hh Hl. rewrite !pseudo_word by done. apply checksum_written.
  - rewrite length_app. unfold pseudo_front. rewrite Nat.even_add, Hh. done.
  - rewrite zlen_app. unfold pseudo_front. change (zlen _) with 12 at 1.
    assert (zlen (pad_even t) <= zlen t + 1); [|lia].
    unfold pad_even. case_match; rewrite ?zlen_app; change (zlen [Byte.x00]) with 1; lia.
Qed.

(** *** UDP *)

Definition udp_sum (d : UDPDatagram) (h : list byte) : Z :=
  if IsZero (udp_checksumSrc d) && IsZero (udp_checksumDst d) then 0
  else Checksum (pseudo (udp_checksumSrc d) (udp_checksumDst d) IP4ProtoUDP (h ++ be16 0 ++ udp_Data d)).

Definition udp_front (d : UDPDatagram) : list byte :=
  be16 (udp_SrcPort d) ++ be16 (udp_DstPort d) ++ be16 (8 + zlen (udp_Data d)).

Lemma UDP_Build_eq d :
  UDP_Build d = udp_front d ++ be16 (udp_sum d (udp_front d)) ++ udp_Data d.
Proof.
  pose proof (zlen_nonneg (udp_Data d)). unfold UDP_Build, UDPHdrLen. cbv zeta.
  replace (zlen (BePut16 _ 2 _)) with (8 + zlen (udp_Data d)).
  2:{ assert (Hb : zlen (mkbuf (8 + zlen (udp_Data d))) = 8 + zlen (udp_Data d)) by (apply zlen_mkbuf; lia).
      unfold BePut16. rewrite zlen_splice; rewrite zlen_splice; lia. }
  rewrite mkbuf_split by lia. hdr_writes. rewrite splice_exact by reflexivity. unfold udp_sum.
  destruct (_ && _); rewrite splice_prefix by (vm_compute; discriminate); reflexivity.
Qed.

Lemma ParseUDP_Build d q :
  zlen (udp_Data d) <= MaxUDPPayload ->
  ParseUDP (UDP_Build d ++ q)
  = Ok (mkUDP (u16 (udp_SrcPort d)) (u16 (udp_DstPort d)) (udp_Data d) IP4_zero IP4_zero).
Proof.
  intros Hl. pose proof (zlen_nonneg (udp_Data d)). pose proof (zlen_nonneg q).
  unfold MaxUDPPayload, EthPayloadM, MaxFrame, SlotDataLen, EthHdrLen, IP4HdrLen, UDPHdrLen in Hl.
  rewrite UDP_Build_eq. unfold ParseUDP, UDPHdrLen. rewrite !zlen_app.
  change (zlen (udp_front d)) with 6. change (zlen (be16 ?v)) with 2.
  rewrite (proj2 (Z.ltb_ge _ _)) by lia.
  rewrite (BeGet16_at _ 4 (8 + zlen (udp_Data d))) by reflexivity. rewrite u16_small by lia.
  rewrite !(proj2 (Z.ltb_ge _ _)) by lia. cbn [orb].
  rewrite (BeGet16_at _ 0 (udp_SrcPort d)), (BeGet16_at _ 2 (udp_DstPort d)) by reflexivity.
  do 2 f_equal. rewrite <- !app_assoc, (app_assoc (udp_front d)).
  apply slice_app_mid; [done|lia].
Qed.

Lemma UDP_checksum_valid d :
  zlen (udp_Data d) <= MaxUDPPayload ->
  IsZero (udp_checksumSrc d) && IsZero (udp_checksumDst d) = false ->
  Checksum (pseudo (udp_checksumSrc d) (udp_checksumDst d) IP4ProtoUDP (UDP_Build d)) = 0.
Proof.
  intros Hl Hz. rewrite UDP_Build_eq. unfold udp_sum. rewrite Hz.
  apply pseudo_written; [done|]. change (zlen (udp_front d)) with 6.
  unfold MaxUDPPayload, EthPayloadM, MaxFrame, SlotDataLen, EthHdrLen, IP4HdrLen, UDPHdrLen in Hl. lia.
Qed.

(** *** TCP *)

Definition tcp_front (t : TCPSegment) : list byte :=
  be16 (seg_SrcPort t) ++ be16 (seg_DstPort t) ++ be32 (seg_Seq t) ++ be32 (seg_Ack t)
  ++ [Byte.x50; z2b (Z.land (seg_Flags t) 0x1f)] ++ be16 (seg_Window t).

Lemma TCP_Build_eq t : TCP_Build t = tcp_front t ++ be16 0 ++ be16 0 ++ seg_Payload t.
Proof.
  pose proof (zlen_nonneg (seg_Payload t)). unfold TCP_Build, TCPHdrLen. cbv zeta.
  rewrite mkbuf_split by lia. hdr_writes. rewrite splice_exact by reflexivity. reflexivity.
Qed.

Lemma be16_u32 v : [z2b (Z.shiftr (u32 v) 8); z2b (u32 v)] = be16 (u16 v).
Proof.
  unfold be16. f_equal; [|f_equal]; apply byte.unsigned_inj; rewrite !b2z_z2b; unfold u32, u16.
  - rewrite !Z.shiftr_div_pow2 by lia.
    change (2 ^ 32) with (2 ^ 8 * 2 ^ 24). change (2 ^ 16) with (2 ^ 8 * 2 ^ 8).
    rewrite !Z.rem_mul_r by lia. rewrite !(Z.mul_comm (2 ^ 8)), !Z.div_add by lia.
    rewrite !Z.div_small by (apply Z.mod_pos_bound; lia). rewrite !Z.add_0_l.
    change (2 ^ 24) with (256 * 65536). rewrite Z.rem_mul_r, Z.add_mod, Z.mul_comm, Z.mod_mul by lia.
    rewrite Z.add_0_r, !Z.mod_mod by lia. done.
  - change (2 ^ 32) with (256 * 2 ^ 24). change (2 ^ 16) with (256 * 256).
    rewrite !Z.rem_mul_r, !(Z.mul_comm 256), !Z_mod_plus_full by lia. done.
Qed.

Lemma tcp_with_checksum_eq src dst t :
  tcp_with_checksum src dst (TCP_Build t)
  = tcp_front t ++ be16 (Checksum (pseudo src dst IP4ProtoTCP (TCP_Build t)))
    ++ be16 0 ++ seg_Payload t.
Proof.
  unfold tcp_with_checksum. cbv zeta. rewrite be16_u32.
  rewrite pseudo_checksum.
  generalize (Checksum (pseudo src dst IP4ProtoTCP (TCP_Build t))). intros c.
  rewrite TCP_Build_eq, (app_assoc (tcp_front t)), splice_prefix by (vm_compute; discriminate).
  rewrite (app_assoc (tcp_front t)). reflexivity.
Qed.

Lemma TCP_checksum_valid src dst t :
  zlen (seg_Payload t) <= 60000 ->
  Checksum (pseudo src dst IP4ProtoTCP (tcp_with_checksum src dst (TCP_Build t))) = 0.
Proof.
  intros Hl. rewrite tcp_with_checksum_eq, TCP_Build_eq. apply pseudo_written; [done|].
  rewrite zlen_app. change (zlen (tcp_front t)) with 16. change (zlen (be16 0)) with 2. lia.
Qed.

Definition tcp_norm (t : TCPSegment) : TCPSegment :=
  mkTCP (u16 (seg_SrcPort t)) (u16 (seg_DstPort t)) (u32 (seg_Seq t)) (u32 (seg_Ack t))
    (Z.land (seg_Flags t) 0x1f) (u16 (seg_Window t)) (seg_Payload t).

Lemma flags_byte f : Z.land (b2z (z2b (Z.land f 0x1f))) 0x1f = Z.land f 0x1f.
Proof.
  rewrite b2z_z2b. change 0x1f with (Z.ones 5). rewrite !Z.land_ones by lia.
  change 256 with (2 ^ 5 * 8).
  rewrite (Z.mod_small (f mod 2 ^ 5)); [by rewrite Z.mod_mod by lia|].
  pose proof (Z.mod_pos_bound f (2 ^ 5)). lia.
Qed.

(** A segment parses back whatever its checksum word holds. *)
Lemma ParseTCP_front t v :
  ParseTCP (tcp_front t ++ be16 v ++ be16 0 ++ seg_Payload t) = Ok (tcp_norm t).
Proof.
  pose proof (zlen_nonneg (seg_Payload t)). unfold ParseTCP, TCPHdrLen. rewrite !zlen_app.
  change (zlen (tcp_front t)) with 16. change (zlen (be16 ?x)) with 2.
  rewrite (proj2 (Z.ltb_ge _ _)) by lia.
  change (Z.shiftr (b2z (idx _ 12)) 4 * 4) with 20. cbv zeta.
  rewrite !(proj2 (Z.ltb_ge _ _)) by lia. cbn [orb].
  rewrite (BeGet16_at _ 0 (seg_SrcPort t)), (BeGet16_at _ 2 (seg_DstPort t)),
    (BeGet32_at _ 4 (seg_Seq t)), (BeGet32_at _ 8 (seg_Ack t)),
    (BeGet16_at _ 14 (seg_Window t)) by reflexivity.
  change (idx _ 13) with (z2b (Z.land (seg_Flags t) 0x1f)). rewrite flags_byte. done.
Qed.

(** ** Text forms of addresses *)

Lemma Split_sep p q sep : sep ∉ p -> Split (p ++ sep :: q) sep = p :: Split q sep.
Proof.
  induction p as [|c p IH]; intros Hn; cbn; [by rewrite decide_True|].
  rewrite decide_False by set_solver. rewrite IH by set_solver. done.
Qed.

Lemma Split_end p sep : sep ∉ p -> Split p sep = [p].
Proof.
  induction p as [|c p IH]; intros Hn; cbn; [done|].
  rewrite decide_False by set_solver. by rewrite IH by set_solver.
Qed.

Definition all_bytes : list byte := map (fun n => z2b (Z.of_nat n)) (seq 0 256).

Lemma all_bytes_in b : b ∈ all_bytes.
Proof.
  unfold all_bytes. apply list_elem_of_fmap. exists (Z.to_nat (b2z b)).
  pose proof (b2z_range b). rewrite Z2Nat.id, z2b_b2z by lia. split; [done|].
  apply elem_of_seq. lia.
Qed.

Lemma byte_forall (P : byte -> bool) : forallb P all_bytes = true -> forall b, P b = true.
Proof.
  intros H b. rewrite forallb_forall in H. apply H, list_elem_of_In, all_bytes_in.
Qed.

Definition octet_text_ok (b : byte) : bool :=
  match parse_dec_octet (itoa (b2z b)), parse_hex_octet (mac_octet b) with
  | Ok x, Ok y =>
      bool_decide (x = b) && (bool_decide (y = b)
      && (forallb (fun c => negb (bool_decide (c = full_stop))) (itoa (b2z b))
      && forallb (fun c => negb (bool_decide (c = colon))) (mac_octet b)))
  | _, _ => false
  end.

Lemma octet_text_all : forallb octet_text_ok all_bytes = true.
Proof. vm_compute. reflexivity. Qed.

Lemma forallb_not_in (c : byte) l : forallb (fun x => negb (bool_decide (x = c))) l = true -> c ∉ l.
Proof.
  rewrite forallb_forall. intros H Hin. apply list_elem_of_In, H in Hin.
  by rewrite bool_decide_true in Hin.
Qed.

Lemma octet_text b :
  parse_dec_octet (itoa (b2z b)) = Ok b /\ (full_stop ∉ itoa (b2z b))
  /\ parse_hex_octet (mac_octet b) = Ok b /\ colon ∉ mac_octet b.
Proof.
  pose proof (byte_forall _ octet_text_all b) as H. unfold octet_text_ok in H.
  destruct (parse_dec_octet _), (parse_hex_octet _); try done.
  rewrite !andb_true_iff, !bool_decide_eq_true in H. destruct H as (-> & -> & H1 & H2).
  by apply forallb_not_in in H1, H2.
Qed.

Lemma ParseIP_String a : ParseIP (IP4_String a) = Ok a.
Proof.
  destruct a as [a b c d]. unfold ParseIP, IP4_String. cbn [a0 a1 a2 a3 app].
  destruct (octet_text a) as (Ha & Na & _), (octet_text b) as (Hb & Nb & _),
    (octet_text c) as (Hc & Nc & _), (octet_text d) as (Hd & Nd & _).
  rewrite !Split_sep, Split_end by done. cbv zeta.
  cbn [zlen length each]. change (negb (zlen _ =? 4)) with false. cbv iota.
  cbn [each]. rewrite Ha, Hb, Hc, Hd. done.
Qed.

Lemma ParseMAC_String m : ParseMAC (MAC_String m) = Ok m.
Proof.
  destruct m as [a b c d e f]. unfold ParseMAC, MAC_String. cbn [m0 m1 m2 m3 m4 m5 app].
  destruct (octet_text a) as (_ & _ & Ha & Na), (octet_text b) as (_ & _ & Hb & Nb),
    (octet_text c) as (_ & _ & Hc & Nc), (octet_text d) as (_ & _ & Hd & Nd),
    (octet_text e) as (_ & _ & He & Ne), (octet_text f) as (_ & _ & Hf & Nf).
  rewrite !Split_sep, Split_end by done. cbv zeta.
  change (negb (zlen _ =? 6)) with false. cbv iota.
  cbn [each]. rewrite Ha, Hb, Hc, Hd, He, Hf. done.
Qed.
