(* ===== verification/NetRing.v ===== *)
(** * NetRing: packet windows and in-process wires ([services/net/packet.go])

    The shared-memory ring of the packet window: a head and a tail index in
    the first eight bytes and 256 slots behind them, all little-endian.  The
    ring is driven here on its bytes, exactly as both sides of the window
    drive it; [ring_holds] reads a memory as a queue of frames, and the two
    operations refine those of a bounded first-in first-out queue.  [Wire] and
    [Segment] are the in-process feeds. *)

From S2P Require Import Prelude Frame BlockDev Paths NetWire.

Definition WinSlots : Z := 256.
Definition SlotStride : Z := 1536.
Definition RingHeaderLen : Z := 8.
Definition RingSize : Z := RingHeaderLen + WinSlots * SlotStride.

(** [b[lo:hi]] with Go's bounds check. *)
Definition go_slice {E} (b : list byte) (lo hi : Z) : outcome E (list byte) :=
  if (0 <=? lo) && (lo <=? hi) && (hi <=? zlen b) then Ok (slice b lo hi) else Panic.

(** [copy(b[lo:hi], src)] with Go's bounds check; [src] has length [hi - lo]. *)
Definition go_write {E} (b : list byte) (lo hi : Z) (src : list byte) : outcome E (list byte) :=
  if (0 <=? lo) && (lo <=? hi) && (hi <=? zlen b) then Ok (splice b lo src) else Panic.

Lemma go_slice_ok {E} b lo hi :
  0 <= lo <= hi -> hi <= zlen b -> go_slice (E:=E) b lo hi = Ok (slice b lo hi).
Proof. intros. unfold go_slice. by rewrite !(proj2 (Z.leb_le _ _)) by lia. Qed.

Lemma go_write_ok {E} b lo hi src :
  0 <= lo <= hi -> hi <= zlen b -> go_write (E:=E) b lo hi src = Ok (splice b lo src).
Proof. intros. unfold go_write. by rewrite !(proj2 (Z.leb_le _ _)) by lia. Qed.

Definition NewWindowRing (mem : list byte) : option (list byte) :=
  if zlen mem <? RingSize then None else Some mem.

Definition head (mem : list byte) : Z := Get32 mem 0.
Definition tail (mem : list byte) : Z := Get32 mem 4.
Definition setHead (mem : list byte) (v : Z) : list byte := Put32 mem 0 v.
Definition setTail (mem : list byte) (v : Z) : list byte := Put32 mem 4 v.
Definition slotBase (n : Z) : Z := RingHeaderLen + (n mod WinSlots) * SlotStride.

(** [None] is [ok=false]. *)
Definition Ring_Recv : M (list byte) neterr (option (list byte)) :=
  mem ← getS;
  let h := head mem in
  let t := tail mem in
  if h =? t then mret None
  else
    let base := slotBase h in
    hd ← liftO (go_slice mem base (base + 4));
    let u := Get32 hd 0 in
    let u := if SlotDataLen <? u then SlotDataLen else u in
    out ← liftO (go_slice mem (base + 4) (base + 4 + u));
    _ ← modifyS (fun mem => setHead mem (u32 (h + 1)));
    mret (Some out).

Definition Ring_Send (frame : list byte) : M (list byte) neterr bool :=
  if (zlen frame =? 0) || (SlotDataLen <? zlen frame) then mret false
  else
    mem ← getS;
    let h := head mem in
    let t := tail mem in
    if WinSlots <=? u32 (t - h) then mret false
    else
      let base := slotBase t in
      mem ← liftO (go_write mem base (base + 4) (Put32 (mkbuf 4) 0 (zlen frame)));
      mem ← liftO (go_write mem (base + 4) (base + 4 + zlen frame) frame);
      _ ← putS (setTail mem (u32 (t + 1)));
      mret true.

(** ** In-process feeds *)

(** What a stack needs of the wire it is attached to. *)
Class PacketFeed (F : Type) := {
  feed_Recv : F -> option (list byte) * F;
  feed_Send : list byte -> F -> bool * F;
}.

Record Wire := mkWire { w_frames : list (list byte) }.
Definition NewWire : Wire := mkWire [].

Definition Wire_Send (frame : list byte) (w : Wire) : bool * Wire :=
  (true, mkWire (w_frames w ++ [frame])).

Definition Wire_Recv (w : Wire) : option (list byte) * Wire :=
  match w_frames w with
  | [] => (None, w)
  | f :: fs => (Some f, mkWire fs)
  end.

#[export] Instance Wire_feed : PacketFeed Wire := {|
  feed_Recv := Wire_Recv; feed_Send := Wire_Send |}.

(** A segment is the inboxes of its ports, in attachment order; a port is its
    index. *)
Record Segment := mkSegment { sg_ports : list (list (list byte)) }.
Definition NewSegment : Segment := mkSegment [].
Definition Attach (s : Segment) : nat * Segment :=
  (length (sg_ports s), mkSegment (sg_ports s ++ [[]])).

Definition deliver (frame : list byte) (inbox : list (list byte)) : list (list byte) :=
  inbox ++ [frame].

Definition Port_Send (frame : list byte) (s : Segment) : bool * Segment :=
  (true, mkSegment (map (deliver frame) (sg_ports s))).

Definition Port_Recv (p : nat) (s : Segment) : option (list byte) * Segment :=
  match sg_ports s !! p with
  | Some (f :: fs) => (Some f, mkSegment (<[p:=fs]> (sg_ports s)))
  | _ => (None, s)
  end.

(** ** The ring as a queue *)

Record slot_holds (mem : list byte) (n : Z) (f : list byte) : Prop := mkSlot {
  sl_size : 0 < zlen f <= SlotDataLen;
  sl_len : slice mem (slotBase n) (slotBase n + 4) = le_split 4 (zlen f);
  sl_data : slice mem (slotBase n + 4) (slotBase n + 4 + zlen f) = f;
}.

Record ring_holds (mem : list byte) (q : list (list byte)) : Prop := mkRing {
  rh_size : RingSize <= zlen mem;
  rh_len : zlen q <= WinSlots;
  rh_count : u32 (tail mem - head mem) = zlen q;
  rh_slots : forall i f, q !! i = Some f -> slot_holds mem (head mem + Z.of_nat i) f;
}.

Lemma slotBase_range n : 8 <= slotBase n /\ slotBase n + SlotStride <= RingSize.
Proof.
  unfold slotBase, RingSize, RingHeaderLen, SlotStride, WinSlots.
  pose proof (Z.mod_pos_bound n 256). lia.
Qed.

Lemma slotBase_u32 n : slotBase (u32 n) = slotBase n.
Proof.
  unfold slotBase, WinSlots. do 2 f_equal. unfold u32.
  change (2 ^ 32) with (256 * 2 ^ 24). rewrite Z.rem_mul_r, Z.add_mod, Z.mul_comm, Z.mod_mul by lia.
  by rewrite Z.add_0_r, !Z.mod_mod by lia.
Qed.

(** Slots fewer than 256 apart do not overlap. *)
Lemma slotBase_apart m n :
  m < n < m + 256 ->
  slotBase m + SlotStride <= slotBase n \/ slotBase n + SlotStride <= slotBase m.
Proof.
  intros H. unfold slotBase, SlotStride, RingHeaderLen, WinSlots.
  assert (m mod 256 ≠ n mod 256).
  { intros E. assert ((n - m) mod 256 = 0) by (by rewrite Zminus_mod, E, Z.sub_diag).
    rewrite Z.mod_small in * by lia. lia. }
  lia.
Qed.

(** *** The two index words *)

Lemma RingSize_big (mem : list byte) : RingSize <= zlen mem -> 8 <= zlen mem.
Proof. unfold RingSize, RingHeaderLen, WinSlots, SlotStride. lia. Qed.

Lemma index_setHead (mem : list byte) v :
  8 <= zlen mem -> head (setHead mem v) = u32 v /\ tail (setHead mem v) = tail mem.
Proof.
  intros Hl. unfold head, tail, setHead.
  rewrite !Get32_combine by (rewrite ?zlen_Put32; lia).
  rewrite (Put32_slice _ 0) by lia. rewrite Put32_other by lia. by rewrite le_combine_split.
Qed.

Lemma index_setTail (mem : list byte) v :
  8 <= zlen mem -> tail (setTail mem v) = u32 v /\ head (setTail mem v) = head mem.
Proof.
  intros Hl. unfold head, tail, setTail.
  rewrite !Get32_combine by (rewrite ?zlen_Put32; lia).
  rewrite (Put32_slice _ 4) by lia. rewrite Put32_other by lia. by rewrite le_combine_split.
Qed.

(** A slot depends only on the bytes of its stride. *)
Lemma slot_holds_same mem mem' n m f :
  slotBase n = slotBase m ->
  (forall lo hi, slotBase n <= lo -> hi <= slotBase n + SlotStride -> slice mem' lo hi = slice mem lo hi) ->
  slot_holds mem n f -> slot_holds mem' m f.
Proof.
  intros Hb Hs [H1 H2 H3]. unfold SlotStride, SlotDataLen in *.
  split; [done| |]; rewrite <- Hb, Hs by (rewrite ?zlen_le_split; lia); done.
Qed.

Lemma Ring_Recv_ok mem q :
  ring_holds mem q ->
  match q with
  | [] => Ring_Recv mem = (Ok None, mem)
  | f :: q' => exists mem', Ring_Recv mem = (Ok (Some f), mem') /\ ring_holds mem' q'
  end.
Proof.
  intros [Hsz Hlen Hct Hsl]. pose proof (RingSize_big mem Hsz) as H8.
  pose proof (Get32_range mem 0) as Hh. pose proof (Get32_range mem 4) as Ht.
  fold (head mem) in Hh. fold (tail mem) in Ht.
  destruct q as [|f q']; unfold Ring_Recv; rewrite bind_getS; cbv zeta.
  { rewrite (proj2 (Z.eqb_eq _ _)); [done|]. change (zlen []) with 0 in Hct.
    unfold u32 in Hct. apply Z.mod_divide in Hct as [k Hk]; [|lia]. lia. }
  rewrite (proj2 (Z.eqb_neq _ _)).
  2:{ intros E. rewrite E, Z.sub_diag, zlen_cons in Hct. change (u32 0) with 0 in Hct.
      pose proof (zlen_nonneg q'). lia. }
  destruct (Hsl 0%nat f eq_refl) as [Hf1 Hf2 Hf3]. rewrite Z.add_0_r in *.
  pose proof (slotBase_range (head mem)) as [Hb1 Hb2]. unfold SlotStride, SlotDataLen in *.
  rewrite go_slice_ok, bind_liftO, Hf2, Get32_end, (u32_small (zlen f)) by lia.
  rewrite (proj2 (Z.ltb_ge _ _)) by lia.
  rewrite go_slice_ok, bind_liftO, bind_modifyS, Hf3 by lia.
  eexists. split; [done|].
  destruct (index_setHead mem (u32 (head mem + 1)) H8) as [Eh Et].
  rewrite zlen_cons in *. unfold WinSlots in *. pose proof (zlen_nonneg q').
  assert (Eu : u32 (u32 (head mem + 1)) = u32 (head mem + 1)) by (apply Z.mod_mod; lia).
  split.
  - unfold setHead. by rewrite zlen_Put32 by lia.
  - unfold WinSlots. lia.
  - rewrite Et, Eh, Eu. unfold u32 in *. rewrite Zminus_mod_idemp_r.
    replace (tail mem - (head mem + 1)) with (tail mem - head mem - 1) by lia.
    rewrite <- Zminus_mod_idemp_l, Hct. rewrite Z.mod_small; lia.
  - intros i g Hg. rewrite Eh, Eu.
    apply (slot_holds_same mem _ (head mem + Z.of_nat (S i))); [| |by apply (Hsl (S i))].
    + rewrite <- slotBase_u32, <- (slotBase_u32 (u32 _ + _)). f_equal. unfold u32.
      rewrite Zplus_mod_idemp_l. f_equal. lia.
    + intros lo hi Hlo Hhi. pose proof (slotBase_range (head mem + Z.of_nat (S i))).
      unfold setHead. apply Put32_other; lia.
Qed.

Lemma Ring_Send_full mem q frame :
  ring_holds mem q ->
  zlen frame = 0 \/ SlotDataLen < zlen frame \/ zlen q = WinSlots ->
  Ring_Send frame mem = (Ok false, mem).
Proof.
  intros [Hsz Hlen Hct Hsl] Hf. unfold Ring_Send.
  destruct ((zlen frame =? 0) || (SlotDataLen <? zlen frame)) eqn:E; [done|].
  rewrite bind_getS. cbv zeta. rewrite Hct. destruct (Z.leb_spec WinSlots (zlen q)); [done|].
  apply orb_false_iff in E as [E1 E2]. lia.
Qed.

(** Filling the slot at the tail and advancing the tail enqueues. *)
Lemma ring_holds_grow mem mem2 q frame :
  ring_holds mem q -> zlen q < WinSlots -> zlen mem2 = zlen mem ->
  (forall lo hi, 0 <= lo -> hi <= slotBase (tail mem) \/ slotBase (tail mem) + SlotStride <= lo ->
     slice mem2 lo hi = slice mem lo hi) ->
  slot_holds mem2 (tail mem) frame ->
  ring_holds (setTail mem2 (u32 (tail mem + 1))) (q ++ [frame]).
Proof.
  intros [Hsz Hlen Hct Hsl] Hq Hz Hside Hnew. pose proof (RingSize_big mem Hsz) as H8.
  pose proof (Get32_range mem 4) as Ht. fold (tail mem) in Ht.
  pose proof (slotBase_range (tail mem)) as [Hb1 Hb2]. unfold WinSlots in *.
  destruct (index_setTail mem2 (u32 (tail mem + 1))) as [Et Eh]; [lia|].
  assert (Eh2 : head mem2 = head mem).
  { unfold head. rewrite !Get32_combine, Hside by lia. done. }
  assert (Eu : u32 (u32 (tail mem + 1)) = u32 (tail mem + 1)) by (apply Z.mod_mod; lia).
  assert (Hpos : slotBase (tail mem) = slotBase (head mem + zlen q)).
  { rewrite <- Hct, <- (slotBase_u32 (_ + _)). f_equal. unfold u32.
    rewrite Zplus_mod_idemp_r. replace (head mem + (tail mem - head mem)) with (tail mem) by lia.
    symmetry. apply Z.mod_small. lia. }
  assert (Hset : forall n f, slot_holds mem2 n f -> slot_holds (setTail mem2 (u32 (tail mem + 1))) n f).
  { intros n f Hn. apply (slot_holds_same mem2 _ n); [done| |done].
    intros lo hi Hlo Hhi. pose proof (slotBase_range n). unfold setTail. apply Put32_other; lia. }
  split.
  - unfold setTail. rewrite zlen_Put32; lia.
  - rewrite zlen_app. change (zlen [frame]) with 1. unfold WinSlots. lia.
  - rewrite Et, Eh, Eh2, Eu, zlen_app. change (zlen [frame]) with 1. unfold u32 in *.
    rewrite Zminus_mod_idemp_l. replace (tail mem + 1 - head mem) with (tail mem - head mem + 1) by lia.
    pose proof (zlen_nonneg q). rewrite <- Zplus_mod_idemp_l, Hct. rewrite Z.mod_small; lia.
  - rewrite Eh, Eh2. intros i f Hi. apply Hset. apply lookup_app_Some in Hi as [Hi|[Hi1 Hi2]].
    + apply (slot_holds_same mem _ (head mem + Z.of_nat i)); [done| |by apply Hsl].
      assert (Z.of_nat i < zlen q) by (apply lookup_lt_Some in Hi; unfold zlen; lia).
      intros lo hi Hlo Hhi. pose proof (slotBase_range (head mem + Z.of_nat i)).
      destruct (slotBase_apart (head mem + Z.of_nat i) (head mem + zlen q)); [lia|..];
        rewrite Hpos in Hside; apply Hside; lia.
    + apply list_lookup_singleton_Some in Hi2 as [Hi2 ->].
      apply (slot_holds_same mem2 _ (tail mem)); [|done|done].
      rewrite Hpos. f_equal. unfold zlen. lia.
Qed.

Lemma Ring_Send_ok mem q frame :
  ring_holds mem q -> 0 < zlen frame <= SlotDataLen -> zlen q < WinSlots ->
  exists mem', Ring_Send frame mem = (Ok true, mem') /\ ring_holds mem' (q ++ [frame]).
Proof.
  intros HR Hf Hq. pose proof HR as [Hsz Hlen Hct Hsl]. pose proof (RingSize_big mem Hsz) as H8.
  unfold Ring_Send. rewrite (proj2 (orb_false_iff _ _)) by (split; [apply Z.eqb_neq|apply Z.ltb_ge]; lia).
  rewrite bind_getS. cbv zeta. rewrite Hct, (proj2 (Z.leb_gt _ _)) by lia.
  pose proof (slotBase_range (tail mem)) as [Hb1 Hb2].
  set (base := slotBase (tail mem)) in *. unfold SlotStride, SlotDataLen in *.
  set (lenb := Put32 (mkbuf 4) 0 (zlen frame)).
  assert (Hlb : lenb = le_split 4 (zlen frame)) by (unfold lenb; by rewrite Put32_split).
  assert (Hlz : zlen lenb = 4) by (rewrite Hlb; apply zlen_le_split).
  rewrite go_write_ok, bind_liftO by lia.
  set (mem1 := splice mem base lenb).
  assert (Hz1 : zlen mem1 = zlen mem) by (apply zlen_splice; lia).
  rewrite go_write_ok, bind_liftO by lia.
  set (mem2 := splice mem1 (base + 4) frame).
  assert (Hz2 : zlen mem2 = zlen mem) by (unfold mem2; rewrite zlen_splice; lia).
  eexists. split; [reflexivity|].
  assert (Hside : forall lo hi, 0 <= lo -> hi <= base \/ base + 1536 <= lo ->
    slice mem2 lo hi = slice mem lo hi).
  { intros lo hi H0 [Hs|Hs]; unfold mem2.
    - rewrite slice_splice_before by lia. apply slice_splice_before; lia.
    - rewrite slice_splice_after by lia. apply slice_splice_after; lia. }
  apply (ring_holds_grow mem mem2 q frame); try done.
  split; [done| |]; fold base.
  - unfold mem2. rewrite slice_splice_before by lia. unfold mem1. rewrite <- Hlz, <- Hlb.
    apply slice_splice_same; lia.
  - apply slice_splice_same; lia.
Qed.

(** ** Sequences of operations *)

Inductive ring_op := RSend (frame : list byte) | RRecv.
Inductive ring_res := Sent (ok : bool) | Got (frame : option (list byte)).

Definition ring_step (o : ring_op) : M (list byte) neterr ring_res :=
  match o with
  | RSend f => b ← Ring_Send f; mret (Sent b)
  | RRecv => r ← Ring_Recv; mret (Got r)
  end.

Fixpoint ring_run (ops : list ring_op) : M (list byte) neterr (list ring_res) :=
  match ops with
  | [] => mret []
  | o :: ops => r ← ring_step o; rs ← ring_run ops; mret (r :: rs)
  end.

(** The specification: a queue of at most 256 frames of 1 to 1526 bytes. *)
Definition fifo_step (o : ring_op) (q : list (list byte)) : ring_res * list (list byte) :=
  match o with
  | RSend f =>
      if (0 <? zlen f) && (zlen f <=? SlotDataLen) && (zlen q <? WinSlots)
      then (Sent true, q ++ [f]) else (Sent false, q)
  | RRecv => match q with [] => (Got None, []) | f :: q => (Got (Some f), q) end
  end.

Fixpoint fifo_run (ops : list ring_op) (q : list (list byte)) : list ring_res :=
  match ops with
  | [] => []
  | o :: ops => let '(r, q) := fifo_step o q in r :: fifo_run ops q
  end.

Lemma ring_step_fifo mem q o :
  ring_holds mem q ->
  exists mem', ring_step o mem = (Ok (fst (fifo_step o q)), mem')
    /\ ring_holds mem' (snd (fifo_step o q)).
Proof.
  intros HR. destruct o as [f|]; cbn [ring_step fifo_step].
  - destruct ((0 <? zlen f) && (zlen f <=? SlotDataLen) && (zlen q <? WinSlots)) eqn:E.
    + rewrite !andb_true_iff, !Z.ltb_lt, Z.leb_le in E.
      destruct (Ring_Send_ok mem q f HR) as (mem' & Hs & HR'); [lia..|].
      rewrite (bind_ok _ _ _ _ _ Hs). by eexists.
    + rewrite !andb_false_iff, !Z.ltb_ge, Z.leb_gt in E. pose proof (zlen_nonneg f).
      pose proof (rh_len _ _ HR).
      rewrite (bind_ok _ _ _ _ _ (Ring_Send_full mem q f HR ltac:(lia))). by eexists.
  - pose proof (Ring_Recv_ok mem q HR) as Hr. destruct q as [|f q].
    + rewrite (bind_ok _ _ _ _ _ Hr). by eexists.
    + destruct Hr as (mem' & Hr & HR'). rewrite (bind_ok _ _ _ _ _ Hr). by eexists.
Qed.

Lemma ring_run_fifo ops mem q :
  ring_holds mem q -> exists mem', ring_run ops mem = (Ok (fifo_run ops q), mem').
Proof.
  revert mem q. induction ops as [|o ops IH]; intros mem q HR; cbn [ring_run fifo_run]; [by eexists|].
  destruct (ring_step_fifo mem q o HR) as (mem1 & H1 & HR1).
  destruct (fifo_step o q) as [r q1]. destruct (IH mem1 q1 HR1) as (mem2 & H2).
  rewrite (bind_ok _ _ _ _ _ H1), (bind_ok _ _ _ _ _ H2). by eexists.
Qed.

Lemma ring_empty mem : RingSize <= zlen mem -> head mem = tail mem -> ring_holds mem [].
Proof. intros Hs He. split; [done|done| |done]. by rewrite He, Z.sub_diag. Qed.

(** Whatever the other side wrote into the window. *)
Lemma ring_step_total mem o :
  RingSize <= zlen mem ->
  exists r mem', ring_step o mem = (Ok r, mem') /\ zlen mem' = zlen mem
    /\ forall f, r = Got (Some f) -> zlen f <= SlotDataLen.
Proof.
  intros Hs. pose proof (RingSize_big mem Hs) as H8. destruct o as [f|]; cbn [ring_step].
  - unfold Ring_Send. destruct ((zlen f =? 0) || (SlotDataLen <? zlen f)) eqn:E; [by do 2 eexists|].
    apply orb_false_iff in E as [_ E%Z.ltb_ge].
    pose proof (slotBase_range (tail mem)) as [Hb1 Hb2]. unfold SlotStride, SlotDataLen in *.
    pose proof (zlen_nonneg f).
    unfold mbind, M_bind, getS. destruct (WinSlots <=? _); [by do 2 eexists|].
    rewrite go_write_ok by lia. cbn [liftO].
    set (mem1 := splice mem _ _).
    assert (zlen mem1 = zlen mem) as Hz1 by (apply zlen_splice; lia).
    rewrite go_write_ok by lia. cbn [liftO putS]. set (mem2 := splice mem1 _ _).
    assert (zlen mem2 = zlen mem1) as Hz2 by (apply zlen_splice; lia).
    do 2 eexists. split; [done|]. split; [|done].
    unfold setTail. rewrite zlen_Put32; lia.
  - unfold Ring_Recv, mbind, M_bind, getS. destruct (head mem =? tail mem); [by do 2 eexists|].
    pose proof (slotBase_range (head mem)) as [Hb1 Hb2]. unfold SlotStride in *.
    rewrite go_slice_ok by lia. cbn [liftO].
    set (u := if SlotDataLen <? _ then _ else _).
    assert (0 <= u <= SlotDataLen) as Hu.
    { unfold u. pose proof (Get32_range (slice mem (slotBase (head mem)) (slotBase (head mem) + 4)) 0).
      unfold SlotDataLen in *. case (Z.ltb_spec 1526
        (Get32 (slice mem (slotBase (head mem)) (slotBase (head mem) + 4)) 0)); lia. }
    unfold SlotDataLen in Hu. rewrite go_slice_ok by lia. cbn [liftO modifyS].
    do 2 eexists. split; [done|]. split; [unfold setHead; apply zlen_Put32; lia|].
    intros f [= <-]. rewrite zlen_slice by lia. unfold SlotDataLen. lia.
Qed.

(** ** Properties *)

(** C31: The packet window is a first-in first-out queue: every sequence of
    Send and Recv calls on a window memory whose two indices agree, at any
    value and across their 32-bit wrap-around, returns exactly what a queue
    of at most 256 frames returns, frames byte for byte. *)
Theorem ring_refines_fifo (mem : list byte) (ops : list ring_op) :
  RingSize <= zlen mem -> head mem = tail mem ->
  exists mem', ring_run ops mem = (Ok (fifo_run ops []), mem').
Proof. intros Hs He. by apply ring_run_fifo, ring_empty. Qed.

(** Whatever bytes the other side of the window writes into the indices
    and slots, a Send or a Recv never indexes outside the window, and Recv
    never returns more than one slot of data. *)
Theorem ring_safe_on_any_memory (mem : list byte) (o : ring_op) :
  RingSize <= zlen mem ->
  exists r mem', ring_step o mem = (Ok r, mem') /\ zlen mem' = zlen mem
    /\ forall f, r = Got (Some f) -> zlen f <= SlotDataLen.
Proof. apply ring_step_total. Qed.

(** *** Instances of the properties *)

(** A window whose indices are about to wrap around. *)
Definition ring_wrap : list byte := setTail (setHead (mkbuf RingSize) (2 ^ 32 - 1)) (2 ^ 32 - 1).

Lemma ring_refines_fifo_witness :
  exists mem', ring_run [RSend (bs "a"); RSend (bs "bc"); RRecv; RRecv; RRecv] ring_wrap
  = (Ok [Sent true; Sent true; Got (Some (bs "a")); Got (Some (bs "bc")); Got None], mem').
Proof.
  apply (ring_refines_fifo ring_wrap [RSend (bs "a"); RSend (bs "bc"); RRecv; RRecv; RRecv]).
  - vm_compute. discriminate.
  - vm_compute. reflexivity.
Defined.

Lemma ring_safe_on_any_memory_witness :
  exists r mem', ring_step RRecv (replicate (Z.to_nat RingSize) Byte.xff) = (Ok r, mem')
    /\ zlen mem' = zlen (replicate (Z.to_nat RingSize) Byte.xff)
    /\ forall f, r = Got (Some f) -> zlen f <= SlotDataLen.
Proof.
  apply (ring_safe_on_any_memory (replicate (Z.to_nat RingSize) Byte.xff) RRecv).
  vm_compute. discriminate.
Defined.
