(* ===== verification/NetTcp.v ===== *)
(** * NetTcp: TCP connections ([services/net/tcp.go])

    The connection record and every operation on it: segmenting within the
    in-flight window, the deferred FIN, the inbound segment handler with the
    whole state machine, and the stack of connections by local port.  Sending
    a segment is recorded in the field [c_sent], in order: the Go code hands
    each one to [SendTCPSegment] while it holds the connection's lock. *)

From S2P Require Import Prelude Frame BlockDev Paths NetWire.

Definition tcpWindowCap : Z := 1024.
Definition tcpMaxSeg : Z := 512.

(** [int32(a-b) > 0] on 32-bit sequence numbers. *)
Definition seqGT (a b : Z) : bool := 0 <? i32 (u32 (a - b)).
Definition seqGE (a b : Z) : bool := (a =? b) || seqGT a b.

Inductive tcpState :=
| stateClosed | stateListen | stateSynSent | stateSynRcvd | stateEstablished
| stateFinWait | stateCloseWait | stateLastAck.

#[export] Instance tcpState_eq_decision : EqDecision tcpState.
Proof. solve_decision. Defined.

Definition tcpState_String (s : tcpState) : list byte :=
  match s with
  | stateListen => bs "LISTEN"
  | stateSynSent => bs "SYN-SENT"
  | stateSynRcvd => bs "SYN-RCVD"
  | stateEstablished => bs "ESTABLISHED"
  | stateFinWait => bs "FIN-WAIT"
  | stateCloseWait => bs "CLOSE-WAIT"
  | stateLastAck => bs "LAST-ACK"
  | stateClosed => bs "CLOSED"
  end.

(** ** Connections

    [c_lq] is the accept queue of the listener a passive connection belongs
    to ([nil] for an active one): the queue can only hold this connection, so
    its length says everything. *)

Record TCPConn := mkConn {
  c_LocalIP : IP4;
  c_LocalPort : Z;
  c_RemoteIP : IP4;
  c_RemotePort : Z;
  c_state : tcpState;
  c_sndUNA : Z;
  c_sndNXT : Z;
  c_rcvNXT : Z;
  c_finSeq : Z;
  c_finSent : bool;
  c_finPending : bool;
  c_sndBuf : list byte;
  c_rcvBuf : list byte;
  c_inFlight : list byte;
  c_finAckedTheirFin : bool;
  c_lq : option Z;
  c_err : option neterr;
  c_sent : list TCPSegment;
}.

Definition set_RemoteIP (v : IP4) (c : TCPConn) : TCPConn :=
  mkConn (c_LocalIP c) (c_LocalPort c) v (c_RemotePort c) (c_state c) (c_sndUNA c) (c_sndNXT
    c) (c_rcvNXT c) (c_finSeq c) (c_finSent c) (c_finPending c) (c_sndBuf c) (c_rcvBuf c)
    (c_inFlight c) (c_finAckedTheirFin c) (c_lq c) (c_err c) (c_sent c).
Definition set_RemotePort (v : Z) (c : TCPConn) : TCPConn :=
  mkConn (c_LocalIP c) (c_LocalPort c) (c_RemoteIP c) v (c_state c) (c_sndUNA c) (c_sndNXT
    c) (c_rcvNXT c) (c_finSeq c) (c_finSent c) (c_finPending c) (c_sndBuf c) (c_rcvBuf c)
    (c_inFlight c) (c_finAckedTheirFin c) (c_lq c) (c_err c) (c_sent c).
Definition set_state (v : tcpState) (c : TCPConn) : TCPConn :=
  mkConn (c_LocalIP c) (c_LocalPort c) (c_RemoteIP c) (c_RemotePort c) v (c_sndUNA c)
    (c_sndNXT c) (c_rcvNXT c) (c_finSeq c) (c_finSent c) (c_finPending c) (c_sndBuf c)
    (c_rcvBuf c) (c_inFlight c) (c_finAckedTheirFin c) (c_lq c) (c_err c) (c_sent c).
Definition set_sndUNA (v : Z) (c : TCPConn) : TCPConn :=
  mkConn (c_LocalIP c) (c_LocalPort c) (c_RemoteIP c) (c_RemotePort c) (c_state c) v
    (c_sndNXT c) (c_rcvNXT c) (c_finSeq c) (c_finSent c) (c_finPending c) (c_sndBuf c)
    (c_rcvBuf c) (c_inFlight c) (c_finAckedTheirFin c) (c_lq c) (c_err c) (c_sent c).
Definition set_sndNXT (v : Z) (c : TCPConn) : TCPConn :=
  mkConn (c_LocalIP c) (c_LocalPort c) (c_RemoteIP c) (c_RemotePort c) (c_state c) (c_sndUNA
    c) v (c_rcvNXT c) (c_finSeq c) (c_finSent c) (c_finPending c) (c_sndBuf c) (c_rcvBuf c)
    (c_inFlight c) (c_finAckedTheirFin c) (c_lq c) (c_err c) (c_sent c).
Definition set_rcvNXT (v : Z) (c : TCPConn) : TCPConn :=
  mkConn (c_LocalIP c) (c_LocalPort c) (c_RemoteIP c) (c_RemotePort c) (c_state c) (c_sndUNA
    c) (c_sndNXT c) v (c_finSeq c) (c_finSent c) (c_finPending c) (c_sndBuf c) (c_rcvBuf c)
    (c_inFlight c) (c_finAckedTheirFin c) (c_lq c) (c_err c) (c_sent c).
Definition set_finSeq (v : Z) (c : TCPConn) : TCPConn :=
  mkConn (c_LocalIP c) (c_LocalPort c) (c_RemoteIP c) (c_RemotePort c) (c_state c) (c_sndUNA
    c) (c_sndNXT c) (c_rcvNXT c) v (c_finSent c) (c_finPending c) (c_sndBuf c) (c_rcvBuf c)
    (c_inFlight c) (c_finAckedTheirFin c) (c_lq c) (c_err c) (c_sent c).
Definition set_finSent (v : bool) (c : TCPConn) : TCPConn :=
  mkConn (c_LocalIP c) (c_LocalPort c) (c_RemoteIP c) (c_RemotePort c) (c_state c) (c_sndUNA
    c) (c_sndNXT c) (c_rcvNXT c) (c_finSeq c) v (c_finPending c) (c_sndBuf c) (c_rcvBuf c)
    (c_inFlight c) (c_finAckedTheirFin c) (c_lq c) (c_err c) (c_sent c).
Definition set_finPending (v : bool) (c : TCPConn) : TCPConn :=
  mkConn (c_LocalIP c) (c_LocalPort c) (c_RemoteIP c) (c_RemotePort c) (c_state c) (c_sndUNA
    c) (c_sndNXT c) (c_rcvNXT c) (c_finSeq c) (c_finSent c) v (c_sndBuf c) (c_rcvBuf c)
    (c_inFlight c) (c_finAckedTheirFin c) (c_lq c) (c_err c) (c_sent c).
Definition set_sndBuf (v : list byte) (c : TCPConn) : TCPConn :=
  mkConn (c_LocalIP c) (c_LocalPort c) (c_RemoteIP c) (c_RemotePort c) (c_state c) (c_sndUNA
    c) (c_sndNXT c) (c_rcvNXT c) (c_finSeq c) (c_finSent c) (c_finPending c) v (c_rcvBuf c)
    (c_inFlight c) (c_finAckedTheirFin c) (c_lq c) (c_err c) (c_sent c).
Definition set_rcvBuf (v : list byte) (c : TCPConn) : TCPConn :=
  mkConn (c_LocalIP c) (c_LocalPort c) (c_RemoteIP c) (c_RemotePort c) (c_state c) (c_sndUNA
    c) (c_sndNXT c) (c_rcvNXT c) (c_finSeq c) (c_finSent c) (c_finPending c) (c_sndBuf c) v
    (c_inFlight c) (c_finAckedTheirFin c) (c_lq c) (c_err c) (c_sent c).
Definition set_inFlight (v : list byte) (c : TCPConn) : TCPConn :=
  mkConn (c_LocalIP c) (c_LocalPort c) (c_RemoteIP c) (c_RemotePort c) (c_state c) (c_sndUNA
    c) (c_sndNXT c) (c_rcvNXT c) (c_finSeq c) (c_finSent c) (c_finPending c) (c_sndBuf c)
    (c_rcvBuf c) v (c_finAckedTheirFin c) (c_lq c) (c_err c) (c_sent c).
Definition set_finAckedTheirFin (v : bool) (c : TCPConn) : TCPConn :=
  mkConn (c_LocalIP c) (c_LocalPort c) (c_RemoteIP c) (c_RemotePort c) (c_state c) (c_sndUNA
    c) (c_sndNXT c) (c_rcvNXT c) (c_finSeq c) (c_finSent c) (c_finPending c) (c_sndBuf c)
    (c_rcvBuf c) (c_inFlight c) v (c_lq c) (c_err c) (c_sent c).
Definition set_lq (v : option Z) (c : TCPConn) : TCPConn :=
  mkConn (c_LocalIP c) (c_LocalPort c) (c_RemoteIP c) (c_RemotePort c) (c_state c) (c_sndUNA
    c) (c_sndNXT c) (c_rcvNXT c) (c_finSeq c) (c_finSent c) (c_finPending c) (c_sndBuf c)
    (c_rcvBuf c) (c_inFlight c) (c_finAckedTheirFin c) v (c_err c) (c_sent c).
Definition set_err (v : option neterr) (c : TCPConn) : TCPConn :=
  mkConn (c_LocalIP c) (c_LocalPort c) (c_RemoteIP c) (c_RemotePort c) (c_state c) (c_sndUNA
    c) (c_sndNXT c) (c_rcvNXT c) (c_finSeq c) (c_finSent c) (c_finPending c) (c_sndBuf c)
    (c_rcvBuf c) (c_inFlight c) (c_finAckedTheirFin c) (c_lq c) v (c_sent c).
Definition set_sent (v : list TCPSegment) (c : TCPConn) : TCPConn :=
  mkConn (c_LocalIP c) (c_LocalPort c) (c_RemoteIP c) (c_RemotePort c) (c_state c) (c_sndUNA
    c) (c_sndNXT c) (c_rcvNXT c) (c_finSeq c) (c_finSent c) (c_finPending c) (c_sndBuf c)
    (c_rcvBuf c) (c_inFlight c) (c_finAckedTheirFin c) (c_lq c) (c_err c) v.

Definition newConn (lip : IP4) (lport : Z) (rip : IP4) (rport : Z) (st : tcpState) (iss : Z)
    (l : option Z) : TCPConn :=
  mkConn lip lport rip rport st iss iss 0 0 false false [] [] [] false l None [].

Definition in_state (s : tcpState) (c : TCPConn) : bool := bool_decide (c_state c = s).
Definition has_flag (flags f : Z) : bool := negb (Z.land flags f =? 0).

(** [Recv] pops up to [n] bytes of the stream. *)
Definition TCP_Recv (n : Z) (c : TCPConn) : list byte * TCPConn :=
  let k := Z.min n (zlen (c_rcvBuf c)) in
  (slice (c_rcvBuf c) 0 k, set_rcvBuf (drop (Z.to_nat k) (c_rcvBuf c)) c).

Definition TCP_State (c : TCPConn) : list byte := tcpState_String (c_state c).

Definition TCP_Err (c : TCPConn) : option neterr :=
  if (0 <? zlen (c_rcvBuf c))
     && (bool_decide (c_err c = Some ErrRemoteClosed) || bool_decide (c_err c = Some ErrClosed))
  then None else c_err c.

Definition sendLocked (flags : Z) (payload : list byte) (c : TCPConn) : TCPConn :=
  let seq := c_sndNXT c in
  let fl := if has_flag flags TCPAck || negb (in_state stateSynSent c)
            then Z.lor flags TCPAck else flags in
  let seg := mkTCP (c_LocalPort c) (c_RemotePort c) seq (c_rcvNXT c) fl
               (u16 (Z.max 0 (tcpWindowCap - zlen (c_inFlight c)))) payload in
  let c := set_sndNXT (u32 (c_sndNXT c + zlen payload)) c in
  let c := if has_flag flags (Z.lor TCPSyn TCPFin) then set_sndNXT (u32 (c_sndNXT c + 1)) c else c in
  let c := if has_flag flags TCPFin then set_finSent true (set_finSeq seq c) else c in
  let c := if 0 <? zlen payload then set_inFlight (c_inFlight c ++ payload) c else c in
  set_sent (c_sent c ++ [seg]) c.

(** Each round of [flushLocked] takes at least one byte of [sndBuf]; the
    number of bytes queued bounds the rounds. *)
Fixpoint flush_loop (fuel : nat) (c : TCPConn) : TCPConn :=
  match fuel with
  | O => c
  | S fuel =>
      if in_state stateEstablished c && (0 <? zlen (c_sndBuf c))
         && (zlen (c_inFlight c) <? tcpWindowCap)
      then
        let n := Z.min tcpMaxSeg (zlen (c_sndBuf c)) in
        let room := tcpWindowCap - zlen (c_inFlight c) in
        let n := if room <? n then room else n in
        let payload := slice (c_sndBuf c) 0 n in
        let c := set_sndBuf (drop (Z.to_nat n) (c_sndBuf c)) c in
        flush_loop fuel (sendLocked 0 payload c)
      else c
  end.

Definition flushLocked (c : TCPConn) : TCPConn := flush_loop (length (c_sndBuf c)) c.

Definition trySendFinLocked (c : TCPConn) : TCPConn :=
  if negb (c_finPending c) || (0 <? zlen (c_sndBuf c)) || (0 <? zlen (c_inFlight c)) then c
  else
    match c_state c with
    | stateEstablished => sendLocked TCPFin [] (set_state stateFinWait c)
    | stateCloseWait => sendLocked TCPFin [] (set_state stateLastAck c)
    | _ => c
    end.

Definition TCP_Write (data : list byte) (c : TCPConn) : outcome neterr Z * TCPConn :=
  if negb (in_state stateEstablished c) || c_finPending c then (Err ErrClosed, c)
  else (Ok (zlen data), flushLocked (set_sndBuf (c_sndBuf c ++ data) c)).

Definition TCP_Close (c : TCPConn) : outcome neterr unit * TCPConn :=
  match c_state c with
  | stateEstablished => (Ok tt, trySendFinLocked (set_finPending true (flushLocked c)))
  | stateCloseWait => (Ok tt, trySendFinLocked (set_finPending true c))
  | stateClosed => (Ok tt, c)
  | _ => (Err ErrClosed, c)
  end.

(** ** The inbound handler *)

Definition handle_ack (seg : TCPSegment) (c : TCPConn) : TCPConn :=
  if has_flag (seg_Flags seg) TCPAck && seqGE (seg_Ack seg) (c_sndUNA c)
     && seqGT (seg_Ack seg) (c_sndUNA c) && seqGE (c_sndNXT c) (seg_Ack seg)
  then
    let acked := u32 (seg_Ack seg - c_sndUNA c) in
    if 0 <? acked then
      let c := if zlen (c_inFlight c) <=? acked then set_inFlight [] c
               else set_inFlight (drop (Z.to_nat acked) (c_inFlight c)) c in
      let c := set_sndUNA (seg_Ack seg) c in
      let c := if in_state stateEstablished c then flushLocked c else c in
      trySendFinLocked c
    else c
  else c.

(** In-order payload: append, advance, acknowledge. *)
Definition deliver_payload (seg : TCPSegment) (c : TCPConn) : TCPConn :=
  if (0 <? zlen (seg_Payload seg)) && (seg_Seq seg =? c_rcvNXT c) then
    let c := set_rcvBuf (c_rcvBuf c ++ seg_Payload seg) c in
    let c := set_rcvNXT (u32 (c_rcvNXT c + zlen (seg_Payload seg))) c in
    sendLocked TCPAck [] c
  else c.

Definition fin_in_order (seg : TCPSegment) (c : TCPConn) : bool :=
  has_flag (seg_Flags seg) TCPFin
  && (u32 (seg_Seq seg + zlen (seg_Payload seg)) =? c_rcvNXT c).

Definition accept_fin (c : TCPConn) : TCPConn :=
  sendLocked TCPAck [] (set_rcvNXT (u32 (c_rcvNXT c + 1)) c).

Definition handle_state (seg : TCPSegment) (c : TCPConn) : TCPConn :=
  match c_state c with
  | stateListen =>
      if has_flag (seg_Flags seg) TCPSyn && negb (has_flag (seg_Flags seg) TCPAck)
      then sendLocked (Z.lor TCPSyn TCPAck) []
             (set_state stateSynRcvd (set_rcvNXT (u32 (seg_Seq seg + 1)) c))
      else c
  | stateSynSent =>
      if has_flag (seg_Flags seg) TCPSyn && has_flag (seg_Flags seg) TCPAck
      then
        let c := set_rcvNXT (u32 (seg_Seq seg + 1)) c in
        let c := set_sndUNA (seg_Ack seg) c in
        let c := set_state stateEstablished (set_inFlight [] c) in
        flushLocked (sendLocked TCPAck [] c)
      else c
  | stateSynRcvd =>
      if has_flag (seg_Flags seg) TCPAck
      then
        let c := set_state stateEstablished c in
        match c_lq c with
        | Some n => if n <? 16 then set_lq (Some (n + 1)) c else c
        | None => c
        end
      else c
  | stateEstablished =>
      let c := deliver_payload seg c in
      if fin_in_order seg c
      then set_err (Some ErrRemoteClosed) (set_state stateCloseWait (accept_fin c))
      else c
  | stateFinWait =>
      let c := deliver_payload seg c in
      let c := if fin_in_order seg c then accept_fin c else c in
      let finAcked := negb (c_finSent c) || seqGE (c_sndUNA c) (u32 (c_finSeq c + 1)) in
      let theirFinSeen := has_flag (seg_Flags seg) TCPFin || c_finAckedTheirFin c in
      let c := if has_flag (seg_Flags seg) TCPFin then set_finAckedTheirFin true c else c in
      if finAcked && theirFinSeen then set_err (Some ErrClosed) (set_state stateClosed c) else c
  | stateLastAck =>
      if has_flag (seg_Flags seg) TCPAck && c_finSent c
         && seqGE (c_sndUNA c) (u32 (c_finSeq c + 1))
      then set_err (Some ErrClosed) (set_state stateClosed c)
      else c
  | _ => c
  end.

Definition handle (seg : TCPSegment) (c : TCPConn) : TCPConn :=
  if has_flag (seg_Flags seg) TCPRst && negb (in_state stateClosed c) && negb (in_state stateListen c)
  then set_err (Some ErrConnReset) (set_state stateClosed c)
  else
    let c := handle_ack seg c in
    let c := handle_state seg c in
    if in_state stateEstablished c then deliver_payload seg c else c.

(** ** The stack's connections *)

Record TCPStack := mkTCPStack { t_conns : gmap Z TCPConn; t_nextEphemeral : Z }.

Definition NewTCPStack : TCPStack := mkTCPStack ∅ 49152.

Definition Listen (port : Z) (t : TCPStack) : outcome neterr unit * TCPStack :=
  match t_conns t !! port with
  | Some _ => (Err ErrPortInUse, t)
  | None =>
      (Ok tt, mkTCPStack
        (<[port := newConn IP4_zero port IP4_zero 0 stateListen 0 (Some 0)]> (t_conns t))
        (t_nextEphemeral t))
  end.

(** The search for a free local port; [None] when the loop does not end.  It
    visits all 65536 port numbers before it repeats one. *)
Fixpoint ephemeral_loop (fuel : nat) (t : TCPStack) : option (Z * TCPStack) :=
  match fuel with
  | O => None
  | S fuel =>
      let p := t_nextEphemeral t in
      let t := mkTCPStack (t_conns t) (u16 (p + 1)) in
      match t_conns t !! p with
      | None => Some (p, t)
      | Some _ => ephemeral_loop fuel t
      end
  end.

Definition ephemeral (t : TCPStack) : option (Z * TCPStack) := ephemeral_loop (Z.to_nat 65536) t.

(** [Dial] registers the connection and sends its SYN; the local port names
    the connection. *)
Definition Dial (laddr raddr : IP4) (rport : Z) (t : TCPStack) : option (Z * TCPStack) :=
  match ephemeral t with
  | None => None
  | Some (local, t) =>
      let conn := newConn laddr local raddr rport stateSynSent 1000 None in
      Some (local, mkTCPStack (<[local := sendLocked TCPSyn [] conn]> (t_conns t)) (t_nextEphemeral t))
  end.

Definition Accept (port : Z) (t : TCPStack) : outcome neterr unit * TCPStack :=
  match t_conns t !! port with
  | Some c =>
      match c_lq c with
      | Some n =>
          if 0 <? n then (Ok tt, mkTCPStack (<[port := set_lq (Some (n - 1)) c]> (t_conns t)) (t_nextEphemeral t))
          else (Err ErrNoPending, t)
      | None => (Err ErrNoPending, t)
      end
  | None => (Err ErrNoPending, t)
  end.

Definition Pending (port : Z) (t : TCPStack) : bool :=
  match t_conns t !! port with
  | Some c => match c_lq c with Some n => 0 <? n | None => false end
  | None => false
  end.

(** The demultiplexer: a SYN binds a listening connection to its peer. *)
Definition TCPStack_handle (pkt : IP4Packet) (t : TCPStack) : TCPStack :=
  match ParseTCP (ip_Payload pkt) with
  | Ok seg =>
      match t_conns t !! seg_DstPort seg with
      | Some c =>
          let c := if bool_decide (TCP_State c = bs "LISTEN") && has_flag (seg_Flags seg) TCPSyn
                      && negb (has_flag (seg_Flags seg) TCPAck)
                   then set_RemotePort (seg_SrcPort seg) (set_RemoteIP (ip_Src pkt) c) else c in
          mkTCPStack (<[seg_DstPort seg := handle seg c]> (t_conns t)) (t_nextEphemeral t)
      | None => t
      end
  | _ => t
  end.
