(* ===== verification/NetTcpStream.v ===== *)
(** * NetTcpStream: what a TCP connection guarantees

    Two connections of [NetTcp] talk over a network that may lose, duplicate
    and reorder segments but not make them up.  The sender's invariant says
    what every segment it has sent contains; the receiver's says where in the
    peer's stream it stands.  Both are kept by every operation, from the
    handshake to the close. *)

From S2P Require Import Prelude Frame BlockDev Paths NetWire NetCodec NetTcp.

(** ** What sending leaves alone *)

(** The receiving half of a connection. *)
Record same_recv (c c' : TCPConn) : Prop := mkSameRecv {
  sr_rcvNXT : c_rcvNXT c' = c_rcvNXT c;
  sr_rcvBuf : c_rcvBuf c' = c_rcvBuf c;
}.

Definition flag_size (flags : Z) : Z := if has_flag flags (Z.lor TCPSyn TCPFin) then 1 else 0.

(** The segment [sendLocked] sends. *)
Definition seg_of (flags : Z) (payload : list byte) (c : TCPConn) : TCPSegment :=
  mkTCP (c_LocalPort c) (c_RemotePort c) (c_sndNXT c) (c_rcvNXT c)
    (if has_flag flags TCPAck || negb (in_state stateSynSent c) then Z.lor flags TCPAck else flags)
    (u16 (Z.max 0 (tcpWindowCap - zlen (c_inFlight c)))) payload.

Lemma sendLocked_eq flags p c :
  sendLocked flags p c =
  mkConn (c_LocalIP c) (c_LocalPort c) (c_RemoteIP c) (c_RemotePort c) (c_state c) (c_sndUNA c)
    (u32 (c_sndNXT c + zlen p + flag_size flags)) (c_rcvNXT c)
    (if has_flag flags TCPFin then c_sndNXT c else c_finSeq c)
    (has_flag flags TCPFin || c_finSent c) (c_finPending c) (c_sndBuf c) (c_rcvBuf c)
    (c_inFlight c ++ p) (c_finAckedTheirFin c) (c_lq c) (c_err c) (c_sent c ++ [seg_of flags p c]).
Proof.
  unfold sendLocked, flag_size, seg_of.
  destruct c as [li lp ri rp st una nxt rn fs fse fp sb rb inf fa lq er se].
  assert (Hu : forall x, u32 (u32 (nxt + zlen p) + x) = u32 (nxt + zlen p + x))
    by (intros; unfold u32; apply Zplus_mod_idemp_l).
  assert (Hp : inf ++ p = if 0 <? zlen p then inf ++ p else inf).
  { destruct p as [|b p]; [by rewrite app_nil_r|].
    rewrite (proj2 (Z.ltb_lt _ _)); [done|]. rewrite zlen_cons. pose proof (zlen_nonneg p). lia. }
  cbn -[u32 Z.max zlen has_flag in_state]. rewrite Hp.
  destruct (has_flag flags (Z.lor TCPSyn TCPFin)), (has_flag flags TCPFin), (0 <? zlen p);
    cbn -[u32 Z.max zlen]; rewrite ?Hu, ?Z.add_0_r; done.
Qed.

(** ** The sender

    [W] is the stream written so far; its first byte has sequence number
    [iss + 1].  A segment carries a piece of the stream at its place, or the
    SYN, or the FIN behind the last byte, or nothing. *)

Definition plain (flags : Z) : Prop :=
  has_flag flags TCPSyn = false /\ has_flag flags TCPFin = false /\ has_flag flags TCPRst = false.

Inductive seg_ok (iss : Z) (W : list byte) (fin : bool) (s : TCPSegment) : Prop :=
| ok_data off :
    plain (seg_Flags s) -> 0 <= off -> off + zlen (seg_Payload s) <= zlen W ->
    seg_Seq s = u32 (iss + 1 + off) ->
    seg_Payload s = slice W off (off + zlen (seg_Payload s)) -> seg_ok iss W fin s
| ok_empty : plain (seg_Flags s) -> seg_Payload s = [] -> seg_ok iss W fin s
| ok_syn :
    has_flag (seg_Flags s) TCPSyn = true -> has_flag (seg_Flags s) TCPFin = false ->
    has_flag (seg_Flags s) TCPRst = false -> seg_Payload s = [] -> seg_Seq s = u32 iss ->
    seg_ok iss W fin s
| ok_fin :
    has_flag (seg_Flags s) TCPSyn = false -> has_flag (seg_Flags s) TCPRst = false ->
    seg_Payload s = [] -> fin = true -> seg_Seq s = u32 (iss + 1 + zlen W) -> seg_ok iss W fin s.

Definition fin_state (s : tcpState) : Prop :=
  s = stateFinWait \/ s = stateLastAck \/ s = stateClosed.

Definition bit (b : bool) : Z := if b then 1 else 0.

Record send_inv (iss : Z) (W : list byte) (c : TCPConn) : Prop := mkSendInv {
  si_split : exists P, W = P ++ c_sndBuf c
    /\ c_sndNXT c = u32 (iss + bit (negb (in_state stateListen c)) + zlen P + bit (c_finSent c));
  si_segs : Forall (seg_ok iss W (c_finSent c)) (c_sent c);
  si_fin : c_finSent c = true -> c_sndBuf c = [] /\ fin_state (c_state c);
  si_listen : c_state c = stateListen -> W = [] /\ c_finSent c = false;
  si_window : zlen (c_inFlight c) <= tcpWindowCap;
  si_sizes : Forall (fun s => zlen (seg_Payload s) <= tcpMaxSeg) (c_sent c);
}.

Lemma seg_ok_mono iss W V fin fin' s :
  seg_ok iss W fin s -> (fin = true -> V = []) -> (fin = true -> fin' = true) ->
  seg_ok iss (W ++ V) fin' s.
Proof.
  intros [off Hp H0 Hl Hs Hd|Hp He|Hy Hf Hr He Hs|Hy Hr He Hf Hs] HV Hm.
  - apply (ok_data _ _ _ _ off); try done; [rewrite zlen_app; pose proof (zlen_nonneg V); lia|].
    rewrite Hd at 1. pose proof (zlen_nonneg (seg_Payload s)). list_ext.
  - by apply ok_empty.
  - by apply ok_syn.
  - apply ok_fin; try done; [by apply Hm|]. by rewrite (HV Hf), app_nil_r.
Qed.

Lemma in_state_spec s c : in_state s c = true <-> c_state c = s.
Proof. unfold in_state. apply bool_decide_eq_true. Qed.

Lemma in_state_eq s c c' : c_state c' = c_state c -> in_state s c' = in_state s c.
Proof. unfold in_state. by intros ->. Qed.

(** Fields the invariant does not read. *)
Lemma send_inv_same iss W c c' :
  send_inv iss W c -> c_sndBuf c' = c_sndBuf c -> c_sndNXT c' = c_sndNXT c -> c_sent c' = c_sent c ->
  c_finSent c' = c_finSent c -> c_state c' = c_state c -> zlen (c_inFlight c') <= zlen (c_inFlight c) ->
  send_inv iss W c'.
Proof.
  intros [H1 H2 H3 H4 H5 H6] Eb En Es Ef Et Ei.
  split; rewrite ?Eb, ?En, ?Es, ?Ef, ?Et, ?(in_state_eq _ _ _ Et); try done. lia.
Qed.

Lemma send_inv_state iss W c st :
  send_inv iss W c -> c_state c ≠ stateListen -> st ≠ stateListen ->
  (c_finSent c = true -> fin_state st) -> send_inv iss W (set_state st c).
Proof.
  intros [(P & HP & Hn) H2 H3 H4 H5 H6] Hl Hl' Hf. split; cbn; try done.
  - exists P. split; [done|]. rewrite Hn. do 3 f_equal. unfold in_state, set_state. cbn.
    by rewrite !bool_decide_false.
  - intros Hfs. split; [by apply H3|by apply Hf].
Qed.

(** The acknowledgement flag [sendLocked] may add changes no other flag. *)
Lemma seg_of_flag flags p c g :
  has_flag (Z.lor flags TCPAck) g = has_flag flags g ->
  has_flag (seg_Flags (seg_of flags p c)) g = has_flag flags g.
Proof. intros H. unfold seg_of. cbn [seg_Flags]. by destruct (_ || _). Qed.

(** An empty acknowledgement. *)
Lemma send_ack iss W c :
  send_inv iss W c -> send_inv iss W (sendLocked TCPAck [] c).
Proof.
  intros [(P & HP & Hn) H2 H3 H4 H5 H6]. rewrite sendLocked_eq.
  split; cbn -[u32 zlen]; rewrite ?app_nil_r; try done.
  - exists P. split; [done|]. rewrite Hn. change (flag_size TCPAck) with 0. change (zlen []) with 0.
    rewrite !Z.add_0_r. unfold u32. by rewrite Z.mod_mod by lia.
  - apply Forall_app. split; [done|]. apply Forall_cons. split; [|done].
    apply ok_empty; [|done]. repeat split; by rewrite seg_of_flag.
  - apply Forall_app. split; [done|]. by apply Forall_cons.
Qed.

(** A piece taken from the front of the queue. *)
Lemma send_data iss W c p rest :
  send_inv iss W c -> c_state c = stateEstablished -> c_sndBuf c = p ++ rest ->
  zlen p <= tcpMaxSeg -> zlen p + zlen (c_inFlight c) <= tcpWindowCap ->
  send_inv iss W (sendLocked 0 p (set_sndBuf rest c)).
Proof.
  intros [(P & HP & Hn) H2 H3 H4 H5 H6] Hst Hb Hsz Hw. rewrite sendLocked_eq.
  assert (Hfs : c_finSent c = false).
  { destruct (c_finSent c); [|done]. destruct (H3 eq_refl) as [_ [E|[E|E]]]; congruence. }
  assert (Hil : in_state stateListen c = false) by (unfold in_state; by rewrite Hst).
  rewrite Hb in HP. rewrite Hil, Hfs in Hn. cbn [negb bit] in Hn. rewrite Hfs in *.
  split; cbn -[u32 zlen]; rewrite ?Hfs; try done.
  - exists (P ++ p). rewrite <- app_assoc. split; [done|].
    change (in_state stateListen _) with (in_state stateListen c). rewrite Hil, Hn, zlen_app.
    change (flag_size 0) with 0. cbn [negb bit]. unfold u32. rewrite !Z.add_0_r, Zplus_mod_idemp_l.
    f_equal. lia.
  - apply Forall_app. split; [done|]. apply Forall_cons. split; [|done].
    apply (ok_data _ _ _ _ (zlen P)); cbn -[u32 zlen has_flag plain Z.lor seg_Flags].
    + repeat split; by rewrite seg_of_flag.
    + apply zlen_nonneg.
    + rewrite HP, !zlen_app. pose proof (zlen_nonneg rest). lia.
    + rewrite Hn. by rewrite Z.add_0_r.
    + rewrite HP. symmetry. apply slice_app_mid; lia.
  - rewrite zlen_app. lia.
  - apply Forall_app. split; [done|]. by apply Forall_cons.
Qed.

Lemma send_fin iss W c st :
  send_inv iss W c -> c_state c = stateEstablished \/ c_state c = stateCloseWait ->
  fin_state st -> c_sndBuf c = [] ->
  send_inv iss W (sendLocked TCPFin [] (set_state st c)).
Proof.
  intros [(P & HP & Hn) H2 H3 H4 H5 H6] Hst Hf Hb. rewrite sendLocked_eq.
  assert (Hfs : c_finSent c = false).
  { destruct (c_finSent c); [|done]. destruct (H3 eq_refl) as [_ [E|[E|E]]];
      destruct Hst; congruence. }
  assert (Hil : in_state stateListen c = false) by (unfold in_state; by destruct Hst as [-> | ->]).
  rewrite Hb, app_nil_r in HP. subst P. rewrite Hil, Hfs in Hn. cbn [negb bit] in Hn.
  assert (Hst' : st ≠ stateListen) by (destruct Hf as [-> |[-> | ->]]; done).
  split; cbn -[u32 zlen]; rewrite ?Hfs, ?app_nil_r; try done.
  - exists W. rewrite Hb, app_nil_r. split; [done|].
    unfold in_state. cbn [c_state]. rewrite bool_decide_false by done. cbn [negb bit].
    rewrite Hn. change (flag_size TCPFin) with 1. change (zlen []) with 0. unfold u32.
    rewrite !Z.add_0_r, Zplus_mod_idemp_l. done.
  - apply Forall_app. split.
    + eapply Forall_impl; [exact H2|]. intros s Hs. rewrite <- (app_nil_r W).
      apply (seg_ok_mono _ _ _ (c_finSent c)); done.
    + apply Forall_cons. split; [|done]. apply ok_fin; cbn -[u32 zlen has_flag seg_Flags]; try done.
      * by rewrite seg_of_flag.
      * by rewrite seg_of_flag.
      * rewrite Hn. by rewrite Z.add_0_r.
  - apply Forall_app. split; [done|]. by apply Forall_cons.
Qed.

(** *** Flushing and closing *)

(** What the sending helpers keep, and the state they may move to. *)
Record tx_only (c c' : TCPConn) : Prop := mkTxOnly {
  tx_rcvNXT : c_rcvNXT c' = c_rcvNXT c;
  tx_rcvBuf : c_rcvBuf c' = c_rcvBuf c;
  tx_state : c_state c' = c_state c
    \/ (c_state c = stateEstablished /\ c_state c' = stateFinWait)
    \/ (c_state c = stateCloseWait /\ c_state c' = stateLastAck);
}.

Lemma tx_refl c : tx_only c c.
Proof. split; auto. Qed.

Lemma tx_trans c1 c2 c3 : tx_only c1 c2 -> tx_only c2 c3 -> tx_only c1 c3.
Proof.
  intros [A1 A2 A4] [B1 B2 B4]. split; try congruence.
  destruct A4 as [A4|[[A4 A5]|[A4 A5]]], B4 as [B4|[[B4 B5]|[B4 B5]]]; try congruence;
    rewrite ?A4, ?A5 in *; try congruence; auto.
Qed.

Lemma tx_send flags p c : tx_only c (sendLocked flags p c).
Proof. rewrite sendLocked_eq. split; auto. Qed.

Lemma flush_state n c : c_state (flush_loop n c) = c_state c.
Proof.
  revert c. induction n as [|n IH]; intros c; cbn [flush_loop]; [done|].
  destruct (_ && _); [|done]. rewrite IH, sendLocked_eq. done.
Qed.

Lemma flush_tx n c : tx_only c (flush_loop n c).
Proof.
  revert c. induction n as [|n IH]; intros c; cbn [flush_loop]; [apply tx_refl|].
  destruct (_ && _); [|apply tx_refl]. eapply tx_trans; [|apply IH].
  eapply tx_trans; [|apply tx_send]. split; auto.
Qed.

Lemma flush_inv iss W n c : send_inv iss W c -> send_inv iss W (flush_loop n c).
Proof.
  revert c. induction n as [|n IH]; intros c Hi; cbn [flush_loop]; [done|].
  destruct (in_state stateEstablished c && (0 <? zlen (c_sndBuf c))
    && (zlen (c_inFlight c) <? tcpWindowCap)) eqn:E; [|done].
  rewrite !andb_true_iff, in_state_spec, !Z.ltb_lt in E. destruct E as [[Hst Hb] Hw].
  cbv zeta. set (n1 := if _ <? Z.min _ _ then _ else _).
  assert (0 <= n1 <= zlen (c_sndBuf c) /\ n1 <= tcpMaxSeg
          /\ n1 <= tcpWindowCap - zlen (c_inFlight c)) as (H1 & H2 & H3).
  { unfold n1, tcpMaxSeg. case (Z.ltb_spec (tcpWindowCap - zlen (c_inFlight c))
      (Z.min 512 (zlen (c_sndBuf c)))); lia. }
  assert (Hz : zlen (slice (c_sndBuf c) 0 n1) = n1) by (rewrite zlen_slice; lia).
  apply IH, send_data; try done; [|lia|lia].
  unfold slice. rewrite Z.sub_0_r. change (Z.to_nat 0) with 0%nat. rewrite drop_0.
  by rewrite take_drop.
Qed.

(** The loop of [flushLocked] has run to its end: the bytes queued are enough
    rounds. *)
Lemma flush_done c :
  let c' := flushLocked c in
  c_state c' = stateEstablished -> c_sndBuf c' = [] \/ tcpWindowCap <= zlen (c_inFlight c').
Proof.
  unfold flushLocked. cbv zeta.
  assert (H : forall n c, (length (c_sndBuf c) <= n)%nat ->
    let c' := flush_loop n c in
    c_state c' = stateEstablished -> c_sndBuf c' = [] \/ tcpWindowCap <= zlen (c_inFlight c')).
  2:{ by apply H. }
  clear c. induction n as [|n IH]; intros c Hn; cbn [flush_loop].
  { intros _. left. apply length_zero_iff_nil. lia. }
  destruct (in_state stateEstablished c && (0 <? zlen (c_sndBuf c))
    && (zlen (c_inFlight c) <? tcpWindowCap)) eqn:E.
  - rewrite !andb_true_iff, in_state_spec, !Z.ltb_lt in E. destruct E as [[Hst Hb] Hw].
    apply IH. rewrite sendLocked_eq. cbn [c_sndBuf set_sndBuf]. rewrite length_drop.
    set (n1 := if _ <? Z.min _ _ then _ else _).
    assert (0 < n1). { unfold n1, tcpMaxSeg. case (Z.ltb_spec (tcpWindowCap - zlen (c_inFlight c))
      (Z.min 512 (zlen (c_sndBuf c)))); lia. }
    unfold zlen in *. lia.
  - intros Hst. rewrite !andb_false_iff in E. destruct E as [[E|E]|E].
    + by rewrite (proj2 (in_state_spec _ _) Hst) in E.
    + left. apply Z.ltb_ge in E. apply length_zero_iff_nil. unfold zlen in E. lia.
    + right. by apply Z.ltb_ge.
Qed.

Lemma zlen_pos_false {A} (l : list A) : (0 <? zlen l) = false -> l = [].
Proof. intros H%Z.ltb_ge. apply length_zero_iff_nil. unfold zlen in H. lia. Qed.

Lemma tryfin_inv iss W c :
  send_inv iss W c -> send_inv iss W (trySendFinLocked c) /\ tx_only c (trySendFinLocked c).
Proof.
  intros Hi. unfold trySendFinLocked.
  destruct (negb (c_finPending c) || (0 <? zlen (c_sndBuf c)) || (0 <? zlen (c_inFlight c))) eqn:E;
    [split; [done|apply tx_refl]|].
  rewrite !orb_false_iff in E. destruct E as [[_ Eb%zlen_pos_false] _].
  destruct (c_state c) eqn:Est; try (split; [done|apply tx_refl]).
  - split; [apply send_fin; try done; [by left|by left]|].
    rewrite sendLocked_eq. split; cbn; auto.
  - split; [apply send_fin; try done; [by right|right; by left]|].
    rewrite sendLocked_eq. split; cbn; auto.
Qed.

Lemma tryfin_tx c : tx_only c (trySendFinLocked c).
Proof.
  unfold trySendFinLocked. destruct (_ || _); [apply tx_refl|].
  destruct (c_state c) eqn:Est; try apply tx_refl; rewrite sendLocked_eq; split; cbn; auto.
Qed.

Lemma handle_ack_inv iss W seg c :
  send_inv iss W c -> send_inv iss W (handle_ack seg c) /\ tx_only c (handle_ack seg c).
Proof.
  intros Hi. unfold handle_ack.
  destruct (has_flag (seg_Flags seg) TCPAck && _ && _ && _); [|split; [done|apply tx_refl]].
  cbv zeta. destruct (0 <? _); [|split; [done|apply tx_refl]].
  set (c1 := if zlen (c_inFlight c) <=? _ then _ else _).
  assert (send_inv iss W (set_sndUNA (seg_Ack seg) c1)
                /\ tx_only c (set_sndUNA (seg_Ack seg) c1)) as [Hi1 Ht1].
  { unfold c1. destruct (_ <=? _); (split; [|split; auto]);
      apply (send_inv_same _ _ c); try done; cbn; [apply zlen_nonneg|].
    unfold zlen. rewrite length_drop. lia. }
  set (c2 := if in_state _ _ then _ else _).
  assert (send_inv iss W c2 /\ tx_only (set_sndUNA (seg_Ack seg) c1) c2) as [Hi2 Ht2].
  { unfold c2. destruct (in_state _ _); [|split; [done|apply tx_refl]].
    split; [by apply flush_inv|apply flush_tx]. }
  destruct (tryfin_inv iss W c2 Hi2) as [Hi3 Ht3]. split; [done|].
  eapply tx_trans; [exact Ht1|]. eapply tx_trans; eauto.
Qed.

(** *** The inbound handler keeps the sender's invariant *)

Lemma send_syn_ack iss W c v :
  send_inv iss W c -> c_state c = stateListen ->
  send_inv iss W (sendLocked (Z.lor TCPSyn TCPAck) [] (set_state stateSynRcvd (set_rcvNXT v c))).
Proof.
  intros [(P & HP & Hn) H2 H3 H4 H5 H6] Hst. rewrite sendLocked_eq.
  destruct (H4 Hst) as [HW Hfs]. rewrite HW in HP. symmetry in HP.
  apply app_nil in HP as [-> Hb].
  assert (Hil : in_state stateListen c = true) by by apply in_state_spec.
  rewrite Hil, Hfs in Hn. cbn [negb bit] in Hn. change (zlen []) with 0 in Hn.
  rewrite !Z.add_0_r in Hn.
  split; cbn -[u32 zlen]; rewrite ?Hfs, ?app_nil_r; try done.
  - exists []. rewrite Hb. split; [done|]. cbn [bit negb]. change (in_state stateListen _) with false.
    rewrite Hn. change (flag_size _) with 1. change (zlen []) with 0. cbn [negb bit].
    rewrite !Z.add_0_r. unfold u32. by rewrite Zplus_mod_idemp_l.
  - apply Forall_app. split; [by rewrite Hfs in H2|]. apply Forall_cons. split; [|done].
    apply ok_syn; cbn -[u32 zlen has_flag seg_Flags]; try done.
  - apply Forall_app. split; [done|]. by apply Forall_cons.
Qed.

Lemma not_fin iss W c :
  send_inv iss W c -> ~ fin_state (c_state c) -> c_finSent c = false.
Proof. intros [_ _ H _ _ _] Hn. destruct (c_finSent c); [|done]. by destruct (H eq_refl). Qed.

Ltac not_fin_state := intros [|[|]]; congruence.

Lemma deliver_payload_inv iss W seg c :
  send_inv iss W c -> send_inv iss W (deliver_payload seg c) /\ c_state (deliver_payload seg c) = c_state c.
Proof.
  intros Hi. unfold deliver_payload. destruct (_ && _); [|done]. split.
  - apply send_ack. by apply (send_inv_same _ _ c).
  - by rewrite sendLocked_eq.
Qed.

Lemma accept_fin_inv iss W c :
  send_inv iss W c -> send_inv iss W (accept_fin c) /\ c_state (accept_fin c) = c_state c.
Proof.
  intros Hi. unfold accept_fin. split; [|by rewrite sendLocked_eq].
  apply send_ack. by apply (send_inv_same _ _ c).
Qed.

Lemma send_inv_closed iss W c e :
  send_inv iss W c -> c_state c ≠ stateListen -> send_inv iss W (set_err e (set_state stateClosed c)).
Proof.
  intros Hi Hl. apply (send_inv_same _ _ (set_state stateClosed c)); try done.
  apply send_inv_state; try done. intros _. right. by right.
Qed.

Lemma handle_state_send iss W seg c :
  send_inv iss W c -> send_inv iss W (handle_state seg c).
Proof.
  intros Hi. unfold handle_state. destruct (c_state c) eqn:Est; try done.
  - destruct (_ && _); [|done]. by apply send_syn_ack.
  - destruct (_ && _); [|done]. apply flush_inv, send_ack.
    apply send_inv_state; cbn; [|congruence|done|].
    + apply (send_inv_same _ _ c); try done. apply zlen_nonneg.
    + intros Hf. rewrite (not_fin _ _ _ Hi) in Hf; [done|]. rewrite Est. not_fin_state.
  - destruct (has_flag _ _); [|done].
    assert (send_inv iss W (set_state stateEstablished c)) as H1.
    { apply send_inv_state; try done; [congruence|]. intros Hf.
      rewrite (not_fin _ _ _ Hi) in Hf; [done|]. rewrite Est. not_fin_state. }
    destruct (c_lq _); [|done]. destruct (_ <? _); [|done].
    by apply (send_inv_same _ _ (set_state stateEstablished c)).
  - destruct (deliver_payload_inv iss W seg c Hi) as [Hi1 Es1]. rewrite Est in Es1.
    destruct (fin_in_order _ _); [|done].
    destruct (accept_fin_inv iss W _ Hi1) as [Hi2 Es2]. rewrite Es1 in Es2.
    apply (send_inv_same _ _ (set_state stateCloseWait (accept_fin (deliver_payload seg c)))); try done.
    apply send_inv_state; [done|congruence|done|].
    intros Hf. rewrite (not_fin _ _ _ Hi2) in Hf; [done|]. rewrite Es2. not_fin_state.
  - destruct (deliver_payload_inv iss W seg c Hi) as [Hi1 Es1]. rewrite Est in Es1.
    set (c2 := if fin_in_order _ _ then _ else _).
    assert (send_inv iss W c2 /\ c_state c2 = stateFinWait) as [Hi2 Es2].
    { unfold c2. destruct (fin_in_order _ _); [|done].
      destruct (accept_fin_inv iss W _ Hi1) as [Hi2 Es2]. split; [done|congruence]. }
    set (c3 := if has_flag _ _ then set_finAckedTheirFin true c2 else c2).
    assert (send_inv iss W c3 /\ c_state c3 = stateFinWait) as [Hi3 Es3].
    { unfold c3. destruct (has_flag _ _); [|done]. split; [|done]. by apply (send_inv_same _ _ c2). }
    destruct (_ && _); [|done]. apply send_inv_closed; [done|congruence].
  - destruct (_ && _ && _); [|done]. apply send_inv_closed; [done|congruence].
Qed.

Lemma handle_send iss W seg c : send_inv iss W c -> send_inv iss W (handle seg c).
Proof.
  intros Hi. unfold handle.
  destruct (has_flag (seg_Flags seg) TCPRst && negb (in_state stateClosed c)
    && negb (in_state stateListen c)) eqn:E.
  - apply send_inv_closed; [done|]. rewrite !andb_true_iff, !negb_true_iff in E.
    intros Hl%in_state_spec. destruct E. congruence.
  - destruct (handle_ack_inv iss W seg c Hi) as [Hi1 _].
    apply (handle_state_send _ _ seg) in Hi1.
    cbv zeta. destruct (in_state stateEstablished (handle_state seg (handle_ack seg c))); [|done]. by apply deliver_payload_inv.
Qed.

Lemma write_send iss W c d :
  send_inv iss W c -> c_state c = stateEstablished ->
  send_inv iss (W ++ d) (flushLocked (set_sndBuf (c_sndBuf c ++ d) c)).
Proof.
  intros Hi Est. apply flush_inv.
  assert (Hf : c_finSent c = false) by (apply (not_fin _ _ _ Hi); rewrite Est; not_fin_state).
  destruct Hi as [(P & HP & Hn) H2 H3 H4 H5 H6]. split; cbn; try done.
  - exists P. rewrite HP, <- app_assoc. done.
  - eapply Forall_impl; [exact H2|]. intros s Hs. apply (seg_ok_mono _ _ _ _ _ _ Hs); congruence.
  - congruence.
  - congruence.
Qed.

Lemma close_send iss W c : send_inv iss W c -> send_inv iss W (snd (TCP_Close c)).
Proof.
  intros Hi. unfold TCP_Close. destruct (c_state c) eqn:Est; try done; cbn [snd].
  - apply tryfin_inv. apply (send_inv_same _ _ (flushLocked c)); try done. by apply flush_inv.
  - apply tryfin_inv. by apply (send_inv_same _ _ c).
Qed.

(** ** The receiver

    [W] is the peer's stream, [pfin] whether the peer has sent its FIN, [got]
    the bytes already handed to the application. *)

Definition recv_inv (iss : Z) (W : list byte) (pfin : bool) (got : list byte) (c : TCPConn) : Prop :=
  let D := got ++ c_rcvBuf c in
  match c_state c with
  | stateListen | stateSynSent => D = []
  | stateSynRcvd => D = [] /\ c_rcvNXT c = u32 (iss + 1)
  | stateEstablished => D `prefix_of` W /\ c_rcvNXT c = u32 (iss + 1 + zlen D)
  | stateFinWait =>
      D `prefix_of` W
      /\ (c_rcvNXT c = u32 (iss + 1 + zlen D)
          \/ (pfin = true /\ D = W /\ c_rcvNXT c = u32 (iss + 2 + zlen D)))
  | _ => D `prefix_of` W
  end.

Lemma recv_prefix iss W pfin got c :
  recv_inv iss W pfin got c -> (got ++ c_rcvBuf c) `prefix_of` W.
Proof.
  unfold recv_inv. destruct (c_state c); try done; try (intros ->; apply prefix_nil);
    try (intros [-> _]; apply prefix_nil); by intros [? _].
Qed.

Lemma recv_tx iss W pfin got c c' :
  tx_only c c' -> recv_inv iss W pfin got c -> recv_inv iss W pfin got c'.
Proof.
  intros [Hn Hb Hs] Hr. unfold recv_inv in *. rewrite Hn, Hb.
  destruct Hs as [Hs|[[Hs Hs']|[Hs Hs']]]; rewrite ?Hs, ?Hs' in *; try done.
  destruct Hr as [H1 H2]. auto.
Qed.

Lemma recv_grow iss W V pfin pfin' got c :
  recv_inv iss W pfin got c -> (pfin = true -> V = []) -> (pfin = true -> pfin' = true) ->
  recv_inv iss (W ++ V) pfin' got c.
Proof.
  intros Hr HV Hm. pose proof (recv_prefix _ _ _ _ _ Hr) as Hp.
  apply (prefix_app_r _ _ V) in Hp. unfold recv_inv in *.
  destruct (c_state c); try done; destruct Hr as [H1 H2]; try done.
  split; [done|]. destruct H2 as [H2|(Hf & HD & H2)]; [by left|right].
  rewrite (HV Hf), app_nil_r. auto.
Qed.

Lemma u32_inj a x y :
  0 <= x < 2 ^ 32 -> 0 <= y < 2 ^ 32 -> u32 (a + x) = u32 (a + y) -> x = y.
Proof.
  intros Hx Hy H. unfold u32 in H.
  assert ((x - y) mod 2 ^ 32 = 0) as Hd.
  { replace (x - y) with ((a + x) - (a + y)) by lia. by rewrite Zminus_mod, H, Z.sub_diag. }
  apply Z.mod_divide in Hd as [k Hk]; [|lia]. lia.
Qed.

Lemma prefix_zlen {A} (l k : list A) : l `prefix_of` k -> zlen l <= zlen k.
Proof. intros H%prefix_length. unfold zlen. lia. Qed.

Lemma prefix_full {A} (l k : list A) : l `prefix_of` k -> zlen l = zlen k -> l = k.
Proof.
  intros [q ->] H. rewrite zlen_app in H. destruct q; [by rewrite app_nil_r|].
  rewrite zlen_cons in H. pose proof (zlen_nonneg q). lia.
Qed.

Lemma prefix_slice {A} (D W : list A) n :
  D `prefix_of` W -> 0 <= n -> zlen D + n <= zlen W ->
  (D ++ slice W (zlen D) (zlen D + n)) `prefix_of` W.
Proof.
  intros [q ->] Hn Hl. rewrite zlen_app in Hl. apply prefix_app.
  exists (drop (Z.to_nat n) q). unfold slice, zlen in *.
  rewrite Nat2Z.id, drop_app_length. replace (Z.to_nat _) with (Z.to_nat n) by lia.
  by rewrite take_drop.
Qed.

(** A segment with data at the expected place continues the stream; a FIN at
    the expected place means the stream is complete. *)
Lemma deliver_recv iss W fin seg got c :
  zlen W < 2 ^ 32 - 2 -> seg_ok iss W fin seg ->
  (got ++ c_rcvBuf c) `prefix_of` W -> c_rcvNXT c = u32 (iss + 1 + zlen (got ++ c_rcvBuf c)) ->
  let c' := deliver_payload seg c in
  (got ++ c_rcvBuf c') `prefix_of` W /\ c_rcvNXT c' = u32 (iss + 1 + zlen (got ++ c_rcvBuf c'))
  /\ c_state c' = c_state c
  /\ (fin_in_order seg c' = true -> fin = true /\ got ++ c_rcvBuf c' = W).
Proof.
  intros HW Hok Hp Hn. cbv zeta. set (D := got ++ c_rcvBuf c) in *.
  pose proof (prefix_zlen _ _ Hp) as HD. pose proof (zlen_nonneg D) as HD0.
  unfold deliver_payload.
  destruct ((0 <? zlen (seg_Payload seg)) && (seg_Seq seg =? c_rcvNXT c)) eqn:E.
  - rewrite andb_true_iff, Z.ltb_lt, Z.eqb_eq in E. destruct E as [E1 E2].
    destruct Hok as [off (Hs & Hf & Hr) H0 Hl Hseq Hd|? He|? ? ? He|? ? He];
      [|rewrite He in E1; change (zlen []) with 0 in E1; lia..].
    rewrite Hseq, Hn in E2.
    assert (off = zlen D) as -> by (apply (u32_inj (iss + 1)); [lia|lia|exact E2]).
    rewrite sendLocked_eq. cbn -[u32 zlen]. rewrite app_assoc. fold D.
    split; [rewrite Hd; apply prefix_slice; [done|lia|lia]|].
    split; [|split; [done|]].
    + rewrite Hn, zlen_app. unfold u32. rewrite Zplus_mod_idemp_l. f_equal. lia.
    + unfold fin_in_order. by rewrite Hf.
  - split; [done|]. split; [done|]. split; [done|].
    unfold fin_in_order. rewrite andb_true_iff, Z.eqb_eq. intros [Ef Es].
    destruct Hok as [off (Hs & Hf & Hr) H0 Hl Hseq Hd|(_ & Hf & _)|Hs Hf|Hs Hr He Hfin Hseq];
      try congruence.
    rewrite He, Hseq in Es. change (zlen []) with 0 in Es.
    rewrite Z.add_0_r, Hn in Es. unfold u32 at 1 in Es. unfold u32 at 1 in Es.
    rewrite Z.mod_mod in Es by lia. fold (u32 (iss + 1 + zlen W)) in Es.
    split; [done|]. apply prefix_full; [done|]. symmetry. fold D.
    apply (u32_inj (iss + 1)); [pose proof (zlen_nonneg W); lia|lia|exact Es].
Qed.

(** Past the peer's FIN nothing the peer sent is in order any more. *)
Lemma past_fin iss W fin seg c :
  zlen W < 2 ^ 32 - 2 -> seg_ok iss W fin seg -> c_rcvNXT c = u32 (iss + 2 + zlen W) ->
  deliver_payload seg c = c /\ fin_in_order seg c = false.
Proof.
  intros HW Hok Hn. pose proof (zlen_nonneg W).
  replace (iss + 2 + zlen W) with (iss + 1 + (zlen W + 1)) in Hn by lia. split.
  - unfold deliver_payload.
    destruct ((0 <? zlen (seg_Payload seg)) && (seg_Seq seg =? c_rcvNXT c)) eqn:E; [|done].
    rewrite andb_true_iff, Z.ltb_lt, Z.eqb_eq in E. destruct E as [E1 E2].
    destruct Hok as [off (Hs & Hf & Hr) H0 Hl Hseq Hd|? He|? ? ? He|? ? He];
      [|rewrite He in E1; change (zlen []) with 0 in E1; lia..].
    rewrite Hseq, Hn in E2. apply u32_inj in E2; lia.
  - apply not_true_is_false. unfold fin_in_order. rewrite andb_true_iff, Z.eqb_eq. intros [Ef Es].
    destruct Hok as [off (Hs & Hf & Hr) H0 Hl Hseq Hd|(_ & Hf & _)|Hs Hf|Hs Hr He Hfin Hseq];
      try congruence.
    rewrite He, Hseq in Es. change (zlen []) with 0 in Es. rewrite Z.add_0_r, Hn in Es.
    assert (u32 (u32 (iss + 1 + zlen W)) = u32 (iss + 1 + zlen W)) as Eu by (apply Z.mod_mod; lia).
    rewrite Eu in Es. apply u32_inj in Es; lia.
Qed.

Lemma recv_ack iss W pfin got c :
  recv_inv iss W pfin got c -> recv_inv iss W pfin got (sendLocked TCPAck [] c).
Proof. apply recv_tx, tx_send. Qed.

Lemma handle_state_finwait iss W pfin seg got c :
  zlen W < 2 ^ 32 - 2 -> seg_ok iss W pfin seg -> c_state c = stateFinWait ->
  recv_inv iss W pfin got c -> recv_inv iss W pfin got (handle_state seg c).
Proof.
  intros HW Hok Est Hr. unfold handle_state. rewrite Est. cbv zeta.
  set (c1 := deliver_payload seg c). set (c2 := if fin_in_order seg c1 then _ else c1).
  assert (c_state c2 = stateFinWait /\ recv_inv iss W pfin got c2) as [Es2 Hr2].
  { pose proof Hr as Hr0. unfold recv_inv in Hr. rewrite Est in Hr.
    destruct Hr as [Hp [Hn|(Hf & HD & Hn)]].
    - destruct (deliver_recv iss W pfin seg got c HW Hok Hp Hn) as (Hp1 & Hn1 & Hs1 & Hf1).
      fold c1 in Hp1, Hn1, Hs1, Hf1. unfold c2. destruct (fin_in_order seg c1) eqn:Ef.
      + destruct (Hf1 eq_refl) as [Hpf HD]. unfold accept_fin. rewrite sendLocked_eq. cbn.
        split; [congruence|]. unfold recv_inv. cbn -[u32 zlen]. rewrite Hs1, Est.
        split; [done|]. right. repeat split; try done. rewrite Hn1. unfold u32.
        rewrite Zplus_mod_idemp_l. f_equal. lia.
      + split; [congruence|]. unfold recv_inv. rewrite Hs1, Est. auto.
    - rewrite HD in Hn. destruct (past_fin iss W pfin seg c HW Hok Hn) as [E1 E2].
      unfold c2, c1. rewrite E1, E2. done. }
  set (c3 := if has_flag _ _ then set_finAckedTheirFin true c2 else c2).
  assert (c_state c3 = stateFinWait /\ recv_inv iss W pfin got c3) as [Es3 Hr3]
    by (unfold c3; by destruct (has_flag _ _)).
  destruct (_ && _); [|done]. apply (recv_prefix _ _ _ _ c3 Hr3).
Qed.

Lemma handle_state_recv iss W pfin seg got c :
  zlen W < 2 ^ 32 - 2 -> seg_ok iss W pfin seg ->
  recv_inv iss W pfin got c -> recv_inv iss W pfin got (handle_state seg c).
Proof.
  intros HW Hok Hr.
  destruct (decide (c_state c = stateFinWait)) as [Ef|Ef]; [by apply handle_state_finwait|].
  pose proof (recv_prefix _ _ _ _ _ Hr) as Hp. pose proof Hr as Hr0. unfold recv_inv in Hr.
  assert (Hsyn : has_flag (seg_Flags seg) TCPSyn = true -> u32 (seg_Seq seg + 1) = u32 (iss + 1)).
  { intros Hs. destruct Hok as [? (Hs' & _)|(Hs' & _)|? ? ? ? Hseq|Hs']; try congruence.
    rewrite Hseq. unfold u32. by rewrite Zplus_mod_idemp_l. }
  unfold handle_state. destruct (c_state c) eqn:Est; try done; cbv zeta in Hr.
  - destruct (has_flag (seg_Flags seg) TCPSyn) eqn:Es; [|done].
    destruct (has_flag (seg_Flags seg) TCPAck); [done|]. cbn [andb negb].
    rewrite sendLocked_eq. unfold recv_inv. cbn -[u32]. by rewrite Hsyn.
  - destruct (has_flag (seg_Flags seg) TCPSyn) eqn:Es; [|done].
    destruct (has_flag (seg_Flags seg) TCPAck); [|done]. cbn [andb]. cbv zeta.
    eapply recv_tx; [apply flush_tx|]. apply recv_ack. unfold recv_inv. cbn -[u32 zlen].
    rewrite Hr, Hsyn by done. change (zlen []) with 0. rewrite Z.add_0_r. split; [apply prefix_nil|done].
  - destruct (has_flag (seg_Flags seg) TCPAck); [|done]. destruct Hr as [HD Hn].
    assert (recv_inv iss W pfin got (set_state stateEstablished c)) as H1.
    { unfold recv_inv. cbn -[u32 zlen]. rewrite HD, Hn. change (zlen []) with 0.
      rewrite Z.add_0_r. split; [apply prefix_nil|done]. }
    cbn [c_lq set_state]. destruct (c_lq c); [|done]. by destruct (_ <? _).
  - destruct Hr as [_ Hn].
    destruct (deliver_recv iss W pfin seg got c HW Hok Hp Hn) as (Hp1 & Hn1 & Hs1 & Hf1).
    destruct (fin_in_order _ _); [|unfold recv_inv; by rewrite Hs1, Est].
    unfold accept_fin. rewrite sendLocked_eq. done.
  - by destruct (_ && _ && _).
Qed.

Lemma handle_recv iss W pfin myiss myW seg got c :
  zlen W < 2 ^ 32 - 2 -> seg_ok iss W pfin seg -> send_inv myiss myW c ->
  recv_inv iss W pfin got c -> recv_inv iss W pfin got (handle seg c).
Proof.
  intros HW Hok Hi Hr. unfold handle.
  destruct (_ && _ && _) eqn:E; [apply (recv_prefix _ _ _ _ _ Hr)|]. cbv zeta.
  destruct (handle_ack_inv _ _ seg c Hi) as [_ Ht]. apply (recv_tx _ _ _ _ _ _ Ht) in Hr.
  apply (handle_state_recv _ _ _ seg) in Hr; try done.
  destruct (in_state stateEstablished (handle_state seg (handle_ack seg c))) eqn:Es; [|done].
  apply in_state_spec in Es. unfold recv_inv in Hr. rewrite Es in Hr. destruct Hr as [Hp Hn].
  destruct (deliver_recv iss W pfin seg got _ HW Hok Hp Hn) as (Hp1 & Hn1 & Hs1 & _).
  unfold recv_inv. rewrite Hs1, Es. done.
Qed.

(** ** Two endpoints and a network

    An endpoint is a connection with the bytes its application has written
    and read.  A step of an endpoint is a call of the application or the
    arrival of any segment the peer has ever sent, as the wire format
    carries it: segments may be lost, duplicated and reordered. *)

Record endpoint := mkEndpoint { e_conn : TCPConn; e_written : list byte; e_read : list byte }.

Inductive estep (peer : endpoint) : endpoint -> endpoint -> Prop :=
| e_write c w r d n c' :
    TCP_Write d c = (Ok n, c') -> estep peer (mkEndpoint c w r) (mkEndpoint c' (w ++ d) r)
| e_write_refused c w r d e c' :
    TCP_Write d c = (Err e, c') -> estep peer (mkEndpoint c w r) (mkEndpoint c' w r)
| e_close c w r o c' :
    TCP_Close c = (o, c') -> estep peer (mkEndpoint c w r) (mkEndpoint c' w r)
| e_recv c w r n out c' :
    TCP_Recv n c = (out, c') -> estep peer (mkEndpoint c w r) (mkEndpoint c' w (r ++ out))
| e_segment c w r s s' :
    s ∈ c_sent (e_conn peer) -> ParseTCP (TCP_Build s) = Ok s' ->
    estep peer (mkEndpoint c w r) (mkEndpoint (handle s' c) w r).

Inductive pstep : endpoint * endpoint -> endpoint * endpoint -> Prop :=
| p_left a a' b : estep b a a' -> pstep (a, b) (a', b)
| p_right a b b' : estep a b b' -> pstep (a, b) (a, b').

(** The start: one side has dialled, the other listens. *)
Definition dialled (lip rip : IP4) (lport rport : Z) : endpoint :=
  mkEndpoint (sendLocked TCPSyn [] (newConn lip lport rip rport stateSynSent 1000 None)) [] [].
Definition listening (lip rip : IP4) (lport rport : Z) : endpoint :=
  mkEndpoint (newConn lip lport rip rport stateListen 0 (Some 0)) [] [].

Record pair_inv (ia ib : Z) (a b : endpoint) : Prop := mkPairInv {
  pi_send_a : send_inv ia (e_written a) (e_conn a);
  pi_send_b : send_inv ib (e_written b) (e_conn b);
  pi_recv_a : recv_inv ib (e_written b) (c_finSent (e_conn b)) (e_read a) (e_conn a);
  pi_recv_b : recv_inv ia (e_written a) (c_finSent (e_conn a)) (e_read b) (e_conn b);
}.

Lemma pair_inv_sym ia ib a b : pair_inv ia ib a b -> pair_inv ib ia b a.
Proof. by intros []. Qed.

(** The FIN, once sent, stays sent. *)
Lemma finSent_send flags p c : c_finSent c = true -> c_finSent (sendLocked flags p c) = true.
Proof. intros H. rewrite sendLocked_eq. cbn. by rewrite H, orb_true_r. Qed.

Lemma finSent_flush n c : c_finSent c = true -> c_finSent (flush_loop n c) = true.
Proof.
  revert c. induction n as [|n IH]; intros c H; cbn [flush_loop]; [done|].
  destruct (_ && _); [|done]. by apply IH, finSent_send.
Qed.

Lemma finSent_tryfin c : c_finSent c = true -> c_finSent (trySendFinLocked c) = true.
Proof.
  intros H. unfold trySendFinLocked. destruct (_ || _); [done|].
  destruct (c_state c); try done; by apply finSent_send.
Qed.

Lemma finSent_ack seg c : c_finSent c = true -> c_finSent (handle_ack seg c) = true.
Proof.
  intros H. unfold handle_ack. destruct (has_flag (seg_Flags seg) TCPAck && _ && _ && _); [|done].
  cbv zeta. destruct (0 <? _); [|done]. apply finSent_tryfin.
  destruct (zlen (c_inFlight c) <=? _), (in_state _ _); try done; by apply finSent_flush.
Qed.

Lemma finSent_deliver seg c : c_finSent c = true -> c_finSent (deliver_payload seg c) = true.
Proof. intros H. unfold deliver_payload. destruct (_ && _); [|done]. by apply finSent_send. Qed.

Lemma finSent_accept c : c_finSent c = true -> c_finSent (accept_fin c) = true.
Proof. intros H. unfold accept_fin. apply finSent_send. exact H. Qed.

Lemma finSent_handle seg c : c_finSent c = true -> c_finSent (handle seg c) = true.
Proof.
  intros H. unfold handle. destruct (_ && _ && _); [done|]. cbv zeta.
  apply (finSent_ack seg) in H. revert H. generalize (handle_ack seg c). clear c. intros c H.
  assert (c_finSent (handle_state seg c) = true) as H1.
  { unfold handle_state. destruct (c_state c); try done.
    - destruct (_ && _); [|done]. by apply finSent_send.
    - destruct (_ && _); [|done]. apply finSent_flush. by apply finSent_send.
    - destruct (has_flag _ _); [|done]. cbn [c_lq set_state]. destruct (c_lq c); [|done].
      by destruct (_ <? _).
    - apply (finSent_deliver seg) in H. destruct (fin_in_order _ _); [|done].
      by apply finSent_accept.
    - apply (finSent_deliver seg) in H.
      assert (c_finSent (if fin_in_order seg (deliver_payload seg c)
        then accept_fin (deliver_payload seg c) else deliver_payload seg c) = true) as H2.
      { destruct (fin_in_order _ _); [|done]. by apply finSent_accept. }
      cbv zeta. destruct (has_flag _ _), (_ && _); done.
    - by destruct (_ && _ && _). }
  destruct (in_state _ _); [|done]. by apply finSent_deliver.
Qed.

(** Parsing the wire form of a segment keeps what the invariant says of it. *)
Lemma has_flag_low f g : 0 <= g -> Z.land g 0x1f = g -> has_flag (Z.land f 0x1f) g = has_flag f g.
Proof.
  intros H0 Hg. unfold has_flag. do 2 f_equal.
  by rewrite <- Z.land_assoc, (Z.land_comm 0x1f), Hg.
Qed.

Lemma seg_ok_wire iss W fin s s' :
  seg_ok iss W fin s -> ParseTCP (TCP_Build s) = Ok s' -> seg_ok iss W fin s'.
Proof.
  intros Hok Hp. rewrite TCP_Build_eq in Hp. rewrite ParseTCP_front in Hp. injection Hp as <-.
  assert (Hu : forall x, u32 (u32 x) = u32 x) by (intros; apply Z.mod_mod; lia).
  assert (Hpl : plain (seg_Flags s) -> plain (seg_Flags (tcp_norm s))).
  { intros (H1 & H2 & H3). unfold plain. cbn [tcp_norm seg_Flags]. by rewrite !has_flag_low. }
  destruct Hok as [off Hs H0 Hl Hseq Hd|Hs He|Hs Hf Hr He Hseq|Hs Hr He Hfin Hseq].
  - apply (ok_data _ _ _ _ off); cbn; try done; [by apply Hpl|]. by rewrite Hseq, Hu.
  - apply ok_empty; [by apply Hpl|done].
  - apply ok_syn; cbn [tcp_norm seg_Flags seg_Seq seg_Payload]; rewrite ?has_flag_low; try done.
    by rewrite Hseq, Hu.
  - apply ok_fin; cbn [tcp_norm seg_Flags seg_Seq seg_Payload]; rewrite ?has_flag_low; try done.
    by rewrite Hseq, Hu.
Qed.

Lemma close_tx c : tx_only c (snd (TCP_Close c)).
Proof.
  unfold TCP_Close. destruct (c_state c) eqn:Est; try apply tx_refl; cbn [snd].
  - eapply tx_trans; [apply (flush_tx (length (c_sndBuf c)))|].
    eapply tx_trans; [|apply tryfin_tx]. split; auto.
  - eapply tx_trans; [|apply tryfin_tx]. split; auto.
Qed.

Lemma finSent_close c : c_finSent c = true -> c_finSent (snd (TCP_Close c)) = true.
Proof.
  intros H. unfold TCP_Close. destruct (c_state c); try done; cbn [snd]; apply finSent_tryfin.
  - cbn. by apply finSent_flush.
  - done.
Qed.

Lemma write_cases d c :
  TCP_Write d c = (Err ErrClosed, c)
  \/ (c_state c = stateEstablished
      /\ TCP_Write d c = (Ok (zlen d), flushLocked (set_sndBuf (c_sndBuf c ++ d) c))).
Proof.
  unfold TCP_Write. destruct (in_state stateEstablished c) eqn:E; cbn [negb orb]; [|by left].
  apply in_state_spec in E. destruct (c_finPending c); [by left|by right].
Qed.

(** A step of one endpoint keeps the invariant of the pair. *)
Lemma estep_inv ia ib a a' b :
  estep b a a' -> zlen (e_written b) < 2 ^ 32 - 2 -> pair_inv ia ib a b -> pair_inv ia ib a' b.
Proof.
  intros Hstep Hlen [Hsa Hsb Hra Hrb].
  destruct Hstep as [c w r d n c' Hw|c w r d e c' Hw|c w r o c' Hc|c w r n out c' Hc|c w r s s' Hs Hp];
    cbn [e_conn e_written e_read] in *.
  - destruct (write_cases d c) as [Hx|[Est Hx]]; rewrite Hx in Hw; [done|]. injection Hw as _ <-.
    assert (Hf : c_finSent c = false) by (apply (not_fin _ _ _ Hsa); rewrite Est; not_fin_state).
    split; cbn [e_conn e_written e_read]; [by apply write_send|done| |].
    + eapply recv_tx; [|exact Hra]. eapply tx_trans; [|apply flush_tx]. split; auto.
    + eapply recv_grow; [exact Hrb|congruence|congruence].
  - destruct (write_cases d c) as [Hx|[Est Hx]]; rewrite Hx in Hw; [|done]. injection Hw as _ <-.
    by split.
  - replace c' with (snd (TCP_Close c)) by (by rewrite Hc).
    split; cbn [e_conn e_written e_read]; [by apply close_send|done| |].
    + eapply recv_tx; [apply close_tx|done].
    + rewrite <- (app_nil_r w). eapply recv_grow; [exact Hrb|done|apply finSent_close].
  - unfold TCP_Recv in Hc. injection Hc as <- <-.
    split; cbn [e_conn e_written e_read]; [by apply (send_inv_same _ _ c)|done| |done].
    unfold recv_inv in *. cbn [c_rcvBuf c_state c_rcvNXT set_rcvBuf].
    set (k := Z.min n (zlen (c_rcvBuf c))).
    assert (E : (r ++ slice (c_rcvBuf c) 0 k) ++ drop (Z.to_nat k) (c_rcvBuf c) = r ++ c_rcvBuf c).
    { rewrite <- app_assoc. f_equal. unfold slice. rewrite Z.sub_0_r, drop_0. apply take_drop. }
    by rewrite E.
  - assert (Hok : seg_ok ib (e_written b) (c_finSent (e_conn b)) s').
    { eapply seg_ok_wire; [|exact Hp]. eapply Forall_forall; [apply (si_segs _ _ _ Hsb)|].
      exact Hs. }
    split; cbn [e_conn e_written e_read]; [by apply handle_send|done| |].
    + by eapply handle_recv.
    + rewrite <- (app_nil_r w). eapply recv_grow; [exact Hrb|done|apply finSent_handle].
Qed.

Lemma estep_written b a a' : estep b a a' -> zlen (e_written a) <= zlen (e_written a').
Proof.
  intros []; cbn; try lia. rewrite zlen_app. pose proof (zlen_nonneg d). lia.
Qed.

Definition fits (s : endpoint * endpoint) : Prop :=
  zlen (e_written (fst s)) < 2 ^ 32 - 2 /\ zlen (e_written (snd s)) < 2 ^ 32 - 2.

Lemma run_inv ia ib s s' :
  rtc pstep s s' -> fits s' -> pair_inv ia ib (fst s) (snd s) -> pair_inv ia ib (fst s') (snd s').
Proof.
  intros Hr. induction Hr as [s|s s1 s' Hs Hr IH]; intros Hf Hi; [done|]. apply IH; [done|].
  assert (Hf1 : fits s1).
  { clear - Hr Hf. induction Hr as [|x y z Hxy _ IH]; [done|]. specialize (IH Hf) as [I1 I2].
    destruct Hxy as [a a' b H%estep_written|a b b' H%estep_written]; split; cbn in *; lia. }
  destruct Hs as [a a' b Hs|a b b' Hs], Hf1 as [F1 F2]; cbn [fst snd] in *.
  - by eapply estep_inv.
  - apply pair_inv_sym. eapply estep_inv; [exact Hs|done|]. by apply pair_inv_sym.
Qed.

Lemma start_inv lip rip lport rport :
  pair_inv 1000 0 (dialled lip rip lport rport) (listening rip lip rport lport).
Proof.
  split; cbn [dialled listening e_conn e_written e_read]; try done.
  - rewrite sendLocked_eq. split; cbn -[u32]; try done.
    + by exists [].
    + apply Forall_cons. split; [|done]. by apply ok_syn.
    + by apply Forall_cons.
  - split; try done. by exists [].
Qed.
