(* ===== verification/NetTcpLive.v ===== *)
(** * NetTcpLive: a TCP conversation goes through

    Over a network that delivers what is sent, in order, the handshake of a
    dialled and a listening connection completes, and every write of up to
    one window arrives and is acknowledged, which leaves both sides ready for
    the next: [in_sync] is the state between writes. *)

From S2P Require Import Prelude Frame BlockDev Paths NetWire NetCodec NetTcp NetTcpStream.

(** The arrival of a segment in its wire form. *)
Definition arrive (s : TCPSegment) (c : TCPConn) : TCPConn :=
  match ParseTCP (TCP_Build s) with Ok s' => handle s' c | _ => c end.

Fixpoint feed {A B} (f : A -> B -> B) (l : list A) (b : B) : B :=
  match l with [] => b | x :: l => feed f l (f x b) end.

Abbreviation arrive_all := (feed arrive).

(** The segments sent after the first [n]. *)
Definition sent_since (n : nat) (c : TCPConn) : list TCPSegment := drop n (c_sent c).

Record quiet (c : TCPConn) (peer : TCPConn) : Prop := mkQuiet {
  q_state : c_state c = stateEstablished;
  q_pend : c_finPending c = false;
  q_buf : c_sndBuf c = [];
  q_fly : c_inFlight c = [];
  q_una : c_sndUNA c = c_sndNXT c;
  q_range : 0 <= c_sndNXT c < 2 ^ 32;
  q_peer : c_rcvNXT peer = c_sndNXT c;
}.

Definition in_sync (a b : TCPConn) : Prop := quiet a b /\ quiet b a.

Lemma arrive_eq s c : arrive s c = handle (tcp_norm s) c.
Proof. unfold arrive. by rewrite TCP_Build_eq, ParseTCP_front. Qed.

Lemma feed_nil {A B} (f : A -> B -> B) b : feed f [] b = b.
Proof. done. Qed.
Lemma feed_cons {A B} (f : A -> B -> B) x l b : feed f (x :: l) b = feed f l (f x b).
Proof. done. Qed.

(** ** A burst of consecutive data segments *)

Inductive chain : Z -> list TCPSegment -> list byte -> Prop :=
| chain_nil s : chain s [] []
| chain_cons s seg segs p :
    seg_Seq seg = s -> seg_Payload seg ≠ [] -> seg_Flags seg = TCPAck ->
    chain (u32 (s + zlen (seg_Payload seg))) segs p ->
    chain s (seg :: segs) (seg_Payload seg ++ p).

Lemma zlen_pos {A} (l : list A) : l ≠ [] -> 0 < zlen l.
Proof. destruct l; [done|]. rewrite zlen_cons. pose proof (zlen_nonneg l). lia. Qed.

(** Flushing a queue that fits the window sends all of it. *)
Lemma flush_chain n c :
  (length (c_sndBuf c) <= n)%nat -> c_state c = stateEstablished ->
  zlen (c_inFlight c) + zlen (c_sndBuf c) <= tcpWindowCap ->
  exists segs, let c' := flush_loop n c in
    c_sent c' = c_sent c ++ segs /\ chain (c_sndNXT c) segs (c_sndBuf c)
    /\ Forall (fun s => seg_Ack s = c_rcvNXT c) segs
    /\ c_sndBuf c' = [] /\ c_inFlight c' = c_inFlight c ++ c_sndBuf c
    /\ (c_sndBuf c ≠ [] -> c_sndNXT c' = u32 (c_sndNXT c + zlen (c_sndBuf c)))
    /\ (c_sndBuf c = [] -> c' = c)
    /\ c_sndUNA c' = c_sndUNA c /\ c_finPending c' = c_finPending c /\ c_finSent c' = c_finSent c.
Proof.
  revert c. induction n as [|n IH]; intros c Hn Hst Hw; cbn [flush_loop].
  { assert (c_sndBuf c = []) as Hb by (apply length_zero_iff_nil; lia).
    exists []. rewrite Hb, !app_nil_r. repeat split; try done. constructor. }
  destruct (in_state stateEstablished c && (0 <? zlen (c_sndBuf c))
    && (zlen (c_inFlight c) <? tcpWindowCap)) eqn:E.
  2:{ rewrite (proj2 (in_state_spec _ _) Hst) in E. cbn [andb] in E.
      assert (c_sndBuf c = []) as Hb.
      { destruct (c_sndBuf c) as [|x l] eqn:Eb; [done|]. exfalso. rewrite zlen_cons in *.
        pose proof (zlen_nonneg l). rewrite andb_false_iff, !Z.ltb_ge in E. lia. }
      exists []. rewrite Hb, !app_nil_r. repeat split; try done. constructor. }
  rewrite !andb_true_iff, in_state_spec, !Z.ltb_lt in E. destruct E as [[_ Hb] Hfl]. cbv zeta.
  set (n1 := if _ <? Z.min _ _ then _ else _).
  assert (0 < n1 <= zlen (c_sndBuf c)) as Hn1.
  { unfold n1, tcpMaxSeg. case (Z.ltb_spec (tcpWindowCap - zlen (c_inFlight c))
      (Z.min 512 (zlen (c_sndBuf c)))); lia. }
  set (p := slice (c_sndBuf c) 0 n1). set (rest := drop (Z.to_nat n1) (c_sndBuf c)).
  assert (Hsplit : c_sndBuf c = p ++ rest).
  { unfold p, rest, slice. rewrite Z.sub_0_r, drop_0. by rewrite take_drop. }
  assert (Hp : zlen p = n1) by (unfold p; rewrite zlen_slice; lia).
  assert (Hr : zlen rest = zlen (c_sndBuf c) - n1) by (rewrite Hsplit, zlen_app; lia).
  rewrite sendLocked_eq. cbn [c_LocalIP c_LocalPort c_RemoteIP c_RemotePort c_state c_sndUNA c_sndNXT
    c_rcvNXT c_finSeq c_finSent c_finPending c_sndBuf c_rcvBuf c_inFlight c_finAckedTheirFin c_lq c_err
    c_sent set_sndBuf].
  match goal with |- context [flush_loop n ?x] => set (c1 := x) end.
  destruct (IH c1) as (segs & H1 & H2 & H3 & H4 & H5 & H6 & H7 & H8 & H9 & H10); clear IH.
  { subst c1. cbn [c_sndBuf]. unfold zlen in *. lia. }
  { done. }
  { subst c1. cbn [c_inFlight c_sndBuf]. rewrite zlen_app. lia. }
  exists (seg_of 0 p (set_sndBuf rest c) :: segs). cbv zeta in *.
  rewrite H1, H4, H5, H8, H9, H10. subst c1. cbn [c_sndBuf c_inFlight c_sent c_sndNXT c_rcvNXT
    c_sndUNA c_finPending c_finSent] in *. rewrite <- !app_assoc. cbn [app].
  change (flag_size 0) with 0 in *. rewrite Z.add_0_r in *.
  split; [done|]. split; [|split; [|split; [done|]]].
  - rewrite Hsplit. apply (chain_cons (c_sndNXT c) (seg_of 0 p (set_sndBuf rest c))); try done.
    + cbn. intros E. rewrite E in Hp. change (zlen []) with 0 in Hp. lia.
    + unfold seg_of, in_state. cbn [seg_Flags c_state set_sndBuf]. by rewrite Hst.
  - apply Forall_cons. done.
  - split; [by rewrite Hsplit|]. split; [|split; [|done]].
    + intros _. rewrite Hsplit, zlen_app.
      destruct rest as [|x rest'] eqn:Er.
      * rewrite H7 by done. cbn [c_sndNXT]. change (zlen []) with 0. by rewrite Z.add_0_r.
      * rewrite H6 by done. unfold u32. rewrite Zplus_mod_idemp_l. f_equal. lia.
    + intros E. rewrite E in Hb. change (zlen []) with 0 in Hb. lia.
Qed.

(** ** Arrival of the burst *)

Lemma seqGT_small a x : 0 < x < 2 ^ 31 -> seqGT (u32 (a + x)) a = true.
Proof.
  intros Hx. unfold seqGT. rewrite (proj2 (Z.ltb_lt _ _)); [done|].
  assert (u32 (u32 (a + x) - a) = x) as ->.
  { unfold u32. rewrite Zminus_mod_idemp_l. replace (a + x - a) with x by lia. apply Z.mod_small. lia. }
  unfold i32, swrap. rewrite Z.mod_small by lia. lia.
Qed.

Lemma seqGT_refl a : seqGT a a = false.
Proof. unfold seqGT. by rewrite Z.sub_diag. Qed.

Lemma u32_id z : 0 <= z < 2 ^ 32 -> u32 z = z.
Proof. apply u32_small. Qed.

Lemma handle_ack_old seg c : seg_Ack seg = c_sndUNA c -> handle_ack seg c = c.
Proof.
  intros E. unfold handle_ack. by rewrite E, seqGT_refl, andb_false_r.
Qed.

(** One in-order data segment. *)
Lemma handle_data seg c :
  c_state c = stateEstablished -> seg_Flags seg = TCPAck -> seg_Ack seg = c_sndUNA c ->
  seg_Seq seg = c_rcvNXT c -> 0 < zlen (seg_Payload seg) < 2 ^ 32 -> 0 <= c_rcvNXT c < 2 ^ 32 ->
  handle seg c = sendLocked TCPAck []
    (set_rcvNXT (u32 (c_rcvNXT c + zlen (seg_Payload seg)))
      (set_rcvBuf (c_rcvBuf c ++ seg_Payload seg) c)).
Proof.
  intros Hst Hfl Ha Hs Hl Hr. unfold handle. rewrite Hfl. cbn [has_flag].
  change (has_flag TCPAck TCPRst) with false. cbn [andb]. cbv zeta.
  rewrite handle_ack_old by done. unfold handle_state. rewrite Hst.
  assert (Hd : deliver_payload seg c = sendLocked TCPAck []
    (set_rcvNXT (u32 (c_rcvNXT c + zlen (seg_Payload seg)))
      (set_rcvBuf (c_rcvBuf c ++ seg_Payload seg) c))).
  { unfold deliver_payload. rewrite (proj2 (Z.ltb_lt _ _)), (proj2 (Z.eqb_eq _ _)) by (done || lia).
    done. }
  rewrite Hd. unfold fin_in_order. rewrite Hfl. change (has_flag TCPAck TCPFin) with false.
  cbn [andb]. rewrite sendLocked_eq.
  rewrite (proj2 (in_state_spec _ _)) by done.
  unfold deliver_payload. cbn [c_rcvNXT set_rcvNXT set_rcvBuf].
  rewrite (proj2 (Z.eqb_neq _ _)), andb_false_r; [done|].
  rewrite Hs. unfold u32. intros E. symmetry in E. rewrite <- (Z.mod_small (c_rcvNXT c) (2 ^ 32)) in E at 2 by lia.
  pose proof (u32_inj (c_rcvNXT c) (zlen (seg_Payload seg)) 0 ltac:(lia) ltac:(lia)) as Hi.
  rewrite Z.add_0_r in Hi. specialize (Hi E). lia.
Qed.

(** The acknowledgements a burst is answered with. *)
Inductive acks : Z -> list TCPSegment -> list TCPSegment -> Prop :=
| acks_nil s : acks s [] []
| acks_cons s seg segs a l :
    seg_Flags a = TCPAck -> seg_Payload a = [] -> seg_Ack a = u32 (s + zlen (seg_Payload seg)) ->
    acks (u32 (s + zlen (seg_Payload seg))) segs l -> acks s (seg :: segs) (a :: l).

Lemma tcp_norm_ack s :
  seg_Flags s = TCPAck -> seg_Flags (tcp_norm s) = TCPAck.
Proof. intros H. cbn. by rewrite H. Qed.

Lemma arrive_data g b :
  c_state b = stateEstablished -> seg_Flags g = TCPAck -> seg_Ack g = c_sndUNA b ->
  seg_Seq g = c_rcvNXT b -> 0 < zlen (seg_Payload g) < 2 ^ 32 -> 0 <= c_rcvNXT b < 2 ^ 32 ->
  0 <= c_sndUNA b < 2 ^ 32 -> 0 <= c_sndNXT b < 2 ^ 32 ->
  exists ak b1, arrive g b = b1 /\ c_sent b1 = c_sent b ++ [ak]
    /\ seg_Flags ak = TCPAck /\ seg_Payload ak = []
    /\ seg_Ack ak = u32 (c_rcvNXT b + zlen (seg_Payload g))
    /\ c_rcvBuf b1 = c_rcvBuf b ++ seg_Payload g
    /\ c_rcvNXT b1 = u32 (c_rcvNXT b + zlen (seg_Payload g)) /\ c_state b1 = stateEstablished
    /\ c_sndUNA b1 = c_sndUNA b /\ c_sndNXT b1 = c_sndNXT b /\ c_finPending b1 = c_finPending b
    /\ c_sndBuf b1 = c_sndBuf b /\ c_inFlight b1 = c_inFlight b.
Proof.
  intros Hst Hfl Ha Hs Hl Hr Hu Hn. 
  exists (seg_of TCPAck [] (set_rcvNXT (u32 (c_rcvNXT b + zlen (seg_Payload g)))
    (set_rcvBuf (c_rcvBuf b ++ seg_Payload g) b))), (arrive g b). split; [reflexivity|].
  rewrite arrive_eq, handle_data; cbn [tcp_norm seg_Flags seg_Ack seg_Seq seg_Payload];
    rewrite ?Hfl, ?Ha, ?Hs, ?u32_id by assumption; try done.
  rewrite sendLocked_eq. cbn [c_sent c_rcvBuf c_rcvNXT c_state c_sndUNA c_sndNXT c_finPending c_sndBuf
    c_inFlight set_rcvNXT set_rcvBuf].
  change (flag_size TCPAck) with 0. change (zlen []) with 0. rewrite !Z.add_0_r, app_nil_r.
  rewrite (u32_id (c_sndNXT b)) by done. repeat split; done.
Qed.

Lemma arrive_chain segs : forall s p b,
  chain s segs p -> 0 <= s < 2 ^ 32 -> zlen p < 2 ^ 32 ->
  Forall (fun g => seg_Ack g = c_sndUNA b) segs -> c_state b = stateEstablished ->
  0 <= c_sndUNA b < 2 ^ 32 -> 0 <= c_sndNXT b < 2 ^ 32 -> c_rcvNXT b = s ->
  exists l b', arrive_all segs b = b' /\
    acks s segs l /\ c_sent b' = c_sent b ++ l /\ c_rcvBuf b' = c_rcvBuf b ++ p
    /\ c_rcvNXT b' = u32 (s + zlen p) /\ c_state b' = stateEstablished
    /\ c_sndUNA b' = c_sndUNA b /\ c_sndNXT b' = c_sndNXT b /\ c_finPending b' = c_finPending b
    /\ c_sndBuf b' = c_sndBuf b /\ c_inFlight b' = c_inFlight b.
Proof.
  induction segs as [|g segs IH]; intros s p b Hc Hs Hp Hack Hst Hu Hn Hr;
    inversion Hc as [|? ? ? q Hsq Hne Hfl Hch]; subst;
    rewrite ?feed_nil, ?feed_cons.
  { exists [], b. rewrite !app_nil_r. change (zlen []) with 0.
    rewrite Z.add_0_r, (u32_id (c_rcvNXT b)) by done. repeat split; try done. constructor. }
  apply Forall_cons in Hack as [Ha Hack]. rewrite zlen_app in Hp.
  pose proof (zlen_nonneg q). pose proof (zlen_pos _ Hne) as Hpos.
  destruct (arrive_data g b) as (ak & b1 & -> & A1 & A2 & A3 & A4 & A5 & A6 & A7 & A8 & A9 & A10 & A11 & A12);
    try done; [lia|].
  destruct (IH _ q b1 Hch) as (l & b' & -> & B0 & B1 & B2 & B3 & B4 & B5 & B6 & B7 & B8 & B9);
    rewrite ?A8, ?A9; try done; [apply u32_range|lia|].
  exists (ak :: l), b'. rewrite B1, B2, B3, B5, B6, B7, B8, B9, A1, A5, <- !app_assoc.
  repeat split; try done; [by constructor|].
  unfold u32. rewrite Zplus_mod_idemp_l, zlen_app. f_equal. lia.
Qed.

(** ** Arrival of the acknowledgements *)

Lemma handle_ack_new seg c n :
  c_state c = stateEstablished -> c_finPending c = false -> c_sndBuf c = [] ->
  seg_Flags seg = TCPAck -> seg_Payload seg = [] ->
  0 < n <= zlen (c_inFlight c) -> zlen (c_inFlight c) <= tcpWindowCap ->
  0 <= c_sndUNA c < 2 ^ 32 ->
  c_sndNXT c = u32 (c_sndUNA c + zlen (c_inFlight c)) -> seg_Ack seg = u32 (c_sndUNA c + n) ->
  handle seg c = set_sndUNA (seg_Ack seg) (set_inFlight (drop (Z.to_nat n) (c_inFlight c)) c).
Proof.
  intros Hst Hfp Hb Hfl Hp Hn Hw Hu Hx Ha. unfold tcpWindowCap in *.
  assert (Hack : handle_ack seg c
    = set_sndUNA (seg_Ack seg) (set_inFlight (drop (Z.to_nat n) (c_inFlight c)) c)).
  { unfold handle_ack. rewrite Hfl. change (has_flag TCPAck TCPAck) with true. unfold seqGE at 1.
    rewrite Ha, !seqGT_small, orb_true_r by lia. cbn [andb].
    assert (seqGE (c_sndNXT c) (u32 (c_sndUNA c + n)) = true) as ->.
    { unfold seqGE. rewrite Hx. destruct (Z.eqb_spec (u32 (c_sndUNA c + zlen (c_inFlight c)))
        (u32 (c_sndUNA c + n))) as [|Hne]; [done|]. cbn [orb].
      assert (n ≠ zlen (c_inFlight c)) by congruence.
      replace (u32 (c_sndUNA c + zlen (c_inFlight c)))
        with (u32 (u32 (c_sndUNA c + n) + (zlen (c_inFlight c) - n)))
        by (unfold u32; rewrite Zplus_mod_idemp_l; f_equal; lia).
      apply seqGT_small. lia. }
    assert (u32 (u32 (c_sndUNA c + n) - c_sndUNA c) = n) as ->.
    { unfold u32. rewrite Zminus_mod_idemp_l. replace (c_sndUNA c + n - c_sndUNA c) with n by lia.
      apply Z.mod_small. lia. }
    rewrite (proj2 (Z.ltb_lt _ _)) by lia. cbv zeta.
    assert ((if zlen (c_inFlight c) <=? n then set_inFlight [] c
             else set_inFlight (drop (Z.to_nat n) (c_inFlight c)) c)
            = set_inFlight (drop (Z.to_nat n) (c_inFlight c)) c) as ->.
    { destruct (Z.leb_spec (zlen (c_inFlight c)) n); [|done].
      rewrite drop_ge; [done|]. unfold zlen in *. lia. }
    rewrite (proj2 (in_state_spec _ _)) by done.
    unfold flushLocked. cbn [c_sndBuf set_sndUNA set_inFlight]. rewrite Hb. cbn [length flush_loop].
    unfold trySendFinLocked. cbn [c_finPending set_sndUNA set_inFlight]. by rewrite Hfp. }
  unfold handle. rewrite Hfl. change (has_flag TCPAck TCPRst) with false. cbn [andb]. cbv zeta.
  rewrite Hack. unfold handle_state. cbn [c_state set_sndUNA set_inFlight]. rewrite Hst.
  unfold deliver_payload, fin_in_order. rewrite Hp, Hfl. change (zlen []) with 0.
  change (has_flag TCPAck TCPFin) with false. cbn [andb Z.ltb Z.compare]. by destruct (in_state _ _).
Qed.

Lemma arrive_acks segs : forall l a p,
  acks (c_sndUNA a) segs l -> chain (c_sndUNA a) segs p ->
  c_state a = stateEstablished -> c_finPending a = false -> c_sndBuf a = [] ->
  c_inFlight a = p -> zlen p <= tcpWindowCap -> 0 <= c_sndUNA a < 2 ^ 32 ->
  c_sndNXT a = u32 (c_sndUNA a + zlen p) ->
  let a' := arrive_all l a in
  c_state a' = stateEstablished /\ c_finPending a' = false /\ c_sndBuf a' = []
  /\ c_inFlight a' = [] /\ c_sndUNA a' = c_sndNXT a /\ c_sndNXT a' = c_sndNXT a
  /\ c_rcvNXT a' = c_rcvNXT a /\ c_rcvBuf a' = c_rcvBuf a /\ c_sent a' = c_sent a.
Proof.
  induction segs as [|g segs IH]; intros l a p Hl Hc Hst Hfp Hb Hif Hw Hu Hx; cbv zeta.
  { inversion Hl. inversion Hc as [? E1 E2 E3|]. rewrite feed_nil.
    rewrite <- E3 in Hif, Hx. change (zlen []) with 0 in Hx.
    rewrite Z.add_0_r, u32_id in Hx by exact Hu. repeat split; congruence. }
  inversion Hl as [|? ? ? ak l' Hf1 Hp1 Ha1 Hl' E1 E2 E3].
  inversion Hc as [|? ? ? q Hsq Hne Hfl Hch E4 E5 Eq]. clear E1 E2 E4 E5. subst l.
  rewrite <- Eq in Hif, Hw, Hx. rewrite zlen_app in Hw, Hx.
  pose proof (zlen_pos _ Hne) as Hpos. pose proof (zlen_nonneg q) as Hq0.
  assert (Hh : handle (tcp_norm ak) a
    = set_sndUNA (u32 (c_sndUNA a + zlen (seg_Payload g))) (set_inFlight q a)).
  { rewrite (handle_ack_new (tcp_norm ak) a (zlen (seg_Payload g))); rewrite ?Hif, ?zlen_app; try done.
    - cbn [tcp_norm seg_Ack]. rewrite Ha1. unfold u32 at 1. unfold u32 at 1.
      rewrite Z.mod_mod by lia. unfold zlen at 2. by rewrite Nat2Z.id, drop_app_length.
    - by apply tcp_norm_ack.
    - lia.
    - cbn [tcp_norm seg_Ack]. rewrite Ha1. apply Z.mod_mod. lia. }
  rewrite feed_cons, arrive_eq, Hh.
  apply (IH l' (set_sndUNA (u32 (c_sndUNA a + zlen (seg_Payload g))) (set_inFlight q a)) q);
    cbn [c_sndUNA c_state c_finPending c_sndBuf c_inFlight c_sndNXT set_sndUNA set_inFlight];
    try assumption; try done.
  - lia.
  - apply u32_range.
  - rewrite Hx. unfold u32. rewrite Zplus_mod_idemp_l. f_equal. lia.
Qed.

(** ** One write and its acknowledgement *)

(** [a] writes; its segments arrive at [b]; the answers arrive at [a]. *)
Definition exchange (d : list byte) (a b : TCPConn) : TCPConn * TCPConn :=
  let a1 := snd (TCP_Write d a) in
  let b1 := arrive_all (sent_since (length (c_sent a)) a1) b in
  (arrive_all (sent_since (length (c_sent b)) b1) a1, b1).

Lemma sent_since_app c l c' : c_sent c' = c_sent c ++ l -> sent_since (length (c_sent c)) c' = l.
Proof. intros H. unfold sent_since. by rewrite H, drop_app_length. Qed.

Lemma exchange_ok d a b :
  in_sync a b -> zlen d <= tcpWindowCap ->
  let '(a2, b1) := exchange d a b in
  in_sync a2 b1 /\ c_rcvBuf b1 = c_rcvBuf b ++ d /\ c_rcvBuf a2 = c_rcvBuf a.
Proof.
  intros [Qa Qb] Hd. pose proof (zlen_nonneg d) as Hd0. unfold exchange.
  destruct Qa as [A1 A2 A3 A4 A5 A6 A7], Qb as [B1 B2 B3 B4 B5 B6 B7].
  assert (Hw : snd (TCP_Write d a) = flush_loop (length d) (set_sndBuf d a)).
  { unfold TCP_Write. rewrite (proj2 (in_state_spec _ _) A1), A2, A3. done. }
  rewrite Hw. set (a0 := set_sndBuf d a).
  destruct (flush_chain (length d) a0) as (segs & F1 & F2 & F3 & F4 & F5 & F6 & F7 & F8 & F9 & F10);
    [done|done|cbn; by rewrite A4|]. cbv zeta in *.
  destruct (flush_tx (length d) a0) as [G1 G2 _]. pose proof (flush_state (length d) a0) as G3.
  set (a1 := flush_loop (length d) a0) in *. clearbody a1.
  change (c_sndBuf a0) with d in *. change (c_inFlight a0) with (c_inFlight a) in *.
  change (c_sndNXT a0) with (c_sndNXT a) in *. change (c_sndUNA a0) with (c_sndUNA a) in *.
  change (c_rcvNXT a0) with (c_rcvNXT a) in *. change (c_rcvBuf a0) with (c_rcvBuf a) in *.
  change (c_state a0) with (c_state a) in *. change (c_sent a0) with (c_sent a) in *.
  change (c_finPending a0) with (c_finPending a) in *.
  assert (Hn1 : c_sndNXT a1 = u32 (c_sndNXT a + zlen d)).
  { destruct d as [|x d]; [|by apply F6]. rewrite (F7 eq_refl). cbn. change (zlen []) with 0.
    by rewrite Z.add_0_r, u32_id by done. }
  rewrite (sent_since_app a segs a1 F1).
  unfold tcpWindowCap in Hd.
  destruct (arrive_chain segs (c_sndNXT a) d b F2) as
    (l & b1 & -> & H0 & H1 & H2 & H3 & H4 & H5 & H6 & H7 & H8 & H9);
    rewrite ?B5; try done;
    [lia|eapply Forall_impl; [exact F3|]; cbn; congruence|].
  rewrite (sent_since_app b l b1 H1). rewrite <- A5, <- F8 in F2, H0.
  destruct (arrive_acks segs l a1 d) as (K1 & K2 & K3 & K4 & K5 & K6 & K7 & K8 & K9);
    rewrite ?F8, ?F5, ?A4, ?A5, ?G3; try done; try congruence.
  split; [split; split|]; try congruence.
  - rewrite K6, Hn1. apply u32_range.
  - split; congruence.
Qed.

(** ** A whole conversation *)

(** The three segments of the handshake. *)
Definition handshake (a b : TCPConn) : TCPConn * TCPConn :=
  let b1 := arrive_all (c_sent a) b in
  let a1 := arrive_all (c_sent b1) a in
  (a1, arrive_all (sent_since (length (c_sent a)) a1) b1).

Lemma handshake_ok lip rip lport rport :
  let '(a, b) := handshake (e_conn (dialled lip rip lport rport)) (e_conn (listening rip lip rport lport)) in
  in_sync a b /\ c_rcvBuf a = [] /\ c_rcvBuf b = [] /\ c_lq b = Some 1.
Proof.
  unfold handshake, dialled, listening. cbn [e_conn].
  rewrite sendLocked_eq. cbn [c_sent app newConn]. rewrite feed_cons, feed_nil, arrive_eq.
  set (b1 := handle _ _). vm_compute in b1. subst b1. cbn [c_sent].
  rewrite feed_cons, feed_nil, arrive_eq. set (a1 := handle _ _). vm_compute in a1. subst a1.
  unfold sent_since. cbn [c_sent length drop]. rewrite feed_cons, feed_nil, arrive_eq.
  set (b2 := handle _ _). vm_compute in b2. subst b2. repeat split; done.
Qed.

(** Messages of both sides, in turn; [true] is the dialling side. *)
Fixpoint converse (ms : list (bool * list byte)) (a b : TCPConn) : TCPConn * TCPConn :=
  match ms with
  | [] => (a, b)
  | (true, d) :: ms => let '(a, b) := exchange d a b in converse ms a b
  | (false, d) :: ms => let '(b, a) := exchange d b a in converse ms a b
  end.

Definition said (side : bool) (ms : list (bool * list byte)) : list byte :=
  mjoin (map snd (filter (fun m => fst m = side) ms)).

Lemma in_sync_sym a b : in_sync a b -> in_sync b a.
Proof. intros [? ?]. by split. Qed.

Lemma converse_ok ms : forall a b,
  in_sync a b -> Forall (fun m => zlen (snd m) <= tcpWindowCap) ms ->
  let '(a', b') := converse ms a b in
  c_rcvBuf b' = c_rcvBuf b ++ said true ms /\ c_rcvBuf a' = c_rcvBuf a ++ said false ms.
Proof.
  induction ms as [|[side d] ms IH]; intros a b Hs Hf.
  { cbn. by rewrite !app_nil_r. }
  apply Forall_cons in Hf as [Hd Hf]. cbn [snd] in Hd. destruct side; cbn [converse].
  - pose proof (exchange_ok d a b Hs Hd) as Hx. destruct (exchange d a b) as [a2 b1].
    destruct Hx as (Hs' & H1 & H2). specialize (IH a2 b1 Hs' Hf).
    destruct (converse ms a2 b1) as [a' b']. destruct IH as [I1 I2].
    by rewrite I1, I2, H1, H2, <- app_assoc.
  - pose proof (exchange_ok d b a (in_sync_sym _ _ Hs) Hd) as Hx. destruct (exchange d b a) as [b2 a1].
    destruct Hx as (Hs' & H1 & H2). specialize (IH a1 b2 (in_sync_sym _ _ Hs') Hf).
    destruct (converse ms a1 b2) as [a' b']. destruct IH as [I1 I2].
    by rewrite I1, I2, H1, H2, <- app_assoc.
Qed.
