(* ===== verification/NetStack.v ===== *)
(** * NetStack: one host's network stack ([services/net/netstack.go])

    The stack's state, the ARP cache ([arp.go]), the UDP ports ([udp.go]),
    the TCP connections and the receive path from a frame to them, with the
    send path they call back into.  Two kinds of lock are held across calls
    that can wait: [hmu], for as long as a frame is handled, and the lock of a
    TCP connection, for as long as an operation on it runs.  They are part of
    the state; taking a lock that is already held never returns, which is
    [Panic].  The other mutexes of the source protect single map accesses. *)

From S2P Require Import Prelude Frame BlockDev Paths NetWire NetRing NetTcp.

(** UDP receive queues are shared by reference: [u_queues] holds them,
    [u_ports] maps a bound port to its queue. *)
Record UDPDemux := mkUDPDemux { u_queues : list (list (list byte)); u_ports : gmap Z nat }.

Definition NewUDPDemux : UDPDemux := mkUDPDemux [] ∅.

Section Stack.
Context {F : Type} `{PacketFeed F}.

Record Stack := mkStack {
  s_MAC : MAC; s_IP : IP4; s_Netmask : IP4; s_Gateway : IP4;
  s_feed : F; s_arp : gmap IP4 MAC; s_hmu : bool; s_connmu : gset Z;
  s_icmpIn : list ICMPPacket; s_udp : UDPDemux; s_tcp : TCPStack;
  s_RxEth : Z; s_RxARP : Z; s_RxIPv4 : Z; s_RxICMP : Z;
}.

Definition SM : Type -> Type := M Stack neterr.

Definition NewStack (mac : MAC) (ip : IP4) (feed : F) : Stack :=
  mkStack mac ip IP4_zero IP4_zero feed ∅ false ∅ [] NewUDPDemux NewTCPStack 0 0 0 0.

Definition put_IP (v : IP4) (s : Stack) : Stack :=
  mkStack (s_MAC s) v (s_Netmask s) (s_Gateway s) (s_feed s) (s_arp s) (s_hmu s) (s_connmu
    s) (s_icmpIn s) (s_udp s) (s_tcp s) (s_RxEth s) (s_RxARP s) (s_RxIPv4 s) (s_RxICMP s).
Definition put_Netmask (v : IP4) (s : Stack) : Stack :=
  mkStack (s_MAC s) (s_IP s) v (s_Gateway s) (s_feed s) (s_arp s) (s_hmu s) (s_connmu s)
    (s_icmpIn s) (s_udp s) (s_tcp s) (s_RxEth s) (s_RxARP s) (s_RxIPv4 s) (s_RxICMP s).
Definition put_Gateway (v : IP4) (s : Stack) : Stack :=
  mkStack (s_MAC s) (s_IP s) (s_Netmask s) v (s_feed s) (s_arp s) (s_hmu s) (s_connmu s)
    (s_icmpIn s) (s_udp s) (s_tcp s) (s_RxEth s) (s_RxARP s) (s_RxIPv4 s) (s_RxICMP s).
Definition put_feed (v : F) (s : Stack) : Stack :=
  mkStack (s_MAC s) (s_IP s) (s_Netmask s) (s_Gateway s) v (s_arp s) (s_hmu s) (s_connmu s)
    (s_icmpIn s) (s_udp s) (s_tcp s) (s_RxEth s) (s_RxARP s) (s_RxIPv4 s) (s_RxICMP s).
Definition put_arp (v : gmap IP4 MAC) (s : Stack) : Stack :=
  mkStack (s_MAC s) (s_IP s) (s_Netmask s) (s_Gateway s) (s_feed s) v (s_hmu s) (s_connmu s)
    (s_icmpIn s) (s_udp s) (s_tcp s) (s_RxEth s) (s_RxARP s) (s_RxIPv4 s) (s_RxICMP s).
Definition put_hmu (v : bool) (s : Stack) : Stack :=
  mkStack (s_MAC s) (s_IP s) (s_Netmask s) (s_Gateway s) (s_feed s) (s_arp s) v (s_connmu s)
    (s_icmpIn s) (s_udp s) (s_tcp s) (s_RxEth s) (s_RxARP s) (s_RxIPv4 s) (s_RxICMP s).
Definition put_connmu (v : gset Z) (s : Stack) : Stack :=
  mkStack (s_MAC s) (s_IP s) (s_Netmask s) (s_Gateway s) (s_feed s) (s_arp s) (s_hmu s) v
    (s_icmpIn s) (s_udp s) (s_tcp s) (s_RxEth s) (s_RxARP s) (s_RxIPv4 s) (s_RxICMP s).
Definition put_icmpIn (v : list ICMPPacket) (s : Stack) : Stack :=
  mkStack (s_MAC s) (s_IP s) (s_Netmask s) (s_Gateway s) (s_feed s) (s_arp s) (s_hmu s)
    (s_connmu s) v (s_udp s) (s_tcp s) (s_RxEth s) (s_RxARP s) (s_RxIPv4 s) (s_RxICMP s).
Definition put_udp (v : UDPDemux) (s : Stack) : Stack :=
  mkStack (s_MAC s) (s_IP s) (s_Netmask s) (s_Gateway s) (s_feed s) (s_arp s) (s_hmu s)
    (s_connmu s) (s_icmpIn s) v (s_tcp s) (s_RxEth s) (s_RxARP s) (s_RxIPv4 s) (s_RxICMP s).
Definition put_tcp (v : TCPStack) (s : Stack) : Stack :=
  mkStack (s_MAC s) (s_IP s) (s_Netmask s) (s_Gateway s) (s_feed s) (s_arp s) (s_hmu s)
    (s_connmu s) (s_icmpIn s) (s_udp s) v (s_RxEth s) (s_RxARP s) (s_RxIPv4 s) (s_RxICMP s).
Definition put_RxEth (v : Z) (s : Stack) : Stack :=
  mkStack (s_MAC s) (s_IP s) (s_Netmask s) (s_Gateway s) (s_feed s) (s_arp s) (s_hmu s)
    (s_connmu s) (s_icmpIn s) (s_udp s) (s_tcp s) v (s_RxARP s) (s_RxIPv4 s) (s_RxICMP s).
Definition put_RxARP (v : Z) (s : Stack) : Stack :=
  mkStack (s_MAC s) (s_IP s) (s_Netmask s) (s_Gateway s) (s_feed s) (s_arp s) (s_hmu s)
    (s_connmu s) (s_icmpIn s) (s_udp s) (s_tcp s) (s_RxEth s) v (s_RxIPv4 s) (s_RxICMP s).
Definition put_RxIPv4 (v : Z) (s : Stack) : Stack :=
  mkStack (s_MAC s) (s_IP s) (s_Netmask s) (s_Gateway s) (s_feed s) (s_arp s) (s_hmu s)
    (s_connmu s) (s_icmpIn s) (s_udp s) (s_tcp s) (s_RxEth s) (s_RxARP s) v (s_RxICMP s).
Definition put_RxICMP (v : Z) (s : Stack) : Stack :=
  mkStack (s_MAC s) (s_IP s) (s_Netmask s) (s_Gateway s) (s_feed s) (s_arp s) (s_hmu s)
    (s_connmu s) (s_icmpIn s) (s_udp s) (s_tcp s) (s_RxEth s) (s_RxARP s) (s_RxIPv4 s) v.

(** ** Sending *)

Definition sink_Send (frame : list byte) : SM unit := fun s =>
  (Ok tt, put_feed (snd (feed_Send frame (s_feed s))) s).

(** *** The ARP cache; entries do not expire *)

Definition ARP_Lookup (ip : IP4) (s : Stack) : option MAC := s_arp s !! ip.
Definition ARP_Update (ip : IP4) (mac : MAC) : SM unit :=
  modifyS (fun s => put_arp (<[ip := mac]> (s_arp s)) s).

(** [pump] is the stack's own receive step, which [Resolve] calls while it
    waits for an answer. *)
Fixpoint resolve_loop (pump : SM bool) (ip : IP4) (budget : nat) : SM MAC :=
  match budget with
  | O => throw ErrArpTimeout
  | S budget =>
      s ← getS;
      match ARP_Lookup ip s with
      | Some mac => mret mac
      | None => _ ← pump; resolve_loop pump ip budget
      end
  end.

Definition Resolve (pump : SM bool) (ip : IP4) (budget : nat) : SM MAC :=
  s ← getS;
  match ARP_Lookup ip s with
  | Some mac => mret mac
  | None =>
      _ ← sink_Send (BuildEth BroadcastMAC (s_MAC s) EthTypeARP
            (ARP_Build (mkARP ARPOpRequest (s_MAC s) (s_IP s)
               (mkMAC Byte.x00 Byte.x00 Byte.x00 Byte.x00 Byte.x00 Byte.x00) ip)));
      resolve_loop pump ip budget
  end.

Definition byte_and (x y : byte) : Z := Z.land (b2z x) (b2z y).

Definition onLink (dst : IP4) (s : Stack) : bool :=
  if IsZero (s_Netmask s) then true
  else
    let m := s_Netmask s in
    let ip := s_IP s in
    (byte_and (a0 dst) (a0 m) =? byte_and (a0 ip) (a0 m))
    && (byte_and (a1 dst) (a1 m) =? byte_and (a1 ip) (a1 m))
    && (byte_and (a2 dst) (a2 m) =? byte_and (a2 ip) (a2 m))
    && (byte_and (a3 dst) (a3 m) =? byte_and (a3 ip) (a3 m)).

Definition nextHopMAC (pump : SM bool) (dst : IP4) : SM MAC :=
  s ← getS;
  if onLink dst s then Resolve pump dst 2000
  else if IsZero (s_Gateway s) then throw ErrNoRoute
  else Resolve pump (s_Gateway s) 2000.

Definition sendIPv4From (pump : SM bool) (src dst : IP4) (proto : byte) (payload : list byte) : SM unit :=
  mac ← (if decide (dst = broadcastIP) then mret BroadcastMAC else nextHopMAC pump dst);
  dg ← liftO (IP4_Build (mkIP4Packet src dst proto Byte.x00 payload));
  s ← getS;
  sink_Send (BuildEth mac (s_MAC s) EthTypeIPv4 dg).

Definition sendIPv4 (pump : SM bool) (dst : IP4) (proto : byte) (payload : list byte) : SM unit :=
  s ← getS; sendIPv4From pump (s_IP s) dst proto payload.

Definition SendUDP (pump : SM bool) (dstIP : IP4) (dg : UDPDatagram) : SM unit :=
  s ← getS;
  sendIPv4 pump dstIP IP4ProtoUDP
    (UDP_Build (mkUDP (udp_SrcPort dg) (udp_DstPort dg) (udp_Data dg) (s_IP s) dstIP)).

Definition SendUDPDatagram (pump : SM bool) (dstIP : IP4) (dgram : list byte) : SM unit :=
  sendIPv4 pump dstIP IP4ProtoUDP dgram.

Definition SendTCPSegment (pump : SM bool) (dstIP : IP4) (seg : list byte) : SM unit :=
  s ← getS;
  sendIPv4 pump dstIP IP4ProtoTCP (tcp_with_checksum (s_IP s) dstIP seg).

(** ** UDP ports *)

Fixpoint first_free (fuel : nat) (p : Z) (ports : gmap Z nat) : option Z :=
  match fuel with
  | O => None
  | S fuel =>
      if p =? 0 then None
      else match ports !! p with
           | None => Some p
           | Some _ => first_free fuel (u16 (p + 1)) ports
           end
  end.

(** [Bind] gives the queue and the port bound; port 0 asks for an ephemeral
    one, from 49152 up to the wrap-around to 0. *)
Definition UDP_Bind (port : Z) (d : UDPDemux) : nat * Z * UDPDemux :=
  let port := if port =? 0
              then default port (first_free (Z.to_nat 16385) 49152 (u_ports d)) else port in
  match u_ports d !! port with
  | Some q => (q, port, d)
  | None =>
      let q := length (u_queues d) in
      (q, port, mkUDPDemux (u_queues d ++ [[]]) (<[port := q]> (u_ports d)))
  end.

Definition UDP_Unbind (port : Z) (d : UDPDemux) : UDPDemux :=
  mkUDPDemux (u_queues d) (delete port (u_ports d)).

Definition UDP_push (q : nat) (data : list byte) (d : UDPDemux) : UDPDemux :=
  mkUDPDemux (alter (fun fs => fs ++ [data]) q (u_queues d)) (u_ports d).

Definition UDP_Recv (q : nat) (d : UDPDemux) : option (list byte) * UDPDemux :=
  match u_queues d !! q with
  | Some (f :: fs) => (Some f, mkUDPDemux (<[q := fs]> (u_queues d)) (u_ports d))
  | _ => (None, d)
  end.

Definition UDP_handle (pkt : IP4Packet) (d : UDPDemux) : UDPDemux :=
  match ParseUDP (ip_Payload pkt) with
  | Ok dg =>
      match u_ports d !! udp_DstPort dg with
      | Some q => UDP_push q (udp_Data dg) d
      | None => d
      end
  | _ => d
  end.

Definition UDP_SendTo (pump : SM bool) (srcPort : Z) (dstIP : IP4) (dstPort : Z) (data : list byte) : SM unit :=
  SendUDP pump dstIP (mkUDP srcPort dstPort data IP4_zero IP4_zero).

(** ** TCP connections under their locks *)

Definition lock_conn (p : Z) : SM unit := fun s =>
  if decide (p ∈ s_connmu s) then (Panic, s) else (Ok tt, put_connmu ({[p]} ∪ s_connmu s) s).
Definition unlock_conn (p : Z) : SM unit :=
  modifyS (fun s => put_connmu (s_connmu s ∖ {[p]}) s).

Definition put_conn (p : Z) (c : TCPConn) (s : Stack) : Stack :=
  put_tcp (mkTCPStack (<[p := c]> (t_conns (s_tcp s))) (t_nextEphemeral (s_tcp s))) s.

Fixpoint send_segments (pump : SM bool) (dst : IP4) (segs : list TCPSegment) : SM unit :=
  match segs with
  | [] => mret tt
  | g :: segs =>
      _ ← attempt (SendTCPSegment pump dst (TCP_Build g));
      send_segments pump dst segs
  end.

(** An operation on the connection at local port [p], under its lock: the
    segments it produces leave before the lock is released. *)
Definition with_conn {A} (pump : SM bool) (p : Z) (op : TCPConn -> A * TCPConn) : SM (option A) :=
  s ← getS;
  match t_conns (s_tcp s) !! p with
  | None => mret None
  | Some _ =>
      _ ← lock_conn p;
      s ← getS;
      match t_conns (s_tcp s) !! p with
      | None => _ ← unlock_conn p; mret None
      | Some c =>
          let '(a, c) := op c in
          _ ← modifyS (put_conn p (set_sent [] c));
          _ ← send_segments pump (c_RemoteIP c) (c_sent c);
          _ ← unlock_conn p;
          mret (Some a)
      end
  end.

Definition TCP_handle (pump : SM bool) (pkt : IP4Packet) : SM unit :=
  match ParseTCP (ip_Payload pkt) with
  | Ok seg =>
      _ ← with_conn pump (seg_DstPort seg) (fun c =>
            let c := if bool_decide (TCP_State c = bs "LISTEN") && has_flag (seg_Flags seg) TCPSyn
                        && negb (has_flag (seg_Flags seg) TCPAck)
                     then set_RemotePort (seg_SrcPort seg) (set_RemoteIP (ip_Src pkt) c) else c in
            (tt, handle seg c));
      mret tt
  | _ => mret tt
  end.

(** ** Receiving *)

Definition icmpInCap : Z := 64.

Definition handleICMP (pump : SM bool) (pkt : IP4Packet) : SM unit :=
  match ParseICMP (ip_Payload pkt) with
  | Ok msg =>
      _ ← modifyS (fun s => put_RxICMP (u64 (s_RxICMP s + 1)) s);
      if decide (icmp_Type msg = ICMPEchoRequest) then
        _ ← attempt (sendIPv4 pump (ip_Src pkt) IP4ProtoICMP (BuildEchoReply msg)); mret tt
      else if decide (icmp_Type msg = ICMPEchoReply) then
        modifyS (fun s =>
          let l := if icmpInCap <=? zlen (s_icmpIn s) then drop 1 (s_icmpIn s) else s_icmpIn s in
          put_icmpIn (l ++ [msg]) s)
      else mret tt
  | _ => mret tt
  end.

Definition handleIPv4 (pump : SM bool) (f : EthFrame) : SM unit :=
  match ParseIP4 (eth_Payload f) with
  | Ok pkt =>
      s ← getS;
      if decide (ip_Dst pkt ≠ s_IP s /\ ip_Dst pkt ≠ broadcastIP) then mret tt
      else
        _ ← modifyS (fun s => put_RxIPv4 (u64 (s_RxIPv4 s + 1)) s);
        if decide (ip_Proto pkt = IP4ProtoICMP) then handleICMP pump pkt
        else if decide (ip_Proto pkt = IP4ProtoUDP)
        then modifyS (fun s => put_udp (UDP_handle pkt (s_udp s)) s)
        else if decide (ip_Proto pkt = IP4ProtoTCP) then TCP_handle pump pkt
        else mret tt
  | _ => mret tt
  end.

Definition handleARP (f : EthFrame) : SM unit :=
  match ParseARP (eth_Payload f) with
  | Ok pkt =>
      _ ← modifyS (fun s => put_RxARP (u64 (s_RxARP s + 1)) s);
      _ ← (if IsZero (arp_SrcIP pkt) then mret tt else ARP_Update (arp_SrcIP pkt) (arp_SrcMAC pkt));
      s ← getS;
      if arp_Oper pkt =? ARPOpRequest then
        if decide (arp_DstIP pkt = s_IP s) then
          sink_Send (BuildEth (arp_SrcMAC pkt) (s_MAC s) EthTypeARP
            (ARP_Build (mkARP ARPOpReply (s_MAC s) (s_IP s) (arp_SrcMAC pkt) (arp_SrcIP pkt))))
        else mret tt
      else if arp_Oper pkt =? ARPOpReply then ARP_Update (arp_SrcIP pkt) (arp_SrcMAC pkt)
      else mret tt
  | _ => mret tt
  end.

Definition handleFrame (pump : SM bool) (raw : list byte) : SM unit :=
  match ParseEth raw with
  | Ok f =>
      s ← getS;
      if negb (bool_decide (eth_Dst f = s_MAC s)) && negb (IsBroadcast (eth_Dst f)) then mret tt
      else
        _ ← modifyS (fun s => put_RxEth (u64 (s_RxEth s + 1)) s);
        if eth_Type f =? EthTypeARP then handleARP f
        else if eth_Type f =? EthTypeIPv4 then handleIPv4 pump f
        else mret tt
  | _ => mret tt
  end.

(** [pump] pops one frame and handles it under [hmu].  [inner] is the [pump]
    that the handlers call back into while they wait. *)
Definition pump_body (inner : SM bool) : SM bool := fun s =>
  if s_hmu s then (Panic, s)
  else
    (let '(r, feed) := feed_Recv (s_feed s) in
     _ ← modifyS (put_feed feed);
     match r with
     | None => _ ← modifyS (put_hmu false); mret false
     | Some raw =>
         _ ← handleFrame inner raw;
         _ ← modifyS (put_hmu false); mret true
     end) (put_hmu true s).

(** While a frame is handled [hmu] is held, so the inner [pump] blocks on it;
    [pump_fixpoint] shows that this ties the recursive knot of the source. *)
Definition pump : SM bool := pump_body (fun s => (Panic, s)).

(** ** Clients of the stack *)

Definition echo_matches (id seq : Z) (payload : list byte) (r : ICMPPacket) : bool :=
  bool_decide (icmp_Type r = ICMPEchoReply) && (icmp_ID r =? id) && (icmp_Seq r =? seq)
  && bool_decide (icmp_Data r = payload).

(** The first buffered reply that matches, and the buffer without it. *)
Fixpoint take_echo (id seq : Z) (payload : list byte) (l : list ICMPPacket)
  : option (ICMPPacket * list ICMPPacket) :=
  match l with
  | [] => None
  | r :: l =>
      if echo_matches id seq payload r then Some (r, l)
      else match take_echo id seq payload l with
           | Some (m, rest) => Some (m, r :: rest)
           | None => None
           end
  end.

Fixpoint ping_loop (id seq : Z) (payload : list byte) (budget : nat) : SM ICMPPacket :=
  match budget with
  | O => throw ErrNoReplyNet
  | S budget =>
      s ← getS;
      match take_echo id seq payload (s_icmpIn s) with
      | Some (r, rest) => _ ← modifyS (put_icmpIn rest); mret r
      | None => _ ← pump; ping_loop id seq payload budget
      end
  end.

Definition Ping (dst : IP4) (id seq : Z) (payload : list byte) (budget : nat) : SM ICMPPacket :=
  _ ← sendIPv4 pump dst IP4ProtoICMP (ICMP_Build (mkICMP ICMPEchoRequest Byte.x00 id seq payload));
  ping_loop id seq payload budget.

Definition Stats (s : Stack) : Z * Z * Z * Z := (s_RxEth s, s_RxARP s, s_RxIPv4 s, s_RxICMP s).

(** [TCPStack.Dial] on this stack: the SYN leaves under the new connection's
    lock. *)
Definition Stack_Dial (laddr raddr : IP4) (rport : Z) : SM (option Z) :=
  s ← getS;
  match ephemeral (s_tcp s) with
  | None => mret None
  | Some (local, t) =>
      _ ← modifyS (put_tcp t);
      _ ← modifyS (put_conn local (newConn laddr local raddr rport stateSynSent 1000 None));
      _ ← with_conn pump local (fun c => (tt, sendLocked TCPSyn [] c));
      mret (Some local)
  end.
End Stack.
