(* ===== verification/NetStackFacts.v ===== *)
(** * NetStackFacts: the stack's receive and send paths

    The recursion through [pump] is tied exactly; a cached next hop makes the
    send path a plain function of the state; and the two ends of the send and
    receive paths meet. *)

From S2P Require Import Prelude Frame BlockDev Paths NetWire NetCodec NetRing NetTcp NetTcpStream NetStack.

Section Facts.
Context {F : Type} `{PacketFeed F}.
Implicit Types s : Stack (F:=F).

(** ** The recursive knot

    Two computations that agree, and keep [hmu] held, on every state in which
    [hmu] is held. *)

Definition held_same {A} (m1 m2 : SM (F:=F) A) : Prop :=
  forall s, s_hmu s = true -> m1 s = m2 s /\ s_hmu (snd (m1 s)) = true.

Lemma held_bind {A B} (m1 m2 : SM A) (f1 f2 : A -> SM B) :
  held_same m1 m2 -> (forall a, held_same (f1 a) (f2 a)) -> held_same (m1 ≫= f1) (m2 ≫= f2).
Proof.
  intros Hm Hf s Hs. unfold mbind, M_bind. destruct (Hm s Hs) as [<- Hs1].
  destruct (m1 s) as [[a|e|] s1]; [|done|done]. by apply Hf.
Qed.

Lemma held_ret {A} (a : A) : held_same (mret a) (mret a).
Proof. by intros s Hs. Qed.
Lemma held_get : held_same getS getS.
Proof. by intros s Hs. Qed.
Lemma held_throw {A} e : held_same (A:=A) (throw e) (throw e).
Proof. by intros s Hs. Qed.
Lemma held_lift {A} (o : outcome neterr A) : held_same (liftO o) (liftO o).
Proof. by intros s Hs. Qed.
Lemma held_modify (f : Stack -> Stack) :
  (forall s, s_hmu (f s) = s_hmu s) -> held_same (modifyS f) (modifyS f).
Proof. intros Hf s Hs. split; [done|]. cbn. by rewrite Hf. Qed.
Lemma held_send frame : held_same (sink_Send frame) (sink_Send frame).
Proof. by intros s Hs. Qed.
Lemma held_attempt {A} (m1 m2 : SM A) : held_same m1 m2 -> held_same (attempt m1) (attempt m2).
Proof.
  intros Hm s Hs. unfold attempt. destruct (Hm s Hs) as [<- Hs1]. by destruct (m1 s) as [[a|e|] s1].
Qed.
Lemma held_lock p : held_same (lock_conn p) (lock_conn p).
Proof. intros s Hs. split; [done|]. unfold lock_conn. by case_decide. Qed.

Ltac held :=
  repeat match goal with
  | |- held_same (_ ≫= _) (_ ≫= _) => apply held_bind; [|intros]
  | |- held_same (mret _) _ => apply held_ret
  | |- held_same getS _ => apply held_get
  | |- held_same (throw _) _ => apply held_throw
  | |- held_same (liftO _) _ => apply held_lift
  | |- held_same (sink_Send _) _ => apply held_send
  | |- held_same (lock_conn _) _ => apply held_lock
  | |- held_same (modifyS _) _ => apply held_modify; by intros []
  | |- held_same (attempt _) _ => apply held_attempt
  | |- held_same (match ?x with _ => _ end) _ => destruct x
  | H : held_same ?m _ |- held_same ?m _ => exact H
  end.

Section Inner.
Context (p1 p2 : SM (F:=F) bool) (Hp : held_same p1 p2).

Lemma held_resolve_loop ip n : held_same (resolve_loop p1 ip n) (resolve_loop p2 ip n).
Proof using Hp. induction n as [|n IH]; cbn [resolve_loop]; held. Qed.

Lemma held_Resolve ip n : held_same (Resolve p1 ip n) (Resolve p2 ip n).
Proof using Hp. unfold Resolve. held. apply held_resolve_loop. Qed.

Lemma held_sendIPv4From src dst pr pl :
  held_same (sendIPv4From p1 src dst pr pl) (sendIPv4From p2 src dst pr pl).
Proof using Hp. unfold sendIPv4From, nextHopMAC. held; apply held_Resolve. Qed.

Lemma held_sendIPv4 dst pr pl : held_same (sendIPv4 p1 dst pr pl) (sendIPv4 p2 dst pr pl).
Proof using Hp. unfold sendIPv4. held. apply held_sendIPv4From. Qed.

Lemma held_segments dst segs : held_same (send_segments p1 dst segs) (send_segments p2 dst segs).
Proof using Hp.
  induction segs as [|g segs IH]; cbn [send_segments]; held. unfold SendTCPSegment. held.
  apply held_sendIPv4.
Qed.

Lemma held_with_conn {A} p (op : TCPConn -> A * TCPConn) :
  held_same (with_conn p1 p op) (with_conn p2 p op).
Proof using Hp. unfold with_conn, unlock_conn, put_conn. held. apply held_segments. Qed.

Lemma held_handleFrame raw : held_same (handleFrame p1 raw) (handleFrame p2 raw).
Proof using Hp.
  unfold handleFrame, handleARP, handleIPv4, handleICMP, TCP_handle, ARP_Update. held;
    first [apply held_sendIPv4 | apply held_with_conn].
Qed.
End Inner.

(** The [pump] of the model is the one that calls itself. *)
Lemma pump_fixpoint s : pump s = pump_body pump s.
Proof.
  unfold pump at 1. unfold pump_body at 1 2. destruct (s_hmu s) eqn:Eh; [done|].
  destruct (feed_Recv (s_feed s)) as [r feed]. rewrite !bind_modifyS. destruct r as [raw|]; [|done].
  unfold mbind, M_bind.
  assert (Hp : held_same (fun s => (Panic, s)) pump).
  { intros t Ht. split; [|done]. unfold pump, pump_body. by rewrite Ht. }
  destruct (held_handleFrame _ _ Hp raw (put_feed feed (put_hmu true s)) eq_refl) as [-> _]. done.
Qed.

(** ** Sending to a known next hop *)

(** The address whose hardware address a frame for [dst] carries. *)
Definition next_hop (s : Stack (F:=F)) (dst : IP4) : option IP4 :=
  if onLink dst s then Some dst else if IsZero (s_Gateway s) then None else Some (s_Gateway s).

Definition hop_mac (s : Stack (F:=F)) (dst : IP4) : option MAC :=
  if decide (dst = broadcastIP) then Some BroadcastMAC
  else h ← next_hop s dst; s_arp s !! h.

(** The frame that carries an IPv4 packet. *)
Definition ip_frame (dst src : MAC) (pkt : IP4Packet) : list byte :=
  BuildEth dst src EthTypeIPv4 (ip_hdr pkt ++ ip_Payload pkt).

Definition sent_frame (frame : list byte) (s : Stack (F:=F)) : Stack :=
  put_feed (snd (feed_Send frame (s_feed s))) s.

Lemma Resolve_cached p ip n mac s : s_arp s !! ip = Some mac -> Resolve p ip n s = (Ok mac, s).
Proof. intros Ha. unfold Resolve, SM. rewrite bind_getS. unfold ARP_Lookup. by rewrite Ha. Qed.

Lemma nextHopMAC_cached p dst h mac s :
  next_hop s dst = Some h -> s_arp s !! h = Some mac -> nextHopMAC p dst s = (Ok mac, s).
Proof.
  intros Hn Ha. unfold nextHopMAC, next_hop, SM in *. rewrite bind_getS.
  destruct (onLink dst s); [|destruct (IsZero (s_Gateway s)); [done|]]; simplify_eq;
    by apply Resolve_cached.
Qed.

Lemma sendIPv4From_cached p src dst pr pl mac s :
  hop_mac s dst = Some mac -> zlen pl <= EthPayloadM - IP4HdrLen ->
  sendIPv4From p src dst pr pl s
  = (Ok tt, sent_frame (ip_frame mac (s_MAC s) (mkIP4Packet src dst pr Byte.x00 pl)) s).
Proof.
  intros Hm Hl. unfold sendIPv4From, hop_mac, SM in *.
  assert (Hmac : (if decide (dst = broadcastIP) then mret BroadcastMAC else nextHopMAC p dst) s
                 = (Ok mac, s)).
  { destruct (decide (dst = broadcastIP)); [by simplify_eq|].
    destruct (next_hop s dst) as [h|] eqn:Hn; [|done]. by apply (nextHopMAC_cached p dst h). }
  rewrite (bind_ok _ _ _ _ _ Hmac). rewrite IP4_Build_eq by done. rewrite bind_liftO, bind_getS. done.
Qed.

Lemma sendIPv4_cached p dst pr pl mac s :
  hop_mac s dst = Some mac -> zlen pl <= EthPayloadM - IP4HdrLen ->
  sendIPv4 p dst pr pl s
  = (Ok tt, sent_frame (ip_frame mac (s_MAC s) (mkIP4Packet (s_IP s) dst pr Byte.x00 pl)) s).
Proof. intros. unfold sendIPv4, SM. rewrite bind_getS. by apply sendIPv4From_cached. Qed.

(** The [pump] a handler sees: [hmu] is held. *)
Abbreviation blocked := (fun s => (Panic, s)).

(** An unknown next hop makes the send path wait for an answer, and the wait
    calls [pump]. *)
Lemma sendIPv4_blocked dst pr pl h s :
  dst ≠ broadcastIP -> next_hop s dst = Some h -> s_arp s !! h = None ->
  fst (sendIPv4 blocked dst pr pl s) = Panic.
Proof.
  intros Hb Hn Ha.
  assert (HR : forall n, fst (Resolve blocked h (S n) s) = Panic).
  { intros n. unfold Resolve, SM. rewrite bind_getS. unfold ARP_Lookup. rewrite Ha.
    unfold mbind, M_bind, sink_Send. cbn [resolve_loop].
    unfold mbind, M_bind, getS, ARP_Lookup. cbn [s_arp put_feed]. by rewrite Ha. }
  assert (HN : fst (nextHopMAC blocked dst s) = Panic).
  { unfold nextHopMAC, next_hop, SM in *. rewrite bind_getS.
    destruct (onLink dst s); [|destruct (IsZero (s_Gateway s)); [done|]]; simplify_eq; apply HR. }
  unfold sendIPv4, SM. rewrite bind_getS. unfold sendIPv4From, SM. rewrite decide_False by done.
  rewrite (bind_panic _ _ _ (snd (nextHopMAC blocked dst s))); [done|]. by apply outcome_eta.
Qed.

(** ** Receiving an IPv4 packet *)

Definition rx_eth s : Stack (F:=F) := put_RxEth (u64 (s_RxEth s + 1)) s.
Definition rx_ip s : Stack (F:=F) := put_RxIPv4 (u64 (s_RxIPv4 s + 1)) (rx_eth s).
Definition rx_icmp s : Stack (F:=F) := put_RxICMP (u64 (s_RxICMP s + 1)) (rx_ip s).

(** The packet as the receiver parses it. *)
Definition as_received (pkt : IP4Packet) : IP4Packet :=
  mkIP4Packet (ip_Src pkt) (ip_Dst pkt) (ip_Proto pkt) (ip_ttl pkt) (ip_Payload pkt).

Definition dispatch_proto (p : SM bool) (pkt : IP4Packet) : SM (F:=F) unit :=
  if decide (ip_Proto pkt = IP4ProtoICMP) then handleICMP p pkt
  else if decide (ip_Proto pkt = IP4ProtoUDP)
  then modifyS (fun s => put_udp (UDP_handle pkt (s_udp s)) s)
  else if decide (ip_Proto pkt = IP4ProtoTCP) then TCP_handle p pkt
  else mret tt.

Definition for_us (s : Stack (F:=F)) (dmac : MAC) (dst : IP4) : Prop :=
  (dmac = s_MAC s \/ dmac = BroadcastMAC) /\ (dst = s_IP s \/ dst = broadcastIP).

Lemma for_us_refl s : for_us s (s_MAC s) (s_IP s).
Proof. split; by left. Qed.

Lemma mac_accepted s dmac :
  dmac = s_MAC s \/ dmac = BroadcastMAC ->
  negb (bool_decide (dmac = s_MAC s)) && negb (IsBroadcast dmac) = false.
Proof.
  unfold IsBroadcast. intros [-> | ->]; rewrite ?bool_decide_true by done; [done|].
  by rewrite andb_false_r.
Qed.

Lemma handleFrame_ip p dmac src pkt s :
  for_us s dmac (ip_Dst pkt) -> zlen (ip_Payload pkt) <= EthPayloadM - IP4HdrLen ->
  handleFrame p (ip_frame dmac src pkt) s = dispatch_proto p (as_received pkt) (rx_ip s).
Proof.
  intros [Hm Hd] Hl. unfold handleFrame, ip_frame, SM. rewrite ParseEth_Build. rewrite bind_getS.
  cbn [eth_Dst eth_Type]. rewrite mac_accepted by done.
  rewrite bind_modifyS. change (u16 EthTypeIPv4 =? EthTypeARP) with false.
  change (u16 EthTypeIPv4 =? EthTypeIPv4) with true. cbv iota.
  unfold handleIPv4, SM. cbn [eth_Payload]. rewrite <- app_assoc, ParseIP4_hdr by done.
  rewrite bind_getS. rewrite decide_False by (cbn [ip_Dst s_IP put_RxEth]; intros [? ?]; tauto).
  rewrite bind_modifyS. reflexivity.
Qed.

Lemma handleFrame_foreign p raw f s :
  ParseEth raw = Ok f -> eth_Dst f ≠ s_MAC s -> eth_Dst f ≠ BroadcastMAC ->
  handleFrame p raw s = (Ok tt, s).
Proof.
  intros Hp H1 H2. unfold handleFrame, SM. rewrite Hp, bind_getS. unfold IsBroadcast.
  by rewrite !bool_decide_false by done.
Qed.

(** *** Echo *)

Definition echo_packet (src dst : IP4) (typ : byte) (id seq : Z) (data : list byte) : IP4Packet :=
  mkIP4Packet src dst IP4ProtoICMP Byte.x00 (ICMP_Build (mkICMP typ Byte.x00 id seq data)).

Lemma zlen_ICMP_Build c : zlen (ICMP_Build c) = 8 + zlen (icmp_Data c).
Proof.
  rewrite ICMP_Build_eq. unfold icmp_tail. rewrite !zlen_app.
  change (zlen [icmp_Type c; icmp_Code c]) with 2. change (zlen (be16 ?v)) with 2. lia.
Qed.

Definition ping_frame (s : Stack (F:=F)) (m : MAC) (src : IP4) (id seq : Z) (data : list byte) : list byte :=
  ip_frame (s_MAC s) m (echo_packet src (s_IP s) ICMPEchoRequest id seq data).

Lemma ping_frame_same s s1 m src id seq data :
  s_MAC s1 = s_MAC s -> s_IP s1 = s_IP s ->
  ping_frame s m src id seq data = ping_frame s1 m src id seq data.
Proof. unfold ping_frame. by intros -> ->. Qed.

Lemma handle_ping p m src id seq data s :
  0 <= id < 2 ^ 16 -> 0 <= seq < 2 ^ 16 -> zlen data <= 1484 ->
  handleFrame p (ping_frame s m src id seq data) s
  = (_ ← attempt (sendIPv4 p src IP4ProtoICMP
       (ICMP_Build (mkICMP ICMPEchoReply Byte.x00 id seq data))); mret tt) (rx_icmp s).
Proof.
  intros Hi Hs Hl. unfold ping_frame. rewrite handleFrame_ip; [|apply for_us_refl|].
  2:{ unfold echo_packet. cbn [ip_Payload]. rewrite zlen_ICMP_Build. cbn [icmp_Data].
      unfold EthPayloadM, MaxFrame, SlotDataLen, EthHdrLen, IP4HdrLen. lia. }
  unfold dispatch_proto, as_received, echo_packet, SM. cbn [ip_Proto ip_Payload ip_Src ip_Dst]. rewrite decide_True by done.
  unfold handleICMP, SM. cbn [ip_Payload ip_Src]. rewrite ParseICMP_Build by (cbn [icmp_Data]; lia).
  rewrite bind_modifyS. cbn [icmp_Type icmp_ID icmp_Seq icmp_Data]. rewrite decide_True by done.
  rewrite !u16_small by done. reflexivity.
Qed.

Lemma ping_answered p m src id seq data mac s :
  0 <= id < 2 ^ 16 -> 0 <= seq < 2 ^ 16 -> zlen data <= 1484 -> hop_mac s src = Some mac ->
  handleFrame p (ping_frame s m src id seq data) s
  = (Ok tt, sent_frame (ip_frame mac (s_MAC s) (echo_packet (s_IP s) src ICMPEchoReply id seq data))
              (rx_icmp s)).
Proof.
  intros Hi Hs Hl Hm. rewrite handle_ping by done.
  assert (Hsend := sendIPv4_cached p src IP4ProtoICMP
    (ICMP_Build (mkICMP ICMPEchoReply Byte.x00 id seq data)) mac (rx_icmp s)).
  rewrite (bind_ok _ _ _ (inr tt) (sent_frame (ip_frame mac (s_MAC s)
    (echo_packet (s_IP s) src ICMPEchoReply id seq data)) (rx_icmp s))); [done|].
  unfold attempt. rewrite Hsend; [done|exact Hm|]. rewrite zlen_ICMP_Build. cbn [icmp_Data].
  unfold EthPayloadM, MaxFrame, SlotDataLen, EthHdrLen, IP4HdrLen. lia.
Qed.

Lemma ping_blocks m src id seq data h feed s :
  0 <= id < 2 ^ 16 -> 0 <= seq < 2 ^ 16 -> zlen data <= 1484 ->
  src ≠ broadcastIP -> next_hop s src = Some h -> s_arp s !! h = None -> s_hmu s = false ->
  feed_Recv (s_feed s) = (Some (ping_frame s m src id seq data), feed) ->
  fst (pump s) = Panic.
Proof.
  intros Hi Hs Hl Hb Hn Ha Hh Hf. unfold pump, pump_body. rewrite Hh, Hf, bind_modifyS.
  set (s1 := put_feed feed (put_hmu true s)). rewrite (ping_frame_same s s1) by done.
  rewrite (bind_panic _ _ _ (snd (handleFrame blocked (ping_frame s1 m src id seq data) s1))); [done|].
  apply outcome_eta. rewrite handle_ping by done.
  pose proof (sendIPv4_blocked src IP4ProtoICMP (ICMP_Build (mkICMP ICMPEchoReply Byte.x00 id seq data))
    h (rx_icmp s1) Hb Hn Ha) as HP.
  unfold mbind, M_bind, attempt. by destruct (sendIPv4 _ _ _ _ _) as [[?|?|] ?].
Qed.

(** *** Datagrams *)

Definition deliver_udp (port : Z) (data : list byte) (d : UDPDemux) : UDPDemux :=
  match u_ports d !! port with Some q => UDP_push q data d | None => d end.

Definition udp_packet (src dst : IP4) (sport dport : Z) (data : list byte) : IP4Packet :=
  mkIP4Packet src dst IP4ProtoUDP Byte.x00 (UDP_Build (mkUDP sport dport data src dst)).

Lemma zlen_UDP_Build d : zlen (UDP_Build d) = 8 + zlen (udp_Data d).
Proof. rewrite UDP_Build_eq. unfold udp_front. rewrite !zlen_app. change (zlen (be16 ?v)) with 2. lia. Qed.

Lemma SendUDP_cached p dst sport dport data x y mac s :
  hop_mac s dst = Some mac -> zlen data <= MaxUDPPayload ->
  SendUDP p dst (mkUDP sport dport data x y) s
  = (Ok tt, sent_frame (ip_frame mac (s_MAC s) (udp_packet (s_IP s) dst sport dport data)) s).
Proof.
  intros Hm Hl. unfold SendUDP, SM. rewrite bind_getS. cbn [udp_SrcPort udp_DstPort udp_Data].
  apply sendIPv4_cached; [done|]. rewrite zlen_UDP_Build. cbn [udp_Data].
  unfold MaxUDPPayload, IP4HdrLen, UDPHdrLen in *. lia.
Qed.

Lemma handle_udp p dmac m src dst sport dport data s :
  for_us s dmac dst -> 0 <= dport < 2 ^ 16 -> zlen data <= MaxUDPPayload ->
  handleFrame p (ip_frame dmac m (udp_packet src dst sport dport data)) s
  = (Ok tt, put_udp (deliver_udp dport data (s_udp s)) (rx_ip s)).
Proof.
  intros Hu Hd Hl. rewrite handleFrame_ip; [|done|].
  2:{ unfold udp_packet. cbn [ip_Payload]. rewrite zlen_UDP_Build. cbn [udp_Data].
      unfold MaxUDPPayload, IP4HdrLen, UDPHdrLen in *. lia. }
  unfold dispatch_proto, as_received, udp_packet. cbn [ip_Proto ip_Payload ip_Src ip_Dst].
  rewrite decide_False, decide_True by done. unfold modifyS, UDP_handle. cbn [ip_Payload].
  pose proof (ParseUDP_Build (mkUDP sport dport data src dst) [] Hl) as Hp.
  rewrite app_nil_r in Hp. rewrite Hp. cbn [udp_DstPort udp_Data]. by rewrite u16_small.
Qed.

Lemma pump_udp dmac m src dst sport dport data feed s :
  s_hmu s = false -> for_us s dmac dst -> 0 <= dport < 2 ^ 16 -> zlen data <= MaxUDPPayload ->
  feed_Recv (s_feed s) = (Some (ip_frame dmac m (udp_packet src dst sport dport data)), feed) ->
  pump s = (Ok true, put_udp (deliver_udp dport data (s_udp s)) (rx_ip (put_feed feed s))).
Proof.
  intros Hh Hu Hd Hl Hf. unfold pump, pump_body. rewrite Hh, Hf, bind_modifyS.
  rewrite (bind_ok _ _ _ _ _ (handle_udp blocked dmac m src dst sport dport data
    (put_feed feed (put_hmu true s)) Hu Hd Hl)).
  rewrite bind_modifyS. destruct s. cbn in Hh. subst. reflexivity.
Qed.

(** *** Address resolution *)

Definition no_MAC : MAC := mkMAC Byte.x00 Byte.x00 Byte.x00 Byte.x00 Byte.x00 Byte.x00.

Definition arp_request (mac : MAC) (ip want : IP4) : list byte :=
  BuildEth BroadcastMAC mac EthTypeARP (ARP_Build (mkARP ARPOpRequest mac ip no_MAC want)).
Definition arp_reply (mac : MAC) (ip : IP4) (tmac : MAC) (tip : IP4) : list byte :=
  BuildEth tmac mac EthTypeARP (ARP_Build (mkARP ARPOpReply mac ip tmac tip)).

Definition learned (ip : IP4) (mac : MAC) (s : Stack (F:=F)) : Stack :=
  let s := put_RxARP (u64 (s_RxARP s + 1)) (rx_eth s) in put_arp (<[ip := mac]> (s_arp s)) s.

Lemma handleFrame_arp p dst src a s :
  dst = s_MAC s \/ dst = BroadcastMAC ->
  handleFrame p (BuildEth dst src EthTypeARP (ARP_Build a)) s
  = handleARP (mkEth dst src EthTypeARP (ARP_Build a ++ mkbuf (46 - zlen (ARP_Build a)))) (rx_eth s).
Proof.
  intros Hd. unfold handleFrame, SM. rewrite ParseEth_Build, bind_getS. cbn [eth_Dst eth_Type].
  by rewrite mac_accepted.
Qed.

Lemma handle_arp_request p mac ip s :
  IsZero ip = false ->
  handleFrame p (arp_request mac ip (s_IP s)) s
  = (Ok tt, sent_frame (arp_reply (s_MAC s) (s_IP s) mac ip) (learned ip mac s)).
Proof.
  intros Hz. unfold arp_request. rewrite handleFrame_arp by (by right). unfold handleARP, SM.
  cbn [eth_Payload]. rewrite ParseARP_Build, bind_modifyS.
  cbn [arp_SrcIP arp_SrcMAC arp_DstIP arp_Oper]. rewrite Hz. unfold ARP_Update.
  rewrite bind_modifyS, bind_getS. change (u16 ARPOpRequest =? ARPOpRequest) with true. cbv iota.
  by rewrite decide_True by done.
Qed.

Lemma handle_arp_reply p mac ip s :
  IsZero ip = false ->
  handleFrame p (arp_reply mac ip (s_MAC s) (s_IP s)) s = (Ok tt, learned ip mac s).
Proof.
  intros Hz. unfold arp_reply. rewrite handleFrame_arp by (by left). unfold handleARP, SM.
  cbn [eth_Payload]. rewrite ParseARP_Build, bind_modifyS.
  cbn [arp_SrcIP arp_SrcMAC arp_DstIP arp_Oper]. rewrite Hz. unfold ARP_Update.
  rewrite bind_modifyS, bind_getS. change (u16 ARPOpReply =? ARPOpRequest) with false.
  change (u16 ARPOpReply =? ARPOpReply) with true. cbv iota. unfold modifyS, learned. cbv zeta.
  f_equal. unfold put_arp at 1. cbn. by rewrite insert_insert_eq.
Qed.

(** The frame that [Resolve] broadcasts for an address it does not know. *)
Lemma Resolve_asks p ip n s :
  s_arp s !! ip = None ->
  Resolve p ip n s = resolve_loop p ip n (sent_frame (arp_request (s_MAC s) (s_IP s) ip) s).
Proof. intros Ha. unfold Resolve, ARP_Lookup, SM. rewrite bind_getS. by rewrite Ha. Qed.
End Facts.
