(* ===== verification/NetDhcp.v ===== *)
(** * NetDhcp: the DHCP client ([services/net/dhcp.go])

    The messages a client builds and parses, the DISCOVER/OFFER/REQUEST/ACK
    exchange over the stack, and the lease with its renewal deadlines and
    back-off.  The clock and the entropy source are the kernel's: a clock
    reading is an argument of each operation that reads it, [None] for a
    lease without a clock. *)

From S2P Require Import Prelude Frame BlockDev Paths NetWire NetRing NetTcp NetStack.

(** ** Constants *)

Definition dhcpFixedLen : Z := 236.
Definition dhcpMinLen : Z := dhcpFixedLen + 4.
Definition dhcpMagic : Z := 0x63825363.
Definition dhcpOpBootRequest : byte := Byte.x01.
Definition dhcpOpBootReply : byte := Byte.x02.
Definition dhcpHTypeEthernet : byte := Byte.x01.
Definition dhcpOptPad : byte := Byte.x00.
Definition dhcpOptSubnetMask : byte := Byte.x01.
Definition dhcpOptRouter : byte := Byte.x03.
Definition dhcpOptDNS : byte := Byte.x06.
Definition dhcpOptHostname : byte := Byte.x0c.
Definition dhcpOptRequestedIP : byte := Byte.x32.
Definition dhcpOptLeaseTime : byte := Byte.x33.
Definition dhcpOptMessageType : byte := Byte.x35.
Definition dhcpOptServerID : byte := Byte.x36.
Definition dhcpOptParamReqList : byte := Byte.x37.
Definition dhcpOptEnd : byte := Byte.xff.
Definition DHCPDiscover : byte := Byte.x01.
Definition DHCPOffer : byte := Byte.x02.
Definition DHCPRequest : byte := Byte.x03.
Definition DHCPACK : byte := Byte.x05.
Definition DHCPNAK : byte := Byte.x06.
Definition DHCPRelease : byte := Byte.x07.
Definition dhcpFlagBroadcast : Z := 0x8000.

(** ** Messages *)

Record DHCPMessage := mkDHCP {
  d_Op : byte; d_Xid : Z; d_Flags : Z;
  d_CIAddr : IP4; d_YIAddr : IP4; d_SIAddr : IP4; d_GIAddr : IP4; d_CHAddr : MAC;
  d_MsgType : byte; d_SubnetMask : IP4; d_Router : IP4; d_DNS : list IP4;
  d_LeaseTime : Z; d_ServerID : IP4;
  d_HasMask : bool; d_HasRouter : bool; d_HasLease : bool; d_HasServer : bool;
}.

Definition ip4From (b : list byte) : IP4 := mkIP4 (idx b 0) (idx b 1) (idx b 2) (idx b 3).

(** [dhcpPut16(b[off:off+2], v)] and [dhcpPut32(b[off:off+4], v)]. *)
Definition dhcpPut16 (b : list byte) (off v : Z) : list byte :=
  splice b off [z2b (Z.shiftr v 8); z2b v].
Definition dhcpPut32 (b : list byte) (off v : Z) : list byte :=
  splice b off [z2b (Z.shiftr v 24); z2b (Z.shiftr v 16); z2b (Z.shiftr v 8); z2b v].
Definition dhcpGet16 (b : list byte) : Z := Z.lor (Z.shiftl (b2z (idx b 0)) 8) (b2z (idx b 1)).
Definition dhcpGet32 (b : list byte) : Z :=
  Z.lor (Z.lor (Z.lor (Z.shiftl (b2z (idx b 0)) 24) (Z.shiftl (b2z (idx b 1)) 16))
    (Z.shiftl (b2z (idx b 2)) 8)) (b2z (idx b 3)).

Definition dhcpHeader (op : byte) (xid : Z) (mac : MAC) (flags : Z) : list byte :=
  let b := mkbuf dhcpMinLen in
  let b := splice b 0 [op] in
  let b := splice b 1 [dhcpHTypeEthernet] in
  let b := splice b 2 [Byte.x06] in
  let b := splice b 3 [Byte.x00] in
  let b := dhcpPut32 b 4 xid in
  let b := dhcpPut16 b 8 flags in
  let b := splice b 28 (mac_bytes mac) in
  dhcpPut32 b 236 dhcpMagic.

Definition dhcpOpt (b : list byte) (code : byte) (val : list byte) : list byte :=
  if zlen val =? 0 then b ++ [code; Byte.x00]
  else (b ++ [code; z2b (zlen val)]) ++ val.

Definition dhcpOptIP (b : list byte) (code : byte) (ip : IP4) : list byte :=
  dhcpOpt b code (splice (mkbuf 4) 0 (ip_bytes ip)).
Definition dhcpOptU32 (b : list byte) (code : byte) (v : Z) : list byte :=
  dhcpOpt b code (dhcpPut32 (mkbuf 4) 0 v).

(** The host name and parameter list options, as both requests end. *)
Definition dhcp_name_params (b hostname params : list byte) : list byte :=
  let b := if negb (bool_decide (hostname = []))
           then dhcpOpt b dhcpOptHostname
                  (if 63 <? zlen hostname then slice hostname 0 63 else hostname)
           else b in
  let b := if 0 <? zlen params
           then dhcpOpt b dhcpOptParamReqList
                  (if 255 <? zlen params then slice params 0 255 else params)
           else b in
  b ++ [dhcpOptEnd].

Definition BuildDiscover (mac : MAC) (xid : Z) (hostname params : list byte) : list byte :=
  let b := dhcpHeader dhcpOpBootRequest xid mac dhcpFlagBroadcast in
  let b := dhcpOpt b dhcpOptMessageType [DHCPDiscover] in
  dhcp_name_params b hostname params.

Definition BuildRequest (mac : MAC) (xid : Z) (offered serverID : IP4) (hostname params : list byte)
  : list byte :=
  let b := dhcpHeader dhcpOpBootRequest xid mac dhcpFlagBroadcast in
  let b := dhcpOpt b dhcpOptMessageType [DHCPRequest] in
  let b := dhcpOptIP b dhcpOptRequestedIP offered in
  let b := if negb (IsZero serverID) then dhcpOptIP b dhcpOptServerID serverID else b in
  dhcp_name_params b hostname params.

Definition BuildRelease (mac : MAC) (xid : Z) (addr serverID : IP4) : list byte :=
  let b := dhcpHeader dhcpOpBootRequest xid mac 0 in
  let b := dhcpOpt b dhcpOptMessageType [DHCPRelease] in
  let b := dhcpOptIP b dhcpOptServerID serverID in
  b ++ [dhcpOptEnd].

(** ** Parsing *)

Definition put_MsgType (v : byte) (m : DHCPMessage) : DHCPMessage :=
  mkDHCP (d_Op m) (d_Xid m) (d_Flags m) (d_CIAddr m) (d_YIAddr m) (d_SIAddr m) (d_GIAddr m) (d_CHAddr m)
    v (d_SubnetMask m) (d_Router m) (d_DNS m) (d_LeaseTime m) (d_ServerID m)
    (d_HasMask m) (d_HasRouter m) (d_HasLease m) (d_HasServer m).
Definition put_SubnetMask (v : IP4) (m : DHCPMessage) : DHCPMessage :=
  mkDHCP (d_Op m) (d_Xid m) (d_Flags m) (d_CIAddr m) (d_YIAddr m) (d_SIAddr m) (d_GIAddr m) (d_CHAddr m)
    (d_MsgType m) v (d_Router m) (d_DNS m) (d_LeaseTime m) (d_ServerID m)
    true (d_HasRouter m) (d_HasLease m) (d_HasServer m).
Definition put_Router (v : IP4) (m : DHCPMessage) : DHCPMessage :=
  mkDHCP (d_Op m) (d_Xid m) (d_Flags m) (d_CIAddr m) (d_YIAddr m) (d_SIAddr m) (d_GIAddr m) (d_CHAddr m)
    (d_MsgType m) (d_SubnetMask m) v (d_DNS m) (d_LeaseTime m) (d_ServerID m)
    (d_HasMask m) true (d_HasLease m) (d_HasServer m).
Definition put_DNS (v : list IP4) (m : DHCPMessage) : DHCPMessage :=
  mkDHCP (d_Op m) (d_Xid m) (d_Flags m) (d_CIAddr m) (d_YIAddr m) (d_SIAddr m) (d_GIAddr m) (d_CHAddr m)
    (d_MsgType m) (d_SubnetMask m) (d_Router m) v (d_LeaseTime m) (d_ServerID m)
    (d_HasMask m) (d_HasRouter m) (d_HasLease m) (d_HasServer m).
Definition put_LeaseTime (v : Z) (m : DHCPMessage) : DHCPMessage :=
  mkDHCP (d_Op m) (d_Xid m) (d_Flags m) (d_CIAddr m) (d_YIAddr m) (d_SIAddr m) (d_GIAddr m) (d_CHAddr m)
    (d_MsgType m) (d_SubnetMask m) (d_Router m) (d_DNS m) v (d_ServerID m)
    (d_HasMask m) (d_HasRouter m) true (d_HasServer m).
Definition put_ServerID (v : IP4) (m : DHCPMessage) : DHCPMessage :=
  mkDHCP (d_Op m) (d_Xid m) (d_Flags m) (d_CIAddr m) (d_YIAddr m) (d_SIAddr m) (d_GIAddr m) (d_CHAddr m)
    (d_MsgType m) (d_SubnetMask m) (d_Router m) (d_DNS m) (d_LeaseTime m) v
    (d_HasMask m) (d_HasRouter m) (d_HasLease m) true.

(** [for i := 0; i+4 <= l; i += 4]: the addresses of a resolver option. *)
Fixpoint dns_addrs (val : list byte) : list IP4 :=
  match val with
  | a :: b :: c :: d :: val => mkIP4 a b c d :: dns_addrs val
  | _ => []
  end.

(** The switch on one option. *)
Definition parse_option (code : byte) (val : list byte) (m : DHCPMessage) : outcome neterr DHCPMessage :=
  let l := zlen val in
  if decide (code = dhcpOptMessageType) then
    if negb (l =? 1) then Err errOptLen else Ok (put_MsgType (idx val 0) m)
  else if decide (code = dhcpOptSubnetMask) then
    if negb (l =? 4) then Err errOptLen else Ok (put_SubnetMask (ip4From val) m)
  else if decide (code = dhcpOptRouter) then
    Ok (if 4 <=? l then put_Router (ip4From (slice val 0 4)) m else m)
  else if decide (code = dhcpOptDNS) then Ok (put_DNS (d_DNS m ++ dns_addrs val) m)
  else if decide (code = dhcpOptLeaseTime) then
    Ok (if l =? 4 then put_LeaseTime (dhcpGet32 val) m else m)
  else if decide (code = dhcpOptServerID) then
    Ok (if l =? 4 then put_ServerID (ip4From val) m else m)
  else Ok m.

(** [b[i]] with Go's bounds check. *)
Definition go_index (b : list byte) (i : Z) : outcome neterr byte :=
  if (0 <=? i) && (i <? zlen b) then Ok (idx b i) else Panic.

(** The option loop; every round moves [off] forward, so [fuel] of the
    message's length is never used up. *)
Fixpoint parse_options (fuel : nat) (b : list byte) (off : Z) (m : DHCPMessage)
  : outcome neterr DHCPMessage :=
  match fuel with
  | O => Panic
  | S fuel =>
      if off <? zlen b then
        code ← go_index b off;
        if decide (code = dhcpOptPad) then parse_options fuel b (off + 1) m
        else if decide (code = dhcpOptEnd) then Ok m
        else if zlen b <=? off + 1 then Err errTruncated
        else
          lb ← go_index b (off + 1);
          let l := b2z lb in
          if zlen b <? off + 2 + l then Err errTruncated
          else
            val ← go_slice b (off + 2) (off + 2 + l);
            m ← parse_option code val m;
            parse_options fuel b (off + 2 + l) m
      else Err errNoEnd
  end.

Definition dhcp_fixed (b : list byte) : DHCPMessage :=
  mkDHCP (idx b 0) (dhcpGet32 (slice b 4 8)) (dhcpGet16 (slice b 8 10))
    (ip4From (slice b 12 16)) (ip4From (slice b 16 20)) (ip4From (slice b 20 24))
    (ip4From (slice b 24 28)) (mac_at b 28)
    Byte.x00 IP4_zero IP4_zero [] 0 IP4_zero false false false false.

Definition ParseDHCP (b : list byte) : outcome neterr DHCPMessage :=
  if zlen b <? dhcpMinLen then Err errShort
  else if negb (dhcpGet32 (slice b 236 240) =? dhcpMagic) then Err errMagic
  else if bool_decide (idx b 1 ≠ dhcpHTypeEthernet) || bool_decide (idx b 2 ≠ Byte.x06)
  then Err errHType
  else parse_options (length b) b dhcpMinLen (dhcp_fixed b).

(** ** The exchange *)

Record Offer := mkOffer {
  o_YIAddr : IP4; o_Netmask : IP4; o_Router : IP4; o_DNS : list IP4;
  o_LeaseTime : Z; o_ServerID : IP4;
}.

Definition no_Offer : Offer := mkOffer IP4_zero IP4_zero IP4_zero [] 0 IP4_zero.

Definition OfferFrom (m : DHCPMessage) : option Offer :=
  if bool_decide (d_MsgType m ≠ DHCPOffer) && bool_decide (d_MsgType m ≠ DHCPACK) then None
  else if IsZero (d_YIAddr m) then None
  else Some (mkOffer (d_YIAddr m) (d_SubnetMask m) (d_Router m) (d_DNS m) (d_LeaseTime m) (d_ServerID m)).

Definition dhcpClientPort : Z := 68.
Definition dhcpServerPort : Z := 67.
Definition dhcpZeroSource : IP4 := IP4_zero.

Definition DefaultDHCPOptions : list byte :=
  [dhcpOptSubnetMask; dhcpOptRouter; dhcpOptDNS; dhcpOptLeaseTime].

(** [read] is what the entropy source gave for the four bytes. *)
Definition NewXID (read : outcome neterr (list byte)) : outcome neterr Z :=
  b ← read; mret (dhcpGet32 b).

Section Client.
Context {F : Type} `{PacketFeed F}.
Abbreviation SM := (SM (F:=F)).

Definition sendDHCP (msg : list byte) : SM unit :=
  sendIPv4From pump dhcpZeroSource broadcastIP IP4ProtoUDP
    (UDP_Build (mkUDP dhcpClientPort dhcpServerPort msg dhcpZeroSource broadcastIP)).

Definition sendDHCPRelease (serverID : IP4) : SM unit :=
  s ← getS;
  let ip := s_IP s in
  let xid := Z.lor (Z.lor (Z.lor (Z.shiftl (b2z (a0 ip)) 24) (Z.shiftl (b2z (a1 ip)) 16))
               (Z.shiftl (b2z (a2 ip)) 8)) (b2z (a3 ip)) in
  let msg := BuildRelease (s_MAC s) xid ip serverID in
  sendIPv4From pump ip serverID IP4ProtoUDP
    (UDP_Build (mkUDP dhcpClientPort dhcpServerPort msg ip serverID)).

(** The inner loop of [awaitDHCP]: queued datagrams until one matches [xid]
    or the queue, of at most [fuel] datagrams, is empty. *)
Fixpoint drain_dhcp (fuel : nat) (q : nat) (xid : Z) (d : UDPDemux) : option DHCPMessage * UDPDemux :=
  match fuel with
  | O => (None, d)
  | S fuel =>
      match UDP_Recv q d with
      | (None, d) => (None, d)
      | (Some raw, d) =>
          match ParseDHCP raw with
          | Ok m => if d_Xid m =? xid then (Some m, d) else drain_dhcp fuel q xid d
          | _ => drain_dhcp fuel q xid d
          end
      end
  end.

Definition queued (q : nat) (d : UDPDemux) : nat := length (default [] (u_queues d !! q)).

Fixpoint awaitDHCP (q : nat) (xid : Z) (budget : nat) : SM DHCPMessage :=
  match budget with
  | O => throw errNoReply
  | S budget =>
      s ← getS;
      let '(r, d) := drain_dhcp (queued q (s_udp s)) q xid (s_udp s) in
      _ ← modifyS (put_udp d);
      match r with
      | Some m => mret m
      | None => _ ← pump; awaitDHCP q xid budget
      end
  end.

Fixpoint discover_loop (q : nat) (xid : Z) (discover : list byte) (budget tries : nat) : SM Offer :=
  match tries with
  | O => mret no_Offer
  | S tries =>
      let again := discover_loop q xid discover budget tries in
      sent ← attempt (sendDHCP discover);
      match sent with
      | inl _ => again
      | inr _ =>
          r ← attempt (awaitDHCP q xid budget);
          match r with
          | inl _ => again
          | inr m =>
              if decide (d_MsgType m ≠ DHCPOffer) then again
              else match OfferFrom m with
                   | None => again
                   | Some o => mret o
                   end
          end
      end
  end.

Fixpoint request_loop (q : nat) (xid : Z) (offer : Offer) (request : list byte) (budget tries : nat)
  : SM Offer :=
  match tries with
  | O => throw errNoAck
  | S tries =>
      let again := request_loop q xid offer request budget tries in
      sent ← attempt (sendDHCP request);
      match sent with
      | inl _ => again
      | inr _ =>
          r ← attempt (awaitDHCP q xid budget);
          match r with
          | inl _ => again
          | inr m =>
              if decide (d_MsgType m = DHCPACK) then
                match OfferFrom m with
                | Some a => mret (mkOffer (o_YIAddr a) (o_Netmask a) (o_Router a) (o_DNS a)
                                    (o_LeaseTime a) (o_ServerID offer))
                | None => again
                end
              else again
          end
      end
  end.

(** The deferred [Unbind] runs on every return. *)
Definition DHCPAcquire (xid : Z) (hostname params : list byte) (tries budget : nat) : SM Offer :=
  s ← getS;
  let '(q, _, d) := UDP_Bind dhcpClientPort (s_udp s) in
  _ ← modifyS (put_udp d);
  r ← attempt (
    offer ← discover_loop q xid (BuildDiscover (s_MAC s) xid hostname params) budget tries;
    if IsZero (o_YIAddr offer) then throw errNoOffer
    else request_loop q xid offer
           (BuildRequest (s_MAC s) xid (o_YIAddr offer) (o_ServerID offer) hostname params)
           budget tries);
  _ ← modifyS (fun s => put_udp (UDP_Unbind dhcpClientPort (s_udp s)) s);
  match r with inl e => throw e | inr o => mret o end.

Definition renewHostname : list byte := bs "net".
Definition renewTries : nat := 3.
Definition renewBudget : nat := Z.to_nat 20000.

Definition adopt (o : Offer) (s : Stack (F:=F)) : Stack :=
  put_Gateway (o_Router o) (put_Netmask (o_Netmask o) (put_IP (o_YIAddr o) s)).

(** The renewal step; [entropy] is what the source gives on this call. *)
Definition NewRenewer (entropy : outcome neterr (list byte)) : SM Offer :=
  xid ← liftO (NewXID entropy);
  o ← DHCPAcquire xid renewHostname DefaultDHCPOptions renewTries renewBudget;
  _ ← modifyS (adopt o);
  mret o.
End Client.

(** ** Leases *)

Record Lease := mkLease {
  l_Offer : Offer; l_GrantedMs : Z; l_clock : bool;
  l_renewFailures : Z; l_renewNextMs : Z; l_renewBackoffMs : Z;
}.

Definition renewBackoffInitialMs : Z := 1000.
Definition renewBackoffMaxMs : Z := 60000.

Definition NewLease (o : Offer) (clock : bool) : Lease :=
  mkLease o (if 0 <? o_LeaseTime o then u64 (o_LeaseTime o * 1000) else 0) clock 0 0 0.

Definition T1Ms (l : Lease) : Z := l_GrantedMs l / 2.
Definition T2Ms (l : Lease) : Z := u64 (l_GrantedMs l * 7) / 8.

(** [clk] is the clock's reading at the call. *)
Definition BackoffMs (clk : Z) (l : Lease) : Z :=
  if l_renewNextMs l =? 0 then 0
  else if negb (l_clock l) then 0
  else if clk <? l_renewNextMs l then l_renewNextMs l - clk
  else 0.

Definition RecordRenewResult (ok : bool) (clk : Z) (l : Lease) : Lease :=
  if ok then mkLease (l_Offer l) (l_GrantedMs l) (l_clock l) 0 0 0
  else
    let failures := u64 (l_renewFailures l + 1) in
    let backoff :=
      if l_renewBackoffMs l =? 0 then renewBackoffInitialMs
      else
        let b := u64 (l_renewBackoffMs l * 2) in
        if renewBackoffMaxMs <? b then renewBackoffMaxMs else b in
    let next := if l_clock l then u64 (clk + backoff) else l_renewNextMs l in
    mkLease (l_Offer l) (l_GrantedMs l) (l_clock l) failures next backoff.

(** [Due(nowMs)]; [clk] is the reading that [BackoffMs] takes. *)
Definition Due (nowMs clk : Z) (l : Lease) : bool * bool :=
  if (l_GrantedMs l =? 0) || negb (l_clock l) then (false, false)
  else if 0 <? BackoffMs clk l then (false, false)
  else if T2Ms l <=? nowMs then (false, true)
  else (T1Ms l <=? nowMs, false).

Definition Expired (nowMs : Z) (l : Lease) : bool :=
  if (l_GrantedMs l =? 0) || negb (l_clock l) then false
  else T2Ms l <=? nowMs.
