(* ===== verification/NetDhcpFacts.v ===== *)
(** * NetDhcpFacts: the DHCP client's messages and its exchange

    The option loop is total on any input; a message made of a header and an
    encoded list of options parses to the fold of its options, and no proper
    prefix of it parses; one answered DISCOVER and one answered REQUEST make
    a lease. *)

From S2P Require Import Prelude Frame BlockDev Paths NetWire NetCodec NetRing NetTcp NetStack.
From S2P Require Import NetStackFacts NetDhcp.

(** ** Totality *)

Lemma go_index_ok b i : 0 <= i < zlen b -> go_index b i = Ok (idx b i).
Proof.
  intros. unfold go_index. by rewrite (proj2 (Z.leb_le _ _)), (proj2 (Z.ltb_lt _ _)) by lia.
Qed.

Lemma parse_option_total code val m : parse_option code val m ≠ Panic.
Proof. unfold parse_option. repeat case_match; done. Qed.

Lemma parse_options_total fuel : forall b off m,
  0 <= off <= zlen b -> zlen b - off < Z.of_nat fuel -> parse_options fuel b off m ≠ Panic.
Proof.
  induction fuel as [|fuel IH]; intros b off m H0 Hf; cbn [parse_options].
  { lia. }
  destruct (Z.ltb_spec off (zlen b)) as [Hlt|]; [|done].
  rewrite (go_index_ok b off) by lia. cbn [mbind outcome_bind].
  destruct (decide (idx b off = dhcpOptPad)); [apply IH; lia|].
  destruct (decide (idx b off = dhcpOptEnd)); [done|].
  destruct (Z.leb_spec (zlen b) (off + 1)) as [|H1]; [done|].
  rewrite go_index_ok by lia. cbn [mbind outcome_bind]. cbv zeta.
  pose proof (b2z_range (idx b (off + 1))) as Hl.
  destruct (Z.ltb_spec (zlen b) (off + 2 + b2z (idx b (off + 1)))) as [|H2]; [done|].
  rewrite go_slice_ok by lia. cbn [mbind outcome_bind].
  pose proof (parse_option_total (idx b off)
    (slice b (off + 2) (off + 2 + b2z (idx b (off + 1)))) m) as Hp.
  destruct (parse_option _ _ m); cbn [mbind outcome_bind]; [apply IH; lia|done|done].
Qed.

Lemma ParseDHCP_total b : ParseDHCP b ≠ Panic.
Proof.
  unfold ParseDHCP. destruct (Z.ltb_spec (zlen b) dhcpMinLen) as [|Hl]; [done|].
  destruct (negb _); [done|]. destruct (_ || _); [done|].
  unfold dhcpMinLen, dhcpFixedLen in *. apply parse_options_total; unfold zlen in *; lia.
Qed.

(** ** Encoded options *)

Definition dhcp_option : Type := byte * list byte.

Definition enc_opt (o : dhcp_option) : list byte := fst o :: z2b (zlen (snd o)) :: snd o.
Fixpoint enc_opts (os : list dhcp_option) : list byte :=
  match os with [] => [] | o :: os => enc_opt o ++ enc_opts os end.

Definition opt_ok (o : dhcp_option) : Prop :=
  fst o ≠ dhcpOptPad /\ fst o ≠ dhcpOptEnd /\ zlen (snd o) <= 255.

(** What the options say, read from left to right. *)
Fixpoint apply_options (os : list dhcp_option) (m : DHCPMessage) : outcome neterr DHCPMessage :=
  match os with
  | [] => Ok m
  | (code, val) :: os => m ← parse_option code val m; apply_options os m
  end.

Lemma idx_at (pre : list byte) x post : idx (pre ++ x :: post) (zlen pre) = x.
Proof. unfold idx, zlen. by rewrite Nat2Z.id, list_lookup_middle. Qed.

Lemma slice_at (pre val post : list byte) n :
  n = zlen val -> slice (pre ++ val ++ post) (zlen pre) (zlen pre + n) = val.
Proof.
  intros ->. unfold slice. replace (zlen pre + zlen val - zlen pre) with (zlen val) by lia.
  unfold zlen. by rewrite !Nat2Z.id, drop_app_length, take_app_length.
Qed.

(** One round of the loop on an option of which [t] follows. *)
Lemma parse_options_step fuel pre code val t m :
  opt_ok (code, val) ->
  parse_options (S fuel) (pre ++ enc_opt (code, val) ++ t) (zlen pre) m
  = (m ← parse_option code val m;
     parse_options fuel (pre ++ enc_opt (code, val) ++ t) (zlen (pre ++ enc_opt (code, val))) m).
Proof.
  intros (Hp & He & Hl). pose proof (zlen_nonneg val). pose proof (zlen_nonneg t).
  pose proof (zlen_nonneg pre). cbn [fst snd] in *.
  assert (Hz : b2z (z2b (zlen val)) = zlen val) by (rewrite b2z_z2b; apply Z.mod_small; lia).
  set (b := pre ++ enc_opt (code, val) ++ t).
  assert (Hb : zlen b = zlen pre + 2 + zlen val + zlen t).
  { unfold b, enc_opt. cbn [fst snd]. rewrite !zlen_app, !zlen_cons. lia. }
  assert (E0 : idx b (zlen pre) = code) by apply idx_at.
  assert (E1 : idx b (zlen pre + 1) = z2b (zlen val)).
  { unfold b, enc_opt. cbn [fst snd app]. rewrite (cons_middle code).
    rewrite app_assoc. replace (zlen pre + 1) with (zlen (pre ++ [code])) by (rewrite zlen_app; done).
    apply idx_at. }
  assert (E2 : slice b (zlen pre + 2) (zlen pre + 2 + zlen val) = val).
  { unfold b, enc_opt. cbn [fst snd app].
    replace (pre ++ code :: z2b (zlen val) :: val ++ t) with ((pre ++ [code; z2b (zlen val)]) ++ val ++ t)
      by (rewrite <- app_assoc; done).
    replace (zlen pre + 2) with (zlen (pre ++ [code; z2b (zlen val)])) by (rewrite zlen_app; done).
    by apply slice_at. }
  assert (E3 : zlen (pre ++ enc_opt (code, val)) = zlen pre + 2 + zlen val).
  { rewrite zlen_app. unfold enc_opt. cbn [fst snd]. rewrite !zlen_cons. lia. }
  clearbody b. cbn [parse_options]. rewrite (proj2 (Z.ltb_lt _ _)), (go_index_ok b (zlen pre)), E0 by lia.
  cbn [mbind outcome_bind]. rewrite !decide_False by done.
  rewrite (proj2 (Z.leb_gt _ _)), go_index_ok, E1 by lia. cbn [mbind outcome_bind]. cbv zeta.
  rewrite Hz, (proj2 (Z.ltb_ge _ _)), go_slice_ok, E2, E3 by lia. done.
Qed.

Lemma parse_options_spec os : forall fuel pre rest m,
  Forall opt_ok os -> (length os < fuel)%nat ->
  parse_options fuel (pre ++ enc_opts os ++ dhcpOptEnd :: rest) (zlen pre) m = apply_options os m.
Proof.
  induction os as [|[code val] os IH]; intros fuel pre rest m Hok Hf;
    (destruct fuel as [|fuel]; [cbn in Hf; lia|]).
  - cbn [enc_opts app]. pose proof (zlen_nonneg rest). pose proof (zlen_nonneg pre).
    cbn [parse_options]. rewrite zlen_app, zlen_cons, (proj2 (Z.ltb_lt _ _)) by lia.
    rewrite (go_index_ok _ (zlen pre)), idx_at by (rewrite zlen_app, zlen_cons; lia). cbn [mbind outcome_bind].
    rewrite decide_False, decide_True by done. done.
  - apply Forall_cons in Hok as [Ho Hok]. cbn [enc_opts].
    rewrite <- app_assoc. rewrite parse_options_step by done. cbn [apply_options].
    destruct (parse_option code val m) as [m'| |]; cbn [mbind outcome_bind]; [|done|done].
    rewrite app_assoc. apply IH; [done|]. cbn in Hf. lia.
Qed.

(** An option list that breaks off before its end option is refused. *)
Lemma parse_options_cut os : forall fuel pre n m m',
  Forall opt_ok os -> parse_options fuel (pre ++ take n (enc_opts os)) (zlen pre) m ≠ Ok m'.
Proof.
  induction os as [|[code val] os IH]; intros fuel pre n m m' Hok;
    (destruct fuel as [|fuel]; [done|]).
  { cbn [enc_opts]. rewrite take_nil, app_nil_r. cbn [parse_options].
    rewrite (proj2 (Z.ltb_ge _ _)) by lia. done. }
  apply Forall_cons in Hok as [Ho Hok]. cbn [enc_opts].
  destruct (decide (length (enc_opt (code, val)) <= n)%nat) as [Hn|Hn].
  - rewrite take_app_ge by done. rewrite parse_options_step by done.
    destruct (parse_option code val m) as [m1|e|]; cbn [mbind outcome_bind]; [|done|done].
    rewrite app_assoc. by apply IH.
  - rewrite take_app_le by lia. destruct Ho as (Hp & He & Hl). cbn [fst snd] in *.
    pose proof (zlen_nonneg val). pose proof (zlen_nonneg pre).
    cbn [enc_opt fst snd length] in Hn. unfold enc_opt. cbn [fst snd].
    destruct n as [|[|n]]; cbn [take]; cbn [parse_options].
    + rewrite app_nil_r, (proj2 (Z.ltb_ge _ _)) by lia. done.
    + rewrite zlen_app. change (zlen [code]) with 1. rewrite (proj2 (Z.ltb_lt _ _)) by lia.
      rewrite (go_index_ok _ (zlen pre)), idx_at by (rewrite zlen_app; change (zlen [code]) with 1; lia).
      cbn [mbind outcome_bind]. rewrite !decide_False, (proj2 (Z.leb_le _ _)) by (done || lia). done.
    + set (b := pre ++ _). assert (Hb : zlen b = zlen pre + 2 + zlen (take n val)).
      { unfold b. rewrite zlen_app, !zlen_cons. lia. }
      assert (Ht : zlen (take n val) < zlen val) by (unfold zlen; rewrite length_take; lia).
      pose proof (zlen_nonneg (take n val)).
      assert (E0 : idx b (zlen pre) = code) by apply idx_at.
      assert (E1 : idx b (zlen pre + 1) = z2b (zlen val)).
      { unfold b. rewrite (cons_middle code), app_assoc.
        replace (zlen pre + 1) with (zlen (pre ++ [code])) by (rewrite zlen_app; done). apply idx_at. }
      clearbody b. rewrite (proj2 (Z.ltb_lt _ _)), (go_index_ok b (zlen pre)), E0 by lia.
      cbn [mbind outcome_bind]. rewrite !decide_False by done.
      rewrite (proj2 (Z.leb_gt _ _)), go_index_ok, E1 by lia. cbn [mbind outcome_bind]. cbv zeta.
      rewrite b2z_z2b, Z.mod_small, (proj2 (Z.ltb_lt _ _)) by lia. done.
Qed.

(** ** Whole messages *)

Definition dhcp_hdr (op : byte) (xid : Z) (mac : MAC) (flags : Z) : list byte :=
  [op; dhcpHTypeEthernet; Byte.x06; Byte.x00] ++ be32 xid ++ be16 flags ++ mkbuf 18
  ++ mac_bytes mac ++ mkbuf 202 ++ be32 dhcpMagic.

Lemma dhcpHeader_eq op xid mac flags : dhcpHeader op xid mac flags = dhcp_hdr op xid mac flags.
Proof. reflexivity. Qed.

Definition fresh_message (op : byte) (xid : Z) (mac : MAC) (flags : Z) : DHCPMessage :=
  mkDHCP op (u32 xid) (u16 flags) IP4_zero IP4_zero IP4_zero IP4_zero mac
    Byte.x00 IP4_zero IP4_zero [] 0 IP4_zero false false false false.

Lemma dhcp_fixed_hdr op xid mac flags t :
  dhcp_fixed (dhcp_hdr op xid mac flags ++ t) = fresh_message op xid mac flags.
Proof.
  unfold fresh_message. rewrite <- be32_join, <- be16_join. destruct mac. reflexivity.
Qed.

Lemma zlen_dhcp_hdr op xid mac flags : zlen (dhcp_hdr op xid mac flags) = 240.
Proof. reflexivity. Qed.

Lemma ParseDHCP_hdr op xid mac flags t :
  ParseDHCP (dhcp_hdr op xid mac flags ++ t)
  = parse_options (length (dhcp_hdr op xid mac flags ++ t)) (dhcp_hdr op xid mac flags ++ t)
      (zlen (dhcp_hdr op xid mac flags)) (fresh_message op xid mac flags).
Proof.
  pose proof (zlen_nonneg t). unfold ParseDHCP. rewrite dhcp_fixed_hdr, zlen_dhcp_hdr.
  rewrite (proj2 (Z.ltb_ge _ _))
    by (rewrite zlen_app, zlen_dhcp_hdr; unfold dhcpMinLen, dhcpFixedLen; lia).
  reflexivity.
Qed.

Lemma length_enc_opts os : (length os <= length (enc_opts os))%nat.
Proof.
  induction os as [|[c v] os IH]; [done|]. cbn [enc_opts].
  rewrite length_app. unfold enc_opt. cbn [length fst snd]. lia.
Qed.

(** A header and encoded options parse to what the options say. *)
Lemma ParseDHCP_encoded op xid mac flags os rest :
  Forall opt_ok os ->
  ParseDHCP (dhcp_hdr op xid mac flags ++ enc_opts os ++ dhcpOptEnd :: rest)
  = apply_options os (fresh_message op xid mac flags).
Proof.
  intros Hok. rewrite ParseDHCP_hdr. apply parse_options_spec; [done|].
  rewrite !length_app. pose proof (length_enc_opts os). cbn [length]. lia.
Qed.

(** A proper prefix of it never parses. *)
Lemma ParseDHCP_cut op xid mac flags os n :
  Forall opt_ok os ->
  (n < length (dhcp_hdr op xid mac flags ++ enc_opts os ++ [dhcpOptEnd]))%nat ->
  exists e, ParseDHCP (take n (dhcp_hdr op xid mac flags ++ enc_opts os ++ [dhcpOptEnd])) = Err e.
Proof.
  intros Hok Hn.
  match goal with |- exists e, ?x = _ => assert (forall m', x ≠ Ok m') as Hno end.
  2:{ pose proof (ParseDHCP_total (take n (dhcp_hdr op xid mac flags ++ enc_opts os ++ [dhcpOptEnd]))).
      destruct (ParseDHCP _) as [m'|e|]; [by destruct (Hno m')|eauto|done]. }
  intros m'. set (h := dhcp_hdr op xid mac flags) in *.
  assert (Hh : length h = 240%nat) by reflexivity.
  destruct (decide (240 <= n)%nat) as [Hge|Hlt].
  - rewrite take_app_ge by lia. rewrite !length_app in Hn. cbn [length] in Hn.
    rewrite take_app_le by lia.
    unfold h. rewrite ParseDHCP_hdr. by apply parse_options_cut.
  - unfold ParseDHCP. rewrite (proj2 (Z.ltb_lt _ _)); [done|].
    unfold zlen. rewrite length_take, !length_app, Hh. unfold dhcpMinLen, dhcpFixedLen. lia.
Qed.

(** ** The client's messages as encodings *)

Lemma dhcpOpt_eq b code val : dhcpOpt b code val = b ++ enc_opt (code, val).
Proof.
  unfold dhcpOpt, enc_opt. cbn [fst snd]. destruct val as [|x val]; [done|].
  rewrite (proj2 (Z.eqb_neq _ _)) by (rewrite zlen_cons; pose proof (zlen_nonneg val); lia).
  by rewrite <- app_assoc.
Qed.

Definition name_params (hostname params : list byte) : list dhcp_option :=
  (if decide (hostname = []) then []
   else [(dhcpOptHostname, if 63 <? zlen hostname then slice hostname 0 63 else hostname)])
  ++ (if decide (params = []) then []
      else [(dhcpOptParamReqList, if 255 <? zlen params then slice params 0 255 else params)]).

Lemma enc_opts_app os1 os2 : enc_opts (os1 ++ os2) = enc_opts os1 ++ enc_opts os2.
Proof. induction os1; cbn [enc_opts app]; [done|]. by rewrite IHos1, app_assoc. Qed.

Lemma dhcp_name_params_eq b h p :
  dhcp_name_params b h p = b ++ enc_opts (name_params h p) ++ [dhcpOptEnd].
Proof.
  unfold dhcp_name_params, name_params. rewrite enc_opts_app.
  assert (Hp : (0 <? zlen p) = negb (bool_decide (p = []))).
  { destruct p as [|x p]; [done|]. rewrite zlen_cons. pose proof (zlen_nonneg p).
    rewrite (proj2 (Z.ltb_lt _ _)) by lia. by rewrite bool_decide_false. }
  rewrite Hp.
  destruct (decide (h = [])) as [Eh|Eh]; [rewrite (bool_decide_true _ Eh)|rewrite (bool_decide_false _ Eh)];
  (destruct (decide (p = [])) as [Ep|Ep];
    [rewrite (bool_decide_true _ Ep)|rewrite (bool_decide_false _ Ep)]);
  cbn [negb enc_opts app]; cbv zeta; rewrite ?dhcpOpt_eq, <- ?app_assoc, ?app_nil_r; done.
Qed.

Lemma trunc_len (l : list byte) n : 0 <= n -> zlen (if n <? zlen l then slice l 0 n else l) <= n.
Proof.
  intros Hn. destruct (Z.ltb_spec n (zlen l)); [|lia]. rewrite zlen_slice by lia. lia.
Qed.

Lemma name_params_ok h p : Forall opt_ok (name_params h p).
Proof.
  pose proof (trunc_len h 63 ltac:(lia)). pose proof (trunc_len p 255 ltac:(lia)).
  unfold name_params. apply Forall_app. split; case_decide; try constructor; try done;
    (split; [done|split; [done|cbn [snd]; lia]]).
Qed.

Lemma apply_options_app os1 os2 m :
  apply_options (os1 ++ os2) m = (m ← apply_options os1 m; apply_options os2 m).
Proof.
  revert m. induction os1 as [|[c v] os1 IH]; intros m; cbn [apply_options app]; [done|].
  destruct (parse_option c v m); cbn [mbind outcome_bind]; [apply IH|done|done].
Qed.

Lemma name_params_silent h p m : apply_options (name_params h p) m = Ok m.
Proof. unfold name_params. by do 2 case_decide. Qed.

Definition ip_option (code : byte) (ip : IP4) : dhcp_option := (code, ip_bytes ip).

Lemma dhcpOptIP_eq b code ip : dhcpOptIP b code ip = b ++ enc_opt (ip_option code ip).
Proof. unfold dhcpOptIP. rewrite dhcpOpt_eq. by destruct ip. Qed.

Definition discover_opts (h p : list byte) : list dhcp_option :=
  (dhcpOptMessageType, [DHCPDiscover]) :: name_params h p.
Definition request_opts (offered server : IP4) (h p : list byte) : list dhcp_option :=
  (dhcpOptMessageType, [DHCPRequest]) :: ip_option dhcpOptRequestedIP offered
  :: (if IsZero server then [] else [ip_option dhcpOptServerID server]) ++ name_params h p.
Definition release_opts (server : IP4) : list dhcp_option :=
  [(dhcpOptMessageType, [DHCPRelease]); ip_option dhcpOptServerID server].

Lemma BuildDiscover_eq mac xid h p :
  BuildDiscover mac xid h p
  = dhcp_hdr dhcpOpBootRequest xid mac dhcpFlagBroadcast ++ enc_opts (discover_opts h p) ++ [dhcpOptEnd].
Proof.
  unfold BuildDiscover. cbv zeta. rewrite dhcp_name_params_eq, dhcpOpt_eq, dhcpHeader_eq.
  unfold discover_opts. cbn [enc_opts]. by rewrite <- !app_assoc.
Qed.

Lemma BuildRequest_eq mac xid o srv h p :
  BuildRequest mac xid o srv h p
  = dhcp_hdr dhcpOpBootRequest xid mac dhcpFlagBroadcast
    ++ enc_opts (request_opts o srv h p) ++ [dhcpOptEnd].
Proof.
  unfold BuildRequest. cbv zeta. rewrite dhcp_name_params_eq, dhcpOpt_eq, !dhcpOptIP_eq, dhcpHeader_eq.
  unfold request_opts. cbn [enc_opts]. rewrite enc_opts_app.
  destruct (IsZero srv); cbn [negb enc_opts app]; by rewrite ?app_nil_r, <- !app_assoc.
Qed.

Lemma BuildRelease_eq mac xid a srv :
  BuildRelease mac xid a srv
  = dhcp_hdr dhcpOpBootRequest xid mac 0 ++ enc_opts (release_opts srv) ++ [dhcpOptEnd].
Proof.
  unfold BuildRelease. cbv zeta. rewrite dhcpOpt_eq, !dhcpOptIP_eq, dhcpHeader_eq.
  unfold release_opts. cbn [enc_opts]. by rewrite ?app_nil_r, <- !app_assoc.
Qed.

Lemma client_opts_ok o srv h p :
  Forall opt_ok (discover_opts h p) /\ Forall opt_ok (request_opts o srv h p)
  /\ Forall opt_ok (release_opts srv).
Proof.
  pose proof (name_params_ok h p).
  assert (forall ip, opt_ok (ip_option dhcpOptRequestedIP ip)) by done.
  assert (forall ip, opt_ok (ip_option dhcpOptServerID ip)) by done.
  assert (forall t, opt_ok (dhcpOptMessageType, [t])) by done.
  unfold discover_opts, request_opts, release_opts. split; [by constructor|split].
  - constructor; [done|]. constructor; [done|]. apply Forall_app. split; [|done].
    destruct (IsZero srv); [done|]. by constructor.
  - by repeat constructor.
Qed.

Lemma ParseDHCP_Discover mac xid h p :
  ParseDHCP (BuildDiscover mac xid h p)
  = Ok (put_MsgType DHCPDiscover (fresh_message dhcpOpBootRequest xid mac dhcpFlagBroadcast)).
Proof.
  rewrite BuildDiscover_eq, ParseDHCP_encoded by apply (client_opts_ok IP4_zero IP4_zero).
  unfold discover_opts. cbn [apply_options]. apply name_params_silent.
Qed.

Definition with_server (srv : IP4) (m : DHCPMessage) : DHCPMessage :=
  if IsZero srv then m else put_ServerID srv m.

Lemma ParseDHCP_Request mac xid o srv h p :
  ParseDHCP (BuildRequest mac xid o srv h p)
  = Ok (with_server srv (put_MsgType DHCPRequest
          (fresh_message dhcpOpBootRequest xid mac dhcpFlagBroadcast))).
Proof.
  rewrite BuildRequest_eq, ParseDHCP_encoded by apply (client_opts_ok o srv).
  unfold request_opts, with_server, ip_option. cbn [apply_options].
  change (parse_option dhcpOptMessageType [DHCPRequest] ?m) with (@Ok neterr _ (put_MsgType DHCPRequest m)).
  change (parse_option dhcpOptRequestedIP (ip_bytes o) ?m) with (@Ok neterr _ m).
  cbn [mbind outcome_bind]. rewrite apply_options_app.
  destruct (IsZero srv); [apply name_params_silent|]. destruct srv. apply name_params_silent.
Qed.

Lemma ParseDHCP_Release mac xid a srv :
  ParseDHCP (BuildRelease mac xid a srv)
  = Ok (put_ServerID srv (put_MsgType DHCPRelease (fresh_message dhcpOpBootRequest xid mac 0))).
Proof.
  rewrite BuildRelease_eq, ParseDHCP_encoded by apply (client_opts_ok IP4_zero srv [] []).
  destruct srv. reflexivity.
Qed.

Lemma zlen_enc_opt o : zlen (enc_opt o) = 2 + zlen (snd o).
Proof. unfold enc_opt. rewrite !zlen_cons. lia. Qed.

Lemma zlen_name_params h p : zlen (enc_opts (name_params h p)) <= 322.
Proof.
  pose proof (trunc_len h 63 ltac:(lia)). pose proof (trunc_len p 255 ltac:(lia)).
  unfold name_params. rewrite enc_opts_app, zlen_app.
  destruct (decide (h = [])), (decide (p = [])); cbn [enc_opts];
    rewrite ?app_nil_r, ?zlen_enc_opt; cbn [snd]; change (zlen []) with 0; lia.
Qed.

Lemma zlen_client_messages mac xid o srv h p :
  zlen (BuildDiscover mac xid h p) <= 566 /\ zlen (BuildRequest mac xid o srv h p) <= 578.
Proof.
  pose proof (zlen_name_params h p). rewrite BuildDiscover_eq, BuildRequest_eq.
  rewrite !zlen_app, !zlen_dhcp_hdr. change (zlen [dhcpOptEnd]) with 1.
  unfold discover_opts, request_opts. cbn [enc_opts]. rewrite enc_opts_app, !zlen_app, !zlen_enc_opt.
  cbn [snd ip_option]. change (zlen (ip_bytes o)) with 4. change (zlen [?x]) with 1.
  assert (zlen (enc_opts (if IsZero srv then [] else [ip_option dhcpOptServerID srv])) <= 6).
  { destruct (IsZero srv); [done|]. destruct srv. done. }
  lia.
Qed.

(** ** The exchange *)

Section Client.
Context {F : Type} `{PacketFeed F}.
Implicit Types s : Stack (F:=F).

Definition request_frame (mac : MAC) (msg : list byte) : list byte :=
  ip_frame BroadcastMAC mac (udp_packet dhcpZeroSource broadcastIP dhcpClientPort dhcpServerPort msg).

Definition answer_frame (dmac smac : MAC) (src dst : IP4) (raw : list byte) : list byte :=
  ip_frame dmac smac (udp_packet src dst dhcpServerPort dhcpClientPort raw).

Lemma sendDHCP_eq msg s :
  zlen msg <= MaxUDPPayload -> sendDHCP msg s = (Ok tt, sent_frame (request_frame (s_MAC s) msg) s).
Proof.
  intros Hl. unfold sendDHCP, request_frame, udp_packet.
  rewrite (sendIPv4From_cached _ _ _ _ _ BroadcastMAC); [reflexivity|done|].
  rewrite zlen_UDP_Build. cbn [udp_Data]. unfold MaxUDPPayload, IP4HdrLen, UDPHdrLen in *. lia.
Qed.

(** What the client needs of a server's message. *)
Record answers (s : Stack (F:=F)) (xid : Z) (frame : list byte) (m : DHCPMessage) : Prop := mkAnswers {
  an_frame : exists dmac smac src dst raw,
    frame = answer_frame dmac smac src dst raw /\ for_us s dmac dst
    /\ zlen raw <= MaxUDPPayload /\ ParseDHCP raw = Ok m;
  an_xid : d_Xid m = xid;
}.

Record client_ready (s : Stack (F:=F)) (q : nat) : Prop := mkReady {
  cr_hmu : s_hmu s = false;
  cr_port : u_ports (s_udp s) !! dhcpClientPort = Some q;
  cr_queue : u_queues (s_udp s) !! q = Some [];
}.

Lemma drain_empty q xid d : u_queues d !! q = Some [] -> drain_dhcp (queued q d) q xid d = (None, d).
Proof. intros Hq. unfold queued. by rewrite Hq. Qed.

Lemma drain_one q xid raw m d :
  u_queues d !! q = Some [] -> ParseDHCP raw = Ok m -> d_Xid m = xid ->
  drain_dhcp (queued q (UDP_push q raw d)) q xid (UDP_push q raw d) = (Some m, d).
Proof.
  intros Hq Hm Hx. destruct d as [qs ports]. cbn [u_queues] in Hq.
  assert (E1 : alter (fun fs => fs ++ [raw]) q qs !! q = Some [raw])
    by (rewrite list_lookup_alter, decide_True, Hq by done; done).
  assert (E2 : <[q:=[]]> (alter (fun fs => fs ++ [raw]) q qs) = qs).
  { apply list_eq. intros i. destruct (decide (i = q)) as [->|Hne].
    - rewrite list_lookup_insert_eq; [done|]. rewrite length_alter. by eapply lookup_lt_Some.
    - by rewrite list_lookup_insert_ne, list_lookup_alter_ne by done. }
  unfold queued, UDP_push. cbn [u_queues u_ports]. rewrite E1. cbn [default length drain_dhcp].
  change (length (id [raw])) with 1%nat. cbn [drain_dhcp]. unfold UDP_Recv. cbn [u_queues u_ports].
  by rewrite E1, Hm, Hx, Z.eqb_refl, E2.
Qed.

Lemma awaitDHCP_answered q xid n frame m feed s :
  client_ready s q -> answers s xid frame m -> feed_Recv (s_feed s) = (Some frame, feed) ->
  awaitDHCP q xid (S (S n)) s = (Ok m, rx_ip (put_feed feed s)).
Proof.
  intros [Hh Hp Hq] [(dmac & smac & src & dst & raw & -> & Hu & Hl & Hm) Hx] Hf.
  cbn [awaitDHCP]. unfold SM. rewrite bind_getS, drain_empty, bind_modifyS by done.
  assert (E1 : put_udp (s_udp s) s = s) by (by destruct s). rewrite E1.
  rewrite (bind_ok _ _ _ _ _ (pump_udp dmac smac src dst dhcpServerPort dhcpClientPort raw feed s
    Hh Hu ltac:(done) Hl Hf)).
  unfold deliver_udp. rewrite Hp, bind_getS. cbn [s_udp put_udp].
  rewrite (drain_one q xid raw m), bind_modifyS by done. by destruct s.
Qed.

Lemma answers_same s1 s2 xid frame m :
  s_MAC s1 = s_MAC s2 -> s_IP s1 = s_IP s2 -> answers s1 xid frame m -> answers s2 xid frame m.
Proof.
  intros Hm Hi [(dmac & smac & src & dst & raw & Hf & Hu & Hr) Hx]. split; [|done].
  exists dmac, smac, src, dst, raw. unfold for_us in *. rewrite <- Hm, <- Hi. done.
Qed.

(** A request is sent and the next frame answers it. *)
Definition exchanged (s : Stack (F:=F)) (msg : list byte) (xid : Z) (m : DHCPMessage) (feed : F) : Prop :=
  zlen msg <= MaxUDPPayload /\
  exists frame, answers s xid frame m
    /\ feed_Recv (snd (feed_Send (request_frame (s_MAC s) msg) (s_feed s))) = (Some frame, feed).

Definition after_answer (feed : F) (s : Stack (F:=F)) : Stack := rx_ip (put_feed feed s).

Lemma send_and_await {A} q xid n msg m feed s (k : neterr + DHCPMessage -> SM A) :
  client_ready s q -> exchanged s msg xid m feed ->
  (sent ← attempt (sendDHCP msg);
   match sent with
   | inl _ => k (inl errNoReply)
   | inr _ => r ← attempt (awaitDHCP q xid (S (S n))); k r
   end) s = k (inr m) (after_answer feed s).
Proof.
  intros [Hh Hp Hq] [Hl (frame & Ha & Hf)]. unfold SM.
  rewrite (bind_ok _ _ _ (inr tt) (sent_frame (request_frame (s_MAC s) msg) s));
    [|unfold attempt; by rewrite sendDHCP_eq].
  rewrite (bind_ok _ _ _ (inr m) (after_answer feed s)); [done|].
  unfold attempt. rewrite (awaitDHCP_answered q xid n frame m feed); try done.
  by apply (answers_same s).
Qed.

Definition offer_of (m : DHCPMessage) : Offer :=
  mkOffer (d_YIAddr m) (d_SubnetMask m) (d_Router m) (d_DNS m) (d_LeaseTime m) (d_ServerID m).

Lemma OfferFrom_some m :
  d_MsgType m = DHCPOffer \/ d_MsgType m = DHCPACK -> IsZero (d_YIAddr m) = false ->
  OfferFrom m = Some (offer_of m).
Proof.
  intros Ht Hz. unfold OfferFrom. rewrite Hz.
  by destruct Ht as [-> | ->]; rewrite ?bool_decide_true, ?bool_decide_false by done.
Qed.

Lemma discover_answered q xid msg n t m feed s :
  client_ready s q -> exchanged s msg xid m feed ->
  d_MsgType m = DHCPOffer -> IsZero (d_YIAddr m) = false ->
  discover_loop q xid msg (S (S n)) (S t) s = (Ok (offer_of m), after_answer feed s).
Proof.
  intros Hr He Ht Hz. cbn [discover_loop]. cbv zeta.
  rewrite (send_and_await q xid n msg m feed s (fun r => match r with
    | inl _ => discover_loop q xid msg (S (S n)) t
    | inr m => if decide (d_MsgType m ≠ DHCPOffer) then discover_loop q xid msg (S (S n)) t
               else match OfferFrom m with
                    | None => discover_loop q xid msg (S (S n)) t | Some o => mret o end end)) by done.
  rewrite decide_False by (intros X; by apply X). rewrite OfferFrom_some by auto. done.
Qed.

Definition granted (offer : Offer) (m : DHCPMessage) : Offer :=
  mkOffer (d_YIAddr m) (d_SubnetMask m) (d_Router m) (d_DNS m) (d_LeaseTime m) (o_ServerID offer).

Lemma request_answered q xid o msg n t m feed s :
  client_ready s q -> exchanged s msg xid m feed ->
  d_MsgType m = DHCPACK -> IsZero (d_YIAddr m) = false ->
  request_loop q xid o msg (S (S n)) (S t) s = (Ok (granted o m), after_answer feed s).
Proof.
  intros Hr He Ht Hz. cbn [request_loop]. cbv zeta.
  rewrite (send_and_await q xid n msg m feed s (fun r => match r with
    | inl _ => request_loop q xid o msg (S (S n)) t
    | inr m => if decide (d_MsgType m = DHCPACK) then
                 match OfferFrom m with
                 | Some a => mret (mkOffer (o_YIAddr a) (o_Netmask a) (o_Router a) (o_DNS a)
                                     (o_LeaseTime a) (o_ServerID o))
                 | None => request_loop q xid o msg (S (S n)) t end
               else request_loop q xid o msg (S (S n)) t end)) by done.
  rewrite decide_True by done. rewrite OfferFrom_some by auto. done.
Qed.

(** The two exchanges of an acquisition that a server answers at once. *)
Record served (s : Stack (F:=F)) (xid : Z) (h p : list byte) (m1 m2 : DHCPMessage) (f1 f2 : F) : Prop := mkServed {
  sv_offer : exchanged s (BuildDiscover (s_MAC s) xid h p) xid m1 f1;
  sv_offer_type : d_MsgType m1 = DHCPOffer;
  sv_offer_addr : IsZero (d_YIAddr m1) = false;
  sv_ack : exchanged (put_feed f1 s)
    (BuildRequest (s_MAC s) xid (d_YIAddr m1) (d_ServerID m1) h p) xid m2 f2;
  sv_ack_type : d_MsgType m2 = DHCPACK;
  sv_ack_addr : IsZero (d_YIAddr m2) = false;
}.

Lemma exchanged_same s1 s2 msg xid m feed :
  s_MAC s1 = s_MAC s2 -> s_IP s1 = s_IP s2 -> s_feed s1 = s_feed s2 ->
  exchanged s1 msg xid m feed -> exchanged s2 msg xid m feed.
Proof.
  intros Hm Hi Hf [Hl (frame & Ha & Hr)]. split; [done|]. exists frame. rewrite <- Hm, <- Hf.
  split; [|done]. by apply (answers_same s1).
Qed.

Lemma DHCPAcquire_answered s xid h p m1 m2 f1 f2 n t :
  s_hmu s = false -> u_ports (s_udp s) !! dhcpClientPort = None -> served s xid h p m1 m2 f1 f2 ->
  exists s', DHCPAcquire xid h p (S t) (S (S n)) s = (Ok (granted (offer_of m1) m2), s')
    /\ s_IP s' = s_IP s /\ u_ports (s_udp s') = u_ports (s_udp s) /\ s_feed s' = f2.
Proof.
  intros Hh Hp [E1 T1 Z1 E2 T2 Z2]. unfold DHCPAcquire, UDP_Bind, SM. rewrite bind_getS.
  change (dhcpClientPort =? 0) with false. cbv iota. cbv zeta. rewrite Hp, bind_modifyS.
  set (q := length (u_queues (s_udp s))). set (s1 := put_udp _ s).
  assert (Hr : client_ready s1 q).
  { split; [done| |].
    - cbn [s1 s_udp put_udp u_ports]. by rewrite lookup_insert_eq.
    - cbn [s1 s_udp put_udp u_queues]. by apply list_lookup_middle. }
  assert (Hr2 : client_ready (after_answer f1 s1) q) by (destruct Hr; by split).
  apply (exchanged_same s s1) in E1; [|done..].
  apply (exchanged_same _ (after_answer f1 s1)) in E2; [|done..].
  rewrite (bind_ok _ _ _ (inr (granted (offer_of m1) m2)) (after_answer f2 (after_answer f1 s1))).
  2:{ unfold attempt. rewrite (bind_ok _ _ _ _ _ (discover_answered _ _ _ n t _ _ _ Hr E1 T1 Z1)).
      cbn [offer_of o_YIAddr o_ServerID]. rewrite Z1.
      by rewrite (request_answered _ _ _ _ n t _ _ _ Hr2 E2 T2 Z2). }
  rewrite bind_modifyS. eexists. split; [reflexivity|]. split; [done|]. split; [|done].
  cbn [s_udp put_udp u_ports UDP_Unbind after_answer rx_ip rx_eth put_RxIPv4 put_RxEth put_feed s1].
  by apply delete_insert_id.
Qed.
End Client.
