(* ===== verification/NetPort.v ===== *)
(** * NetPort: the socket port and the service ([services/net/netport.go],
    [main.go])

    The "net" port's request handler over one stack, one pass of the serving
    loop, and the service's start-up: address argument, lease, and the pair
    of packet windows as the stack's feed.

    A socket's connection and listener are named by their local port, its
    receive queue by its index.  The kernel is outside this model: what it
    returns (a received datagram, the stop channel, clock readings, entropy)
    are arguments; the order in which Go iterates over the socket map is the
    argument [keys]. *)

From S2P Require Import Prelude Frame BlockDev Paths NetWire NetRing NetTcp NetStack NetDhcp.

Definition NetOpOpen : Z := 1.
Definition NetOpConn : Z := 2.
Definition NetOpSend : Z := 3.
Definition NetOpRecv : Z := 4.
Definition NetOpClose : Z := 5.
Definition NetOpPing : Z := 6.
Definition NetOpStatus : Z := 7.
Definition NetOpRenew : Z := 8.
Definition NetStIP : Z := 0.
Definition NetStStats : Z := 1.
Definition NetStSocks : Z := 2.
Definition NetKindTCP : Z := 0.
Definition NetKindUDP : Z := 1.
Definition netStatusOK : Z := 0.
Definition errNoSuchSock : Z := -1.
Definition errBadOp : Z := -2.
Definition errState : Z := -3.
Definition renewResultOK : Z := 0.
Definition renewResultNoLease : Z := 1.
Definition renewResultFailed : Z := 2.

Record netSocket := mkSock {
  k_kind : Z; k_tcp : option Z; k_listen : option Z;
  k_udpQ : nat; k_udpPort : Z; k_peerIP : IP4; k_peerPort : Z;
}.

Definition newSocket (kind : Z) : netSocket := mkSock kind None None 0%nat 0 IP4_zero 0.
Definition with_listen (p : Z) (sk : netSocket) : netSocket :=
  mkSock (k_kind sk) (k_tcp sk) (Some p) (k_udpQ sk) (k_udpPort sk) (k_peerIP sk) (k_peerPort sk).
Definition with_udp (q : nat) (p : Z) (sk : netSocket) : netSocket :=
  mkSock (k_kind sk) (k_tcp sk) (k_listen sk) q p (k_peerIP sk) (k_peerPort sk).
Definition with_peer (ip : IP4) (p : Z) (sk : netSocket) : netSocket :=
  mkSock (k_kind sk) (k_tcp sk) (k_listen sk) (k_udpQ sk) (k_udpPort sk) ip p.
Definition with_tcp (c : Z) (sk : netSocket) : netSocket :=
  mkSock (k_kind sk) (Some c) (k_listen sk) (k_udpQ sk) (k_udpPort sk) (k_peerIP sk) (k_peerPort sk).

Section Server.
Context {F : Type} `{PacketFeed F}.

Record NetServer := mkNetServer {
  ns_stack : Stack (F:=F); ns_sockets : gmap Z netSocket; ns_nextID : Z;
  ns_renew : option (SM (F:=F) Offer); ns_lease : option Lease;
}.

Definition NM : Type -> Type := M NetServer neterr.

Definition put_stack (v : Stack (F:=F)) (n : NetServer) : NetServer :=
  mkNetServer v (ns_sockets n) (ns_nextID n) (ns_renew n) (ns_lease n).
Definition put_sockets (v : gmap Z netSocket) (n : NetServer) : NetServer :=
  mkNetServer (ns_stack n) v (ns_nextID n) (ns_renew n) (ns_lease n).
Definition put_nextID (v : Z) (n : NetServer) : NetServer :=
  mkNetServer (ns_stack n) (ns_sockets n) v (ns_renew n) (ns_lease n).
Definition put_lease (v : option Lease) (n : NetServer) : NetServer :=
  mkNetServer (ns_stack n) (ns_sockets n) (ns_nextID n) (ns_renew n) v.

Definition onStack {A} (m : SM (F:=F) A) : NM A := fun n =>
  let '(r, s) := m (ns_stack n) in (r, put_stack s n).

Definition put_socket (id : Z) (sk : netSocket) : NM unit :=
  modifyS (fun n => put_sockets (<[id := sk]> (ns_sockets n)) n).

Definition sock (id : Z) : NM (option netSocket) := n ← getS; mret (ns_sockets n !! id).

(** A pure operation of the TCP stack or the UDP ports. *)
Definition on_tcp {A} (f : TCPStack -> A * TCPStack) : NM A := fun n =>
  let '(a, t) := f (s_tcp (ns_stack n)) in (Ok a, put_stack (put_tcp t (ns_stack n)) n).
Definition on_udp {A} (f : UDPDemux -> A * UDPDemux) : NM A := fun n =>
  let '(a, d) := f (s_udp (ns_stack n)) in (Ok a, put_stack (put_udp d (ns_stack n)) n).

(** [status] and [body] of the reply. *)
Definition answer : Type := Z * list byte.

Definition openBody (id : Z) : list byte := Put16 (mkbuf 2) 0 id.

(** [ns.nextID++; ns.sockets[id] = sk] *)
Definition register (sk : netSocket) : NM answer :=
  n ← getS;
  let id := u16 (ns_nextID n + 1) in
  _ ← modifyS (put_nextID id);
  _ ← put_socket id sk;
  mret (netStatusOK, openBody id).

Definition do_open (payload : list byte) : NM answer :=
  if zlen payload <? 4 then mret (errBadOp, [])
  else
    let kind := Get16 payload 0 in
    let port := Get16 payload 2 in
    if kind =? NetKindTCP then
      if negb (port =? 0) then
        r ← on_tcp (Listen port);
        match r with
        | Ok _ => register (with_listen port (newSocket kind))
        | _ => mret (errState, [])
        end
      else register (newSocket kind)
    else if kind =? NetKindUDP then
      b ← on_udp (fun d => let '(q, p, d) := UDP_Bind port d in ((q, p), d));
      register (with_udp (fst b) (snd b) (newSocket kind))
    else mret (errBadOp, []).

Definition do_conn (payload : list byte) : NM answer :=
  if zlen payload <? 8 then mret (errBadOp, [])
  else
    let id := Get16 payload 0 in
    sk ← sock id;
    match sk with
    | None => mret (errNoSuchSock, [])
    | Some sk =>
        let dip := ip_at payload 2 in
        let dport := Get16 payload 6 in
        let sk := with_peer dip dport sk in
        _ ← put_socket id sk;
        if k_kind sk =? NetKindTCP then
          n ← getS;
          c ← onStack (Stack_Dial (s_IP (ns_stack n)) dip dport);
          match c with
          | Some c => _ ← put_socket id (with_tcp c sk); mret (netStatusOK, [])
          | None => panic
          end
        else mret (netStatusOK, [])
    end.

Definition do_send (payload : list byte) : NM answer :=
  if zlen payload <? 4 then mret (errBadOp, [])
  else
    let n := Get16 payload 2 in
    sk ← sock (Get16 payload 0);
    match sk with
    | None => mret (errNoSuchSock, [])
    | Some sk =>
        if zlen payload <? 4 + n then mret (errNoSuchSock, [])
        else
          let data := slice payload 4 (4 + n) in
          if k_kind sk =? NetKindUDP then
            r ← attempt (onStack (UDP_SendTo pump (k_udpPort sk) (k_peerIP sk) (k_peerPort sk) data));
            match r with
            | inl _ => mret (errState, [])
            | inr _ => mret (netStatusOK, [])
            end
          else
            match k_tcp sk with
            | None => mret (errState, [])
            | Some c =>
                r ← onStack (with_conn pump c (TCP_Write data));
                match r with
                | Some (Err _) => mret (errState, [])
                | _ => mret (netStatusOK, [])
                end
            end
    end.

(** The body of a [RECV] reply. *)
Definition recvBody (data : list byte) : list byte := Put16 (mkbuf 2) 0 (zlen data) ++ data.

(** [sk.listen.Accept()]: a pending connection becomes the socket's. *)
Definition pull_accepted (id : Z) (sk : netSocket) : NM netSocket :=
  match k_listen sk with
  | None => mret sk
  | Some p =>
      r ← on_tcp (Accept p);
      match r with
      | Ok _ => let sk := with_tcp p sk in _ ← put_socket id sk; mret sk
      | _ => mret sk
      end
  end.

(** The [break] of the unconnected case leaves the inner switch only: the
    code after it builds a body and sets the status to OK. *)
Definition do_recv (payload : list byte) : NM answer :=
  if zlen payload <? 4 then mret (errBadOp, [])
  else
    let id := Get16 payload 0 in
    let max := Get16 payload 2 in
    sk ← sock id;
    match sk with
    | None => mret (errNoSuchSock, [])
    | Some sk =>
        if (max =? 0) && (k_kind sk =? NetKindUDP) then mret (errNoSuchSock, [])
        else if k_kind sk =? NetKindUDP then
          d ← on_udp (UDP_Recv (k_udpQ sk));
          mret (netStatusOK, recvBody (take (Z.to_nat max) (default [] d)))
        else
          sk ← pull_accepted id sk;
          match k_tcp sk with
          | None => mret (netStatusOK, recvBody [])
          | Some c =>
              r ← onStack (with_conn pump c (TCP_Recv max));
              mret (netStatusOK, recvBody (default [] r))
          end
    end.

Definition do_close (payload : list byte) : NM answer :=
  if zlen payload <? 2 then mret (errBadOp, [])
  else
    let id := Get16 payload 0 in
    sk ← sock id;
    _ ← modifyS (fun n => put_sockets (delete id (ns_sockets n)) n);
    match sk with
    | None => mret (errNoSuchSock, [])
    | Some sk =>
        match k_tcp sk with
        | Some c =>
            if k_kind sk =? NetKindTCP
            then _ ← onStack (with_conn pump c TCP_Close); mret (netStatusOK, [])
            else mret (netStatusOK, [])
        | None => mret (netStatusOK, [])
        end
    end.

(** [clk] is the pair of clock readings around the ping, when there is a
    clock. *)
Definition do_ping (clk : option (Z * Z)) (payload : list byte) : NM answer :=
  if zlen payload <? 10 then mret (errBadOp, [])
  else
    let dst := ip_at payload 0 in
    let id := Get16 payload 4 in
    let seq := Get16 payload 6 in
    let dlen := Get16 payload 8 in
    if negb (dlen =? zlen payload - 10) then mret (errBadOp, [])
    else
      let data := slice payload 10 (10 + dlen) in
      r ← attempt (onStack (Ping dst id seq data (Z.to_nat 4000)));
      match r with
      | inl _ => mret (errState, [])
      | inr r =>
          let rtt := match clk with Some (start, now) => u16 (now - start) | None => 0 end in
          let body := Put16 (mkbuf (2 + zlen (icmp_Data r))) 0 rtt in
          mret (netStatusOK, splice body 2 (icmp_Data r))
      end.

Fixpoint put_ids (ids : list Z) : list byte :=
  match ids with
  | [] => []
  | id :: ids => Put16 (mkbuf 2) 0 id ++ put_ids ids
  end.

Definition do_status (keys : gmap Z netSocket -> list Z) (payload : list byte) : NM answer :=
  if zlen payload <? 2 then mret (errBadOp, [])
  else
    let what := Get16 payload 0 in
    n ← getS;
    if what =? NetStIP then mret (netStatusOK, ip_bytes (s_IP (ns_stack n)))
    else if what =? NetStStats then
      let '(e, a, vi, ic) := Stats (ns_stack n) in
      let body := mkbuf 32 in
      let body := Put64 body 0 e in
      let body := Put64 body 8 a in
      let body := Put64 body 16 vi in
      let body := Put64 body 24 ic in
      mret (netStatusOK, body)
    else if what =? NetStSocks then mret (netStatusOK, put_ids (keys (ns_sockets n)))
    else mret (errBadOp, []).

Definition do_renew : NM answer :=
  n ← getS;
  match ns_renew n, ns_lease n with
  | Some renew, Some _ =>
      r ← attempt (onStack renew);
      match r with
      | inl _ => mret (netStatusOK, Put16 (mkbuf 2) 0 renewResultFailed)
      | inr o =>
          _ ← modifyS (put_lease (Some (NewLease o true)));
          mret (netStatusOK, Put16 (mkbuf 2) 0 renewResultOK)
      end
  | _, _ => mret (netStatusOK, Put16 (mkbuf 2) 0 renewResultNoLease)
  end.

Definition net_reply (op seq : Z) (a : answer) : list byte :=
  let rep := mkbuf 28 in
  let rep := Put16 rep 0 op in
  let rep := Put16 rep 2 seq in
  let rep := Put32 rep 24 (u32 (fst a)) in
  rep ++ snd a.

(** [None]: an unknown operation is not answered. *)
Definition net_dispatch (keys : gmap Z netSocket -> list Z) (clk : option (Z * Z)) (op seq : Z)
  (payload : list byte) : NM (option (list byte)) :=
  let reply (m : NM answer) : NM (option (list byte)) := a ← m; mret (Some (net_reply op seq a)) in
  if op =? NetOpOpen then reply (do_open payload)
  else if op =? NetOpConn then reply (do_conn payload)
  else if op =? NetOpSend then reply (do_send payload)
  else if op =? NetOpRecv then reply (do_recv payload)
  else if op =? NetOpClose then reply (do_close payload)
  else if op =? NetOpPing then reply (do_ping clk payload)
  else if op =? NetOpStatus then reply (do_status keys payload)
  else if op =? NetOpRenew then reply do_renew
  else mret None.

(** ** One pass of the serving loop *)

(** What the kernel gives in one pass: the datagram [PortRecv] returned, the
    stop channel, the clock around a ping, and the clock readings of the
    renewal branch ([Due]'s argument, the one [BackoffMs] takes, the one
    [RecordRenewResult] takes). *)
Record pass_input := mkPass {
  pi_msg : list byte; pi_stop : bool; pi_ping : option (Z * Z); pi_clock : option (Z * Z * Z);
}.

(** A reply to send to a named port; nothing; the loop ends. *)
Inductive pass_result := PassReply (rname rep : list byte) | PassNone | PassStop.

Definition serve_request (keys : gmap Z netSocket -> list Z) (i : pass_input) : NM pass_result :=
  match ParseHeader (pi_msg i) with
  | Some hdr =>
      if bool_decide (RNam hdr = []) then mret PassNone
      else
        rep ← net_dispatch keys (pi_ping i) (Op hdr) (Seq hdr)
                (slice (pi_msg i) CanonicalHeaderLen (zlen (pi_msg i)));
        match rep with
        | Some rep => mret (PassReply (RNam hdr) rep)
        | None => mret PassNone
        end
  | None => mret PassNone
  end.

Definition serve_stop : NM pass_result :=
  n ← getS;
  match ns_lease n with
  | Some l =>
      if IsZero (o_ServerID (l_Offer l)) then mret PassStop
      else _ ← attempt (onStack (sendDHCPRelease (o_ServerID (l_Offer l)))); mret PassStop
  | None => mret PassStop
  end.

Definition serve_renewal (clock : option (Z * Z * Z)) : NM pass_result :=
  n ← getS;
  match ns_lease n, ns_renew n, clock with
  | Some l, Some renew, Some (now, clk, clk') =>
      let '(due, rebind) := Due now clk l in
      if due || rebind then
        r ← attempt (onStack renew);
        let l := match r with inl _ => l | inr o => NewLease o true end in
        let ok := match r with inl _ => false | inr _ => true end in
        _ ← modifyS (put_lease (Some (RecordRenewResult ok clk' l)));
        mret PassNone
      else mret PassNone
  | _, _, _ => mret PassNone
  end.

Definition serve_pass (keys : gmap Z netSocket -> list Z) (i : pass_input) : NM pass_result :=
  _ ← onStack pump;
  if CanonicalHeaderLen <=? zlen (pi_msg i) then serve_request keys i
  else if pi_stop i then serve_stop
  else serve_renewal (pi_clock i).

Definition NewNetServer (s : Stack (F:=F)) (lease : option Lease) (renew : option (SM Offer)) : NetServer :=
  mkNetServer s ∅ 0 renew lease.

(** ** Start-up *)

(** [acquireLease]: the address to serve and the lease, if a server granted
    one.  [clock] says whether the kernel has one. *)
Definition acquireLease (entropy : outcome neterr (list byte)) (clock : bool)
  : SM (F:=F) (IP4 * option Lease) :=
  match NewXID entropy with
  | Ok xid =>
      r ← attempt (DHCPAcquire xid (bs "net") DefaultDHCPOptions 3 (Z.to_nat 20000));
      match r with
      | inl _ => s ← getS; mret (s_IP s, None)
      | inr o =>
          _ ← modifyS (adopt o);
          mret (o_YIAddr o, Some (NewLease o clock))
      end
  | Err _ => s ← getS; mret (s_IP s, None)
  | Panic => panic
  end.

(** The service up to its loop; [pinned] is a fixed address argument. *)
Definition net_main (pinned : bool) (entropy : outcome neterr (list byte)) (clock : bool)
  (renew : SM (F:=F) Offer) (s : Stack (F:=F)) : outcome neterr NetServer :=
  if pinned then Ok (NewNetServer s None (Some renew))
  else match acquireLease entropy clock s with
       | (Ok (_, lease), s) => Ok (NewNetServer s lease (Some renew))
       | (Err e, _) => Err e
       | (Panic, _) => Panic
       end.
End Server.

(** *** The address argument *)

Fixpoint indexByteStr (s : list byte) (c : byte) : option nat :=
  match s with
  | [] => None
  | x :: s => if decide (x = c) then Some 0%nat else S <$> indexByteStr s c
  end.

Fixpoint trimSpaces (s : list byte) : list byte :=
  match s with
  | x :: s' => if decide (x = Byte.x20) then trimSpaces s' else s
  | [] => []
  end.

(** The NUL-terminated strings of the argument buffer, of which the loop
    visits the first [argc]. *)
Fixpoint nul_strings (buf : list byte) : list (list byte) :=
  match buf with
  | [] => []
  | c :: buf =>
      match nul_strings buf with
      | ss => if decide (c = Byte.x00) then [] :: ss
              else match ss with
                   | s :: ss => (c :: s) :: ss
                   | [] => [[c]]
                   end
      end
  end.

Definition default_mac : MAC := mkMAC Byte.x02 Byte.x00 Byte.x00 Byte.x00 Byte.x00 Byte.x09.
Definition default_ip : IP4 := mkIP4 Byte.x0a Byte.x00 Byte.x02 Byte.x0f.

Definition readAddrArg (argc : Z) (buf : list byte) : MAC * IP4 * bool :=
  let arg := if (2 <=? argc) && (0 <? zlen buf) then default [] (nul_strings buf !! 1%nat) else [] in
  match indexByteStr arg Byte.x20 with
  | Some (S i) =>
      let mac := match ParseMAC (take (S i) arg) with Ok m => m | _ => default_mac end in
      match ParseIP (trimSpaces (drop (S i) arg)) with
      | Ok ip => (mac, ip, true)
      | _ => (mac, default_ip, false)
      end
  | _ => (default_mac, default_ip, false)
  end.

(** *** The pair of packet windows as the stack's feed *)

Record dualFeed := mkDual { df_rx : list byte; df_tx : list byte }.

(** A ring operation never panics on a window of [RingSize] bytes, so the
    other outcomes do not arise. *)
Definition dual_Recv (d : dualFeed) : option (list byte) * dualFeed :=
  match NewWindowRing (df_rx d) with
  | None => (None, d)
  | Some rx =>
      match Ring_Recv rx with
      | (Ok r, rx) => (r, mkDual rx (df_tx d))
      | (_, rx) => (None, mkDual rx (df_tx d))
      end
  end.

Definition dual_Send (frame : list byte) (d : dualFeed) : bool * dualFeed :=
  match NewWindowRing (df_tx d) with
  | None => (false, d)
  | Some tx =>
      match Ring_Send frame tx with
      | (Ok b, tx) => (b, mkDual (df_rx d) tx)
      | (_, tx) => (false, mkDual (df_rx d) tx)
      end
  end.

#[export] Instance dualFeed_feed : PacketFeed dualFeed := {|
  feed_Recv := dual_Recv; feed_Send := dual_Send |}.

(** [hex8] renders a transaction id for the log. *)
Definition hex8 (v : Z) : list byte :=
  bs "0x" ++ map (fun i => idx (bs "0123456789abcdef") (Z.land (Z.shiftr v (4 * i)) 0xf)) [7; 6; 5; 4; 3; 2; 1; 0].
