(* ===== verification/NetPortFacts.v ===== *)
(** * NetPortFacts: the socket port and the window feed

    Requests touch only the socket they name; a bound UDP socket receives;
    the pair of packet windows is a pair of queues. *)

From S2P Require Import Prelude Frame BlockDev Paths NetWire NetCodec NetRing NetTcp NetStack.
From S2P Require Import NetStackFacts NetDhcp NetPort.

(** ** The window feed *)

Lemma NewWindowRing_ok mem q : ring_holds mem q -> NewWindowRing mem = Some mem.
Proof. intros [Hs _ _ _]. unfold NewWindowRing. by rewrite (proj2 (Z.ltb_ge _ _)). Qed.

Lemma dual_Recv_ok rx tx f q :
  ring_holds rx (f :: q) ->
  exists rx', dual_Recv (mkDual rx tx) = (Some f, mkDual rx' tx) /\ ring_holds rx' q.
Proof.
  intros Hr. destruct (Ring_Recv_ok rx (f :: q) Hr) as (rx' & Hx & Hr').
  exists rx'. split; [|done]. unfold dual_Recv. cbn [df_rx df_tx].
  by rewrite (NewWindowRing_ok rx _ Hr), Hx.
Qed.

Lemma dual_Send_ok rx tx f q :
  ring_holds tx q -> 0 < zlen f <= SlotDataLen -> zlen q < WinSlots ->
  exists tx', dual_Send f (mkDual rx tx) = (true, mkDual rx tx') /\ ring_holds tx' (q ++ [f]).
Proof.
  intros Hr Hf Hq. destruct (Ring_Send_ok tx q f Hr Hf Hq) as (tx' & Hx & Hr').
  exists tx'. split; [|done]. unfold dual_Send. cbn [df_rx df_tx].
  by rewrite (NewWindowRing_ok tx _ Hr), Hx.
Qed.

Lemma zlen_ip_frame d m pkt :
  zlen (ip_Payload pkt) <= EthPayloadM - IP4HdrLen -> 0 < zlen (ip_frame d m pkt) <= SlotDataLen.
Proof.
  intros Hl. unfold ip_frame. rewrite BuildEth_eq, !zlen_app.
  change (zlen (eth_hdr _ _ _)) with 14. change (zlen (ip_hdr pkt)) with 20.
  pose proof (zlen_nonneg (ip_Payload pkt)).
  unfold EthPayloadM, MaxFrame, EthHdrLen, IP4HdrLen, SlotDataLen in *.
  destruct (Z.le_gt_cases 0 (46 - (20 + zlen (ip_Payload pkt)))).
  - rewrite zlen_mkbuf by lia. lia.
  - unfold mkbuf. rewrite Z2Nat.nonpos by lia. change (zlen (replicate 0 Byte.x00)) with 0. lia.
Qed.

(** ** Requests touch one socket *)

Section Server.
Context {F : Type} `{PacketFeed F}.
Implicit Types n : NetServer (F:=F).

Definition touches_only (id : Z) {A} (m : NM (F:=F) A) : Prop :=
  forall n j, j ≠ id -> ns_sockets (snd (m n)) !! j = ns_sockets n !! j.

Lemma touch_bind id {A B} (m : NM A) (f : A -> NM B) :
  touches_only id m -> (forall a, touches_only id (f a)) -> touches_only id (m ≫= f).
Proof.
  intros Hm Hf n j Hj. specialize (Hm n j Hj). unfold mbind, M_bind.
  destruct (m n) as [[a|e|] n1]; cbn [snd] in *; [|done|done]. by rewrite Hf.
Qed.

Lemma touch_ret id {A} (a : A) : touches_only id (mret a).
Proof. done. Qed.
Lemma touch_get id : touches_only id getS.
Proof. done. Qed.
Lemma touch_panic id {A} : touches_only (A:=A) id panic.
Proof. done. Qed.
Lemma touch_stack id {A} (m : SM A) : touches_only id (onStack m).
Proof. intros n j Hj. unfold onStack. by destruct (m (ns_stack n)). Qed.
Lemma touch_tcp id {A} (f : TCPStack -> A * TCPStack) : touches_only id (on_tcp f).
Proof. intros n j Hj. unfold on_tcp. by destruct (f _). Qed.
Lemma touch_udp id {A} (f : UDPDemux -> A * UDPDemux) : touches_only id (on_udp f).
Proof. intros n j Hj. unfold on_udp. by destruct (f _). Qed.
Lemma touch_put id sk : touches_only id (put_socket id sk).
Proof. intros n j Hj. cbn. by rewrite lookup_insert_ne. Qed.
Lemma touch_delete id : touches_only id (modifyS (fun n => put_sockets (delete id (ns_sockets n)) n)).
Proof. intros n j Hj. cbn. by rewrite lookup_delete_ne. Qed.
Lemma touch_modify id (f : NetServer -> NetServer) :
  (forall n, ns_sockets (f n) = ns_sockets n) -> touches_only id (modifyS f).
Proof. intros Hf n j Hj. cbn. by rewrite Hf. Qed.
Lemma touch_attempt id {A} (m : NM A) : touches_only id m -> touches_only id (attempt m).
Proof.
  intros Hm n j Hj. specialize (Hm n j Hj). unfold attempt. by destruct (m n) as [[a|e|] n1].
Qed.

Ltac touch :=
  repeat match goal with
  | |- touches_only _ (_ ≫= _) => apply touch_bind; [|intros]
  | |- touches_only _ (mret _) => apply touch_ret
  | |- touches_only _ getS => apply touch_get
  | |- touches_only _ panic => apply touch_panic
  | |- touches_only _ (onStack _) => apply touch_stack
  | |- touches_only _ (on_tcp _) => apply touch_tcp
  | |- touches_only _ (on_udp _) => apply touch_udp
  | |- touches_only ?i (put_socket ?i _) => apply touch_put
  | |- touches_only ?i (modifyS (fun n => put_sockets (delete ?i _) _)) => apply touch_delete
  | |- touches_only _ (modifyS _) => apply touch_modify; by intros []
  | |- touches_only _ (attempt _) => apply touch_attempt
  | |- touches_only _ (match ?x with _ => _ end) => destruct x
  | |- touches_only _ (let _ := _ in _) => cbv zeta
  end.

Lemma requests_touch keys clk op payload seq :
  op ≠ NetOpOpen -> touches_only (Get16 payload 0) (net_dispatch keys clk op seq payload).
Proof.
  intros Ho. unfold net_dispatch. cbv zeta. rewrite (proj2 (Z.eqb_neq _ _)) by done.
  unfold do_conn, do_send, do_recv, do_close, do_ping, do_status, do_renew, pull_accepted, sock. touch.
Qed.

Lemma register_touches sk n j :
  j ≠ u16 (ns_nextID n + 1) -> ns_sockets (snd (register sk n)) !! j = ns_sockets n !! j.
Proof.
  intros Hj. unfold register, put_socket, NM. rewrite bind_getS, !bind_modifyS.
  cbn [mret M_ret snd ns_sockets put_sockets put_nextID]. by rewrite lookup_insert_ne.
Qed.

Lemma open_touches payload n j :
  j ≠ u16 (ns_nextID n + 1) -> ns_sockets (snd (do_open payload n)) !! j = ns_sockets n !! j.
Proof.
  intros Hj. unfold do_open. destruct (zlen payload <? 4); [done|]. cbv zeta.
  destruct (Get16 payload 0 =? NetKindTCP).
  - destruct (negb _); [|by apply register_touches].
    unfold mbind, M_bind, on_tcp. destruct (Listen _ _) as [[u|e|] t]; [|done|done].
    by rewrite register_touches.
  - destruct (Get16 payload 0 =? NetKindUDP); [|done].
    unfold mbind, M_bind, on_udp. destruct (UDP_Bind _ _) as [[q p] d]. by rewrite register_touches.
Qed.

(** The socket a request names: the next identifier for [OPEN], else the one
    its payload starts with. *)
Definition target (op : Z) (payload : list byte) (n : NetServer (F:=F)) : Z :=
  if op =? NetOpOpen then u16 (ns_nextID n + 1) else Get16 payload 0.

Lemma dispatch_touches keys clk op seq payload n j :
  j ≠ target op payload n ->
  ns_sockets (snd (net_dispatch keys clk op seq payload n)) !! j = ns_sockets n !! j.
Proof.
  unfold target. destruct (Z.eqb_spec op NetOpOpen) as [->|Ho]; intros Hj; [|by apply requests_touch].
  pose proof (open_touches payload n j Hj) as Hp. unfold net_dispatch. cbv zeta.
  change (NetOpOpen =? NetOpOpen) with true. cbv iota. unfold mbind, M_bind.
  by destruct (do_open payload n) as [[a|e|] n1].
Qed.

(** ** A bound UDP socket receives *)

Definition pay2 (x y : Z) : list byte := le_split 2 x ++ le_split 2 y.

Lemma Get16_pay2 x y : Get16 (pay2 x y) 0 = u16 x /\ Get16 (pay2 x y) 2 = u16 y.
Proof.
  unfold pay2. split; [apply Get16_here|]. rewrite (Get16_skip _ _ 2 0) by done.
  rewrite <- (app_nil_r (le_split 2 y)). apply Get16_here.
Qed.

Lemma open_udp keys clk seq p n :
  0 < p < 2 ^ 16 -> u_ports (s_udp (ns_stack n)) !! p = None ->
  let id := u16 (ns_nextID n + 1) in
  let d := s_udp (ns_stack n) in
  let q := length (u_queues d) in
  net_dispatch keys clk NetOpOpen seq (pay2 NetKindUDP p) n
  = (Ok (Some (net_reply NetOpOpen seq (netStatusOK, openBody id))),
     mkNetServer (put_udp (mkUDPDemux (u_queues d ++ [[]]) (<[p := q]> (u_ports d))) (ns_stack n))
       (<[id := with_udp q p (newSocket NetKindUDP)]> (ns_sockets n)) id (ns_renew n) (ns_lease n)).
Proof.
  intros Hp Hu. destruct (Get16_pay2 NetKindUDP p) as [E0 E2]. cbv zeta. unfold net_dispatch.
  change (NetOpOpen =? NetOpOpen) with true. cbv iota zeta. unfold do_open.
  change (zlen (pay2 NetKindUDP p) <? 4) with false. cbv iota zeta. rewrite E0, E2, (u16_small p) by lia.
  change (u16 NetKindUDP =? NetKindTCP) with false. change (u16 NetKindUDP =? NetKindUDP) with true.
  cbv iota. unfold on_udp, UDP_Bind, mbind, M_bind. rewrite (proj2 (Z.eqb_neq p 0)), Hu by lia.
  reflexivity.
Qed.

Lemma recv_udp keys clk seq id max data q p n :
  0 <= id < 2 ^ 16 -> 0 < max < 2 ^ 16 -> zlen data <= max ->
  ns_sockets n !! id = Some (with_udp q p (newSocket NetKindUDP)) ->
  u_queues (s_udp (ns_stack n)) !! q = Some [data] ->
  fst (net_dispatch keys clk NetOpRecv seq (pay2 id max) n)
  = Ok (Some (net_reply NetOpRecv seq (netStatusOK, recvBody data))).
Proof.
  intros Hi Hm Hd Hs Hq. destruct (Get16_pay2 id max) as [E0 E2]. unfold net_dispatch.
  change (NetOpRecv =? NetOpOpen) with false. change (NetOpRecv =? NetOpConn) with false.
  change (NetOpRecv =? NetOpSend) with false. change (NetOpRecv =? NetOpRecv) with true.
  cbv iota zeta. unfold do_recv. change (zlen (pay2 id max) <? 4) with false. cbv iota zeta.
  rewrite E0, E2, !u16_small by lia. unfold sock, mbind, M_bind, getS, mret, M_ret. rewrite Hs.
  cbn [k_kind k_udpQ with_udp newSocket]. rewrite (proj2 (Z.eqb_neq max 0)) by lia.
  change (NetKindUDP =? NetKindUDP) with true. cbn [andb]. unfold on_udp, UDP_Recv. rewrite Hq.
  cbn [fst snd]. change (default [] (Some data)) with data. rewrite take_ge; [done|]. unfold zlen in *. lia.
Qed.
End Server.
