(* ===== verification/NetTheorems.v ===== *)
(** * NetTheorems: the properties of the network service

    The claims about [services/net]: the TCP stream, the wire formats, the
    stack over its packet windows, DHCP and the socket port. *)

From S2P Require Import Prelude Frame BlockDev Paths NetWire NetCodec NetRing NetTcp NetTcpStream.
From S2P Require Import NetTcpLive NetStack NetStackFacts NetDhcp NetDhcpFacts NetPort NetPortFacts.

(** ** What becomes of a connection in CLOSE-WAIT *)

Inductive conn_op := OpSegment (seg : TCPSegment) | OpWrite (d : list byte) | OpClose | OpRecv (n : Z).

Definition conn_apply (c : TCPConn) (o : conn_op) : TCPConn :=
  match o with
  | OpSegment seg => handle seg c
  | OpWrite d => snd (TCP_Write d c)
  | OpClose => snd (TCP_Close c)
  | OpRecv n => snd (TCP_Recv n c)
  end.

Definition half_closed (c : TCPConn) : Prop := c_state c = stateCloseWait \/ c_state c = stateClosed.

Lemma tryfin_queued c : c_sndBuf c ≠ [] -> trySendFinLocked c = c.
Proof.
  intros Hb. unfold trySendFinLocked. rewrite (proj2 (Z.ltb_lt 0 (zlen (c_sndBuf c)))).
  { by rewrite orb_true_r. }
  by apply zlen_pos.
Qed.

(** The fields the rest of the life of such a connection keeps. *)
Definition same_tail (c c' : TCPConn) : Prop :=
  half_closed c' /\ c_sndBuf c' = c_sndBuf c /\ c_sent c' = c_sent c.

Lemma half_closed_not s c : half_closed c -> s ≠ stateCloseWait -> s ≠ stateClosed -> in_state s c = false.
Proof.
  intros Hc H1 H2. unfold in_state. apply bool_decide_eq_false. destruct Hc as [-> | ->]; congruence.
Qed.

Lemma ack_same_tail seg c : half_closed c -> c_sndBuf c ≠ [] -> same_tail c (handle_ack seg c).
Proof.
  intros Hc Hb. unfold handle_ack.
  destruct (has_flag (seg_Flags seg) TCPAck && _ && _ && _); [|done]. cbv zeta.
  destruct (0 <? _); [|done].
  assert (forall c1, half_closed c1 -> c_sndBuf c1 ≠ [] ->
    trySendFinLocked (if in_state stateEstablished c1 then flushLocked c1 else c1) = c1) as Hx.
  { intros c1 H1 H2. rewrite half_closed_not by done. by apply tryfin_queued. }
  destruct (zlen (c_inFlight c) <=? _); rewrite Hx; done.
Qed.

Lemma state_same_tail seg c : half_closed c -> handle_state seg c = c.
Proof. intros Hc. unfold handle_state. by destruct Hc as [-> | ->]. Qed.

Lemma apply_same_tail o c : half_closed c -> c_sndBuf c ≠ [] -> same_tail c (conn_apply c o).
Proof.
  intros Hc Hb. destruct o as [seg|d| |n]; cbn [conn_apply].
  - unfold handle. destruct (_ && _ && _).
    { split; [by right|done]. }
    cbv zeta. destruct (ack_same_tail seg c Hc Hb) as (H1 & H2 & H3).
    rewrite state_same_tail by done. by rewrite half_closed_not.
  - unfold TCP_Write. rewrite half_closed_not by done. done.
  - unfold TCP_Close. destruct Hc as [Ec|Ec]; rewrite Ec; cbn [snd].
    + rewrite tryfin_queued by done. split; [by left|done].
    + split; [by right|done].
  - unfold TCP_Recv. cbn [snd]. split; [exact Hc|done].
Qed.

Lemma applies_same_tail os : forall c,
  half_closed c -> c_sndBuf c ≠ [] -> same_tail c (fold_left conn_apply os c).
Proof.
  induction os as [|o os IH]; intros c Hc Hb; cbn [fold_left]; [done|].
  destruct (apply_same_tail o c Hc Hb) as (H1 & H2 & H3).
  destruct (IH (conn_apply c o) H1) as (J1 & J2 & J3); [by rewrite H2|].
  split; [done|]. by rewrite J2, J3.
Qed.

(** A write of more than a window leaves a tail in the queue. *)
Lemma flush_keeps n : forall c,
  c_inFlight (flush_loop n c) ++ c_sndBuf (flush_loop n c) = c_inFlight c ++ c_sndBuf c
  /\ (zlen (c_inFlight c) <= tcpWindowCap -> zlen (c_inFlight (flush_loop n c)) <= tcpWindowCap).
Proof.
  induction n as [|n IH]; intros c; cbn [flush_loop]; [done|].
  destruct (in_state stateEstablished c && (0 <? zlen (c_sndBuf c))
    && (zlen (c_inFlight c) <? tcpWindowCap)) eqn:E; [|done].
  rewrite !andb_true_iff, !Z.ltb_lt in E. destruct E as [[_ Hb] Hw]. cbv zeta.
  set (k := if _ <? Z.min _ _ then _ else _).
  assert (0 < k <= zlen (c_sndBuf c) /\ k <= tcpWindowCap - zlen (c_inFlight c)) as [Hk Hk2].
  { unfold k, tcpMaxSeg. case (Z.ltb_spec (tcpWindowCap - zlen (c_inFlight c))
      (Z.min 512 (zlen (c_sndBuf c)))); lia. }
  match goal with |- context [flush_loop n ?x] => destruct (IH x) as [I1 I2]; set (c1 := x) in * end.
  assert (Hz : zlen (slice (c_sndBuf c) 0 k) = k) by (rewrite zlen_slice; lia).
  assert (E1 : c_inFlight c1 = c_inFlight c ++ slice (c_sndBuf c) 0 k)
    by (unfold c1; by rewrite sendLocked_eq).
  assert (E2 : c_sndBuf c1 = drop (Z.to_nat k) (c_sndBuf c)) by (unfold c1; by rewrite sendLocked_eq).
  rewrite E1 in I1, I2. rewrite E2 in I1. split.
  - rewrite I1, <- app_assoc. f_equal. unfold slice. rewrite Z.sub_0_r, drop_0. apply take_drop.
  - intros _. apply I2. rewrite zlen_app. lia.
Qed.

Lemma flush_una n c : c_sndUNA (flush_loop n c) = c_sndUNA c.
Proof.
  revert c. induction n as [|n IH]; intros c; cbn [flush_loop]; [done|].
  destruct (_ && _); [|done]. rewrite IH, sendLocked_eq. done.
Qed.

Lemma write_leaves_tail c d :
  c_state c = stateEstablished -> c_finPending c = false -> c_sndBuf c = [] -> c_inFlight c = [] ->
  tcpWindowCap < zlen d ->
  let c1 := snd (TCP_Write d c) in
  c_sndBuf c1 ≠ [] /\ c_state c1 = stateEstablished /\ c_rcvNXT c1 = c_rcvNXT c
  /\ c_sndUNA c1 = c_sndUNA c.
Proof.
  intros Hs Hp Hb Hi Hd. cbv zeta. unfold TCP_Write. rewrite (proj2 (in_state_spec _ _) Hs), Hp, Hb.
  cbn [negb orb snd app]. unfold flushLocked. cbn [c_sndBuf set_sndBuf].
  destruct (flush_keeps (length d) (set_sndBuf d c)) as [K1 K2].
  destruct (flush_tx (length d) (set_sndBuf d c)) as [T1 _ _].
  cbn [c_sndBuf c_inFlight c_rcvNXT set_sndBuf] in *. rewrite Hi in *. split.
  - intros E. rewrite E, app_nil_r in K1. cbn [app] in K1. rewrite K1 in K2.
    change (zlen []) with 0 in K2. unfold tcpWindowCap in *. lia.
  - split; [by rewrite flush_state|]. split; [done|]. by rewrite flush_una.
Qed.

Lemma fin_to_close_wait fin c :
  c_state c = stateEstablished -> has_flag (seg_Flags fin) TCPFin = true ->
  has_flag (seg_Flags fin) TCPRst = false -> seg_Payload fin = [] ->
  u32 (seg_Seq fin) = c_rcvNXT c -> seg_Ack fin = c_sndUNA c ->
  c_state (handle fin c) = stateCloseWait /\ c_sndBuf (handle fin c) = c_sndBuf c.
Proof.
  intros Hs Hf Hr Hp Hq Ha. unfold handle. rewrite Hr. cbn [andb]. cbv zeta.
  rewrite handle_ack_old by done. unfold handle_state. rewrite Hs. unfold deliver_payload. rewrite Hp.
  change (0 <? zlen []) with false. cbn [andb]. unfold fin_in_order. rewrite Hp, Hf.
  change (zlen []) with 0. rewrite Z.add_0_r, Hq, Z.eqb_refl. cbn [andb].
  unfold accept_fin. rewrite sendLocked_eq. done.
Qed.

(** ** TCP *)

(** C11: The TCP stream is delivered in order: start from a dialled and a
    listening connection and let both sides write, read and close while the
    network loses, duplicates and reorders segments at will; at every moment
    the bytes a side has read and has ready to read are a prefix of the bytes
    the other side has written. *)
Theorem tcp_stream_in_order (lip rip : IP4) (lport rport : Z) (a b : endpoint) :
  rtc pstep (dialled lip rip lport rport, listening rip lip rport lport) (a, b) -> fits (a, b) ->
  (e_read a ++ c_rcvBuf (e_conn a)) `prefix_of` e_written b
  /\ (e_read b ++ c_rcvBuf (e_conn b)) `prefix_of` e_written a.
Proof.
  intros Hr Hf. pose proof (run_inv _ _ _ _ Hr Hf (start_inv lip rip lport rport)) as [_ _ Ha Hb].
  split; by eapply recv_prefix.
Qed.


(** C33: Over a network that delivers what is sent, the handshake of a
    dialled and a listening connection completes and is queued for Accept,
    and then any exchange of messages of up to one window each, in any order
    of speakers, arrives: each side's receive buffer holds exactly what the
    other side said. *)
Theorem tcp_conversation_delivered (lip rip : IP4) (lport rport : Z) (ms : list (bool * list byte)) :
  Forall (fun m => zlen (snd m) <= tcpWindowCap) ms ->
  let '(a, b) := handshake (e_conn (dialled lip rip lport rport))
                   (e_conn (listening rip lip rport lport)) in
  let '(a', b') := converse ms a b in
  c_state a = stateEstablished /\ c_state b = stateEstablished /\ c_lq b = Some 1
  /\ c_rcvBuf b' = said true ms /\ c_rcvBuf a' = said false ms.
Proof.
  intros Hm. pose proof (handshake_ok lip rip lport rport) as Hh.
  destruct (handshake _ _) as [a b]. destruct Hh as (Hs & Ea & Eb & El).
  pose proof (converse_ok ms a b Hs Hm) as Hc. destruct (converse ms a b) as [a' b'].
  destruct Hc as [Hb' Ha']. rewrite Eb in Hb'. rewrite Ea in Ha'. destruct Hs as [Qa Qb].
  split; [apply (q_state _ _ Qa)|]. split; [apply (q_state _ _ Qb)|]. done.
Qed.

(** A connection whose peer closes while more than a window of a write
    is queued never sends the rest: the write leaves a tail in the queue, the
    peer's FIN moves the connection to CLOSE-WAIT with that tail, and from
    then on, whatever segments arrive and whatever the application calls,
    Close included, the queue stays as it is and no segment, hence no FIN, is
    ever sent again. *)
Theorem tcp_close_wait_strands_tail (c : TCPConn) (d : list byte) (fin : TCPSegment) (os : list conn_op) :
  c_state c = stateEstablished -> c_finPending c = false -> c_sndBuf c = [] -> c_inFlight c = [] ->
  tcpWindowCap < zlen d ->
  has_flag (seg_Flags fin) TCPFin = true -> has_flag (seg_Flags fin) TCPRst = false ->
  seg_Payload fin = [] -> u32 (seg_Seq fin) = c_rcvNXT c -> seg_Ack fin = c_sndUNA c ->
  let c1 := handle fin (snd (TCP_Write d c)) in
  let c' := fold_left conn_apply os c1 in
  c_sndBuf c1 ≠ [] /\ c_sndBuf c' = c_sndBuf c1 /\ c_sent c' = c_sent c1.
Proof.
  intros Hs Hp Hb Hi Hd Hf Hr Hpl Hsq Hack. cbv zeta.
  destruct (write_leaves_tail c d Hs Hp Hb Hi Hd) as (W1 & W2 & W3 & W4).
  destruct (fin_to_close_wait fin (snd (TCP_Write d c))) as [F1 F2]; try done; [congruence..|].
  rewrite F2. split; [done|].
  destruct (applies_same_tail os (handle fin (snd (TCP_Write d c)))) as (_ & H1 & H2);
    [by left|by rewrite F2|]. by rewrite H1, F2.
Qed.

(** A connection that has closed its side and has its FIN acknowledged
    takes any FIN as the end of the stream, also one whose sequence number is
    ahead of what it received: it goes to CLOSED, and the missing bytes
    before that FIN are never delivered. *)
Theorem tcp_fin_ahead_of_stream_closes (c : TCPConn) (seg : TCPSegment) :
  c_state c = stateFinWait -> c_finSent c = true ->
  seqGE (c_sndUNA c) (u32 (c_finSeq c + 1)) = true ->
  has_flag (seg_Flags seg) TCPFin = true -> has_flag (seg_Flags seg) TCPRst = false ->
  seg_Ack seg = c_sndUNA c -> seg_Payload seg = [] -> u32 (seg_Seq seg) ≠ c_rcvNXT c ->
  c_state (handle seg c) = stateClosed /\ c_rcvBuf (handle seg c) = c_rcvBuf c
  /\ c_rcvNXT (handle seg c) = c_rcvNXT c.
Proof.
  intros Hs Hf Ha Hfin Hrst Hack Hp Hq. unfold handle. rewrite Hrst. cbn [andb]. cbv zeta.
  rewrite handle_ack_old by done. unfold handle_state. rewrite Hs. unfold deliver_payload. rewrite Hp.
  change (0 <? zlen []) with false. cbn [andb]. unfold fin_in_order. rewrite Hp, Hfin.
  change (zlen []) with 0. rewrite Z.add_0_r, (proj2 (Z.eqb_neq _ _)) by done. cbn [andb]. rewrite Hf, Ha.
  cbn [negb orb andb]. unfold in_state. cbn [c_state set_err set_state set_finAckedTheirFin].
  by rewrite bool_decide_false.
Qed.

(** ** The wire *)

(** A TCP segment written for a pair of addresses carries a checksum
    that verifies over the pseudo-header, and travels: wrapped in IPv4 and
    Ethernet, padding included, it parses back, layer by layer, to the same
    addresses and the same segment with its fields at their widths. *)
Theorem tcp_segment_on_the_wire (dmac smac : MAC) (src dst : IP4) (t : TCPSegment) :
  zlen (seg_Payload t) <= EthPayloadM - IP4HdrLen - TCPHdrLen ->
  let seg := tcp_with_checksum src dst (TCP_Build t) in
  let pkt := mkIP4Packet src dst IP4ProtoTCP Byte.x00 seg in
  Checksum (pseudo src dst IP4ProtoTCP seg) = 0
  /\ exists pad dg, IP4_Build pkt = Ok dg
     /\ ParseEth (BuildEth dmac smac EthTypeIPv4 dg) = Ok (mkEth dmac smac EthTypeIPv4 (dg ++ pad))
     /\ ParseIP4 (dg ++ pad) = Ok (mkIP4Packet src dst IP4ProtoTCP (z2b 64) seg)
     /\ ParseTCP seg = Ok (tcp_norm t).
Proof.
  intros Hl. cbv zeta. unfold EthPayloadM, MaxFrame, SlotDataLen, EthHdrLen, IP4HdrLen, TCPHdrLen in Hl.
  pose proof (tcp_with_checksum_eq src dst t) as He.
  assert (Hz : zlen (tcp_with_checksum src dst (TCP_Build t)) = 20 + zlen (seg_Payload t)).
  { rewrite He, !zlen_app. change (zlen (tcp_front t)) with 16. change (zlen (be16 _)) with 2. lia. }
  split; [apply TCP_checksum_valid; lia|].
  set (pkt := mkIP4Packet src dst IP4ProtoTCP Byte.x00 (tcp_with_checksum src dst (TCP_Build t))).
  assert (Hp : zlen (ip_Payload pkt) <= EthPayloadM - IP4HdrLen).
  { cbn [pkt ip_Payload]. rewrite Hz. unfold EthPayloadM, MaxFrame, SlotDataLen, EthHdrLen, IP4HdrLen. lia. }
  exists (mkbuf (46 - zlen (ip_hdr pkt ++ ip_Payload pkt))), (ip_hdr pkt ++ ip_Payload pkt).
  split; [by apply IP4_Build_eq|]. split; [apply ParseEth_Build|].
  split; [rewrite <- app_assoc; by rewrite ParseIP4_hdr|]. rewrite He. apply ParseTCP_front.
Qed.

(** A datagram in which any one byte of the 20-byte IPv4 header was
    changed on the way is not accepted. *)
Theorem ip_header_corruption_detected (p : IP4Packet) (dg : list byte) (i : nat) (x : byte) (r : IP4Packet) :
  IP4_Build p = Ok dg -> (i < 20)%nat -> dg !! i ≠ Some x -> ParseIP4 (<[i:=x]> dg) ≠ Ok r.
Proof.
  intros Hb Hi Hx.
  assert (Hl : zlen (ip_Payload p) <= EthPayloadM - IP4HdrLen).
  { unfold IP4_Build in Hb. destruct (Z.ltb_spec (EthPayloadM - IP4HdrLen) (zlen (ip_Payload p))); [done|lia]. }
  rewrite IP4_Build_eq in Hb by done. assert (dg = ip_hdr p ++ ip_Payload p) as -> by congruence.
  apply ip_header_detects; [done|].
  by rewrite lookup_app_l in Hx.
Qed.

(** ** The stack over its windows *)

(** A host on the packet windows answers a ping: when the receive
    window's next frame is an echo request for it and the next hop towards
    the sender is in its ARP cache, one pump takes that frame, appends to the
    transmit window exactly the echo reply with the same identifier, sequence
    number and data, and leaves the rest of both queues as they were. *)
Theorem ping_over_windows (s : Stack (F:=dualFeed)) (rx tx : list byte) (q out : list (list byte))
  (m mac : MAC) (src : IP4) (id seq : Z) (data : list byte) :
  s_feed s = mkDual rx tx -> s_hmu s = false ->
  ring_holds rx (ping_frame s m src id seq data :: q) -> ring_holds tx out -> zlen out < WinSlots ->
  0 <= id < 2 ^ 16 -> 0 <= seq < 2 ^ 16 -> zlen data <= 1484 -> hop_mac s src = Some mac ->
  exists rx' tx' s', pump s = (Ok true, s') /\ s_feed s' = mkDual rx' tx' /\ ring_holds rx' q
    /\ ring_holds tx' (out ++ [ip_frame mac (s_MAC s) (echo_packet (s_IP s) src ICMPEchoReply id seq data)]).
Proof.
  intros Hfd Hh Hrx Htx Ho Hi Hs Hl Hm.
  destruct (dual_Recv_ok rx tx _ q Hrx) as (rx' & Hr & Hrx').
  unfold pump, pump_body. rewrite Hh, Hfd. change (feed_Recv (mkDual rx tx)) with (dual_Recv (mkDual rx tx)).
  rewrite Hr, bind_modifyS. set (s1 := put_feed _ (put_hmu true s)).
  rewrite (ping_frame_same s s1) by done.
  rewrite (bind_ok _ _ _ _ _ (ping_answered (fun s => (Panic, s)) m src id seq data mac s1 Hi Hs Hl Hm)).
  rewrite bind_modifyS. unfold sent_frame. cbn [s_feed s1 rx_icmp rx_ip rx_eth put_RxICMP put_RxIPv4 put_RxEth put_feed].
  set (rep := ip_frame mac (s_MAC s1) _).
  destruct (dual_Send_ok rx' tx rep out) as (tx' & Hsd & Htx'); [done| |done|].
  { apply zlen_ip_frame. cbn [echo_packet ip_Payload]. rewrite zlen_ICMP_Build. cbn [icmp_Data].
    unfold EthPayloadM, MaxFrame, SlotDataLen, EthHdrLen, IP4HdrLen. lia. }
  change (feed_Send rep (mkDual rx' tx)) with (dual_Send rep (mkDual rx' tx)). rewrite Hsd.
  do 3 eexists. split; [reflexivity|]. split; [reflexivity|]. done.
Qed.

(** The same request from a sender whose next hop is not in the ARP
    cache never returns: answering it resolves the hop, which pumps for the
    reply while the frame being handled still holds the stack's lock.  One
    packet from an unknown neighbour stops the receive path. *)
Theorem pump_blocks_on_unknown_hop {F} `{PacketFeed F} (s : Stack (F:=F)) (m : MAC) (src h : IP4)
  (id seq : Z) (data : list byte) (feed : F) :
  s_hmu s = false -> feed_Recv (s_feed s) = (Some (ping_frame s m src id seq data), feed) ->
  src ≠ broadcastIP -> next_hop s src = Some h -> s_arp s !! h = None ->
  0 <= id < 2 ^ 16 -> 0 <= seq < 2 ^ 16 -> zlen data <= 1484 ->
  fst (pump s) = Panic.
Proof. intros Hh Hf Hb Hn Ha Hi Hs Hl. by apply (ping_blocks m src id seq data h feed). Qed.

(** Address resolution teaches both hosts: a host that looks up an
    address it does not know broadcasts a request; the owner of the address
    learns the asker from it and answers with one frame; and that frame makes
    the asker's cache map the address to the owner's hardware address, other
    entries of both caches unchanged. *)
Theorem arp_exchange {F G} `{PacketFeed F} `{PacketFeed G} (a : Stack (F:=F)) (b : Stack (F:=G))
  (p : SM bool) (p' : SM bool) (n : nat) :
  IsZero (s_IP a) = false -> IsZero (s_IP b) = false -> s_arp a !! s_IP b = None ->
  exists request reply b' a',
    Resolve p (s_IP b) n a = resolve_loop p (s_IP b) n (sent_frame request a)
    /\ handleFrame p' request b = (Ok tt, sent_frame reply b')
    /\ handleFrame p reply (sent_frame request a) = (Ok tt, a')
    /\ s_arp b' = <[s_IP a := s_MAC a]> (s_arp b) /\ s_arp a' = <[s_IP b := s_MAC b]> (s_arp a).
Proof.
  intros Ha Hb Hn. exists (arp_request (s_MAC a) (s_IP a) (s_IP b)),
    (arp_reply (s_MAC b) (s_IP b) (s_MAC a) (s_IP a)), (learned (s_IP a) (s_MAC a) b). eexists.
  split; [by apply Resolve_asks|]. split; [by apply handle_arp_request|].
  set (a1 := sent_frame _ a). change (s_MAC a) with (s_MAC a1) at 1. change (s_IP a) with (s_IP a1) at 1.
  split; [by apply handle_arp_reply|]. done.
Qed.

(** ** Sockets *)

(** What a client of the port sees: it opens a UDP socket on [p], the frame
    arrives, and it receives [data]. *)
Definition socket_receives {F} `{PacketFeed F} (keys : gmap Z netSocket -> list Z) (p max : Z)
  (frame data : list byte) (n : NetServer (F:=F)) : Prop :=
  forall feed, feed_Recv (s_feed (ns_stack n)) = (Some frame, feed) ->
  forall clk seq1 seq2, exists id n1 n2,
    net_dispatch keys clk NetOpOpen seq1 (pay2 NetKindUDP p) n
      = (Ok (Some (net_reply NetOpOpen seq1 (netStatusOK, openBody id))), n1)
    /\ onStack pump n1 = (Ok true, n2)
    /\ fst (net_dispatch keys clk NetOpRecv seq2 (pay2 id max) n2)
       = Ok (Some (net_reply NetOpRecv seq2 (netStatusOK, recvBody data))).

(** A datagram gets from one host's send call to another host's socket
    client: the sender emits one frame, and a client of the receiver's
    service that opened a UDP socket on the destination port, with that frame
    on the receiver's wire, receives exactly the data sent. *)
Theorem udp_end_to_end {F G} `{PacketFeed F} `{PacketFeed G} (a : Stack (F:=F)) (n : NetServer (F:=G))
  (keys : gmap Z netSocket -> list Z) (sport p max : Z) (data : list byte) :
  hop_mac a (s_IP (ns_stack n)) = Some (s_MAC (ns_stack n)) ->
  u_ports (s_udp (ns_stack n)) !! p = None -> s_hmu (ns_stack n) = false ->
  0 < p < 2 ^ 16 -> 0 < max < 2 ^ 16 -> zlen data <= max -> zlen data <= MaxUDPPayload ->
  exists frame,
    UDP_SendTo pump sport (s_IP (ns_stack n)) p data a = (Ok tt, sent_frame frame a)
    /\ socket_receives keys p max frame data n.
Proof.
  intros Hm Hu Hh Hp Hx Hd Hl. eexists. split; [by apply SendUDP_cached|].
  intros feed Hf clk seq1 seq2. set (b := ns_stack n) in *.
  pose proof (open_udp keys clk seq1 p n Hp Hu) as Ho. cbv zeta in Ho.
  set (id := u16 (ns_nextID n + 1)) in *. set (n1 := mkNetServer _ _ id _ _) in Ho.
  pose proof (pump_udp (s_MAC b) (s_MAC a) (s_IP a) (s_IP b) sport p data feed (ns_stack n1)
    Hh (for_us_refl b) ltac:(lia) Hl Hf) as Hpu.
  exists id, n1. eexists. split; [exact Ho|]. split; [unfold onStack; by rewrite Hpu|].
  apply (recv_udp keys clk seq2 id max data (length (u_queues (s_udp b))) p); try done.
  - apply u16_range.
  - cbn [put_stack ns_sockets n1]. apply lookup_insert_eq.
  - cbn [put_stack ns_stack n1 put_udp s_udp]. unfold deliver_udp, UDP_push. cbn [u_ports u_queues].
    rewrite lookup_insert_eq. cbn [u_queues]. rewrite list_lookup_alter, decide_True by done.
    fold b. by rewrite list_lookup_middle.
Qed.

(** C34: A request touches one socket: OPEN adds the next identifier, every
    other request changes at most the socket its payload names, and no
    request, malformed ones included, changes any other entry of the socket
    table. *)
Theorem net_sockets_isolated {F} `{PacketFeed F} (keys : gmap Z netSocket -> list Z)
  (clk : option (Z * Z)) (op seq : Z) (payload : list byte) (n : NetServer (F:=F)) (j : Z) :
  j ≠ target op payload n ->
  ns_sockets (snd (net_dispatch keys clk op seq payload n)) !! j = ns_sockets n !! j.
Proof. apply dispatch_touches. Qed.

(** The [RECV] of a TCP socket that is neither connected nor listening
    answers status OK with no data; the state error set for that case is
    overwritten. *)
Lemma net_recv_unconnected {F} `{PacketFeed F} (keys : gmap Z netSocket -> list Z)
  (clk : option (Z * Z)) (seq id max : Z) (n : NetServer (F:=F)) :
  0 <= id < 2 ^ 16 -> 0 <= max < 2 ^ 16 -> ns_sockets n !! id = Some (newSocket NetKindTCP) ->
  fst (net_dispatch keys clk NetOpRecv seq (pay2 id max) n)
  = Ok (Some (net_reply NetOpRecv seq (netStatusOK, recvBody []))).
Proof.
  intros Hi Hm Hs. destruct (Get16_pay2 id max) as [E0 E2]. unfold net_dispatch.
  change (NetOpRecv =? NetOpOpen) with false. change (NetOpRecv =? NetOpConn) with false.
  change (NetOpRecv =? NetOpSend) with false. change (NetOpRecv =? NetOpRecv) with true.
  cbv iota zeta. unfold do_recv. change (zlen (pay2 id max) <? 4) with false. cbv iota zeta.
  rewrite E0, E2, !u16_small by lia. unfold sock, mbind, M_bind, getS, mret, M_ret. rewrite Hs.
  change (k_kind (newSocket NetKindTCP) =? NetKindUDP) with false. by rewrite andb_false_r.
Qed.

(** ** DHCP *)

(** The DHCP parser returns on every input, a message or an error and
    never an index out of range; it accepts every REQUEST the client builds,
    reading back the transaction, the hardware address, the message type and
    the server; and it accepts no proper prefix of one, so a message cut off
    anywhere is never taken for a complete one. *)
Theorem dhcp_parse_total_and_complete (raw : list byte) (mac : MAC) (xid : Z) (offered server : IP4)
  (hostname params : list byte) (k : nat) :
  let msg := BuildRequest mac xid offered server hostname params in
  ParseDHCP raw ≠ Panic
  /\ ParseDHCP msg = Ok (with_server server (put_MsgType DHCPRequest
       (fresh_message dhcpOpBootRequest xid mac dhcpFlagBroadcast)))
  /\ ((k < length msg)%nat -> exists e, ParseDHCP (take k msg) = Err e).
Proof.
  cbv zeta. split; [apply ParseDHCP_total|]. split; [apply ParseDHCP_Request|].
  rewrite BuildRequest_eq. intros Hk. apply ParseDHCP_cut; [|done].
  apply (client_opts_ok offered server).
Qed.

(** A server that answers gives the client a lease: when the frame that
    follows the DISCOVER carries an offer with its transaction id, and the
    frame that follows the REQUEST an acknowledgement, acquiring returns the
    acknowledged address, mask, router, resolvers and lease time with the
    identity of the server that offered; it leaves the stack's own address
    alone and frees the client port. *)
Theorem dhcp_lease_acquired {F} `{PacketFeed F} (s : Stack (F:=F)) (xid : Z)
  (hostname params : list byte) (m1 m2 : DHCPMessage) (f1 f2 : F) (tries budget : nat) :
  s_hmu s = false -> u_ports (s_udp s) !! dhcpClientPort = None ->
  served s xid hostname params m1 m2 f1 f2 ->
  exists s', DHCPAcquire xid hostname params (S tries) (S (S budget)) s
    = (Ok (granted (offer_of m1) m2), s')
    /\ s_IP s' = s_IP s /\ u_ports (s_udp s') = u_ports (s_udp s) /\ s_feed s' = f2.
Proof. apply DHCPAcquire_answered. Qed.

(** A release never names the address it gives back: the client address of
    the message is zero for every [addr]. *)
Lemma dhcp_release_without_address (mac : MAC) (xid : Z) (addr server : IP4) :
  exists m, ParseDHCP (BuildRelease mac xid addr server) = Ok m
    /\ d_CIAddr m = IP4_zero /\ d_MsgType m = DHCPRelease /\ d_ServerID m = server.
Proof. rewrite ParseDHCP_Release. by eexists. Qed.

Lemma T2Ms_NewLease o :
  0 < o_LeaseTime o < 2 ^ 32 -> T2Ms (NewLease o true) = o_LeaseTime o * 875.
Proof.
  intros Hl. unfold T2Ms, NewLease. cbn [l_GrantedMs]. rewrite (proj2 (Z.ltb_lt _ _)) by lia.
  rewrite !u64_small by (rewrite ?u64_small; lia).
  replace (o_LeaseTime o * 1000 * 7) with (o_LeaseTime o * 875 * 8) by lia. apply Z.div_mul. lia.
Qed.

(** A fresh lease is past its deadline once the clock itself is. *)
Lemma Due_fresh o now clk :
  0 < o_LeaseTime o < 2 ^ 32 -> o_LeaseTime o * 875 <= now ->
  Due now clk (NewLease o true) = (false, true) /\ Expired now (NewLease o true) = true.
Proof.
  intros Hl Hn. pose proof (T2Ms_NewLease o Hl) as HT. unfold Due, Expired.
  assert (Hg : (l_GrantedMs (NewLease o true) =? 0) = false).
  { unfold NewLease. cbn [l_GrantedMs]. rewrite (proj2 (Z.ltb_lt _ _)) by lia.
    rewrite u64_small by lia. apply Z.eqb_neq. lia. }
  rewrite Hg, HT. cbn [orb negb l_clock NewLease]. change (0 <? BackoffMs clk _) with false.
  by rewrite (proj2 (Z.leb_le _ _)).
Qed.

(** The lease deadlines are compared with the clock itself and not with
    the time since the grant: once the clock has passed 87.5 percent of the
    lease time, the service renews on an idle pass, and the lease it has just
    been granted is due again, and counts as expired, at every later moment,
    so every idle pass renews. *)
Theorem renewal_never_settles {F} `{PacketFeed F} (n : NetServer (F:=F)) (l : Lease)
  (renew : SM (F:=F) Offer) (o : Offer) (s' : Stack) (now clk clk' : Z) :
  ns_lease n = Some l -> ns_renew n = Some renew -> renew (ns_stack n) = (Ok o, s') ->
  Due now clk l = (false, true) -> 0 < o_LeaseTime o < 2 ^ 32 -> o_LeaseTime o * 875 <= now ->
  exists n' l', serve_renewal (Some (now, clk, clk')) n = (Ok PassNone, n') /\ ns_lease n' = Some l'
    /\ l_Offer l' = o
    /\ forall now2 clk2, now <= now2 -> Due now2 clk2 l' = (false, true) /\ Expired now2 l' = true.
Proof.
  intros Hl Hr Ho Hd Ht Hn. unfold serve_renewal, NM. rewrite bind_getS, Hl, Hr, Hd. cbn [orb].
  rewrite (bind_ok _ _ _ (inr o) (put_stack s' n)); [|unfold attempt, onStack; by rewrite Ho].
  rewrite bind_modifyS. eexists _, (NewLease o true). split; [reflexivity|]. split; [reflexivity|].
  split; [done|]. intros now2 clk2 H2. apply Due_fresh; [done|lia].
Qed.

(** ** Instances of the properties *)

Definition ipA : IP4 := mkIP4 Byte.x0a Byte.x00 Byte.x00 Byte.x01.
Definition ipB : IP4 := mkIP4 Byte.x0a Byte.x00 Byte.x00 Byte.x02.
Definition macA : MAC := mkMAC Byte.x02 Byte.x00 Byte.x00 Byte.x00 Byte.x00 Byte.x0a.
Definition macB : MAC := mkMAC Byte.x02 Byte.x00 Byte.x00 Byte.x00 Byte.x00 Byte.x0b.

(** Segment [i] of [from] arrives at [to]. *)
Definition arrives (i : nat) (from to : endpoint) : endpoint :=
  match c_sent (e_conn from) !! i with
  | Some s => mkEndpoint (handle (tcp_norm s) (e_conn to)) (e_written to) (e_read to)
  | None => to
  end.

Lemma arrives_step i from to :
  is_Some (c_sent (e_conn from) !! i) -> estep from to (arrives i from to).
Proof.
  intros [s Hs]. unfold arrives. rewrite Hs. destruct to as [c w r]. apply (e_segment from c w r s).
  - by eapply list_elem_of_lookup_2.
  - by rewrite TCP_Build_eq, ParseTCP_front.
Qed.

Definition says (d : list byte) (e : endpoint) : endpoint :=
  mkEndpoint (snd (TCP_Write d (e_conn e))) (e_written e ++ d) (e_read e).

Lemma says_step d e peer : c_state (e_conn e) = stateEstablished -> c_finPending (e_conn e) = false ->
  estep peer e (says d e).
Proof.
  intros Hs Hf. destruct e as [c w r]. unfold says. cbn [e_conn e_written e_read] in *.
  apply (e_write peer c w r d (zlen d)). unfold TCP_Write, in_state.
  by rewrite bool_decide_true, Hf.
Qed.

(** A handshake, a write, its segment, and the same segment once more. *)
Definition ex_a0 : endpoint := dialled ipA ipB 40000 80.
Definition ex_b1 : endpoint := arrives 0 ex_a0 (listening ipB ipA 80 40000).
Definition ex_a1 : endpoint := arrives 0 ex_b1 ex_a0.
Definition ex_b2 : endpoint := arrives 1 ex_a1 ex_b1.
Definition ex_a2 : endpoint := says (bs "hello") ex_a1.
Definition ex_b3 : endpoint := arrives 2 ex_a2 ex_b2.
Definition ex_b4 : endpoint := arrives 2 ex_a2 ex_b3.

Lemma ex_run : rtc pstep (dialled ipA ipB 40000 80, listening ipB ipA 80 40000) (ex_a2, ex_b4).
Proof.
  apply (rtc_l _ _ (ex_a0, ex_b1)).
  { apply p_right, (arrives_step 0 ex_a0 (listening ipB ipA 80 40000)). vm_compute. by eexists. }
  apply (rtc_l _ _ (ex_a1, ex_b1)).
  { apply p_left, (arrives_step 0 ex_b1 ex_a0). vm_compute. by eexists. }
  apply (rtc_l _ _ (ex_a1, ex_b2)).
  { apply p_right, (arrives_step 1 ex_a1 ex_b1). vm_compute. by eexists. }
  apply (rtc_l _ _ (ex_a2, ex_b2)).
  { apply p_left, (says_step (bs "hello") ex_a1); by vm_compute. }
  apply (rtc_l _ _ (ex_a2, ex_b3)).
  { apply p_right, (arrives_step 2 ex_a2 ex_b2). vm_compute. by eexists. }
  apply (rtc_l _ _ (ex_a2, ex_b4)); [|apply rtc_refl].
  apply p_right, (arrives_step 2 ex_a2 ex_b3). vm_compute. by eexists.
Qed.

Lemma tcp_stream_in_order_witness :
  c_rcvBuf (e_conn ex_b4) = bs "hello"
  /\ (e_read ex_b4 ++ c_rcvBuf (e_conn ex_b4)) `prefix_of` e_written ex_a2.
Proof.
  split; [by vm_compute|].
  apply (tcp_stream_in_order ipA ipB 40000 80 ex_a2 ex_b4 ex_run). split; by vm_compute.
Defined.


Definition ex_talk : list (bool * list byte) := [(true, bs "GET"); (false, bs "OK"); (true, bs "!")].

Lemma tcp_conversation_delivered_witness :
  let '(a, b) := handshake (e_conn (dialled ipA ipB 40000 80)) (e_conn (listening ipB ipA 80 40000)) in
  let '(a', b') := converse ex_talk a b in
  c_state a = stateEstablished /\ c_state b = stateEstablished /\ c_lq b = Some 1
  /\ c_rcvBuf b' = bs "GET!" /\ c_rcvBuf a' = bs "OK".
Proof.
  apply (tcp_conversation_delivered ipA ipB 40000 80 ex_talk).
  repeat constructor; by vm_compute.
Defined.

(** The peer closes after 1024 of 1100 bytes are on their way. *)
Definition ex_peer_fin : TCPSegment := mkTCP 80 40000 1 1001 (Z.lor TCPFin TCPAck) 1024 [].

Lemma tcp_close_wait_strands_tail_witness :
  let c1 := handle ex_peer_fin (snd (TCP_Write (replicate 1100 Byte.x61) (e_conn ex_a1))) in
  let c' := fold_left conn_apply [OpClose; OpWrite (bs "x")] c1 in
  c_sndBuf c1 ≠ [] /\ c_sndBuf c' = c_sndBuf c1 /\ c_sent c' = c_sent c1.
Proof.
  apply (tcp_close_wait_strands_tail (e_conn ex_a1) (replicate 1100 Byte.x61) ex_peer_fin
    [OpClose; OpWrite (bs "x")]); vm_compute; reflexivity.
Defined.

(** One side closed and its FIN is acknowledged; the other's FIN arrives
    before the ten bytes in front of it. *)
Definition ex_finwait : TCPConn :=
  let a := snd (TCP_Close (e_conn ex_a1)) in
  let b := match last (c_sent a) with Some fin => handle (tcp_norm fin) (e_conn ex_b2) | None => e_conn ex_b2 end in
  match last (c_sent b) with Some ack => handle (tcp_norm ack) a | None => a end.
Definition ex_fin : TCPSegment :=
  mkTCP 80 40000 (u32 (c_rcvNXT ex_finwait + 10)) (c_sndUNA ex_finwait) (Z.lor TCPFin TCPAck) 1024 [].

Lemma tcp_fin_ahead_of_stream_closes_witness :
  c_state (handle ex_fin ex_finwait) = stateClosed
  /\ c_rcvBuf (handle ex_fin ex_finwait) = c_rcvBuf ex_finwait
  /\ c_rcvNXT (handle ex_fin ex_finwait) = c_rcvNXT ex_finwait.
Proof.
  apply (tcp_fin_ahead_of_stream_closes ex_finwait ex_fin).
  - vm_compute. reflexivity.
  - vm_compute. reflexivity.
  - vm_compute. reflexivity.
  - vm_compute. reflexivity.
  - vm_compute. reflexivity.
  - vm_compute. reflexivity.
  - vm_compute. reflexivity.
  - vm_compute. discriminate.
Defined.

Lemma tcp_segment_on_the_wire_witness :
  let seg := tcp_with_checksum ipA ipB (TCP_Build (mkTCP 40000 80 1 2 TCPAck 1024 (bs "hi"))) in
  Checksum (pseudo ipA ipB IP4ProtoTCP seg) = 0.
Proof.
  apply (tcp_segment_on_the_wire macB macA ipA ipB (mkTCP 40000 80 1 2 TCPAck 1024 (bs "hi"))).
  by vm_compute.
Defined.

Definition ex_packet : IP4Packet := mkIP4Packet ipA ipB IP4ProtoUDP Byte.x00 (bs "data").

Lemma ip_header_corruption_detected_witness : exists dg,
  IP4_Build ex_packet = Ok dg /\ ParseIP4 (<[19%nat := Byte.x03]> dg) ≠ Ok ex_packet.
Proof.
  eexists. split; [vm_compute; reflexivity|].
  apply (ip_header_corruption_detected ex_packet _ 19 Byte.x03 ex_packet);
    [vm_compute; reflexivity | lia | vm_compute; congruence].
Defined.

(** Host B, whose cache knows A, over any feed. *)
Definition hostB {F} (feed : F) : Stack := put_arp {[ipA := macA]} (NewStack macB ipB feed).
Definition ex_ping : list byte :=
  ip_frame macB macA (echo_packet ipA ipB ICMPEchoRequest 7 1 (bs "ping")).

Lemma fresh_ring : ring_holds (mkbuf RingSize) [].
Proof. apply ring_empty; vm_compute; [discriminate|reflexivity]. Qed.

Lemma ex_ping_size : 0 < zlen ex_ping <= SlotDataLen.
Proof. split; vm_compute; [reflexivity|discriminate]. Qed.

Lemma ping_over_windows_witness : exists rx tx rx' tx' s',
  pump (hostB (mkDual rx tx)) = (Ok true, s') /\ s_feed s' = mkDual rx' tx' /\ ring_holds rx' []
  /\ ring_holds tx' [ip_frame macA macB (echo_packet ipB ipA ICMPEchoReply 7 1 (bs "ping"))].
Proof.
  destruct (Ring_Send_ok (mkbuf RingSize) [] ex_ping fresh_ring ex_ping_size eq_refl) as (rx & _ & Hrx).
  exists rx, (mkbuf RingSize).
  apply (ping_over_windows (hostB (mkDual rx (mkbuf RingSize))) rx (mkbuf RingSize) [] [] macA macA ipA 7 1
    (bs "ping") eq_refl eq_refl Hrx fresh_ring).
  - reflexivity.
  - lia.
  - lia.
  - vm_compute. discriminate.
  - vm_compute. reflexivity.
Defined.

Lemma pump_blocks_on_unknown_hop_witness :
  fst (pump (NewStack macB ipB (mkWire [ex_ping]))) = Panic.
Proof.
  apply (pump_blocks_on_unknown_hop (NewStack macB ipB (mkWire [ex_ping])) macA ipA ipA 7 1 (bs "ping")
    (mkWire [])).
  - reflexivity.
  - reflexivity.
  - discriminate.
  - reflexivity.
  - reflexivity.
  - lia.
  - lia.
  - vm_compute. discriminate.
Defined.

Lemma arp_exchange_witness :
  let a := NewStack macA ipA NewWire in
  let b := NewStack macB ipB NewWire in
  exists request reply b' a',
    Resolve pump ipB 2000 a = resolve_loop pump ipB 2000 (sent_frame request a)
    /\ handleFrame pump request b = (Ok tt, sent_frame reply b')
    /\ handleFrame pump reply (sent_frame request a) = (Ok tt, a')
    /\ s_arp b' = <[ipA := macA]> ∅ /\ s_arp a' = <[ipB := macB]> ∅.
Proof.
  apply (arp_exchange (NewStack macA ipA NewWire) (NewStack macB ipB NewWire) pump pump 2000);
    reflexivity.
Defined.

Definition ex_server : NetServer := NewNetServer (NewStack macB ipB NewWire) None None.
Definition no_keys (m : gmap Z netSocket) : list Z := [].
Definition hostA : Stack := put_arp {[ipB := macB]} (NewStack macA ipA NewWire).

Lemma udp_end_to_end_witness : exists frame,
  UDP_SendTo pump 5000 ipB 53 (bs "query") hostA = (Ok tt, sent_frame frame hostA)
  /\ socket_receives no_keys 53 512 frame (bs "query") ex_server.
Proof.
  apply (udp_end_to_end hostA ex_server no_keys 5000 53 512 (bs "query")).
  - vm_compute. reflexivity.
  - vm_compute. reflexivity.
  - reflexivity.
  - lia.
  - lia.
  - vm_compute. discriminate.
  - vm_compute. discriminate.
Defined.

Lemma net_sockets_isolated_witness :
  ns_sockets (snd (net_dispatch no_keys None NetOpOpen 9 (pay2 NetKindUDP 53) ex_server)) !! 5 = None.
Proof.
  rewrite (net_sockets_isolated no_keys None NetOpOpen 9 (pay2 NetKindUDP 53) ex_server 5);
    [reflexivity|vm_compute; discriminate].
Defined.

Lemma dhcp_parse_total_and_complete_witness :
  exists e, ParseDHCP (take 255 (BuildRequest macA 0x1234 ipA ipB (bs "net") DefaultDHCPOptions)) = Err e.
Proof.
  apply (dhcp_parse_total_and_complete [] macA 0x1234 ipA ipB (bs "net") DefaultDHCPOptions 255).
  vm_compute. lia.
Defined.

(** A server's answer of the given type: an address, a mask and a lease. *)
Definition ex_answer (t : byte) : list byte :=
  splice (dhcpHeader dhcpOpBootReply 0x1234 macA 0) 16 (ip_bytes ipA)
  ++ enc_opts [(dhcpOptMessageType, [t]); (dhcpOptServerID, ip_bytes ipB);
               (dhcpOptSubnetMask, [Byte.xff; Byte.xff; Byte.xff; Byte.x00]);
               (dhcpOptLeaseTime, [Byte.x00; Byte.x00; Byte.x0e; Byte.x10])]
  ++ [dhcpOptEnd].
Definition ex_parsed (t : byte) : DHCPMessage :=
  match ParseDHCP (ex_answer t) with Ok m => m | _ => dhcp_fixed [] end.
Definition ex_answer_frame (t : byte) : list byte :=
  answer_frame macA macB ipB broadcastIP (ex_answer t).
Definition ex_client : Stack :=
  NewStack macA IP4_zero (mkWire [ex_answer_frame DHCPOffer; ex_answer_frame DHCPACK]).
Definition ex_discover : list byte := request_frame macA (BuildDiscover macA 0x1234 (bs "net") DefaultDHCPOptions).
Definition ex_request : list byte :=
  request_frame macA (BuildRequest macA 0x1234 ipA ipB (bs "net") DefaultDHCPOptions).

Lemma ex_answers s t :
  s_MAC s = macA -> t ∈ [DHCPOffer; DHCPACK] -> answers (F:=Wire) s 0x1234 (ex_answer_frame t) (ex_parsed t).
Proof.
  intros Hm Ht. split.
  - exists macA, macB, ipB, broadcastIP, (ex_answer t). split; [done|].
    split; [split; [by left|by right]|].
    repeat (apply elem_of_cons in Ht as [-> | Ht]; [split; vm_compute; [discriminate|reflexivity]|]).
    by apply elem_of_nil in Ht.
  - repeat (apply elem_of_cons in Ht as [-> | Ht]; [by vm_compute|]). by apply elem_of_nil in Ht.
Qed.

Lemma ex_served :
  served ex_client 0x1234 (bs "net") DefaultDHCPOptions (ex_parsed DHCPOffer) (ex_parsed DHCPACK)
    (mkWire [ex_answer_frame DHCPACK; ex_discover]) (mkWire [ex_discover; ex_request]).
Proof.
  split; try (vm_compute; reflexivity).
  - split; [vm_compute; discriminate|]. exists (ex_answer_frame DHCPOffer).
    split; [apply ex_answers; [done|by left]|reflexivity].
  - split; [vm_compute; discriminate|]. exists (ex_answer_frame DHCPACK).
    split; [apply ex_answers; [done|by right; left]|]. vm_compute. reflexivity.
Qed.

Lemma dhcp_lease_acquired_witness : exists s',
  DHCPAcquire 0x1234 (bs "net") DefaultDHCPOptions 3 20 ex_client
  = (Ok (mkOffer ipA (mkIP4 Byte.xff Byte.xff Byte.xff Byte.x00) IP4_zero [] 3600 ipB), s').
Proof.
  destruct (dhcp_lease_acquired ex_client 0x1234 (bs "net") DefaultDHCPOptions (ex_parsed DHCPOffer)
    (ex_parsed DHCPACK) _ _ 2 18 eq_refl eq_refl ex_served) as (s' & Hs & _).
  exists s'. rewrite Hs. vm_compute. reflexivity.
Defined.

(** A renewal that is granted an hour again. *)
Definition ex_hour : Offer := mkOffer ipA IP4_zero IP4_zero [] 3600 ipB.
Definition ex_leased : NetServer :=
  NewNetServer (NewStack macA ipA NewWire) (Some (NewLease ex_hour true)) (Some (mret ex_hour)).

Lemma renewal_never_settles_witness : exists n' l',
  serve_renewal (Some (3150000, 3150000, 3150000)) ex_leased = (Ok PassNone, n') /\ ns_lease n' = Some l'
  /\ l_Offer l' = ex_hour
  /\ forall now2 clk2, 3150000 <= now2 -> Due now2 clk2 l' = (false, true) /\ Expired now2 l' = true.
Proof.
  apply (renewal_never_settles ex_leased (NewLease ex_hour true) (mret ex_hour) ex_hour
    (NewStack macA ipA NewWire) 3150000 3150000 3150000).
  - reflexivity.
  - reflexivity.
  - reflexivity.
  - vm_compute. reflexivity.
  - vm_compute. split; reflexivity.
  - vm_compute. discriminate.
Defined.
