(* ===== verification/KernHeap.v ===== *)
(** * KernHeap: the kernel's memory ([core/mm.cc], the heap of [core/rt.cc])

    The bump pool and the heap above it: 32-byte block headers, one free list
    per power-of-two size class up to 1 MiB, and one first-fit list of larger
    blocks.  Addresses are integers; the headers written so far are a map from
    their address, so the free lists are followed through [h_next_free] as the
    code follows them.  [heap_inv] says that the blocks tile disjoint parts of
    the pool and that every block is either live or on exactly one free list;
    allocation and release keep it. *)

From S2P Require Import Prelude.

(** ** The pool *)

(** [hdr] of rt.cc; [sizeof(hdr)] is 32. *)
Record hdr := mkHdr { h_size : Z; h_next_free : Z; h_magic : Z; h_cls : Z }.
Definition hdr_size : Z := 32.

Record Heap := mkHeap {
  pool_base : Z; pool_ptr : Z; pool_end : Z;
  hdrs : gmap Z hdr;
  bins : list Z;
  large_list : Z
}.

Definition RT_MAGIC : Z := 0x5254484452414D31.
Definition RT_LARGE_CLASS : Z := 0xFFFFFFFFFFFFFFFF.
Definition RT_LARGE_MIN : Z := 2 ^ 20.
Definition NCLASS : Z := 21.

Definition mm_total_bytes (m : Heap) : Z :=
  if pool_base m <? pool_end m then pool_end m - pool_base m else 0.
Definition mm_used_bytes (m : Heap) : Z :=
  if pool_base m <? pool_ptr m then pool_ptr m - pool_base m else 0.

Definition set_ptr (m : Heap) (p : Z) : Heap :=
  mkHeap (pool_base m) p (pool_end m) (hdrs m) (bins m) (large_list m).
Definition set_hdr (m : Heap) (a : Z) (x : hdr) : Heap :=
  mkHeap (pool_base m) (pool_ptr m) (pool_end m) (<[a := x]> (hdrs m)) (bins m) (large_list m).
Definition set_bin (m : Heap) (c a : Z) : Heap :=
  mkHeap (pool_base m) (pool_ptr m) (pool_end m) (hdrs m) (<[Z.to_nat c := a]> (bins m)) (large_list m).
Definition set_large (m : Heap) (a : Z) : Heap :=
  mkHeap (pool_base m) (pool_ptr m) (pool_end m) (hdrs m) (bins m) a.

(** The null pointer is 0. *)
Definition mm_alloc (n align : Z) (m : Heap) : Z * Heap :=
  let align := if align =? 0 then 16 else align in
  let p := Z.land (u64 (pool_ptr m + align - 1)) (Z.lnot (align - 1)) in
  if pool_end m <? u64 (p + n) then (0, m) else (p, set_ptr m (u64 (p + n))).

(** ** The heap *)

Fixpoint cls_from (fuel : nat) (c n : Z) : Z :=
  match fuel with
  | O => c
  | S f => if (c <? NCLASS) && (2 ^ c <? n) then cls_from f (c + 1) n else c
  end.

(** From 4 the loop makes at most 17 steps. *)
Definition cls_of (n : Z) : Z := cls_from 17 4 n.

Definition bin_of (m : Heap) (c : Z) : Z := default 0 (bins m !! Z.to_nat c).

(** The block's fields read at an address without a header are zero. *)
Definition hdr_at (m : Heap) (a : Z) : hdr := default (mkHdr 0 0 0 0) (hdrs m !! a).

Fixpoint large_walk (fuel : nat) (prev h need : Z) (m : Heap) : Z * Heap :=
  match fuel with
  | O => (0, m)
  | S f =>
      if h =? 0 then (0, m)
      else
        let x := hdr_at m h in
        if need <=? h_size x then
          let m1 := if negb (prev =? 0)
                    then let y := hdr_at m prev in
                         set_hdr m prev (mkHdr (h_size y) (h_next_free x) (h_magic y) (h_cls y))
                    else set_large m (h_next_free x) in
          (h, set_hdr m1 h (mkHdr (h_size x) 0 (h_magic x) (h_cls x)))
        else large_walk f h (h_next_free x) need m
  end.

(** A list without a cycle has at most one entry per header. *)
Definition large_fit (need : Z) (m : Heap) : Z * Heap :=
  large_walk (S (size (hdrs m))) 0 (large_list m) need m.

(** [h->magic = RT_MAGIC; return h + 1]. *)
Definition hand_out (h : Z) (m : Heap) : Z * Heap :=
  let x := hdr_at m h in
  (h + hdr_size, set_hdr m h (mkHdr (h_size x) (h_next_free x) RT_MAGIC (h_cls x))).

(** A block of [sz] bytes straight from the pool, of class [c]. *)
Definition fresh_block (sz c : Z) (m : Heap) : Z * Heap :=
  let '(h, m1) := mm_alloc sz 16 m in
  if h =? 0 then (0, m1)
  else
    let x := hdr_at m1 h in
    hand_out h (set_hdr m1 h (mkHdr sz (h_next_free x) (h_magic x) c)).

Definition need_of (n : Z) : Z := Z.land (u64 ((if n =? 0 then 1 else n) + hdr_size + 15)) (Z.lnot 15).

Definition rt_malloc (n : Z) (m : Heap) : Z * Heap :=
  let need := need_of n in
  if RT_LARGE_MIN <=? need then
    let '(h, m1) := large_fit need m in
    if negb (h =? 0) then hand_out h m1
    else fresh_block need RT_LARGE_CLASS m1
  else
    let c := cls_of need in
    if c <? NCLASS then
      if negb (bin_of m c =? 0) then
        let h := bin_of m c in
        hand_out h (set_bin m c (h_next_free (hdr_at m h)))
      else fresh_block (2 ^ c) c m
    else fresh_block need RT_LARGE_CLASS m.

Definition rt_free (p : Z) (m : Heap) : Heap :=
  if p =? 0 then m
  else
    let h := p - hdr_size in
    let x := hdr_at m h in
    if negb (h_magic x =? RT_MAGIC) then m
    else if (h_cls x =? RT_LARGE_CLASS) || (RT_LARGE_MIN <=? h_size x) then
      set_large (set_hdr m h (mkHdr (h_size x) (large_list m) (h_magic x) (h_cls x))) h
    else
      let c := if (h_cls x <? 4) || (NCLASS <=? h_cls x) then cls_of (h_size x) else h_cls x in
      if NCLASS <=? c then m
      else set_bin (set_hdr m h (mkHdr (h_size x) (bin_of m c) (h_magic x) (h_cls x))) c h.

(** The bytes copied from the old block to the new one are not part of the
    heap's own state. *)
Definition rt_realloc (p n : Z) (m : Heap) : Z * Heap :=
  if p =? 0 then rt_malloc n m
  else
    let x := hdr_at m (p - hdr_size) in
    if negb (h_magic x =? RT_MAGIC) then (p, m)
    else if n <=? h_size x - hdr_size then (p, m)
    else
      let '(q, m1) := rt_malloc n m in
      if q =? 0 then (0, m1) else (q, rt_free p m1).

Definition rt_calloc (n sz : Z) (m : Heap) : Z * Heap :=
  if negb (n =? 0) && ((2 ^ 64 - 1) / n <? sz) then (0, m) else rt_malloc (u64 (n * sz)) m.

(** ** What the heap is *)

Fixpoint chain (H : gmap Z hdr) (a : Z) (l : list Z) : Prop :=
  match l with
  | [] => a = 0
  | x :: l => a = x /\ x ≠ 0 /\ exists y, H !! x = Some y /\ chain H (h_next_free y) l
  end.

(** List [NCLASS] is the list of large blocks. *)
Definition head_at (m : Heap) (c : Z) : Z := if c =? NCLASS then large_list m else bin_of m c.

Definition is_list (c : Z) : Prop := 4 <= c <= NCLASS.

Definition fits_list (c : Z) (x : hdr) : Prop :=
  if c =? NCLASS then RT_LARGE_MIN <= h_size x else h_cls x = c /\ h_size x = 2 ^ c.

Record block_ok (m : Heap) (a : Z) (x : hdr) : Prop := {
  bo_pool : pool_base m <= a /\ a + h_size x <= pool_ptr m;
  bo_size : 48 <= h_size x;
  bo_magic : h_magic x = RT_MAGIC;
  bo_kind : (h_cls x = RT_LARGE_CLASS /\ RT_LARGE_MIN <= h_size x)
            \/ (4 <= h_cls x < NCLASS /\ h_size x = 2 ^ h_cls x)
}.

(** [live] holds the pointers handed out and not freed, [fl] the free lists. *)
Record heap_wf (m : Heap) (live : gset Z) (fl : Z -> list Z) : Prop := {
  wf_pool : 0 < pool_base m <= pool_ptr m /\ pool_ptr m <= pool_end m <= 2 ^ 32;
  wf_bins : length (bins m) = 21%nat;
  wf_block : forall a x, hdrs m !! a = Some x -> block_ok m a x;
  wf_disj : forall a b x y, a < b -> hdrs m !! a = Some x -> hdrs m !! b = Some y -> a + h_size x <= b;
  wf_live : forall p, p ∈ live -> is_Some (hdrs m !! (p - hdr_size)) /\ forall c, is_list c -> p - hdr_size ∉ fl c;
  wf_chain : forall c, is_list c -> chain (hdrs m) (head_at m c) (fl c);
  wf_nodup : forall c, is_list c -> NoDup (fl c);
  wf_sep : forall c d a, is_list c -> is_list d -> a ∈ fl c -> a ∈ fl d -> c = d;
  wf_fits : forall c a x, is_list c -> a ∈ fl c -> hdrs m !! a = Some x -> fits_list c x;
  wf_no20 : fl 20 = []
}.

Definition heap_inv (m : Heap) (live : gset Z) : Prop := exists fl, heap_wf m live fl.

(** The usable bytes of the block behind a pointer. *)
Definition capacity (m : Heap) (p : Z) : Z := h_size (hdr_at m (p - hdr_size)) - hdr_size.

Lemma align16 a : Z.land a (Z.lnot 15) = a / 16 * 16.
Proof.
  rewrite <-Z.ldiff_land. change 15 with (Z.ones 4).
  rewrite Z.ldiff_ones_r, Z.shiftl_mul_pow2, Z.shiftr_div_pow2 by lia. done.
Qed.

Lemma mm_alloc_spec n m p m' :
  0 < pool_base m <= pool_ptr m -> pool_ptr m <= pool_end m <= 2 ^ 32 -> 0 <= n < 2 ^ 63 ->
  mm_alloc n 16 m = (p, m') ->
  (p = 0 /\ m' = m) \/ (pool_ptr m <= p /\ p + n <= pool_end m /\ m' = set_ptr m (p + n)).
Proof.
  intros Hb He Hn. unfold mm_alloc. cbn [Z.eqb]. change (16 - 1) with 15. rewrite align16.
  rewrite (u64_small (_ + 16 - 1)) by lia.
  pose proof (Z.div_mod (pool_ptr m + 16 - 1) 16) as Hd.
  pose proof (Z.mod_pos_bound (pool_ptr m + 16 - 1) 16).
  rewrite u64_small by lia.
  destruct (Z.ltb_spec (pool_end m) ((pool_ptr m + 16 - 1) / 16 * 16 + n)); intros [= <- <-]; [by left|].
  right. repeat split; lia.
Qed.

Lemma cls_from_spec n : forall fuel c, n <= 2 ^ 20 -> c <= 20 -> 20 <= c + Z.of_nat fuel ->
  c <= cls_from fuel c n <= 20 /\ n <= 2 ^ cls_from fuel c n.
Proof.
  induction fuel as [|fuel IH]; intros c Hn Hc Hf; cbn [cls_from].
  - assert (c = 20) as -> by lia. lia.
  - destruct (Z.ltb_spec c NCLASS); [|unfold NCLASS in *; lia].
    destruct (Z.ltb_spec (2 ^ c) n); cbn [andb]; [|lia].
    assert (c ≠ 20) by (intros ->; lia).
    destruct (IH (c + 1)); lia.
Qed.

Lemma cls_of_spec n : n <= 2 ^ 20 -> 4 <= cls_of n < NCLASS /\ n <= 2 ^ cls_of n.
Proof. intros. pose proof (cls_from_spec n 17 4). unfold cls_of, NCLASS. lia. Qed.

Lemma need_of_spec n : 0 <= n < 2 ^ 62 -> 48 <= need_of n < 2 ^ 63 /\ n + hdr_size <= need_of n.
Proof.
  intros. unfold need_of, hdr_size. rewrite align16.
  assert (exists k, (if n =? 0 then 1 else n) = k /\ 1 <= k /\ n <= k < 2 ^ 62) as (k & -> & ? & ?).
  { destruct (Z.eqb_spec n 0); eexists; split; try reflexivity; lia. }
  rewrite u64_small by lia.
  pose proof (Z.div_mod (k + 32 + 15) 16). pose proof (Z.mod_pos_bound (k + 32 + 15) 16).
  assert (3 <= (k + 32 + 15) / 16) by (apply Z.div_le_lower_bound; lia). lia.
Qed.

(** ** Free lists *)

Lemma chain_ext H H' a l :
  (forall x, x ∈ l -> H' !! x = H !! x) -> chain H a l -> chain H' a l.
Proof.
  revert a. induction l as [|x l IH]; intros a Heq; cbn [chain]; [done|].
  intros (-> & Hx & y & Hy & Hc). split_and!; [done..|]. exists y. split.
  - rewrite Heq; [done|set_solver].
  - apply IH; [|done]. intros. apply Heq. set_solver.
Qed.

Lemma chain_elem H a l x : chain H a l -> x ∈ l -> is_Some (H !! x).
Proof.
  revert a. induction l as [|z l IH]; intros a; cbn [chain]; [set_solver|].
  intros (-> & _ & y & Hy & Hc) [->|Hin]%elem_of_cons; [eauto|]. eapply IH; eauto.
Qed.

Lemma chain_length H a l : chain H a l -> NoDup l -> (length l <= size H)%nat.
Proof.
  intros Hc Hn. rewrite <-(size_dom (D:=gset Z) H), <-(size_list_to_set (C:=gset Z) l) by done.
  apply subseteq_size. intros x Hx. apply elem_of_dom. eapply chain_elem; [done|].
  by apply elem_of_list_to_set in Hx.
Qed.

(** [y]'s header with another link. *)
Definition relink (y : hdr) (n : Z) : hdr := mkHdr (h_size y) n (h_magic y) (h_cls y).

Lemma chain_head H a x l : chain H a (x :: l) -> a = x /\ x ≠ 0 /\ exists y, H !! x = Some y /\ chain H (h_next_free y) l.
Proof. done. Qed.

Lemma chain_pop H a x l hx n :
  chain H a (x :: l) -> NoDup (x :: l) -> H !! x = Some hx ->
  chain (<[x := relink hx n]> H) (h_next_free hx) l.
Proof.
  intros (_ & _ & y & Hy & Hc) [Hx _]%NoDup_cons Hhx. assert (y = hx) as -> by congruence.
  eapply chain_ext; [|done]. intros z Hz. apply lookup_insert_ne. congruence.
Qed.

Lemma chain_unlink H pre y x l hy hx : forall a,
  chain H a (pre ++ y :: x :: l) -> NoDup (pre ++ y :: x :: l) -> H !! y = Some hy -> H !! x = Some hx ->
  chain (<[x := relink hx 0]> (<[y := relink hy (h_next_free hx)]> H)) a (pre ++ y :: l).
Proof.
  induction pre as [|z pre IH]; intros a Hc Hn Hhy Hhx; cbn [app] in *.
  - destruct Hc as (-> & Hy0 & y' & Hy' & Hc). apply NoDup_cons in Hn as [Hyn Hn].
    assert (x ≠ y) by (intros ->; apply Hyn; left). assert (y' = hy) as -> by congruence.
    split_and!; [done..|]. exists (relink hy (h_next_free hx)). split; [by simplify_map_eq|].
    cbn [relink h_next_free]. eapply chain_pop; [|done|by simplify_map_eq].
    eapply chain_ext; [|done]. intros z Hz. apply lookup_insert_ne. congruence.
  - destruct Hc as (-> & Hz0 & z' & Hz' & Hc). apply NoDup_cons in Hn as [Hzn Hn].
    split_and!; [done..|]. exists z'. split; [|by apply IH].
    rewrite !lookup_insert_ne by set_solver. done.
Qed.

(** Taking a block off the list changes links only. *)
Record only_links (m m' : Heap) : Prop := {
  ol_base : pool_base m' = pool_base m;
  ol_ptr : pool_ptr m' = pool_ptr m;
  ol_end : pool_end m' = pool_end m;
  ol_bins : bins m' = bins m;
  ol_hdrs : forall a, (fun x => relink x 0) <$> hdrs m' !! a = (fun x => relink x 0) <$> hdrs m !! a
}.

Lemma hdr_at_some m a x : hdrs m !! a = Some x -> hdr_at m a = x.
Proof. unfold hdr_at. by intros ->. Qed.

Lemma relink_insert (H : gmap Z hdr) a x n b : H !! a = Some x ->
  (fun x => relink x 0) <$> <[a := relink x n]> H !! b = (fun x => relink x 0) <$> H !! b.
Proof.
  intros Ha. destruct (decide (b = a)) as [->|]; [|by rewrite lookup_insert_ne].
  rewrite lookup_insert_eq, Ha. done.
Qed.

Definition took (m : Heap) (l : list Z) (need h : Z) (m' : Heap) : Prop :=
  exists l1 l2 x, l = l1 ++ h :: l2 /\ hdrs m !! h = Some x /\ need <= h_size x
    /\ chain (hdrs m') (large_list m') (l1 ++ l2) /\ only_links m m'
    /\ forall a, a ∉ l -> hdrs m' !! a = hdrs m !! a.

Lemma chain_nonzero H a l x : chain H a l -> x ∈ l -> x ≠ 0.
Proof.
  revert a. induction l as [|z l IH]; intros a; cbn [chain]; [set_solver|].
  intros (-> & ? & y & Hy & Hc) [->|Hin]%elem_of_cons; [done|]. eapply IH; eauto.
Qed.

Lemma chain_next H a l1 x l2 hx :
  chain H a (l1 ++ x :: l2) -> H !! x = Some hx -> h_next_free hx = default 0 (head l2).
Proof.
  revert a. induction l1 as [|z l1 IH]; intros a; cbn [app chain].
  - intros (_ & _ & y & Hy & Hc) Hx. assert (y = hx) as -> by congruence. by destruct l2; [|destruct Hc].
  - intros (_ & _ & y & Hy & Hc) Hx. by eapply IH.
Qed.

(** What [large_walk] does when it stops at [h], with [prev] before it. *)
Definition unlink (prev h : Z) (m : Heap) : Heap :=
  let x := hdr_at m h in
  let m1 := if negb (prev =? 0)
            then let y := hdr_at m prev in
                 set_hdr m prev (mkHdr (h_size y) (h_next_free x) (h_magic y) (h_cls y))
            else set_large m (h_next_free x) in
  set_hdr m1 h (mkHdr (h_size x) 0 (h_magic x) (h_cls x)).

Lemma take_block m pre x l hx :
  chain (hdrs m) (large_list m) (pre ++ x :: l) -> NoDup (pre ++ x :: l) -> hdrs m !! x = Some hx ->
  let m' := unlink (default 0 (last pre)) x m in
  chain (hdrs m') (large_list m') (pre ++ l) /\ only_links m m'
  /\ forall a, a ∉ pre ++ x :: l -> hdrs m' !! a = hdrs m !! a.
Proof.
  intros Hc Hn Hx. unfold unlink. rewrite (hdr_at_some _ _ _ Hx).
  destruct pre as [|y pre _] using rev_ind; cbn [last default Z.eqb negb].
  - cbn [app] in *. destruct (chain_head _ _ _ _ Hc) as (? & _ & _). split_and!.
    + by eapply chain_pop.
    + split; try done. intros a. cbn. fold (relink hx 0). by apply relink_insert.
    + intros a Ha. cbn. assert (x ≠ a) by (clear -Ha; set_solver). by rewrite lookup_insert_ne.
  - rewrite last_snoc. cbn [default from_option id]. rewrite <-!app_assoc in *. cbn [app] in *.
    assert (is_Some (hdrs m !! y)) as [hy Hy] by (eapply chain_elem; [done|set_solver]).
    assert (y ≠ 0) by (eapply chain_nonzero; [done|set_solver]).
    rewrite (proj2 (Z.eqb_neq y 0)), (hdr_at_some _ _ _ Hy) by done. cbn [negb]. split_and!.
    + by apply chain_unlink.
    + split; try done. intros a. cbn. fold (relink hx 0) (relink hy (h_next_free hx)).
      assert (x ≠ y). { intros ->. apply NoDup_app in Hn as (_ & _ & [Hn _]%NoDup_cons). apply Hn. left. }
      rewrite relink_insert by (by rewrite lookup_insert_ne). by apply relink_insert.
    + intros a Ha. cbn. assert (x ≠ a /\ y ≠ a) as [??] by (clear -Ha; set_solver).
      by rewrite !lookup_insert_ne.
Qed.

Lemma large_walk_spec need m : forall l pre fuel prev h,
  chain (hdrs m) (large_list m) (pre ++ l) -> NoDup (pre ++ l) -> (length l < fuel)%nat ->
  prev = default 0 (last pre) -> h = default 0 (head l) ->
  (large_walk fuel prev h need m = (0, m) /\ forall a x, a ∈ l -> hdrs m !! a = Some x -> h_size x < need)
  \/ exists a m', large_walk fuel prev h need m = (a, m') /\ a ∈ l /\ took m (pre ++ l) need a m'.
Proof.
  induction l as [|x l IH]; intros pre fuel prev h Hc Hn Hf -> ->.
  - left. destruct fuel; [cbn in *; lia|]. cbn [large_walk head default]. split; [done|set_solver].
  - destruct fuel as [|fuel]; [cbn in *; lia|]. cbn [large_walk head default from_option id].
    assert (is_Some (hdrs m !! x)) as [hx Hx] by (eapply chain_elem; [done|set_solver]).
    assert (x ≠ 0) as Hx0 by (eapply chain_nonzero; [done|set_solver]).
    rewrite (proj2 (Z.eqb_neq x 0)), (hdr_at_some _ _ _ Hx) by done.
    destruct (Z.leb_spec need (h_size hx)) as [Hle|Hlt].
    + right. exists x, (unlink (default 0 (last pre)) x m).
      split; [unfold unlink; by rewrite (hdr_at_some _ _ _ Hx)|]. split; [set_solver|].
      exists pre, l, hx. do 3 (split; [done|]). by apply (take_block m pre x l hx).
    + rewrite (chain_next _ _ _ _ _ _ Hc Hx).
      destruct (IH (pre ++ [x]) fuel x (default 0 (head l))) as [[-> Hs]|(a & m' & -> & Ha & Ht)];
        rewrite <-?app_assoc; try done; [cbn in *; lia|by rewrite last_snoc| |].
      * left. split; [done|]. intros a y [->|Ha]%elem_of_cons Hy; [naive_solver lia|by apply (Hs a)].
      * right. exists a, m'. split; [done|]. split; [set_solver|]. by rewrite <-app_assoc in Ht.
Qed.

Lemma large_fit_spec need m l :
  chain (hdrs m) (large_list m) l -> NoDup l ->
  (large_fit need m = (0, m) /\ forall a x, a ∈ l -> hdrs m !! a = Some x -> h_size x < need)
  \/ exists a m', large_fit need m = (a, m') /\ a ∈ l /\ took m l need a m'.
Proof.
  intros Hc Hn. apply (large_walk_spec need m l [] _ 0); try done.
  - pose proof (chain_length _ _ _ Hc Hn). lia.
  - destruct l; [done|]. by destruct Hc.
Qed.

(** ** Allocation and release keep the heap *)

(** Changing links only keeps blocks and their sizes. *)
Lemma only_links_block m m' a x : only_links m m' -> hdrs m' !! a = Some x ->
  exists y, hdrs m !! a = Some y /\ relink x 0 = relink y 0.
Proof.
  intros [_ _ _ _ Hh] Ha. specialize (Hh a). rewrite Ha in Hh.
  destruct (hdrs m !! a) as [y|]; [|done]. exists y. cbn in Hh. split; congruence.
Qed.

Lemma hand_out_id m h x : hdrs m !! h = Some x -> h_magic x = RT_MAGIC -> hand_out h m = (h + hdr_size, m).
Proof.
  intros Hx Hm. unfold hand_out. rewrite (hdr_at_some _ _ _ Hx), <-Hm. unfold set_hdr.
  destruct x; cbn. rewrite insert_id by done. by destruct m.
Qed.

Lemma bin_of_set m c d a : length (bins m) = 21%nat -> 0 <= c < NCLASS -> 0 <= d ->
  bin_of (set_bin m c a) d = if d =? c then a else bin_of m d.
Proof.
  intros Hl Hc Hd. unfold bin_of, set_bin. cbn. unfold NCLASS in *. destruct (Z.eqb_spec d c) as [->|].
  - by rewrite list_lookup_insert_eq by lia.
  - by rewrite list_lookup_insert_ne by lia.
Qed.

(** The free lists with list [c] replaced by [l]. *)
Definition upd (fl : Z -> list Z) (c : Z) (l : list Z) : Z -> list Z := fun d => if d =? c then l else fl d.

Lemma upd_eq fl c l : upd fl c l c = l.
Proof. unfold upd. by rewrite Z.eqb_refl. Qed.

Lemma upd_sub fl c l d a : (forall a, a ∈ l -> a ∈ fl c) -> a ∈ upd fl c l d -> a ∈ fl d.
Proof. intros Hs. unfold upd. destruct (Z.eqb_spec d c) as [->|]; auto. Qed.

(** Handing out a block that was on free list [c], now [l]. *)
Lemma wf_take m m' live fl c h l x :
  heap_wf m live fl -> is_list c -> h ∈ fl c -> hdrs m !! h = Some x ->
  (forall a, a ∈ l -> a ∈ fl c) -> h ∉ l -> NoDup l ->
  chain (hdrs m') (head_at m' c) l ->
  (forall d, is_list d -> d ≠ c -> head_at m' d = head_at m d) ->
  (forall a, a ∉ fl c -> hdrs m' !! a = hdrs m !! a) ->
  pool_base m' = pool_base m -> pool_ptr m' = pool_ptr m -> pool_end m' = pool_end m ->
  length (bins m') = 21%nat ->
  (forall a, (fun x => relink x 0) <$> hdrs m' !! a = (fun x => relink x 0) <$> hdrs m !! a) ->
  heap_wf m' (live ∪ {[h + hdr_size]}) (upd fl c l).
Proof.
  intros W Hc Hh Hx Hsub Hhl Hnl Hch Hhead Hout Hb Hp He Hbl Hlink.
  assert (forall a y, hdrs m' !! a = Some y -> exists z, hdrs m !! a = Some z /\ relink y 0 = relink z 0) as Hback.
  { intros a y Ha. specialize (Hlink a). rewrite Ha in Hlink. destruct (hdrs m !! a) as [z|]; [|done].
    exists z. split; [done|]. cbn in Hlink. congruence. }
  assert (forall a, is_Some (hdrs m !! a) -> is_Some (hdrs m' !! a)) as Hfwd.
  { intros a [y Hy]. specialize (Hlink a). rewrite Hy in Hlink. destruct (hdrs m' !! a); [eauto|done]. }
  destruct W as [W1 W2 W3 W4 W5 W6 W7 W8 W9 W10]. split.
  - rewrite Hb, Hp, He. done.
  - done.
  - intros a y Ha. destruct (Hback _ _ Ha) as (z & Hz & [= Es Em Ec]).
    destruct (W3 _ _ Hz) as [? ? ? ?]. split; rewrite ?Es, ?Em, ?Ec, ?Hb, ?Hp; done.
  - intros a b y z Hab Ha Hb'. destruct (Hback _ _ Ha) as (y' & Hy' & [= -> _ _]).
    destruct (Hback _ _ Hb') as (z' & Hz' & _). by eapply W4.
  - intros p [Hp'|Hp'%elem_of_singleton]%elem_of_union; [|subst p].
    + destruct (W5 p Hp') as [? Hd]. split; [auto|]. intros d Hdl Hin. by apply (Hd d), (upd_sub fl c l).
    + replace (h + hdr_size - hdr_size) with h by lia. split; [eauto|].
      intros d Hdl Hin. unfold upd in Hin. destruct (Z.eqb_spec d c) as [->|]; [done|].
      pose proof (W8 d c h Hdl Hc Hin Hh). done.
  - intros d Hd. unfold upd. destruct (Z.eqb_spec d c) as [->|]; [done|]. rewrite Hhead by done.
    eapply chain_ext; [|by apply W6]. intros a Ha. apply Hout. intros Ha'.
    by pose proof (W8 d c a Hd Hc Ha Ha').
  - intros d Hd. unfold upd. destruct (Z.eqb_spec d c); auto.
  - intros d e a Hd He' H1%upd_sub H2%upd_sub; eauto.
  - intros d a y Hd Ha%upd_sub Hy; [|done]. destruct (Hback _ _ Hy) as (z & Hz & [= Es Em Ec]).
    specialize (W9 d a z Hd Ha Hz). unfold fits_list in *. by rewrite Es, Ec.
  - unfold upd. destruct (Z.eqb_spec 20 c) as [<-|]; [|done]. rewrite W10 in Hh. by apply elem_of_nil in Hh.
Qed.

(** Handing out a block just cut from the pool. *)
Lemma wf_fresh m live fl p sz c :
  heap_wf m live fl -> pool_ptr m <= p -> p + sz <= pool_end m -> 48 <= sz ->
  (c = RT_LARGE_CLASS /\ RT_LARGE_MIN <= sz \/ 4 <= c < NCLASS /\ sz = 2 ^ c) ->
  heap_wf (set_hdr (set_ptr m (p + sz)) p (mkHdr sz 0 RT_MAGIC c)) (live ∪ {[p + hdr_size]}) fl.
Proof.
  intros [W1 W2 W3 W4 W5 W6 W7 W8 W9 W10] Hp Hsz H48 Hk.
  assert (hdrs m !! p = None) as Hnone.
  { destruct (hdrs m !! p) as [y|] eqn:E; [|done]. destruct (W3 _ _ E) as [? ? _ _]. lia. }
  assert (forall d, is_list d -> p ∉ fl d) as Hpl.
  { intros d Hd Hin. destruct (chain_elem _ _ _ _ (W6 d Hd) Hin) as [y Hy]. congruence. }
  split; cbn; try done.
  - lia.
  - intros a x [[<- <-]|[Hne Ha]]%lookup_insert_Some; [split; cbn; [lia|done..]|].
    destruct (W3 _ _ Ha) as [? ? ? ?]. split; cbn; [lia|done..].
  - intros a b x y Hab [[<- <-]|[Hne Ha]]%lookup_insert_Some [[<- <-]|[Hne' Hb]]%lookup_insert_Some; cbn; [lia| | |eauto].
    + destruct (W3 _ _ Hb) as [? ? _ _]. lia.
    + destruct (W3 _ _ Ha) as [? ? _ _]. lia.
  - intros q [Hq|Hq%elem_of_singleton]%elem_of_union; [|subst q].
    + destruct (W5 q Hq) as [? Hd]. split; [|done]. by apply lookup_insert_is_Some'; right.
    + replace (p + hdr_size - hdr_size) with p by lia. split; [|auto]. rewrite lookup_insert_eq. eauto.
  - intros d Hd. eapply chain_ext; [|by apply W6]. intros a Ha. apply lookup_insert_ne. intros ->.
    by apply (Hpl d Hd).
  - intros d a x Hd Ha [[<- <-]|[Hne Hx]]%lookup_insert_Some; [|eauto]. by destruct (Hpl d Hd).
Qed.


Lemma fresh_block_spec m live fl sz c p m' :
  heap_wf m live fl -> 48 <= sz < 2 ^ 63 ->
  (c = RT_LARGE_CLASS /\ RT_LARGE_MIN <= sz \/ 4 <= c < NCLASS /\ sz = 2 ^ c) ->
  fresh_block sz c m = (p, m') ->
  (p = 0 /\ m' = m)
  \/ (pool_ptr m <= p - hdr_size /\ heap_wf m' (live ∪ {[p]}) fl
      /\ hdrs m' = <[p - hdr_size := mkHdr sz 0 RT_MAGIC c]> (hdrs m) /\ pool_ptr m' = p - hdr_size + sz).
Proof.
  intros W Hsz Hk. unfold fresh_block. destruct (mm_alloc sz 16 m) as [h m1] eqn:E.
  destruct (wf_pool _ _ _ W). destruct (mm_alloc_spec sz m h m1) as [[-> ->]|(Hh & He & ->)]; try done; [lia|..].
  { intros [= <- <-]. by left. }
  rewrite (proj2 (Z.eqb_neq h 0)) by lia.
  assert (hdrs m !! h = None) as Hnone.
  { destruct (hdrs m !! h) as [y|] eqn:Ey; [|done]. destruct (wf_block _ _ _ W _ _ Ey) as [? ? _ _]. lia. }
  unfold hand_out, hdr_at. cbn. rewrite lookup_insert_eq, Hnone. cbn.
  unfold set_hdr. cbn. rewrite insert_insert_eq. intros [= <- <-]. right.
  replace (h + hdr_size - hdr_size) with h by lia. split_and!; [done| |done..].
  apply (wf_fresh m live fl h sz c); [done..|lia|done].
Qed.

Lemma chain_cons_inv m live fl c : heap_wf m live fl -> is_list c -> head_at m c ≠ 0 ->
  exists l x, (fl c = head_at m c :: l) /\ hdrs m !! head_at m c = Some x /\ block_ok m (head_at m c) x
    /\ fits_list c x /\ (head_at m c ∉ l) /\ NoDup l /\ chain (hdrs m) (h_next_free x) l.
Proof.
  intros W Hc Hne. pose proof (wf_chain _ _ _ W c Hc) as Hch. pose proof (wf_nodup _ _ _ W c Hc) as Hn.
  destruct (fl c) as [|a l] eqn:E; [done|]. destruct Hch as (-> & _ & x & Hx & Hch).
  apply NoDup_cons in Hn as [??]. exists l, x. split_and!; try done; [by eapply wf_block|].
  eapply wf_fits; [done..| |done]. rewrite E. left.
Qed.

Lemma live_not_free m live fl p c : heap_wf m live fl -> p ∈ live -> is_list c -> p - hdr_size ∉ fl c.
Proof. intros W Hp Hc. by destruct (wf_live _ _ _ W p Hp) as [_ ?]; auto. Qed.

(** What a successful allocation of [n] bytes gives. *)
Definition allocated (m : Heap) (live : gset Z) (n p : Z) (m' : Heap) : Prop :=
  0 < p /\ (p ∉ live) /\ n <= capacity m' p /\ heap_inv m' (live ∪ {[p]})
  /\ forall q, q ∈ live -> capacity m' q = capacity m q.

Lemma allocated_from m m' live fl fl' n p x :
  heap_wf m live fl -> heap_wf m' (live ∪ {[p]}) fl' -> p ∉ live ->
  hdrs m' !! (p - hdr_size) = Some x -> n + hdr_size <= h_size x ->
  (forall q, q ∈ live -> h_size (hdr_at m' (q - hdr_size)) = h_size (hdr_at m (q - hdr_size))) ->
  allocated m live n p m'.
Proof.
  intros W W' Hp Hx Hn Hq. destruct (wf_block _ _ _ W' _ _ Hx) as [? ? _ _].
  destruct (wf_pool _ _ _ W'). split_and!; [unfold hdr_size in *; lia|done| |by eexists|].
  - unfold capacity. rewrite (hdr_at_some _ _ _ Hx). lia.
  - intros q Hql. unfold capacity. rewrite Hq by done. done.
Qed.

Lemma size_relink m m' a :
  (fun x => relink x 0) <$> hdrs m' !! a = (fun x => relink x 0) <$> hdrs m !! a ->
  h_size (hdr_at m' a) = h_size (hdr_at m a).
Proof. unfold hdr_at. by destruct (hdrs m' !! a), (hdrs m !! a); cbn; intros [=]. Qed.

Lemma rt_malloc_fresh m live fl n sz c p m' :
  heap_wf m live fl -> 48 <= sz < 2 ^ 63 -> n + hdr_size <= sz ->
  (c = RT_LARGE_CLASS /\ RT_LARGE_MIN <= sz \/ 4 <= c < NCLASS /\ sz = 2 ^ c) ->
  fresh_block sz c m = (p, m') -> (p = 0 /\ m' = m) \/ allocated m live n p m'.
Proof.
  intros W Hsz Hn Hk E. destruct (fresh_block_spec _ _ _ _ _ _ _ W Hsz Hk E) as [?|(Hp & W' & Hh & _)]; [by left|right].
  assert (forall q, q ∈ live -> q - hdr_size < p - hdr_size) as Hlt.
  { intros q Hq. destruct (wf_live _ _ _ W q Hq) as [[y Hy] _]. destruct (wf_block _ _ _ W _ _ Hy) as [? ? _ _]. lia. }
  apply (allocated_from m m' live fl fl n p (mkHdr sz 0 RT_MAGIC c)); [done..| | |done|].
  - intros Hin. specialize (Hlt _ Hin). lia.
  - by rewrite Hh, lookup_insert_eq.
  - intros q Hq. specialize (Hlt _ Hq). unfold hdr_at. rewrite Hh, lookup_insert_ne by lia. done.
Qed.

Lemma rt_malloc_large m live fl n need a m1 p m' :
  heap_wf m live fl -> a ∈ fl NCLASS -> took m (fl NCLASS) need a m1 -> n + hdr_size <= need ->
  hand_out a m1 = (p, m') -> allocated m live n p m'.
Proof.
  intros W Ha (l1 & l2 & x & Hl & Hx & Hsz & Hch & Hol & Hout) Hn.
  assert (is_list NCLASS) as Hlist by (unfold is_list, NCLASS; lia).
  destruct (wf_block _ _ _ W _ _ Hx) as [_ _ Hmag _].
  pose proof (wf_nodup _ _ _ W NCLASS Hlist) as Hnd. rewrite Hl in Hnd.
  destruct Hol as [Ob Op Oe Obi Oh].
  assert (exists y, hdrs m1 !! a = Some y /\ relink y 0 = relink x 0) as (y & Hy & [= Es Em Ec]).
  { specialize (Oh a). rewrite Hx in Oh. destruct (hdrs m1 !! a) as [y|]; [|done]. exists y.
    cbn in Oh. split; congruence. }
  rewrite (hand_out_id m1 a y) by congruence. intros [= <- <-].
  assert (heap_wf m1 (live ∪ {[a + hdr_size]}) (upd fl NCLASS (l1 ++ l2))) as W'.
  { rewrite <-Permutation_middle in Hnd. apply NoDup_cons in Hnd as [Hna Hnd].
    apply (wf_take m m1 live fl NCLASS a (l1 ++ l2) x); try done.
    - intros b [Hb|Hb]%elem_of_app; rewrite Hl; apply elem_of_app; [by left|by right; right].
    - intros d Hd Hne. unfold head_at, bin_of. rewrite Obi. by rewrite (proj2 (Z.eqb_neq _ _)).
    - rewrite Obi. apply W. }
  apply (allocated_from m m1 live fl _ n (a + hdr_size) y W W').
  - intros Hin. apply (live_not_free _ _ _ _ NCLASS W) in Hin; [|done].
    by replace (a + hdr_size - hdr_size) with a in Hin by lia.
  - by replace (a + hdr_size - hdr_size) with a by lia.
  - lia.
  - intros q Hq. by apply size_relink.
Qed.

Lemma head_at_bin m c : c < NCLASS -> head_at m c = bin_of m c.
Proof. intros. unfold head_at. by rewrite (proj2 (Z.eqb_neq _ _)) by lia. Qed.

Lemma rt_malloc_binned m live fl n c h x p m' :
  heap_wf m live fl -> 4 <= c < NCLASS -> n + hdr_size <= 2 ^ c -> h = bin_of m c -> h ≠ 0 ->
  hdrs m !! h = Some x ->
  hand_out h (set_bin m c (h_next_free (hdr_at m h))) = (p, m') -> allocated m live n p m'.
Proof.
  intros W Hc Hn -> Hnz Hx. assert (is_list c) as Hlist by (unfold is_list; lia).
  rewrite <-(head_at_bin m c) in * by lia.
  destruct (chain_cons_inv _ _ _ _ W Hlist Hnz) as (l & x' & Hl & Hx' & [_ _ Hmag _] & Hfit & Hnl & Hnd & Hch).
  assert (x' = x) as -> by congruence. rewrite (hdr_at_some _ _ _ Hx).
  set (m1 := set_bin m c (h_next_free x)). set (h := head_at m c) in *.
  rewrite (hand_out_id m1 h x) by done. intros [= <- <-].
  assert (heap_wf m1 (live ∪ {[h + hdr_size]}) (upd fl c l)) as W'.
  { apply (wf_take m m1 live fl c h l x); try done.
    - rewrite Hl. left.
    - intros b Hb. rewrite Hl. by right.
    - rewrite head_at_bin by lia. unfold m1. by rewrite bin_of_set, Z.eqb_refl by (apply W || lia).
    - intros d Hd Hne. unfold head_at. destruct (Z.eqb_spec d NCLASS); [done|]. unfold m1, is_list in *.
      rewrite bin_of_set by (apply W || lia). by rewrite (proj2 (Z.eqb_neq _ _)).
    - cbn. rewrite length_insert. apply W. }
  unfold fits_list in Hfit. rewrite (proj2 (Z.eqb_neq _ _)) in Hfit by lia.
  apply (allocated_from m m1 live fl _ n (h + hdr_size) x W W'); try done.
  - intros Hin. apply (live_not_free _ _ _ _ c W) in Hin; [|done].
    replace (h + hdr_size - hdr_size) with h in Hin by lia. apply Hin. rewrite Hl. left.
  - by replace (h + hdr_size - hdr_size) with h by lia.
  - lia.
Qed.

(** [rt_malloc] answers null and leaves the heap, or hands out a block nobody
    else holds and that holds the bytes asked for. *)
Lemma rt_malloc_spec m live n p m' :
  heap_inv m live -> 0 <= n < 2 ^ 62 -> rt_malloc n m = (p, m') ->
  (p = 0 /\ m' = m) \/ allocated m live n p m'.
Proof.
  intros [fl W] Hn. destruct (need_of_spec n Hn) as [Hneed Hcap]. unfold rt_malloc.
  destruct (Z.leb_spec RT_LARGE_MIN (need_of n)) as [Hlarge|Hsmall].
  - assert (is_list NCLASS) as Hlist by (unfold is_list, NCLASS; lia).
    destruct (large_fit_spec (need_of n) m (fl NCLASS)) as [[-> _]|(a & m1 & -> & Ha & Ht)];
      [exact (wf_chain _ _ _ W NCLASS Hlist)|exact (wf_nodup _ _ _ W NCLASS Hlist)| |].
    + cbn [Z.eqb negb]. intros E. apply (rt_malloc_fresh m live fl n (need_of n) RT_LARGE_CLASS); [done..|by left|done].
    + rewrite (proj2 (Z.eqb_neq a 0)) by (eapply chain_nonzero; [exact (wf_chain _ _ _ W NCLASS Hlist)|done]).
      intros E. right. by eapply rt_malloc_large.
  - unfold RT_LARGE_MIN in Hsmall. destruct (cls_of_spec (need_of n)) as [Hc Hle]; [lia|].
    rewrite (proj2 (Z.ltb_lt _ _)) by lia. set (c := cls_of (need_of n)) in *.
    destruct (Z.eqb_spec (bin_of m c) 0) as [Hz|Hnz]; cbn [negb].
    + intros E. apply (rt_malloc_fresh m live fl n (2 ^ c) c); [done| |lia|by right|done].
      unfold NCLASS in *. pose proof (Z.pow_lt_mono_r 2 c 63). lia.
    + intros E. right. rewrite <-(head_at_bin m c) in Hnz by lia.
      destruct (chain_cons_inv m live fl c W) as (l & x & _ & Hx & _); [unfold is_list; lia|done|].
      rewrite head_at_bin in Hnz, Hx by lia. eapply rt_malloc_binned; try done. lia.
Qed.

(** ** Release *)

Lemma wf_put m live fl p c x :
  heap_wf m live fl -> is_list c -> c ≠ 20 -> p ∈ live -> hdrs m !! (p - hdr_size) = Some x -> fits_list c x ->
  forall m', hdrs m' = <[p - hdr_size := relink x (head_at m c)]> (hdrs m) ->
  head_at m' c = p - hdr_size -> (forall d, is_list d -> d ≠ c -> head_at m' d = head_at m d) ->
  pool_base m' = pool_base m -> pool_ptr m' = pool_ptr m -> pool_end m' = pool_end m ->
  length (bins m') = 21%nat ->
  heap_wf m' (live ∖ {[p]}) (upd fl c ((p - hdr_size) :: fl c)).
Proof.
  intros W Hc H20 Hp Hx Hfit m' Hh Hhd Hhead Hb Hpp He Hbl. set (h := p - hdr_size) in *.
  assert (forall d, is_list d -> h ∉ fl d) as Hnf by (intros; by eapply live_not_free).
  assert (h ≠ 0) as Hh0. { destruct (wf_block _ _ _ W _ _ Hx) as [? _ _ _]. destruct (wf_pool _ _ _ W). lia. }
  assert (forall a y, hdrs m' !! a = Some y -> exists z, hdrs m !! a = Some z /\ relink y 0 = relink z 0) as Hback.
  { intros a y. rewrite Hh. intros [[<- <-]|[??]]%lookup_insert_Some; eauto. }
  destruct W as [W1 W2 W3 W4 W5 W6 W7 W8 W9 W10]. split.
  - rewrite Hb, Hpp, He. done.
  - done.
  - intros a y Ha. destruct (Hback _ _ Ha) as (z & Hz & [= Es Em Ec]).
    destruct (W3 _ _ Hz) as [? ? ? ?]. split; rewrite ?Es, ?Em, ?Ec, ?Hb, ?Hpp; done.
  - intros a b y z Hab Ha Hb'. destruct (Hback _ _ Ha) as (y' & Hy' & [= -> _ _]).
    destruct (Hback _ _ Hb') as (z' & Hz' & _). by eapply W4.
  - intros q [Hq Hqp]%elem_of_difference. destruct (W5 q Hq) as [? Hd]. split.
    + rewrite Hh. apply lookup_insert_is_Some'. by right.
    + intros d Hdl. unfold upd. destruct (Z.eqb_spec d c) as [->|]; [|auto].
      intros [Heq|Hin]%elem_of_cons; [|by apply (Hd c)]. apply Hqp, elem_of_singleton. unfold h in *. lia.
  - intros d Hd. unfold upd. destruct (Z.eqb_spec d c) as [->|].
    + rewrite Hhd. split_and!; [done..|]. eexists. rewrite Hh, lookup_insert_eq. split; [done|]. cbn.
      eapply chain_ext; [|by apply W6]. intros a Ha. apply lookup_insert_ne. intros <-. by apply (Hnf c).
    + rewrite Hhead, Hh by done. eapply chain_ext; [|by apply W6]. intros a Ha. apply lookup_insert_ne.
      intros <-. by apply (Hnf d).
  - intros d Hd. unfold upd. destruct (Z.eqb_spec d c) as [->|]; [|auto]. apply NoDup_cons. auto.
  - intros d e a Hd He'. unfold upd. destruct (Z.eqb_spec d c) as [->|], (Z.eqb_spec e c) as [->|]; [done|..|eauto].
    + intros [->|H1]%elem_of_cons H2; [by destruct (Hnf e He')|eauto].
    + intros H1 [->|H2]%elem_of_cons; [by destruct (Hnf d Hd)|eauto].
  - intros d a y Hd Ha Hy. destruct (Hback _ _ Hy) as (z & Hz & [= Es Em Ec]).
    enough (fits_list d z) by (unfold fits_list in *; by rewrite Es, Ec).
    unfold upd in Ha. destruct (Z.eqb_spec d c) as [->|]; [|by eapply W9].
    apply elem_of_cons in Ha as [->|Ha]; [congruence|by eapply W9].
  - unfold upd. by rewrite (proj2 (Z.eqb_neq 20 c)).
Qed.

Lemma head_at_large m a d : head_at (set_large m a) d = if d =? NCLASS then a else head_at m d.
Proof. unfold head_at. destruct (Z.eqb_spec d NCLASS); done. Qed.

Lemma head_at_set_bin m c a d : length (bins m) = 21%nat -> 4 <= c < NCLASS -> is_list d ->
  head_at (set_bin m c a) d = if d =? c then a else head_at m d.
Proof.
  intros Hl Hc Hd. unfold head_at, is_list in *. destruct (Z.eqb_spec d NCLASS).
  - by rewrite (proj2 (Z.eqb_neq _ _)) by lia.
  - by rewrite bin_of_set by lia.
Qed.

(** The free list a block goes back to. *)
Definition home (x : hdr) : Z :=
  if (h_cls x =? RT_LARGE_CLASS) || (RT_LARGE_MIN <=? h_size x) then NCLASS else h_cls x.

Lemma home_spec m a x : block_ok m a x -> is_list (home x) /\ fits_list (home x) x /\ home x ≠ 20.
Proof.
  intros [_ _ _ Hk]. unfold home, fits_list, is_list.
  destruct Hk as [[-> Hs]|[Hc Hs]].
  - rewrite Z.eqb_refl. cbn [orb]. rewrite Z.eqb_refl. unfold NCLASS. lia.
  - rewrite (proj2 (Z.eqb_neq (h_cls x) RT_LARGE_CLASS)) by (unfold NCLASS, RT_LARGE_CLASS in *; lia). cbn [orb].
    destruct (Z.leb_spec RT_LARGE_MIN (h_size x)) as [Hl|Hl].
    + rewrite Z.eqb_refl. unfold NCLASS. lia.
    + rewrite (proj2 (Z.eqb_neq (h_cls x) NCLASS)) by lia. split_and!; [lia..|done|done|].
      intros E. rewrite Hs, E in Hl. unfold RT_LARGE_MIN in Hl. lia.
Qed.

Lemma rt_free_eq m a x : block_ok m a x -> hdrs m !! a = Some x -> a ≠ - hdr_size ->
  rt_free (a + hdr_size) m =
    let m1 := set_hdr m a (relink x (head_at m (home x))) in
    if home x =? NCLASS then set_large m1 a else set_bin m1 (home x) a.
Proof.
  intros Hb Hx Ha. unfold rt_free. rewrite (proj2 (Z.eqb_neq _ 0)) by lia.
  replace (a + hdr_size - hdr_size) with a by lia. rewrite (hdr_at_some _ _ _ Hx).
  destruct Hb as [_ _ Hm Hk]. rewrite (proj2 (Z.eqb_eq _ _) Hm). cbn [negb]. unfold home.
  destruct (orb _ _) eqn:E; [done|].
  apply orb_false_iff in E as [Hne%Z.eqb_neq _]. destruct Hk as [[]|[Hc _]]; [done|].
  rewrite (proj2 (Z.ltb_ge (h_cls x) 4)), (proj2 (Z.leb_gt NCLASS (h_cls x))) by lia. cbn [orb].
  rewrite (proj2 (Z.leb_gt NCLASS (h_cls x))), (proj2 (Z.eqb_neq (h_cls x) NCLASS)), head_at_bin by lia. done.
Qed.

Lemma rt_free_wf m live fl p : heap_wf m live fl -> p ∈ live ->
  exists c l, heap_wf (rt_free p m) (live ∖ {[p]}) (upd fl c l).
Proof.
  intros W Hp. destruct (wf_live _ _ _ W p Hp) as [[x Hx] _]. pose proof (wf_block _ _ _ W _ _ Hx) as Hb.
  destruct (home_spec _ _ _ Hb) as (Hl & Hf & H20). pose proof (wf_pool _ _ _ W). pose proof (wf_bins _ _ _ W).
  assert (p - hdr_size ≠ - hdr_size). { destruct Hb as [? _ _ _]. unfold hdr_size in *. lia. }
  pose proof (rt_free_eq _ _ _ Hb Hx ltac:(done)) as Heq.
  replace (p - hdr_size + hdr_size) with p in Heq by lia. rewrite Heq. cbn zeta.
  eexists (home x), _.
  apply (wf_put m live fl p (home x) x W Hl H20 Hp Hx Hf);
    destruct (Z.eqb_spec (home x) NCLASS) as [E|E]; try done.
  - by rewrite head_at_large, E, Z.eqb_refl.
  - rewrite head_at_set_bin by (done || unfold is_list in Hl; lia). by rewrite Z.eqb_refl.
  - intros d Hd Hne. rewrite head_at_large. by rewrite (proj2 (Z.eqb_neq _ _)) by congruence.
  - intros d Hd Hne. rewrite head_at_set_bin by (done || unfold is_list in Hl; lia).
    by rewrite (proj2 (Z.eqb_neq _ _)) by congruence.
  - cbn. by rewrite length_insert.
Qed.

(** ** Histories *)

(** Clients allocate, release what they hold, and take raw pool memory. *)
Inductive heap_step : Heap * gset Z -> Heap * gset Z -> Prop :=
  | step_malloc m live n p m' : 0 <= n < 2 ^ 62 -> rt_malloc n m = (p, m') -> p ≠ 0 ->
      heap_step (m, live) (m', live ∪ {[p]})
  | step_malloc_null m live n m' : 0 <= n < 2 ^ 62 -> rt_malloc n m = (0, m') -> heap_step (m, live) (m', live)
  | step_free m live p : p ∈ live -> heap_step (m, live) (rt_free p m, live ∖ {[p]})
  | step_raw m live n p m' : 0 <= n < 2 ^ 62 -> mm_alloc n 16 m = (p, m') -> heap_step (m, live) (m', live).

(** The heap when [mm_init] has set up the pool. *)
Definition heap_init (base endp : Z) : Heap := mkHeap base base endp ∅ (replicate 21 0) 0.

Lemma heap_init_inv base endp : 0 < base <= endp -> endp <= 2 ^ 32 -> heap_inv (heap_init base endp) ∅.
Proof.
  intros. exists (fun _ => []). split; try done; cbn.
  - lia.
  - intros c Hc. unfold head_at, bin_of. cbn [large_list bins heap_init]. destruct (c =? NCLASS); [done|].
    destruct (replicate 21 0 !! Z.to_nat c) eqn:E; [|done]. by apply lookup_replicate in E as [-> _].
  - intros. apply NoDup_nil_2.
  - intros c d a _ _ Ha. by apply elem_of_nil in Ha.
Qed.

Lemma mm_alloc_inv m live n p m' : heap_inv m live -> 0 <= n < 2 ^ 62 -> mm_alloc n 16 m = (p, m') ->
  heap_inv m' live.
Proof.
  intros [fl W] Hn E. destruct (wf_pool _ _ _ W) as [Hb He].
  destruct (mm_alloc_spec n m p m') as [[-> ->]|(Hp & Hp' & ->)]; try done; [lia|by eexists|].
  exists fl. destruct W as [W1 W2 W3 W4 W5 W6 W7 W8 W9 W10]. split; try done; [cbn; lia|].
  intros a x Ha. destruct (W3 a x Ha) as [? ? ? ?]. split; try done. cbn. lia.
Qed.

Lemma heap_step_inv s s' : heap_step s s' -> heap_inv s.1 s.2 -> heap_inv s'.1 s'.2.
Proof.
  intros [m live n p m' Hn E Hp|m live n m' Hn E|m live p Hp|m live n p m' Hn E] Hi; cbn [fst snd] in *.
  - destruct (rt_malloc_spec _ _ _ _ _ Hi Hn E) as [[-> _]|(_ & _ & _ & ? & _)]; done.
  - destruct (rt_malloc_spec _ _ _ _ _ Hi Hn E) as [[_ ->]|(? & _)]; [done|lia].
  - destruct Hi as [fl W]. destruct (rt_free_wf _ _ _ _ W Hp) as (c & l & W'). by eexists.
  - by eapply mm_alloc_inv.
Qed.

Lemma heap_steps_inv s s' : rtc heap_step s s' -> heap_inv s.1 s.2 -> heap_inv s'.1 s'.2.
Proof. induction 1; eauto using heap_step_inv. Qed.

(** Two live blocks do not overlap, headers included. *)
Lemma live_disjoint m live p q : heap_inv m live -> p ∈ live -> q ∈ live -> p < q ->
  p + capacity m p <= q - hdr_size.
Proof.
  intros [fl W] Hp Hq Hlt. destruct (wf_live _ _ _ W p Hp) as [[x Hx] _].
  destruct (wf_live _ _ _ W q Hq) as [[y Hy] _].
  pose proof (wf_disj _ _ _ W _ _ x y (ltac:(lia) : p - hdr_size < q - hdr_size) Hx Hy).
  unfold capacity. rewrite (hdr_at_some _ _ _ Hx). lia.
Qed.

Lemma live_in_pool m live p : heap_inv m live -> p ∈ live ->
  pool_base m + hdr_size <= p /\ p + capacity m p <= pool_ptr m /\ 0 < capacity m p.
Proof.
  intros [fl W] Hp. destruct (wf_live _ _ _ W p Hp) as [[x Hx] _].
  destruct (wf_block _ _ _ W _ _ Hx) as [? ? _ _]. unfold capacity. rewrite (hdr_at_some _ _ _ Hx).
  unfold hdr_size in *. lia.
Qed.

(** A class-20 request is always cut from the pool. *)
Lemma class20_fresh m live n p m' :
  heap_inv m live -> 0 <= n < 2 ^ 62 -> 2 ^ 19 < need_of n < 2 ^ 20 -> rt_malloc n m = (p, m') ->
  p = 0 \/ pool_ptr m + 2 ^ 20 <= pool_ptr m'.
Proof.
  intros [fl W] Hn Hneed. destruct (need_of_spec n Hn) as [H48 Hcap]. unfold rt_malloc.
  rewrite (proj2 (Z.leb_gt _ _)) by (unfold RT_LARGE_MIN; lia).
  destruct (cls_of_spec (need_of n)) as [Hc Hle]; [lia|].
  assert (cls_of (need_of n) = 20) as ->.
  { unfold NCLASS in Hc. destruct (Z.lt_trichotomy (cls_of (need_of n)) 20) as [?|[?|?]]; [|done|lia].
    pose proof (Z.pow_le_mono_r 2 (cls_of (need_of n)) 19). lia. }
  assert (bin_of m 20 = 0) as ->.
  { pose proof (wf_chain _ _ _ W 20 ltac:(unfold is_list, NCLASS; lia)) as Hch. rewrite (wf_no20 _ _ _ W) in Hch. done. }
  cbn [Z.ltb Z.compare negb Z.eqb NCLASS]. rewrite (proj2 (Z.ltb_lt _ _)) by (unfold NCLASS; lia).
  intros E. destruct (fresh_block_spec _ _ _ (2 ^ 20) 20 _ _ W ltac:(lia) ltac:(unfold NCLASS; lia) E)
    as [[-> _]|(Hp & _ & _ & Hptr)]; [by left|right; lia].
Qed.

(** Other small blocks come back from their bin, at no cost to the pool. *)
Lemma free_reused m live p n x :
  heap_inv m live -> p ∈ live -> hdrs m !! (p - hdr_size) = Some x -> need_of n < RT_LARGE_MIN ->
  home x = cls_of (need_of n) -> home x < NCLASS ->
  exists m', rt_malloc n (rt_free p m) = (p, m') /\ pool_ptr m' = pool_ptr m.
Proof.
  intros [fl W] Hp Hx Hneed Hh Hlt. pose proof (wf_block _ _ _ W _ _ Hx) as Hb.
  destruct (home_spec _ _ _ Hb) as (Hl & _ & _). pose proof (wf_pool _ _ _ W).
  assert (p - hdr_size ≠ 0 /\ p - hdr_size ≠ - hdr_size) as [Hp0 ?].
  { destruct Hb as [? _ _ _]. unfold hdr_size in *. lia. }
  pose proof (rt_free_eq _ _ _ Hb Hx ltac:(done)) as Heq.
  replace (p - hdr_size + hdr_size) with p in Heq by lia. cbn zeta in Heq.
  rewrite (proj2 (Z.eqb_neq (home x) NCLASS)) in Heq by lia.
  unfold rt_malloc. rewrite (proj2 (Z.leb_gt _ _)) by done. rewrite <-Hh, (proj2 (Z.ltb_lt _ _)) by done.
  assert (bin_of (rt_free p m) (home x) = p - hdr_size) as ->.
  { unfold is_list in Hl. rewrite Heq, bin_of_set, Z.eqb_refl by (lia || apply W). done. }
  rewrite (proj2 (Z.eqb_neq _ 0)) by done. cbn [negb]. unfold hand_out.
  eexists. replace (p - hdr_size + hdr_size) with p by lia. split; [reflexivity|]. cbn. by rewrite Heq.
Qed.

Lemma remove_add (live : gset Z) p : p ∈ live -> live ∖ {[p]} ∪ {[p]} = live.
Proof. intros. apply set_eq. intros x. destruct (decide (x = p)); set_solver. Qed.

Lemma add_remove (live : gset Z) p r : r ≠ p -> (live ∪ {[r]}) ∖ {[p]} = live ∖ {[p]} ∪ {[r]}.
Proof. intros. apply set_eq. set_solver. Qed.

Lemma capacity_free m live fl p q : heap_wf m live fl -> p ∈ live -> capacity (rt_free p m) q = capacity m q.
Proof.
  intros W Hp. destruct (wf_live _ _ _ W p Hp) as [[x Hx] _]. pose proof (wf_block _ _ _ W _ _ Hx) as Hb.
  assert (p - hdr_size ≠ - hdr_size).
  { destruct Hb as [? _ _ _], (wf_pool _ _ _ W). unfold hdr_size in *. lia. }
  pose proof (rt_free_eq _ _ _ Hb Hx ltac:(done)) as Heq.
  replace (p - hdr_size + hdr_size) with p in Heq by lia. rewrite Heq. unfold capacity.
  rewrite (size_relink m); [done|]. by destruct (home x =? NCLASS); apply relink_insert.
Qed.

Lemma rt_realloc_spec m live p n q m' :
  heap_inv m live -> p ∈ live -> 0 <= n < 2 ^ 62 -> rt_realloc p n m = (q, m') ->
  (q = 0 /\ m' = m) \/ (0 < q /\ n <= capacity m' q /\ heap_inv m' (live ∖ {[p]} ∪ {[q]})).
Proof.
  intros Hi Hp Hn. pose proof Hi as [fl W]. destruct (wf_live _ _ _ W p Hp) as [[x Hx] _].
  destruct (live_in_pool _ _ _ Hi Hp) as (Hlo & _). destruct (wf_pool _ _ _ W) as [Hb0 _].
  assert (p ≠ 0) by (unfold hdr_size in *; lia).
  unfold rt_realloc. rewrite (proj2 (Z.eqb_neq p 0)) by done. rewrite (hdr_at_some _ _ _ Hx).
  destruct (wf_block _ _ _ W _ _ Hx) as [_ _ -> _]. rewrite Z.eqb_refl. cbn [negb].
  destruct (Z.leb_spec n (h_size x - hdr_size)) as [Hle|Hgt].
  - intros [= <- <-]. right. unfold capacity. rewrite (hdr_at_some _ _ _ Hx). unfold hdr_size in *.
    split; [lia|]. split; [lia|]. by rewrite remove_add.
  - destruct (rt_malloc n m) as [r m1] eqn:E.
    destruct (rt_malloc_spec _ _ _ _ _ Hi Hn E) as [[-> ->]|(Hr & Hnl & Hc & Hi1 & _)];
      [intros [= <- <-]; by left|].
    rewrite (proj2 (Z.eqb_neq r 0)) by lia. intros [= <- <-]. right. split; [done|].
    pose proof Hi1 as [fl1 W1]. assert (p ∈ live ∪ {[r]}) as Hp1 by (apply elem_of_union; by left).
    destruct (rt_free_wf _ _ _ p W1 Hp1) as (c & l & W2). rewrite (capacity_free _ _ _ _ _ W1) by done.
    split; [done|]. exists (upd fl1 c l). rewrite <-add_remove; [done|]. congruence.
Qed.
