(* ===== verification/KernState.v ===== *)
(** * KernState: the kernel's data, its log and its console

    The static tables of the kernel core gathered into one state [K], with the
    small state monad the other files of the kernel write their operations in.
    Every table keeps its source's shape: [ports] and [htab] of
    [core/ports.cc], [sessions] and [images] of [core/sched.cc], the pending
    routed calls of [core/fsroute.cc], the heap of [KernHeap], the log ring of
    [core/log.cc], the counters of [core/perf.cc], the knobs and the
    preemption settings, the device assignments and the reply buffer of
    [core/kernsvc.cc].  Session ids are indices into [sessions].

    The WebAssembly engine, the PCI configuration space and the contents of
    memory the code reads without having written it are the operations of the
    class [Platform]. *)

From S2P Require Import Prelude Frame KernHeap.

(** ** Sizes and capability bits *)

Definition MAX_SESSIONS : Z := 12.
Definition MAX_IMAGES : Z := 8.
Definition MAX_PORTS : Z := 24.
Definition MAX_Q : Z := 32.
Definition MSG_MAX : Z := 4096.
Definition H_PER_SESS : Z := 16.
Definition MAXPENDING : Z := 8.
Definition RESP_MAX : Z := 4096.
Definition KNOB_COUNT : Z := 8.
Definition MAX_PCI_DEVS : Z := 16.
Definition SCHED_MAX_FDS : Z := 64.
Definition SCHED_FD_EMPTY : Z := 0xFFFFFFFF.
Definition STACK_BYTES : Z := 1024 * 1024.
(** [sizeof(msg)]: two integers and the data, padded to four bytes. *)
Definition sizeof_msg : Z := 4104.

Definition SCHED_CAP_KILL : Z := 2 ^ 0.
Definition SCHED_CAP_DEVMAN : Z := 2 ^ 1.
Definition SCHED_CAP_POWER : Z := 2 ^ 2.
Definition SCHED_CAP_FOCUS : Z := 2 ^ 3.
Definition SCHED_CAP_FSADM : Z := 2 ^ 4.
Definition SCHED_CAP_NETADM : Z := 2 ^ 5.
Definition SCHED_CAP_SPAWN : Z := 2 ^ 6.
Definition SCHED_CAP_CONF : Z := 2 ^ 7.
Definition SCHED_CAP_PCI : Z := 2 ^ 8.
Definition SCHED_CAP_FB : Z := 2 ^ 9.
Definition SCHED_CAP_DOORBELL : Z := 2 ^ 10.
Definition SCHED_CAP_VMWARE : Z := 2 ^ 11.
Definition SCHED_CAP_PORTBIND : Z := 2 ^ 12.

(** ** The log ring *)

Record Log := mkLog { log_ring : list byte; log_total : Z }.
Definition LOG_SIZE : Z := 16384.

Definition log_push1 (l : Log) (c : byte) : Log :=
  mkLog (<[Z.to_nat (log_total l mod LOG_SIZE) := c]> (log_ring l)) (u64 (log_total l + 1)).
Definition log_push (p : list byte) (l : Log) : Log := fold_left log_push1 p l.

(** The bytes copied out, [*out_total] and [*out_begin]. *)
Definition log_read (off cap : Z) (l : Log) : list byte * Z * Z :=
  let total := log_total l in
  let begin := if LOG_SIZE <? total then total - LOG_SIZE else 0 in
  let off := if off <? begin then begin else off in
  let avail := if off <? total then total - off else 0 in
  let n := if avail <? cap then avail else cap in
  (map (fun i => idx (log_ring l) ((off + Z.of_nat i) mod LOG_SIZE)) (seq 0 (Z.to_nat n)), total, off).

(** ** Tables *)

Record msg := mkMsg { m_ptr : Z; m_from_sid : Z; m_data : list byte }.

(** [p_name] is what was written before the final NUL; the name other code
    sees is its C string. *)
Record port := mkPort {
  p_used : bool; p_kernel_endpoint : bool; p_creator : Z; p_name : list byte;
  p_qn : Z; p_qh : Z; p_qt : Z; p_ring : list (option msg)
}.

Record pending := mkPending {
  t_used : bool; t_seq : Z; t_name : list byte; t_done : bool; t_resp : list byte
}.

Inductive st := S_FREE | S_RUNNABLE | S_RUNNING | S_ZOMBIE.
#[export] Instance st_eq_decision : EqDecision st.
Proof. solve_decision. Defined.

Definition st_num (s : st) : Z :=
  match s with S_FREE => 0 | S_RUNNABLE => 1 | S_RUNNING => 2 | S_ZOMBIE => 3 end.

(** [sched_wasi_state]. *)
Record wasi := mkWasi {
  w_argv : list (list byte); w_exited : bool; w_exit_code : Z; w_fds : list Z;
  w_fsreq : list byte; w_fsresp : list byte; w_fs_seq_ctr : Z; w_fs_rt_seq : Z
}.

(** [s_name] is the array the name is copied into, with the byte behind it
    that takes the NUL of a 15-character name. *)
Record session := mkSession {
  s_uid : Z; s_capmask : Z; s_cap_source : Z; s_name : list byte; s_state : st;
  s_eng_live : bool; s_exit_code : Z; s_stack : Z; s_wctx : wasi
}.

Record image := mkImage { i_used : bool; i_name : list byte; i_blob : list byte }.

Record pci_assign := mkAssign { a_used : bool; a_target_sid : Z; a_bus : Z; a_dev : Z; a_fn : Z }.
Record pci_info := mkPci { d_bus : Z; d_dev : Z; d_fn : Z; d_vendor : Z; d_device : Z }.

(** [rfd] of core/fsimport.cc. *)
Record rfd := mkRfd { r_used : bool; r_off : Z; r_path : list byte }.

Record Conf := mkConf {
  c_knobs : list Z; c_quantum_ticks : Z; c_preempt_on : Z; c_preempt_pending : Z; c_pit_divisor : Z
}.

(** A queued input record. *)
Record inrec := mkInrec { in_kind : Z; in_mods : Z; in_cp : Z }.

Record Dev := mkDev {
  v_assigns : list pci_assign; v_vn_ready : bool; v_ws_attached : bool; v_ws_sid : Z;
  v_focus_sid : Z; v_inq : list inrec; v_ncpus : Z
}.

Record K := mkK {
  k_ports : list port;
  k_htab : list (list Z);
  k_tab : list pending;
  k_sessions : list session;
  k_images : list image;
  k_next_rr : Z;
  k_cur : option Z;
  k_heap : Heap;
  k_log : Log;
  k_perf : list Z;
  k_conf : Conf;
  k_dev : Dev;
  k_rbuf : list byte;
  k_fdtab : list (list rfd);
  k_halted : bool;
  k_bind_once : bool
}.

Definition put_ports (x : list port) (k : K) : K :=
  mkK x (k_htab k) (k_tab k) (k_sessions k) (k_images k) (k_next_rr k) (k_cur k) (k_heap k)
    (k_log k) (k_perf k) (k_conf k) (k_dev k) (k_rbuf k) (k_fdtab k) (k_halted k) (k_bind_once k).
Definition put_htab (x : list (list Z)) (k : K) : K :=
  mkK (k_ports k) x (k_tab k) (k_sessions k) (k_images k) (k_next_rr k) (k_cur k) (k_heap k)
    (k_log k) (k_perf k) (k_conf k) (k_dev k) (k_rbuf k) (k_fdtab k) (k_halted k) (k_bind_once k).
Definition put_tab (x : list pending) (k : K) : K :=
  mkK (k_ports k) (k_htab k) x (k_sessions k) (k_images k) (k_next_rr k) (k_cur k) (k_heap k)
    (k_log k) (k_perf k) (k_conf k) (k_dev k) (k_rbuf k) (k_fdtab k) (k_halted k) (k_bind_once k).
Definition put_sessions (x : list session) (k : K) : K :=
  mkK (k_ports k) (k_htab k) (k_tab k) x (k_images k) (k_next_rr k) (k_cur k) (k_heap k) (k_log k)
    (k_perf k) (k_conf k) (k_dev k) (k_rbuf k) (k_fdtab k) (k_halted k) (k_bind_once k).
Definition put_images (x : list image) (k : K) : K :=
  mkK (k_ports k) (k_htab k) (k_tab k) (k_sessions k) x (k_next_rr k) (k_cur k) (k_heap k) (k_log k)
    (k_perf k) (k_conf k) (k_dev k) (k_rbuf k) (k_fdtab k) (k_halted k) (k_bind_once k).
Definition put_next_rr (x : Z) (k : K) : K :=
  mkK (k_ports k) (k_htab k) (k_tab k) (k_sessions k) (k_images k) x (k_cur k) (k_heap k) (k_log k)
    (k_perf k) (k_conf k) (k_dev k) (k_rbuf k) (k_fdtab k) (k_halted k) (k_bind_once k).
Definition put_cur (x : option Z) (k : K) : K :=
  mkK (k_ports k) (k_htab k) (k_tab k) (k_sessions k) (k_images k) (k_next_rr k) x (k_heap k)
    (k_log k) (k_perf k) (k_conf k) (k_dev k) (k_rbuf k) (k_fdtab k) (k_halted k) (k_bind_once k).
Definition put_heap (x : Heap) (k : K) : K :=
  mkK (k_ports k) (k_htab k) (k_tab k) (k_sessions k) (k_images k) (k_next_rr k) (k_cur k) x
    (k_log k) (k_perf k) (k_conf k) (k_dev k) (k_rbuf k) (k_fdtab k) (k_halted k) (k_bind_once k).
Definition put_log (x : Log) (k : K) : K :=
  mkK (k_ports k) (k_htab k) (k_tab k) (k_sessions k) (k_images k) (k_next_rr k) (k_cur k)
    (k_heap k) x (k_perf k) (k_conf k) (k_dev k) (k_rbuf k) (k_fdtab k) (k_halted k) (k_bind_once k).
Definition put_perf (x : list Z) (k : K) : K :=
  mkK (k_ports k) (k_htab k) (k_tab k) (k_sessions k) (k_images k) (k_next_rr k) (k_cur k)
    (k_heap k) (k_log k) x (k_conf k) (k_dev k) (k_rbuf k) (k_fdtab k) (k_halted k) (k_bind_once k).
Definition put_conf (x : Conf) (k : K) : K :=
  mkK (k_ports k) (k_htab k) (k_tab k) (k_sessions k) (k_images k) (k_next_rr k) (k_cur k)
    (k_heap k) (k_log k) (k_perf k) x (k_dev k) (k_rbuf k) (k_fdtab k) (k_halted k) (k_bind_once k).
Definition put_dev (x : Dev) (k : K) : K :=
  mkK (k_ports k) (k_htab k) (k_tab k) (k_sessions k) (k_images k) (k_next_rr k) (k_cur k)
    (k_heap k) (k_log k) (k_perf k) (k_conf k) x (k_rbuf k) (k_fdtab k) (k_halted k) (k_bind_once k).
Definition put_rbuf (x : list byte) (k : K) : K :=
  mkK (k_ports k) (k_htab k) (k_tab k) (k_sessions k) (k_images k) (k_next_rr k) (k_cur k)
    (k_heap k) (k_log k) (k_perf k) (k_conf k) (k_dev k) x (k_fdtab k) (k_halted k) (k_bind_once k).
Definition put_fdtab (x : list (list rfd)) (k : K) : K :=
  mkK (k_ports k) (k_htab k) (k_tab k) (k_sessions k) (k_images k) (k_next_rr k) (k_cur k)
    (k_heap k) (k_log k) (k_perf k) (k_conf k) (k_dev k) (k_rbuf k) x (k_halted k) (k_bind_once k).
Definition put_halted (x : bool) (k : K) : K :=
  mkK (k_ports k) (k_htab k) (k_tab k) (k_sessions k) (k_images k) (k_next_rr k) (k_cur k)
    (k_heap k) (k_log k) (k_perf k) (k_conf k) (k_dev k) (k_rbuf k) (k_fdtab k) x (k_bind_once k).
Definition put_bind_once (x : bool) (k : K) : K :=
  mkK (k_ports k) (k_htab k) (k_tab k) (k_sessions k) (k_images k) (k_next_rr k) (k_cur k)
    (k_heap k) (k_log k) (k_perf k) (k_conf k) (k_dev k) (k_rbuf k) (k_fdtab k) (k_halted k) x.

(** ** The kernel monad *)

Definition KM (A : Type) : Type := K -> A * K.
#[export] Instance KM_ret : MRet KM := fun A a k => (a, k).
#[export] Instance KM_bind : MBind KM := fun A B f m k => let '(a, k1) := m k in f a k1.

Definition kget {A} (f : K -> A) : KM A := fun k => (f k, k).
Definition kmod (f : K -> K) : KM unit := fun k => (tt, f k).

Lemma kbind {A B} (m : KM A) (f : A -> KM B) k : (m ≫= f) k = f (m k).1 (m k).2.
Proof. unfold mbind, KM_bind. by destruct (m k). Qed.

(** ** First match and C strings *)

(** The index a [for] loop stops at when it leaves at the first element that
    satisfies [f]. *)
Fixpoint findi {A} (f : A -> bool) (l : list A) : option nat :=
  match l with
  | [] => None
  | x :: l => if f x then Some O else S <$> findi f l
  end.

Lemma findi_Some {A} (f : A -> bool) l i : findi f l = Some i ->
  (exists x, l !! i = Some x /\ f x = true) /\ forall j y, (j < i)%nat -> l !! j = Some y -> f y = false.
Proof.
  revert i. induction l as [|x l IH]; intros i; cbn [findi]; [done|].
  destruct (f x) eqn:E; [intros [= <-]; split; [eauto|lia]|].
  destruct (findi f l) as [i'|]; [|done]. intros [= <-]. destruct (IH i' eq_refl) as [Hx Hlt].
  split; [done|]. intros [|j] y Hj Hy; [naive_solver|]. apply (Hlt j); [lia|done].
Qed.

Lemma findi_None {A} (f : A -> bool) l : findi f l = None -> forall i y, l !! i = Some y -> f y = false.
Proof.
  induction l as [|x l IH]; cbn [findi]; [done|]. destruct (f x) eqn:E; [done|].
  destruct (findi f l); [done|]. intros _ [|i] y Hy; [naive_solver|]. by apply (IH eq_refl i).
Qed.

Lemma findi_first {A} (f : A -> bool) l i x :
  l !! i = Some x -> f x = true -> (forall j y, (j < i)%nat -> l !! j = Some y -> f y = false) ->
  findi f l = Some i.
Proof.
  revert i. induction l as [|z l IH]; intros [|i] Hx Hf Hlt; try done; cbn in *.
  - simplify_eq. by rewrite Hf.
  - rewrite (Hlt 0%nat z) by (done || lia). rewrite (IH i); [done..|]. intros j y Hj. apply (Hlt (S j)). lia.
Qed.

(** [!strcmp(a, b)]. *)
Definition streq (a b : list byte) : bool := bool_decide (cstr16 a = cstr16 b).

(** Copying a C string into an array with room for [n] characters. *)
Definition strn (n : nat) (a : list byte) : list byte := take n (cstr16 a).

(** ** What lies outside *)

Class Platform := {
  engine_init : list byte -> Heap -> Z * Heap;
  engine_ensure_memory : Z -> Z -> Heap -> Z * Heap;
  engine_memory_size : Z -> Heap -> Z;
  engine_shutdown : Z -> Heap -> Heap;
  pci_read32 : Z -> Z -> Z -> Z -> Z;
  pci_enumerate : list pci_info;
  (** bytes of memory not written before they are read *)
  stack_junk : list byte;
  rodata_junk : list byte
}.

(** ** Console and counters *)

Definition uart_emit (l : Log) (c : byte) : Log :=
  if decide (c = Byte.x0d) then l else log_push [c] l.
Definition console_puts (s : list byte) : KM unit :=
  kmod (fun k => put_log (fold_left uart_emit s (k_log k)) k).
Definition console_putc (c : byte) : KM unit := console_puts [c].

Definition hex_digit (d : Z) : byte := z2b (if d <? 10 then 48 + d else 87 + d).
Definition hex64 (v : Z) : list byte :=
  bs "0x" ++ map (fun i => hex_digit (Z.land (Z.shiftr (u64 v) (60 - 4 * Z.of_nat i)) 15)) (seq 0 16).
Definition console_hex64 (v : Z) : KM unit := console_puts (hex64 v).

Definition nl : list byte := [Byte.x0a].

Definition PERF_IPC_SEND : Z := 0.
Definition PERF_IPC_RECV : Z := 1.
Definition PERF_IPC_BYTES : Z := 2.
Definition PERF_N : Z := 13.

Definition perf_get (p : list Z) (id : Z) : Z := default 0 (p !! Z.to_nat id).
Definition perf_inc (id n : Z) : KM unit :=
  kmod (fun k => put_perf (<[Z.to_nat id := u64 (perf_get (k_perf k) id + n)]> (k_perf k)) k).

(** ** Sessions as the other components see them *)

Definition sess (k : K) (sid : Z) : option session := if sid <? 0 then None else k_sessions k !! Z.to_nat sid.
Definition state_of (k : K) (sid : Z) : st := default S_FREE (s_state <$> sess k sid).

Definition sched_capmask_of (k : K) (sid : Z) : Z :=
  if (sid <? MAX_SESSIONS) && negb (bool_decide (state_of k sid = S_FREE))
  then default 0 (s_capmask <$> sess k sid) else 0.
Definition sched_uid_of (k : K) (sid : Z) : Z :=
  if (sid <? MAX_SESSIONS) && negb (bool_decide (state_of k sid = S_FREE))
  then default 0 (s_uid <$> sess k sid) else 0.
Definition sched_name_of (k : K) (sid : Z) : list byte :=
  if (sid <? MAX_SESSIONS) && negb (bool_decide (state_of k sid = S_FREE))
  then default [] (s_name <$> sess k sid) else bs "?".
Definition sched_alive (k : K) (sid : Z) : bool :=
  (0 <? sid) && (sid <? MAX_SESSIONS) && negb (bool_decide (state_of k sid = S_FREE))
  && negb (bool_decide (state_of k sid = S_ZOMBIE)).

(** [mask & bit]. *)
Definition has_bits (mask bit : Z) : bool := negb (Z.land mask bit =? 0).

(** ** Memory from the heap *)

Definition k_rt_malloc (n : Z) : KM Z :=
  fun k => let '(p, h) := rt_malloc n (k_heap k) in (p, put_heap h k).
Definition k_rt_free (p : Z) : KM unit := kmod (fun k => put_heap (rt_free p (k_heap k)) k).
Definition k_mm_alloc (n align : Z) : KM Z :=
  fun k => let '(p, h) := mm_alloc n align (k_heap k) in (p, put_heap h k).
