(* ===== verification/KernPorts.v ===== *)
(** * KernPorts: awaited replies and ports ([core/fsroute.cc], [core/ports.cc])

    A session that calls a file operation through the kernel waits for the
    file server's reply.  [tab] holds the calls in flight; [fsroute_intercept]
    takes a datagram off the ports when it answers one of them, and
    [fsroute_wait_budget] polls the table, letting other sessions run between
    two looks. *)

From S2P Require Import Prelude Frame KernHeap KernState.

Definition fsroute_init : KM unit :=
  kmod (fun k => put_tab (map (fun t => mkPending false (t_seq t) (t_name t) (t_done t) (t_resp t)) (k_tab k)) k).

Definition fsroute_expect (seq : Z) (name : list byte) : KM Z := fun k =>
  match findi (fun t => negb (t_used t)) (k_tab k) with
  | Some i => (0, put_tab (<[i := mkPending true seq (strn 15 name) false []]> (k_tab k)) k)
  | None => (-1, k)
  end.

Definition fsroute_pending_for (name : list byte) (k : K) : Z :=
  if existsb (fun t => t_used t && negb (t_done t) && streq (t_name t) name) (k_tab k) then 1 else 0.

(** Is [t] the call that a datagram for [name] with sequence number [seq]
    answers? *)
Definition awaits (name : list byte) (seq : Z) (t : pending) : bool :=
  t_used t && negb (t_done t) && streq (t_name t) name && (t_seq t =? seq).

Definition fsroute_intercept (name data : list byte) : KM bool := fun k =>
  if zlen data <? 4 then (false, k)
  else
    match findi (awaits name (Get16 data 2)) (k_tab k) with
    | Some i =>
        match k_tab k !! i with
        | Some t => (true, put_tab (<[i := mkPending true (t_seq t) (t_name t) true
                                        (take (Z.to_nat RESP_MAX) data)]> (k_tab k)) k)
        | None => (false, k)
        end
    | None => (false, k)
    end.

Definition fsroute_feed (name data : list byte) : KM unit := _ ← fsroute_intercept name data; mret tt.

(** Is [t] the answered call [fsroute_wait_budget] takes? *)
Definition answered (seq : Z) (t : pending) : bool := t_used t && t_done t && (t_seq t =? seq).

Definition set_used (b : bool) (t : pending) : pending := mkPending b (t_seq t) (t_name t) (t_done t) (t_resp t).
Definition set_done (b : bool) (t : pending) : pending := mkPending (t_used t) (t_seq t) (t_name t) b (t_resp t).

(** [None] is the result -1.  [yield i] is what the other sessions do to the
    kernel while the caller has yielded for the [i]-th time. *)
Fixpoint wait_from (yield : nat -> K -> K) (seq cap : Z) (s : nat) (spins : nat) (k : K) : option (list byte) * K :=
  match spins with
  | O =>
      (None,
       match findi (fun t => t_used t && (t_seq t =? seq)) (k_tab k) with
       | Some i => put_tab (alter (fun t => set_done false (set_used false t)) i (k_tab k)) k
       | None => k
       end)
  | S spins =>
      match findi (answered seq) (k_tab k) with
      | Some i =>
          (Some (take (Z.to_nat cap) (default [] (t_resp <$> k_tab k !! i))),
           put_tab (alter (set_used false) i (k_tab k)) k)
      | None => wait_from yield seq cap (S s) spins (yield s k)
      end
  end.

Definition fsroute_wait_budget (yield : nat -> K -> K) (seq cap : Z) (spins : nat) : K -> option (list byte) * K :=
  wait_from yield seq cap 0 spins.

(** * The port tables ([core/ports.cc])

    Named ports with a ring of 32 messages each, and one table of sixteen
    handles per session that refer to them.  [port_send], which dispatches to
    the kernel's own endpoints, is in [KernCalls]; everything it and the
    endpoints build on is here.  Locks and interrupt masking do not appear:
    every operation runs to its end on the one core that runs sessions. *)

(** ** Names *)

(** [name_eq(a, alen, b)]: the [alen] bytes of [a] against the C string in [b]. *)
Fixpoint name_eq (a b : list byte) : bool :=
  match a, b with
  | [], [] => true
  | [], c :: _ => bool_decide (c = Byte.x00)
  | _ :: _, [] => false
  | x :: a, c :: b =>
      if decide (c = Byte.x00) then false else if decide (x = c) then name_eq a b else false
  end.

Definition kWellKnownNames : list (list byte) :=
  [bs "registry"; bs "devman"; bs "power"; bs "console"; bs "login"; bs "fs"; bs "net"; bs "init"; bs "shell"].

Definition is_well_known_name (name : list byte) : bool := existsb (name_eq name) kWellKnownNames.

(** ** Tables *)

Definition empty_ring : list (option msg) := replicate (Z.to_nat MAX_Q) None.

Definition set_p_used (b : bool) (p : port) : port :=
  mkPort b (p_kernel_endpoint p) (p_creator p) (p_name p) (p_qn p) (p_qh p) (p_qt p) (p_ring p).

(** The port a creation fills in; the ring's slots stay as they are. *)
Definition open_port (endpoint : bool) (creator : Z) (name : list byte) (p : port) : port :=
  mkPort true endpoint creator name 0 0 0 (p_ring p).

Definition is_free (p : port) : bool := negb (p_used p).

Definition boot_endpoint (ps : list port) (name : list byte) : list port :=
  match findi is_free ps with
  | Some i => alter (open_port true 0 name) i ps
  | None => ps
  end.

Definition ports_init : KM unit := kmod (fun k =>
  let ps := map (set_p_used false) (k_ports k) in
  let ps := fold_left boot_endpoint [bs "registry"; bs "devman"; bs "power"] ps in
  put_htab (replicate (Z.to_nat MAX_SESSIONS) (replicate (Z.to_nat H_PER_SESS) (-1))) (put_ports ps k)).

Definition htab_at (k : K) (sid h : Z) : Z :=
  default (-1) (k_htab k !! Z.to_nat sid ≫= fun row => row !! Z.to_nat h).
Definition set_htab (sid h g : Z) (k : K) : K :=
  put_htab (alter (fun row => <[Z.to_nat h := g]> row) (Z.to_nat sid) (k_htab k)) k.

Definition port_at (k : K) (g : Z) : option port := if g <? 0 then None else k_ports k !! Z.to_nat g.
Definition upd_port (g : Z) (f : port -> port) (k : K) : K := put_ports (alter f (Z.to_nat g) (k_ports k)) k.

(** The index of the port behind a handle. *)
Definition port_of (k : K) (sid h : Z) : option Z :=
  if (MAX_SESSIONS <=? sid) || (h <? 0) || (H_PER_SESS <=? h) then None
  else
    let g := htab_at k sid h in
    if (g <? 0) || (MAX_PORTS <=? g) then None
    else match port_at k g with
         | Some p => if p_used p then Some g else None
         | None => None
         end.

(** The first empty slot of the session's handle table. *)
Definition free_handle (k : K) (sid : Z) : option nat :=
  findi (fun g => g <? 0) (default [] (k_htab k !! Z.to_nat sid)).

Definition has_name (name : list byte) (p : port) : bool := p_used p && name_eq name (p_name p).

Definition port_create (sid : Z) (name : list byte) : KM Z := fun k =>
  if (zlen name =? 0) || (15 <? zlen name) || (sid =? 0) || negb (sched_alive k sid) then (-1, k)
  else if existsb (has_name name) (k_ports k) then (-1, k)
  else
    match findi is_free (k_ports k) with
    | None => (-1, k)
    | Some p =>
        let k1 := upd_port (Z.of_nat p) (open_port false sid name) k in
        match free_handle k1 sid with
        | Some h => (Z.of_nat h, set_htab sid (Z.of_nat h) (Z.of_nat p) k1)
        | None => (-1, upd_port (Z.of_nat p) (set_p_used false) k1)
        end
    end.

Definition port_bind (sid : Z) (name : list byte) : KM Z :=
  alive ← kget (fun k => sched_alive k sid);
  if (sid =? 0) || negb alive then
    _ ← console_puts (bs "[bind] dead caller" ++ nl);
    mret (-1)
  else
    found ← kget (fun k => findi (has_name name) (k_ports k));
    match found with
    | None =>
        once ← kget k_bind_once;
        _ ← (if (once : bool) then mret tt
             else
               _ ← kmod (put_bind_once true);
               _ ← console_puts (bs "[bind] no such port: ");
               _ ← console_puts (take 15 name);
               console_puts nl);
        mret (-1)
    | Some p =>
        free ← kget (fun k => free_handle k sid);
        match free with
        | Some h =>
            _ ← kmod (set_htab sid (Z.of_nat h) (Z.of_nat p));
            mret (Z.of_nat h)
        | None =>
            _ ← console_puts (bs "[bind] table full sid=");
            _ ← console_hex64 sid;
            _ ← console_puts nl;
            mret (-1)
        end
    end.

Definition ports_owner_of_handle (k : K) (sid h : Z) : Z :=
  match port_of k sid h with
  | Some g => default (-1) (p_creator <$> port_at k g)
  | None => -1
  end.

(** The session holds a handle on a port it created and whose C string is
    [name]. *)
Definition ports_name_owned_by (k : K) (sid : Z) (name : list byte) : bool :=
  if (MAX_SESSIONS <=? sid) || (sid =? 0) then false
  else
    existsb (fun g =>
      match (if (0 <=? g) && (g <? MAX_PORTS) then port_at k g else None) with
      | Some p => p_used p && (p_creator p =? sid) && streq (p_name p) name
      | None => false
      end) (default [] (k_htab k !! Z.to_nat sid)).

(** ** Rings *)

Definition ring_put (m : msg) (p : port) : port :=
  mkPort (p_used p) (p_kernel_endpoint p) (p_creator p) (p_name p)
    (u32 (p_qn p + 1)) (p_qh p) ((p_qt p + 1) mod MAX_Q) (<[Z.to_nat (p_qt p) := Some m]> (p_ring p)).

Definition ring_take (p : port) : port :=
  mkPort (p_used p) (p_kernel_endpoint p) (p_creator p) (p_name p)
    (u32 (p_qn p - 1)) ((p_qh p + 1) mod MAX_Q) (p_qt p) (<[Z.to_nat (p_qh p) := None]> (p_ring p)).

Definition ring_head (p : port) : option msg := mjoin (p_ring p !! Z.to_nat (p_qh p)).

(** Bump the counters of a message sent. *)
Definition count_send (len : Z) : KM unit :=
  _ ← perf_inc PERF_IPC_SEND 1;
  perf_inc PERF_IPC_BYTES len.

(** The ring enqueue the three senders share: -2 when the ring is full, -1
    when there is no memory. *)
Definition enqueue (g from_sid : Z) (data : list byte) : KM Z :=
  full ← kget (fun k => match port_at k g with Some p => MAX_Q <=? p_qn p | None => true end);
  if (full : bool) then mret (-2)
  else
    m ← k_rt_malloc sizeof_msg;
    if m =? 0 then mret (-1)
    else
      _ ← kmod (upd_port g (ring_put (mkMsg m from_sid data)));
      _ ← count_send (zlen data);
      mret 0.

Definition ports_enqueue_by_name (name data : list byte) : KM bool :=
  taken ← fsroute_intercept name data;
  if (taken : bool) then mret true
  else
    found ← kget (fun k => findi (fun p => p_used p && streq (p_name p) name) (k_ports k));
    match found with
    | None => mret false
    | Some g =>
        rc ← enqueue (Z.of_nat g) 0 (take (Z.to_nat MSG_MAX) data);
        mret (rc =? 0)
    end.

Definition ports_kernel_enqueue (sid h : Z) (data : list byte) : KM unit :=
  p ← kget (fun k => port_of k sid h);
  match p with
  | None => mret tt
  | Some g =>
      if (zlen data =? 0) || (MSG_MAX <? zlen data) then mret tt
      else _ ← enqueue g sid data; mret tt
  end.

(** The ring without the messages of [sid], and the blocks they were in. *)
Fixpoint drain_ring (sid : Z) (r : list (option msg)) : list (option msg) * list Z :=
  match r with
  | [] => ([], [])
  | s :: r =>
      let '(r', ps) := drain_ring sid r in
      match s with
      | Some m => if m_from_sid m =? sid then (None :: r', m_ptr m :: ps) else (s :: r', ps)
      | None => (None :: r', ps)
      end
  end.

Definition drain_port (sid : Z) (p : port) : port * list Z :=
  if p_used p then
    let '(r, ps) := drain_ring sid (p_ring p) in
    (mkPort (p_used p) (p_kernel_endpoint p) (p_creator p) (p_name p)
       (u32 (p_qn p - zlen ps)) (p_qh p) (p_qt p) r, ps)
  else (p, []).

Definition ports_drain_session (sid : Z) : KM unit := kmod (fun k =>
  let l := map (drain_port sid) (k_ports k) in
  put_heap (fold_left (fun h p => rt_free p h) (mjoin (map snd l)) (k_heap k)) (put_ports (map fst l) k)).

Definition ports_clear_session_handles (sid : Z) : KM unit := kmod (fun k =>
  if MAX_SESSIONS <=? sid then k
  else put_htab (alter (fun _ => replicate (Z.to_nat H_PER_SESS) (-1)) (Z.to_nat sid) (k_htab k)) k).

(** The result and the bytes written to [out]. *)
Definition port_recv (sid h cap : Z) : KM (Z * list byte) :=
  p ← kget (fun k => port_of k sid h ≫= fun g => (fun p => (g, p)) <$> port_at k g);
  match p with
  | None => mret (-1, [])
  | Some (g, p) =>
      if p_qn p =? 0 then mret (0, [])
      else
        match ring_head p with
        | None => mret (0, [])
        | Some m =>
            let out := take (Z.to_nat cap) (m_data m) in
            _ ← kmod (upd_port g ring_take);
            _ ← k_rt_free (m_ptr m);
            _ ← (if 0 <? zlen out then perf_inc PERF_IPC_RECV 1 else mret tt);
            mret (zlen out, out)
        end
  end.
