(* ===== verification/KernSched.v ===== *)
(** * KernSched: sessions ([core/sched.cc], [core/preempt.cc])

    The session table and everything that changes it: spawning from an image,
    exit, kill, reaping, identity and capability changes, the round-robin pick
    and the yield; the knob store and the preemption settings; of
    [core/vfio.cc] the device assignments, and of [core/virtio_net.cc] the
    attachment of the packet windows, which spawning and killing touch.

    [sched_run] is a loop around context switches: [sched_pick] is one pass of
    it up to the switch into the session, and [sched_yield_current] or
    [sched_session_main]'s tail is what the session does before it switches
    back.  Device polling is not part of a pass. *)

From S2P Require Import Prelude Frame KernHeap KernState KernPorts.

(** ** Fields *)

Definition set_state (s : st) (x : session) : session :=
  mkSession (s_uid x) (s_capmask x) (s_cap_source x) (s_name x) s (s_eng_live x) (s_exit_code x) (s_stack x) (s_wctx x).
Definition set_ident (uid cap : Z) (x : session) : session :=
  mkSession uid cap (s_cap_source x) (s_name x) (s_state x) (s_eng_live x) (s_exit_code x) (s_stack x) (s_wctx x).
Definition set_source (src : Z) (x : session) : session :=
  mkSession (s_uid x) (s_capmask x) src (s_name x) (s_state x) (s_eng_live x) (s_exit_code x) (s_stack x) (s_wctx x).
(** Copies at most 15 characters and their NUL over the old name. *)
Definition set_name (n : list byte) (x : session) : session :=
  mkSession (s_uid x) (s_capmask x) (s_cap_source x) (splice (s_name x) 0 (strn 15 n ++ [Byte.x00])) (s_state x) (s_eng_live x) (s_exit_code x) (s_stack x) (s_wctx x).
Definition set_live (b : bool) (x : session) : session :=
  mkSession (s_uid x) (s_capmask x) (s_cap_source x) (s_name x) (s_state x) b (s_exit_code x) (s_stack x) (s_wctx x).
Definition set_exit (c : Z) (x : session) : session :=
  mkSession (s_uid x) (s_capmask x) (s_cap_source x) (s_name x) (s_state x) (s_eng_live x) c (s_stack x) (s_wctx x).
Definition set_stack (p : Z) (x : session) : session :=
  mkSession (s_uid x) (s_capmask x) (s_cap_source x) (s_name x) (s_state x) (s_eng_live x) (s_exit_code x) p (s_wctx x).
Definition set_wctx (w : wasi) (x : session) : session :=
  mkSession (s_uid x) (s_capmask x) (s_cap_source x) (s_name x) (s_state x) (s_eng_live x) (s_exit_code x) (s_stack x) w.

Definition upd_sess (sid : Z) (f : session -> session) (k : K) : K :=
  put_sessions (alter f (Z.to_nat sid) (k_sessions k)) k.

Definition sched_current_sid (k : K) : Z := default 0 (k_cur k).

Definition is_running (x : session) : bool :=
  bool_decide (s_state x = S_RUNNABLE) || bool_decide (s_state x = S_RUNNING).
Definition is_dead (x : session) : bool :=
  bool_decide (s_state x = S_FREE) || bool_decide (s_state x = S_ZOMBIE).

Definition sched_count (k : K) : Z := zlen (filter is_running (drop 1 (k_sessions k))).

(** ** Preemption settings and knobs *)

Definition upd_conf (f : Conf -> Conf) (k : K) : K := put_conf (f (k_conf k)) k.

Definition pit_divisor (quantum_us : Z) : Z :=
  let d := 1193182 * quantum_us / 1000000 in
  let d := if d <? 1 then 1 else d in
  if 65535 <? d then 65535 else d.

Definition pit_reprogram_for_quantum (quantum_us : Z) (c : Conf) : Conf :=
  mkConf (c_knobs c) (c_quantum_ticks c) (c_preempt_on c) (c_preempt_pending c) (pit_divisor quantum_us).

Definition preempt_quantum_us (c : Conf) : Z := u32 (c_quantum_ticks c * 1000).

Definition conf_set_quantum_us (us : Z) : KM unit := kmod (upd_conf (fun c =>
  if (100 <=? us) && (us <=? 200000) then
    pit_reprogram_for_quantum us
      (mkConf (c_knobs c) (us / 1000) (c_preempt_on c) (c_preempt_pending c) (c_pit_divisor c))
  else c)).

Definition conf_set_preempt (on : Z) : KM unit := kmod (upd_conf (fun c =>
  let want := Z.land on 1 in
  let c := if negb (want =? 0) && (c_preempt_on c =? 0)
           then pit_reprogram_for_quantum (preempt_quantum_us c) c else c in
  mkConf (c_knobs c) (c_quantum_ticks c) want (c_preempt_pending c) (c_pit_divisor c))).

Definition set_pending (sid : Z) (c : Conf) : Conf :=
  mkConf (c_knobs c) (c_quantum_ticks c) (c_preempt_on c) sid (c_pit_divisor c).

Definition preempt_mark_pending (sid : Z) : KM unit :=
  if sid =? 0 then mret tt else kmod (upd_conf (set_pending sid)).
Definition preempt_take_pending : KM Z :=
  s ← kget (fun k => c_preempt_pending (k_conf k));
  _ ← kmod (upd_conf (set_pending 0));
  mret s.

Definition KNOB_QUANTUM_US : Z := 0.
Definition KNOB_LOG_LEVEL : Z := 1.
Definition KNOB_AUDIT_MASK : Z := 2.

(** The index is a [uint8_t]. *)
Definition sched_knob_set (idx val : Z) : KM Z :=
  if KNOB_COUNT <=? idx then mret (-1)
  else
    _ ← kmod (upd_conf (fun c =>
          mkConf (<[Z.to_nat idx := val]> (c_knobs c)) (c_quantum_ticks c) (c_preempt_on c) (c_preempt_pending c)
            (c_pit_divisor c)));
    mret 0.
Definition sched_knob_get (idx : Z) (k : K) : Z :=
  if idx <? KNOB_COUNT then default 0 (c_knobs (k_conf k) !! Z.to_nat idx) else 0.
Definition sched_knobs_init : KM unit :=
  _ ← sched_knob_set KNOB_QUANTUM_US 5000;
  _ ← sched_knob_set KNOB_LOG_LEVEL 1;
  _ ← sched_knob_set KNOB_AUDIT_MASK 255;
  mret tt.

(** ** Device assignments *)

Definition set_assigns (a : list pci_assign) (d : Dev) : Dev :=
  mkDev a (v_vn_ready d) (v_ws_attached d) (v_ws_sid d) (v_focus_sid d) (v_inq d) (v_ncpus d).

(** The part of [vfio_session_cleanup] that concerns assignments. *)
Definition vfio_session_cleanup (sid : Z) : KM unit := kmod (fun k =>
  put_dev (set_assigns (map (fun a => if a_used a && (a_target_sid a =? sid)
                                      then mkAssign false (a_target_sid a) (a_bus a) (a_dev a) (a_fn a) else a)
                          (v_assigns (k_dev k))) (k_dev k)) k).

Section platform.
Context {P : Platform}.

Definition vfio_assign_pci (target_sid bus dev fn caller_sid : Z) : KM Z :=
  cap ← kget (fun k => sched_capmask_of k caller_sid);
  if negb (has_bits cap SCHED_CAP_DEVMAN) then mret (-1)
  else
    let v := pci_read32 bus dev fn 0 in
    if (v =? -1) || (Z.land v 0xFFFF =? 0xFFFF) then mret (-1)
    else
      slot ← kget (fun k => findi (fun a => negb (a_used a)) (v_assigns (k_dev k)));
      match slot with
      | Some i =>
          _ ← kmod (fun k => put_dev (set_assigns (<[i := mkAssign true target_sid bus dev fn]>
                                         (v_assigns (k_dev k))) (k_dev k)) k);
          _ ← console_puts (bs "[vfio] assign ");
          _ ← console_hex64 bus;
          _ ← console_puts (bs ":");
          _ ← console_hex64 dev;
          _ ← console_puts (bs ".");
          _ ← console_hex64 fn;
          _ ← console_puts (bs " -> sid=");
          _ ← console_hex64 target_sid;
          _ ← console_puts nl;
          mret 0
      | None => mret (-1)
      end.

Definition vfio_enumerate (max : nat) : list pci_info := take max (take (Z.to_nat MAX_PCI_DEVS) pci_enumerate).

(** ** Guest memory of a session *)

Definition k_engine_shutdown (sid : Z) : KM unit := kmod (fun k => put_heap (engine_shutdown sid (k_heap k)) k).
Definition k_engine_ensure_memory (sid min_bytes : Z) : KM Z := fun k =>
  let '(r, h) := engine_ensure_memory sid min_bytes (k_heap k) in (r, put_heap h k).
Definition k_engine_init (blob : list byte) : KM Z := fun k =>
  let '(r, h) := engine_init blob (k_heap k) in (r, put_heap h k).

Definition sched_session_ensure_bytes (sid min_bytes : Z) : KM Z :=
  live ← kget (fun k => default false (s_eng_live <$> sess k sid));
  if (MAX_SESSIONS <=? sid) || negb live then mret (-1)
  else k_engine_ensure_memory sid min_bytes.

Definition RING_BYTES : Z := 8 + 256 * 1536.
Definition NET_RX_WIN : Z := 0x4000000.
Definition NET_TX_WIN : Z := NET_RX_WIN + RING_BYTES.
Definition NET_MEM_MIN : Z := Z.land (NET_TX_WIN + RING_BYTES + 0xFFFF) (Z.lnot 0xFFFF).

Definition set_ws (attached : bool) (sid : Z) (d : Dev) : Dev :=
  mkDev (v_assigns d) (v_vn_ready d) attached sid (v_focus_sid d) (v_inq d) (v_ncpus d).

Definition netwin_attach (sid : Z) : KM Z :=
  ready ← kget (fun k => v_vn_ready (k_dev k));
  if negb ready then mret (-1)
  else
    _ ← kmod (fun k => put_dev (set_ws (v_ws_attached (k_dev k)) sid (k_dev k)) k);
    rc ← sched_session_ensure_bytes sid NET_MEM_MIN;
    if negb (rc =? 0) then
      _ ← console_puts (bs "[netwin] grow to ");
      _ ← console_hex64 NET_MEM_MIN;
      _ ← console_puts (bs " failed" ++ nl);
      mret (-1)
    else
      sz ← kget (fun k => if default false (s_eng_live <$> sess k sid) then engine_memory_size sid (k_heap k) else 0);
      if sz <? NET_MEM_MIN then
        _ ← console_puts (bs "[netwin] memory too small sz=");
        _ ← console_hex64 sz;
        _ ← console_puts nl;
        mret (-1)
      else
        _ ← kmod (fun k => put_dev (set_ws true (v_ws_sid (k_dev k)) (k_dev k)) k);
        _ ← console_puts (bs "[netwin] rx@");
        _ ← console_hex64 NET_RX_WIN;
        _ ← console_puts (bs " tx@");
        _ ← console_hex64 NET_TX_WIN;
        _ ← console_puts nl;
        mret 0.

(** ** Images and spawning *)

Definition sched_preload_image (name blob : list byte) : KM unit := kmod (fun k =>
  if existsb (fun i => i_used i && streq (i_name i) name) (k_images k) then k
  else
    match findi (fun i => negb (i_used i)) (k_images k) with
    | Some i => put_images (<[i := mkImage true (strn 15 name) blob]> (k_images k)) k
    | None => k
    end).

(** Free slots, slot 0 apart, which is the kernel's. *)
Definition free_slot (k : K) : option Z :=
  (fun i => Z.of_nat (S i)) <$> findi (fun x => bool_decide (s_state x = S_FREE)) (drop 1 (k_sessions k)).

(** [engine_set_args] fails only without an engine. *)
Definition engine_set_args (eng_live : bool) : Z := if eng_live then 0 else -1.

Definition console_mm : KM unit :=
  used ← kget (fun k => mm_used_bytes (k_heap k));
  total ← kget (fun k => mm_total_bytes (k_heap k));
  _ ← console_hex64 used;
  _ ← console_puts (bs "/");
  console_hex64 total.

(** The session's state for its first instruction. *)
Definition fresh_wctx (argv : list (list byte)) (w : wasi) : wasi :=
  mkWasi (take 14 argv) false 0 (replicate (Z.to_nat SCHED_MAX_FDS) SCHED_FD_EMPTY)
    (w_fsreq w) (w_fsresp w) (w_fs_seq_ctr w) (w_fs_rt_seq w).

Definition spawn_impl (name blob : list byte) (uid capmask : Z) (argv : list (list byte)) : KM Z :=
  slot ← kget free_slot;
  match slot with
  | None => mret (-1)
  | Some i =>
      _ ← kmod (upd_sess i (fun x => set_name name (set_exit (-1) (set_ident uid capmask x))));
      r ← k_engine_init blob;
      if negb (r =? 0) then
        _ ← console_puts (bs "[sched] init failed for '");
        _ ← console_puts (strn 15 name);
        _ ← console_puts (bs "' status=");
        _ ← console_hex64 r;
        _ ← console_puts (bs " mm=");
        _ ← console_mm;
        _ ← console_puts nl;
        mret (-1)
      else
        _ ← kmod (upd_sess i (set_live true));
        stack ← k_mm_alloc STACK_BYTES 16;
        _ ← kmod (upd_sess i (set_stack stack));
        if stack =? 0 then
          _ ← k_engine_shutdown i;
          _ ← kmod (upd_sess i (set_live false));
          mret (-1)
        else
          _ ← kmod (upd_sess i (fun x => set_wctx (fresh_wctx argv (s_wctx x)) x));
          if negb (engine_set_args true =? 0) then
            _ ← k_engine_shutdown i;
            _ ← kmod (upd_sess i (set_live false));
            _ ← k_rt_free stack;
            _ ← kmod (upd_sess i (set_stack 0));
            mret (-1)
          else
            _ ← kmod (upd_sess i (set_state S_RUNNABLE));
            _ ← console_puts (bs "[sched] spawned '");
            _ ← console_puts (strn 15 name);
            _ ← console_puts (bs "' mm=");
            _ ← console_mm;
            _ ← console_puts (bs "' sid=");
            _ ← console_hex64 i;
            _ ← console_puts nl;
            mret i
  end.

Definition sched_spawn_named_argv := spawn_impl.
Definition sched_spawn_named (name blob : list byte) (uid capmask : Z) : KM Z :=
  spawn_impl name blob uid capmask [name].

Definition sched_spawn_image (name : list byte) (uid capmask : Z) (modname : list byte) (argv : list (list byte)) : KM Z :=
  found ← kget (fun k => findi (fun i => i_used i && streq (i_name i) modname) (k_images k) ≫= fun i => k_images k !! i);
  match found with
  | Some i => sched_spawn_named_argv name (i_blob i) uid capmask argv
  | None => mret (-1)
  end.

(** ** Leaving *)

(** The tail of [sched_session_main], once [engine_start] has returned [r]. *)
Definition sched_session_main (sid r : Z) : KM unit :=
  w ← kget (fun k => s_wctx <$> sess k sid);
  let code := match w with
              | Some w => if w_exited w then w_exit_code w else if r =? 0 then 0 else 1
              | None => 0
              end in
  _ ← kmod (upd_sess sid (set_exit code));
  name ← kget (fun k => default [] (cstr16 ∘ s_name <$> sess k sid));
  _ ← console_puts (bs "[sched] '");
  _ ← console_puts name;
  _ ← console_puts (bs "' exited rc=");
  _ ← console_hex64 code;
  _ ← console_puts nl;
  _ ← k_engine_shutdown sid;
  _ ← kmod (upd_sess sid (set_live false));
  _ ← vfio_session_cleanup sid;
  kmod (upd_sess sid (set_state S_ZOMBIE)).

(** The call up to its context switch. *)
Definition sched_yield_current : KM unit :=
  c ← kget k_cur;
  match c with
  | None => mret tt
  | Some sid =>
      on ← kget (fun k => c_preempt_on (k_conf k));
      _ ← (if negb (on =? 0) then _ ← preempt_take_pending; mret tt else mret tt);
      kmod (upd_sess sid (set_state S_RUNNABLE))
  end.

Definition audit (op reason target : list byte) : KM unit :=
  c ← kget k_cur;
  uid ← kget (fun k => match c with Some sid => default 0 (s_uid <$> sess k sid) | None => 0 end);
  _ ← console_puts (bs "[audit] sid=");
  _ ← console_hex64 (default 0 c);
  _ ← console_puts (bs " uid=");
  _ ← console_hex64 uid;
  _ ← console_puts (bs " op=");
  _ ← console_puts op;
  _ ← console_puts (bs " reason=");
  _ ← console_puts reason;
  _ ← console_puts (bs " target=");
  _ ← console_puts target;
  console_puts nl.

Definition sched_kill (sid from_sid : Z) : KM Z :=
  alive ← kget (fun k => sched_alive k sid);
  if negb alive then
    _ ← audit (bs "KILL") (bs "nosession") (bs "registry");
    mret (-1)
  else
    cap ← kget (fun k => sched_capmask_of k from_sid);
    if negb (has_bits cap SCHED_CAP_KILL) then
      _ ← audit (bs "KILL") (bs "cap") (bs "registry");
      mret (-1)
    else
      _ ← kmod (upd_sess sid (set_state S_ZOMBIE));
      _ ← ports_drain_session sid;
      _ ← ports_clear_session_handles sid;
      _ ← vfio_session_cleanup sid;
      name ← kget (fun k => default [] (cstr16 ∘ s_name <$> sess k sid));
      _ ← console_puts (bs "[sched] killed sid=");
      _ ← console_hex64 sid;
      _ ← console_puts (bs " ('");
      _ ← console_puts name;
      _ ← console_puts (bs "')" ++ nl);
      mret 0.

Definition reap (i : Z) : KM unit :=
  x ← kget (fun k => sess k i);
  match x with
  | None => mret tt
  | Some x =>
      if negb (bool_decide (s_state x = S_ZOMBIE)) then mret tt
      else
        _ ← (if s_eng_live x then
               _ ← k_engine_shutdown i;
               kmod (upd_sess i (set_live false))
             else mret tt);
        _ ← (if negb (s_stack x =? 0) then
               _ ← k_rt_free (s_stack x);
               kmod (upd_sess i (set_stack 0))
             else mret tt);
        _ ← kmod (upd_sess i (fun x => set_exit (-1) (set_state S_FREE x)));
        _ ← console_puts (bs "[sched] reaped sid=");
        _ ← console_hex64 i;
        console_puts nl
  end.

Definition session_slots : list Z := [1; 2; 3; 4; 5; 6; 7; 8; 9; 10; 11].

Fixpoint for_each {A} (l : list A) (f : A -> KM unit) : KM unit :=
  match l with
  | [] => mret tt
  | x :: l => _ ← f x; for_each l f
  end.

Definition sched_reap_zombies : KM unit := for_each session_slots reap.

(** ** The round-robin pass *)

Definition all_dead (k : K) : bool := forallb is_dead (drop 1 (k_sessions k)).

(** The slots in the order the pass looks at them. *)
Definition scan_order (next_rr : Z) : list Z :=
  map (fun j => (next_rr + Z.of_nat j) mod MAX_SESSIONS) (seq 0 (Z.to_nat MAX_SESSIONS)).

Definition runnable (k : K) (i : Z) : bool := negb (i =? 0) && bool_decide (state_of k i = S_RUNNABLE).

(** [None]: the loop ends, or goes round again with nobody to run. *)
Definition sched_pick : KM (option Z) :=
  dead ← kget all_dead;
  if (dead : bool) then mret None
  else
    _ ← sched_reap_zombies;
    found ← kget (fun k => let order := scan_order (k_next_rr k) in findi (runnable k) order ≫= fun j => order !! j);
    match found with
    | None => mret None
    | Some i =>
        _ ← kmod (put_next_rr ((i + 1) mod MAX_SESSIONS));
        _ ← kmod (upd_sess i (set_state S_RUNNING));
        _ ← kmod (put_cur (Some i));
        mret (Some i)
    end.

(** ** Identity and capabilities *)

Definition sched_session_by_name (k : K) (name : list byte) : Z :=
  match findi (fun x => is_running x && streq (s_name x) name) (drop 1 (k_sessions k)) with
  | Some i => Z.of_nat (S i)
  | None => -1
  end.

(** [sid < MAX_SESSIONS && sessions[sid].state != S_FREE]. *)
Definition in_use (k : K) (sid : Z) : bool :=
  (sid <? MAX_SESSIONS) && negb (bool_decide (state_of k sid = S_FREE)).

Definition sched_set_identity (sid uid capmask : Z) : KM unit :=
  ok ← kget (fun k => in_use k sid);
  if (ok : bool) then
    _ ← kmod (upd_sess sid (fun x => set_source 0 (set_ident uid capmask x)));
    name ← kget (fun k => default [] (cstr16 ∘ s_name <$> sess k sid));
    _ ← console_puts (bs "[sched] identity '");
    _ ← console_puts name;
    _ ← console_puts (bs "' uid=");
    _ ← console_hex64 uid;
    _ ← console_puts (bs " caps=");
    _ ← console_hex64 capmask;
    console_puts nl
  else mret tt.

(** Masks are 64 bits wide. *)
Definition sched_set_capmask (sid clear set source : Z) : KM Z :=
  ok ← kget (fun k => in_use k sid);
  if (ok : bool) then
    _ ← kmod (upd_sess sid (fun x =>
          set_source source (set_ident (s_uid x) (Z.lor (Z.ldiff (s_capmask x) clear) set) x)));
    name ← kget (fun k => default [] (cstr16 ∘ s_name <$> sess k sid));
    cap ← kget (fun k => default 0 (s_capmask <$> sess k sid));
    _ ← console_puts (bs "[sched] chcaps '");
    _ ← console_puts name;
    _ ← console_puts (bs "' caps=0x");
    _ ← console_hex64 cap;
    _ ← console_puts nl;
    mret 0
  else mret (-1).

Definition sched_is_login (k : K) (sid : Z) : bool := ports_name_owned_by k sid (bs "login").
Definition sched_is_init (k : K) (sid : Z) : bool :=
  in_use k sid && streq (default [] (s_name <$> sess k sid)) (bs "init").
Definition sched_cap_source (k : K) (sid : Z) : Z :=
  if in_use k sid then default 0 (s_cap_source <$> sess k sid) else 0.

Definition slist_rec (i : nat) (x : session) : Z * Z * Z * list byte :=
  (Z.of_nat i, s_uid x, st_num (s_state x), take 15 (s_name x) ++ [Byte.x00]).

(** The records of the slots in use, the first [max] of them; the kernel's own
    slot 0 is free. *)
Definition sched_list (k : K) (max : nat) : list (Z * Z * Z * list byte) :=
  take max (map (fun ix => slist_rec ix.1 ix.2)
    (filter (fun ix => s_state ix.2 ≠ S_FREE) (imap pair (k_sessions k)))).

End platform.

(** ** Boot *)

Definition zero_session : session :=
  mkSession 0 0 0 (mkbuf 16) S_FREE false 0 0 (mkWasi [] false 0 [] [] [] 0 0).

Definition sched_init : KM unit :=
  _ ← kmod (fun k => put_sessions
        (map (fun x => set_source 2 (set_live false (set_stack 0 (set_state S_FREE x)))) (k_sessions k)) k);
  _ ← kmod (put_next_rr 1);
  _ ← kmod (put_cur None);
  _ ← kmod (fun k => put_dev (mkDev (v_assigns (k_dev k)) (v_vn_ready (k_dev k)) (v_ws_attached (k_dev k))
                                (v_ws_sid (k_dev k)) (v_focus_sid (k_dev k)) (v_inq (k_dev k)) 1) k);
  sched_knobs_init.
