(* ===== verification/KernSvc.v ===== *)
(** * KernSvc: the kernel's own endpoints ([core/kernsvc.cc])

    The ports [registry], [devman] and [power] are served by the kernel while
    the sender is in its send call.  One definition per request; [dispatch]
    parses the canonical header and chooses.  Replies go to the port the
    request names, or, when it names none, to the port it was sent on. *)

From S2P Require Import Prelude Frame KernHeap KernState KernPorts KernSched.

Section platform.
Context {P : Platform}.

(** [g_rname], [g_from_sid] and [g_reply_h]. *)
Record route := mkRoute { g_rname : list byte; g_from_sid : Z; g_reply_h : Z }.

Definition kernsvc_reply (rt : route) (data : list byte) : KM unit :=
  match cstr16 (g_rname rt) with
  | [] => if 0 <=? g_reply_h rt then ports_kernel_enqueue (g_from_sid rt) (g_reply_h rt) data else mret tt
  | name => _ ← ports_enqueue_by_name name data; mret tt
  end.

(** The 16 bytes of the name field are not written. *)
Definition kernsvc_nack (rt : route) (op seq : Z) : KM unit :=
  kernsvc_reply rt (le_split 2 op ++ le_split 2 seq ++ le_split 4 0
                      ++ take 16 (stack_junk ++ mkbuf 16) ++ le_split 4 0xFFFFFFFF).

Definition kernsvc_audit (sid : Z) (op reason target : list byte) : KM unit :=
  _ ← console_puts (bs "[audit] sid=");
  _ ← console_hex64 sid;
  _ ← console_puts (bs " op=");
  _ ← console_puts op;
  _ ← console_puts (bs " reason=");
  _ ← console_puts reason;
  _ ← console_puts (bs " target=");
  _ ← console_puts target;
  console_puts nl.

(** The static buffer replies are built in: [kbegin] and the body behind it. *)
Definition kframe (rop seq : Z) (body : list byte) : list byte :=
  le_split 2 rop ++ le_split 2 seq ++ le_split 4 0 ++ mkbuf 16 ++ body.
Definition respond (rt : route) (rop seq : Z) (body : list byte) : KM unit :=
  _ ← kmod (fun k => put_rbuf (splice (k_rbuf k) 0 (kframe rop seq body)) k);
  kernsvc_reply rt (kframe rop seq body).

Definition knack (rt : route) (op seq : Z) : KM unit := respond rt op seq (le_split 4 0xFFFFFFFF).

(** A status word. *)
Definition status (rc : Z) : list byte := le_split 4 (u32 rc).

(** ** Requests to [registry] *)

Definition list_rec (k : K) (r : Z * Z * Z * list byte) : list byte :=
  let '(sid, uid, state, name) := r in
  le_split 4 sid ++ le_split 4 uid ++ [z2b state] ++ name ++ [z2b (sched_cap_source k sid)].

Definition svc_list (rt : route) (seq : Z) : KM unit :=
  recs ← kget (fun k => let l := sched_list k (Z.to_nat MAX_SESSIONS) in
                        le_split 4 (zlen l) ++ mjoin (map (list_rec k) l));
  respond rt 1 seq recs.

Definition cap_bits (mask : Z) : list Z := filter (fun b => Z.testbit mask b = true) (map Z.of_nat (List.seq 0 13)).
Definition cap_rec (b : Z) : list byte := le_split 4 b ++ le_split 4 (2 ^ b) ++ le_split 4 (Z.shiftr (2 ^ b) 32).

Definition svc_caps (rt : route) (seq : Z) (payload : list byte) : KM unit :=
  let sid := if 4 <=? zlen payload then Get32 payload 0 else 0xFFFFFFFF in
  mask ← kget (fun k => if negb (sid =? 0xFFFFFFFF) then sched_capmask_of k sid else 0);
  let l := cap_bits mask in
  respond rt 2 seq (le_split 4 (zlen l) ++ mjoin (map cap_rec (if negb (sid =? 0xFFFFFFFF) then l else []))).

Definition svc_kill (rt : route) (op seq : Z) (payload : list byte) : KM unit :=
  if zlen payload <? 4 then knack rt op seq
  else
    rc ← sched_kill (Get32 payload 0) (g_from_sid rt);
    respond rt 3 seq (status rc).

(** The arguments of a SPAWN request, as both passes over them walk. *)
Fixpoint spawn_args (n : nat) (rest : list byte) : list (list byte) :=
  match n with
  | O => []
  | S n => let s := cstr16 rest in s :: spawn_args n (drop (S (length s)) rest)
  end.

Definition argv_bytes (args : list (list byte)) : Z := foldr (fun s n => zlen s + 1 + n) 0 args.

(** Copies while the string fits: [k] is the offset of the last NUL written. *)
Fixpoint copy_args (k buf_sz : Z) (args : list (list byte)) : list (list byte) :=
  match args with
  | [] => []
  | s :: args => if buf_sz <? k + 1 + zlen s + 1 then [] else s :: copy_args (k + zlen s + 1) buf_sz args
  end.

(** Room a service's memory gets when it is spawned. *)
Definition grow_for (modname : list byte) (nsid : Z) : KM unit :=
  _ ← (if streq modname (bs "net") then sched_session_ensure_bytes nsid (68 * 1024 * 1024) else mret 0);
  _ ← (if streq modname (bs "fs") then sched_session_ensure_bytes nsid (128 * 1024 * 1024) else mret 0);
  _ ← (if streq modname (bs "p9") then sched_session_ensure_bytes nsid (32 * 1024 * 1024) else mret 0);
  _ ← (if streq modname (bs "shell") then sched_session_ensure_bytes nsid (16 * 1024 * 1024) else mret 0);
  _ ← (if streq modname (bs "net") then netwin_attach nsid else mret 0);
  mret tt.

(** The request once the caller is known to hold [SCHED_CAP_SPAWN]. *)
Definition svc_spawn (rt : route) (op seq : Z) (payload : list byte) : KM unit :=
  if zlen payload <? 84 then knack rt op seq
  else
    caller ← kget (fun k => sched_capmask_of k (g_from_sid rt));
    let want := Get32 payload 80 in
    if negb (Z.ldiff want caller =? 0) then
      _ ← console_puts (bs "[audit] sid=");
      _ ← console_hex64 (g_from_sid rt);
      _ ← console_puts (bs " op=SPAWN reason=cap target=registry" ++ nl);
      knack rt op seq
    else
      let modname := cstr16 (slice payload 0 16) in
      let args := if 88 <=? zlen payload
                  then spawn_args (Z.to_nat (Z.min (Get16 payload 86) 6)) (drop 88 payload) else [] in
      let modname_len := Z.min (zlen modname) 15 in
      let buf_sz := modname_len + 1 + argv_bytes args in
      store ← k_mm_alloc buf_sz 1;
      if store =? 0 then knack rt op seq
      else
        let argv := take 15 modname :: copy_args modname_len buf_sz args in
        uid ← kget (fun k => sched_uid_of k (g_from_sid rt));
        nsid ← sched_spawn_image modname uid want modname argv;
        _ ← (if 0 <? nsid then grow_for modname nsid else mret tt);
        respond rt 4 seq (status nsid).

Definition svc_login (rt : route) (op seq : Z) (payload : list byte) : KM unit :=
  login ← kget (fun k => sched_is_login k (g_from_sid rt));
  if negb login then
    _ ← console_puts (bs "[audit] sid=");
    _ ← console_hex64 (g_from_sid rt);
    _ ← console_puts (bs " op=LOGIN reason=cap target=registry" ++ nl);
    knack rt op seq
  else if zlen payload <? 24 then knack rt op seq
  else
    let tname := cstr16 (slice payload 0 16) in
    let nuid := Get32 payload 16 in
    let nmask := Get32 payload 20 in
    caller_caps ← kget (fun k => sched_capmask_of k (g_from_sid rt));
    trusted ← kget (fun k => sched_is_init k (g_from_sid rt) || sched_is_login k (g_from_sid rt));
    if negb (Z.ldiff nmask caller_caps =? 0) && negb trusted then
      _ ← kernsvc_audit (g_from_sid rt) (bs "LOGIN") (bs "cap") (bs "registry");
      knack rt op seq
    else
      tsid ← kget (fun k => sched_session_by_name k tname);
      _ ← console_puts (bs "[ksvc] LOGIN target='");
      _ ← console_puts tname;
      _ ← console_puts (bs "' tsid=");
      _ ← console_hex64 tsid;
      _ ← console_puts nl;
      if tsid <? 0 then knack rt op seq
      else
        _ ← sched_set_identity tsid nuid nmask;
        init ← kget (fun k => sched_is_init k (g_from_sid rt));
        _ ← (if (init : bool) then sched_set_capmask tsid 0 nmask 2 else mret 0);
        respond rt 5 seq (status 0).

(** The line a refused request leaves on the log. *)
Definition audit_cap (sid : Z) (op : list byte) : KM unit :=
  _ ← console_puts (bs "[audit] sid=");
  _ ← console_hex64 sid;
  _ ← console_puts (bs " op=");
  _ ← console_puts op;
  console_puts (bs " reason=cap target=registry" ++ nl).

Definition apply_conf (key : list byte) (val : Z) : KM unit :=
  if streq key (bs "quantum_us") || streq key (bs "quantum") then conf_set_quantum_us val
  else if streq key (bs "quantum_ms") then conf_set_quantum_us (u64 (val * 1000))
  else if streq key (bs "preempt") then conf_set_preempt val
  else if streq key (bs "log_level") then _ ← sched_knob_set KNOB_LOG_LEVEL val; mret tt
  else if streq key (bs "audit_mask") then _ ← sched_knob_set KNOB_AUDIT_MASK val; mret tt
  else mret tt.

Definition svc_setconf (rt : route) (op seq : Z) (payload : list byte) : KM unit :=
  cap ← kget (fun k => sched_capmask_of k (g_from_sid rt));
  if negb (has_bits cap SCHED_CAP_CONF) then
    _ ← audit_cap (g_from_sid rt) (bs "SETCONF");
    knack rt op seq
  else if zlen payload <? 24 then knack rt op seq
  else
    let cfgkey := cstr16 (slice payload 0 16) in
    let val := Get64 payload 16 in
    _ ← console_puts (bs "[conf] ");
    _ ← console_puts cfgkey;
    _ ← console_puts (bs "=");
    _ ← console_hex64 val;
    _ ← console_puts nl;
    _ ← apply_conf cfgkey val;
    respond rt 6 seq (status 0).

Definition svc_assign_pci (rt : route) (op seq : Z) (payload : list byte) : KM unit :=
  cap ← kget (fun k => sched_capmask_of k (g_from_sid rt));
  if negb (has_bits cap SCHED_CAP_DEVMAN) then
    _ ← audit_cap (g_from_sid rt) (bs "ASSIGN_PCI");
    knack rt op seq
  else if zlen payload <? 7 then knack rt op seq
  else
    rc ← vfio_assign_pci (Get32 payload 3) (b2z (idx payload 0)) (b2z (idx payload 1)) (b2z (idx payload 2))
           (g_from_sid rt);
    respond rt 7 seq (status rc).

Definition svc_sysstat (rt : route) (seq : Z) : KM unit :=
  body ← kget (fun k =>
    le_split 4 0 ++ le_split 8 (mm_total_bytes (k_heap k)) ++ le_split 8 (mm_used_bytes (k_heap k))
      ++ le_split 4 (preempt_quantum_us (k_conf k)) ++ [z2b (c_preempt_on (k_conf k))]
      ++ le_split 4 (v_ncpus (k_dev k)));
  respond rt 8 seq body.

(** Four bytes of the buffer between [begin] and the log's bytes keep what an
    earlier reply left there. *)
Definition svc_logdump (rt : route) (seq : Z) (payload : list byte) : KM unit :=
  let off := if 8 <=? zlen payload then Get64 payload 0 else 0 in
  body ← kget (fun k =>
    let '(got, total, begin) := log_read off 4000 (k_log k) in
    le_split 4 0 ++ le_split 8 total ++ le_split 8 begin ++ slice (k_rbuf k) 44 48 ++ got);
  respond rt 9 seq body.

Definition svc_chcaps (rt : route) (op seq : Z) (payload : list byte) : KM unit :=
  cap ← kget (fun k => sched_capmask_of k (g_from_sid rt));
  if negb (has_bits cap SCHED_CAP_POWER) then
    _ ← audit_cap (g_from_sid rt) (bs "CHCAPS");
    knack rt op seq
  else if zlen payload <? 12 then knack rt op seq
  else
    let tsid := Get32 payload 0 in
    let clear := Get32 payload 4 in
    let set := Get32 payload 8 in
    rc ← sched_set_capmask tsid clear set 1;
    _ ← console_puts (bs "[audit] sid=");
    _ ← console_hex64 (g_from_sid rt);
    _ ← console_puts (bs " op=CHCAPS target=");
    _ ← console_hex64 tsid;
    _ ← console_puts (bs " clear=0x");
    _ ← console_hex64 clear;
    _ ← console_puts (bs " set=0x");
    _ ← console_hex64 set;
    _ ← console_puts (bs " rc=");
    _ ← console_hex64 rc;
    _ ← console_puts nl;
    respond rt 10 seq (status rc).

Definition knob_name (idx : Z) : option (list byte) :=
  if idx =? 0 then Some (bs "quantum_us")
  else if idx =? 1 then Some (bs "log_level")
  else if idx =? 2 then Some (bs "audit_mask")
  else None.

(** Sixteen bytes are read from the literal, which is shorter. *)
Definition knob_key (idx : Z) : list byte :=
  match knob_name idx with
  | Some key => take 16 (key ++ [Byte.x00] ++ rodata_junk ++ mkbuf 16)
  | None => mkbuf 16
  end.

Definition svc_knobs_get (rt : route) (op seq : Z) (payload : list byte) : KM unit :=
  if zlen payload <? 1 then knack rt op seq
  else
    let idx := b2z (idx payload 0) in
    val ← kget (sched_knob_get idx);
    respond rt 11 seq (le_split 4 0 ++ le_split 8 val ++ knob_key idx).

Definition svc_knobs_set (rt : route) (op seq : Z) (payload : list byte) : KM unit :=
  cap ← kget (fun k => sched_capmask_of k (g_from_sid rt));
  if negb (has_bits cap SCHED_CAP_CONF) then
    _ ← kernsvc_audit (g_from_sid rt) (bs "KNOBS_SET") (bs "cap") (bs "registry");
    knack rt op seq
  else if zlen payload <? 9 then knack rt op seq
  else
    let idx := b2z (idx payload 0) in
    let val := Get64 payload 1 in
    rc ← sched_knob_set idx val;
    _ ← (if rc =? 0 then
           _ ← (if idx =? KNOB_QUANTUM_US then conf_set_quantum_us val else mret tt);
           kernsvc_audit (g_from_sid rt) (bs "KNOBS_SET") (bs "use") (bs "registry")
         else mret tt);
    respond rt 12 seq (status rc).

Definition svc_perfstat (rt : route) (seq : Z) : KM unit :=
  body ← kget (fun k =>
    le_split 4 0 ++ mjoin (map (fun i => le_split 8 (perf_get (k_perf k) (Z.of_nat i))) (List.seq 0 (Z.to_nat PERF_N))));
  respond rt 13 seq body.

(** The end of the switch: an unknown request, or SPAWN without the bit. *)
Definition svc_refuse (rt : route) (op seq : Z) : KM unit :=
  _ ← console_puts (bs "[audit] sid=");
  _ ← console_hex64 (g_from_sid rt);
  _ ← console_puts (bs " uid=");
  uid ← kget (fun k => sched_uid_of k (g_from_sid rt));
  _ ← console_hex64 uid;
  _ ← console_puts (bs " op=");
  _ ← console_hex64 op;
  _ ← console_puts (bs " reason=op target=registry" ++ nl);
  kernsvc_nack rt op seq.

Definition registry_dispatch (rt : route) (op seq : Z) (payload : list byte) : KM unit :=
  spawn ← kget (fun k => has_bits (sched_capmask_of k (g_from_sid rt)) SCHED_CAP_SPAWN);
  match op with
  | 1 => svc_list rt seq
  | 2 => svc_caps rt seq payload
  | 3 => svc_kill rt op seq payload
  | 4 => if (spawn : bool) then svc_spawn rt op seq payload else svc_refuse rt op seq
  | 5 => svc_login rt op seq payload
  | 6 => svc_setconf rt op seq payload
  | 7 => svc_assign_pci rt op seq payload
  | 8 => svc_sysstat rt seq
  | 9 => svc_logdump rt seq payload
  | 10 => svc_chcaps rt op seq payload
  | 11 => svc_knobs_get rt op seq payload
  | 12 => svc_knobs_set rt op seq payload
  | 13 => svc_perfstat rt seq
  | _ => svc_refuse rt op seq
  end.

(** ** [devman] and [power] *)

Definition dev_rec (cls inst win : Z) : list byte := le_split 4 cls ++ le_split 4 inst ++ le_split 4 win ++ le_split 4 0.

Definition pci_rec (d : pci_info) : list byte :=
  dev_rec 10 (Z.lor (Z.lor (Z.shiftl (d_bus d) 16) (Z.shiftl (d_dev d) 8)) (d_fn d))
    (Z.lor (Z.shiftl (d_vendor d) 16) (d_device d)).

Definition dev_recs (k : K) (from_sid : Z) : list (list byte) :=
  let base := dev_rec 5 0 0xF000
    :: (if streq (sched_name_of k from_sid) (bs "net") && v_ws_attached (k_dev k)
        then [dev_rec 2 0 0x4000000; dev_rec 2 1 (0x4000000 + 393224)] else []) in
  base ++ map pci_rec (take (16 - length base) (vfio_enumerate 16)).

Definition devman_dispatch (rt : route) (op seq : Z) : KM unit :=
  cap ← kget (fun k => sched_capmask_of k (g_from_sid rt));
  if negb (has_bits cap SCHED_CAP_DEVMAN) then
    _ ← console_puts (bs "[audit] sid=");
    _ ← console_hex64 (g_from_sid rt);
    _ ← console_puts (bs " op=ENUM reason=cap target=devman" ++ nl);
    kernsvc_nack rt op seq
  else if op =? 1 then
    recs ← kget (fun k => dev_recs k (g_from_sid rt));
    respond rt 1 seq (le_split 4 (zlen recs) ++ mjoin recs)
  else
    _ ← console_puts (bs "[audit] sid=");
    _ ← console_hex64 (g_from_sid rt);
    _ ← console_puts (bs " op=? reason=op target=devman" ++ nl);
    kernsvc_nack rt op seq.

(** [cpu_halt] does not return. *)
Definition power_dispatch (rt : route) (op seq : Z) : KM unit :=
  cap ← kget (fun k => sched_capmask_of k (g_from_sid rt));
  if negb (has_bits cap SCHED_CAP_POWER) then
    _ ← console_puts (bs "[audit] sid=");
    _ ← console_hex64 (g_from_sid rt);
    _ ← console_puts (bs " op=");
    _ ← console_hex64 op;
    _ ← console_puts (bs " reason=cap target=power" ++ nl);
    kernsvc_nack rt op seq
  else if (op =? 1) || (op =? 2) then
    _ ← console_puts (bs "[power] ");
    _ ← console_puts (if op =? 1 then bs "reboot" else bs "off");
    _ ← console_puts (bs " requested; halting (no ACPI in v1)" ++ nl);
    _ ← respond rt op seq (status 0);
    kmod (put_halted true)
  else kernsvc_nack rt op seq.

(** ** Dispatch *)

Definition is_routine_poll (op : Z) : bool := (op =? 1) || (op =? 8) || (op =? 9).

Definition kernsvc_dispatch (epname : list byte) (from_sid reply_h : Z) (data : list byte) : KM unit :=
  if zlen data <? 24 then mret tt
  else
    let op := Get16 data 0 in
    let seq := Get16 data 2 in
    let rt := mkRoute (slice data 8 24) from_sid reply_h in
    let payload := drop 24 data in
    _ ← (if is_routine_poll op then mret tt
         else
           _ ← console_puts (bs "[ksvc] ep=");
           _ ← console_puts (cstr16 epname);
           _ ← console_puts (bs " op=");
           _ ← console_hex64 op;
           _ ← console_puts (bs " rname=");
           _ ← console_puts (cstr16 (g_rname rt));
           console_puts nl);
    if streq epname (bs "registry") then registry_dispatch rt op seq payload
    else if streq epname (bs "devman") then devman_dispatch rt op seq
    else if streq epname (bs "power") then power_dispatch rt op seq
    else mret tt.

End platform.
