(* ===== verification/KernCalls.v ===== *)
(** * KernCalls: what a session can ask of the kernel

    [port_send] of [core/ports.cc], focus and input of [core/input.cc], and
    the kernel imports of [core/engine.cc] that reach them, with the
    capability checks the imports make.  The imports find names and data in
    guest memory and trap outside it; here a call carries the bytes.  [exec] is
    one call of the session that runs; [kstep] interleaves the calls of the
    sessions with the passes of the scheduler, timer ticks and console input,
    and is how the theorems about all histories of the kernel range over them. *)

From S2P Require Import Prelude Frame KernHeap KernState KernPorts KernSched KernSvc.

Section platform.
Context {P : Platform}.

(** ** Sending *)

(** The sender's uid over bytes 4 to 7 of a message that has them. *)
Definition stamp (uid : Z) (data : list byte) : list byte :=
  if 8 <=? zlen data then splice data 4 (le_split 4 uid) else data.

Definition port_send (sid h : Z) (data : list byte) : KM Z :=
  p ← kget (fun k => port_of k sid h ≫= fun g => (fun p => (g, p)) <$> port_at k g);
  match p with
  | None => mret (-1)
  | Some (g, p) =>
      if (zlen data =? 0) || (MSG_MAX <? zlen data) then mret (-1)
      else
        uid ← kget (fun k => sched_uid_of k sid);
        if p_kernel_endpoint p && negb (sid =? 0) then
          _ ← kernsvc_dispatch (p_name p) sid h (stamp uid data);
          _ ← count_send (zlen data);
          mret 0
        else
          taken ← fsroute_intercept (p_name p) data;
          if (taken : bool) then
            _ ← count_send (zlen data);
            mret 0
          else enqueue g sid (if negb (sid =? 0) then stamp uid data else data)
  end.

(** ** Input focus *)

Definition klog (m : list byte) : KM unit := _ ← ports_enqueue_by_name (bs "console") m; mret tt.

Definition QLEN : Z := 256.

Definition set_inq (q : list inrec) (d : Dev) : Dev :=
  mkDev (v_assigns d) (v_vn_ready d) (v_ws_attached d) (v_ws_sid d) (v_focus_sid d) q (v_ncpus d).
Definition set_focus (sid : Z) (d : Dev) : Dev :=
  mkDev (v_assigns d) (v_vn_ready d) (v_ws_attached d) (v_ws_sid d) sid (v_inq d) (v_ncpus d).
Definition upd_dev (f : Dev -> Dev) (k : K) : K := put_dev (f (k_dev k)) k.

(** The input ring is kept as the records it holds, oldest first. *)
Definition push_byte (b : byte) : KM unit := kmod (upd_dev (fun d =>
  if QLEN <=? zlen (v_inq d) then d
  else set_inq (v_inq d ++ [mkInrec 1 0 (if decide (b = Byte.x0d) then 10 else b2z b)]) d)).

Definition in_bytes (r : inrec) : list byte := [z2b (in_kind r); z2b (in_mods r)] ++ le_split 2 (in_cp r).

Definition input_recv (sid cap : Z) : KM (Z * list byte) :=
  d ← kget k_dev;
  if cap <? 4 then mret (0, [])
  else if negb (sid =? v_focus_sid d) then mret (0, [])
  else
    let n := Z.to_nat (cap / 4) in
    let recs := take n (v_inq d) in
    _ ← kmod (upd_dev (set_inq (drop n (v_inq d))));
    mret (4 * zlen recs, mjoin (map in_bytes recs)).

Definition input_focus_set (caller_sid h : Z) : KM Z :=
  cap ← kget (fun k => sched_capmask_of k caller_sid);
  if negb (has_bits cap SCHED_CAP_FOCUS) then
    _ ← klog (bs "[input] set: no FOCUS cap");
    mret (-1)
  else
    owner ← kget (fun k => ports_owner_of_handle k caller_sid h);
    if owner <=? 0 then mret (-1)
    else if negb (owner =? caller_sid) then
      _ ← klog (bs "[input] set: owner != caller (focus-steal blocked)");
      mret (-1)
    else
      _ ← kmod (upd_dev (set_focus owner));
      name ← kget (fun k => cstr16 (sched_name_of k owner));
      _ ← klog (take 63 (bs "[input] focus -> '" ++ name ++ bs "'"));
      mret 0.

(** ** Imports *)

Definition owned_cap (sid bit : Z) (operation : list byte) : KM bool :=
  cap ← kget (fun k => sched_capmask_of k sid);
  if has_bits cap bit then mret true
  else
    _ ← kernsvc_audit sid operation (bs "cap") (bs "kernel");
    mret false.

Definition owned_port_bind (sid : Z) (name : list byte) : KM Z :=
  ok ← (if is_well_known_name name then owned_cap sid SCHED_CAP_PORTBIND (bs "PORT_BIND") else mret true);
  if (ok : bool) then port_bind sid name else mret (-1).

Definition owned_input_recv (sid cap : Z) : KM (Z * list byte) :=
  ok ← owned_cap sid SCHED_CAP_FOCUS (bs "FOCUS_RECV");
  if (ok : bool) then input_recv sid cap else mret (0, []).

Definition owned_focus_set (sid h : Z) : KM Z :=
  ok ← owned_cap sid SCHED_CAP_FOCUS (bs "FOCUS_SET");
  if (ok : bool) then input_focus_set sid h else mret (-1).

(** ** Histories *)

Inductive call :=
  | PortCreate (name : list byte)
  | PortBind (name : list byte)
  | PortSend (h : Z) (data : list byte)
  | PortRecv (h cap : Z)
  | InputRecv (cap : Z)
  | FocusSet (h : Z)
  | UartWrite (data : list byte).

(** The call's result and the bytes it hands back. *)
Definition exec (sid : Z) (c : call) : KM (Z * list byte) :=
  match c with
  | PortCreate name => r ← port_create sid name; mret (r, [])
  | PortBind name => r ← owned_port_bind sid name; mret (r, [])
  | PortSend h data => r ← port_send sid h data; mret (r, [])
  | PortRecv h cap => port_recv sid h cap
  | InputRecv cap => owned_input_recv sid cap
  | FocusSet h => r ← owned_focus_set sid h; mret (r, [])
  | UartWrite data => _ ← console_puts data; mret (zlen data, [])
  end.

(** The kernel and whether the session [k_cur] is on the processor. *)
Inductive kstep : K * bool -> K * bool -> Prop :=
  | ks_call k sid c : k_halted k = false -> k_cur k = Some sid -> kstep (k, true) ((exec sid c k).2, true)
  | ks_yield k : k_halted k = false -> kstep (k, true) ((sched_yield_current k).2, false)
  | ks_exit k sid r : k_halted k = false -> k_cur k = Some sid -> kstep (k, true) ((sched_session_main sid r k).2, false)
  | ks_pick k : k_halted k = false ->
      kstep (k, false) ((sched_pick k).2, match (sched_pick k).1 with Some _ => true | None => false end)
  | ks_tick k b sid : kstep (k, b) ((preempt_mark_pending sid k).2, b)
  | ks_key k b c : kstep (k, b) ((push_byte c k).2, b).

End platform.
