(* ===== verification/KernFsImport.v ===== *)
(** * KernFsImport: file calls routed through the kernel ([core/fsimport.cc])

    A session's [path_open], [mkdir], [fd_read] and [fd_write] become
    datagrams to the port [fs]; the call waits for the reply through
    [KernRoute].  The request and reply buffers and the sequence counters are
    the session's; the table of open files is the kernel's.  [yield] and
    [spins] are those of [fsroute_wait_budget], and while a call waits the
    session stays the current one. *)

From S2P Require Import Prelude Frame KernHeap KernState KernPorts KernSched.

Section routed.
Context (yield : nat -> K -> K) (spins : nat).

Definition FSOP_STAT : Z := 1.
Definition FSOP_READ : Z := 3.
Definition FSOP_WRITE : Z := 4.
Definition FSOP_CREATE : Z := 5.
Definition FSOP_MKDIR : Z := 6.

Definition FSIMPORT_ESUCCESS : Z := 0.
Definition FSIMPORT_EACCES : Z := 2.
Definition FSIMPORT_EEXIST : Z := 20.
Definition FSIMPORT_EBADF : Z := 8.
Definition FSIMPORT_EINVAL : Z := 28.
Definition FSIMPORT_EIO : Z := 29.
Definition FSIMPORT_EISDIR : Z := 31.
Definition FSIMPORT_ENAMETOOLONG : Z := 37.
Definition FSIMPORT_ENOENT : Z := 44.
Definition FSIMPORT_ENOSPC : Z := 51.
Definition FSIMPORT_ENOSYS : Z := 52.
Definition FSIMPORT_ENOTDIR : Z := 54.
Definition FSIMPORT_ENOTEMPTY : Z := 55.

Definition FSIMPORT_PREOPEN_FD : Z := 3.
Definition FSIMPORT_FD_PREOPEN_ROOT : Z := 0x7FFFFFFE.
Definition FSIMPORT_PATH_MAX : Z := 192.
Definition FSIMPORT_MAX_IO : Z := 8192.
Definition SCHED_FSREQ_MAX : Z := 16384.
Definition SCHED_FSRESP_MAX : Z := 8192.

Definition fsimport_errno_for_status (st : Z) : Z :=
  if st =? 0 then FSIMPORT_ESUCCESS
  else if st =? -2 then FSIMPORT_ENOENT
  else if st =? -3 then FSIMPORT_EEXIST
  else if st =? -4 then FSIMPORT_ENOTDIR
  else if st =? -5 then FSIMPORT_EISDIR
  else if st =? -6 then FSIMPORT_ENOSPC
  else if (st =? -7) || (st =? -9) then FSIMPORT_EINVAL
  else if st =? -8 then FSIMPORT_ENOTEMPTY
  else if st =? -10 then FSIMPORT_EACCES
  else FSIMPORT_EIO.

(** ** The current session's buffers *)

Definition wctx (k : K) : option wasi := k_cur k ≫= fun sid => s_wctx <$> sess k sid.
Definition upd_wctx (f : wasi -> wasi) (k : K) : K :=
  match k_cur k with
  | Some sid => upd_sess sid (fun x => set_wctx (f (s_wctx x)) x) k
  | None => k
  end.

Definition set_fds (fds : list Z) (w : wasi) : wasi :=
  mkWasi (w_argv w) (w_exited w) (w_exit_code w) fds (w_fsreq w) (w_fsresp w) (w_fs_seq_ctr w) (w_fs_rt_seq w).
Definition set_fsreq (b : list byte) (w : wasi) : wasi :=
  mkWasi (w_argv w) (w_exited w) (w_exit_code w) (w_fds w) b (w_fsresp w) (w_fs_seq_ctr w) (w_fs_rt_seq w).
Definition set_fsresp (b : list byte) (w : wasi) : wasi :=
  mkWasi (w_argv w) (w_exited w) (w_exit_code w) (w_fds w) (w_fsreq w) b (w_fs_seq_ctr w) (w_fs_rt_seq w).
Definition set_seq_ctr (n : Z) (w : wasi) : wasi :=
  mkWasi (w_argv w) (w_exited w) (w_exit_code w) (w_fds w) (w_fsreq w) (w_fsresp w) n (w_fs_rt_seq w).
Definition set_rt_seq (n : Z) (w : wasi) : wasi :=
  mkWasi (w_argv w) (w_exited w) (w_exit_code w) (w_fds w) (w_fsreq w) (w_fsresp w) (w_fs_seq_ctr w) n.

(** ** Open files *)

Definition fd_ok (sid fd : Z) : bool := (sid <? MAX_SESSIONS) && (FSIMPORT_PREOPEN_FD <=? fd) && (fd <? SCHED_MAX_FDS).

Definition rfd_of (k : K) (fd : Z) : option rfd :=
  let sid := sched_current_sid k in
  if fd_ok sid fd then
    match k_fdtab k !! Z.to_nat sid ≫= fun row => row !! Z.to_nat fd with
    | Some e => if r_used e then Some e else None
    | None => None
    end
  else None.

Definition set_rfd (sid fd : Z) (e : rfd) (k : K) : K :=
  put_fdtab (alter (fun row => <[Z.to_nat fd := e]> row) (Z.to_nat sid) (k_fdtab k)) k.

Definition rfd_clear (sid fd : Z) (k : K) : K := if fd_ok sid fd then set_rfd sid fd (mkRfd false 0 []) k else k.

(** ** Requests and replies *)

(** The 26 bytes in front of the path. *)
Definition req_head (op seq uid : Z) (rname : list byte) (plen : Z) : list byte :=
  le_split 2 op ++ le_split 2 seq ++ le_split 4 uid ++ take 16 (strn 15 rname ++ mkbuf 16) ++ le_split 2 plen.

(** Builds the request in the session's buffer; its length, 0 when it does
    not fit. *)
Definition mk_req (op : Z) (path payload : list byte) : KM Z :=
  w ← kget wctx;
  match w with
  | None => mret 0
  | Some w =>
      let sq := u16 (w_fs_seq_ctr w + 1) in
      _ ← kmod (upd_wctx (set_seq_ctr sq));
      uid ← kget (fun k => sched_uid_of k (sched_current_sid k));
      rn ← kget (fun k => sched_name_of k (sched_current_sid k));
      let head := req_head op sq uid rn (zlen path) in
      _ ← kmod (upd_wctx (fun w => set_fsreq (splice (w_fsreq w) 0 head) w));
      if SCHED_FSREQ_MAX <? zlen path + zlen payload + 26 then
        _ ← console_puts (bs "[wasi] mk_req: frame too large" ++ nl);
        mret 0
      else
        _ ← kmod (upd_wctx (fun w => set_fsreq (splice (w_fsreq w) 26 (path ++ payload)) w));
        mret (26 + zlen path + zlen payload)
  end.

Definition k_fsroute_wait (seq cap : Z) : KM (option (list byte)) := fsroute_wait_budget yield seq cap spins.

(** The reply's length, or -1. *)
Definition fs_roundtrip (reqlen : Z) : KM Z :=
  w ← kget wctx;
  match w with
  | None => mret (-1)
  | Some w =>
      let sq := u16 (w_fs_rt_seq w + 1) in
      _ ← kmod (upd_wctx (fun w => set_fsresp (mkbuf SCHED_FSRESP_MAX)
              (set_fsreq (splice (w_fsreq w) 2 (le_split 2 sq)) (set_rt_seq sq w))));
      name ← kget (fun k => sched_name_of k (sched_current_sid k));
      rc ← fsroute_expect sq name;
      if negb (rc =? 0) then mret (-1)
      else
        req ← kget (fun k => take (Z.to_nat reqlen) (default [] (w_fsreq <$> wctx k)));
        ok ← ports_enqueue_by_name (bs "fs") req;
        if negb ok then mret (-1)
        else
          resp ← k_fsroute_wait sq SCHED_FSRESP_MAX;
          match resp with
          | None => mret (-1)
          | Some b =>
              _ ← kmod (upd_wctx (fun w => set_fsresp (splice (w_fsresp w) 0 b) w));
              mret (zlen b)
          end
  end.

Definition rep_status (k : K) : Z :=
  match wctx k with Some w => i32 (Get32 (w_fsresp w) 24) | None => -1 end.
Definition rep_body (k : K) : list byte := drop 28 (default [] (w_fsresp <$> wctx k)).
Definition rep_body_len (r : Z) : Z := if 28 <? r then r - 28 else 0.

(** ** Calls *)

Definition fd_at (w : wasi) (fd : Z) : Z := default SCHED_FD_EMPTY (w_fds w !! Z.to_nat fd).

Definition fsimport_alloc_fd : KM Z :=
  w ← kget wctx;
  match w with
  | None => mret (-1)
  | Some w =>
      let fds := if fd_at w FSIMPORT_PREOPEN_FD =? SCHED_FD_EMPTY
                 then <[Z.to_nat FSIMPORT_PREOPEN_FD := FSIMPORT_FD_PREOPEN_ROOT]> (w_fds w) else w_fds w in
      _ ← kmod (upd_wctx (set_fds fds));
      match findi (fun v => v =? SCHED_FD_EMPTY) (drop 4 (take (Z.to_nat SCHED_MAX_FDS) fds)) with
      | Some i =>
          _ ← kmod (upd_wctx (set_fds (<[(4 + i)%nat := 0x7FFFFFFF]> fds)));
          mret (Z.of_nat (4 + i))
      | None => mret (-1)
      end
  end.

Definition fsimport_fd_is_open (fd : Z) (k : K) : Z :=
  match wctx k with
  | None => 0
  | Some w =>
      if (fd <? FSIMPORT_PREOPEN_FD) || (SCHED_MAX_FDS <=? fd) || (fd_at w fd =? SCHED_FD_EMPTY) then 0
      else if rfd_of k fd then 1 else 0
  end.

Definition fsimport_release_fd (fd : Z) : KM unit :=
  w ← kget wctx;
  match w with
  | None => mret tt
  | Some w =>
      if (fd <? FSIMPORT_PREOPEN_FD) || (SCHED_MAX_FDS <=? fd) then mret tt
      else
        _ ← kmod (fun k => rfd_clear (sched_current_sid k) fd k);
        kmod (upd_wctx (fun w => set_fds (<[Z.to_nat fd := SCHED_FD_EMPTY]> (w_fds w)) w))
  end.

(** The path and the errno. *)
Definition fsimport_rebase_path (path : list byte) (capacity dirfd : Z) : list byte * Z :=
  if bool_decide (idx path 0 = Byte.x2f) || bool_decide (cstr16 path = []) || negb (dirfd =? FSIMPORT_PREOPEN_FD)
  then (path, FSIMPORT_ESUCCESS)
  else if capacity <? zlen (cstr16 path) + 2 then (path, FSIMPORT_ENAMETOOLONG)
  else (Byte.x2f :: path, FSIMPORT_ESUCCESS).

(** The errno and [*out_fd]; [path] is the C string's characters. *)
Definition fsimport_path_open (path : list byte) (oflags : Z) : KM (Z * option Z) :=
  fd ← fsimport_alloc_fd;
  if fd <? 0 then mret (FSIMPORT_EBADF, None)
  else
    made ← (if Z.testbit oflags 0 then
              rl ← mk_req FSOP_CREATE path [];
              r ← fs_roundtrip rl;
              if r <? 28 then mret (if r <? 0 then FSIMPORT_ENOSYS else FSIMPORT_EIO)
              else st ← kget rep_status; mret (if st =? 0 then 0 else fsimport_errno_for_status st)
            else mret 0);
    if negb (made =? 0) then
      _ ← fsimport_release_fd fd;
      mret (made, None)
    else
      rl ← mk_req FSOP_STAT path [];
      r ← fs_roundtrip rl;
      st ← kget rep_status;
      if (r <? 28) || negb (st =? 0) then
        _ ← fsimport_release_fd fd;
        mret (fsimport_errno_for_status (if r <? 28 then -1 else st), None)
      else
        sid ← kget sched_current_sid;
        if MAX_SESSIONS <=? sid then
          _ ← fsimport_release_fd fd;
          mret (FSIMPORT_ENOSYS, None)
        else
          _ ← kmod (set_rfd sid fd (mkRfd true 0 path));
          mret (FSIMPORT_ESUCCESS, Some fd).

Definition fsimport_mkdir (path : list byte) : KM Z :=
  rl ← mk_req FSOP_MKDIR path [];
  r ← fs_roundtrip rl;
  if r <? 28 then mret FSIMPORT_ENOSYS
  else st ← kget rep_status; mret (fsimport_errno_for_status st).

(** Advance the cursor of an open file. *)
Definition advance (fd n : Z) : KM unit := kmod (fun k =>
  match rfd_of k fd with
  | Some e => set_rfd (sched_current_sid k) fd (mkRfd true (u64 (r_off e + n)) (r_path e)) k
  | None => k
  end).

(** [Some data] writes [data]; [None] reads [len] bytes.  The errno, [*done]
    and the bytes read. *)
Definition routed_rw (fd : Z) (data : option (list byte)) (len : Z) : KM (Z * Z * list byte) :=
  w ← kget wctx;
  e ← kget (fun k => rfd_of k fd);
  let closed := match w with
                | None => true
                | Some w => (fd <? FSIMPORT_PREOPEN_FD) || (SCHED_MAX_FDS <=? fd) || (fd_at w fd =? SCHED_FD_EMPTY)
                end in
  match (if closed then None else e) with
  | None => mret (FSIMPORT_EBADF, 0, [])
  | Some e =>
      let len := if FSIMPORT_MAX_IO <? len then FSIMPORT_MAX_IO else len in
      let pay := le_split 8 (r_off e) ++ le_split 2 len
                   ++ match data with Some b => take (Z.to_nat len) b | None => [] end in
      rl ← mk_req (match data with Some _ => FSOP_WRITE | None => FSOP_READ end) (r_path e) pay;
      r ← fs_roundtrip rl;
      if r <? 28 then mret (FSIMPORT_ENOSYS, 0, [])
      else
        st ← kget rep_status;
        if negb (st =? 0) then mret (fsimport_errno_for_status st, 0, [])
        else
          body ← kget rep_body;
          let blen := rep_body_len r in
          match data with
          | Some _ =>
              _ ← (if 4 <=? blen then advance fd len else mret tt);
              mret (FSIMPORT_ESUCCESS, len, [])
          | None =>
              if blen <? 2 then mret (FSIMPORT_EIO, 0, [])
              else
                let cp := Z.min (Z.min (Get16 body 0) len) (blen - 2) in
                _ ← advance fd cp;
                mret (FSIMPORT_ESUCCESS, cp, slice body 2 (2 + cp))
          end
  end.

Definition fsimport_read (fd len : Z) : KM (Z * Z * list byte) := routed_rw fd None len.
Definition fsimport_write (fd : Z) (buf : list byte) : KM (Z * Z * list byte) := routed_rw fd (Some buf) (zlen buf).

End routed.
