(* ===== verification/KernFacts.v ===== *)
(** * KernFacts: lemmas about the kernel's operations

    What each operation leaves alone ([keeps] and the tactic [keeps]), names
    as C strings, rings as queues of messages, and the small facts about
    handles and sessions that the theorems of [KernTheorems] share. *)

From S2P Require Import Prelude Frame KernHeap KernState KernPorts KernSched KernSvc KernCalls.

(** ** What an operation leaves alone *)

Definition keeps {A B} (f : K -> B) (m : KM A) : Prop := forall k, f (m k).2 = f k.

Lemma keeps_ret {A B} (f : K -> B) (a : A) : keeps f (mret a).
Proof. done. Qed.
Lemma keeps_bind {A B C} (f : K -> C) (m : KM A) (g : A -> KM B) :
  keeps f m -> (forall a, keeps f (g a)) -> keeps f (m ≫= g).
Proof. intros Hm Hg k. rewrite kbind. by rewrite Hg, Hm. Qed.
Lemma keeps_kget {A B} (f : K -> B) (g : K -> A) : keeps f (kget g).
Proof. done. Qed.
Lemma keeps_kmod {B} (f : K -> B) g : (forall k, f (g k) = f k) -> keeps f (kmod g).
Proof. done. Qed.
Lemma keeps_if {A B} (f : K -> B) (b : bool) (m n : KM A) : keeps f m -> keeps f n -> keeps f (if b then m else n).
Proof. by destruct b. Qed.

Create HintDb keeps discriminated.
#[export] Hint Constants Opaque : keeps.
#[export] Hint Resolve keeps_ret keeps_kget : keeps.

(** Walks through binds and branches; what is left are the operations it has
    no lemma for. *)
Ltac keeps :=
  repeat lazymatch goal with
    | |- keeps _ (mbind _ _) => apply keeps_bind; [|intros ?]
    | |- keeps _ (kmod _) => apply keeps_kmod; intros ?; reflexivity
    | |- keeps _ (if _ then _ else _) => apply keeps_if
    | |- keeps _ (match _ with _ => _ end) => case_match
    | |- keeps _ _ => solve [auto with keeps nocore]
    end.

Lemma keeps_puts {B} (f : K -> B) s : (forall k l, f (put_log l k) = f k) -> keeps f (console_puts s).
Proof. intros Hf k. apply Hf. Qed.
Lemma keeps_hex {B} (f : K -> B) v : (forall k l, f (put_log l k) = f k) -> keeps f (console_hex64 v).
Proof. intros Hf k. apply Hf. Qed.

(** Everything but the log. *)
Definition sans_log (k : K) : K := put_log (mkLog [] 0) k.

Lemma keeps_sans_log {A B} (f : K -> B) (m : KM A) :
  (forall k, f (sans_log k) = f k) -> keeps sans_log m -> keeps f m.
Proof. intros Hf Hm k. rewrite <-Hf, (Hm k). apply Hf. Qed.

#[export] Hint Extern 1 (keeps _ (console_puts _)) => apply keeps_puts; reflexivity : keeps.
#[export] Hint Extern 1 (keeps _ (console_hex64 _)) => apply keeps_hex; reflexivity : keeps.

Lemma keeps_audit {B} (f : K -> B) a b c : (forall k l, f (put_log l k) = f k) -> keeps f (audit a b c).
Proof. intros. unfold audit. keeps; by (apply keeps_puts || apply keeps_hex). Qed.
Lemma keeps_kaudit {B} (f : K -> B) s a b c : (forall k l, f (put_log l k) = f k) -> keeps f (kernsvc_audit s a b c).
Proof. intros. unfold kernsvc_audit. keeps; by (apply keeps_puts || apply keeps_hex). Qed.
Lemma keeps_audit_cap {B} (f : K -> B) s a : (forall k l, f (put_log l k) = f k) -> keeps f (audit_cap s a).
Proof. intros. unfold audit_cap. keeps; by (apply keeps_puts || apply keeps_hex). Qed.
#[export] Hint Extern 1 (keeps _ (audit _ _ _)) => apply keeps_audit; reflexivity : keeps.
#[export] Hint Extern 1 (keeps _ (kernsvc_audit _ _ _ _)) => apply keeps_kaudit; reflexivity : keeps.
#[export] Hint Extern 1 (keeps _ (audit_cap _ _)) => apply keeps_audit_cap; reflexivity : keeps.

(** Sessions, handles and settings: what sending a message, replying and
    logging never change. *)
Definition core (k : K) : list session * list (list Z) * option Z * list image * Z * Conf * Dev * bool :=
  (k_sessions k, k_htab k, k_cur k, k_images k, k_next_rr k, k_conf k, k_dev k, k_halted k).

Lemma keeps_core {A B} (f : K -> B) (m : KM A) :
  keeps core m -> (forall k k', core k' = core k -> f k' = f k) -> keeps f m.
Proof. intros Hm Hf k. apply Hf, Hm. Qed.

Lemma perf_inc_core i n : keeps core (perf_inc i n).
Proof. unfold perf_inc. keeps. Qed.
Lemma malloc_core n : keeps core (k_rt_malloc n).
Proof. intros k. unfold k_rt_malloc. by destruct (rt_malloc n (k_heap k)). Qed.
Lemma free_core p : keeps core (k_rt_free p).
Proof. unfold k_rt_free. keeps. Qed.
#[export] Hint Resolve perf_inc_core malloc_core free_core : keeps.

Lemma count_send_core n : keeps core (count_send n).
Proof. unfold count_send. keeps. Qed.
#[export] Hint Resolve count_send_core : keeps.

Lemma enqueue_core g s d : keeps core (enqueue g s d).
Proof. unfold enqueue. keeps. Qed.
Lemma intercept_core n d : keeps core (fsroute_intercept n d).
Proof. intros k. unfold fsroute_intercept. by repeat case_match. Qed.
#[export] Hint Resolve enqueue_core intercept_core : keeps.

Lemma enqueue_by_name_core n d : keeps core (ports_enqueue_by_name n d).
Proof. unfold ports_enqueue_by_name. keeps. Qed.
Lemma kernel_enqueue_core s h d : keeps core (ports_kernel_enqueue s h d).
Proof. unfold ports_kernel_enqueue. keeps. Qed.
#[export] Hint Resolve enqueue_by_name_core kernel_enqueue_core : keeps.

Lemma drain_core s : keeps core (ports_drain_session s).
Proof. unfold ports_drain_session. keeps. Qed.
#[export] Hint Resolve drain_core : keeps.

Section platform.
Context {P : Platform}.

Lemma reply_core rt d : keeps core (kernsvc_reply rt d).
Proof. unfold kernsvc_reply. keeps. Qed.
Lemma respond_core rt o s b : keeps core (respond rt o s b).
Proof. unfold respond. apply keeps_bind; [keeps|intros _; apply reply_core]. Qed.
Lemma knack_core rt o s : keeps core (knack rt o s).
Proof. apply respond_core. Qed.
Lemma nack_core rt o s : keeps core (kernsvc_nack rt o s).
Proof. apply reply_core. Qed.

End platform.
#[export] Hint Resolve reply_core respond_core knack_core nack_core : keeps.

(** ** Names *)

Lemma name_eq_spec a b : name_eq a b = true <-> a = cstr16 b.
Proof.
  revert b. induction a as [|x a IH]; intros [|c b]; cbn [name_eq cstr16]; try done.
  - case_decide; [|split; [intros ?%bool_decide_eq_true|]; congruence].
    rewrite bool_decide_true by done. done.
  - case_decide; [done|]. destruct (decide (x = c)) as [->|]; [|split; congruence].
    rewrite IH. split; [by intros ->|congruence].
Qed.

Lemma streq_spec a b : streq a b = true <-> cstr16 a = cstr16 b.
Proof. unfold streq. by rewrite bool_decide_eq_true. Qed.

Lemma cstr16_no_nul a : Byte.x00 ∉ cstr16 a.
Proof.
  induction a as [|c a IH]; cbn; [apply not_elem_of_nil|]. case_decide; [apply not_elem_of_nil|].
  rewrite not_elem_of_cons. by split.
Qed.

Lemma cstr16_idem a : cstr16 (cstr16 a) = cstr16 a.
Proof. apply cstr16_id, cstr16_no_nul. Qed.

(** ** Rings *)

(** The ring of [p] holds [q], oldest first, and nothing else. *)
Record ring_view (p : port) (q : list msg) : Prop := {
  rv_qn : p_qn p = zlen q;
  rv_max : zlen q <= MAX_Q;
  rv_qh : 0 <= p_qh p < MAX_Q;
  rv_qt : p_qt p = (p_qh p + zlen q) mod MAX_Q;
  rv_len : length (p_ring p) = Z.to_nat MAX_Q;
  rv_slot : forall i, 0 <= i < MAX_Q -> p_ring p !! Z.to_nat ((p_qh p + i) mod MAX_Q) = Some (q !! Z.to_nat i)
}.

Lemma ring_put_view p q m : ring_view p q -> zlen q < MAX_Q -> ring_view (ring_put m p) (q ++ [m]).
Proof.
  intros [Hn _ Hh Ht Hl Hs] Hlt. unfold MAX_Q in *. pose proof (zlen_nonneg q).
  split; cbn [ring_put p_qn p_qh p_qt p_ring]; unfold MAX_Q;
    rewrite ?zlen_app, ?zlen_cons, ?zlen_nil, ?length_insert; try done; try lia.
  - rewrite Hn, u32_small by lia. lia.
  - rewrite Ht. rewrite Zplus_mod_idemp_l. f_equal. lia.
  - intros i Hi. rewrite Ht. destruct (decide (i = zlen q)) as [->|Hne].
    + pose proof (Z.mod_pos_bound (p_qh p + zlen q) 32).
      rewrite list_lookup_insert_eq by lia. f_equal. unfold zlen. rewrite Nat2Z.id.
      by rewrite lookup_app_r, Nat.sub_diag by lia.
    + rewrite list_lookup_insert_ne.
      * rewrite Hs by done. f_equal. unfold zlen in *. destruct (decide (i < Z.of_nat (length q))).
        -- by rewrite lookup_app_l by lia.
        -- rewrite !lookup_ge_None_2 by (rewrite ?length_app; cbn; lia). done.
      * intros E. apply Hne. apply Z2Nat.inj in E; [|apply Z.mod_pos_bound; lia..].
        pose proof (Z.div_mod (p_qh p + zlen q) 32). pose proof (Z.div_mod (p_qh p + i) 32).
        pose proof (Z.mod_pos_bound (p_qh p + zlen q) 32). lia.
Qed.

Lemma ring_head_view p m q : ring_view p (m :: q) -> ring_head p = Some m.
Proof.
  intros [_ _ Hh _ _ Hs]. unfold ring_head. specialize (Hs 0 ltac:(unfold MAX_Q; lia)).
  rewrite Z.add_0_r, Z.mod_small in Hs by done. by rewrite Hs.
Qed.

Lemma ring_take_view p m q : ring_view p (m :: q) -> ring_view (ring_take p) q.
Proof.
  intros [Hn Hm Hh Ht Hl Hs]. rewrite zlen_cons in *. unfold MAX_Q in *. pose proof (zlen_nonneg q).
  split; cbn [ring_take p_qn p_qh p_qt p_ring]; unfold MAX_Q; rewrite ?length_insert; try done; try lia.
  - rewrite Hn, u32_small by lia. lia.
  - apply Z.mod_pos_bound. lia.
  - rewrite Ht, Zplus_mod_idemp_l. f_equal. lia.
  - intros i Hi. rewrite Zplus_mod_idemp_l. replace (p_qh p + 1 + i) with (p_qh p + (i + 1)) by lia.
    destruct (decide (i = 31)) as [->|].
    + replace (p_qh p + (31 + 1)) with (p_qh p + 1 * 32) by lia. rewrite Z.mod_add, Z.mod_small by lia.
      rewrite list_lookup_insert_eq by lia. f_equal. unfold zlen in *. by rewrite lookup_ge_None_2 by lia.
    + rewrite list_lookup_insert_ne.
      * rewrite Hs by lia. replace (Z.to_nat (i + 1)) with (S (Z.to_nat i)) by lia. done.
      * intros E. apply Z2Nat.inj in E; [|lia|apply Z.mod_pos_bound; lia].
        pose proof (Z.div_mod (p_qh p + (i + 1)) 32). pose proof (Z.mod_pos_bound (p_qh p + (i + 1)) 32). lia.
Qed.

Lemma ring_empty_view p : p_qn p = 0 -> p_qh p = 0 -> p_qt p = 0 -> p_ring p = empty_ring -> ring_view p [].
Proof.
  intros Hn Hh Ht Hr. split; rewrite ?Hn, ?Hh, ?Ht, ?Hr; unfold MAX_Q; try done; try lia.
  intros i Hi. rewrite Z.mod_small by lia. unfold empty_ring. rewrite lookup_replicate_2 by (unfold MAX_Q; lia). done.
Qed.

(** ** Sending and receiving through a handle *)

(** Handle [h] of session [sid] refers to port number [g], which is [p]. *)
Definition reaches (k : K) (sid h g : Z) (p : port) : Prop := port_of k sid h = Some g /\ port_at k g = Some p.

(** No routed call waits for a reply under this name. *)
Definition unawaited (name : list byte) (k : K) : Prop :=
  forall t, t ∈ k_tab k -> t_used t && negb (t_done t) && streq (t_name t) name = false.

Lemma findi_none {A} (f : A -> bool) l : (forall x, x ∈ l -> f x = false) -> findi f l = None.
Proof.
  induction l as [|x l IH]; cbn [findi]; [done|]. intros Hf. rewrite Hf by set_solver.
  rewrite IH; [done|]. intros. apply Hf. set_solver.
Qed.

Lemma intercept_unawaited name data k : unawaited name k -> fsroute_intercept name data k = (false, k).
Proof.
  intros Hu. unfold fsroute_intercept. case_match; [done|]. rewrite findi_none; [done|].
  intros t Ht. unfold awaits. by rewrite Hu.
Qed.

Lemma port_at_upd k g f g' p : port_at k g = Some p ->
  port_at (upd_port g f k) g' = if g' =? g then Some (f p) else port_at k g'.
Proof.
  unfold port_at. destruct (Z.ltb_spec g 0); [done|]. intros Hp. cbn.
  destruct (Z.eqb_spec g' g) as [->|Hne].
  - rewrite (proj2 (Z.ltb_ge _ _)) by lia. by rewrite list_lookup_alter_eq, Hp.
  - destruct (Z.ltb_spec g' 0); [done|]. rewrite list_lookup_alter_ne by lia. done.
Qed.

Lemma port_of_upd k g f p sid h : port_at k g = Some p -> p_used (f p) = p_used p ->
  port_of (upd_port g f k) sid h = port_of k sid h.
Proof.
  intros Hp Hu. unfold port_of. cbn. unfold htab_at. cbn. case_match; [done|]. case_match; [done|].
  rewrite (port_at_upd _ _ _ _ p) by done. destruct (Z.eqb_spec (default (-1) (k_htab k !! Z.to_nat sid ≫= (λ row, row !! Z.to_nat h))) g) as [->|]; [|done].
  by rewrite Hp, Hu.
Qed.

(** What an enqueue on a ring with room leaves: the message at the tail. *)
Definition queued (k k' : K) (g : Z) (p : port) (m : msg) : Prop :=
  k_ports k' = k_ports (upd_port g (ring_put m) k) /\ core k' = core k /\ k_tab k' = k_tab k
  /\ k_heap k' = (rt_malloc sizeof_msg (k_heap k)).2.

Lemma enqueue_ok k g sid data p q :
  port_at k g = Some p -> ring_view p q -> zlen q < MAX_Q -> (rt_malloc sizeof_msg (k_heap k)).1 ≠ 0 ->
  exists m k', enqueue g sid data k = (0, k') /\ m_from_sid m = sid /\ m_data m = data /\ queued k k' g p m.
Proof.
  intros Hp Hv Hq Hm. unfold enqueue. rewrite kbind. cbn [kget fst snd]. rewrite Hp, (rv_qn _ _ Hv).
  rewrite (proj2 (Z.leb_gt _ _)) by done. rewrite kbind. unfold k_rt_malloc.
  destruct (rt_malloc sizeof_msg (k_heap k)) as [a hp] eqn:E. cbn [fst snd] in *.
  rewrite (proj2 (Z.eqb_neq a 0)) by done. eexists (mkMsg a sid data), _.
  split; [reflexivity|]. split_and!; try done. unfold queued. rewrite E. done.
Qed.

Lemma enqueue_full k g sid data p q :
  port_at k g = Some p -> ring_view p q -> zlen q = MAX_Q -> enqueue g sid data k = (-2, k).
Proof.
  intros Hp Hv Hq. unfold enqueue. rewrite kbind. cbn [kget fst snd]. rewrite Hp, (rv_qn _ _ Hv), Hq. done.
Qed.

Section platform.
Context {P : Platform}.

Lemma port_send_user k sid h g p data :
  reaches k sid h g p -> p_kernel_endpoint p = false -> unawaited (p_name p) k -> 0 < zlen data <= MSG_MAX ->
  port_send sid h data k = enqueue g sid (if negb (sid =? 0) then stamp (sched_uid_of k sid) data else data) k.
Proof.
  intros [Hg Hp] Hke Hu Hl. unfold port_send. rewrite kbind. cbn [kget fst snd]. rewrite Hg. cbn. rewrite Hp. cbn.
  rewrite (proj2 (Z.eqb_neq _ _)), (proj2 (Z.ltb_ge _ _)) by (unfold MSG_MAX in *; lia). cbn [orb].
  rewrite kbind. cbn [kget fst snd]. rewrite Hke. cbn [andb]. rewrite kbind, intercept_unawaited by done. done.
Qed.

End platform.

Lemma port_recv_head k sid h g p m q cap :
  reaches k sid h g p -> ring_view p (m :: q) ->
  exists k', port_recv sid h cap k = ((zlen (take (Z.to_nat cap) (m_data m)), take (Z.to_nat cap) (m_data m)), k')
    /\ k_ports k' = k_ports (upd_port g ring_take k) /\ core k' = core k /\ k_tab k' = k_tab k
    /\ k_heap k' = rt_free (m_ptr m) (k_heap k).
Proof.
  intros [Hg Hp] Hv. unfold port_recv. rewrite kbind. cbn [kget fst snd]. rewrite Hg. cbn. rewrite Hp. cbn.
  rewrite (rv_qn _ _ Hv), zlen_cons. pose proof (zlen_nonneg q). rewrite (proj2 (Z.eqb_neq _ _)) by lia.
  rewrite (ring_head_view _ _ _ Hv). rewrite !kbind. cbn [kmod fst snd k_rt_free].
  destruct (0 <? zlen (take (Z.to_nat cap) (m_data m))); eexists; split; try reflexivity; done.
Qed.

Lemma port_recv_empty k sid h g p cap :
  reaches k sid h g p -> ring_view p [] -> port_recv sid h cap k = ((0, []), k).
Proof.
  intros [Hg Hp] Hv. unfold port_recv. rewrite kbind. cbn [kget fst snd]. rewrite Hg. cbn. rewrite Hp. cbn.
  by rewrite (rv_qn _ _ Hv).
Qed.

(** ** Memory for messages *)

(** What one message can take from the pool: its 8 KiB block, aligned. *)
Definition msg_room : Z := 8192 + 15.

Lemma rt_malloc_msg m : rt_malloc sizeof_msg m =
  if negb (bin_of m 13 =? 0)
  then hand_out (bin_of m 13) (set_bin m 13 (h_next_free (hdr_at m (bin_of m 13))))
  else fresh_block (2 ^ 13) 13 m.
Proof. unfold rt_malloc. change (need_of sizeof_msg) with 4144. change (cls_of 4144) with 13. done. Qed.

Lemma mm_alloc_ok n m : 0 < pool_base m <= pool_ptr m -> pool_ptr m + n + 15 <= pool_end m <= 2 ^ 32 -> 0 <= n ->
  exists p, mm_alloc n 16 m = (p, set_ptr m (p + n)) /\ pool_ptr m <= p <= pool_ptr m + 15.
Proof.
  intros Hb He Hn. unfold mm_alloc. cbn [Z.eqb]. change (16 - 1) with 15. rewrite align16.
  rewrite (u64_small (_ + 16 - 1)) by lia.
  pose proof (Z.div_mod (pool_ptr m + 16 - 1) 16). pose proof (Z.mod_pos_bound (pool_ptr m + 16 - 1) 16).
  rewrite u64_small, (proj2 (Z.ltb_ge _ _)) by lia. eexists. split; [reflexivity|]. lia.
Qed.

Lemma malloc_msg_ok m live : heap_inv m live -> pool_ptr m + msg_room <= pool_end m ->
  exists p m', rt_malloc sizeof_msg m = (p, m') /\ p ≠ 0 /\ heap_inv m' (live ∪ {[p]})
    /\ pool_ptr m' <= pool_ptr m + msg_room /\ pool_end m' = pool_end m.
Proof.
  intros Hi Hr. destruct (rt_malloc sizeof_msg m) as [p m'] eqn:E. pose proof Hi as [fl W].
  destruct (wf_pool _ _ _ W) as [Hb He].
  assert (p ≠ 0 /\ pool_ptr m' <= pool_ptr m + msg_room /\ pool_end m' = pool_end m) as (Hp & Hptr & Hend).
  { rewrite rt_malloc_msg in E. destruct (Z.eqb_spec (bin_of m 13) 0) as [Hz|Hz]; cbn [negb] in E.
    - unfold fresh_block in E. unfold msg_room in *.
      destruct (mm_alloc_ok (2 ^ 13) m) as (a & Ha & Hle); [lia..|]. rewrite Ha in E.
      rewrite (proj2 (Z.eqb_neq a 0)) in E by lia. injection E as <- <-. cbn. unfold hdr_size. lia.
    - unfold hand_out in E. injection E as <- <-. cbn. unfold msg_room. split; [|lia].
      rewrite <-(head_at_bin m 13) in * by done.
      destruct (chain_cons_inv m live fl 13 W) as (l & x & _ & Hx & [Hbl _ _ _] & _); [unfold is_list, NCLASS; lia|done|].
      unfold hdr_size. lia. }
  exists p, m'. split_and!; try done.
  destruct (rt_malloc_spec _ _ _ _ _ Hi (ltac:(unfold sizeof_msg; lia) : 0 <= sizeof_msg < 2 ^ 62) E) as [[-> _]|(_ & _ & _ & ? & _)]; done.
Qed.

Lemma port_at_ext k k' g : k_ports k' = k_ports k -> port_at k' g = port_at k g.
Proof. unfold port_at. by intros ->. Qed.
Lemma port_of_ext k k' sid h : k_ports k' = k_ports k -> k_htab k' = k_htab k -> port_of k' sid h = port_of k sid h.
Proof. intros Hp Hh. unfold port_of, htab_at. by rewrite Hh, (port_at_ext k k') by done. Qed.

Lemma core_htab k k' : core k' = core k -> k_htab k' = k_htab k.
Proof. by intros [=]. Qed.
Lemma core_sessions k k' : core k' = core k -> k_sessions k' = k_sessions k.
Proof. by intros [=]. Qed.
Lemma uid_ext k k' sid : core k' = core k -> sched_uid_of k' sid = sched_uid_of k sid.
Proof. intros [= Hs _ _ _ _ _ _]. unfold sched_uid_of, state_of, sess. by rewrite Hs. Qed.

Lemma reaches_upd k k' g f p sid h :
  k_ports k' = k_ports (upd_port g f k) -> core k' = core k -> p_used (f p) = p_used p ->
  reaches k sid h g p -> reaches k' sid h g (f p).
Proof.
  intros Hps Hc Hu [Hg Hp]. split.
  - rewrite (port_of_ext (upd_port g f k)); [by rewrite (port_of_upd _ _ _ p)|done|by apply core_htab].
  - rewrite (port_at_ext (upd_port g f k)) by done. by rewrite (port_at_upd _ _ _ _ p), Z.eqb_refl.
Qed.

Lemma alter_alter {A} (f g : A -> A) i (l : list A) : alter f i (alter g i l) = alter (f ∘ g) i l.
Proof. revert i. induction l as [|x l IH]; intros [|i]; cbn; try done. f_equal. apply IH. Qed.

(** ** Batches *)

Section platform.
Context {P : Platform}.

Fixpoint send_all (sid h : Z) (ds : list (list byte)) : KM (list Z) :=
  match ds with
  | [] => mret []
  | d :: ds => r ← port_send sid h d; rs ← send_all sid h ds; mret (r :: rs)
  end.

Fixpoint recv_all (sid h cap : Z) (n : nat) : KM (list (Z * list byte)) :=
  match n with
  | O => mret []
  | S n => r ← port_recv sid h cap; rs ← recv_all sid h cap n; mret (r :: rs)
  end.

Lemma send_all_ok a ha g ds : forall k p q live,
  reaches k a ha g p -> p_kernel_endpoint p = false -> a ≠ 0 -> unawaited (p_name p) k ->
  ring_view p q -> zlen q + zlen ds <= MAX_Q -> Forall (fun d => 0 < zlen d <= MSG_MAX) ds ->
  heap_inv (k_heap k) live -> pool_ptr (k_heap k) + zlen ds * msg_room <= pool_end (k_heap k) ->
  exists k' ms f, send_all a ha ds k = (replicate (length ds) 0, k')
    /\ map m_data ms = map (stamp (sched_uid_of k a)) ds /\ Forall (fun m => m_from_sid m = a) ms
    /\ core k' = core k /\ k_tab k' = k_tab k /\ ring_view (f p) (q ++ ms) /\ p_used (f p) = p_used p
    /\ k_ports k' = k_ports (upd_port g f k).
Proof.
  induction ds as [|d ds IH]; intros k p q live Hr Hke Ha Hu Hv Hlen Hds Hi Hroom.
  - exists k, [], id. rewrite app_nil_r. split_and!; try done. cbn. by rewrite list_alter_id.
  - apply Forall_cons in Hds as [Hd Hds]. rewrite zlen_cons in *. pose proof (zlen_nonneg ds).
    assert (0 <= msg_room) by (unfold msg_room; lia).
    destruct (malloc_msg_ok (k_heap k) live Hi) as (a1 & h1 & E & Ha1 & Hi1 & Hp1 & He1); [nia|].
    destruct (enqueue_ok k g a (stamp (sched_uid_of k a) d) p q) as (m & k1 & Es & Hfrom & Hdata & Hps & Hc & Ht & Hh);
      [apply Hr|done|lia|by rewrite E|].
    rewrite E in Hh. cbn in Hh.
    destruct (IH k1 (ring_put m p) (q ++ [m]) (live ∪ {[a1]})) as (k' & ms & f & Es' & Hms & Hf & Hc' & Ht' & Hv' & Hu' & Hps').
    + by eapply reaches_upd.
    + done.
    + done.
    + intros t. rewrite Ht. apply Hu.
    + apply ring_put_view; [done|lia].
    + rewrite zlen_app, zlen_cons, zlen_nil. lia.
    + done.
    + by rewrite Hh.
    + rewrite Hh, He1. nia.
    + exists k', (m :: ms), (f ∘ ring_put m). cbn [send_all]. rewrite kbind, (port_send_user k a ha g p d) by done.
      rewrite (proj2 (Z.eqb_neq a 0)) by done. cbn [negb]. rewrite Es. cbn [fst snd]. rewrite kbind, Es'. cbn.
      rewrite (uid_ext k k1) in Hms by done.
      split_and!; [done|by rewrite Hdata, Hms|by constructor|congruence|congruence|by rewrite <-app_assoc in Hv'|done|].
      rewrite Hps'. cbn. rewrite Hps. cbn. by rewrite alter_alter.
Qed.

Lemma recv_all_ok b hb g cap ms : forall k p q,
  reaches k b hb g p -> ring_view p (ms ++ q) ->
  exists k' p', recv_all b hb cap (length ms) k
      = (map (fun m => (zlen (take (Z.to_nat cap) (m_data m)), take (Z.to_nat cap) (m_data m))) ms, k')
    /\ reaches k' b hb g p' /\ ring_view p' q.
Proof.
  induction ms as [|m ms IH]; intros k p q Hr Hv; [by exists k, p|].
  destruct (port_recv_head k b hb g p m (ms ++ q) cap Hr Hv) as (k1 & Er & Hps & Hc & Ht & Hh).
  destruct (IH k1 (ring_take p) q) as (k' & p' & E & Hr' & Hv').
  - by eapply reaches_upd.
  - by eapply ring_take_view.
  - exists k', p'. cbn [length recv_all]. rewrite kbind, Er. cbn [fst snd]. rewrite kbind, E. done.
Qed.

End platform.

(** * A small kernel to evaluate the model on

    A platform whose engine accepts every image, and a kernel with two
    sessions: [init], in slot 1, with every capability, and [guest], in slot 2,
    with none.  Both hold a handle on the registry and one on a port [mail]
    that [init] created. *)

#[export] Instance demo_platform : Platform := {|
  engine_init := fun _ h => (0, h);
  engine_ensure_memory := fun _ _ h => (0, h);
  engine_memory_size := fun _ _ => 0;
  engine_shutdown := fun _ h => h;
  pci_read32 := fun _ _ _ _ => -1;
  pci_enumerate := [];
  stack_junk := [];
  rodata_junk := []
|}.

Definition demo_port (endpoint : bool) (creator : Z) (name : list byte) : port :=
  mkPort true endpoint creator name 0 0 0 empty_ring.
Definition free_port : port := mkPort false false 0 [] 0 0 0 empty_ring.

Definition demo_ports : list port :=
  demo_port true 0 (bs "registry") :: demo_port false 1 (bs "mail") :: replicate 22 free_port.

Definition demo_row : list Z := 0 :: 1 :: replicate 14 (-1).
Definition empty_row : list Z := replicate 16 (-1).

Definition demo_wasi : wasi :=
  mkWasi [] false 0 (replicate 64 SCHED_FD_EMPTY) (mkbuf 16384) (mkbuf 8192) 0 0.
Definition demo_session (name : list byte) (uid cap : Z) (s : st) : session :=
  mkSession uid cap 2 name s true 0 0 demo_wasi.

Definition demo_sessions : list session :=
  zero_session :: demo_session (bs "init") 0 8191 S_RUNNABLE :: demo_session (bs "guest") 7 0 S_RUNNING
    :: replicate 9 zero_session.

Definition demo_heap : Heap := heap_init 4096 (2 ^ 24).

Definition demo : K := mkK demo_ports (empty_row :: demo_row :: demo_row :: replicate 9 empty_row)
  (replicate 8 (mkPending false 0 [] false [])) demo_sessions [] 1 (Some 2) demo_heap (mkLog (mkbuf LOG_SIZE) 0)
  (replicate 13 0) (mkConf (replicate 8 0) 5 1 0 0) (mkDev [] false false 0 0 [] 1) (mkbuf 4096) (replicate 12 [])
  false false.

Lemma demo_heap_inv : heap_inv demo_heap ∅.
Proof. apply heap_init_inv; lia. Qed.

Lemma demo_mail_empty : ring_view (demo_port false 1 (bs "mail")) [].
Proof. by apply ring_empty_view. Qed.

(** Nobody waits for a routed call. *)
Lemma demo_unawaited name : unawaited name demo.
Proof. intros t Ht. change (t ∈ replicate 8 (mkPending false 0 [] false [])) in Ht. by apply elem_of_replicate in Ht as [-> _]. Qed.
