(* ===== verification/KernSafety.v ===== *)
(** * KernSafety: who may hold which capability

    What one call, one pass of the scheduler and one exit can do to the
    sessions' identities: [grows_at Q m k] says that running [m] from [k]
    keeps the uid and the capabilities of every session there is, and that a
    session that appears satisfies [Q].  Only LOGIN and CHCAPS escape it. *)

From S2P Require Import Prelude Frame KernHeap KernState KernPorts KernSched KernSvc KernCalls KernFacts.

Lemma sessions_core {A} (m : KM A) : keeps core m -> keeps k_sessions m.
Proof. intros Hm k. apply core_sessions, Hm. Qed.
Lemma cur_core {A} (m : KM A) : keeps core m -> keeps k_cur m.
Proof. intros Hm k. by injection (Hm k). Qed.
Local Hint Extern 5 (keeps k_cur _) => apply cur_core; solve [auto with keeps nocore] : keeps.
Local Hint Extern 5 (keeps k_sessions _) => apply sessions_core; solve [auto with keeps nocore] : keeps.

Section safety.
Context {P : Platform}.

(** A property of identities that holds of every smaller mask. *)
Context (Q : Z -> Z -> Prop) (HQ : forall u c c', Q u c -> Z.ldiff c' c = 0 -> Q u c').

Definition sess_ok (x : session) : Prop := s_state x ≠ S_FREE -> Q (s_uid x) (s_capmask x).

Definition grow (x x' : session) : Prop :=
  match s_state x with
  | S_FREE => sess_ok x'
  | _ => s_state x' ≠ S_FREE /\ s_uid x' = s_uid x /\ s_capmask x' = s_capmask x
  end.

Lemma grow_refl x : sess_ok x -> grow x x.
Proof. unfold grow. by destruct (s_state x). Qed.

Lemma grow_same x x' : s_state x ≠ S_FREE -> s_state x' ≠ S_FREE -> s_uid x' = s_uid x -> s_capmask x' = s_capmask x -> grow x x'.
Proof. unfold grow. by destruct (s_state x). Qed.

Lemma grow_trans x y z : grow x y -> grow y z -> grow x z.
Proof.
  unfold grow, sess_ok. destruct (s_state x) eqn:Ex.
  - intros Hy. destruct (s_state y) eqn:Ey; [done|..]; intros (Hz & -> & ->); auto.
  - intros (Hy & -> & ->). by destruct (s_state y).
  - intros (Hy & -> & ->). by destruct (s_state y).
  - intros (Hy & -> & ->). by destruct (s_state y).
Qed.

Lemma grow_ok x x' : sess_ok x -> grow x x' -> sess_ok x'.
Proof. unfold grow, sess_ok. destruct (s_state x); [done|..]; intros ? (? & -> & ->); auto. Qed.

Definition all_ok (k : K) : Prop := Forall sess_ok (k_sessions k).
Definition grows (k k' : K) : Prop := Forall2 grow (k_sessions k) (k_sessions k').
Definition grows_at {A} (m : KM A) (k : K) : Prop := all_ok k -> grows k (m k).2.

Lemma grows_refl k k' : all_ok k -> k_sessions k' = k_sessions k -> grows k k'.
Proof.
  intros Hk E. unfold grows. rewrite E. apply Forall2_same_length_lookup. split; [done|].
  intros i x y Hx Hy. simplify_eq. apply grow_refl. by eapply Forall_lookup_1.
Qed.

Lemma grows_trans k1 k2 k3 : grows k1 k2 -> grows k2 k3 -> grows k1 k3.
Proof.
  intros H1 H2. apply Forall2_same_length_lookup. split.
  - by rewrite (Forall2_length _ _ _ H1), (Forall2_length _ _ _ H2).
  - intros i x z Hx Hz. destruct (Forall2_lookup_l _ _ _ _ _ H1 Hx) as (y & Hy & Hxy).
    eapply grow_trans; [done|]. by eapply Forall2_lookup_lr.
Qed.

Lemma grows_ok k k' : all_ok k -> grows k k' -> all_ok k'.
Proof.
  intros Hk Hg. apply Forall_lookup_2. intros i x' Hx'.
  destruct (Forall2_lookup_r _ _ _ _ _ Hg Hx') as (x & Hx & Hgr).
  eapply grow_ok; [|done]. by eapply Forall_lookup_1.
Qed.

Lemma grows_keeps {A} (m : KM A) k : keeps k_sessions m -> grows_at m k.
Proof. intros Hm Hk. by apply grows_refl. Qed.

Lemma grows_core {A} (m : KM A) k : keeps core m -> grows_at m k.
Proof. intros Hm. apply grows_keeps. intros k'. by apply core_sessions. Qed.

Lemma grows_bind {A B} (m : KM A) (f : A -> KM B) k :
  grows_at m k -> grows_at (f (m k).1) (m k).2 -> grows_at (m ≫= f) k.
Proof.
  intros Hm Hf Hk. rewrite kbind. eapply grows_trans; [by apply Hm|]. apply Hf. by eapply grows_ok, Hm.
Qed.

(** A change of one slot. *)
Lemma grows_upd k sid f : (forall x, k_sessions k !! Z.to_nat sid = Some x -> sess_ok x -> grow x (f x)) ->
  grows_at (kmod (upd_sess sid f)) k.
Proof.
  intros Hf Hk. unfold grows. cbn. apply Forall2_same_length_lookup. rewrite length_alter. split; [done|].
  intros i x y Hx Hy. destruct (decide (i = Z.to_nat sid)) as [->|].
  - rewrite list_lookup_alter_eq, Hx in Hy. simplify_eq/=. apply Hf; [done|]. by eapply Forall_lookup_1.
  - rewrite list_lookup_alter_ne in Hy by done. simplify_eq. apply grow_refl. by eapply Forall_lookup_1.
Qed.

(** ** Spawning *)

Lemma free_slot_free k i : free_slot k = Some i ->
  0 < i /\ exists x, k_sessions k !! Z.to_nat i = Some x /\ s_state x = S_FREE.
Proof.
  unfold free_slot. destruct (findi _ _) as [j|] eqn:E; [|done]. intros [= <-]. split; [lia|].
  apply findi_Some in E as [(x & Hx & Hf) _]. apply bool_decide_eq_true in Hf.
  rewrite lookup_drop in Hx. exists x. by replace (Z.to_nat (Z.of_nat (S j))) with (1 + j)%nat by lia.
Qed.

Lemma grows_console k s : grows_at (console_puts s) k.
Proof. apply grows_core. keeps. Qed.
Lemma grows_hex k s : grows_at (console_hex64 s) k.
Proof. apply grows_core. keeps. Qed.

Lemma console_mm_core : keeps core console_mm.
Proof. unfold console_mm. keeps. Qed.
Lemma engine_init_core b : keeps core (k_engine_init b).
Proof. intros k. unfold k_engine_init. by destruct (engine_init b (k_heap k)). Qed.
Lemma mm_alloc_core n a : keeps core (k_mm_alloc n a).
Proof. intros k. unfold k_mm_alloc. by destruct (mm_alloc n a (k_heap k)). Qed.
Lemma shutdown_core i : keeps core (k_engine_shutdown i).
Proof. unfold k_engine_shutdown. keeps. Qed.
Hint Resolve console_mm_core engine_init_core mm_alloc_core shutdown_core : keeps.

(** Slot [i] is free, and what it holds satisfies [Q]; so it may be started. *)
Definition primed (i : Z) (k : K) : Prop :=
  all_ok k /\ forall x, k_sessions k !! Z.to_nat i = Some x -> s_state x = S_FREE /\ Q (s_uid x) (s_capmask x).

Lemma primed_keeps {A} i (m : KM A) k : keeps core m -> primed i k -> primed i (m k).2.
Proof. intros Hm [Hk Hi]. pose proof (core_sessions _ _ (Hm k)) as E. unfold primed, all_ok. by rewrite E. Qed.

Lemma primed_upd i f k : (forall x, s_state (f x) = s_state x /\ s_uid (f x) = s_uid x /\ s_capmask (f x) = s_capmask x) ->
  primed i k -> primed i (upd_sess i f k).
Proof.
  intros Hf [Hk Hi]. split.
  - unfold all_ok. cbn. apply Forall_alter; [done|]. intros x Hx Hok. unfold sess_ok in *.
    destruct (Hf x) as (-> & -> & ->). done.
  - cbn. intros x. rewrite list_lookup_alter_eq. destruct (k_sessions k !! Z.to_nat i) as [y|] eqn:E; [|done].
    cbn. intros [= <-]. destruct (Hf y) as (-> & -> & ->). by apply Hi.
Qed.

(** From [k0] to [k], spawning into slot [i] has come to where it may start
    it. *)
Definition stage (i : Z) (k0 k : K) : Prop := grows k0 k /\ primed i k.

Definition same_ident (f : session -> session) : Prop :=
  forall x, s_state (f x) = s_state x /\ s_uid (f x) = s_uid x /\ s_capmask (f x) = s_capmask x.

Lemma grow_same_ident f x : same_ident f -> sess_ok x -> grow x (f x).
Proof.
  intros Hf Hx. destruct (Hf x) as (Es & Eu & Ec). unfold grow, sess_ok in *. rewrite Es, Eu, Ec.
  by destruct (s_state x).
Qed.

Lemma stage_bind {A B} i k0 k (m : KM A) (f : A -> KM B) :
  stage i k0 k -> keeps core m -> (forall a k', stage i k0 k' -> grows k0 (f a k').2) -> grows k0 ((m ≫= f) k).2.
Proof.
  intros [Hg Hp] Hm Hf. rewrite kbind. apply Hf. split; [|by apply primed_keeps].
  eapply grows_trans; [done|]. apply grows_core; [done|]. apply Hp.
Qed.

Lemma stage_upd {B} i k0 k g (f : unit -> KM B) :
  stage i k0 k -> same_ident g -> (forall a k', stage i k0 k' -> grows k0 (f a k').2) ->
  grows k0 ((kmod (upd_sess i g) ≫= f) k).2.
Proof.
  intros [Hg Hp] Hi Hf. rewrite kbind. apply Hf. split; [|by apply primed_upd].
  eapply grows_trans; [done|]. apply grows_upd; [|apply Hp]. intros x _. by apply grow_same_ident.
Qed.

Lemma stage_run {B} i k0 k (f : unit -> KM B) :
  stage i k0 k -> (forall a, keeps core (f a)) -> grows k0 ((kmod (upd_sess i (set_state S_RUNNABLE)) ≫= f) k).2.
Proof.
  intros [Hg [Hk Hi]] Hf. eapply grows_trans; [done|]. apply grows_bind; [|by apply grows_core|done].
  apply grows_upd. intros x Hx _. destruct (Hi x Hx) as [E ?]. unfold grow. rewrite E. by intros _.
Qed.

Lemma stage_done i k0 k : stage i k0 k -> grows k0 k.
Proof. by intros [? _]. Qed.

(** One step of a spawn. *)
Ltac stage_step Hs :=
  lazymatch goal with
  | |- grows _ (mbind _ (kmod (upd_sess _ _)) _).2 =>
      apply (stage_upd _ _ _ _ _ Hs); [by intros ?|]; clear Hs; intros ? ? Hs
  | |- grows _ (mbind _ _ _).2 => apply (stage_bind _ _ _ _ _ Hs); [keeps|]; clear Hs; intros ? ? Hs
  | |- grows _ (mret _ _).2 => apply (stage_done _ _ _ Hs)
  end.

Lemma spawn_grows name blob uid cap argv k : Q uid cap -> grows_at (spawn_impl name blob uid cap argv) k.
Proof.
  intros Hq Hk. unfold spawn_impl. rewrite kbind. cbn [kget fst snd].
  destruct (free_slot k) as [i|] eqn:Ef; [|by apply grows_refl].
  destruct (free_slot_free _ _ Ef) as (Hi & x & Hx & Hfree). rewrite kbind.
  match goal with |- context [kmod (upd_sess i ?f) k] => set (g := f) end.
  assert (stage i k (upd_sess i g k)) as Hs.
  { split.
    - apply (grows_upd k i g); [|done]. intros y Hy _. simplify_eq. unfold grow. rewrite Hfree. intros []. by cbn.
    - split.
      + unfold all_ok. cbn. apply Forall_alter; [done|]. intros y Hy Hok. simplify_eq. intros []. by cbn.
      + cbn. intros y. rewrite list_lookup_alter_eq, Hx. cbn. intros [= <-]. by cbn. }
  cbn [kmod fst snd]. generalize (upd_sess i g k), Hs. clear Hs. intros k1 Hs.
  stage_step Hs. case_match; [repeat stage_step Hs|]. do 3 stage_step Hs. case_match; [repeat stage_step Hs|].
  stage_step Hs. case_match; [repeat stage_step Hs|]. apply (stage_run _ _ _ _ Hs). intros. keeps.
Qed.

Lemma spawn_image_grows name uid cap modname argv k : Q uid cap -> grows_at (sched_spawn_image name uid cap modname argv) k.
Proof.
  intros Hq. unfold sched_spawn_image. apply grows_bind; [by apply grows_core|].
  case_match; [by apply spawn_grows|by apply grows_core].
Qed.

(** ** Requests *)

Lemma cap_sess k sid : sched_capmask_of k sid ≠ 0 ->
  exists x, k_sessions k !! Z.to_nat sid = Some x /\ s_state x ≠ S_FREE /\ sched_capmask_of k sid = s_capmask x
    /\ sched_uid_of k sid = s_uid x.
Proof.
  unfold sched_capmask_of, sched_uid_of, state_of, sess. destruct (sid <? 0); cbn; [by rewrite andb_false_r|].
  destruct (k_sessions k !! Z.to_nat sid) as [x|]; cbn; [|by rewrite andb_false_r].
  destruct (sid <? MAX_SESSIONS); cbn; [|done].
  case_bool_decide; cbn; [done|]. eauto.
Qed.

Lemma alive_sess k sid : sched_alive k sid = true ->
  0 < sid /\ exists x, k_sessions k !! Z.to_nat sid = Some x /\ s_state x ≠ S_FREE /\ s_state x ≠ S_ZOMBIE.
Proof.
  unfold sched_alive, state_of, sess. rewrite !andb_true_iff, !negb_true_iff, !bool_decide_eq_false.
  intros [[[H0%Z.ltb_lt _] Hf] Hz]. split; [done|]. rewrite (proj2 (Z.ltb_ge _ _)) in Hf, Hz by lia.
  destruct (k_sessions k !! Z.to_nat sid) as [x|]; [|done]. eauto.
Qed.

Lemma vfio_cleanup_sessions sid : keeps k_sessions (vfio_session_cleanup sid).
Proof. unfold vfio_session_cleanup. keeps. Qed.
Lemma clear_handles_sessions sid : keeps k_sessions (ports_clear_session_handles sid).
Proof. intros k. unfold ports_clear_session_handles. cbn. by case_match. Qed.
Lemma drain_sessions sid : keeps k_sessions (ports_drain_session sid).
Proof. unfold ports_drain_session. keeps. Qed.
Hint Resolve vfio_cleanup_sessions clear_handles_sessions drain_sessions : keeps.

Lemma kill_grows sid from k : grows_at (sched_kill sid from) k.
Proof.
  unfold sched_kill. apply grows_bind; [by apply grows_core|]. cbn [kget fst snd].
  destruct (sched_alive k sid) eqn:Ea; cbn [negb]; [|apply grows_core; keeps].
  apply grows_bind; [by apply grows_core|]. case_match; [apply grows_core; keeps|].
  destruct (alive_sess _ _ Ea) as (_ & x & Hx & Hf & _).
  apply grows_bind; [|apply grows_keeps; keeps].
  apply grows_upd. intros y Hy _. simplify_eq/=. by apply grow_same.
Qed.

Lemma respond_grows rt o s b k : grows_at (respond rt o s b) k.
Proof. apply grows_core. keeps. Qed.

Lemma ldiff_le a b c : Z.ldiff a b = 0 -> Z.ldiff b c = 0 -> Z.ldiff a c = 0.
Proof.
  intros H1 H2. apply Z.bits_inj'. intros n Hn. rewrite Z.ldiff_spec, Z.bits_0.
  assert (Z.testbit (Z.ldiff a b) n = false) as E1 by (by rewrite H1, Z.bits_0).
  assert (Z.testbit (Z.ldiff b c) n = false) as E2 by (by rewrite H2, Z.bits_0).
  rewrite Z.ldiff_spec in *. by destruct (Z.testbit a n), (Z.testbit b n), (Z.testbit c n).
Qed.

Lemma ensure_core sid n : keeps core (sched_session_ensure_bytes sid n).
Proof.
  unfold sched_session_ensure_bytes. keeps. intros k. unfold k_engine_ensure_memory.
  by destruct (engine_ensure_memory sid n (k_heap k)).
Qed.
Hint Resolve ensure_core : keeps.

Lemma ensure_sessions sid n : keeps k_sessions (sched_session_ensure_bytes sid n).
Proof. intros k. apply core_sessions, ensure_core. Qed.
Hint Resolve ensure_sessions : keeps.

Lemma netwin_sessions sid : keeps k_sessions (netwin_attach sid).
Proof. unfold netwin_attach. keeps. Qed.
Hint Resolve netwin_sessions : keeps.

Lemma grow_for_sessions m sid : keeps k_sessions (grow_for m sid).
Proof. unfold grow_for. keeps. Qed.
Hint Resolve grow_for_sessions : keeps.

Lemma svc_spawn_grows rt op seq payload k : has_bits (sched_capmask_of k (g_from_sid rt)) SCHED_CAP_SPAWN = true ->
  grows_at (svc_spawn rt op seq payload) k.
Proof using HQ.
  intros Hb Hk. unfold svc_spawn. case_match; [by apply grows_core; [keeps|]|].
  rewrite kbind. cbn [kget fst snd]. case_match eqn:Ew; [by apply grows_core; [keeps|]|].
  apply negb_false_iff, Z.eqb_eq in Ew.
  destruct (cap_sess k (g_from_sid rt)) as (x & Hx & Hf & Hc & Hu).
  { intros E. unfold has_bits in Hb. by rewrite E, Z.land_0_l in Hb. }
  assert (Q (s_uid x) (Get32 payload 80)) as HQ'.
  { apply (HQ _ (s_capmask x)); [|by rewrite <-Hc]. by apply (Forall_lookup_1 _ _ _ _ Hk Hx). }
  assert (forall a, grows_at (k_mm_alloc a 1) k) as Hmm by (intros; apply grows_core; keeps).
  set (sz := _ + argv_bytes _). revert Hk. apply grows_bind; [apply Hmm|].
  case_match; [apply grows_core; keeps|]. apply grows_bind; [by apply grows_core|]. cbn [kget fst snd].
  rewrite (uid_ext k) by apply mm_alloc_core. rewrite Hu.
  apply grows_bind; [by apply spawn_image_grows|].
  apply grows_bind; [|apply respond_grows]. case_match; [apply grows_keeps; keeps|by apply grows_core].
Qed.

Lemma knob_set_sessions i v : keeps k_sessions (sched_knob_set i v).
Proof. unfold sched_knob_set. keeps. Qed.
Lemma quantum_sessions v : keeps k_sessions (conf_set_quantum_us v).
Proof. unfold conf_set_quantum_us. keeps. Qed.
Lemma preempt_sessions v : keeps k_sessions (conf_set_preempt v).
Proof. unfold conf_set_preempt. keeps. Qed.
Lemma assign_sessions t b d f c : keeps k_sessions (vfio_assign_pci t b d f c).
Proof. unfold vfio_assign_pci. keeps. Qed.
Hint Resolve knob_set_sessions quantum_sessions preempt_sessions assign_sessions : keeps.

Lemma respond_sessions rt o s b : keeps k_sessions (respond rt o s b).
Proof. intros k. apply core_sessions, respond_core. Qed.
Lemma knack_sessions rt o s : keeps k_sessions (knack rt o s).
Proof. apply respond_sessions. Qed.
Lemma nack_sessions rt o s : keeps k_sessions (kernsvc_nack rt o s).
Proof. intros k. apply core_sessions, nack_core. Qed.
Hint Resolve respond_sessions knack_sessions nack_sessions : keeps.

Lemma apply_conf_sessions key v : keeps k_sessions (apply_conf key v).
Proof. unfold apply_conf. keeps. Qed.
Hint Resolve apply_conf_sessions : keeps.

(** The caller may not mint: it neither owns [login] nor holds POWER. *)
Definition unprivileged (k : K) (sid : Z) : Prop :=
  has_bits (sched_capmask_of k sid) SCHED_CAP_POWER = false /\ sched_is_login k sid = false.

Lemma svc_login_grows rt op seq payload k : sched_is_login k (g_from_sid rt) = false ->
  grows_at (svc_login rt op seq payload) k.
Proof.
  intros Hl. unfold svc_login. apply grows_bind; [by apply grows_core|]. cbn [kget fst snd]. rewrite Hl. cbn [negb].
  apply grows_core. keeps.
Qed.

Lemma svc_chcaps_grows rt op seq payload k : has_bits (sched_capmask_of k (g_from_sid rt)) SCHED_CAP_POWER = false ->
  grows_at (svc_chcaps rt op seq payload) k.
Proof.
  intros Hl. unfold svc_chcaps. apply grows_bind; [by apply grows_core|]. cbn [kget fst snd]. rewrite Hl. cbn [negb].
  apply grows_core. keeps.
Qed.

Lemma registry_grows rt op seq payload k : unprivileged k (g_from_sid rt) ->
  grows_at (registry_dispatch rt op seq payload) k.
Proof using HQ.
  intros [Hp Hl]. unfold registry_dispatch. apply grows_bind; [by apply grows_core|]. cbn [kget fst snd].
  assert (grows_at (svc_refuse rt op seq) k) as Href by (apply grows_keeps; unfold svc_refuse; keeps).
  repeat case_match; first [done | by apply svc_login_grows | by apply svc_chcaps_grows | by apply svc_spawn_grows | idtac].
  all: try (apply grows_keeps; unfold svc_list, svc_caps, svc_setconf, svc_assign_pci, svc_sysstat, svc_logdump,
              svc_knobs_get, svc_knobs_set, svc_perfstat; keeps; fail).
  unfold svc_kill. case_match; [apply grows_core; keeps|]. apply grows_bind; [apply kill_grows|apply respond_grows].
Qed.

(** ** Calls *)

Lemma is_login_ext k k' sid : k_ports k' = k_ports k -> k_htab k' = k_htab k -> sched_is_login k' sid = sched_is_login k sid.
Proof. intros Hp Hh. unfold sched_is_login, ports_name_owned_by, port_at. by rewrite Hp, Hh. Qed.
Lemma cap_ext k k' sid : k_sessions k' = k_sessions k -> sched_capmask_of k' sid = sched_capmask_of k sid.
Proof. intros Hs. unfold sched_capmask_of, state_of, sess. by rewrite Hs. Qed.

Lemma unprivileged_log k sid l : unprivileged (put_log l k) sid <-> unprivileged k sid.
Proof. done. Qed.

Lemma dispatch_grows ep sid h data k : unprivileged k sid -> grows_at (kernsvc_dispatch ep sid h data) k.
Proof using HQ.
  intros Hu. unfold kernsvc_dispatch. case_match; [by apply grows_core|]. apply grows_bind.
  { apply grows_core. keeps. }
  assert (forall k', unprivileged k' sid -> grows_at
    (if streq ep (bs "registry") then registry_dispatch (mkRoute (slice data 8 24) sid h) (Get16 data 0) (Get16 data 2) (drop 24 data)
     else if streq ep (bs "devman") then devman_dispatch (mkRoute (slice data 8 24) sid h) (Get16 data 0) (Get16 data 2)
     else if streq ep (bs "power") then power_dispatch (mkRoute (slice data 8 24) sid h) (Get16 data 0) (Get16 data 2)
     else mret tt) k') as Hrest.
  { intros k' Hu'. repeat case_match; [by apply registry_grows|..]; apply grows_keeps;
      unfold devman_dispatch, power_dispatch; keeps. }
  apply Hrest. destruct (is_routine_poll _); exact Hu.
Qed.

Lemma send_grows sid h data k : unprivileged k sid -> grows_at (port_send sid h data) k.
Proof using HQ.
  intros Hu. unfold port_send. apply grows_bind; [by apply grows_core|]. cbn [kget fst snd].
  destruct (port_of k sid h ≫= _) as [[g p]|]; [|by apply grows_core].
  destruct (orb _ _); [by apply grows_core|]. apply grows_bind; [by apply grows_core|]. cbn [kget fst snd].
  destruct (andb _ _); [|apply grows_core; keeps].
  apply grows_bind; [by apply dispatch_grows|apply grows_core; keeps].
Qed.

Lemma klog_sessions m : keeps k_sessions (klog m).
Proof. unfold klog. keeps. Qed.
Hint Resolve klog_sessions : keeps.

Lemma port_create_sessions sid name : keeps k_sessions (port_create sid name).
Proof. intros k. unfold port_create. by repeat case_match. Qed.

Lemma exec_grows sid c k : unprivileged k sid -> grows_at (exec sid c) k.
Proof using HQ.
  intros Hu. destruct c; cbn [exec].
  - apply grows_keeps. apply keeps_bind; [apply port_create_sessions|intros; keeps].
  - apply grows_keeps. unfold owned_port_bind, owned_cap, port_bind. keeps.
  - apply grows_bind; [by apply send_grows|by apply grows_core].
  - apply grows_keeps. unfold port_recv. cbv zeta. keeps.
  - apply grows_keeps. unfold owned_input_recv, owned_cap, input_recv. keeps.
  - apply grows_keeps. unfold owned_focus_set, owned_cap, input_focus_set. keeps.
  - apply grows_core. keeps.
Qed.

(** ** The running session stays the running session *)

Lemma kill_cur sid from : keeps k_cur (sched_kill sid from).
Proof.
  unfold sched_kill, vfio_session_cleanup, ports_clear_session_handles. keeps.
  apply keeps_kmod. intros k. by case_match.
Qed.
Lemma spawn_cur name blob uid cap argv : keeps k_cur (spawn_impl name blob uid cap argv).
Proof. unfold spawn_impl. keeps. Qed.
Hint Resolve kill_cur spawn_cur : keeps.
Lemma spawn_image_cur name uid cap m argv : keeps k_cur (sched_spawn_image name uid cap m argv).
Proof. unfold sched_spawn_image, sched_spawn_named_argv. keeps. Qed.
Lemma netwin_cur sid : keeps k_cur (netwin_attach sid).
Proof. unfold netwin_attach. keeps. Qed.
Hint Resolve spawn_image_cur netwin_cur : keeps.
Lemma grow_for_cur m sid : keeps k_cur (grow_for m sid).
Proof. unfold grow_for. keeps. Qed.
Lemma knob_set_cur i v : keeps k_cur (sched_knob_set i v).
Proof. unfold sched_knob_set. keeps. Qed.
Hint Resolve grow_for_cur knob_set_cur : keeps.
Lemma apply_conf_cur key v : keeps k_cur (apply_conf key v).
Proof. unfold apply_conf, conf_set_quantum_us, conf_set_preempt. keeps. Qed.
Lemma assign_cur t b d f c : keeps k_cur (vfio_assign_pci t b d f c).
Proof. unfold vfio_assign_pci. keeps. Qed.
Lemma identity_cur s u c : keeps k_cur (sched_set_identity s u c).
Proof. unfold sched_set_identity. keeps. Qed.
Lemma capmask_cur s c t r : keeps k_cur (sched_set_capmask s c t r).
Proof. unfold sched_set_capmask. keeps. Qed.
Hint Resolve apply_conf_cur assign_cur identity_cur capmask_cur : keeps.

Lemma registry_cur rt op seq payload : keeps k_cur (registry_dispatch rt op seq payload).
Proof.
  unfold registry_dispatch, svc_list, svc_caps, svc_kill, svc_spawn, svc_login, svc_setconf, svc_assign_pci, svc_sysstat,
    svc_logdump, svc_chcaps, svc_knobs_get, svc_knobs_set, svc_perfstat, svc_refuse, conf_set_quantum_us.
  cbv zeta. keeps.
Qed.
Hint Resolve registry_cur : keeps.

Lemma dispatch_cur ep sid h data : keeps k_cur (kernsvc_dispatch ep sid h data).
Proof. unfold kernsvc_dispatch, devman_dispatch, power_dispatch. cbv zeta. keeps. Qed.
Hint Resolve dispatch_cur : keeps.

Lemma owned_cap_core sid bit o : keeps core (owned_cap sid bit o).
Proof. unfold owned_cap. keeps. Qed.
Lemma port_create_cur sid name : keeps k_cur (port_create sid name).
Proof. intros k. unfold port_create. by repeat case_match. Qed.
Hint Resolve owned_cap_core port_create_cur : keeps.

Lemma exec_cur sid c : keeps k_cur (exec sid c).
Proof.
  destruct c; cbn [exec]; unfold owned_port_bind, port_bind, port_send, port_recv, owned_input_recv, input_recv,
    owned_focus_set, input_focus_set, klog; cbv zeta; keeps.
Qed.

(** ** Histories *)

Definition cur_live (k : K) : Prop :=
  exists sid x, k_cur k = Some sid /\ k_sessions k !! Z.to_nat sid = Some x /\ s_state x ≠ S_FREE.

Definition safe (s : K * bool) : Prop := all_ok s.1 /\ (s.2 = true -> cur_live s.1).

(** A step in which the calls are made by sessions that may not mint. *)
Definition ustep (s s' : K * bool) : Prop :=
  kstep s s' /\ (s.2 = true -> forall sid, k_cur s.1 = Some sid -> unprivileged s.1 sid).

Lemma cur_live_grows k k' : cur_live k -> grows k k' -> k_cur k' = k_cur k -> cur_live k'.
Proof.
  intros (sid & x & Hc & Hx & Hf) Hg Hcur. destruct (Forall2_lookup_l _ _ _ _ _ Hg Hx) as (y & Hy & Hgr).
  exists sid, y. rewrite Hcur. split_and!; [done..|]. unfold grow in Hgr. by destruct (s_state x); [|destruct Hgr..].
Qed.

Lemma grows_cur k f sid : cur_live k -> k_cur k = Some sid ->
  (forall x, s_state (f x) ≠ S_FREE /\ s_uid (f x) = s_uid x /\ s_capmask (f x) = s_capmask x) ->
  grows_at (kmod (upd_sess sid f)) k.
Proof.
  intros (sid' & x & Hc & Hx & Hf) Hc' Hg. simplify_eq. apply grows_upd. intros y Hy _. assert (y = x) as -> by congruence.
  destruct (Hg x) as (? & ? & ?). by apply grow_same.
Qed.

Lemma yield_ok k : all_ok k -> cur_live k -> all_ok (sched_yield_current k).2.
Proof.
  intros Hk Hc. pose proof Hc as (sid & x & Hcur & Hx & Hf). eapply grows_ok; [done|].
  revert Hk. change (grows_at sched_yield_current k). unfold sched_yield_current. apply grows_bind; [by apply grows_core|].
  cbn [kget fst snd]. rewrite Hcur. apply grows_bind; [by apply grows_core|]. cbn [kget fst snd].
  unfold preempt_take_pending. apply grows_bind; [apply grows_keeps; keeps|].
  assert (forall k', k_sessions k' = k_sessions k -> k_cur k' = k_cur k ->
    grows_at (kmod (upd_sess sid (set_state S_RUNNABLE))) k') as Hrest.
  { intros k' Es Ec. eapply grows_cur; [|by rewrite Ec|by intros]. exists sid, x. by rewrite Es, Ec. }
  apply Hrest; by destruct (negb _).
Qed.

Lemma exit_ok k sid r : all_ok k -> cur_live k -> k_cur k = Some sid -> all_ok (sched_session_main sid r k).2.
Proof.
  intros Hk Hc Hcur. pose proof Hc as (sid' & x & Hcur' & Hx & Hf). simplify_eq. eapply grows_ok; [done|].
  revert Hk. change (grows_at (sched_session_main sid r) k).
  intros Hk. assert (exists code, k_sessions (sched_session_main sid r k).2 =
    alter (set_state S_ZOMBIE) (Z.to_nat sid) (alter (set_live false) (Z.to_nat sid)
      (alter (set_exit code) (Z.to_nat sid) (k_sessions k)))) as [code E] by (eexists; reflexivity).
  unfold grows. rewrite E, !alter_alter.
  apply (grows_cur k (set_state S_ZOMBIE ∘ (set_live false ∘ set_exit code)) sid); [done..|by intros|done].
Qed.

Lemma reap_ok i k : all_ok k -> all_ok (reap i k).2.
Proof.
  intros Hk. unfold reap. rewrite kbind. cbn [kget fst snd]. destruct (sess k i) as [x|]; [|done].
  case_match; [done|].
  assert (forall k', all_ok k' -> all_ok ((_ ← kmod (upd_sess i (fun x => set_exit (-1) (set_state S_FREE x)));
    _ ← console_puts (bs "[sched] reaped sid="); _ ← console_hex64 i; console_puts nl) k').2) as Hlast.
  { intros k' Hk'. change (Forall sess_ok (alter (fun x => set_exit (-1) (set_state S_FREE x)) (Z.to_nat i) (k_sessions k'))).
    apply Forall_alter; [done|]. intros y _ _ []. done. }
  assert (forall k' f, all_ok k' -> same_ident f -> all_ok (upd_sess i f k')) as Hupd.
  { intros k' f Hk' Hi. eapply grows_ok; [done|]. apply (grows_upd k' i f); [|done]. intros y _. by apply grow_same_ident. }
  rewrite !kbind. apply Hlast. destruct (negb (s_stack x =? 0)), (s_eng_live x); try apply Hupd; try done;
    by apply (Hupd k (set_live false)).
Qed.

Lemma for_each_ok l k : all_ok k -> all_ok (for_each l reap k).2.
Proof.
  revert k. induction l as [|i l IH]; intros k Hk; [done|]. cbn [for_each]. rewrite kbind. by apply IH, reap_ok.
Qed.

Lemma pick_ok k : all_ok k -> all_ok (sched_pick k).2 /\ ((sched_pick k).1 ≠ None -> cur_live (sched_pick k).2).
Proof.
  intros Hk. unfold sched_pick. rewrite kbind. cbn [kget fst snd]. case_match; [done|].
  rewrite kbind. unfold sched_reap_zombies. pose proof (for_each_ok session_slots k Hk) as Hk1.
  set (k1 := (for_each session_slots reap k).2) in *. rewrite kbind. cbn [kget fst snd].
  destruct (findi _ _ ≫= _) as [i|] eqn:E; [|done].
  assert (runnable k1 i = true) as Hr.
  { apply bind_Some in E as (j & Hj & Hi). apply findi_Some in Hj as [(y & Hy & Hr) _]. congruence. }
  unfold runnable, state_of, sess in Hr. apply andb_true_iff in Hr as [_ Hr%bool_decide_eq_true].
  destruct (i <? 0); [done|]. destruct (k_sessions k1 !! Z.to_nat i) as [x|] eqn:Ex; [|done]. cbn in Hr.
  assert (all_ok (upd_sess i (set_state S_RUNNING) k1)) as Hk2.
  { eapply grows_ok; [done|]. apply (grows_upd k1 i); [|done]. intros y Hy _. assert (y = x) as -> by congruence.
    apply grow_same; cbn; congruence. }
  rewrite !kbind. cbn [kmod fst snd]. split; [exact Hk2|]. intros _. exists i, (set_state S_RUNNING x). cbn.
  by rewrite list_lookup_alter_eq, Ex.
Qed.

Lemma ustep_safe s s' : ustep s s' -> safe s -> safe s'.
Proof using HQ.
  intros [Hs Hu] [Hk Hc]. destruct Hs as [k sid c _ Hcur|k _|k sid r _ Hcur|k _|k b sid|k b c]; cbn [fst snd] in *.
  - specialize (Hc eq_refl). specialize (Hu eq_refl sid Hcur). pose proof (exec_grows sid c k Hu Hk) as Hg.
    split; [by eapply grows_ok|]. intros _. eapply cur_live_grows; [done..|]. apply exec_cur.
  - specialize (Hc eq_refl). split; [by apply yield_ok|done].
  - specialize (Hc eq_refl). split; [by apply exit_ok|done].
  - destruct (pick_ok k Hk) as [Hok Hl]. split; [done|]. destruct (sched_pick k).1; [|done]. intros _. by apply Hl.
  - unfold preempt_mark_pending. by case_match.
  - done.
Qed.

Lemma usteps_safe s s' : rtc ustep s s' -> safe s -> safe s'.
Proof using HQ. induction 1; eauto using ustep_safe. Qed.
End safety.
