(* ===== verification/KernTheorems.v ===== *)
(** * KernTheorems: what the kernel guarantees, and where it does not

    Theorems about whole histories of the kernel (who can hold which
    capability, who gets to run), about messages end to end, and about the
    places where its parts do not fit each other.  Each is stated on the
    operations of [KernCalls], [KernSvc] and [KernFsImport]. *)

From S2P Require Import Prelude Frame KernHeap KernState KernPorts KernSched KernSvc KernCalls KernFsImport KernFacts KernSafety.

(** ** Messages *)

Lemma zlen_stamp uid d : zlen (stamp uid d) = zlen d.
Proof. unfold stamp. destruct (Z.leb_spec 8 (zlen d)); [|done]. rewrite zlen_splice; rewrite ?zlen_le_split; lia. Qed.

(** C3: Sent through one session's handle, received through another's: as many
    datagrams as the port's ring holds, each between 1 and 4096 bytes, are all
    accepted and come out in the order they went in, every byte as sent except
    the four bytes of the uid field, which carry the uid the kernel knows the
    sender by; then the queue is empty again. *)
Theorem ipc_in_order_with_identity {P : Platform} k a ha b hb g p live cap ds :
  reaches k a ha g p -> port_of k b hb = Some g -> p_kernel_endpoint p = false -> a ≠ 0 ->
  unawaited (p_name p) k -> ring_view p [] -> zlen ds <= MAX_Q -> Forall (fun d => 0 < zlen d <= MSG_MAX) ds ->
  heap_inv (k_heap k) live -> pool_ptr (k_heap k) + zlen ds * msg_room <= pool_end (k_heap k) -> MSG_MAX <= cap ->
  exists k1 k2, send_all a ha ds k = (replicate (length ds) 0, k1)
    /\ recv_all b hb cap (length ds) k1 = (map (fun d => (zlen d, stamp (sched_uid_of k a) d)) ds, k2)
    /\ port_recv b hb cap k2 = ((0, []), k2).
Proof.
  intros Hr Hb Hke Ha Hu Hv Hlen Hds Hi Hroom Hcap. destruct Hr as [Hg Hp].
  destruct (send_all_ok a ha g ds k p [] live) as (k1 & ms & f & Es & Hms & _ & Hc & _ & Hv1 & Hu1 & Hps); try done.
  exists k1. assert (reaches k1 b hb g (f p)) as Hr1 by (by eapply reaches_upd).
  destruct (recv_all_ok b hb g cap ms k1 (f p) [] Hr1) as (k2 & p2 & Er & Hr2 & Hv2); [by rewrite app_nil_r|].
  assert (length ms = length ds) as El. { rewrite <-(length_map m_data ms), Hms. by rewrite length_map. }
  exists k2. split; [done|]. split; [|by eapply port_recv_empty]. rewrite <-El, Er. f_equal.
  clear -Hms Hds Hcap. revert ms Hms. induction ds as [|d ds IH]; intros [|m ms] Hms; try done.
  injection Hms as Hd Hms.
  apply Forall_cons in Hds as [Hd1 Hds]. cbn [map]. rewrite (IH Hds _ Hms), Hd.
  rewrite take_ge by (pose proof (zlen_stamp (sched_uid_of k a) d); unfold zlen, MSG_MAX in *; lia).
  by rewrite zlen_stamp.
Qed.

(** ** Capabilities *)

Lemma in_use_sess k sid : in_use k sid = true <->
  sid < MAX_SESSIONS /\ exists x, sess k sid = Some x /\ s_state x ≠ S_FREE.
Proof.
  unfold in_use, state_of. rewrite andb_true_iff, negb_true_iff, bool_decide_eq_false, Z.ltb_lt.
  destruct (sess k sid) as [x|]; cbn; naive_solver.
Qed.

Lemma in_use_ident k sid x : in_use k sid = true -> sess k sid = Some x ->
  sched_uid_of k sid = s_uid x /\ sched_capmask_of k sid = s_capmask x.
Proof. unfold in_use, sched_uid_of, sched_capmask_of. intros -> ->. done. Qed.


(** ** The scheduler *)

Section fairness.
Context {P : Platform}.

(** Reaping a slot changes nothing but that slot, and only if it is a zombie. *)
Lemma reap_slot i k : exists f, k_sessions (reap i k).2 = alter f (Z.to_nat i) (k_sessions k)
  /\ (state_of k i ≠ S_ZOMBIE -> (reap i k).2 = k) /\ k_next_rr (reap i k).2 = k_next_rr k.
Proof.
  unfold reap. rewrite kbind. cbn [kget fst snd]. unfold state_of.
  destruct (sess k i) as [x|] eqn:Ex; [|exists id; by rewrite list_alter_id].
  destruct (bool_decide_reflect (s_state x = S_ZOMBIE)) as [Hx|]; [|exists id; by rewrite list_alter_id].
  cbn [negb]. set (fin := fun x => set_exit (-1) (set_state S_FREE x)).
  destruct (s_eng_live x), (negb (s_stack x =? 0)).
  - exists (fin ∘ (set_stack 0 ∘ set_live false)). rewrite <-!alter_alter. done.
  - exists (fin ∘ set_live false). rewrite <-!alter_alter. done.
  - exists (fin ∘ set_stack 0). rewrite <-!alter_alter. done.
  - exists fin. done.
Qed.

Lemma reap_other i j k : 0 <= i -> state_of k j ≠ S_ZOMBIE -> 0 <= j ->
  state_of (reap i k).2 j = state_of k j /\ k_next_rr (reap i k).2 = k_next_rr k.
Proof.
  intros Hi Hz Hj. destruct (reap_slot i k) as (f & Es & Hid & Hn). split; [|done].
  destruct (decide (i = j)) as [->|Hne]; [by rewrite Hid|]. unfold state_of, sess. rewrite Es.
  destruct (j <? 0); [done|]. by rewrite list_lookup_alter_ne by lia.
Qed.

Lemma reap_all_other l j : Forall (fun i => 0 <= i) l -> forall k, state_of k j ≠ S_ZOMBIE -> 0 <= j ->
  state_of (for_each l reap k).2 j = state_of k j /\ k_next_rr (for_each l reap k).2 = k_next_rr k.
Proof.
  induction 1 as [|i l Hi Hl IH]; intros k Hz Hj; [done|]. cbn [for_each]. rewrite kbind.
  destruct (reap_other i j k Hi Hz Hj) as [E1 E2]. rewrite <-E1, <-E2. apply IH; congruence.
Qed.

(** How many slots the pass looks at before slot [i]. *)
Definition ahead (k : K) (i : Z) : Z := (i - k_next_rr k) mod MAX_SESSIONS.

Lemma scan_lookup r j : (j < 12)%nat -> scan_order r !! j = Some ((r + Z.of_nat j) mod MAX_SESSIONS).
Proof.
  intros Hj. unfold scan_order. rewrite list_lookup_fmap, lookup_seq_lt by (unfold MAX_SESSIONS; lia). done.
Qed.

Lemma not_all_dead k i : 0 < i < MAX_SESSIONS -> state_of k i = S_RUNNABLE -> all_dead k = false.
Proof.
  intros Hi Hs. apply not_true_is_false. intros Hd. unfold all_dead in Hd. rewrite List.forallb_forall in Hd.
  unfold state_of, sess in Hs. rewrite (proj2 (Z.ltb_ge i 0)) in Hs by lia.
  destruct (k_sessions k !! Z.to_nat i) as [x|] eqn:Ex; [|done]. cbn in Hs.
  specialize (Hd x). unfold is_dead in Hd. rewrite Hs in Hd. apply (diff_false_true), Hd.
  apply list_elem_of_In, list_elem_of_lookup. exists (Z.to_nat i - 1)%nat. rewrite lookup_drop.
  by replace (1 + (Z.to_nat i - 1))%nat with (Z.to_nat i) by lia.
Qed.

Lemma first_runnable k k1 i : 0 < i < MAX_SESSIONS -> runnable k1 i = true ->
  exists j, findi (runnable k1) (scan_order (k_next_rr k)) = Some j /\ Z.of_nat j <= ahead k i.
Proof.
  intros Hi Hr. pose proof (Z.mod_pos_bound (i - k_next_rr k) MAX_SESSIONS ltac:(done)) as Hm. fold (ahead k i) in Hm.
  assert (scan_order (k_next_rr k) !! Z.to_nat (ahead k i) = Some i) as Hl.
  { rewrite scan_lookup by (unfold MAX_SESSIONS in *; lia). f_equal. rewrite Z2Nat.id by lia. unfold ahead.
    rewrite Zplus_mod_idemp_r. replace (k_next_rr k + (i - k_next_rr k)) with i by lia. apply Z.mod_small. lia. }
  destruct (findi _ _) as [j|] eqn:E.
  - exists j. split; [done|]. apply findi_Some in E as [_ Hlt].
    destruct (Z.le_gt_cases (Z.of_nat j) (ahead k i)); [done|]. rewrite (Hlt (Z.to_nat (ahead k i)) i) in Hr by (done || lia). done.
  - by rewrite (findi_None _ _ E _ _ Hl) in Hr.
Qed.

(** A pass with slot [i] runnable runs it, or a slot before it in the scan,
    and then fewer slots are ahead of it. *)
Lemma pick_closer k i : 0 < i < MAX_SESSIONS -> state_of k i = S_RUNNABLE ->
  exists j, (sched_pick k).1 = Some j /\ k_next_rr (sched_pick k).2 = (j + 1) mod MAX_SESSIONS
    /\ (j = i \/ (0 < j < MAX_SESSIONS /\ state_of (sched_pick k).2 i = S_RUNNABLE /\ ahead (sched_pick k).2 i < ahead k i)).
Proof.
  intros Hi Hs. unfold sched_pick. rewrite kbind. cbn [kget fst snd].
  rewrite (not_all_dead k i) by done.
  rewrite kbind. unfold sched_reap_zombies.
  destruct (reap_all_other session_slots i (ltac:(unfold session_slots; repeat constructor; lia)) k) as [Hs1 Hn1];
    [congruence|lia|].
  set (k1 := (for_each session_slots reap k).2) in *. rewrite kbind. cbn [kget fst snd].
  assert (exists j, findi (runnable k1) (scan_order (k_next_rr k1)) = Some j /\ Z.of_nat j <= ahead k i) as (j & Ej & Hj).
  { rewrite Hn1. apply first_runnable; [done|]. unfold runnable. rewrite (proj2 (Z.eqb_neq i 0)) by lia.
    by apply bool_decide_eq_true; congruence. }
  apply findi_Some in Ej as Hf. destruct Hf as [(y & Hy & Hr) _]. rewrite Ej. cbn. rewrite Hy.
  rewrite !kbind. cbn [kmod fst snd]. exists y. split; [done|]. split; [done|].
  destruct (decide (y = i)) as [|Hne]; [by left|right].
  rewrite Hn1 in Hy. pose proof (Z.mod_pos_bound (i - k_next_rr k) MAX_SESSIONS ltac:(done)) as Hm. fold (ahead k i) in Hm.
  rewrite scan_lookup in Hy by (unfold MAX_SESSIONS in *; lia). injection Hy as Hy.
  pose proof (Z.mod_pos_bound (k_next_rr k + Z.of_nat j) MAX_SESSIONS ltac:(done)) as Hm2.
  assert (y ≠ 0) by (intros ->; by unfold runnable in Hr).
  assert (ahead k i ≠ Z.of_nat j) as Hneq.
  { intros E. apply Hne. rewrite <-Hy, <-E. unfold ahead. rewrite Zplus_mod_idemp_r.
    replace (k_next_rr k + (i - k_next_rr k)) with i by lia. apply Z.mod_small. lia. }
  split; [lia|]. split.
  - unfold state_of, sess. cbn. rewrite (proj2 (Z.ltb_ge i 0)) by lia. rewrite list_lookup_alter_ne by lia.
    unfold state_of, sess in Hs1, Hs. rewrite (proj2 (Z.ltb_ge i 0)) in Hs1, Hs by lia. congruence.
  - unfold ahead. cbn. rewrite Zminus_mod_idemp_r, <-Hy.
    replace (i - ((k_next_rr k + Z.of_nat j) mod MAX_SESSIONS + 1)) with (i - 1 - (k_next_rr k + Z.of_nat j) mod MAX_SESSIONS) by lia.
    rewrite Zminus_mod_idemp_r. replace (i - 1 - (k_next_rr k + Z.of_nat j)) with (i - k_next_rr k - (Z.of_nat j + 1)) by lia.
    rewrite <-Zminus_mod_idemp_l. fold (ahead k i). rewrite Z.mod_small by lia. lia.
Qed.

(** The kernel before the [n]-th pass, when between two passes the session
    that was picked, interrupts and devices do [g]. *)
Fixpoint before_pass (g : nat -> K -> K) (k : K) (n : nat) : K :=
  match n with
  | O => k
  | S n => g n (sched_pick (before_pass g k n)).2
  end.

(** C10: The scheduler is fair: a session that is ready to run, and that
    whatever runs in between leaves ready, is picked within twelve passes, one
    for each slot of the session table. *)
Theorem round_robin_fair (g : nat -> K -> K) (k : K) (i : Z) :
  0 < i < MAX_SESSIONS -> state_of k i = S_RUNNABLE ->
  (forall n k', k_next_rr (g n k') = k_next_rr k') ->
  (forall n k', state_of k' i = S_RUNNABLE -> state_of (g n k') i = S_RUNNABLE) ->
  exists n, (n < 12)%nat /\ (sched_pick (before_pass g k n)).1 = Some i.
Proof.
  intros Hi Hs Hrr Hrun.
  enough (forall m, (exists n, (n < m)%nat /\ (sched_pick (before_pass g k n)).1 = Some i)
    \/ (state_of (before_pass g k m) i = S_RUNNABLE /\ ahead (before_pass g k m) i + Z.of_nat m <= 11)) as H.
  { destruct (H 12%nat) as [?|[_ Ha]]; [done|]. unfold ahead in Ha.
    pose proof (Z.mod_pos_bound (i - k_next_rr (before_pass g k 12)) MAX_SESSIONS ltac:(done)). lia. }
  induction m as [|m [(n & Hn & E)|[Hsm Ha]]].
  - right. split; [done|]. unfold ahead, MAX_SESSIONS. pose proof (Z.mod_pos_bound (i - k_next_rr k) 12). cbn. lia.
  - left. exists n. split; [lia|done].
  - destruct (pick_closer _ i Hi Hsm) as (j & Ej & Hj & [->|(_ & Hs' & Hlt)]); [left; exists m; split; [lia|done]|right].
    cbn [before_pass]. split; [by apply Hrun|]. unfold ahead in *. rewrite Hrr. lia.
Qed.

End fairness.


(** ** Every request is answered *)

Section answers.
Context {P : Platform}.

(** The queues and the routed calls. *)
Definition traffic (k : K) : list port * list pending := (k_ports k, k_tab k).

Record answer_frame (op seq : Z) (frame : list byte) : Prop := {
  af_len : 28 <= zlen frame <= MSG_MAX;
  af_op : Get16 frame 0 = op;
  af_seq : Get16 frame 2 = seq;
  af_uid : Get32 frame 4 = 0
}.

(** Running [m] from [k] changes no queue up to some point and then sends one
    reply, and nothing after it.  A KILL, op 3, empties queues first. *)
Definition answers (rt : route) (op seq : Z) (m : KM unit) (k : K) : Prop :=
  exists k1 frame b, (m k).2 = put_halted b (kernsvc_reply rt frame k1).2 /\ answer_frame op seq frame
    /\ (op ≠ 3 -> traffic k1 = traffic k).

Lemma answers_bind {A} rt op seq (m : KM A) f k :
  (op ≠ 3 -> keeps traffic m) -> (forall a k', answers rt op seq (f a) k') -> answers rt op seq (m ≫= f) k.
Proof.
  intros Hm Hf. destruct (Hf (m k).1 (m k).2) as (k1 & fr & b & E & Hfr & Ht).
  exists k1, fr, b. rewrite kbind. split_and!; [done..|]. intros H3. rewrite <-(Hm H3 k). by apply Ht.
Qed.

Lemma halted_id k : put_halted (k_halted k) k = k.
Proof. by destruct k. Qed.

Lemma reply_answers rt op seq frame k : answer_frame op seq frame -> answers rt op seq (kernsvc_reply rt frame) k.
Proof.
  intros Hf. exists k, frame, (k_halted (kernsvc_reply rt frame k).2). by rewrite halted_id.
Qed.

Lemma kframe_answers op seq body : 0 <= op < 2 ^ 16 -> 0 <= seq < 2 ^ 16 -> 4 <= zlen body <= MSG_MAX - 24 ->
  answer_frame op seq (kframe op seq body).
Proof.
  intros Ho Hs Hb. unfold kframe, MSG_MAX in *. split.
  - rewrite !zlen_app, !zlen_le_split, zlen_mkbuf by lia. unfold MSG_MAX. lia.
  - rewrite Get16_here, u16_small by done. done.
  - rewrite (Get16_skip _ _ 2 0), Get16_here, u16_small by (done || by rewrite zlen_le_split). done.
  - rewrite (Get32_skip _ _ 4 2), (Get32_skip _ _ 2 0), Get32_here by (done || by rewrite zlen_le_split). done.
Qed.

Lemma respond_answers rt op seq body k : 0 <= op < 2 ^ 16 -> 0 <= seq < 2 ^ 16 -> 4 <= zlen body <= MSG_MAX - 24 ->
  answers rt op seq (respond rt op seq body) k.
Proof. intros. apply answers_bind; [intros; keeps|]. intros _ k'. by apply reply_answers, kframe_answers. Qed.

Lemma nack_answers rt op seq k : 0 <= op < 2 ^ 16 -> 0 <= seq < 2 ^ 16 -> answers rt op seq (kernsvc_nack rt op seq) k.
Proof.
  intros Ho Hs. apply reply_answers. split.
  - rewrite !zlen_app, !zlen_le_split. unfold MSG_MAX, zlen, mkbuf. rewrite length_take, length_app, length_replicate. lia.
  - rewrite Get16_here, u16_small by done. done.
  - rewrite (Get16_skip _ _ 2 0), Get16_here, u16_small by (done || by rewrite zlen_le_split). done.
  - rewrite (Get32_skip _ _ 4 2), (Get32_skip _ _ 2 0), Get32_here by (done || by rewrite zlen_le_split). done.
Qed.

Lemma knack_answers rt op seq k : 0 <= op < 2 ^ 16 -> 0 <= seq < 2 ^ 16 -> answers rt op seq (knack rt op seq) k.
Proof. intros. apply respond_answers; [done..|]. rewrite zlen_le_split. unfold MSG_MAX. lia. Qed.

Lemma zlen_status rc : zlen (status rc) = 4.
Proof. unfold status. by rewrite zlen_le_split. Qed.


Lemma engine_init_traffic b : keeps traffic (k_engine_init b).
Proof. intros k. unfold k_engine_init. by destruct (engine_init b (k_heap k)). Qed.
Lemma mm_alloc_traffic n a : keeps traffic (k_mm_alloc n a).
Proof. intros k. unfold k_mm_alloc. by destruct (mm_alloc n a (k_heap k)). Qed.
Lemma ensure_traffic sid n : keeps traffic (sched_session_ensure_bytes sid n).
Proof.
  unfold sched_session_ensure_bytes. keeps. intros k. unfold k_engine_ensure_memory.
  by destruct (engine_ensure_memory sid n (k_heap k)).
Qed.
Hint Resolve engine_init_traffic mm_alloc_traffic ensure_traffic : keeps.
Lemma spawn_traffic name uid cap m argv : keeps traffic (sched_spawn_image name uid cap m argv).
Proof.
  unfold sched_spawn_image, sched_spawn_named_argv, spawn_impl, console_mm, k_engine_shutdown, k_rt_free. keeps.
Qed.
Lemma grow_for_traffic m sid : keeps traffic (grow_for m sid).
Proof. unfold grow_for, netwin_attach. keeps. Qed.
Lemma knob_set_traffic i v : keeps traffic (sched_knob_set i v).
Proof. unfold sched_knob_set. keeps. Qed.
Lemma identity_traffic s u c : keeps traffic (sched_set_identity s u c).
Proof. unfold sched_set_identity. keeps. Qed.
Lemma capmask_traffic s c t r : keeps traffic (sched_set_capmask s c t r).
Proof. unfold sched_set_capmask. keeps. Qed.
Lemma assign_traffic t b d f c : keeps traffic (vfio_assign_pci t b d f c).
Proof. unfold vfio_assign_pci. keeps. Qed.
Hint Resolve spawn_traffic grow_for_traffic knob_set_traffic identity_traffic capmask_traffic assign_traffic : keeps.
Lemma apply_conf_traffic key v : keeps traffic (apply_conf key v).
Proof. unfold apply_conf, conf_set_quantum_us, conf_set_preempt. keeps. Qed.
Hint Resolve apply_conf_traffic : keeps.

Lemma answers_get {A} rt op seq (g : K -> A) f k : answers rt op seq (f (g k)) k -> answers rt op seq (kget g ≫= f) k.
Proof. done. Qed.

Lemma respond_halt rt op seq body k : 0 <= op < 2 ^ 16 -> 0 <= seq < 2 ^ 16 -> 4 <= zlen body <= MSG_MAX - 24 ->
  answers rt op seq (_ ← respond rt op seq body; kmod (put_halted true)) k.
Proof.
  intros Ho Hs Hb. destruct (respond_answers rt op seq body k Ho Hs Hb) as (k1 & fr & b & E & Hf & Ht).
  exists k1, fr, true. rewrite kbind, E. done.
Qed.

(** Walks through a handler to the replies at its ends. *)
Ltac answer :=
  repeat lazymatch goal with
    | |- answers _ _ _ (mbind _ (kget _)) _ => apply answers_get
    | |- answers _ _ _ (mbind _ (respond _ _ _ (status _))) _ =>
        apply respond_halt; [done..|rewrite zlen_status; unfold MSG_MAX; lia]
    | |- answers _ _ _ (mbind _ _) _ => apply answers_bind; [intros; unfold conf_set_quantum_us; keeps|intros ? ?]
    | |- answers _ _ _ (knack _ _ _) _ => apply knack_answers; done
    | |- answers _ _ _ (kernsvc_nack _ _ _) _ => apply nack_answers; done
    | |- answers _ _ _ (respond _ _ _ (status _)) _ =>
        apply respond_answers; [done..|rewrite zlen_status; unfold MSG_MAX; lia]
    | |- answers _ _ _ (match _ with _ => _ end) _ => case_match
    end.

Lemma zlen_mjoin_le {A} (l : list (list A)) n : Forall (fun x => zlen x <= n) l -> 0 <= zlen (mjoin l) <= n * zlen l.
Proof.
  induction 1 as [|x l Hx Hl IH]; [unfold zlen; cbn; lia|]. change (mjoin (x :: l)) with (x ++ mjoin l).
  rewrite zlen_app, zlen_cons. pose proof (zlen_nonneg x). lia.
Qed.

Lemma zlen_slice_le {A} (l : list A) lo hi : zlen (slice l lo hi) <= Z.max 0 (hi - lo).
Proof. unfold zlen. rewrite length_slice. lia. Qed.

(** The bodies of the replies with more than a status fit the buffer. *)
Lemma body_list k : 4 <= zlen (le_split 4 (zlen (sched_list k (Z.to_nat MAX_SESSIONS)))
    ++ mjoin (map (list_rec k) (sched_list k (Z.to_nat MAX_SESSIONS)))) <= MSG_MAX - 24.
Proof.
  rewrite zlen_app, zlen_le_split. set (l := sched_list k _).
  assert (zlen l <= 12). { unfold l, sched_list, zlen. rewrite length_take. unfold MAX_SESSIONS. lia. }
  destruct (zlen_mjoin_le (map (list_rec k) l) 26) as [H0 H1].
  - apply Forall_map, Forall_forall. intros [[[sid uid] state] name] Hin. unfold l, sched_list in Hin.
    apply elem_of_take in Hin as (i & Hin & _). apply list_elem_of_lookup_2, list_elem_of_fmap in Hin as ([j x] & [= -> -> -> ->] & _).
    cbn [list_rec slist_rec fst snd]. rewrite !zlen_app, !zlen_le_split, !zlen_cons, zlen_nil.
    unfold zlen. rewrite length_take. lia.
  - unfold zlen in *. rewrite length_map in H1. unfold MSG_MAX. lia.
Qed.

Lemma body_caps mask (l : list Z) : l = cap_bits mask \/ l = [] ->
  4 <= zlen (le_split 4 (zlen (cap_bits mask)) ++ mjoin (map cap_rec l)) <= MSG_MAX - 24.
Proof.
  intros Hl. rewrite zlen_app, zlen_le_split.
  assert (zlen l <= 13).
  { destruct Hl as [-> | ->]; [|done]. unfold zlen, cap_bits.
    pose proof (length_filter (fun b => Z.testbit mask b = true) (map Z.of_nat (List.seq 0 13))) as Hf.
    rewrite length_map, length_seq in Hf. lia. }
  destruct (zlen_mjoin_le (map cap_rec l) 12) as [H0 H1].
  - apply Forall_map, Forall_true. intros b. unfold cap_rec. by rewrite !zlen_app, !zlen_le_split.
  - unfold zlen in *. rewrite length_map in H1. unfold MSG_MAX. lia.
Qed.

Lemma body_logdump off k : 4 <= zlen (let '(got, total, begin) := log_read off 4000 (k_log k) in
    le_split 4 0 ++ le_split 8 total ++ le_split 8 begin ++ slice (k_rbuf k) 44 48 ++ got) <= MSG_MAX - 24.
Proof.
  unfold log_read. rewrite !zlen_app, !zlen_le_split. pose proof (zlen_slice_le (k_rbuf k) 44 48).
  pose proof (zlen_nonneg (slice (k_rbuf k) 44 48)).
  unfold zlen at 2 4. rewrite length_map, length_seq. unfold MSG_MAX. repeat case_match; lia.
Qed.

Lemma body_knob v i : 4 <= zlen (le_split 4 0 ++ le_split 8 v ++ knob_key i) <= MSG_MAX - 24.
Proof.
  rewrite !zlen_app, !zlen_le_split. assert (0 <= zlen (knob_key i) <= 16); [|unfold MSG_MAX; lia].
  unfold knob_key. case_match; [unfold zlen; rewrite length_take; lia|by rewrite zlen_mkbuf].
Qed.

Lemma body_dev k sid : 4 <= zlen (le_split 4 (zlen (dev_recs k sid)) ++ mjoin (dev_recs k sid)) <= MSG_MAX - 24.
Proof.
  rewrite zlen_app, zlen_le_split. destruct (zlen_mjoin_le (dev_recs k sid) 16) as [H0 H1].
  - unfold dev_recs. apply Forall_app. split; [case_match; repeat constructor|]; try (apply Forall_map, Forall_true; intros ?);
      unfold pci_rec, dev_rec; by rewrite !zlen_app, !zlen_le_split.
  - assert (zlen (dev_recs k sid) <= 16); [|unfold MSG_MAX; lia]. unfold dev_recs, zlen.
    rewrite length_app, length_map, length_take. case_match; cbn [length]; lia.
Qed.

Lemma svc_answers rt op seq payload k : 0 <= op < 2 ^ 16 -> 0 <= seq < 2 ^ 16 ->
  answers rt op seq (registry_dispatch rt op seq payload) k.
Proof.
  intros Ho Hs. unfold registry_dispatch. apply answers_get.
  assert (answers rt op seq (svc_refuse rt op seq) k) as Href by (unfold svc_refuse; answer).
  repeat case_match; try done; unfold svc_list, svc_caps, svc_kill, svc_spawn, svc_login, svc_setconf, svc_assign_pci,
    svc_sysstat, svc_logdump, svc_chcaps, svc_knobs_get, svc_knobs_set, svc_perfstat; cbv zeta; answer; try done.
  all: apply respond_answers; try done.
  - apply body_knob.
  - apply body_logdump.
  - apply body_caps. case_match; auto.
  - apply body_list.
Qed.

(** C8: Every request is answered, once.  A datagram of at least a header sent
    to [registry], [devman] or [power], whatever its operation, payload and
    sender, makes the kernel send exactly one reply, as the last thing it does;
    the reply fits a datagram, carries a status or a body and the request's
    operation and sequence number, and its uid is the kernel's.  Except for
    KILL, which empties the victim's queue entries first, no other message is
    queued, taken or lost on the way. *)
Theorem kernel_answers_every_request (ep : list byte) (sid h : Z) (data : list byte) (k : K) :
  streq ep (bs "registry") || streq ep (bs "devman") || streq ep (bs "power") = true -> 24 <= zlen data ->
  exists k1 frame b,
    (kernsvc_dispatch ep sid h data k).2
      = put_halted b (kernsvc_reply (mkRoute (slice data 8 24) sid h) frame k1).2
    /\ 28 <= zlen frame <= MSG_MAX /\ Get16 frame 0 = Get16 data 0 /\ Get16 frame 2 = Get16 data 2
    /\ Get32 frame 4 = 0
    /\ (Get16 data 0 ≠ 3 -> k_ports k1 = k_ports k /\ k_tab k1 = k_tab k).
Proof.
  intros Hep Hl. pose proof (Get16_range data 0) as Ho. pose proof (Get16_range data 2) as Hs.
  enough (answers (mkRoute (slice data 8 24) sid h) (Get16 data 0) (Get16 data 2) (kernsvc_dispatch ep sid h data) k)
    as (k1 & frame & b & E & [[? ?] ? ? ?] & Ht).
  { exists k1, frame, b. split_and!; try done. intros H3. by injection (Ht H3). }
  unfold kernsvc_dispatch. rewrite (proj2 (Z.ltb_ge _ _)) by lia. cbv zeta.
  apply answers_bind; [intros; keeps|]. intros _ k'.
  destruct (streq ep (bs "registry")); [by apply svc_answers|].
  destruct (streq ep (bs "devman")); [|destruct (streq ep (bs "power")); [|done]].
  - unfold devman_dispatch. answer. rewrite (proj1 (Z.eqb_eq _ _) ltac:(eassumption)).
    apply respond_answers; [done..|apply body_dev].
  - unfold power_dispatch. answer.
Qed.
End answers.

(** ** Names with a NUL *)

Section login.
Context {P : Platform}.

Definition login_nul : list byte := bs "login" ++ [Byte.x00].

(** No port's name equals a name with a NUL in it. *)
Lemma nul_name_is_new name ps : Byte.x00 ∈ name -> existsb (has_name name) ps = false.
Proof.
  intros Hn. apply not_true_is_false. rewrite existsb_exists. intros (p & _ & Hp).
  apply andb_true_iff in Hp as [_ Hp%name_eq_spec]. rewrite Hp in Hn. by apply cstr16_no_nul in Hn.
Qed.

Lemma free_handle_row k sid h : free_handle k sid = Some h ->
  exists row g, k_htab k !! Z.to_nat sid = Some row /\ row !! h = Some g /\ g < 0.
Proof.
  unfold free_handle. destruct (k_htab k !! Z.to_nat sid) as [row|]; [|done].
  intros [(g & Hg & Hlt) _]%findi_Some. apply Z.ltb_lt in Hlt. eauto.
Qed.

Lemma port_create_fresh k sid name gp h :
  sched_alive k sid = true -> 0 < zlen name <= 15 -> existsb (has_name name) (k_ports k) = false ->
  findi is_free (k_ports k) = Some gp -> free_handle k sid = Some h ->
  port_create sid name k
    = (Z.of_nat h, set_htab sid (Z.of_nat h) (Z.of_nat gp) (upd_port (Z.of_nat gp) (open_port false sid name) k)).
Proof.
  intros Ha Hn He Hg Hh. destruct (alive_sess _ _ Ha) as [Hpos _]. unfold port_create.
  rewrite (proj2 (Z.eqb_neq _ 0)), (proj2 (Z.ltb_ge 15 _)), (proj2 (Z.eqb_neq sid 0)), Ha by lia. cbn [orb negb].
  rewrite He, Hg. unfold free_handle in *. cbn. rewrite Hh. done.
Qed.

(** The session owns [login] after the call. *)
Lemma login_nul_owner k sid gp h :
  sched_alive k sid = true -> sid < MAX_SESSIONS -> findi is_free (k_ports k) = Some gp -> Z.of_nat gp < MAX_PORTS ->
  free_handle k sid = Some h ->
  sched_is_login (port_create sid login_nul k).2 sid = true.
Proof.
  intros Ha Hs Hg Hgp Hh. rewrite (port_create_fresh k sid login_nul gp h); try done.
  2: { apply nul_name_is_new. unfold login_nul. set_solver. }
  destruct (free_handle_row _ _ _ Hh) as (row & g & Hrow & Hg0 & _). destruct (alive_sess _ _ Ha) as [Hpos _].
  apply findi_Some in Hg as [(p & Hp & _) _].
  unfold sched_is_login, ports_name_owned_by. rewrite (proj2 (Z.leb_gt _ _)), (proj2 (Z.eqb_neq sid 0)) by lia. cbn [orb].
  apply existsb_exists. exists (Z.of_nat gp). split.
  - apply list_elem_of_In, list_elem_of_lookup. exists h. cbn. rewrite list_lookup_alter_eq, Hrow. cbn.
    rewrite Nat2Z.id, list_lookup_insert_eq; [done|]. by eapply lookup_lt_Some.
  - rewrite (proj2 (Z.leb_le _ _)), (proj2 (Z.ltb_lt _ _)) by lia. cbn [andb]. unfold port_at. cbn.
    rewrite (proj2 (Z.ltb_ge _ _)), Nat2Z.id, list_lookup_alter_eq, Hp by lia. cbn. rewrite Z.eqb_refl. done.
Qed.

(** A LOGIN request for the session named [name]. *)
Definition login_request (seq : Z) (name : list byte) (uid mask : Z) : list byte :=
  FrameCanonical 5 seq [] (padName name ++ le_split 4 uid ++ le_split 4 mask).

Lemma FrameCanonical_direct op seq payload :
  FrameCanonical op seq [] payload = (le_split 2 op ++ le_split 2 seq) ++ mkbuf 4 ++ mkbuf 16 ++ payload.
Proof. reflexivity. Qed.

Lemma stamp_frame uid op seq payload :
  stamp uid (FrameCanonical op seq [] payload) = le_split 2 op ++ le_split 2 seq ++ le_split 4 uid ++ mkbuf 16 ++ payload.
Proof.
  rewrite FrameCanonical_direct. unfold stamp. rewrite !zlen_app, !zlen_le_split, !zlen_mkbuf by lia.
  pose proof (zlen_nonneg payload). rewrite (proj2 (Z.leb_le _ _)) by lia.
  unfold splice. rewrite take_app_length' by done. rewrite <-!app_assoc. do 3 f_equal.
Qed.

(** Session [t] has the given uid and mask. *)
Definition minted (t uid mask : Z) (k : K) : Prop := sched_uid_of k t = uid /\ sched_capmask_of k t = mask.

Lemma minted_ext t uid mask k k' : k_sessions k' = k_sessions k -> minted t uid mask k -> minted t uid mask k'.
Proof. intros E. unfold minted, sched_uid_of, sched_capmask_of, state_of, sess. by rewrite E. Qed.

Lemma in_use_ext k k' t : k_sessions k' = k_sessions k -> in_use k' t = in_use k t.
Proof. intros E. unfold in_use, state_of, sess. by rewrite E. Qed.

Lemma upd_sess_at k t f x : 0 <= t -> sess k t = Some x -> sess (upd_sess t f k) t = Some (f x).
Proof.
  intros Ht. unfold sess. cbn. rewrite (proj2 (Z.ltb_ge t 0)) by lia. intros Hx. by rewrite list_lookup_alter_eq, Hx.
Qed.

Lemma minted_sess k t x : in_use k t = true -> sess k t = Some x -> minted t (s_uid x) (s_capmask x) k.
Proof. intros Hu Hx. by destruct (in_use_ident k t x Hu Hx). Qed.

Lemma set_identity_mints k t uid mask : 0 <= t -> in_use k t = true -> minted t uid mask (sched_set_identity t uid mask k).2.
Proof.
  intros Ht Hu. pose proof Hu as (Hlt & x & Hx & Hf)%in_use_sess.
  set (f := fun x => set_source 0 (set_ident uid mask x)).
  assert (sess (upd_sess t f k) t = Some (f x)) as Hx' by (by apply upd_sess_at).
  apply (minted_ext _ _ _ (upd_sess t f k)).
  - unfold sched_set_identity. rewrite kbind. cbn [kget fst snd]. rewrite Hu. done.
  - apply (minted_sess _ _ (f x)); [|done]. apply in_use_sess. split; [done|]. by exists (f x).
Qed.

Lemma set_capmask_mints k t uid mask src : 0 <= t -> in_use k t = true -> minted t uid mask k ->
  minted t uid mask (sched_set_capmask t 0 mask src k).2.
Proof.
  intros Ht Hu Hm. pose proof Hu as (Hlt & x & Hx & Hf)%in_use_sess.
  destruct (minted_sess k t x Hu Hx) as [Eu Ec]. destruct Hm as [Eu' Ec'].
  set (f := fun x => set_source src (set_ident (s_uid x) (Z.lor (Z.ldiff (s_capmask x) 0) mask) x)).
  assert (sess (upd_sess t f k) t = Some (f x)) as Hx' by (by apply upd_sess_at).
  apply (minted_ext _ _ _ (upd_sess t f k)).
  - unfold sched_set_capmask. rewrite kbind. cbn [kget fst snd]. rewrite Hu. done.
  - assert (f x = set_source src (set_ident uid mask x)) as E.
    { unfold f. rewrite Z.ldiff_0_r. f_equal. f_equal; [congruence|]. replace (s_capmask x) with mask by congruence.
      apply Z.lor_diag. }
    rewrite E in Hx'. apply (minted_sess _ _ (set_source src (set_ident uid mask x))); [|done]. apply in_use_sess.
    split; [done|]. by eexists.
Qed.

(** A step that leaves part of the kernel alone, before the rest. *)
Lemma quiet_bind {A B C} (g : K -> C) (Q : K -> Prop) (m : KM A) (f : A -> KM B) k : keeps g m ->
  (forall a k', g k' = g k -> Q (f a k').2) -> Q ((m ≫= f) k).2.
Proof. intros Hm Hf. rewrite kbind. apply Hf, Hm. Qed.

Lemma svc_login_mints rt op seq payload k t :
  sched_is_login k (g_from_sid rt) = true -> 24 <= zlen payload ->
  sched_session_by_name k (cstr16 (slice payload 0 16)) = t -> 0 <= t -> in_use k t = true ->
  minted t (Get32 payload 16) (Get32 payload 20) (svc_login rt op seq payload k).2.
Proof.
  intros Hl Hp Ht Ht0 Hu. unfold svc_login. rewrite kbind. cbn [kget fst snd]. rewrite Hl. cbn [negb].
  rewrite (proj2 (Z.ltb_ge _ _)) by lia. do 2 (rewrite kbind; cbn [kget fst snd]).
  rewrite Hl, orb_true_r, andb_false_r. rewrite kbind. cbn [kget fst snd]. rewrite Ht.
  set (uid := Get32 payload 16). set (mask := Get32 payload 20).
  rewrite (proj2 (Z.ltb_ge t 0)) by lia.
  assert (forall k', k_sessions k' = k_sessions k -> minted t uid mask
    ((_ ← sched_set_identity t uid mask; init ← kget (fun k => sched_is_init k (g_from_sid rt));
      _ ← (if (init : bool) then sched_set_capmask t 0 mask 2 else mret 0); respond rt 5 seq (status 0)) k').2) as Hrest.
  { intros k' Es. rewrite kbind. assert (in_use k' t = true) as Hu' by (by rewrite (in_use_ext k)).
    pose proof (set_identity_mints k' t uid mask Ht0 Hu') as Hm. set (k2 := (sched_set_identity t uid mask k').2) in *.
    rewrite kbind. cbn [kget fst snd]. rewrite kbind.
    apply (minted_ext _ _ _ _ _ (respond_sessions rt 5 seq (status 0) _)).
    destruct (sched_is_init k2 _); [|done]. apply set_capmask_mints; [done| |done].
    unfold k2. apply in_use_sess in Hu' as (Hlt & x & Hx & Hf). apply in_use_sess. split; [done|].
    unfold sched_set_identity. rewrite kbind. cbn [kget fst snd]. rewrite (in_use_ext k), Hu by done.
    eexists. split; [by apply (upd_sess_at k' t _ x)|done]. }
  do 5 (apply (quiet_bind k_sessions); [keeps|]; intros _ ? E; rewrite <-?E in Hrest; clear E).
  by apply Hrest.
Qed.
(** The new port takes neither another port's place nor another handle's. *)
Lemma reaches_created k sid hr g p gp h name :
  reaches k sid hr g p -> findi is_free (k_ports k) = Some gp -> free_handle k sid = Some h ->
  reaches (set_htab sid (Z.of_nat h) (Z.of_nat gp) (upd_port (Z.of_nat gp) (open_port false sid name) k)) sid hr g p.
Proof.
  intros [Ho Hp] Hg Hh. destruct (free_handle_row _ _ _ Hh) as (row & g0 & Hrow & Hg0 & Hneg).
  apply findi_Some in Hg as [(q & Hq & Hfree) _]. unfold port_of in *.
  destruct (_ || _ || _) eqn:Eb; [done|]. cbv zeta in *. destruct ((_ <? 0) || _) eqn:Er in Ho; [done|].
  destruct (port_at k (htab_at k sid hr)) as [p'|] eqn:Ep; [|done]. destruct (p_used p') eqn:Eu; [|done]. injection Ho as Eg.
  rewrite Eg in Er, Ep. rewrite Hp in Ep. injection Ep as <-.
  pose proof Er as [Er0%Z.ltb_ge _]%orb_false_iff. pose proof Eb as [[_ Eb0%Z.ltb_ge]%orb_false_iff _]%orb_false_iff.
  assert (Z.to_nat hr ≠ h) as Hne.
  { intros <-. rewrite <-Eg in Er0. revert Er0. unfold htab_at. rewrite Hrow. cbn. rewrite Hg0. cbn. lia. }
  assert (gp ≠ Z.to_nat g) as Hgp.
  { intros ->. unfold port_at in Hp. rewrite (proj2 (Z.ltb_ge g 0)) in Hp by lia. rewrite Hp in Hq. injection Hq as <-.
    unfold is_free in Hfree. by rewrite Eu in Hfree. }
  set (k1 := set_htab _ _ _ _).
  assert (htab_at k1 sid hr = g) as Eh.
  { rewrite <-Eg. unfold htab_at. cbn. rewrite list_lookup_alter_eq, Hrow. cbn.
    by rewrite Nat2Z.id, list_lookup_insert_ne by done. }
  assert (port_at k1 g = Some p) as Ep1.
  { rewrite <-Hp. unfold port_at. destruct (g <? 0); [done|]. cbn. by rewrite Nat2Z.id, list_lookup_alter_ne by done. }
  split; [|done]. unfold port_of. rewrite Eb. cbv zeta. by rewrite Eh, Er, Ep1, Eu.
Qed.

Lemma login_ext k k' sid : k_htab k' = k_htab k -> k_ports k' = k_ports k -> sched_is_login k' sid = sched_is_login k sid.
Proof. intros E1 E2. unfold sched_is_login, ports_name_owned_by, port_at. by rewrite E1, E2. Qed.

(** A LOGIN request to the registry from the owner of [login]. *)
Lemma login_dispatch_mints k ep sid hr u seq name uid mask t :
  streq ep (bs "registry") = true -> sched_is_login k sid = true -> zlen name <= 16 -> Byte.x00 ∉ name ->
  sched_session_by_name k name = t -> 0 <= t -> in_use k t = true ->
  0 <= uid < 2 ^ 32 -> 0 <= mask < 2 ^ 32 ->
  minted t uid mask (kernsvc_dispatch ep sid hr (stamp u (login_request seq name uid mask)) k).2.
Proof.
  intros Hep Hl Hn Hnul Ht Ht0 Hu Huid Hmask. unfold login_request. rewrite stamp_frame.
  set (payload := padName name ++ le_split 4 uid ++ le_split 4 mask).
  assert (zlen payload = 24) as Hlen by (unfold payload; by rewrite !zlen_app, !zlen_le_split, zlen_padName).
  set (data := le_split 2 5 ++ _). unfold kernsvc_dispatch.
  assert (zlen data = 48) as Hd.
  { unfold data. by rewrite !zlen_app, !zlen_le_split, zlen_mkbuf, Hlen by lia. }
  assert (Get16 data 0 = 5) as Eop by (unfold data; by rewrite Get16_here).
  assert (drop 24 data = payload) as Epay.
  { unfold data. rewrite !app_assoc. apply drop_app_length'. by rewrite !length_app, !length_le_split. }
  rewrite Hd, Eop, Epay. change (48 <? 24) with false. cbv zeta iota. change (is_routine_poll 5) with false. cbv iota.
  apply (quiet_bind (fun k => (k_sessions k, k_htab k, k_ports k))); [keeps|]. intros _ k' [= Es Eh Eps].
  rewrite Hep. unfold registry_dispatch. rewrite kbind. cbn [kget fst snd].
  assert (Get32 payload 16 = uid) as E16.
  { unfold payload. rewrite (Get32_skip _ _ 16 0), Get32_here, u32_small by (done || by rewrite zlen_padName). done. }
  assert (Get32 payload 20 = mask) as E20.
  { unfold payload. rewrite (Get32_skip _ _ 20 4), (Get32_skip _ _ 4 0), <-(app_nil_r (le_split 4 mask)), Get32_here, u32_small
      by (done || by rewrite ?zlen_padName, ?zlen_le_split). done. }
  rewrite <-E16, <-E20. apply svc_login_mints; [|lia| |done|by rewrite (in_use_ext k)].
  - by rewrite (login_ext k).
  - unfold payload. rewrite slice_here by (by rewrite zlen_padName). rewrite cstr16_padName by done.
    unfold sched_session_by_name in *. by rewrite Es.
Qed.

(** C36: A session without any capability can give itself any identity.  The
    kernel compares a new port's name byte for byte with the names in use, but
    reads names as C strings afterwards, so a port named [login] followed by a
    NUL is accepted beside the real one and makes its creator the owner of
    [login].  A session with a handle to the registry that then sends a LOGIN
    request for its own name has the uid and the capability mask it asked for. *)
Theorem nul_name_mints_capabilities k sid gp h hr g p seq name uid mask :
  sched_alive k sid = true -> sid < MAX_SESSIONS -> findi is_free (k_ports k) = Some gp -> Z.of_nat gp < MAX_PORTS ->
  free_handle k sid = Some h -> reaches k sid hr g p -> p_kernel_endpoint p = true -> streq (p_name p) (bs "registry") = true ->
  zlen name <= 16 -> Byte.x00 ∉ name -> sched_session_by_name k name = sid ->
  0 <= uid < 2 ^ 32 -> 0 <= mask < 2 ^ 32 ->
  let k1 := (exec sid (PortCreate login_nul) k).2 in
  let k2 := (exec sid (PortSend hr (login_request seq name uid mask)) k1).2 in
  sched_uid_of k2 sid = uid /\ sched_capmask_of k2 sid = mask.
Proof.
  intros Ha Hs Hgp Hlt Hh Hr Hke Hreg Hn Hnul Hname Huid Hmask k1 k2. destruct (alive_sess _ _ Ha) as [Hpos (x & Hx & Hf & _)].
  pose proof (login_nul_owner k sid gp h Ha Hs Hgp Hlt Hh) as Hl.
  pose proof (reaches_created k sid hr g p gp h login_nul Hr Hgp Hh) as [Ho1 Hp1].
  assert (k1 = (port_create sid login_nul k).2) as E1 by (unfold k1, exec; by rewrite kbind).
  rewrite <-E1 in Hl. rewrite (port_create_fresh k sid login_nul gp h) in E1; try done.
  2: { apply nul_name_is_new. unfold login_nul. set_solver. }
  cbn [snd] in E1. rewrite <-E1 in Ho1, Hp1.
  assert (k_sessions k1 = k_sessions k) as Es by (by rewrite E1). clearbody k1. clear E1.
  set (data := login_request seq name uid mask) in *. assert (zlen data = 48) as Hd.
  { unfold data, login_request. rewrite FrameCanonical_direct.
    by rewrite !zlen_app, !zlen_le_split, !zlen_mkbuf, zlen_padName by lia. }
  change (minted sid uid mask k2). unfold k2, exec. rewrite kbind. unfold port_send. rewrite kbind. cbn [kget fst snd].
  rewrite Ho1. cbn [mbind option_bind]. rewrite Hp1. cbn [fmap option_fmap option_map]. rewrite Hd.
  change ((48 =? 0) || (MSG_MAX <? 48)) with false. cbv iota. rewrite kbind. cbn [kget fst snd].
  rewrite Hke, (proj2 (Z.eqb_neq sid 0)) by lia. cbn [andb negb]. rewrite kbind, kbind.
  match goal with |- minted _ _ _ (mret ?r ?k').2 => change (minted sid uid mask k') end.
  eapply minted_ext; [apply core_sessions, count_send_core|].
  apply login_dispatch_mints; try done; [|lia|].
  - unfold sched_session_by_name in *. by rewrite Es.
  - rewrite (in_use_ext k) by done. apply in_use_sess. split; [done|]. exists x. split; [|done].
    unfold sess. by rewrite (proj2 (Z.ltb_ge sid 0)) by lia.
Qed.
End login.

(** ** On the example kernel *)

Lemma ipc_in_order_with_identity_witness : exists k1 k2,
  send_all 2 1 [bs "hello, mail"; bs "bye"] demo = ([0; 0], k1)
  /\ recv_all 1 1 4096 2 k1
     = ([(11, stamp 7 (bs "hello, mail")); (3, stamp 7 (bs "bye"))], k2)
  /\ port_recv 1 1 4096 k2 = ((0, []), k2).
Proof.
  refine (ipc_in_order_with_identity demo 2 1 1 1 1 (demo_port false 1 (bs "mail")) ∅ 4096 [bs "hello, mail"; bs "bye"]
    (conj eq_refl eq_refl) eq_refl eq_refl ltac:(done) (demo_unawaited _) demo_mail_empty ltac:(done) _ demo_heap_inv _ ltac:(done)).
  - apply Forall_cons; split; [by split|]. apply Forall_cons; split; [by split|apply Forall_nil; done].
  - vm_compute. done.
Defined.

Definition demo_tick : K * bool := ((preempt_mark_pending 2 demo).2, true).


Lemma round_robin_fair_witness : exists n, (n < 12)%nat /\ (sched_pick (before_pass (fun _ k => k) demo n)).1 = Some 1.
Proof. apply (round_robin_fair (fun _ k => k) demo 1); [done|reflexivity|done|done]. Defined.

Lemma kernel_answers_every_request_witness : exists k1 frame b,
  (kernsvc_dispatch (bs "registry") 2 0 (FrameCanonical 1 5 [] []) demo).2
    = put_halted b (kernsvc_reply (mkRoute (slice (FrameCanonical 1 5 [] []) 8 24) 2 0) frame k1).2
  /\ 28 <= zlen frame <= MSG_MAX /\ Get16 frame 0 = 1 /\ Get16 frame 2 = 5 /\ Get32 frame 4 = 0
  /\ (1 ≠ 3 -> k_ports k1 = k_ports demo /\ k_tab k1 = k_tab demo).
Proof. apply (kernel_answers_every_request (bs "registry") 2 0 (FrameCanonical 1 5 [] []) demo); done. Defined.

Lemma nul_name_mints_capabilities_witness :
  sched_capmask_of demo 2 = 0
  /\ let k1 := (exec 2 (PortCreate login_nul) demo).2 in
     let k2 := (exec 2 (PortSend 0 (login_request 1 (bs "guest") 0 8191)) k1).2 in
     sched_uid_of k2 2 = 0 /\ sched_capmask_of k2 2 = 8191.
Proof.
  split; [reflexivity|].
  apply (nul_name_mints_capabilities demo 2 2 2 0 0 (demo_port true 0 (bs "registry")) 1 (bs "guest") 0 8191); try done.
  set_solver.
Defined.
