(* ===== verification/KernLifecycle.v ===== *)
(** * KernLifecycle: memory, the log, and how sessions end

    Theorems about the kernel heap over all histories of its use, about what
    the log ring keeps, and about what is left of a session that was killed,
    that exited, or that killed itself. *)

From S2P Require Import Prelude Frame KernHeap KernState KernPorts KernSched KernSvc KernCalls KernFacts KernSafety.

(** ** Memory *)

(** The pool does not move. *)
Definition pool (m : Heap) : Z * Z := (pool_base m, pool_end m).

Lemma mm_alloc_pool n a m : pool (mm_alloc n a m).2 = pool m.
Proof. unfold mm_alloc. by case_match. Qed.
Lemma fresh_block_pool sz c m : pool (fresh_block sz c m).2 = pool m.
Proof.
  unfold fresh_block. pose proof (mm_alloc_pool sz 16 m). destruct (mm_alloc sz 16 m) as [h m1]. by case_match.
Qed.
Lemma large_walk_pool need m : forall fuel prev h, pool (large_walk fuel prev h need m).2 = pool m.
Proof.
  induction fuel as [|f IH]; intros prev h; cbn [large_walk]; [done|]. case_match; [done|]. cbv zeta.
  case_match; [|apply IH]. by case_match.
Qed.
Lemma rt_malloc_pool n m : pool (rt_malloc n m).2 = pool m.
Proof.
  unfold rt_malloc. cbv zeta. case_match.
  - pose proof (large_walk_pool (need_of n) m (S (size (hdrs m))) 0 (large_list m)) as Hl. unfold large_fit.
    destruct (large_walk _ _ _ _ _) as [h m1]. cbn in Hl. case_match; [done|]. by rewrite fresh_block_pool.
  - case_match; [case_match; [done|]|]; apply fresh_block_pool.
Qed.
Lemma rt_free_pool p m : pool (rt_free p m) = pool m.
Proof. unfold rt_free. cbv zeta. by repeat case_match. Qed.

Lemma heap_steps_pool s s' : rtc heap_step s s' -> pool s'.1 = pool s.1.
Proof.
  induction 1 as [|s1 s2 s3 Hs _ IH]; [done|]. rewrite IH. clear IH.
  destruct Hs as [m live n p m' _ E _|m live n m' _ E|m live p _|m live n p m' _ E]; cbn.
  - by rewrite <-(rt_malloc_pool n m), E.
  - by rewrite <-(rt_malloc_pool n m), E.
  - apply rt_free_pool.
  - by rewrite <-(mm_alloc_pool n 16 m), E.
Qed.


(** Taking and releasing a block of [n] bytes, [i] times; [None] when the
    allocator runs out. *)
Fixpoint churn (n : Z) (i : nat) (m : Heap) : option Heap :=
  match i with
  | O => Some m
  | S i => let '(p, m1) := rt_malloc n m in if p =? 0 then None else churn n i (rt_free p m1)
  end.

Lemma rt_free_ptr p m : pool_ptr (rt_free p m) = pool_ptr m.
Proof. unfold rt_free. cbv zeta. by repeat case_match. Qed.

(** Half-megabyte blocks are never used again.  A block for a request that
    rounds to the largest size class is put on the list of large blocks when
    it is released, and such a request only looks in its own bin; so a client
    that takes and at once releases one block of this size runs the kernel out
    of memory after as many rounds as the pool has megabytes left. *)
Theorem megabyte_class_leaks n i m live :
  heap_inv m live -> 0 <= n < 2 ^ 62 -> 2 ^ 19 < need_of n < 2 ^ 20 ->
  pool_end m - pool_ptr m < Z.of_nat i * 2 ^ 20 -> churn n i m = None.
Proof.
  intros Hi Hn Hneed. revert m live Hi.
  induction i as [|i IH]; intros m live Hi Hroom; [destruct Hi as [fl W]; pose proof (wf_pool _ _ _ W); lia|].
  cbn [churn]. destruct (rt_malloc n m) as [p m1] eqn:E. destruct (Z.eqb_spec p 0) as [|Hp]; [done|].
  destruct (class20_fresh _ _ _ _ _ Hi Hn Hneed E) as [|Hptr]; [done|].
  destruct (rt_malloc_spec _ _ _ _ _ Hi Hn E) as [[]|(_ & _ & _ & [fl W] & _)]; [done|].
  destruct (rt_free_wf _ _ _ p W) as (c & l & W'); [set_solver|].
  apply (IH _ _ (ex_intro _ _ W')). rewrite rt_free_ptr.
  pose proof (rt_free_pool p m1) as [= _ Ee]. pose proof (rt_malloc_pool n m) as Hpool. rewrite E in Hpool.
  injection Hpool as _ Ee'. rewrite Ee. cbn in Ee'. lia.
Qed.

(** ** The log *)

(** The log when the kernel starts. *)
Definition log_start : Log := mkLog (mkbuf LOG_SIZE) 0.

(** The ring after the bytes [h], as many as a 64-bit counter counts. *)
Record log_keeps (l : Log) (h : list byte) : Prop := {
  lk_len : zlen (log_ring l) = LOG_SIZE;
  lk_total : log_total l = zlen h;
  lk_byte : forall j, 0 <= j -> zlen h - LOG_SIZE <= j < zlen h -> idx (log_ring l) (j mod LOG_SIZE) = idx h j
}.

Lemma idx_insert (l : list byte) i j c : 0 <= i < zlen l -> 0 <= j ->
  idx (<[Z.to_nat i := c]> l) j = if j =? i then c else idx l j.
Proof.
  intros Hi Hj. unfold idx, zlen in *. destruct (Z.eqb_spec j i) as [->|Hne].
  - by rewrite list_lookup_insert_eq by lia.
  - by rewrite list_lookup_insert_ne by lia.
Qed.

Lemma idx_app_l (l l' : list byte) j : 0 <= j < zlen l -> idx (l ++ l') j = idx l j.
Proof. intros. unfold idx, zlen in *. by rewrite lookup_app_l by lia. Qed.

Lemma log_push1_keeps l h c : log_keeps l h -> zlen h + 1 < 2 ^ 64 -> log_keeps (log_push1 l c) (h ++ [c]).
Proof.
  intros [Hl Ht Hb] Hlt. unfold log_push1. pose proof (zlen_nonneg h). unfold LOG_SIZE in *.
  pose proof (Z.mod_pos_bound (log_total l) 16384 ltac:(lia)) as Hm.
  split; cbn [log_ring log_total]; rewrite ?zlen_app; change (zlen [c]) with 1; unfold LOG_SIZE.
  - unfold zlen in *. by rewrite length_insert.
  - rewrite Ht, u64_small; lia.
  - intros j Hj0 Hj. pose proof (Z.mod_pos_bound j 16384 ltac:(lia)). rewrite idx_insert by lia. rewrite Ht.
    destruct (Z.eqb_spec (j mod 16384) (zlen h mod 16384)) as [E|E].
    + assert (j = zlen h) as ->.
      { pose proof (Z.div_mod j 16384 ltac:(lia)). pose proof (Z.div_mod (zlen h) 16384 ltac:(lia)). lia. }
      by rewrite (idx_skip h [c] (zlen h) 0) by lia.
    + assert (j ≠ zlen h) by (intros ->; done). rewrite idx_app_l by lia. apply Hb; lia.
Qed.

Lemma log_push_keeps p : forall l h, log_keeps l h -> zlen h + zlen p < 2 ^ 64 -> log_keeps (log_push p l) (h ++ p).
Proof.
  induction p as [|c p IH]; intros l h Hk Hlt; [by rewrite app_nil_r|]. rewrite zlen_cons in Hlt.
  pose proof (zlen_nonneg p). cbn. replace (h ++ c :: p) with ((h ++ [c]) ++ p) by (by rewrite <-app_assoc).
  apply IH; [apply log_push1_keeps; [done|lia]|]. rewrite zlen_app, zlen_cons, zlen_nil. lia.
Qed.

Lemma map_idx_slice (h : list byte) off n : 0 <= off -> off + Z.of_nat n <= zlen h ->
  map (fun i => idx h (off + Z.of_nat i)) (seq 0 n) = slice h off (off + Z.of_nat n).
Proof.
  intros Ho Hn. apply list_eq. intros i. unfold zlen in *. rewrite list_lookup_fmap. destruct (decide (i < n)%nat) as [Hi|Hi].
  - rewrite lookup_seq_lt by done. cbn [fmap option_fmap option_map]. rewrite lookup_slice, decide_True by lia. unfold idx.
    destruct (lookup_lt_is_Some_2 h (Z.to_nat (off + Z.of_nat i))) as [c Hc]; [lia|].
    replace (Z.to_nat off + i)%nat with (Z.to_nat (off + Z.of_nat i)) by lia. by rewrite Nat.add_0_l, Hc.
  - rewrite lookup_ge_None_2 by (rewrite length_seq; lia). symmetry. apply lookup_ge_None_2. rewrite length_slice. lia.
Qed.

(** C24: The log ring implements the last 16 KiB of everything logged.  After
    any sequence of writes that together made the bytes [h], a read from an
    offset gives the bytes of [h] from there, or from the oldest byte still
    kept if the offset is older, as many as exist and fit the caller's buffer,
    with the number of bytes ever logged and the offset it started from. *)
Theorem log_read_refines (ps : list (list byte)) off cap :
  let h := mjoin ps in
  let start := Z.max off (Z.max 0 (zlen h - LOG_SIZE)) in
  let n := Z.min cap (Z.max 0 (zlen h - start)) in
  zlen h < 2 ^ 64 -> 0 <= off -> 0 <= cap ->
  log_read off cap (fold_left (fun l p => log_push p l) ps log_start) = (slice h start (start + n), zlen h, start).
Proof.
  intros h start n Hlt Hoff Hcap.
  assert (forall ps l h0, log_keeps l h0 -> zlen h0 + zlen (mjoin ps) < 2 ^ 64 ->
            log_keeps (fold_left (fun l p => log_push p l) ps l) (h0 ++ mjoin ps)) as Hall.
  { clear. induction ps as [|p ps IH]; intros l h0 Hk Hlt; [by rewrite app_nil_r|].
    change (mjoin (p :: ps)) with (p ++ mjoin ps) in *. rewrite zlen_app in Hlt. pose proof (zlen_nonneg (mjoin ps)).
    cbn [fold_left]. rewrite app_assoc. apply IH; [apply log_push_keeps; [done|lia]|]. rewrite zlen_app. lia. }
  destruct (Hall ps log_start []) as [_ Ht Hb]; [split; [by cbn [log_start log_ring]; rewrite zlen_mkbuf by (unfold LOG_SIZE; lia)|done|intros; rewrite zlen_nil in *; lia]|done|].
  change ([] ++ mjoin ps) with h in *. set (l := fold_left _ _ _) in *. unfold log_read. rewrite Ht. pose proof (zlen_nonneg h).
  assert ((if off <? (if LOG_SIZE <? zlen h then zlen h - LOG_SIZE else 0)
           then if LOG_SIZE <? zlen h then zlen h - LOG_SIZE else 0 else off) = start) as ->.
  { unfold start. destruct (Z.ltb_spec LOG_SIZE (zlen h)), (Z.ltb_spec off (zlen h - LOG_SIZE)), (Z.ltb_spec off 0); lia. }
  assert ((if (if start <? zlen h then zlen h - start else 0) <? cap
           then if start <? zlen h then zlen h - start else 0 else cap) = n) as ->.
  { unfold n. destruct (Z.ltb_spec start (zlen h)); [destruct (Z.ltb_spec (zlen h - start) cap)|destruct (Z.ltb_spec 0 cap)]; lia. }
  assert (0 <= n /\ (n = 0 \/ start + n <= zlen h)) as [Hn0 Hn] by lia. f_equal. f_equal.
  destruct Hn as [->|Hn]; [by rewrite Z.add_0_r; unfold slice; rewrite Z.sub_diag|].
  rewrite <-(Z2Nat.id n) at 2 by lia. rewrite <-map_idx_slice by lia. apply map_ext_in. intros i Hi%in_seq. apply Hb; lia.
Qed.

(** ** How sessions end *)

Section ends.
Context {P : Platform}.

Lemma drain_ring_free sid r m : Some m ∈ (drain_ring sid r).1 -> m_from_sid m ≠ sid.
Proof.
  induction r as [|[m'|] r IH]; cbn; [by intros ?%elem_of_nil| |].
  - destruct (drain_ring sid r) as [r' ps]. destruct (Z.eqb_spec (m_from_sid m') sid); cbn in *; set_solver.
  - destruct (drain_ring sid r) as [r' ps]. cbn in *. set_solver.
Qed.

(** What refers to the session: its handles, its messages in the queues, its
    devices. *)
Record forgotten (sid : Z) (k : K) : Prop := {
  fg_handles : forall h, port_of k sid h = None;
  fg_queues : forall p m, p ∈ k_ports k -> p_used p = true -> Some m ∈ p_ring p -> m_from_sid m ≠ sid;
  fg_devices : forall a, a ∈ v_assigns (k_dev k) -> a_used a = true -> a_target_sid a ≠ sid
}.

Lemma clear_handles sid h k : port_of (ports_clear_session_handles sid k).2 sid h = None.
Proof.
  unfold port_of. destruct (Z.leb_spec MAX_SESSIONS sid) as [|Hs]; [done|]. cbn [orb]. case_match; [done|]. cbv zeta.
  enough (htab_at (ports_clear_session_handles sid k).2 sid h = -1) as -> by done.
  unfold htab_at, ports_clear_session_handles. cbn [kmod snd]. rewrite (proj2 (Z.leb_gt _ _)) by done. cbn [k_htab put_htab].
  rewrite list_lookup_alter_eq. destruct (k_htab k !! Z.to_nat sid); [|done]. cbn.
  destruct (_ !! Z.to_nat h) as [g|] eqn:E; [|done]. cbn in E. by apply (lookup_replicate 16) in E as [-> _].
Qed.

Lemma drained sid k p m : p ∈ k_ports (ports_drain_session sid k).2 -> p_used p = true -> Some m ∈ p_ring p -> m_from_sid m ≠ sid.
Proof.
  unfold ports_drain_session. cbn [kmod snd k_ports put_heap put_ports]. rewrite map_map.
  intros (q & -> & _)%list_elem_of_fmap. unfold drain_port. destruct (p_used q) eqn:Eu; [|by cbn; rewrite Eu].
  pose proof (drain_ring_free sid (p_ring q) m). destruct (drain_ring sid (p_ring q)). done.
Qed.

Lemma unassigned sid k a : a ∈ v_assigns (k_dev (vfio_session_cleanup sid k).2) -> a_used a = true -> a_target_sid a ≠ sid.
Proof.
  unfold vfio_session_cleanup. cbn. intros (b & -> & _)%list_elem_of_fmap.
  destruct (a_used b) eqn:Eu; cbn; [|congruence]. destruct (Z.eqb_spec (a_target_sid b) sid); done.
Qed.

Lemma kill_effect sid from_sid k k' : sched_kill sid from_sid k = (0, k') ->
  forgotten sid k' /\ state_of k' sid = S_ZOMBIE /\ k_cur k' = k_cur k.
Proof.
  unfold sched_kill. rewrite kbind. cbn [kget fst snd]. destruct (sched_alive k sid) eqn:Ea; cbn [negb]; [|rewrite kbind; done].
  rewrite kbind. cbn [kget fst snd]. destruct (negb _); [rewrite kbind; done|].
  destruct (alive_sess _ _ Ea) as (Hpos & x & Hx & _).
  rewrite kbind. cbn [kmod fst snd]. set (k1 := upd_sess sid _ k). do 3 rewrite kbind.
  set (k2 := (ports_drain_session sid k1).2). set (k3 := (ports_clear_session_handles sid k2).2).
  set (k4 := (vfio_session_cleanup sid k3).2). intros E.
  assert (core k' = core k4 /\ k_ports k' = k_ports k4) as [Ec Ep].
  { match type of E with ?m k4 = _ => assert (keeps (fun k => (core k, k_ports k)) m) as Hk by keeps end.
    specialize (Hk k4). rewrite E in Hk. by apply pair_equal_spec in Hk. }
  assert (k_sessions k4 = k_sessions k1) as Es.
  { unfold k4, k3, k2, ports_clear_session_handles. cbn [kmod snd]. by destruct (MAX_SESSIONS <=? sid). }
  assert (state_of k' sid = S_ZOMBIE) as Hz.
  { unfold state_of, sess. rewrite (core_sessions _ _ Ec), Es, (proj2 (Z.ltb_ge sid 0)) by lia.
    unfold k1. cbn [upd_sess k_sessions put_sessions]. by rewrite list_lookup_alter_eq, Hx. }
  split_and!; [|done|]; [split|].
  - intros h. rewrite (port_of_ext k3); [apply clear_handles|by rewrite Ep|by rewrite (core_htab _ _ Ec)].
  - intros p m Hp. rewrite Ep in Hp. apply (drained sid k1 p m). revert Hp. unfold k4, k3, ports_clear_session_handles.
    cbn [kmod snd]. by destruct (MAX_SESSIONS <=? sid).
  - injection Ec as _ _ _ _ _ _ Ed _. rewrite Ed. apply unassigned.
  - injection Ec as _ _ -> _ _ _ _ _. unfold k4, k3, k2, ports_clear_session_handles. cbn [kmod snd].
    by destruct (MAX_SESSIONS <=? sid).
Qed.

Lemma kill_succeeds sid from_sid k : sched_alive k sid = true ->
  has_bits (sched_capmask_of k from_sid) SCHED_CAP_KILL = true -> (sched_kill sid from_sid k).1 = 0.
Proof.
  intros Ha Hc. unfold sched_kill. rewrite kbind. cbn [kget fst snd]. rewrite Ha. cbn [negb].
  rewrite kbind. cbn [kget fst snd]. rewrite Hc. cbn [negb]. by rewrite !kbind.
Qed.


(** The handles, and the ports behind them. *)
Definition plumbing (k : K) : list (list Z) * list port := (k_htab k, k_ports k).

Lemma exit_plumbing sid r : keeps plumbing (sched_session_main sid r).
Proof. unfold sched_session_main, k_engine_shutdown, vfio_session_cleanup. keeps. Qed.
Lemma reap_plumbing i : keeps plumbing (reap i).
Proof. unfold reap, k_engine_shutdown, k_rt_free. keeps. Qed.
Lemma reap_all_plumbing l : keeps plumbing (for_each l reap).
Proof.
  induction l as [|i l IH]; [done|]. intros k. cbn [for_each]. rewrite kbind, IH. apply reap_plumbing.
Qed.
Lemma engine_init_plumbing b : keeps plumbing (k_engine_init b).
Proof. intros k. unfold k_engine_init. by destruct (engine_init b (k_heap k)). Qed.
Lemma mm_alloc_plumbing n a : keeps plumbing (k_mm_alloc n a).
Proof. intros k. unfold k_mm_alloc. by destruct (mm_alloc n a (k_heap k)). Qed.
Hint Resolve engine_init_plumbing mm_alloc_plumbing : keeps.
Lemma spawn_plumbing name blob uid cap argv : keeps plumbing (spawn_impl name blob uid cap argv).
Proof. unfold spawn_impl, console_mm, k_engine_shutdown, k_rt_free. keeps. Qed.

(** C37: A session that exits leaves its handles to its successor.  Unlike a
    kill, an exit does not clear the handle table; the next session spawned
    into the slot, whatever its name, uid and mask, reaches every port the
    first one reached, and owns every port name the first one owned, the
    [login] port included. *)
Theorem exit_bequeaths_handles sid r name blob uid cap argv k k3 :
  (let k1 := (sched_session_main sid r k).2 in
   let k2 := (sched_reap_zombies k1).2 in
   spawn_impl name blob uid cap argv k2) = (sid, k3) ->
  (forall h, port_of k3 sid h = port_of k sid h)
  /\ (forall n, ports_name_owned_by k3 sid n = ports_name_owned_by k sid n)
  /\ sched_is_login k3 sid = sched_is_login k sid.
Proof.
  cbv zeta. intros E. set (k1 := (sched_session_main sid r k).2) in *. set (k2 := (sched_reap_zombies k1).2) in *.
  assert (plumbing k3 = plumbing k) as Hp.
  { pose proof (spawn_plumbing name blob uid cap argv k2) as H3. rewrite E in H3. cbn in H3.
    pose proof (reap_all_plumbing session_slots k1) as H2. pose proof (exit_plumbing sid r k) as H1.
    fold k1 in H1. change (plumbing k2 = plumbing k1) in H2. congruence. }
  apply pair_equal_spec in Hp as [Hh Hps].
  assert (forall n, ports_name_owned_by k3 sid n = ports_name_owned_by k sid n) as Hn.
  { intros n. unfold ports_name_owned_by, port_at. by rewrite Hh, Hps. }
  split_and!; [intros h; by apply port_of_ext|done|apply Hn].
Qed.

Lemma yield_plumbing : keeps plumbing sched_yield_current.
Proof. unfold sched_yield_current, preempt_take_pending. keeps. Qed.

Lemma yield_state sid k x : k_cur k = Some sid -> 0 <= sid -> sess k sid = Some x ->
  state_of (sched_yield_current k).2 sid = S_RUNNABLE.
Proof.
  intros Hc Hs Hx. unfold sched_yield_current. rewrite kbind. cbn [kget fst snd]. rewrite Hc. rewrite kbind.
  cbn [kget fst snd]. rewrite kbind. set (k1 := (_ k).2). assert (k_sessions k1 = k_sessions k) as E.
  { unfold k1. by destruct (negb _). }
  unfold state_of. cbn [kmod snd]. unfold sess in *. cbn [upd_sess k_sessions put_sessions]. rewrite (proj2 (Z.ltb_ge sid 0)) in * by lia.
  by rewrite E, list_lookup_alter_eq, Hx.
Qed.

(** A session that kills itself lives on.  The kill succeeds and marks the
    running session dead, but the call returns to it, and the next time it
    yields it is ready to run again, by then without any handle. *)
Theorem self_kill_undone sid k : k_cur k = Some sid -> sched_alive k sid = true ->
  has_bits (sched_capmask_of k sid) SCHED_CAP_KILL = true ->
  exists k1, sched_kill sid sid k = (0, k1) /\ state_of k1 sid = S_ZOMBIE
    /\ state_of (sched_yield_current k1).2 sid = S_RUNNABLE
    /\ forall h, port_of (sched_yield_current k1).2 sid h = None.
Proof.
  intros Hc Ha Hcap. destruct (sched_kill sid sid k) as [z k1] eqn:E.
  pose proof (kill_succeeds sid sid k Ha Hcap) as Hz. rewrite E in Hz. cbn in Hz. subst z.
  destruct (kill_effect _ _ _ _ E) as (Hf & Hs & Hc1). destruct (alive_sess _ _ Ha) as [Hpos _].
  exists k1. split_and!; [done..| |].
  - unfold state_of in Hs. destruct (sess k1 sid) as [x|] eqn:Ex; [|done]. apply (yield_state sid k1 x); [congruence|lia|done].
  - intros h. rewrite <-(fg_handles _ _ Hf h). destruct (proj1 (pair_equal_spec _ _ _ _) (yield_plumbing k1)).
    by apply port_of_ext.
Qed.

(** ** Holes in the rings *)

(** A slot after the messages of [sid] are gone. *)
Definition without (sid : Z) (s : option msg) : option msg :=
  match s with Some m => if m_from_sid m =? sid then None else s | None => None end.

Lemma drain_ring_map sid r : (drain_ring sid r).1 = map (without sid) r.
Proof.
  induction r as [|[m|] r IH]; cbn; [done| |]; destruct (drain_ring sid r) as [r' ps]; cbn in *.
  - destruct (m_from_sid m =? sid); cbn; by rewrite IH.
  - by rewrite IH.
Qed.

Lemma drain_port_at sid k g p : port_at k g = Some p -> p_used p = true ->
  exists p', port_at (ports_drain_session sid k).2 g = Some p' /\ p_used p' = true
    /\ p_qh p' = p_qh p /\ p_ring p' = map (without sid) (p_ring p).
Proof.
  unfold port_at, ports_drain_session. intros Hp Hu. destruct (g <? 0); [done|].
  cbn [kmod snd k_ports put_heap put_ports]. rewrite map_map. exists (drain_port sid p).1. split.
  - by rewrite list_lookup_fmap, Hp.
  - unfold drain_port. rewrite Hu, <-drain_ring_map. by destruct (drain_ring sid (p_ring p)).
Qed.

Lemma port_of_used k sid h g p : port_of k sid h = Some g -> port_at k g = Some p -> p_used p = true.
Proof.
  unfold port_of. case_match; [done|]. cbv zeta. case_match; [done|].
  destruct (port_at k (htab_at k sid h)) as [p0|] eqn:E0; [|done]. destruct (p_used p0) eqn:E1; [|done].
  intros [= Eg]. rewrite Eg in E0. congruence.
Qed.

(** A drain closes no port. *)
Lemma port_of_drain victim k sid h : port_of (ports_drain_session victim k).2 sid h = port_of k sid h.
Proof.
  unfold port_of. case_match; [done|]. cbv zeta. change (htab_at (ports_drain_session victim k).2 sid h) with (htab_at k sid h).
  case_match; [done|]. unfold port_at, ports_drain_session. cbn [kmod snd k_ports put_heap put_ports]. rewrite map_map.
  destruct (htab_at k sid h <? 0); [done|]. rewrite list_lookup_fmap. destruct (k_ports k !! _) as [p|]; [|done]. cbn.
  unfold drain_port. destruct (p_used p) eqn:Eu; [|by cbn; rewrite Eu]. by destruct (drain_ring victim (p_ring p)).
Qed.

(** Killing a sender stalls the queues it wrote to.  A kill empties the
    victim's slots in the middle of the rings and leaves their head where it
    was, so when the oldest message of a port was the victim's, a receive
    finds the empty slot and reports an empty queue, again and again, although
    the other senders' messages are still in the ring. *)
Theorem drain_hides_messages victim k b hb g p m q m' cap :
  reaches k b hb g p -> ring_view p (m :: q) -> m_from_sid m = victim -> m' ∈ q -> m_from_sid m' ≠ victim ->
  let k' := (ports_drain_session victim k).2 in
  port_recv b hb cap k' = ((0, []), k')
  /\ exists p', port_at k' g = Some p' /\ Some m' ∈ p_ring p'.
Proof.
  intros [Ho Hp] Hv Hm Hin Hm' k'.
  destruct (drain_port_at victim k g p Hp (port_of_used _ _ _ _ _ Ho Hp)) as (p' & Hp' & _ & Hh & Hr). fold k' in Hp'.
  split.
  - assert (ring_head p' = None) as Hhd.
    { unfold ring_head. rewrite Hh, Hr, list_lookup_fmap. pose proof (ring_head_view _ _ _ Hv) as Hd. unfold ring_head in Hd.
      destruct (p_ring p !! Z.to_nat (p_qh p)) as [s|]; [|done]. cbn in *. subst s. cbn. by rewrite Hm, Z.eqb_refl. }
    unfold port_recv. rewrite kbind. cbn [kget fst snd]. assert (port_of k' b hb = Some g) as ->.
    { unfold k'. by rewrite port_of_drain. }
    cbn [mbind option_bind]. rewrite Hp'. cbn [fmap option_fmap option_map]. rewrite Hhd. by destruct (p_qn p' =? 0).
  - exists p'. split; [done|]. rewrite Hr. apply list_elem_of_fmap. exists (Some m'). split.
    + cbn. by rewrite (proj2 (Z.eqb_neq _ _)).
    + apply list_elem_of_lookup in Hin as (i & Hi). pose proof (lookup_lt_Some _ _ _ Hi) as Hlt.
      pose proof (rv_max _ _ Hv) as Hmax. rewrite zlen_cons in Hmax. unfold zlen in Hmax.
      pose proof (rv_slot _ _ Hv (Z.of_nat (S i)) ltac:(lia)) as Hsl. rewrite Nat2Z.id in Hsl.
      change ((m :: q) !! S i) with (q !! i) in Hsl. rewrite Hi in Hsl. by eapply list_elem_of_lookup_2.
Qed.
End ends.

(** ** On the example kernel *)


Lemma megabyte_class_leaks_witness : churn 700000 17 demo_heap = None.
Proof. apply (megabyte_class_leaks 700000 17 demo_heap ∅ demo_heap_inv); [lia|vm_compute; done|done]. Defined.

Lemma log_read_refines_witness :
  log_read 1 100 (fold_left (fun l p => log_push p l) [bs "boot "; bs "done"] log_start) = (bs "oot done", 9, 1).
Proof. apply (log_read_refines [bs "boot "; bs "done"] 1 100); done. Defined.


Lemma exit_bequeaths_handles_witness : exists k3,
  spawn_impl (bs "other") [] 9 0 [] (sched_reap_zombies (sched_session_main 2 0 demo).2).2 = (2, k3)
  /\ port_of k3 2 1 = Some 1.
Proof.
  destruct (spawn_impl (bs "other") [] 9 0 [] (sched_reap_zombies (sched_session_main 2 0 demo).2).2) as [z k3] eqn:E.
  exists k3. assert (z = 2) as ->.
  { change z with (z, k3).1. rewrite <-E. reflexivity. }
  split; [done|]. rewrite (proj1 (exit_bequeaths_handles 2 0 (bs "other") [] 9 0 [] demo k3 E)). reflexivity.
Defined.

(** The example with a running [init]. *)
Definition demo_init : K := put_cur (Some 1) demo.

Lemma self_kill_undone_witness : exists k1, sched_kill 1 1 demo_init = (0, k1) /\ state_of k1 1 = S_ZOMBIE
  /\ state_of (sched_yield_current k1).2 1 = S_RUNNABLE
  /\ forall h, port_of (sched_yield_current k1).2 1 h = None.
Proof. apply (self_kill_undone 1 demo_init); reflexivity. Defined.

(** The port [mail] with a message of each session. *)
Definition demo_m1 : msg := mkMsg 5000 2 (bs "from guest").
Definition demo_m2 : msg := mkMsg 6000 1 (bs "from init").
Definition demo_mail : port := ring_put demo_m2 (ring_put demo_m1 (demo_port false 1 (bs "mail"))).
Definition demo_queued : K := put_ports (<[1%nat := demo_mail]> demo_ports) demo.

Lemma drain_hides_messages_witness :
  let k' := (ports_drain_session 2 demo_queued).2 in
  port_recv 1 1 4096 k' = ((0, []), k') /\ exists p', port_at k' 1 = Some p' /\ Some demo_m2 ∈ p_ring p'.
Proof.
  apply (drain_hides_messages 2 demo_queued 1 1 1 demo_mail demo_m1 [demo_m2] demo_m2 4096); [by split| |done|set_solver|done].
  apply (ring_put_view _ [demo_m1]); [|done]. apply (ring_put_view _ []); [|done]. exact demo_mail_empty.
Defined.
