(* ===== verification/KernFsTheorems.v ===== *)
(** * KernFsTheorems: routed file calls, from the kernel to the file service

    [KernFsImport] builds the datagrams that [FsServer] answers, in two
    languages and two parts of the repository.  Here the two meet: the request
    of a routed call as the service parses it, and the requests that are lost
    between them. *)

From S2P Require Import Prelude Frame BlockDev KfsFormat Paths KfsFs FsServer FsPolicy.
From S2P Require Import KernHeap KernState KernPorts KernSched KernFsImport KernFacts.

(** The payload of a routed write at offset [off]. *)
Definition write_payload (off : Z) (data : list byte) : list byte := le_split 8 off ++ le_split 2 (zlen data) ++ data.

(** The datagram [mk_req] leaves in the session's buffer. *)
Definition routed_request (op seq uid : Z) (rname path payload : list byte) : list byte :=
  req_head op seq uid rname (zlen path) ++ path ++ payload.

Lemma zlen_req_head op seq uid rname plen : zlen (req_head op seq uid rname plen) = 26.
Proof.
  unfold req_head. rewrite !zlen_app, !zlen_le_split.
  assert (zlen (take 16 (strn 15 rname ++ mkbuf 16)) = 16); [|lia].
  unfold zlen, mkbuf. rewrite length_take, length_app, length_replicate. lia.
Qed.

(** The reply name in the header: the session's name, as a 16-byte field. *)
Definition rname_field (rname : list byte) : list byte := take 16 (strn 15 rname ++ mkbuf 16).

Lemma zlen_rname_field rname : zlen (rname_field rname) = 16.
Proof. unfold rname_field, zlen, mkbuf. rewrite length_take, length_app, length_replicate. lia. Qed.

Lemma req_head_eq op seq uid rname plen :
  req_head op seq uid rname plen = le_split 2 op ++ le_split 2 seq ++ le_split 4 uid ++ rname_field rname ++ le_split 2 plen.
Proof. done. Qed.

Lemma cstr16_rname rname : cstr16 (rname_field rname) = strn 15 rname.
Proof.
  assert (Byte.x00 ∉ strn 15 rname) as Hn.
  { unfold strn. intros (i & Hi & _)%elem_of_take. by apply list_elem_of_lookup_2, cstr16_no_nul in Hi. }
  assert (length (strn 15 rname) <= 15)%nat as Hl by (unfold strn; rewrite length_take; lia).
  unfold rname_field, mkbuf. rewrite take_app_ge by lia. rewrite take_replicate.
  destruct (Nat.min _ _) eqn:E; [lia|]. cbn [replicate]. by apply cstr16_app.
Qed.

(** The service reads back what the kernel wrote. *)
Lemma request_header op seq uid rname path payload :
  0 <= op < 2 ^ 16 -> 0 <= seq < 2 ^ 16 -> 0 <= uid < 2 ^ 32 ->
  ParseHeader (routed_request op seq uid rname path payload) = Some (mkHeader op seq uid (strn 15 rname)).
Proof.
  intros Ho Hs Hu. unfold ParseHeader, routed_request. pose proof (zlen_nonneg path). pose proof (zlen_nonneg payload).
  rewrite !zlen_app, zlen_req_head, (proj2 (Z.ltb_ge _ _)) by (unfold CanonicalHeaderLen; lia).
  rewrite req_head_eq, <-!app_assoc. rewrite Get16_here, u16_small by done.
  rewrite (Get16_skip _ _ 2 0), Get16_here, u16_small by (done || by rewrite zlen_le_split).
  rewrite (Get32_skip _ _ 4 2), (Get32_skip _ _ 2 0), Get32_here, u32_small by (done || by rewrite zlen_le_split).
  do 2 f_equal. rewrite <-(cstr16_rname rname). f_equal.
  rewrite !(app_assoc _ _ (rname_field rname ++ _)). rewrite slice_app_mid; [done|..]; 
    rewrite ?zlen_app, ?zlen_le_split, ?zlen_rname_field; done.
Qed.

(** What follows the header of a datagram cut at [n] bytes. *)
Lemma request_cut op seq uid rname path payload n : 26 + zlen path <= n ->
  take (Z.to_nat n) (routed_request op seq uid rname path payload)
    = req_head op seq uid rname (zlen path) ++ path ++ take (Z.to_nat (n - 26 - zlen path)) payload.
Proof.
  intros Hn. unfold routed_request. pose proof (zlen_req_head op seq uid rname (zlen path)) as Hh. unfold zlen in *.
  rewrite take_app_ge by lia. f_equal. rewrite take_app_ge by lia. do 2 f_equal. lia.
Qed.

Lemma request_body op seq uid rname path rest :
  drop 24 (req_head op seq uid rname (zlen path) ++ path ++ rest) = le_split 2 (zlen path) ++ path ++ rest.
Proof.
  rewrite req_head_eq, <-!app_assoc, !(app_assoc _ _ (le_split 2 (zlen path) ++ _)). apply drop_app_length'.
  pose proof (zlen_rname_field rname) as Hf. unfold zlen in Hf. rewrite !length_app, !length_le_split. lia.
Qed.

Lemma LStr_here path rest : zlen path < 2 ^ 16 -> LStr (le_split 2 (zlen path) ++ path ++ rest) 0 = Some (path, 2 + zlen path).
Proof.
  intros Hp. pose proof (zlen_nonneg path). pose proof (zlen_nonneg rest). unfold LStr.
  rewrite !zlen_app, zlen_le_split, Get16_here, u16_small by lia. cbv zeta. rewrite !(proj2 (Z.ltb_ge _ _)) by lia.
  by rewrite slice_app_mid by (rewrite ?zlen_le_split; lia).
Qed.

Section service.
Context {S : Type} `{Store S}.

(** A write whose data is shorter than it says. *)
Lemma short_write_ignored (st : S) sessions uid op seq path off len data pth :
  zlen path < 2 ^ 16 -> 0 <= len < 2 ^ 16 -> zlen data < len -> resolveFor sessions uid path true = (pth, FSOK) ->
  do_write uid op seq (le_split 2 (zlen path) ++ path ++ le_split 8 off ++ le_split 2 len ++ data) (st, sessions)
    = (Ok None, (st, sessions)).
Proof.
  intros Hp Hl Hd Hr. unfold do_write, mbind at 1, M_bind at 1, getS. cbv beta iota. rewrite LStr_here by done.
  set (b := le_split 2 _ ++ _).
  assert (zlen b = 12 + zlen path + zlen data) as Hb by (unfold b; rewrite !zlen_app, !zlen_le_split; lia).
  pose proof (zlen_nonneg data). rewrite Hb, (proj2 (Z.ltb_ge _ _)) by lia. cbn [snd]. rewrite Hr. cbn [Z.eqb negb FSOK].
  assert (Get16 b (2 + zlen path + 8) = len) as ->.
  { unfold b. pose proof (zlen_nonneg path).
    rewrite (Get16_skip _ _ _ (zlen path + 8)), (Get16_skip _ _ _ 8), (Get16_skip _ _ 8 0), Get16_here, u16_small
      by (rewrite ?zlen_le_split; lia). done. }
  rewrite (proj2 (Z.ltb_lt _ _)) by lia. done.
Qed.

(** Long writes are lost between the kernel and the file service.  The
    import accepts up to 8192 bytes at a time and builds the whole request,
    but a datagram holds 4096, and the queue cuts what does not fit.  When a
    session writes more than fits beside its path, the enqueue on [fs] reports
    success, and the service, which then finds less data than the request
    announces, sends no reply to it and writes nothing, so the caller waits
    out its budget. *)
Theorem long_write_lost k g p q seq uid rname path off data (st : S) sessions pth :
  findi (fun p => p_used p && streq (p_name p) (bs "fs")) (k_ports k) = Some g -> k_ports k !! g = Some p ->
  ring_view p q -> zlen q < MAX_Q -> (rt_malloc sizeof_msg (k_heap k)).1 ≠ 0 -> unawaited (bs "fs") k ->
  0 <= seq < 2 ^ 16 -> 0 <= uid < 2 ^ 32 -> strn 15 rname ≠ [] -> resolveFor sessions uid path true = (pth, FSOK) ->
  36 + zlen path <= MSG_MAX -> MSG_MAX < 36 + zlen path + zlen data -> zlen data <= FSIMPORT_MAX_IO ->
  exists m k', ports_enqueue_by_name (bs "fs") (routed_request FSOP_WRITE seq uid rname path (write_payload off data)) k = (true, k')
    /\ port_at k' (Z.of_nat g) = Some (ring_put m p) /\ ring_view (ring_put m p) (q ++ [m])
    /\ dispatch (m_data m) (st, sessions) = (Ok None, (st, sessions)).
Proof.
  intros Hg Hp Hv Hq Hheap Hun Hseq Huid Hrn Hres Hfit Hlong Hmax.
  set (req := routed_request _ _ _ _ _ _).
  assert (port_at k (Z.of_nat g) = Some p) as Hp' by (unfold port_at; rewrite (proj2 (Z.ltb_ge _ _)), Nat2Z.id by lia; done).
  destruct (enqueue_ok k (Z.of_nat g) 0 (take (Z.to_nat MSG_MAX) req) p q Hp' Hv Hq Hheap) as (m & k' & E & _ & Hd & Hps & _).
  exists m, k'. split_and!; [|by rewrite (port_at_ext _ _ _ Hps), (port_at_upd _ _ _ _ p), Z.eqb_refl by done|by apply ring_put_view|].
  - unfold ports_enqueue_by_name. rewrite kbind, intercept_unawaited by done. cbn [fst snd]. rewrite kbind. cbn [kget fst snd].
    rewrite Hg. by rewrite kbind, E.
  - pose proof (zlen_nonneg path). rewrite Hd. unfold req, FSIMPORT_MAX_IO, MSG_MAX in *. rewrite request_cut by lia.
    unfold dispatch. set (cut := take _ (write_payload off data)).
    change (req_head FSOP_WRITE seq uid rname (zlen path) ++ path ++ cut) with (routed_request FSOP_WRITE seq uid rname path cut).
    rewrite request_header by (done || unfold FSOP_WRITE; lia). cbn [RNam]. rewrite bool_decide_false by done.
    cbn [Frame.UID Op Seq]. unfold routed_request. rewrite request_body.
    assert (cut = le_split 8 off ++ le_split 2 (zlen data) ++ take (Z.to_nat (4060 - zlen path)) data) as ->.
    { unfold cut, write_payload. rewrite take_app_ge by (rewrite length_le_split; unfold zlen in *; lia). f_equal.
      rewrite length_le_split. rewrite take_app_ge by (rewrite length_le_split; unfold zlen in *; lia).
      rewrite length_le_split. do 2 f_equal. lia. }
    unfold mbind, M_bind. change (do_op uid FSOP_WRITE) with (do_write uid FSOP_WRITE).
    rewrite (short_write_ignored st sessions uid _ _ path off (zlen data) _ pth); [done|lia|unfold zlen in *; lia| |done].
    unfold zlen in *. rewrite length_take. lia.
Qed.
End service.

(** ** Building a request *)

Lemma wctx_upd k f w : wctx k = Some w -> wctx (upd_wctx f k) = Some (f w).
Proof.
  unfold wctx, upd_wctx. destruct (k_cur k) as [sid|] eqn:Ec; [|done]. cbn [mbind option_bind].
  destruct (sess k sid) as [x|] eqn:Ex; [|done]. intros [= <-].
  change (k_cur (upd_sess sid _ k)) with (k_cur k). rewrite Ec. cbn [mbind option_bind].
  unfold sess in *. destruct (sid <? 0); [done|]. cbn [upd_sess k_sessions put_sessions].
  by rewrite list_lookup_alter_eq, Ex.
Qed.

Lemma take_splice_front (b : list byte) head rest : zlen head + zlen rest <= zlen b ->
  take (Z.to_nat (zlen head + zlen rest)) (splice (splice b 0 head) (zlen head) rest) = head ++ rest.
Proof.
  intros Hl. unfold splice, zlen in *. rewrite Z2Nat.inj_0, take_0, app_nil_l, Nat.sub_0_r.
  rewrite (take_ge head) by lia. rewrite length_app, length_drop.
  rewrite Nat2Z.id. rewrite take_app_length. rewrite (take_ge rest) by lia.
  rewrite app_assoc. rewrite take_app_le by (rewrite length_app; lia). by rewrite take_ge by (rewrite length_app; lia).
Qed.

(** Writing a session's buffers leaves every session who it is. *)
Lemma ident_upd_wctx k f s : sched_uid_of (upd_wctx f k) s = sched_uid_of k s /\ sched_name_of (upd_wctx f k) s = sched_name_of k s
  /\ sched_current_sid (upd_wctx f k) = sched_current_sid k.
Proof.
  unfold upd_wctx. destruct (k_cur k) as [sid|] eqn:Ec; [|done].
  assert (forall A (g : session -> A), (forall x w, g (set_wctx w x) = g x) ->
    g <$> sess (upd_sess sid (fun x => set_wctx (f (s_wctx x)) x) k) s = g <$> sess k s) as Hg.
  { intros A g Hg. unfold sess. destruct (s <? 0); [done|]. cbn [upd_sess k_sessions put_sessions].
    destruct (decide (Z.to_nat sid = Z.to_nat s)) as [->|].
    - rewrite list_lookup_alter_eq. destruct (k_sessions k !! _); [cbn; by rewrite Hg|done].
    - by rewrite list_lookup_alter_ne. }
  unfold sched_uid_of, sched_name_of, state_of. rewrite !Hg by done. done.
Qed.

(** C26: The file service reads the request the kernel meant.  When a routed
    call's path and payload fit the session's buffer, the request [mk_req]
    leaves there is one that the service's parser takes apart into the same
    operation, the caller's uid and name as the kernel knows them, the
    session's next sequence number, the path, and the payload. *)
Theorem routed_request_understood k w op path payload :
  wctx k = Some w -> zlen (w_fsreq w) = SCHED_FSREQ_MAX -> 26 + zlen path + zlen payload <= SCHED_FSREQ_MAX ->
  0 <= op < 2 ^ 16 -> 0 <= sched_uid_of k (sched_current_sid k) < 2 ^ 32 ->
  exists w', (mk_req op path payload k).1 = 26 + zlen path + zlen payload
    /\ wctx (mk_req op path payload k).2 = Some w'
    /\ let req := take (Z.to_nat (26 + zlen path + zlen payload)) (w_fsreq w') in
       ParseHeader req = Some (mkHeader op (u16 (w_fs_seq_ctr w + 1)) (sched_uid_of k (sched_current_sid k))
                                 (strn 15 (sched_name_of k (sched_current_sid k))))
       /\ LStr (drop 24 req) 0 = Some (path, 2 + zlen path)
       /\ drop (Z.to_nat (2 + zlen path)) (drop 24 req) = payload.
Proof.
  intros Hw Hlen Hfit Hop Huid. unfold mk_req. rewrite kbind. cbn [kget fst snd]. rewrite Hw. cbv zeta.
  rewrite kbind. cbn [kmod fst snd]. set (k1 := upd_wctx _ k). destruct (ident_upd_wctx k (set_seq_ctr (u16 (w_fs_seq_ctr w + 1)))
    (sched_current_sid k)) as (Eu & En & Ec). fold k1 in Eu, En, Ec.
  rewrite kbind. cbn [kget fst snd]. rewrite kbind. cbn [kget fst snd]. rewrite Ec, Eu, En.
  set (uid := sched_uid_of k _) in *. set (rn := sched_name_of k _). rewrite kbind. cbn [kmod fst snd].
  rewrite (proj2 (Z.ltb_ge SCHED_FSREQ_MAX _)) by lia. rewrite kbind. cbn [kmod fst snd].
  set (head := req_head _ _ _ _ _).
  eexists. split; [done|]. split; [do 2 apply wctx_upd; by apply wctx_upd|].
  pose proof (zlen_req_head op (u16 (w_fs_seq_ctr w + 1)) uid rn (zlen path)) as Hh. fold head in Hh.
  cbn [w_fsreq set_fsreq set_seq_ctr]. pose proof (zlen_nonneg path). pose proof (zlen_nonneg payload).
  pose proof (take_splice_front (w_fsreq w) head (path ++ payload)) as Ht. rewrite Hh, zlen_app, Z.add_assoc in Ht.
  rewrite Ht by lia. change (head ++ path ++ payload) with (routed_request op (u16 (w_fs_seq_ctr w + 1)) uid rn path payload).
  split_and!.
  - apply request_header; [done| |done]. apply u16_range.
  - unfold routed_request. rewrite request_body. apply LStr_here. unfold SCHED_FSREQ_MAX in *. lia.
  - unfold routed_request. rewrite request_body, app_assoc. apply drop_app_length'. rewrite length_app, length_le_split.
    unfold zlen. lia.
Qed.

(** ** Without the service *)

Section unserved.
Context (yield : nat -> K -> K) (spins : nat).

(** A session runs, its name is not [fs], nothing waits under that name, and
    no port has it. *)
Record unserved (k : K) : Prop := {
  un_wctx : is_Some (wctx k);
  un_name : streq (strn 15 (sched_name_of k (sched_current_sid k))) (bs "fs") = false;
  un_wait : unawaited (bs "fs") k;
  un_port : findi (fun p => p_used p && streq (p_name p) (bs "fs")) (k_ports k) = None
}.

(** The slots of the table that are in use. *)
Definition used_slots (l : list pending) : nat := length (filter (fun t => t_used t = true) l).

Lemma used_slots_insert l i t0 t : l !! i = Some t0 -> t_used t0 = false -> t_used t = true ->
  used_slots (<[i := t]> l) = S (used_slots l).
Proof.
  unfold used_slots. intros Hi Hf Ht. revert i Hi. induction l as [|x l IH]; intros [|i] Hi; try done.
  - injection Hi as ->. change (<[0%nat := t]> (t0 :: l)) with (t :: l).
    rewrite !filter_cons, decide_True, decide_False by congruence. done.
  - change (<[S i := t]> (x :: l)) with (x :: <[i := t]> l). rewrite !filter_cons.
    case_decide; cbn [length]; by rewrite (IH i Hi).
Qed.

Lemma used_slots_full l : used_slots l = length l -> Forall (fun t => t_used t = true) l.
Proof.
  unfold used_slots. induction l as [|x l IH]; intros E; [done|]. rewrite filter_cons in E.
  pose proof (length_filter (fun t => t_used t = true) l). case_decide; cbn in E; [|lia]. constructor; [done|]. apply IH. lia.
Qed.

Lemma used_slots_all l : Forall (fun t => t_used t = true) l -> used_slots l = length l.
Proof.
  unfold used_slots. induction 1 as [|t l Ht Hl IH]; [done|]. rewrite filter_cons, decide_True by done. cbn. by rewrite IH.
Qed.

Lemma enqueue_nowhere name d k : unawaited name k ->
  findi (fun p => p_used p && streq (p_name p) name) (k_ports k) = None -> ports_enqueue_by_name name d k = (false, k).
Proof.
  intros Hu Hp. unfold ports_enqueue_by_name. rewrite kbind, intercept_unawaited by done. cbn [fst snd]. rewrite kbind.
  cbn [kget fst snd]. by rewrite Hp.
Qed.

Lemma expect_step seq name k : fsroute_expect seq name k =
  match findi (fun t => negb (t_used t)) (k_tab k) with
  | Some i => (0, put_tab (<[i := mkPending true seq (strn 15 name) false []]> (k_tab k)) k)
  | None => (-1, k)
  end.
Proof. done. Qed.

(** One routed call. *)
Lemma unserved_call n k : unserved k ->
  let k' := (fs_roundtrip yield spins n k).2 in
  (fs_roundtrip yield spins n k).1 = -1 /\ unserved k' /\ length (k_tab k') = length (k_tab k)
  /\ (S (used_slots (k_tab k)) `min` length (k_tab k) <= used_slots (k_tab k'))%nat.
Proof.
  intros [[w Hw] Hn Hu Hp] k'. unfold k', fs_roundtrip. rewrite kbind. cbn [kget fst snd]. rewrite Hw. cbv zeta.
  set (sq := u16 _). rewrite kbind. cbn [kmod fst snd]. set (f := fun w => set_fsresp _ _). set (k1 := upd_wctx f k).
  pose proof (ident_upd_wctx k f (sched_current_sid k)) as (_ & En & Ec). fold k1 in En, Ec.
  assert (k_tab k1 = k_tab k /\ k_ports k1 = k_ports k) as [Et Eps] by (unfold k1, upd_wctx; by destruct (k_cur k)).
  assert (wctx k1 = Some (f w)) as Hw1 by (by apply wctx_upd).
  rewrite kbind. cbn [kget fst snd]. rewrite Ec, En. set (name := sched_name_of k _) in *.
  rewrite kbind, expect_step, Et.
  destruct (findi (fun t => negb (t_used t)) (k_tab k)) as [i|] eqn:Ef; cbn [fst snd Z.eqb negb].
  - apply findi_Some in Ef as [(t0 & Hi & Ht0) _]. apply negb_true_iff in Ht0.
    set (k2 := put_tab _ k1). rewrite kbind. cbn [kget fst snd].
    assert (unawaited (bs "fs") k2) as Hu2.
    { intros t Ht. cbn in Ht. apply list_elem_of_lookup in Ht as (j & Hj). destruct (decide (i = j)) as [->|Hne].
      - rewrite list_lookup_insert_eq in Hj by (by eapply lookup_lt_Some). injection Hj as <-. cbn. exact Hn.
      - rewrite list_lookup_insert_ne in Hj by done. apply Hu. by eapply list_elem_of_lookup_2. }
    rewrite kbind, enqueue_nowhere by (done || by cbn; rewrite Eps). cbn [fst snd negb]. unfold mret, KM_ret. cbn [fst snd].
    split; [done|]. split.
    { split; [by exists (f w)| |done|cbn; by rewrite Eps].
      change (streq (strn 15 (sched_name_of k1 (sched_current_sid k1))) (bs "fs") = false). by rewrite Ec, En. }
    change (k_tab k2) with (<[i := mkPending true sq (strn 15 name) false []]> (k_tab k)).
    split; [apply length_insert|]. rewrite (used_slots_insert _ _ t0) by done. lia.
  - unfold mret, KM_ret. cbn [fst snd]. split; [done|]. split.
    { split; [by exists (f w)|rewrite Ec, En; exact Hn|intros t; rewrite Et; apply Hu|rewrite Eps; exact Hp]. }
    rewrite Et. split; [done|]. rewrite used_slots_all; [lia|]. apply Forall_forall. intros t (j & Hj)%list_elem_of_lookup.
    apply negb_false_iff. exact (findi_None _ _ Ef _ _ Hj).
Qed.

(** Routed calls made while the file service is down use up the kernel's
    table of pending calls for good.  A call that finds no [fs] port fails
    without giving back the slot it had taken; after eight such calls every
    slot is taken, and on that table a routed call of any session fails,
    whether or not the service is there by then. *)
Theorem pending_slots_leak n k : unserved k -> length (k_tab k) = Z.to_nat MAXPENDING ->
  let k' := Nat.iter 8 (fun k => (fs_roundtrip yield spins n k).2) k in
  Forall (fun t => t_used t = true) (k_tab k')
  /\ forall yield' spins' n' k2, k_tab k2 = k_tab k' -> (fs_roundtrip yield' spins' n' k2).1 = -1.
Proof.
  intros Hk Hlen k'. assert (Forall (fun t => t_used t = true) (k_tab k')) as Hall.
  { assert (forall i, let ki := Nat.iter i (fun k => (fs_roundtrip yield spins n k).2) k in
      unserved ki /\ length (k_tab ki) = 8%nat /\ (i `min` 8 <= used_slots (k_tab ki))%nat) as Hi.
    { induction i as [|i (Hu & Hl & Hc)]; [split_and!; [done..|lia]|]. intros ki.
      destruct (unserved_call n _ Hu) as (_ & Hu' & Hl' & Hc'). split_and!; [done|by etrans|].
      etrans; [|exact Hc']. rewrite Hl. lia. }
    destruct (Hi 8%nat) as (_ & Hl & Hc). fold k' in Hl, Hc. apply used_slots_full.
    pose proof (length_filter (fun t => t_used t = true) (k_tab k')). unfold used_slots in *. lia. }
  split; [done|]. intros yield' spins' n' k2 E2. unfold fs_roundtrip. rewrite kbind. cbn [kget fst snd].
  destruct (wctx k2) as [w|]; [|done]. cbv zeta. rewrite kbind. cbn [kmod fst snd]. rewrite kbind. cbn [kget fst snd].
  rewrite kbind, expect_step. set (k3 := upd_wctx _ k2).
  assert (k_tab k3 = k_tab k') as E3 by (unfold k3, upd_wctx; by destruct (k_cur k2)). rewrite E3, findi_none; [done|].
  intros t Ht. rewrite Forall_forall in Hall. by rewrite (Hall t Ht).
Qed.
End unserved.

(** ** On the example kernel *)

(** The example with the port [fs] of a file service in slot 1. *)
Definition demo_fs : K := put_ports (<[2%nat := demo_port false 1 (bs "fs")]> demo_ports) demo.

Lemma long_write_lost_witness : exists m k',
  ports_enqueue_by_name (bs "fs") (routed_request FSOP_WRITE 1 1000 (bs "guest") (bs "notes")
    (write_payload 0 (replicate 5000 Byte.x61))) demo_fs = (true, k')
  /\ port_at k' 2 = Some (ring_put m (demo_port false 1 (bs "fs"))) /\ ring_view (ring_put m (demo_port false 1 (bs "fs"))) ([] ++ [m])
  /\ @dispatch _ recorder (m_data m) ([], sessions0) = (Ok None, ([], sessions0)).
Proof.
  apply (@long_write_lost _ recorder demo_fs 2 (demo_port false 1 (bs "fs")) [] 1 1000 (bs "guest") (bs "notes") 0
    (replicate 5000 Byte.x61) [] sessions0 (bs "/home/alice/notes")); try done.
  - by apply ring_empty_view.
  - exact (demo_unawaited (bs "fs")).
Defined.

Lemma routed_request_understood_witness : exists w',
  (mk_req FSOP_READ (bs "/a") (bs "xy") demo).1 = 30 /\ wctx (mk_req FSOP_READ (bs "/a") (bs "xy") demo).2 = Some w'
  /\ let req := take 30 (w_fsreq w') in
     ParseHeader req = Some (mkHeader FSOP_READ 1 7 (bs "guest"))
     /\ LStr (drop 24 req) 0 = Some (bs "/a", 4) /\ drop 4 (drop 24 req) = bs "xy".
Proof.
  apply (routed_request_understood demo demo_wasi FSOP_READ (bs "/a") (bs "xy")); done.
Defined.

Lemma pending_slots_leak_witness :
  let k' := Nat.iter 8 (fun k => (fs_roundtrip (fun _ k => k) 0 26 k).2) demo in
  Forall (fun t => t_used t = true) (k_tab k')
  /\ forall yield' spins' n' k2, k_tab k2 = k_tab k' -> (fs_roundtrip yield' spins' n' k2).1 = -1.
Proof.
  apply (pending_slots_leak (fun _ k => k) 0 26 demo); [|done].
  split; [by eexists|done|apply demo_unawaited|done].
Defined.
