(* ===== verification/KernLink.v ===== *)
(** * KernLink: one datagram from one session to another

    A message through a port costs the kernel nothing that lasts: the block
    that held it goes back to its bin and serves the next one.  So two
    sessions can exchange requests and replies for ever, as long as one
    message at a time is on the way.  [hop] is one such message. *)

From S2P Require Import Prelude Frame KernHeap KernState KernPorts KernSched KernCalls KernFacts KernTheorems.

(** ** Memory for one message at a time *)

Definition msg_ready (m : Heap) : Prop :=
  exists live, heap_inv m live /\ (bin_of m 13 ≠ 0 \/ pool_ptr m + msg_room <= pool_end m).

(** The block behind a message is of class 13. *)
Lemma malloc_msg_class m live : heap_inv m live -> bin_of m 13 ≠ 0 \/ pool_ptr m + msg_room <= pool_end m ->
  exists p m' x, rt_malloc sizeof_msg m = (p, m') /\ p ≠ 0 /\ heap_inv m' (live ∪ {[p]})
    /\ hdrs m' !! (p - hdr_size) = Some x /\ h_cls x = 13 /\ h_size x = 2 ^ 13.
Proof.
  intros Hi Hr. destruct (rt_malloc sizeof_msg m) as [p m'] eqn:E. pose proof Hi as [fl W].
  destruct (wf_pool _ _ _ W) as [Hb He].
  assert (p ≠ 0 /\ exists x, hdrs m' !! (p - hdr_size) = Some x /\ h_cls x = 13 /\ h_size x = 2 ^ 13) as (Hp & x & Hx).
  { rewrite rt_malloc_msg in E. destruct (Z.eqb_spec (bin_of m 13) 0) as [Hz|Hz]; cbn [negb] in E.
    - destruct Hr as [|Hr]; [done|]. unfold fresh_block in E. unfold msg_room in *.
      destruct (mm_alloc_ok (2 ^ 13) m) as (a & Ha & Hle); [lia..|]. rewrite Ha in E.
      rewrite (proj2 (Z.eqb_neq a 0)) in E by lia. injection E as <- <-. split; [unfold hdr_size; lia|].
      replace (a + hdr_size - hdr_size) with a by lia. eexists. cbn. rewrite lookup_insert_eq. split; [reflexivity|].
      unfold hdr_at. cbn. rewrite lookup_insert_eq. done.
    - rewrite <-(head_at_bin m 13) in * by done.
      destruct (chain_cons_inv m live fl 13 W) as (l & x & _ & Hx & [Hbl _ _ _] & Hfit & _); [unfold is_list, NCLASS; lia|done|].
      injection E as <- <-. set (a := head_at m 13) in *. clearbody a. split; [unfold hdr_size; lia|].
      replace (a + hdr_size - hdr_size) with a by lia.
      eexists. cbn. rewrite lookup_insert_eq. split; [reflexivity|]. unfold hdr_at. cbn. rewrite Hx. done. }
  exists p, m', x. split_and!; try done; try apply Hx.
  destruct (rt_malloc_spec _ _ _ _ _ Hi (ltac:(unfold sizeof_msg; lia) : 0 <= sizeof_msg < 2 ^ 62) E)
    as [[-> _]|(_ & _ & _ & ? & _)]; done.
Qed.

(** Allocating a message and freeing it leaves room for the next. *)
Lemma msg_ready_cycle m : msg_ready m ->
  exists p m', rt_malloc sizeof_msg m = (p, m') /\ p ≠ 0 /\ msg_ready (rt_free p m').
Proof.
  intros (live & Hi & Hr). destruct (malloc_msg_class m live Hi Hr) as (p & m' & x & E & Hp & [fl W] & Hx & Hc & Hs).
  exists p, m'. split_and!; [done..|]. exists ((live ∪ {[p]}) ∖ {[p]}).
  destruct (rt_free_wf m' _ fl p W) as (c & l & W'); [set_solver|]. split; [by eexists|]. left.
  pose proof (wf_block _ _ _ W _ _ Hx) as Hb. pose proof (wf_pool _ _ _ W).
  assert (p - hdr_size ≠ 0 /\ p - hdr_size ≠ - hdr_size) as [Hp0 ?].
  { destruct Hb as [? _ _ _]. unfold hdr_size in *. lia. }
  pose proof (rt_free_eq _ _ _ Hb Hx ltac:(done)) as Heq.
  replace (p - hdr_size + hdr_size) with p in Heq by lia. cbn zeta in Heq.
  assert (home x = 13) as Hh by (unfold home; rewrite Hc, Hs; done). rewrite Hh in Heq.
  rewrite Heq. change (13 =? NCLASS) with false. cbv iota. rewrite bin_of_set; [|apply W|done|done]. by rewrite Z.eqb_refl.
Qed.

(** ** A message through a port *)

(** The kernel after messages came and went on port [g]: nothing but the
    port's ring, the heap, the counters and the log differs. *)
Record moved (k k' : K) (g : Z) (p p' : port) : Prop := {
  mv_core : core k' = core k;
  mv_tab : k_tab k' = k_tab k;
  mv_ports : exists f, f p = p' /\ k_ports k' = k_ports (upd_port g f k);
  mv_used : p_used p' = p_used p;
  mv_name : p_name p' = p_name p;
  mv_endpoint : p_kernel_endpoint p' = p_kernel_endpoint p
}.

Lemma moved_reaches k k' g p p' sid h : moved k k' g p p' -> reaches k sid h g p -> reaches k' sid h g p'.
Proof. intros [Hc _ (f & <- & Hps) Hu _ _] Hr. by eapply reaches_upd. Qed.

Lemma moved_other k k' g p p' sid h g' q :
  moved k k' g p p' -> port_at k g = Some p -> g' ≠ g -> reaches k sid h g' q -> reaches k' sid h g' q.
Proof.
  intros [Hc _ (f & <- & Hps) Hu _ _] Hp Hne [Hg Hq]. split.
  - rewrite (port_of_ext (upd_port g f k)); [by rewrite (port_of_upd _ _ _ p)|done|by apply core_htab].
  - rewrite (port_at_ext (upd_port g f k)) by done. rewrite (port_at_upd _ _ _ _ p) by done.
    by rewrite (proj2 (Z.eqb_neq _ _)).
Qed.

Lemma moved_unawaited k k' g p p' name : moved k k' g p p' -> unawaited name k -> unawaited name k'.
Proof. intros Hm Hu t. rewrite (mv_tab _ _ _ _ _ Hm). apply Hu. Qed.

Lemma moved_trans k1 k2 k3 g p1 p2 p3 : port_at k1 g = Some p1 ->
  moved k1 k2 g p1 p2 -> moved k2 k3 g p2 p3 -> moved k1 k3 g p1 p3.
Proof.
  intros Hp [Hc Ht (f & Ef & Hps) Hu Hn He] [Hc' Ht' (f' & Ef' & Hps') Hu' Hn' He']. split; try congruence.
  exists (f' ∘ f). split; [cbn; congruence|]. rewrite Hps'. cbn. rewrite Hps. cbn. apply alter_alter.
Qed.

Section platform.
Context {P : Platform}.

(** Session [a] sends through its handle [ha], session [b] receives through
    [hb]: the datagram arrives as sent, under the uid of [a]. *)
Lemma hop k a ha b hb g p d :
  reaches k a ha g p -> port_of k b hb = Some g -> a ≠ 0 -> p_kernel_endpoint p = false -> unawaited (p_name p) k ->
  ring_view p [] -> 0 < zlen d <= MSG_MAX -> msg_ready (k_heap k) ->
  exists k1 k2 p1 p2, port_send a ha d k = (0, k1) /\ moved k k1 g p p1
    /\ port_recv b hb MSG_MAX k1 = ((zlen d, stamp (sched_uid_of k a) d), k2) /\ moved k k2 g p p2
    /\ ring_view p2 [] /\ msg_ready (k_heap k2).
Proof.
  intros Hr Hb Ha Hke Hu Hv Hd Hm. pose proof Hr as [_ Hp].
  destruct (msg_ready_cycle _ Hm) as (ptr & hp & E & Hnz & Hm2). set (sd := stamp (sched_uid_of k a) d).
  set (m := mkMsg ptr a sd). assert (exists k1, port_send a ha d k = (0, k1) /\ moved k k1 g p (ring_put m p)
    /\ k_heap k1 = hp) as (k1 & Es & Hmv & Hh).
  { rewrite (port_send_user k a ha g p d) by done. rewrite (proj2 (Z.eqb_neq a 0)) by done. cbn [negb]. fold sd.
    unfold enqueue. rewrite kbind. cbn [kget fst snd]. rewrite Hp, (rv_qn _ _ Hv). change (MAX_Q <=? zlen []) with false.
    cbv iota. rewrite kbind. unfold k_rt_malloc. rewrite E. cbn [fst snd]. rewrite (proj2 (Z.eqb_neq ptr 0)) by done.
    eexists. split; [reflexivity|]. split; [|done]. split; try done. by exists (ring_put m). }
  assert (reaches k b hb g p) as Hrb by done.
  pose proof (moved_reaches _ _ _ _ _ _ _ Hmv Hrb) as Hr1.
  assert (ring_view (ring_put m p) [m]) as Hv1 by (by apply (ring_put_view p [] m Hv)).
  destruct (port_recv_head k1 b hb g (ring_put m p) m [] MSG_MAX Hr1 Hv1) as (k2 & Er & Hps & Hc & Ht & Hh2).
  exists k1, k2, (ring_put m p), (ring_take (ring_put m p)). split_and!; try done.
  - rewrite Er. cbn [m_data m]. unfold sd. rewrite take_ge by (pose proof (zlen_stamp (sched_uid_of k a) d); unfold zlen, MSG_MAX in *; lia).
    by rewrite zlen_stamp.
  - eapply moved_trans; [done..|]. split; try done. by exists ring_take.
  - by apply (ring_take_view _ m).
  - by rewrite Hh2, Hh.
Qed.
End platform.
