(* ===== verification/TermFb.v ===== *)
(** * TermFb: palette, font and the framebuffer window of the terminal

    Models [services/display/terminal/font8x8.go] ([font8x8], [Glyph]) and the
    colour table of [terminal/term.go] ([xrgb], [palette]).  A colour is the
    32-bit word XRGB; a glyph is eight rows of eight bits, bit 7 leftmost. *)

From S2P Require Import Prelude Frame.

Definition GlyphW : Z := 8.
Definition GlyphH : Z := 16.
Definition DefaultCols : Z := 80.
Definition DefaultRows : Z := 25.

Definition xrgb (r g b : Z) : Z := Z.lor (Z.lor (Z.shiftl r 16) (Z.shiftl g 8)) b.

Definition palette : list Z :=
  [ xrgb 0 0 0; xrgb 170 0 0; xrgb 0 170 0; xrgb 170 85 0;
    xrgb 0 0 170; xrgb 170 0 170; xrgb 0 170 170; xrgb 170 170 170;
    xrgb 85 85 85; xrgb 255 85 85; xrgb 85 255 85; xrgb 255 255 85;
    xrgb 85 85 255; xrgb 255 85 255; xrgb 85 255 255; xrgb 255 255 255 ].

(** [palette[c&15]]. *)
Definition color_of (c : Z) : Z := default 0 (palette !! Z.to_nat (Z.land c 15)).

Definition font8x8 : list (list Z) :=
  [
    [0; 0; 0; 0; 0; 0; 0; 0]; [0; 0; 95; 0; 0; 0; 0; 0]; [0; 7; 0; 7; 0; 0; 0; 0];
    [20; 127; 20; 127; 20; 0; 0; 0]; [36; 42; 127; 42; 18; 0; 0; 0]; [35; 19; 8; 100; 98; 0; 0; 0];
    [54; 73; 86; 32; 80; 0; 0; 0]; [0; 8; 7; 3; 0; 0; 0; 0]; [0; 28; 34; 65; 0; 0; 0; 0];
    [0; 65; 34; 28; 0; 0; 0; 0]; [20; 8; 62; 8; 20; 0; 0; 0]; [8; 8; 62; 8; 8; 0; 0; 0];
    [0; 80; 48; 0; 0; 0; 0; 0]; [8; 8; 8; 8; 8; 0; 0; 0]; [0; 96; 96; 0; 0; 0; 0; 0];
    [32; 16; 8; 4; 2; 0; 0; 0]; [62; 81; 73; 69; 62; 0; 0; 0]; [0; 66; 127; 64; 0; 0; 0; 0];
    [66; 97; 81; 73; 70; 0; 0; 0]; [33; 65; 69; 75; 49; 0; 0; 0]; [24; 20; 18; 127; 16; 0; 0; 0];
    [39; 69; 69; 69; 57; 0; 0; 0]; [60; 74; 73; 73; 48; 0; 0; 0]; [1; 113; 9; 5; 3; 0; 0; 0];
    [54; 73; 73; 73; 54; 0; 0; 0]; [6; 73; 73; 41; 30; 0; 0; 0]; [0; 54; 54; 0; 0; 0; 0; 0];
    [0; 86; 54; 0; 0; 0; 0; 0]; [8; 20; 34; 65; 0; 0; 0; 0]; [20; 20; 20; 20; 20; 0; 0; 0];
    [0; 65; 34; 20; 8; 0; 0; 0]; [2; 1; 81; 9; 6; 0; 0; 0]; [50; 73; 121; 65; 62; 0; 0; 0];
    [126; 17; 17; 17; 126; 0; 0; 0]; [127; 73; 73; 73; 54; 0; 0; 0]; [62; 65; 65; 65; 34; 0; 0; 0];
    [127; 65; 65; 34; 28; 0; 0; 0]; [127; 73; 73; 73; 65; 0; 0; 0]; [127; 9; 9; 9; 1; 0; 0; 0];
    [62; 65; 73; 73; 122; 0; 0; 0]; [127; 8; 8; 8; 127; 0; 0; 0]; [0; 65; 127; 65; 0; 0; 0; 0];
    [32; 64; 65; 63; 1; 0; 0; 0]; [127; 8; 20; 34; 65; 0; 0; 0]; [127; 64; 64; 64; 64; 0; 0; 0];
    [127; 2; 12; 2; 127; 0; 0; 0]; [127; 4; 8; 16; 127; 0; 0; 0]; [62; 65; 65; 65; 62; 0; 0; 0];
    [127; 9; 9; 9; 6; 0; 0; 0]; [62; 65; 81; 33; 94; 0; 0; 0]; [127; 9; 25; 41; 70; 0; 0; 0];
    [70; 73; 73; 73; 49; 0; 0; 0]; [1; 1; 127; 1; 1; 0; 0; 0]; [63; 64; 64; 64; 63; 0; 0; 0];
    [31; 32; 64; 32; 31; 0; 0; 0]; [63; 64; 56; 64; 63; 0; 0; 0]; [99; 20; 8; 20; 99; 0; 0; 0];
    [7; 8; 112; 8; 7; 0; 0; 0]; [97; 81; 73; 69; 67; 0; 0; 0]; [0; 127; 65; 65; 0; 0; 0; 0];
    [2; 4; 8; 16; 32; 0; 0; 0]; [0; 65; 65; 127; 0; 0; 0; 0]; [4; 2; 1; 2; 4; 0; 0; 0];
    [64; 64; 64; 64; 64; 0; 0; 0]; [0; 1; 2; 4; 0; 0; 0; 0]; [32; 84; 84; 84; 120; 0; 0; 0];
    [127; 72; 68; 68; 56; 0; 0; 0]; [56; 68; 68; 68; 32; 0; 0; 0]; [56; 68; 68; 72; 127; 0; 0; 0];
    [56; 84; 84; 84; 24; 0; 0; 0]; [8; 126; 9; 1; 2; 0; 0; 0]; [12; 82; 82; 82; 62; 0; 0; 0];
    [127; 8; 4; 4; 120; 0; 0; 0]; [0; 68; 125; 64; 0; 0; 0; 0]; [32; 64; 68; 61; 0; 0; 0; 0];
    [127; 16; 40; 68; 0; 0; 0; 0]; [0; 65; 127; 64; 0; 0; 0; 0]; [124; 4; 24; 4; 120; 0; 0; 0];
    [124; 8; 4; 4; 120; 0; 0; 0]; [56; 68; 68; 68; 56; 0; 0; 0]; [124; 20; 20; 20; 8; 0; 0; 0];
    [8; 20; 20; 24; 124; 0; 0; 0]; [124; 8; 4; 4; 8; 0; 0; 0]; [72; 84; 84; 84; 32; 0; 0; 0];
    [4; 63; 68; 64; 32; 0; 0; 0]; [60; 64; 64; 32; 124; 0; 0; 0]; [28; 32; 64; 32; 28; 0; 0; 0];
    [60; 64; 48; 64; 60; 0; 0; 0]; [68; 40; 16; 40; 68; 0; 0; 0]; [12; 80; 80; 80; 60; 0; 0; 0];
    [68; 100; 84; 76; 68; 0; 0; 0]; [0; 8; 54; 65; 0; 0; 0; 0]; [0; 0; 127; 0; 0; 0; 0; 0];
    [0; 65; 54; 8; 0; 0; 0; 0]; [8; 4; 8; 16; 8; 0; 0; 0]
  ].

Definition Glyph (ch : Z) : list Z :=
  if (ch <? 32) || (126 <? ch) then default [] (font8x8 !! 0%nat)
  else default [] (font8x8 !! Z.to_nat (ch - 32)).

(** Every glyph has its eight rows: [glyph[gy]] with [gy < 8] is in range. *)
Lemma Glyph_rows ch : length (Glyph ch) = 8%nat.
Proof.
  assert (H : Forall (fun g : list Z => length g = 8%nat) font8x8) by (repeat constructor).
  unfold Glyph. destruct ((ch <? 32) || (126 <? ch)) eqn:E; [done|].
  destruct (font8x8 !! Z.to_nat (ch - 32)) as [g|] eqn:G.
  - rewrite Forall_lookup in H. exact (H _ _ G).
  - apply lookup_ge_None in G. change (length font8x8) with 95%nat in G. lia.
Qed.

(** * The framebuffer window and its backend

    Models [services/display/terminal/fb.go] ([FBWindow]: the window header,
    the pixel area and the control mailbox) and the backend of
    [terminal/fb_fake.go] ([FakeFB.serve]) that completes mailbox requests.

    The window is the byte array both sides share.  [request] posts one
    operation and polls the completion; what the other side does while the
    caller yields is one turn of the [Backend] instance, under the mutex.  A
    schedule, a list of booleans, says at which yields the backend gets a
    turn; a poll that outlives its schedule is [Unanswered]. *)

Definition fbMagic : Z := 0x57424642.
Definition fbPixBase : Z := 0x40.
Definition FBBpp : Z := 32.
Definition fbOpSetMode : Z := 1.
Definition fbOpFlip : Z := 2.
Definition fbOpUpdateRect : Z := 3.
Definition FBCapDoubleBuffer : Z := Z.shiftl 1 0.
Definition FBWindowMin : Z := 0x40 + DefaultCols * GlyphW * DefaultRows * GlyphH * 4.

(** [Unanswered]: the caller is still polling when the schedule ends. *)
Inductive fault := Unanswered.

(** ** The window *)

Record FBWindow := mkFB { mem : list byte; req : Z }.

Definition set_mem (m : list byte) (w : FBWindow) : FBWindow := mkFB m (req w).

(** [None] is [ErrFBWindow]. *)
Definition NewFBWindow (m : list byte) : option FBWindow :=
  if zlen m <? fbPixBase then None
  else if negb (Get32 m 0 =? fbMagic) then None
  else Some (mkFB m 0).

Definition Width (w : FBWindow) : Z := Get32 (mem w) 0x04.
Definition Height (w : FBWindow) : Z := Get32 (mem w) 0x08.
Definition Caps (w : FBWindow) : Z := Get32 (mem w) 0x18.
Definition FBOffset (w : FBWindow) : Z := Get64 (mem w) 0x10.
Definition Attached (w : FBWindow) : bool := negb (Width w =? 0).

(** The slice [w.mem[int(off):int(off+size)]] as its first index and length;
    [(0, 0)] is the nil slice. *)
Definition Pixels (w : FBWindow) : outcome fault (Z * Z) :=
  if negb (Attached w) then Ok (0, 0)
  else
    let off := FBOffset w in
    let stride := u64 (Width w * 4) in
    let size := u64 (stride * Height w) in
    let hi := i64 (u64 (off + size)) in
    if zlen (mem w) <? hi then Ok (0, 0)
    else
      let lo := i64 off in
      if (0 <=? lo) && (lo <=? hi) then Ok (lo, hi - lo) else Panic.

(** ** The mailbox *)

(** One turn of the other side of the mailbox. *)
Class Backend (D : Type) := serve_turn : D -> list byte -> D * list byte.

Record Link (D : Type) := mkLink { win : FBWindow; dev : D; sched : list bool }.
Arguments mkLink {D} win dev sched.
Arguments win {D} l.
Arguments dev {D} l.
Arguments sched {D} l.

Section mailbox.
Context {D : Type} `{Backend D}.

Definition post (op a0 a1 a2 : Z) (w : FBWindow) : FBWindow :=
  let m := Put32 (mem w) 0x20 op in
  let m := Put32 m 0x30 a0 in
  let m := Put32 m 0x34 a1 in
  let m := Put32 m 0x38 a2 in
  let next := u32 (Get32 m 0x24 + 1) in
  mkFB (Put32 m 0x24 next) next.

(** The poll loop of [request], one entry of the schedule per yield. *)
Fixpoint poll (s : list bool) (w : FBWindow) (d : D) : outcome fault Z * Link D :=
  match s with
  | [] => (Err Unanswered, mkLink w d [])
  | turn :: s' =>
      let '(d', m) := if turn then serve_turn d (mem w) else (d, mem w) in
      let w' := set_mem m w in
      if Get32 m 0x28 =? req w then (Ok (i32 (Get32 m 0x2c)), mkLink w' d' s')
      else poll s' w' d'
  end.

Definition request (op a0 a1 a2 : Z) : M (Link D) fault Z := fun l =>
  poll (sched l) (post op a0 a1 a2 (win l)) (dev l).

Definition SetMode (width height : Z) : M (Link D) fault Z :=
  l ← getS;
  if negb (Attached (win l)) then mret 0 else request fbOpSetMode width height FBBpp.

Definition Flip : M (Link D) fault Z :=
  l ← getS;
  if negb (Attached (win l)) then mret 0 else request fbOpFlip 0 0 0.

(** The height is accepted and not sent: the request has three slots. *)
Definition UpdateRect (x y wd ht : Z) : M (Link D) fault Z :=
  l ← getS;
  if negb (Attached (win l)) then mret 0 else request fbOpUpdateRect x y wd.

End mailbox.

(** ** The host backend *)

(** [Pix] is a view of the shared array; only its length is read. *)
Record FakeFB := mkFake {
  pix_len : Z; Mode : Z * Z * Z; Flips : Z; Rects : list (Z * Z * Z * Z); served : Z
}.

(** One round of [serve]'s loop. *)
#[export] Instance serve : Backend FakeFB := fun ff m =>
  let next := Get32 m 0x24 in
  if next =? served ff then (ff, m)
  else
    let op := Get32 m 0x20 in
    let a := Get32 m 0x30 in
    let b := Get32 m 0x34 in
    let c := Get32 m 0x38 in
    let '(st, ff1, m1) :=
      if op =? fbOpSetMode then
        if (a =? 0) || (b =? 0) || (u32 (pix_len ff) <? u32 (u32 (a * b) * 4)) then (-1, ff, m)
        else (0, mkFake (pix_len ff) (a, b, c) (Flips ff) (Rects ff) next,
                 Put32 (Put32 m 0x04 a) 0x08 b)
      else if op =? fbOpFlip then
        (0, mkFake (pix_len ff) (Mode ff) (Flips ff + 1) (Rects ff) next, m)
      else if op =? fbOpUpdateRect then
        (0, mkFake (pix_len ff) (Mode ff) (Flips ff) (Rects ff ++ [(a, b, c, Get32 m 0x3c)]) next, m)
      else (-1, ff, m) in
    (mkFake (pix_len ff1) (Mode ff1) (Flips ff1) (Rects ff1) next,
     Put32 (Put32 m1 0x28 next) 0x2c (u32 st)).

Definition NewFake (width height caps : Z) : FakeFB * list byte :=
  let fbSize := width * height * 4 in
  let m := mkbuf (fbPixBase + fbSize + 64) in
  let m := Put32 m 0x00 fbMagic in
  let m := Put32 m 0x04 width in
  let m := Put32 m 0x08 height in
  let m := Put32 m 0x0c FBBpp in
  let m := Put64 m 0x10 fbPixBase in
  let m := Put32 m 0x18 caps in
  (mkFake fbSize (0, 0, 0) 0 [] 0, m).
