(* ===== verification/TermState.v ===== *)
(** * TermState: the terminal's state and the library calls it makes

    Models the data of [services/display/terminal/term.go]: the cell grid and
    the [Terminal] structure, field by field, with one setter per assigned
    field; and the library functions its parser calls: [bytes.Split],
    [bytes.SplitN], [strconv.Atoi] and [strconv.Itoa].

    Operations are computations of the state-and-outcome monad over
    [Terminal]: an index or a slice bound out of range is [Panic]. *)

From Stdlib Require Import DecimalString DecimalZ.
From S2P Require Import Prelude Frame TermFb.

Record cell := mkCell { ch : Z; cfg : Z; cbg : Z }.

Record Terminal := mkTerm {
  fb : FBWindow; cols : Z; rows : Z; grid : list cell; curX : Z; curY : Z; fg : Z; bg : Z; dirty
  : bool; esc : bool; csi : bool; decPm : bool; csiBuf : list byte; osc : bool; oscBuf : list
  byte; cursorVisible : bool; cursorBlink : bool; cursorOn : bool; cursorTicker : Z; savedX : Z;
  savedY : Z; altScreen : bool; altGrid : list cell; altX : Z; altY : Z; scrollTop : Z;
  scrollBottom : Z; bracketedPaste : bool; focusReporting : bool; mouseMode : Z; autoWrap :
  bool; appCursorKeys : bool; title : list byte
}.

Definition set_fb (v : FBWindow) (t : Terminal) : Terminal :=
  mkTerm v (cols t) (rows t) (grid t) (curX t) (curY t) (fg t) (bg t) (dirty t) (esc t) (csi t)
    (decPm t) (csiBuf t) (osc t) (oscBuf t) (cursorVisible t) (cursorBlink t) (cursorOn t)
    (cursorTicker t) (savedX t) (savedY t) (altScreen t) (altGrid t) (altX t) (altY t)
    (scrollTop t) (scrollBottom t) (bracketedPaste t) (focusReporting t) (mouseMode t)
    (autoWrap t) (appCursorKeys t) (title t).
Definition set_grid (v : list cell) (t : Terminal) : Terminal :=
  mkTerm (fb t) (cols t) (rows t) v (curX t) (curY t) (fg t) (bg t) (dirty t) (esc t) (csi t)
    (decPm t) (csiBuf t) (osc t) (oscBuf t) (cursorVisible t) (cursorBlink t) (cursorOn t)
    (cursorTicker t) (savedX t) (savedY t) (altScreen t) (altGrid t) (altX t) (altY t)
    (scrollTop t) (scrollBottom t) (bracketedPaste t) (focusReporting t) (mouseMode t)
    (autoWrap t) (appCursorKeys t) (title t).
Definition set_curX (v : Z) (t : Terminal) : Terminal :=
  mkTerm (fb t) (cols t) (rows t) (grid t) v (curY t) (fg t) (bg t) (dirty t) (esc t) (csi t)
    (decPm t) (csiBuf t) (osc t) (oscBuf t) (cursorVisible t) (cursorBlink t) (cursorOn t)
    (cursorTicker t) (savedX t) (savedY t) (altScreen t) (altGrid t) (altX t) (altY t)
    (scrollTop t) (scrollBottom t) (bracketedPaste t) (focusReporting t) (mouseMode t)
    (autoWrap t) (appCursorKeys t) (title t).
Definition set_curY (v : Z) (t : Terminal) : Terminal :=
  mkTerm (fb t) (cols t) (rows t) (grid t) (curX t) v (fg t) (bg t) (dirty t) (esc t) (csi t)
    (decPm t) (csiBuf t) (osc t) (oscBuf t) (cursorVisible t) (cursorBlink t) (cursorOn t)
    (cursorTicker t) (savedX t) (savedY t) (altScreen t) (altGrid t) (altX t) (altY t)
    (scrollTop t) (scrollBottom t) (bracketedPaste t) (focusReporting t) (mouseMode t)
    (autoWrap t) (appCursorKeys t) (title t).
Definition set_fg (v : Z) (t : Terminal) : Terminal :=
  mkTerm (fb t) (cols t) (rows t) (grid t) (curX t) (curY t) v (bg t) (dirty t) (esc t) (csi t)
    (decPm t) (csiBuf t) (osc t) (oscBuf t) (cursorVisible t) (cursorBlink t) (cursorOn t)
    (cursorTicker t) (savedX t) (savedY t) (altScreen t) (altGrid t) (altX t) (altY t)
    (scrollTop t) (scrollBottom t) (bracketedPaste t) (focusReporting t) (mouseMode t)
    (autoWrap t) (appCursorKeys t) (title t).
Definition set_bg (v : Z) (t : Terminal) : Terminal :=
  mkTerm (fb t) (cols t) (rows t) (grid t) (curX t) (curY t) (fg t) v (dirty t) (esc t) (csi t)
    (decPm t) (csiBuf t) (osc t) (oscBuf t) (cursorVisible t) (cursorBlink t) (cursorOn t)
    (cursorTicker t) (savedX t) (savedY t) (altScreen t) (altGrid t) (altX t) (altY t)
    (scrollTop t) (scrollBottom t) (bracketedPaste t) (focusReporting t) (mouseMode t)
    (autoWrap t) (appCursorKeys t) (title t).
Definition set_dirty (v : bool) (t : Terminal) : Terminal :=
  mkTerm (fb t) (cols t) (rows t) (grid t) (curX t) (curY t) (fg t) (bg t) v (esc t) (csi t)
    (decPm t) (csiBuf t) (osc t) (oscBuf t) (cursorVisible t) (cursorBlink t) (cursorOn t)
    (cursorTicker t) (savedX t) (savedY t) (altScreen t) (altGrid t) (altX t) (altY t)
    (scrollTop t) (scrollBottom t) (bracketedPaste t) (focusReporting t) (mouseMode t)
    (autoWrap t) (appCursorKeys t) (title t).
Definition set_esc (v : bool) (t : Terminal) : Terminal :=
  mkTerm (fb t) (cols t) (rows t) (grid t) (curX t) (curY t) (fg t) (bg t) (dirty t) v (csi t)
    (decPm t) (csiBuf t) (osc t) (oscBuf t) (cursorVisible t) (cursorBlink t) (cursorOn t)
    (cursorTicker t) (savedX t) (savedY t) (altScreen t) (altGrid t) (altX t) (altY t)
    (scrollTop t) (scrollBottom t) (bracketedPaste t) (focusReporting t) (mouseMode t)
    (autoWrap t) (appCursorKeys t) (title t).
Definition set_csi (v : bool) (t : Terminal) : Terminal :=
  mkTerm (fb t) (cols t) (rows t) (grid t) (curX t) (curY t) (fg t) (bg t) (dirty t) (esc t) v
    (decPm t) (csiBuf t) (osc t) (oscBuf t) (cursorVisible t) (cursorBlink t) (cursorOn t)
    (cursorTicker t) (savedX t) (savedY t) (altScreen t) (altGrid t) (altX t) (altY t)
    (scrollTop t) (scrollBottom t) (bracketedPaste t) (focusReporting t) (mouseMode t)
    (autoWrap t) (appCursorKeys t) (title t).
Definition set_decPm (v : bool) (t : Terminal) : Terminal :=
  mkTerm (fb t) (cols t) (rows t) (grid t) (curX t) (curY t) (fg t) (bg t) (dirty t) (esc t)
    (csi t) v (csiBuf t) (osc t) (oscBuf t) (cursorVisible t) (cursorBlink t) (cursorOn t)
    (cursorTicker t) (savedX t) (savedY t) (altScreen t) (altGrid t) (altX t) (altY t)
    (scrollTop t) (scrollBottom t) (bracketedPaste t) (focusReporting t) (mouseMode t)
    (autoWrap t) (appCursorKeys t) (title t).
Definition set_csiBuf (v : list byte) (t : Terminal) : Terminal :=
  mkTerm (fb t) (cols t) (rows t) (grid t) (curX t) (curY t) (fg t) (bg t) (dirty t) (esc t)
    (csi t) (decPm t) v (osc t) (oscBuf t) (cursorVisible t) (cursorBlink t) (cursorOn t)
    (cursorTicker t) (savedX t) (savedY t) (altScreen t) (altGrid t) (altX t) (altY t)
    (scrollTop t) (scrollBottom t) (bracketedPaste t) (focusReporting t) (mouseMode t)
    (autoWrap t) (appCursorKeys t) (title t).
Definition set_osc (v : bool) (t : Terminal) : Terminal :=
  mkTerm (fb t) (cols t) (rows t) (grid t) (curX t) (curY t) (fg t) (bg t) (dirty t) (esc t)
    (csi t) (decPm t) (csiBuf t) v (oscBuf t) (cursorVisible t) (cursorBlink t) (cursorOn t)
    (cursorTicker t) (savedX t) (savedY t) (altScreen t) (altGrid t) (altX t) (altY t)
    (scrollTop t) (scrollBottom t) (bracketedPaste t) (focusReporting t) (mouseMode t)
    (autoWrap t) (appCursorKeys t) (title t).
Definition set_oscBuf (v : list byte) (t : Terminal) : Terminal :=
  mkTerm (fb t) (cols t) (rows t) (grid t) (curX t) (curY t) (fg t) (bg t) (dirty t) (esc t)
    (csi t) (decPm t) (csiBuf t) (osc t) v (cursorVisible t) (cursorBlink t) (cursorOn t)
    (cursorTicker t) (savedX t) (savedY t) (altScreen t) (altGrid t) (altX t) (altY t)
    (scrollTop t) (scrollBottom t) (bracketedPaste t) (focusReporting t) (mouseMode t)
    (autoWrap t) (appCursorKeys t) (title t).
Definition set_cursorVisible (v : bool) (t : Terminal) : Terminal :=
  mkTerm (fb t) (cols t) (rows t) (grid t) (curX t) (curY t) (fg t) (bg t) (dirty t) (esc t)
    (csi t) (decPm t) (csiBuf t) (osc t) (oscBuf t) v (cursorBlink t) (cursorOn t)
    (cursorTicker t) (savedX t) (savedY t) (altScreen t) (altGrid t) (altX t) (altY t)
    (scrollTop t) (scrollBottom t) (bracketedPaste t) (focusReporting t) (mouseMode t)
    (autoWrap t) (appCursorKeys t) (title t).
Definition set_cursorBlink (v : bool) (t : Terminal) : Terminal :=
  mkTerm (fb t) (cols t) (rows t) (grid t) (curX t) (curY t) (fg t) (bg t) (dirty t) (esc t)
    (csi t) (decPm t) (csiBuf t) (osc t) (oscBuf t) (cursorVisible t) v (cursorOn t)
    (cursorTicker t) (savedX t) (savedY t) (altScreen t) (altGrid t) (altX t) (altY t)
    (scrollTop t) (scrollBottom t) (bracketedPaste t) (focusReporting t) (mouseMode t)
    (autoWrap t) (appCursorKeys t) (title t).
Definition set_cursorOn (v : bool) (t : Terminal) : Terminal :=
  mkTerm (fb t) (cols t) (rows t) (grid t) (curX t) (curY t) (fg t) (bg t) (dirty t) (esc t)
    (csi t) (decPm t) (csiBuf t) (osc t) (oscBuf t) (cursorVisible t) (cursorBlink t) v
    (cursorTicker t) (savedX t) (savedY t) (altScreen t) (altGrid t) (altX t) (altY t)
    (scrollTop t) (scrollBottom t) (bracketedPaste t) (focusReporting t) (mouseMode t)
    (autoWrap t) (appCursorKeys t) (title t).
Definition set_cursorTicker (v : Z) (t : Terminal) : Terminal :=
  mkTerm (fb t) (cols t) (rows t) (grid t) (curX t) (curY t) (fg t) (bg t) (dirty t) (esc t)
    (csi t) (decPm t) (csiBuf t) (osc t) (oscBuf t) (cursorVisible t) (cursorBlink t)
    (cursorOn t) v (savedX t) (savedY t) (altScreen t) (altGrid t) (altX t) (altY t)
    (scrollTop t) (scrollBottom t) (bracketedPaste t) (focusReporting t) (mouseMode t)
    (autoWrap t) (appCursorKeys t) (title t).
Definition set_savedX (v : Z) (t : Terminal) : Terminal :=
  mkTerm (fb t) (cols t) (rows t) (grid t) (curX t) (curY t) (fg t) (bg t) (dirty t) (esc t)
    (csi t) (decPm t) (csiBuf t) (osc t) (oscBuf t) (cursorVisible t) (cursorBlink t)
    (cursorOn t) (cursorTicker t) v (savedY t) (altScreen t) (altGrid t) (altX t) (altY t)
    (scrollTop t) (scrollBottom t) (bracketedPaste t) (focusReporting t) (mouseMode t)
    (autoWrap t) (appCursorKeys t) (title t).
Definition set_savedY (v : Z) (t : Terminal) : Terminal :=
  mkTerm (fb t) (cols t) (rows t) (grid t) (curX t) (curY t) (fg t) (bg t) (dirty t) (esc t)
    (csi t) (decPm t) (csiBuf t) (osc t) (oscBuf t) (cursorVisible t) (cursorBlink t)
    (cursorOn t) (cursorTicker t) (savedX t) v (altScreen t) (altGrid t) (altX t) (altY t)
    (scrollTop t) (scrollBottom t) (bracketedPaste t) (focusReporting t) (mouseMode t)
    (autoWrap t) (appCursorKeys t) (title t).
Definition set_altScreen (v : bool) (t : Terminal) : Terminal :=
  mkTerm (fb t) (cols t) (rows t) (grid t) (curX t) (curY t) (fg t) (bg t) (dirty t) (esc t)
    (csi t) (decPm t) (csiBuf t) (osc t) (oscBuf t) (cursorVisible t) (cursorBlink t)
    (cursorOn t) (cursorTicker t) (savedX t) (savedY t) v (altGrid t) (altX t) (altY t)
    (scrollTop t) (scrollBottom t) (bracketedPaste t) (focusReporting t) (mouseMode t)
    (autoWrap t) (appCursorKeys t) (title t).
Definition set_altGrid (v : list cell) (t : Terminal) : Terminal :=
  mkTerm (fb t) (cols t) (rows t) (grid t) (curX t) (curY t) (fg t) (bg t) (dirty t) (esc t)
    (csi t) (decPm t) (csiBuf t) (osc t) (oscBuf t) (cursorVisible t) (cursorBlink t)
    (cursorOn t) (cursorTicker t) (savedX t) (savedY t) (altScreen t) v (altX t) (altY t)
    (scrollTop t) (scrollBottom t) (bracketedPaste t) (focusReporting t) (mouseMode t)
    (autoWrap t) (appCursorKeys t) (title t).
Definition set_altX (v : Z) (t : Terminal) : Terminal :=
  mkTerm (fb t) (cols t) (rows t) (grid t) (curX t) (curY t) (fg t) (bg t) (dirty t) (esc t)
    (csi t) (decPm t) (csiBuf t) (osc t) (oscBuf t) (cursorVisible t) (cursorBlink t)
    (cursorOn t) (cursorTicker t) (savedX t) (savedY t) (altScreen t) (altGrid t) v (altY t)
    (scrollTop t) (scrollBottom t) (bracketedPaste t) (focusReporting t) (mouseMode t)
    (autoWrap t) (appCursorKeys t) (title t).
Definition set_altY (v : Z) (t : Terminal) : Terminal :=
  mkTerm (fb t) (cols t) (rows t) (grid t) (curX t) (curY t) (fg t) (bg t) (dirty t) (esc t)
    (csi t) (decPm t) (csiBuf t) (osc t) (oscBuf t) (cursorVisible t) (cursorBlink t)
    (cursorOn t) (cursorTicker t) (savedX t) (savedY t) (altScreen t) (altGrid t) (altX t) v
    (scrollTop t) (scrollBottom t) (bracketedPaste t) (focusReporting t) (mouseMode t)
    (autoWrap t) (appCursorKeys t) (title t).
Definition set_scrollTop (v : Z) (t : Terminal) : Terminal :=
  mkTerm (fb t) (cols t) (rows t) (grid t) (curX t) (curY t) (fg t) (bg t) (dirty t) (esc t)
    (csi t) (decPm t) (csiBuf t) (osc t) (oscBuf t) (cursorVisible t) (cursorBlink t)
    (cursorOn t) (cursorTicker t) (savedX t) (savedY t) (altScreen t) (altGrid t) (altX t)
    (altY t) v (scrollBottom t) (bracketedPaste t) (focusReporting t) (mouseMode t) (autoWrap t)
    (appCursorKeys t) (title t).
Definition set_scrollBottom (v : Z) (t : Terminal) : Terminal :=
  mkTerm (fb t) (cols t) (rows t) (grid t) (curX t) (curY t) (fg t) (bg t) (dirty t) (esc t)
    (csi t) (decPm t) (csiBuf t) (osc t) (oscBuf t) (cursorVisible t) (cursorBlink t)
    (cursorOn t) (cursorTicker t) (savedX t) (savedY t) (altScreen t) (altGrid t) (altX t)
    (altY t) (scrollTop t) v (bracketedPaste t) (focusReporting t) (mouseMode t) (autoWrap t)
    (appCursorKeys t) (title t).
Definition set_bracketedPaste (v : bool) (t : Terminal) : Terminal :=
  mkTerm (fb t) (cols t) (rows t) (grid t) (curX t) (curY t) (fg t) (bg t) (dirty t) (esc t)
    (csi t) (decPm t) (csiBuf t) (osc t) (oscBuf t) (cursorVisible t) (cursorBlink t)
    (cursorOn t) (cursorTicker t) (savedX t) (savedY t) (altScreen t) (altGrid t) (altX t)
    (altY t) (scrollTop t) (scrollBottom t) v (focusReporting t) (mouseMode t) (autoWrap t)
    (appCursorKeys t) (title t).
Definition set_focusReporting (v : bool) (t : Terminal) : Terminal :=
  mkTerm (fb t) (cols t) (rows t) (grid t) (curX t) (curY t) (fg t) (bg t) (dirty t) (esc t)
    (csi t) (decPm t) (csiBuf t) (osc t) (oscBuf t) (cursorVisible t) (cursorBlink t)
    (cursorOn t) (cursorTicker t) (savedX t) (savedY t) (altScreen t) (altGrid t) (altX t)
    (altY t) (scrollTop t) (scrollBottom t) (bracketedPaste t) v (mouseMode t) (autoWrap t)
    (appCursorKeys t) (title t).
Definition set_mouseMode (v : Z) (t : Terminal) : Terminal :=
  mkTerm (fb t) (cols t) (rows t) (grid t) (curX t) (curY t) (fg t) (bg t) (dirty t) (esc t)
    (csi t) (decPm t) (csiBuf t) (osc t) (oscBuf t) (cursorVisible t) (cursorBlink t)
    (cursorOn t) (cursorTicker t) (savedX t) (savedY t) (altScreen t) (altGrid t) (altX t)
    (altY t) (scrollTop t) (scrollBottom t) (bracketedPaste t) (focusReporting t) v (autoWrap t)
    (appCursorKeys t) (title t).
Definition set_autoWrap (v : bool) (t : Terminal) : Terminal :=
  mkTerm (fb t) (cols t) (rows t) (grid t) (curX t) (curY t) (fg t) (bg t) (dirty t) (esc t)
    (csi t) (decPm t) (csiBuf t) (osc t) (oscBuf t) (cursorVisible t) (cursorBlink t)
    (cursorOn t) (cursorTicker t) (savedX t) (savedY t) (altScreen t) (altGrid t) (altX t)
    (altY t) (scrollTop t) (scrollBottom t) (bracketedPaste t) (focusReporting t) (mouseMode t)
    v (appCursorKeys t) (title t).
Definition set_appCursorKeys (v : bool) (t : Terminal) : Terminal :=
  mkTerm (fb t) (cols t) (rows t) (grid t) (curX t) (curY t) (fg t) (bg t) (dirty t) (esc t)
    (csi t) (decPm t) (csiBuf t) (osc t) (oscBuf t) (cursorVisible t) (cursorBlink t)
    (cursorOn t) (cursorTicker t) (savedX t) (savedY t) (altScreen t) (altGrid t) (altX t)
    (altY t) (scrollTop t) (scrollBottom t) (bracketedPaste t) (focusReporting t) (mouseMode t)
    (autoWrap t) v (title t).
Definition set_title (v : list byte) (t : Terminal) : Terminal :=
  mkTerm (fb t) (cols t) (rows t) (grid t) (curX t) (curY t) (fg t) (bg t) (dirty t) (esc t)
    (csi t) (decPm t) (csiBuf t) (osc t) (oscBuf t) (cursorVisible t) (cursorBlink t)
    (cursorOn t) (cursorTicker t) (savedX t) (savedY t) (altScreen t) (altGrid t) (altX t)
    (altY t) (scrollTop t) (scrollBottom t) (bracketedPaste t) (focusReporting t) (mouseMode t)
    (autoWrap t) (appCursorKeys t) v.
Definition set_size (w h : Z) (t : Terminal) : Terminal :=
  mkTerm (fb t) w h (grid t) (curX t) (curY t) (fg t) (bg t) (dirty t) (esc t) (csi t) (decPm t)
    (csiBuf t) (osc t) (oscBuf t) (cursorVisible t) (cursorBlink t) (cursorOn t)
    (cursorTicker t) (savedX t) (savedY t) (altScreen t) (altGrid t) (altX t) (altY t)
    (scrollTop t) (scrollBottom t) (bracketedPaste t) (focusReporting t) (mouseMode t)
    (autoWrap t) (appCursorKeys t) (title t).

Abbreviation TM := (M Terminal fault).

(** ** Loops and the grid *)

(** [for i := lo; i < hi; i++ { body(i) }]. *)
Fixpoint for_from {S E} (n : nat) (i : Z) (body : Z -> M S E unit) : M S E unit :=
  match n with
  | O => mret tt
  | Datatypes.S n' => _ ← body i; for_from n' (i + 1) body
  end.

Definition for_range {S E} (lo hi : Z) (body : Z -> M S E unit) : M S E unit :=
  for_from (Z.to_nat (hi - lo)) lo body.

(** [t.grid[i] = c]. *)
Definition grid_set (i : Z) (c : cell) : TM unit :=
  t ← getS;
  if (0 <=? i) && (i <? zlen (grid t)) then
    modifyS (set_grid (<[Z.to_nat i := c]> (grid t)))
  else panic.

Definition blank (t : Terminal) : cell := mkCell 32 (fg t) (bg t).

(** [t.grid[i] = cell{ch: ' ', fg: t.fg, bg: t.bg}]. *)
Definition grid_blank (i : Z) : TM unit := t ← getS; grid_set i (blank t).

(** ** Library functions *)

(** [bytes.Split(s, sep)] for a one-byte separator. *)
Fixpoint Split (sep : byte) (s : list byte) : list (list byte) :=
  match s with
  | [] => [[]]
  | c :: s' =>
      if Byte.eqb c sep then [] :: Split sep s'
      else match Split sep s' with
           | [] => [[c]]
           | p :: ps => (c :: p) :: ps
           end
  end.

(** [bytes.SplitN(s, sep, 2)]: the part before the first separator and, when
    there is one, the rest. *)
Fixpoint SplitN2 (sep : byte) (s : list byte) : list byte * option (list byte) :=
  match s with
  | [] => ([], None)
  | c :: s' =>
      if Byte.eqb c sep then ([], Some s')
      else let '(p, q) := SplitN2 sep s' in (c :: p, q)
  end.

(** [strconv.Atoi] on unsigned digits (only digits and '?' reach it): the
    value and whether an error came with it.  A character that is no digit
    gives 0; a number out of range gives the largest [int]. *)
Inductive num_error := ErrSyntax | ErrRange.

Fixpoint parse_uint (un : Z) (s : list byte) : Z * option num_error :=
  match s with
  | [] => (un, None)
  | c :: s' =>
      let d := b2z c - 48 in
      if (d <? 0) || (9 <? d) then (0, Some ErrSyntax)
      else
        let n := un * 10 + d in
        if 2 ^ 64 <=? n then (2 ^ 64 - 1, Some ErrRange) else parse_uint n s'
  end.

Definition Atoi (s : list byte) : Z * option num_error :=
  match s with
  | [] => (0, Some ErrSyntax)
  | _ =>
      match parse_uint 0 s with
      | (_, Some ErrSyntax) => (0, Some ErrSyntax)
      | (un, e) => if 2 ^ 63 <=? un then (2 ^ 63 - 1, Some ErrRange) else (un, e)
      end
  end.

Definition Itoa (n : Z) : list byte := bs (NilEmpty.string_of_int (Z.to_int n)).
