(* ===== verification/Terminal.v ===== *)
(** * Terminal: the escape-sequence parser and the screen operations

    Models [services/display/terminal/term.go] up to [Flush] (which is in
    [TermFlush]): construction, the byte-at-a-time parser [putc] with its
    escape, CSI and OSC states, the cursor and erase operations, scrolling
    with the DECSTBM region, the alternate screen, colours, and the encoders
    of focus and mouse reports. *)

From Stdlib Require Import Strings.Byte.
From S2P Require Import Prelude Frame TermFb TermState.

Local Infix "=b" := Byte.eqb (at level 70).

(** ** Cursor and cells *)

Definition setCell (c : Z) : TM unit :=
  t ← getS;
  _ ← grid_set (i64 (curY t * cols t + curX t)) (mkCell c (fg t) (bg t));
  modifyS (set_dirty true).

Definition clampX (t : Terminal) : Terminal :=
  if curX t <? 0 then set_curX 0 t
  else if cols t <=? curX t then set_curX (cols t - 1) t else t.

Definition clampY (t : Terminal) : Terminal :=
  if curY t <? 0 then set_curY 0 t
  else if rows t <=? curY t then set_curY (rows t - 1) t else t.

Definition clampPos (t : Terminal) : Terminal := clampY (clampX t).

Definition moveCursor (dx dy : Z) (t : Terminal) : Terminal :=
  clampPos (set_curY (i64 (curY t + dy)) (set_curX (i64 (curX t + dx)) t)).

Definition saveCursor (t : Terminal) : Terminal := set_savedY (curY t) (set_savedX (curX t) t).

Definition restoreCursor (t : Terminal) : Terminal :=
  clampPos (set_curY (savedY t) (set_curX (savedX t) t)).

(** ** Scrolling *)

(** [copy(t.grid[dst:], t.grid[lo:hi])]. *)
Definition grid_copy (dst lo hi : Z) : TM unit :=
  t ← getS;
  let n := zlen (grid t) in
  if (0 <=? dst) && (dst <=? n) && (0 <=? lo) && (lo <=? hi) && (hi <=? n) then
    modifyS (set_grid (splice (grid t) dst (take (Z.to_nat (n - dst)) (slice (grid t) lo hi))))
  else panic.

Definition scrollUp : TM unit :=
  t ← getS;
  if (scrollTop t <=? 0) && (rows t - 1 <=? scrollBottom t) then
    _ ← grid_copy 0 (cols t) (zlen (grid t));
    let last := (rows t - 1) * cols t in
    _ ← for_range last (last + cols t) grid_blank;
    modifyS (set_curY (rows t - 1))
  else if scrollBottom t <=? curY t then
    _ ← grid_copy (i64 (scrollTop t * cols t)) (i64 ((scrollTop t + 1) * cols t))
          (i64 ((scrollBottom t + 1) * cols t));
    let last := i64 (scrollBottom t * cols t) in
    _ ← for_range last (last + cols t) grid_blank;
    modifyS (set_curY (scrollBottom t))
  else mret tt.

Definition newLine : TM unit :=
  _ ← modifyS (set_curX 0);
  t ← getS;
  _ ← (if scrollBottom t <=? curY t then scrollUp else modifyS (set_curY (i64 (curY t + 1))));
  modifyS (set_dirty true).

Definition advance : TM unit :=
  _ ← modifyS (fun t => set_curX (i64 (curX t + 1)) t);
  t ← getS;
  if cols t <=? curX t then
    if autoWrap t then
      _ ← modifyS (set_curX 0);
      newLine
    else modifyS (set_curX (cols t - 1))
  else mret tt.

(** [for t.curX < next && t.curX < t.cols { t.setCell(' '); t.curX++ }]: the
    cursor advances each round, so [next - curX] rounds are enough. *)
Fixpoint tab_loop (fuel : nat) (next : Z) : TM unit :=
  match fuel with
  | O => mret tt
  | S fuel' =>
      t ← getS;
      if (curX t <? next) && (curX t <? cols t) then
        _ ← setCell 32;
        _ ← modifyS (fun t => set_curX (i64 (curX t + 1)) t);
        tab_loop fuel' next
      else mret tt
  end.

Definition advanceToTabStop : TM unit :=
  t ← getS;
  let next := (Z.quot (curX t) 8 + 1) * 8 in
  _ ← tab_loop (Z.to_nat (next - curX t)) next;
  modifyS (fun t => if cols t <=? curX t then set_curX (cols t - 1) t else t).

(** ** Erasing *)

Definition Clear : TM unit :=
  t ← getS;
  _ ← for_range 0 (zlen (grid t)) grid_blank;
  modifyS (fun t => set_dirty true (set_curY 0 (set_curX 0 t))).

Definition eraseDisplay (n : Z) : TM unit :=
  t ← getS;
  let y0 := curY t in
  _ ← (if n =? 0 then
         for_range y0 (rows t) (fun y =>
           let start := if y =? y0 then curX t else 0 in
           for_range start (cols t) (fun x => grid_blank (i64 (y * cols t + x))))
       else if n =? 1 then
         for_range 0 (y0 + 1) (fun y =>
           let start := if y =? y0 then curX t else 0 in
           let stop := if y =? y0 then cols t else cols t in
           for_range start stop (fun x => grid_blank (i64 (y * cols t + x))))
       else if n =? 2 then for_range 0 (zlen (grid t)) grid_blank
       else mret tt);
  modifyS (fun t => set_dirty true (set_curY 0 (set_curX 0 t))).

Definition eraseLine (n : Z) : TM unit :=
  t ← getS;
  let at_ x := grid_blank (i64 (curY t * cols t + x)) in
  _ ← (if n =? 0 then for_range (curX t) (cols t) at_
       else if n =? 1 then for_range 0 (Z.min (curX t + 1) (cols t)) at_
       else if n =? 2 then for_range 0 (cols t) at_
       else mret tt);
  modifyS (set_dirty true).

Definition eraseChars (n : Z) : TM unit :=
  t ← getS;
  let n := if n <=? 0 then 1 else n in
  if cols t <=? curX t then mret tt
  else
    let stop := i64 (curX t + n) in
    let stop := if cols t <? stop then cols t else stop in
    _ ← for_range (curX t) stop (fun x => grid_blank (i64 (curY t * cols t + x)));
    modifyS (set_dirty true).

(** The reply is dropped. *)
Definition reportDeviceStatus : TM unit := mret tt.

(** ** Colours *)

Definition sgr_code (p : list byte) (t : Terminal) : Terminal :=
  let '(n, err) := Atoi p in
  match err with
  | Some _ => t
  | None =>
      if n =? 0 then set_bg 0 (set_fg 7 t)
      else if n =? 1 then (if fg t <? 8 then set_fg (u8 (fg t + 8)) t else t)
      else if (30 <=? n) && (n <=? 37) then set_fg (u8 (n - 30)) t
      else if (40 <=? n) && (n <=? 47) then set_bg (u8 (n - 40)) t
      else t
  end.

Definition applySGR (params : list byte) (t : Terminal) : Terminal :=
  match params with
  | [] => set_bg 0 (set_fg 7 t)
  | _ => fold_left (fun t p => sgr_code p t) (Split ";"%byte params) t
  end.

(** ** Cursor visibility *)

Definition ShowCursor (blink : bool) (t : Terminal) : Terminal :=
  set_dirty true (set_cursorOn true (set_cursorBlink blink (set_cursorVisible true t))).

Definition HideCursor (t : Terminal) : Terminal :=
  set_dirty true (set_cursorOn false (set_cursorVisible false t)).

Definition Tick (t : Terminal) : Terminal :=
  if negb (cursorBlink t) || negb (cursorVisible t) then t
  else
    let t := set_cursorTicker (cursorTicker t + 1) t in
    if 2 <=? cursorTicker t then
      set_dirty true (set_cursorOn (negb (cursorOn t)) (set_cursorTicker 0 t))
    else t.

(** ** The alternate screen *)

(** [copy(dst, src)] of whole slices. *)
Definition copy_cells (dst src : list cell) : list cell :=
  splice dst 0 (take (length dst) src).

Definition full_region (t : Terminal) : Terminal :=
  set_scrollBottom (rows t - 1) (set_scrollTop 0 t).

Definition switchToAltScreen : TM unit :=
  t ← getS;
  if altScreen t then mret tt
  else
    _ ← modifyS (fun t => set_altY (curY t) (set_altX (curX t)
                   (set_altGrid (copy_cells (altGrid t) (grid t)) (set_altScreen true t))));
    _ ← Clear;
    modifyS (fun t => set_dirty true (full_region (set_curY 0 (set_curX 0 t)))).

Definition switchToNormalScreen (t : Terminal) : Terminal :=
  if negb (altScreen t) then t
  else
    set_dirty true (full_region (set_curY (altY t) (set_curX (altX t)
      (set_grid (copy_cells (grid t) (altGrid t)) (set_altScreen false t))))).

(** ** DEC private modes *)

Definition decset_code (set : bool) (p : list byte) : TM unit :=
  let n := (Atoi p).1 in
  if n =? 25 then
    modifyS (fun t => if set then ShowCursor (cursorBlink t) t else HideCursor t)
  else if n =? 1049 then
    if set then switchToAltScreen else modifyS switchToNormalScreen
  else if n =? 1 then modifyS (set_appCursorKeys set)
  else if n =? 7 then modifyS (set_autoWrap set)
  else if n =? 2004 then modifyS (set_bracketedPaste set)
  else if n =? 1004 then modifyS (set_focusReporting set)
  else if n =? 1000 then
    modifyS (fun t =>
      if set then (if mouseMode t =? 0 then set_mouseMode 1000 t else t)
      else set_mouseMode 0 t)
  else if n =? 1002 then
    modifyS (fun t =>
      if set then (if mouseMode t <? 1002 then set_mouseMode 1002 t else t)
      else if mouseMode t =? 1002 then set_mouseMode 1000 t
      else if mouseMode t =? 1006 then set_mouseMode 1006 t
      else t)
  else if n =? 1006 then
    modifyS (fun t =>
      if set then (if mouseMode t <? 1006 then set_mouseMode 1006 t else t)
      else if mouseMode t =? 1006 then set_mouseMode (mouseMode t) t
      else t)
  else mret tt.

Fixpoint for_each {A S E} (l : list A) (body : A -> M S E unit) : M S E unit :=
  match l with
  | [] => mret tt
  | x :: l' => _ ← body x; for_each l' body
  end.

Definition applyDECSet (set : bool) : TM unit :=
  t ← getS; for_each (Split ";"%byte (csiBuf t)) (decset_code set).

Definition applyDECPrivate (final : byte) : TM unit :=
  if final =b "l"%byte then applyDECSet false
  else if final =b "h"%byte then applyDECSet true
  else mret tt.

(** ** Operating system commands *)

Definition applyOSC (s : list byte) (t : Terminal) : Terminal :=
  match s with
  | [] => t
  | _ =>
      let '(p0, rest) := SplitN2 ";"%byte s in
      let payload := default [] rest in
      if bool_decide (p0 = bs "0") || bool_decide (p0 = bs "2") then set_title payload t else t
  end.

(** ** The parser *)

(** The closure [get] of the CSI dispatch. *)
Definition csi_get (parts : list (list byte)) (i : nat) (def : Z) : Z :=
  match parts !! i with
  | Some (c :: p) => (Atoi (c :: p)).1
  | _ => def
  end.

Definition cursor_to (y x : Z) (t : Terminal) : Terminal :=
  let t := set_curX x (set_curY y t) in
  let t := if curY t <? 0 then set_curY 0 t else t in
  let t := if curX t <? 0 then set_curX 0 t else t in
  clampPos t.

Definition set_region (top bottom : Z) (t : Terminal) : Terminal :=
  let top := if top <=? 0 then 1 else top in
  let bottom := if bottom <=? 0 then rows t else bottom in
  let '(top, bottom) := if bottom <? top then (1, rows t) else (top, bottom) in
  set_scrollBottom (bottom - 1) (set_scrollTop (top - 1) t).

(** The switch on the final byte of a CSI sequence. *)
Definition csi_final (c : byte) (get : nat -> Z -> Z) : TM unit :=
  if c =b "J"%byte then eraseDisplay (get 0%nat 0)
  else if c =b "K"%byte then eraseLine (get 0%nat 0)
  else if c =b "H"%byte then modifyS (cursor_to (get 0%nat 1 - 1) (get 1%nat 1 - 1))
  else if c =b "A"%byte then modifyS (moveCursor 0 (- get 0%nat 1))
  else if c =b "B"%byte then modifyS (moveCursor 0 (get 0%nat 1))
  else if c =b "C"%byte then modifyS (moveCursor (get 0%nat 1) 0)
  else if c =b "D"%byte then modifyS (moveCursor (- get 0%nat 1) 0)
  else if c =b "s"%byte then modifyS saveCursor
  else if c =b "u"%byte then modifyS restoreCursor
  else if c =b "n"%byte then (if get 0%nat 0 =? 6 then reportDeviceStatus else mret tt)
  else if c =b "r"%byte then modifyS (set_region (get 0%nat 0) (get 1%nat 0))
  else if c =b "X"%byte then eraseChars (get 0%nat 0)
  else mret tt.

Definition is_param (c : byte) : bool :=
  ((48 <=? b2z c) && (b2z c <=? 57)) || (c =b ";"%byte) || (c =b "?"%byte).

Definition putc_esc (c : byte) : TM unit :=
  _ ← modifyS (set_esc false);
  if c =b "["%byte then modifyS (fun t => set_csiBuf [] (set_decPm false (set_csi true t)))
  else if c =b "]"%byte then modifyS (fun t => set_oscBuf [] (set_osc true t))
  else mret tt.

Definition putc_csi (c : byte) : TM unit :=
  t ← getS;
  if is_param c then
    if (c =b "?"%byte) && (zlen (csiBuf t) =? 0) then modifyS (set_decPm true)
    else modifyS (set_csiBuf (csiBuf t ++ [c]))
  else
    _ ← modifyS (set_csi false);
    if c =b "m"%byte then modifyS (applySGR (csiBuf t))
    else if decPm t then applyDECPrivate c
    else csi_final c (csi_get (Split ";"%byte (csiBuf t))).

(** [len(t.oscBuf) > 0 && t.oscBuf[len(t.oscBuf)-1] == '\x1b']. *)
Definition osc_esc (t : Terminal) : bool :=
  match last (oscBuf t) with Some c => b2z c =? 27 | None => false end.

Definition osc_end (s : list byte) (t : Terminal) : Terminal :=
  set_oscBuf [] (set_osc false (applyOSC s t)).

Definition putc_osc (c : byte) (t : Terminal) : Terminal :=
  if (b2z c =? 7) || (127 <? b2z c) then osc_end (oscBuf t) t
  else if b2z c =? 27 then
    if osc_esc t then t else set_oscBuf (oscBuf t ++ [c]) t
  else if osc_esc t then
    let keep := take (length (oscBuf t) - 1) (oscBuf t) in
    if c =b "\"%byte then osc_end keep t else set_oscBuf (keep ++ [c]) t
  else set_oscBuf (oscBuf t ++ [c]) t.

Definition putc_plain (c : byte) : TM unit :=
  if b2z c =? 27 then modifyS (set_esc true)
  else if b2z c =? 10 then newLine
  else if b2z c =? 13 then modifyS (set_curX 0)
  else if b2z c =? 9 then advanceToTabStop
  else if (b2z c =? 8) || (b2z c =? 127) then
    t ← getS;
    if 0 <? curX t then
      _ ← modifyS (set_curX (curX t - 1));
      setCell 32
    else mret tt
  else if (32 <=? b2z c) && negb (b2z c =? 127) then
    _ ← setCell (b2z c);
    advance
  else mret tt.

Definition putc (c : byte) : TM unit :=
  t ← getS;
  if esc t then putc_esc c
  else if csi t then putc_csi c
  else if osc t then modifyS (putc_osc c)
  else putc_plain c.

Definition WriteString (s : list byte) : TM unit := for_each s putc.

(** ** Construction *)

Definition zero_cell : cell := mkCell 0 0 0.

(** The composite literal [&Terminal{fb: fb, fg: 7, bg: 0}]. *)
Definition zero_term (w : FBWindow) : Terminal :=
  mkTerm w 0 0 [] 0 0 7 0 false false false false [] false [] false false false 0 0 0 false [] 0 0
    0 0 false false 0 false false [].

Definition resize (t : Terminal) : Terminal :=
  let w := Width (fb t) / GlyphW in
  let h := Height (fb t) / GlyphH in
  let w := if w <=? 0 then DefaultCols else w in
  let h := if h <=? 0 then DefaultRows else h in
  let t := set_size w h t in
  let t := set_grid (replicate (Z.to_nat (w * h)) zero_cell) t in
  let t := set_curY 0 (set_curX 0 t) in
  let t := match altGrid t with
           | [] => set_altGrid (replicate (Z.to_nat (w * h)) zero_cell) t
           | _ => t
           end in
  full_region (set_altY 0 (set_altX 0 t)).

Definition initial_modes (t : Terminal) : Terminal :=
  let t := set_bg 0 (set_fg 7 t) in
  let t := set_curY 0 (set_curX 0 t) in
  let t := set_savedY 0 (set_savedX 0 t) in
  let t := set_cursorOn true (set_cursorBlink false (set_cursorVisible true t)) in
  let t := full_region (set_altScreen false t) in
  let t := set_mouseMode 0 (set_focusReporting false (set_bracketedPaste false t)) in
  let t := set_title [] (set_appCursorKeys false (set_autoWrap true t)) in
  let t := set_osc false (set_decPm false (set_csi false (set_esc false t))) in
  set_oscBuf [] (set_csiBuf [] t).

Definition resetInitialState : TM unit := _ ← modifyS initial_modes; Clear.

Definition New (w : FBWindow) : outcome fault unit * Terminal :=
  (_ ← modifyS resize; resetInitialState) (zero_term w).

(** ** Reports *)

(** The grid cell a test reads; [None] is an index out of range. *)
Definition CellAt (t : Terminal) (col row : Z) : option cell :=
  let i := row * cols t + col in
  if i <? 0 then None else grid t !! Z.to_nat i.

(** [None] is a nil slice. *)
Definition FocusChanged (t : Terminal) (focused : bool) : option (list byte) :=
  if negb (focusReporting t) then None
  else Some (Byte.x1b :: bs (if focused then "[I" else "[O")).

Definition clamp (x n : Z) : Z := if x <? 0 then 0 else if n <=? x then n - 1 else x.

Definition EncodeMouseEvent (t : Terminal) (x y event button modifiers : Z) : option (list byte) :=
  if mouseMode t =? 0 then None
  else
    let x := clamp x (cols t) in
    let y := clamp y (rows t) in
    if (event =? 2) && (mouseMode t =? 1000) then None
    else
      let cb := if event =? 2 then 32 else button in
      if mouseMode t =? 1006 then
        let suffix := if (event =? 1) || ((event =? 0) && (3 <=? cb)) then "m" else "M" in
        let m := if event =? 2 then Z.lor modifiers 32 else modifiers in
        Some (Byte.x1b :: bs "[<" ++ Itoa cb ++ bs ";" ++ Itoa (x + 1) ++ bs ";" ++ Itoa (y + 1)
                ++ bs ";" ++ Itoa m ++ bs suffix)
      else
        let cb := i64 (cb + 32) in
        let cb := if (event =? 1) || ((event =? 0) && (3 <=? cb)) then i64 (cb + 3) else cb in
        let cb :=
          if modifiers =? 0 then cb
          else
            let cb := Z.lor cb 4 in
            let cb := if Z.land modifiers 2 =? 0 then cb else Z.lor cb 8 in
            if Z.land modifiers 4 =? 0 then cb else Z.lor cb 16 in
        Some [Byte.x1b; "["%byte; "M"%byte; z2b cb; z2b (x + 32 + 1); z2b (y + 32 + 1)].
