(* ===== verification/TermFlush.v ===== *)
(** * TermFlush: rendering the grid into the framebuffer

    Models [Flush] of [services/display/terminal/term.go]: the loops that
    draw every cell and the cursor block into the window's pixel area, the
    [UPDATE_RECT] request that follows and the flip of a double-buffered
    window.  The pixel slice is a range of the shared window, so a write
    through it is a write to the window. *)

From S2P Require Import Prelude Frame TermFb TermState Terminal.

Definition minU32 (a b : Z) : Z := if a <? b then a else b.

(** ** Drawing *)

(** [for i := ...; n rounds { if stop { break }; body }]. *)
Fixpoint for_break {S E} (n : nat) (i : Z) (stop : Z -> S -> bool) (body : Z -> M S E unit) :
    M S E unit :=
  match n with
  | O => mret tt
  | Datatypes.S n' =>
      s ← getS;
      if stop i s then mret tt
      else (_ ← body i; for_break n' (i + 1) stop body)
  end.

(** [pix[o] = v] through the slice that starts at [p.1] and has length [p.2]. *)
Definition pix_set (p : Z * Z) (o : Z) (v : byte) : TM unit :=
  if (0 <=? o) && (o <? p.2) then
    modifyS (fun t => set_fb (set_mem (<[Z.to_nat (p.1 + o) := v]> (mem (fb t))) (fb t)) t)
  else panic.

Definition plot (p : Z * Z) (o color : Z) : TM unit :=
  _ ← pix_set p o (z2b color);
  _ ← pix_set p (o + 1) (z2b (Z.shiftr color 8));
  _ ← pix_set p (o + 2) (z2b (Z.shiftr color 16));
  pix_set p (o + 3) Byte.x00.

(** The loop over [gx] for one scan line of a glyph. *)
Definition draw_line (p : Z * Z) (c : cell) (rowBits baseX rowOff : Z) : TM unit :=
  for_break 8 0 (fun gx t => Width (fb t) <=? baseX + gx) (fun gx =>
    let color := if negb (Z.land rowBits (Z.shiftl 1 (7 - gx)) =? 0)
                 then color_of (cfg c) else color_of (cbg c) in
    plot p (rowOff + gx * 4) color).

Definition draw_cell (p : Z * Z) (stride row col : Z) : TM unit :=
  t ← getS;
  match (if row * cols t + col <? 0 then None else grid t !! Z.to_nat (row * cols t + col)) with
  | None => panic
  | Some c =>
      let glyph := Glyph (u8 (ch c)) in
      let baseX := col * GlyphW in
      let baseY := row * GlyphH in
      for_range 0 8 (fun gy =>
        let rowBits := default 0 (glyph !! Z.to_nat gy) in
        for_range 0 2 (fun half =>
          let y := baseY + gy * 2 + half in
          t ← getS;
          if Height (fb t) <=? y then mret tt
          else draw_line p c rowBits baseX (i64 (y * stride + baseX * 4))))
  end.

Definition draw_cursor (p : Z * Z) (stride : Z) : TM unit :=
  t ← getS;
  if cursorVisible t && cursorOn t && Attached (fb t) then
    let x := curX t in
    let y := curY t in
    if (0 <=? x) && (x <? cols t) && (0 <=? y) && (y <? rows t) then
      let cx := x * GlyphW in
      let cy := y * GlyphH in
      for_range 0 GlyphH (fun gy =>
        let py := cy + gy in
        t ← getS;
        if Height (fb t) <=? py then mret tt
        else
          let rowOff := i64 (py * stride + cx * 4) in
          for_break 8 0 (fun gx t => Width (fb t) <=? cx + gx) (fun gx =>
            plot p (rowOff + gx * 4) 0xFFFFFF))
    else mret tt
  else mret tt.

Definition draw : TM unit :=
  t ← getS;
  p ← liftO (Pixels (fb t));
  let stride := Width (fb t) * 4 in
  _ ← for_range 0 (rows t) (fun row =>
        for_range 0 (cols t) (fun col => draw_cell p stride row col));
  draw_cursor p stride.

(** ** Flush *)

(** The terminal, the backend at the other end of its window and the
    backend's schedule. *)
Record Screen (D : Type) := mkScreen { term : Terminal; sdev : D; ssched : list bool }.
Arguments mkScreen {D} term sdev ssched.
Arguments term {D} s.
Arguments sdev {D} s.
Arguments ssched {D} s.

Section flush.
Context {D : Type} `{Backend D}.

(** A terminal operation, and a window operation, on the screen. *)
Definition on_term {A} (m : TM A) : M (Screen D) fault A := fun s =>
  let '(r, t) := m (term s) in (r, mkScreen t (sdev s) (ssched s)).

Definition on_win {A} (m : M (Link D) fault A) : M (Screen D) fault A := fun s =>
  let '(r, l) := m (mkLink (fb (term s)) (sdev s) (ssched s)) in
  (r, mkScreen (set_fb (win l) (term s)) (dev l) (sched l)).

Definition Flush : M (Screen D) fault unit :=
  s ← getS;
  let t := term s in
  if negb (dirty t) || negb (Attached (fb t)) then mret tt
  else
    _ ← on_term draw;
    s ← getS;
    let w := minU32 (u32 (cols (term s) * GlyphW)) (Width (fb (term s))) in
    let h := minU32 (u32 (rows (term s) * GlyphH)) (Height (fb (term s))) in
    _ ← on_win (UpdateRect 0 0 w h);
    s ← getS;
    _ ← (if negb (Z.land (Caps (fb (term s))) FBCapDoubleBuffer =? 0)
         then on_win (_ ← Flip; mret tt) else mret tt);
    on_term (modifyS (set_dirty false)).

End flush.
