(* ===== verification/TermFacts.v ===== *)
(** * TermFacts: the terminal's invariant

    Total-correctness triples for the terminal's operations, the
    well-formedness invariant [wf] and its preservation by every operation of
    [Terminal]: the grid keeps its size, the cursor stays on it, and no index
    is out of range. *)

From Stdlib Require Import Strings.Byte.
From S2P Require Import Prelude Frame TermFb TermState Terminal.

(** ** Triples *)

(** From a state where [P] holds, [m] returns, and [Q] holds of its result. *)
Definition ht {S E A} (P : S -> Prop) (m : M S E A) (Q : A -> S -> Prop) : Prop :=
  forall s, P s -> exists a s', m s = (Ok a, s') /\ Q a s'.

Section triples.
Context {S E : Type}.

Lemma ht_ret {A} (P : S -> Prop) (a : A) : ht (E := E) P (mret a) (fun _ => P).
Proof. intros s HP. by exists a, s. Qed.

Lemma ht_bind {A B} P Q R (m : M S E A) (f : A -> M S E B) :
  ht P m Q -> (forall a, ht (Q a) (f a) R) -> ht P (m ≫= f) R.
Proof.
  intros Hm Hf s HP. destruct (Hm s HP) as (a & s1 & E1 & HQ).
  destruct (Hf a s1 HQ) as (b & s2 & E2 & HR).
  exists b, s2. split; [|done]. by rewrite (bind_ok m f s a s1).
Qed.

(** Reading the state fixes it for the rest. *)
Lemma ht_get {A} P (f : S -> M S E A) R :
  (forall s, P s -> ht (fun s' => s' = s) (f s) R) -> ht P (getS ≫= f) R.
Proof. intros H s HP. rewrite bind_getS. by apply (H s HP). Qed.

Lemma ht_modify (P : S -> Prop) (g : S -> S) (R : S -> Prop) :
  (forall s, P s -> R (g s)) -> ht (E := E) P (modifyS g) (fun _ => R).
Proof. intros H s HP. exists tt, (g s). auto. Qed.

Lemma ht_pre {A} (P P' : S -> Prop) (m : M S E A) Q :
  (forall s, P s -> P' s) -> ht P' m Q -> ht P m Q.
Proof. intros H Hm s HP. auto. Qed.

Lemma ht_post {A} (P : S -> Prop) (m : M S E A) (Q Q' : A -> S -> Prop) :
  (forall a s, Q' a s -> Q a s) -> ht P m Q' -> ht P m Q.
Proof. intros H Hm s HP. destruct (Hm s HP) as (a & s' & ? & ?). eauto. Qed.

(** A loop whose rounds carry [I i] to [I (i+1)]. *)
Lemma ht_for (I : Z -> S -> Prop) (body : Z -> M S E unit) n i :
  (forall j, i <= j < i + Z.of_nat n -> ht (I j) (body j) (fun _ => I (j + 1))) ->
  ht (I i) (for_from n i body) (fun _ => I (i + Z.of_nat n)).
Proof.
  revert i. induction n as [|n IH]; intros i H; cbn [for_from].
  - replace (i + Z.of_nat 0) with i by lia. apply ht_ret.
  - eapply ht_bind; [apply H; lia|]. intros [].
    replace (i + Z.of_nat (Datatypes.S n)) with (i + 1 + Z.of_nat n) by lia.
    apply IH. intros j Hj. apply H. lia.
Qed.

Lemma ht_range (I : Z -> S -> Prop) (body : Z -> M S E unit) lo hi :
  lo <= hi -> (forall j, lo <= j < hi -> ht (I j) (body j) (fun _ => I (j + 1))) ->
  ht (I lo) (for_range lo hi body) (fun _ => I hi).
Proof.
  intros Hle H. pose proof (ht_for I body (Z.to_nat (hi - lo)) lo) as Hf.
  replace (lo + Z.of_nat (Z.to_nat (hi - lo))) with hi in Hf by lia. by apply Hf.
Qed.

(** A loop that keeps one property, whatever its bounds. *)
Lemma ht_range_inv (P : S -> Prop) (body : Z -> M S E unit) lo hi :
  (forall j, lo <= j < hi -> ht P (body j) (fun _ => P)) ->
  ht P (for_range lo hi body) (fun _ => P).
Proof.
  intros H. unfold for_range. apply (ht_for (fun _ => P)). intros j Hj. apply H. lia.
Qed.

Lemma ht_each {A} (P : S -> Prop) (l : list A) (body : A -> M S E unit) :
  (forall x, ht P (body x) (fun _ => P)) -> ht P (for_each l body) (fun _ => P).
Proof.
  intros H. induction l as [|x l IH]; cbn [for_each]; [apply ht_ret|].
  by eapply ht_bind; [apply H|intros []].
Qed.
End triples.

(** ** Well-formedness *)

Definition cell_ok (c : cell) : Prop := 0 <= ch c < 256 /\ 0 <= cfg c < 16 /\ 0 <= cbg c < 8.

Definition mouse_modes : list Z := [0; 1000; 1002; 1006].

Record wf (t : Terminal) : Prop := {
  wf_cols : 0 < cols t <= 2 ^ 29;
  wf_rows : 0 < rows t <= 2 ^ 28;
  wf_grid : zlen (grid t) = cols t * rows t;
  wf_alt : zlen (altGrid t) = cols t * rows t;
  wf_x : 0 <= curX t < cols t;
  wf_y : 0 <= curY t < rows t;
  wf_ax : 0 <= altX t < cols t;
  wf_ay : 0 <= altY t < rows t;
  wf_fg : 0 <= fg t < 16;
  wf_bg : 0 <= bg t < 8;
  wf_top : 0 <= scrollTop t <= scrollBottom t;
  wf_bottom : scrollBottom t < rows t;
  wf_cells : Forall cell_ok (grid t);
  wf_alts : Forall cell_ok (altGrid t);
  wf_mouse : mouseMode t ∈ mouse_modes;
  wf_parser : ~ (esc t /\ csi t) /\ ~ (esc t /\ osc t) /\ ~ (csi t /\ osc t)
}.

(** An operation that returns and keeps the invariant. *)
Abbreviation safe m := (ht wf m (fun _ => wf)).

Ltac wf_tac :=
  repeat match goal with H : wf _ |- _ => destruct H end;
  split; cbn in *; try done; try lia.

Lemma cell_index_inj w x y x' y' : 0 <= x < w -> 0 <= x' < w ->
  y * w + x = y' * w + x' -> x = x' /\ y = y'.
Proof.
  intros Hx Hx' E. assert (y = y') as -> by (destruct (Z.lt_trichotomy y y') as [?|[?|?]]; nia).
  split; lia.
Qed.

Lemma index_ok t x y : wf t -> 0 <= x < cols t -> 0 <= y < rows t ->
  i64 (y * cols t + x) = y * cols t + x /\ 0 <= y * cols t + x < zlen (grid t).
Proof.
  intros H Hx Hy. pose proof (wf_cols _ H). pose proof (wf_rows _ H). rewrite (wf_grid _ H).
  split; [|nia]. apply i64_small. nia.
Qed.

(** ** Filling and copying cells *)

Lemma wf_set_grid t g :
  wf t -> zlen g = zlen (grid t) -> Forall cell_ok g -> wf (set_grid g t).
Proof. intros H Hl Hg. wf_tac. Qed.

Lemma blank_ok t : wf t -> cell_ok (blank t).
Proof. intros []. unfold cell_ok. cbn. lia. Qed.

Lemma grid_set_eq t i c : 0 <= i < zlen (grid t) ->
  grid_set i c t = (Ok tt, set_grid (<[Z.to_nat i := c]> (grid t)) t).
Proof.
  intros Hi. unfold grid_set. rewrite bind_getS.
  replace ((0 <=? i) && (i <? zlen (grid t))) with true by lia. done.
Qed.

Lemma zlen_insert {A} (l : list A) i x : zlen (<[i:=x]> l) = zlen l.
Proof. unfold zlen. by rewrite length_insert. Qed.

Lemma zlen_replicate {A} n (x : A) : 0 <= n -> zlen (replicate (Z.to_nat n) x) = n.
Proof. unfold zlen. rewrite length_replicate. lia. Qed.

Lemma Forall_slice {A} (P : A -> Prop) l lo hi : Forall P l -> Forall P (slice l lo hi).
Proof. intros. unfold slice. auto using Forall_take, Forall_drop. Qed.

(** The shape of the states in a loop that only writes cells. *)
Definition gridwise (t s : Terminal) : Prop :=
  wf s /\ s = set_grid (grid s) t.

Lemma gridwise_refl t : wf t -> gridwise t t.
Proof. intros H. split; [done|]. by destruct t. Qed.

Lemma gridwise_len t s : wf t -> gridwise t s -> zlen (grid s) = zlen (grid t).
Proof.
  intros H [Hs E]. rewrite (wf_grid _ H), (wf_grid _ Hs). rewrite E. done.
Qed.

Lemma ht_grid_set t i c : wf t -> cell_ok c -> 0 <= i < zlen (grid t) ->
  ht (gridwise t) (grid_set i c) (fun _ => gridwise t).
Proof.
  intros Ht Hc Hi s Hs. pose proof (gridwise_len _ _ Ht Hs) as Hl. destruct Hs as [Hs E].
  exists tt. eexists. split; [apply grid_set_eq; lia|]. split.
  - apply wf_set_grid; [done|apply zlen_insert|]. apply Forall_insert; [apply wf_cells|]; done.
  - rewrite E at 2. done.
Qed.

Lemma ht_grid_blank t i : wf t -> 0 <= i < zlen (grid t) ->
  ht (gridwise t) (grid_blank i) (fun _ => gridwise t).
Proof.
  intros Ht Hi. apply ht_get. intros s Hs. eapply ht_pre; [intros ? ->; exact Hs|].
  apply ht_grid_set; [done| |done]. apply blank_ok, Hs.
Qed.

(** Blanking part of a row, row [y] from column [lo] to [hi]. *)
Lemma ht_blank_row t y lo hi : wf t -> 0 <= y < rows t -> 0 <= lo -> hi <= cols t ->
  ht (gridwise t) (for_range lo hi (fun x => grid_blank (i64 (y * cols t + x))))
    (fun _ => gridwise t).
Proof.
  intros Ht Hy Hlo Hhi. apply ht_range_inv. intros x Hx.
  destruct (index_ok t x y Ht) as [-> ?]; [lia..|]. by apply ht_grid_blank.
Qed.

Lemma for_shift {S E} (body : Z -> M S E unit) k n i s :
  for_from n i (fun x => body (k + x)) s = for_from n (k + i) body s.
Proof.
  revert i s. induction n as [|n IH]; intros i s; cbn [for_from]; [done|].
  unfold mbind, M_bind. destruct (body (k + i) s) as [[[]| |] s1]; [|done..].
  rewrite IH. f_equal. lia.
Qed.

Lemma splice_fill {A} (l : list A) (x : A) n lo :
  0 <= lo -> lo + 1 + Z.of_nat n <= zlen l ->
  splice (<[Z.to_nat lo := x]> l) (lo + 1) (replicate n x) = splice l lo (replicate (S n) x).
Proof.
  unfold zlen. intros Hlo Hn. apply list_eq. intros i.
  rewrite !lookup_splice, !length_replicate, length_insert by (rewrite ?length_insert; lia).
  destruct (decide (i = Z.to_nat lo)) as [->|Hi].
  - rewrite decide_False, decide_True by lia. rewrite list_lookup_insert_eq by lia.
    by rewrite Nat.sub_diag.
  - rewrite list_lookup_insert_ne by done. repeat case_decide; try lia; [|done].
    rewrite !lookup_replicate_2 by lia. done.
Qed.

Lemma grid_fill n lo t : 0 <= lo -> lo + Z.of_nat n <= zlen (grid t) ->
  for_from n lo grid_blank t =
    (Ok tt, set_grid (splice (grid t) lo (replicate n (blank t))) t).
Proof.
  revert lo t. induction n as [|n IH]; intros lo t Hlo Hn; cbn [for_from].
  - cbn [replicate]. rewrite splice_nil by lia. by destruct t.
  - erewrite bind_ok; [|unfold grid_blank; rewrite bind_getS; apply grid_set_eq; lia].
    rewrite IH by (cbn; rewrite ?zlen_insert; lia).
    change (blank (set_grid _ t)) with (blank t). cbn [grid set_grid].
    by rewrite splice_fill by lia.
Qed.

Lemma fill_range lo hi t : 0 <= lo <= hi -> hi <= zlen (grid t) ->
  for_range lo hi grid_blank t =
    (Ok tt, set_grid (splice (grid t) lo (replicate (Z.to_nat (hi - lo)) (blank t))) t).
Proof. intros. apply grid_fill; lia. Qed.

(** ** Every operation keeps the invariant *)

Lemma wf_at t x y : wf t -> 0 <= x < cols t -> 0 <= y < rows t ->
  wf (set_curY y (set_curX x t)).
Proof. intros H Hx Hy. wf_tac. Qed.

Lemma wf_clamp t x y : wf t -> wf (clampPos (set_curY y (set_curX x t))).
Proof.
  intros H. pose proof (wf_cols _ H). pose proof (wf_rows _ H).
  unfold clampPos, clampY, clampX. cbn.
  repeat (case_match; cbn in *); wf_tac.
Qed.

Lemma wf_cursor_to t x y : wf t -> wf (cursor_to y x t).
Proof.
  intros H. unfold cursor_to. cbn. pose proof (wf_cols _ H). pose proof (wf_rows _ H).
  destruct (y <? 0) eqn:?; cbn; destruct (x <? 0) eqn:?; cbn;
    (eapply (wf_clamp (set_curY _ (set_curX _ t))); apply wf_at; [done|lia..])
    || (unfold clampPos, clampY, clampX; cbn; repeat (case_match; cbn in *); wf_tac).
Qed.

Lemma wf_dirty t b : wf t -> wf (set_dirty b t).
Proof. intros H. wf_tac. Qed.

Lemma wf_full_region t : wf t -> wf (full_region t).
Proof. intros H. wf_tac. Qed.

Lemma safe_modify g : (forall t, wf t -> wf (g t)) -> safe (modifyS g : TM unit).
Proof. apply ht_modify. Qed.

Lemma safe_then (m k : TM unit) : safe m -> safe k -> safe (_ ← m; k).
Proof. intros Hm Hk. by eapply ht_bind; [exact Hm|intros []]. Qed.

Lemma safe_gridwise t (m : TM unit) : wf t ->
  ht (gridwise t) m (fun _ => gridwise t) -> ht (fun s => s = t) m (fun _ => wf).
Proof.
  intros Ht Hm. eapply ht_pre; [intros ? ->; exact (gridwise_refl _ Ht)|].
  eapply ht_post; [|exact Hm]. by intros ? ? [].
Qed.

(** Evaluating the first step of a computation at a known state. *)
Lemma ht_step {A B} (m : TM A) (f : A -> TM B) t a t' Q :
  m t = (Ok a, t') -> ht (fun s => s = t') (f a) Q -> ht (fun s => s = t) (m ≫= f) Q.
Proof.
  intros Em Hf s ->. destruct (Hf t' eq_refl) as (b & s' & Ef & HQ).
  exists b, s'. split; [|done]. by rewrite (bind_ok m f t a t').
Qed.

Lemma ht_done (m : TM unit) t t' : m t = (Ok tt, t') -> wf t' -> ht (fun s => s = t) m (fun _ => wf).
Proof. intros E H s ->. eauto. Qed.

Lemma setCell_eq c t : wf t ->
  setCell c t =
    (Ok tt, set_dirty true (set_grid (<[Z.to_nat (curY t * cols t + curX t) :=
              mkCell c (fg t) (bg t)]> (grid t)) t)).
Proof.
  intros H. unfold setCell. rewrite bind_getS.
  destruct (index_ok t (curX t) (curY t) H (wf_x _ H) (wf_y _ H)) as [-> ?].
  by erewrite bind_ok by (apply grid_set_eq; lia).
Qed.

Lemma safe_setCell c : 0 <= c < 256 -> safe (setCell c).
Proof.
  intros Hc t H. exists tt. eexists. split; [by apply setCell_eq|].
  apply wf_dirty, wf_set_grid; [done|apply zlen_insert|].
  apply Forall_insert; [apply wf_cells|]; try done.
  unfold cell_ok. cbn. destruct H. lia.
Qed.

Lemma splice_all {A} (l : list A) x :
  splice l 0 (replicate (Z.to_nat (zlen l - 0)) x) = replicate (length l) x.
Proof.
  unfold splice, zlen. rewrite Z.sub_0_r, Nat2Z.id. change (Z.to_nat 0) with 0%nat.
  rewrite take_0, app_nil_l.
  rewrite length_replicate, drop_ge, app_nil_r by lia.
  rewrite take_ge; [done|rewrite length_replicate; lia].
Qed.

Lemma Clear_eq t :
  Clear t = (Ok tt, set_dirty true (set_curY 0 (set_curX 0
               (set_grid (replicate (length (grid t)) (blank t)) t)))).
Proof.
  unfold Clear. rewrite bind_getS. erewrite bind_ok by (apply fill_range; unfold zlen; lia).
  by rewrite splice_all.
Qed.

Lemma safe_Clear : safe Clear.
Proof.
  intros t H. exists tt. eexists. split; [apply Clear_eq|].
  pose proof (wf_cols _ H). pose proof (wf_rows _ H).
  apply wf_dirty, wf_at; [|cbn; lia..].
  apply wf_set_grid; [done|unfold zlen; by rewrite length_replicate|].
  by apply Forall_replicate, blank_ok.
Qed.

Lemma wf_set_curY t y : wf t -> 0 <= y < rows t -> wf (set_curY y t).
Proof. intros H Hy. wf_tac. Qed.

Lemma wf_set_curX t x : wf t -> 0 <= x < cols t -> wf (set_curX x t).
Proof. intros H Hy. wf_tac. Qed.

(** Scrolling the rows [top..bottom] of a grid of rows of [w] cells. *)
Definition scroll_rows (w top bottom : Z) (b : cell) (g : list cell) : list cell :=
  splice (splice g (top * w) (slice g ((top + 1) * w) ((bottom + 1) * w)))
    (bottom * w) (replicate (Z.to_nat w) b).

Lemma grid_copy_eq t dst lo hi : 0 <= dst <= lo -> lo <= hi <= zlen (grid t) ->
  grid_copy dst lo hi t = (Ok tt, set_grid (splice (grid t) dst (slice (grid t) lo hi)) t).
Proof.
  intros Hd Hh. unfold grid_copy. rewrite bind_getS. cbv zeta.
  replace (_ && _) with true by lia. rewrite take_ge; [done|].
  rewrite length_slice. unfold zlen in *. lia.
Qed.

Lemma zlen_scroll_rows w top bottom b g :
  0 <= w -> 0 <= top <= bottom -> (bottom + 1) * w <= zlen g ->
  zlen (scroll_rows w top bottom b g) = zlen g.
Proof.
  intros Hw Ht Hb. unfold scroll_rows.
  rewrite !zlen_splice; [done|lia..| |]; rewrite ?zlen_splice by (unfold zlen in *; nia); nia.
Qed.

Lemma scroll_tail t w top bottom : 0 < w -> 0 <= top <= bottom -> (bottom + 1) * w <= zlen (grid t) ->
  (_ ← grid_copy (top * w) ((top + 1) * w) ((bottom + 1) * w);
   _ ← for_range (bottom * w) (bottom * w + w) grid_blank;
   modifyS (set_curY bottom)) t =
  (Ok tt, set_curY bottom (set_grid (scroll_rows w top bottom (blank t) (grid t)) t)).
Proof.
  intros Hw Ht Hb. erewrite bind_ok by (apply grid_copy_eq; nia).
  erewrite bind_ok by (apply fill_range; [nia|]; cbn [grid set_grid]; rewrite zlen_splice; nia).
  unfold modifyS, scroll_rows. cbn [grid set_grid].
  replace (bottom * w + w - bottom * w) with w by lia. done.
Qed.

Lemma scrollUp_eq t : wf t -> scrollBottom t <= curY t ->
  scrollUp t =
    (Ok tt, set_curY (scrollBottom t) (set_grid
       (scroll_rows (cols t) (scrollTop t) (scrollBottom t) (blank t) (grid t)) t)).
Proof.
  intros H Hy. pose proof (wf_cols _ H). pose proof (wf_rows _ H).
  pose proof (wf_top _ H). pose proof (wf_bottom _ H). pose proof (wf_grid _ H) as Hg.
  unfold scrollUp. rewrite bind_getS.
  rewrite <- scroll_tail by nia.
  destruct ((scrollTop t <=? 0) && (rows t - 1 <=? scrollBottom t)) eqn:E; cbv zeta.
  - replace (scrollTop t) with 0 by lia. replace (scrollBottom t) with (rows t - 1) by lia.
    rewrite Hg. replace (cols t * rows t) with ((rows t - 1 + 1) * cols t) by lia.
    by rewrite Z.mul_0_l, Z.add_0_l, Z.mul_1_l.
  - replace (scrollBottom t <=? curY t) with true by lia.
    by rewrite !i64_small by nia.
Qed.

Lemma safe_scrollUp t : wf t -> scrollBottom t <= curY t ->
  ht (fun s => s = t) scrollUp (fun _ => wf).
Proof.
  intros H Hy. eapply ht_done; [by apply scrollUp_eq|].
  pose proof (wf_cols _ H). pose proof (wf_top _ H). pose proof (wf_bottom _ H).
  pose proof (wf_grid _ H). pose proof (wf_cells _ H).
  apply wf_set_curY; [|cbn; lia].
  apply wf_set_grid; [done|apply zlen_scroll_rows; nia|].
  repeat apply Forall_splice; auto using Forall_slice.
  by apply Forall_replicate, blank_ok.
Qed.

Lemma safe_newLine : safe newLine.
Proof.
  eapply ht_bind; [apply (safe_modify (set_curX 0)); intros t H; pose proof (wf_cols _ H); wf_tac|].
  intros []. apply ht_get. intros t H.
  apply (ht_bind _ (fun _ => wf)); [|intros; apply safe_modify; intros; by apply wf_dirty].
  destruct (scrollBottom t <=? curY t) eqn:E; [apply safe_scrollUp; [done|lia]|].
  eapply ht_done; [done|]. rewrite i64_small by (destruct H; lia).
  apply wf_set_curY; [done|]. destruct H. lia.
Qed.

Lemma safe_advance : safe advance.
Proof.
  intros t H. pose proof (wf_cols _ H). pose proof (wf_x _ H).
  unfold advance. rewrite bind_modifyS, bind_getS. cbn [curX set_curX cols autoWrap].
  rewrite i64_small by lia.
  destruct (cols t <=? curX t + 1) eqn:E; [destruct (autoWrap t) eqn:Ea|].
  - rewrite bind_modifyS. apply safe_newLine. wf_tac.
  - eexists _, _. split; [done|]. wf_tac.
  - eexists _, _. split; [done|]. wf_tac.
Qed.

(** Inside the tab loop the cursor may stand one past the last column. *)
Definition wf_tab (t : Terminal) : Prop := wf (set_curX 0 t) /\ 0 <= curX t <= cols t.

Lemma wf_tab_on t : wf_tab t -> curX t < cols t -> wf t.
Proof. intros [[] Hx] Hc. cbn in *. split; try done; lia. Qed.

Lemma safe_tab_loop fuel next : ht wf_tab (tab_loop fuel next) (fun _ => wf_tab).
Proof.
  induction fuel as [|fuel IH]; cbn [tab_loop]; [apply ht_ret|].
  apply ht_get. intros t Ht.
  destruct ((curX t <? next) && (curX t <? cols t)) eqn:E; [|by intros s ->; eexists _, _].
  assert (H : wf t) by (apply wf_tab_on; [done|lia]).
  eapply ht_bind with (Q := fun _ => wf); [by intros s ->; apply safe_setCell|].
  intros []. apply (ht_bind _ (fun _ => wf_tab)); [|intros []; exact IH].
  apply ht_modify. intros s Hs. pose proof (wf_cols _ Hs). pose proof (wf_x _ Hs).
  rewrite i64_small by lia. split; [|cbn; lia]. wf_tac.
Qed.

Lemma safe_advanceToTabStop : safe advanceToTabStop.
Proof.
  apply ht_get. intros t Ht. cbv zeta.
  eapply ht_bind.
  - eapply ht_pre; [|apply safe_tab_loop]. intros s ->. pose proof (wf_x _ Ht).
    split; [|lia]. wf_tac.
  - intros []. apply ht_modify. intros s [Hs Hx]. pose proof (wf_cols _ Hs) as Hc. cbn in Hc.
    destruct (cols s <=? curX s) eqn:E; [|by apply wf_tab_on; [|lia]].
    destruct Hs; split; cbn in *; try done; lia.
Qed.

(** *** Erasing *)

Lemma safe_eraseDisplay n : safe (eraseDisplay n).
Proof.
  apply ht_get. intros t Ht. cbv zeta. pose proof (wf_x _ Ht). pose proof (wf_y _ Ht).
  apply (ht_bind _ (fun _ => wf)).
  - apply safe_gridwise; [done|].
    repeat case_match; try (apply ht_ret);
      try (apply ht_range_inv; intros y Hy; apply ht_blank_row; [done|lia| |]; repeat case_match; lia).
    apply ht_range_inv. intros i Hi. by apply ht_grid_blank.
  - intros []. apply safe_modify. intros s Hs. pose proof (wf_cols _ Hs). pose proof (wf_rows _ Hs).
    apply wf_dirty. apply wf_at; [done|lia..].
Qed.

Lemma safe_eraseLine n : safe (eraseLine n).
Proof.
  apply ht_get. intros t Ht. cbv zeta. pose proof (wf_x _ Ht).
  apply (ht_bind _ (fun _ => wf)); [|intros []; apply safe_modify; intros; by apply wf_dirty].
  apply safe_gridwise; [done|].
  repeat case_match; try (apply ht_ret); apply ht_blank_row; try apply Ht; try done; lia.
Qed.

Lemma safe_eraseChars n : safe (eraseChars n).
Proof.
  apply ht_get. intros t Ht. cbv zeta. pose proof (wf_x _ Ht).
  replace (cols t <=? curX t) with false by lia.
  apply (ht_bind _ (fun _ => wf)); [|intros []; apply safe_modify; intros; by apply wf_dirty].
  apply safe_gridwise; [done|]. apply ht_blank_row; [done|apply Ht|lia|case_match; lia].
Qed.

(** *** Colours, modes, screens *)

Lemma wf_colors t f b : wf t -> 0 <= f < 16 -> 0 <= b < 8 -> wf (set_bg b (set_fg f t)).
Proof. intros H Hf Hb. wf_tac. Qed.

Lemma wf_sgr_code p t : wf t -> wf (sgr_code p t).
Proof.
  intros H. unfold sgr_code. destruct (Atoi p) as [n [e|]]; [done|].
  pose proof (wf_fg _ H).
  repeat case_match; try done; try (by apply wf_colors); wf_tac;
    unfold u8; rewrite Z.mod_small by lia; lia.
Qed.

Lemma wf_applySGR p t : wf t -> wf (applySGR p t).
Proof.
  unfold applySGR. destruct p as [|c p]; [intros; by apply wf_colors|].
  revert t. induction (Split _ _) as [|q l IH]; intros t H; [done|].
  cbn [fold_left]. by apply IH, wf_sgr_code.
Qed.

Lemma copy_cells_all dst src : length dst = length src -> copy_cells dst src = src.
Proof.
  intros E. unfold copy_cells. rewrite take_ge by lia. unfold splice.
  change (Z.to_nat 0) with 0%nat. rewrite take_0, app_nil_l, Nat.sub_0_r, Nat.add_0_l.
  rewrite drop_ge, app_nil_r by lia. by rewrite take_ge by lia.
Qed.

Lemma wf_same_len t : wf t -> length (altGrid t) = length (grid t).
Proof. intros []. unfold zlen in *. lia. Qed.

Lemma safe_switchToAltScreen : safe switchToAltScreen.
Proof.
  apply ht_get. intros t Ht. destruct (altScreen t); [by intros s ->; eexists _, _|].
  eapply ht_step; [done|]. eapply ht_bind.
  - eapply ht_pre; [|exact safe_Clear]. intros s ->.
    rewrite copy_cells_all by (by apply wf_same_len). wf_tac.
  - intros []. apply ht_modify. intros s Hs. pose proof (wf_cols _ Hs). pose proof (wf_rows _ Hs).
    apply wf_dirty, wf_full_region. apply wf_at; [done|lia..].
Qed.

Lemma wf_switchToNormalScreen t : wf t -> wf (switchToNormalScreen t).
Proof.
  intros H. unfold switchToNormalScreen. destruct (negb (altScreen t)); [done|].
  rewrite copy_cells_all by (by rewrite wf_same_len). wf_tac.
Qed.

Lemma wf_mouse_to t m : wf t -> m ∈ mouse_modes -> wf (set_mouseMode m t).
Proof. intros H Hm. wf_tac. Qed.

Lemma safe_decset_code set p : safe (decset_code set p).
Proof.
  unfold decset_code. generalize (Atoi p).1. intros n.
  repeat case_match; try apply ht_ret; try apply safe_switchToAltScreen;
    apply safe_modify; intros t Ht; try (by apply wf_switchToNormalScreen);
    repeat case_match; try done; try (apply wf_mouse_to; [done|set_solver]);
    try (apply wf_mouse_to; [done|apply Ht]); wf_tac.
Qed.

Lemma safe_applyDECPrivate c : safe (applyDECPrivate c).
Proof.
  assert (D : forall set, safe (applyDECSet set)).
  { intros set. apply ht_get. intros t Ht. eapply ht_pre; [by intros ? ->|].
    apply ht_each, safe_decset_code. }
  unfold applyDECPrivate. repeat case_match; auto using ht_ret.
Qed.

Lemma wf_applyOSC s t : wf t -> wf (applyOSC s t).
Proof.
  intros H. unfold applyOSC. destruct s; [done|]. destruct (SplitN2 _ _). case_match; [wf_tac|done].
Qed.

(** The one request that can leave the grid: a scrolling region that ends
    below the last row. *)
Definition region_request (t : Terminal) (c : byte) : bool :=
  negb (esc t) && csi t && negb (decPm t) && Byte.eqb c "r"%byte.

Definition region_of (t : Terminal) : Terminal :=
  let get := csi_get (Split ";"%byte (csiBuf t)) in set_region (get 0%nat 0) (get 1%nat 0) t.

Definition fits (t : Terminal) (c : byte) : Prop :=
  region_request t c = true -> scrollBottom (region_of t) < rows t.

Lemma set_region_shape top bottom t : wf t ->
  0 <= scrollTop (set_region top bottom t) <= scrollBottom (set_region top bottom t).
Proof.
  intros H. pose proof (wf_rows _ H). unfold set_region.
  repeat case_match; simplify_eq; cbn; lia.
Qed.

Lemma wf_set_region top bottom t : wf t -> scrollBottom (set_region top bottom t) < rows t ->
  wf (set_region top bottom t).
Proof.
  intros H Hb. pose proof (set_region_shape top bottom t H) as Ht. revert Hb Ht.
  unfold set_region. repeat case_match; cbn; intros; wf_tac.
Qed.

Lemma safe_csi_final c get : Byte.eqb c "r"%byte = false -> safe (csi_final c get).
Proof.
  intros Hr. unfold csi_final. rewrite Hr.
  repeat case_match; try apply ht_ret;
    auto using safe_eraseDisplay, safe_eraseLine, safe_eraseChars;
    apply safe_modify; intros t Ht; try (by apply wf_clamp); try (by apply wf_cursor_to); wf_tac.
Qed.

Lemma safe_putc_plain c t : wf t -> esc t = false -> csi t = false -> osc t = false ->
  ht (fun s => s = t) (putc_plain c) (fun _ => wf).
Proof.
  intros H He Hc Ho. pose proof (b2z_range c). unfold putc_plain.
  repeat case_match.
  - eapply ht_done; [done|]. destruct H. split; cbn; try done. rewrite Hc, Ho. cbn. naive_solver.
  - intros s ->. by apply safe_newLine.
  - eapply ht_done; [done|]. apply wf_set_curX; [done|]. destruct H; lia.
  - intros s ->. by apply safe_advanceToTabStop.
  - apply ht_get. intros s ->. destruct (0 <? curX t) eqn:E; [|by eapply ht_done].
    eapply ht_step; [done|]. intros s ->. apply safe_setCell; [lia|].
    apply wf_set_curX; [done|]. destruct H; lia.
  - intros s ->. apply (safe_then (setCell (b2z c)) advance); [by apply safe_setCell|apply safe_advance|done].
  - by eapply ht_done.
Qed.

Lemma safe_putc_csi c t : wf t -> esc t = false -> csi t = true -> fits t c ->
  ht (fun s => s = t) (putc_csi c) (fun _ => wf).
Proof.
  intros H He Hc Hf. assert (Ho : osc t = false).
  { destruct (wf_parser _ H) as (_ & _ & Hx). destruct (osc t); [|done]. rewrite Hc in Hx. naive_solver. }
  assert (H' : wf (set_csi false t)).
  { destruct H. split; cbn; try done. rewrite He, Ho. cbn. naive_solver. }
  apply ht_get. intros s ->. destruct (is_param c).
  { case_match; eapply ht_done; try done; wf_tac. }
  eapply ht_step; [done|]. destruct (Byte.eqb c "m"%byte).
  { eapply ht_done; [done|]. by apply wf_applySGR. }
  destruct (decPm t) eqn:Hd; [intros s ->; by apply safe_applyDECPrivate|].
  destruct (Byte.eqb c "r"%byte) eqn:Hr; [|intros s ->; by apply safe_csi_final].
  apply byte_dec_bl in Hr as ->. eapply ht_done; [done|].
  apply wf_set_region; [done|]. unfold fits, region_request, region_of in Hf.
  rewrite He, Hc, Hd in Hf. specialize (Hf eq_refl). revert Hf. unfold set_region.
  repeat case_match; cbn in *; simplify_eq; lia.
Qed.

Lemma wf_putc_osc c t : wf t -> wf (putc_osc c t).
Proof.
  intros H. assert (D : forall s, wf (osc_end s t)).
  { intros s. pose proof (wf_applyOSC s t H) as []. split; cbn; try done.
    destruct wf_parser0 as (? & ? & ?). naive_solver. }
  unfold putc_osc. repeat case_match; try done; wf_tac.
Qed.

(** One byte: the terminal accepts it and stays well formed. *)
Lemma putc_ok c t : wf t -> fits t c -> exists t', putc c t = (Ok tt, t') /\ wf t'.
Proof.
  intros H Hf. cut (ht (fun s => s = t) (putc c) (fun _ => wf)).
  { intros Hp. destruct (Hp t eq_refl) as ([] & t' & ? & ?). eauto. }
  apply ht_get. intros s ->.
  destruct (esc t) eqn:He; [|destruct (csi t) eqn:Hc; [by apply safe_putc_csi|]].
  - destruct (wf_parser _ H) as (N1 & N2 & _). rewrite He in N1, N2.
    assert (Hc : csi t = false) by (destruct (csi t); naive_solver).
    assert (Ho : osc t = false) by (destruct (osc t); naive_solver).
    eapply ht_step; [done|].
    repeat case_match; (eapply ht_done; [done|]);
      destruct H; split; cbn; try done; rewrite ?Hc, ?Ho; naive_solver.
  - destruct (osc t) eqn:Ho; [|by apply safe_putc_plain].
    eapply ht_done; [done|]. by apply wf_putc_osc.
Qed.

(** Every region requested along a run ends on the grid. *)
Fixpoint regions_fit (s : list byte) (t : Terminal) : Prop :=
  match s with
  | [] => True
  | c :: s' => fits t c /\ regions_fit s' (putc c t).2
  end.

Lemma WriteString_ok s t : wf t -> regions_fit s t ->
  exists t', WriteString s t = (Ok tt, t') /\ wf t'.
Proof.
  revert t. induction s as [|c s IH]; intros t H Hf; [by exists t|].
  destruct Hf as [Hc Hs]. destruct (putc_ok c t H Hc) as (t1 & E1 & H1).
  rewrite E1 in Hs. destruct (IH t1 H1 Hs) as (t2 & E2 & H2). exists t2. split; [|done].
  unfold WriteString. cbn [for_each]. by rewrite (bind_ok _ _ _ _ _ E1).
Qed.

Lemma WriteString_app a b t t1 : WriteString a t = (Ok tt, t1) ->
  WriteString (a ++ b) t = WriteString b t1.
Proof.
  unfold WriteString. revert t. induction a as [|c a IH]; intros t; cbn [for_each app].
  - by intros [= ->].
  - intros E. apply bind_inv_ok in E as ([] & t2 & E1 & E2). rewrite (bind_ok _ _ _ _ _ E1). auto.
Qed.

(** A new terminal is well formed, whatever the window says. *)
Lemma New_ok w : exists t, New w = (Ok tt, t) /\ wf t /\ fb t = w /\ altScreen t = false /\
  grid t = replicate (Z.to_nat (cols t * rows t)) (mkCell 32 7 0) /\
  (curX t, curY t) = (0, 0) /\ (fg t, bg t) = (7, 0) /\ autoWrap t = true /\
  (scrollTop t, scrollBottom t) = (0, rows t - 1) /\
  (esc t, csi t, osc t) = (false, false, false) /\ dirty t = true.
Proof.
  unfold New, resetInitialState. rewrite !bind_modifyS, Clear_eq. eexists. split; [done|].
  unfold resize. cbn [zero_term altGrid set_size set_grid set_curX set_curY fb].
  cbn -[Z.mul Z.div Width Height replicate GlyphW GlyphH].
  assert (HW : 0 <= Width w < 2 ^ 32) by apply Get32_range.
  assert (HH : 0 <= Height w < 2 ^ 32) by apply Get32_range.
  assert (0 < (if Width w / GlyphW <=? 0 then DefaultCols else Width w / GlyphW) <= 2 ^ 29).
  { unfold GlyphW, DefaultCols. destruct (Width w / 8 <=? 0) eqn:?; [lia|]. Z.to_euclidean_division_equations. lia. }
  assert (0 < (if Height w / GlyphH <=? 0 then DefaultRows else Height w / GlyphH) <= 2 ^ 28).
  { unfold GlyphH, DefaultRows. destruct (Height w / 16 <=? 0) eqn:?; [lia|]. Z.to_euclidean_division_equations. lia. }
  set (c := if Width w / GlyphW <=? 0 then DefaultCols else Width w / GlyphW) in *.
  set (r := if Height w / GlyphH <=? 0 then DefaultRows else Height w / GlyphH) in *.
  split; [|rewrite length_replicate; done].
  split; cbn -[Z.mul]; try done; try lia; rewrite ?length_replicate, ?zlen_replicate by nia; try done;
    try (apply Forall_replicate; unfold cell_ok; cbn; lia); try set_solver.
Qed.
