(* ===== verification/TermEscape.v ===== *)
(** * TermEscape: escape sequences, the region fault and the alternate screen

    What a complete control sequence does, from the parser's ground state;
    the scrolling region that lets the cursor leave the grid; and the
    alternate screen, whose saved copy no text can touch. *)

From Stdlib Require Import Strings.Byte.
From S2P Require Import Prelude Frame TermFb TermState Terminal TermFacts.

(** ** Complete sequences *)

Definition ground (t : Terminal) : Prop := esc t = false /\ csi t = false /\ osc t = false.

Definition ESC : byte := Byte.x1b.

(** A parameter byte other than the private marker. *)
Definition plain_param (c : byte) : bool := is_param c && negb (Byte.eqb c "?"%byte).

Definition in_csi (dec : bool) (buf : list byte) (t : Terminal) : Terminal :=
  set_csiBuf buf (set_decPm dec (set_csi true (set_esc false t))).

Lemma WriteString_cons c s t t1 : putc c t = (Ok tt, t1) -> WriteString (c :: s) t = WriteString s t1.
Proof. intros E. exact (bind_ok _ _ _ _ _ E). Qed.

Lemma WriteString_one c t : WriteString [c] t = putc c t.
Proof.
  unfold WriteString. cbn [for_each]. unfold mbind, M_bind.
  destruct (putc c t) as [[[]| |] t1]; done.
Qed.

Lemma csi_open t s : ground t ->
  WriteString (ESC :: "["%byte :: s) t = WriteString s (in_csi false [] t).
Proof.
  intros (He & Hc & Ho).
  assert (E1 : putc ESC t = (Ok tt, set_esc true t)).
  { unfold putc. rewrite bind_getS, He, Hc, Ho. done. }
  rewrite (WriteString_cons _ _ _ _ E1). by erewrite WriteString_cons.
Qed.

Lemma csi_params dec buf ps s t : forallb plain_param ps = true ->
  WriteString (ps ++ s) (in_csi dec buf t) = WriteString s (in_csi dec (buf ++ ps) t).
Proof.
  revert buf. induction ps as [|c ps IH]; intros buf Hp; [by rewrite app_nil_r|].
  cbn in Hp. apply andb_true_iff in Hp as [Hc Hp]. unfold plain_param in Hc.
  apply andb_true_iff in Hc as [Hc Hq%negb_true_iff].
  cbn [app]. erewrite WriteString_cons.
  - rewrite (cons_middle c buf ps), app_assoc. apply (IH _ Hp).
  - unfold putc, putc_csi. rewrite !bind_getS. cbn [esc csi in_csi set_csiBuf set_decPm set_csi set_esc].
    rewrite bind_getS, Hc, Hq. cbn. done.
Qed.

Lemma csi_end ps f t : is_param f = false -> Byte.eqb f "m"%byte = false ->
  WriteString [f] (in_csi false ps t) =
    csi_final f (csi_get (Split ";"%byte ps)) (set_csi false (in_csi false ps t)).
Proof.
  intros Hf Hm. rewrite WriteString_one. unfold putc, putc_csi. rewrite bind_getS. cbn.
  rewrite bind_getS, Hf, bind_modifyS, Hm. done.
Qed.

(** CSI, parameters, final byte. *)
Lemma csi_sequence ps f t : ground t -> forallb plain_param ps = true ->
  is_param f = false -> Byte.eqb f "m"%byte = false ->
  WriteString (ESC :: "["%byte :: ps ++ [f]) t =
    csi_final f (csi_get (Split ";"%byte ps)) (set_csi false (in_csi false ps t)).
Proof. intros Hg Hp Hf Hm. rewrite csi_open, csi_params by done. by apply csi_end. Qed.

(** CSI, the private marker, parameters, final byte. *)
Lemma dec_sequence ps f t : ground t -> forallb plain_param ps = true ->
  is_param f = false -> Byte.eqb f "m"%byte = false ->
  WriteString (ESC :: "["%byte :: "?"%byte :: ps ++ [f]) t =
    applyDECPrivate f (set_csi false (in_csi true ps t)).
Proof.
  intros Hg Hp Hf Hm. rewrite csi_open by done.
  erewrite (WriteString_cons "?"%byte _ _ (in_csi true [] t)) by done.
  rewrite csi_params by done. rewrite WriteString_one.
  unfold putc, putc_csi. rewrite bind_getS. cbn. rewrite bind_getS, Hf, bind_modifyS, Hm. done.
Qed.

(** ** A region below the screen *)

Definition NL : byte := Byte.x0a.

(** CSI ; 9999999999999999999 r: a region whose last row is beyond any grid. *)
Definition deep_region : list byte := ESC :: "["%byte :: bs ";9999999999999999999" ++ ["r"%byte].

(** After it: the grid is as it was, and row [k] is above the region's end. *)
Definition lost (w h k : Z) (t : Terminal) : Prop :=
  ground t /\ scrollBottom t = 2 ^ 63 - 2 /\ curY t = k /\ cols t = w /\ rows t = h /\
  zlen (grid t) = w * h.

Lemma lost_newlines n : forall w h k t s, lost w h k t -> 0 <= k -> k + Z.of_nat n < 2 ^ 62 ->
  (0 < n)%nat ->
  exists t', WriteString (replicate n NL ++ s) t = WriteString s t' /\
    lost w h (k + Z.of_nat n) t' /\ curX t' = 0.
Proof.
  assert (Step : forall w h k t, lost w h k t -> 0 <= k < 2 ^ 62 ->
    exists t', putc NL t = (Ok tt, t') /\ lost w h (k + 1) t' /\ curX t' = 0).
  { intros w h k t ((He & Hc & Ho) & Hb & Hy & Hw & Hh & Hg) Hk.
    exists (set_dirty true (set_curY (k + 1) (set_curX 0 t))). split.
    - unfold putc. rewrite bind_getS, He, Hc, Ho. unfold putc_plain. cbn.
      unfold newLine. rewrite bind_modifyS, bind_getS. cbn [scrollBottom curY set_curX].
      rewrite Hb, Hy. replace (2 ^ 63 - 2 <=? k) with false by lia.
      rewrite bind_modifyS, i64_small by lia. done.
    - unfold lost, ground. cbn. auto 10. }
  induction n as [|n IH]; intros w h k t s Hl Hk Hn Hp; [lia|].
  destruct (Step w h k t Hl) as (t1 & E1 & Hl1 & Hx1); [lia|].
  cbn [replicate app]. rewrite (WriteString_cons _ _ _ _ E1).
  destruct n as [|n].
  - exists t1. replace (k + Z.of_nat 1) with (k + 1) by lia. done.
  - destruct (IH w h (k + 1) t1 s) as (t2 & E2 & Hl2 & Hx2); [done|lia..|].
    exists t2. split; [done|]. split; [|done].
    replace (k + Z.of_nat (S (S n))) with (k + 1 + Z.of_nat (S n)) by lia. done.
Qed.

Lemma lost_write w h k t c : lost w h k t -> curX t = 0 -> 0 < w <= 2 ^ 29 -> h <= k < 2 ^ 30 ->
  0 <= h -> 32 <= b2z c -> b2z c <> 127 -> (putc c t).1 = Panic.
Proof.
  intros ((He & Hc & Ho) & Hb & Hy & Hw & Hh & Hg) Hx Hpos Hk Hh0 Hc1 Hc2.
  unfold putc. rewrite bind_getS, He, Hc, Ho. unfold putc_plain.
  replace (b2z c =? 27) with false by lia. replace (b2z c =? 10) with false by lia.
  replace (b2z c =? 13) with false by lia. replace (b2z c =? 9) with false by lia.
  replace ((b2z c =? 8) || (b2z c =? 127)) with false by lia.
  replace ((32 <=? b2z c) && negb (b2z c =? 127)) with true by lia.
  unfold setCell. unfold mbind, M_bind. cbn [getS]. unfold grid_set, mbind, M_bind. cbn [getS].
  rewrite Hy, Hw, Hx, Hg. rewrite i64_small by nia.
  replace ((0 <=? k * w + 0) && (k * w + 0 <? w * h)) with false by nia. done.
Qed.

Lemma deep_region_lost t : wf t -> ground t ->
  exists t', WriteString deep_region t = (Ok tt, t') /\ lost (cols t) (rows t) (curY t) t'.
Proof.
  intros H Hg. unfold deep_region. rewrite csi_sequence by done.
  set (t1 := set_csi false _).
  exists (set_scrollBottom (2 ^ 63 - 2) (set_scrollTop 0 t1)). split; [done|].
  destruct Hg as (He & Hc & Ho). unfold lost, ground. cbn. by rewrite (wf_grid _ H).
Qed.

(** ** The alternate screen *)

(** What the alternate screen saves. *)
Definition saved (t : Terminal) : bool * list cell * Z * Z := (altScreen t, altGrid t, altX t, altY t).

(** [m] leaves the saved screen alone, however it ends. *)
Definition spares (m : TM unit) : Prop := forall t, saved (m t).2 = saved t.

Create HintDb spares discriminated.

Lemma spares_ret : spares (mret tt).
Proof. by intros t. Qed.
Lemma spares_panic : spares panic.
Proof. by intros t. Qed.
Lemma spares_modify g : (forall t, saved (g t) = saved t) -> spares (modifyS g).
Proof. intros H t. apply H. Qed.
Lemma spares_get f : (forall t, spares (f t)) -> spares (t ← getS; f t).
Proof. intros H t. rewrite bind_getS. apply H. Qed.
Lemma spares_bind (m k : TM unit) : spares m -> spares k -> spares (_ ← m; k).
Proof.
  intros Hm Hk t. unfold mbind, M_bind. specialize (Hm t).
  destruct (m t) as [[[]| |] t1]; cbn in *; [|done..]. by rewrite Hk.
Qed.
Lemma spares_for n i body : (forall j, spares (body j)) -> spares (for_from n i body).
Proof.
  intros H. revert i. induction n as [|n IH]; intros i; cbn [for_from];
    auto using spares_ret, spares_bind.
Qed.
Lemma spares_range lo hi body : (forall j, spares (body j)) -> spares (for_range lo hi body).
Proof. apply spares_for. Qed.

#[export] Hint Resolve spares_ret spares_panic : spares.
#[export] Hint Constants Opaque : spares.

(** Steps through a body: reads, branches, assignments of other fields. *)
Ltac spare :=
  intros; cbv zeta; try solve [auto 2 with spares];
  lazymatch goal with
  | |- saved _ = saved _ => by repeat case_match
  | |- spares (getS ≫= _) => apply spares_get; spare
  | |- spares (_ ≫= _) => apply spares_bind; spare
  | |- spares (for_range _ _ _) => apply spares_range; spare
  | |- spares (modifyS _) => apply spares_modify; spare
  | |- spares (match ?x with _ => _ end) => destruct x; spare
  end.

Lemma spares_grid_set i c : spares (grid_set i c).
Proof. unfold grid_set. spare. Qed.
#[export] Hint Resolve spares_grid_set : spares.
Lemma spares_grid_blank i : spares (grid_blank i).
Proof. unfold grid_blank. spare. Qed.
#[export] Hint Resolve spares_grid_blank : spares.
Lemma spares_setCell c : spares (setCell c).
Proof. unfold setCell. spare. Qed.
Lemma spares_grid_copy a b c : spares (grid_copy a b c).
Proof. unfold grid_copy. spare. Qed.
#[export] Hint Resolve spares_setCell spares_grid_copy : spares.
Lemma spares_scrollUp : spares scrollUp.
Proof. unfold scrollUp. spare. Qed.
#[export] Hint Resolve spares_scrollUp : spares.
Lemma spares_newLine : spares newLine.
Proof. unfold newLine. spare. Qed.
#[export] Hint Resolve spares_newLine : spares.
Lemma spares_advance : spares advance.
Proof. unfold advance. spare. Qed.
Lemma spares_tab_loop n next : spares (tab_loop n next).
Proof. induction n as [|n IH]; cbn [tab_loop]; spare. Qed.
#[export] Hint Resolve spares_advance spares_tab_loop : spares.

Lemma saved_clampPos t : saved (clampPos t) = saved t.
Proof. unfold clampPos, clampX, clampY. repeat (case_match; cbn); done. Qed.

Lemma saved_applySGR p t : saved (applySGR p t) = saved t.
Proof.
  unfold applySGR. destruct p as [|c p]; [done|].
  revert t. induction (Split _ _) as [|q l IH]; intros t; [done|]. cbn [fold_left]. rewrite IH.
  unfold sgr_code. destruct (Atoi q) as [n [e|]]; [done|]. by repeat case_match.
Qed.

Lemma saved_putc_osc c t : saved (putc_osc c t) = saved t.
Proof.
  assert (D : forall s, saved (osc_end s t) = saved t).
  { intros s. unfold osc_end, applyOSC. destruct s; [done|]. destruct (SplitN2 _ _). by case_match. }
  unfold putc_osc. by repeat case_match.
Qed.

Lemma saved_cursor_to y x t : saved (cursor_to y x t) = saved t.
Proof. unfold cursor_to. rewrite saved_clampPos. by repeat case_match. Qed.

Lemma saved_set_region a b t : saved (set_region a b t) = saved t.
Proof. unfold set_region. by repeat case_match. Qed.

#[export] Hint Rewrite saved_clampPos saved_applySGR saved_putc_osc saved_cursor_to saved_set_region : saved.

Lemma spares_plain c : spares (putc_plain c).
Proof. unfold putc_plain, advanceToTabStop. spare. Qed.

Lemma spares_csi_final c get : spares (csi_final c get).
Proof.
  unfold csi_final, eraseDisplay, eraseLine, eraseChars, moveCursor, restoreCursor.
  repeat match goal with |- spares (if ?b then _ else _) => destruct b end;
    try (apply spares_modify; intros; autorewrite with saved; done); spare.
Qed.

(** Setting modes on the alternate screen, and resetting them without
    leaving it, keeps the saved screen. *)
Lemma decset_spares p t : altScreen t = true -> saved (decset_code true p t).2 = saved t.
Proof.
  intros Ha. unfold decset_code. generalize (Atoi p).1. intros n.
  repeat case_match; try done; cbn; repeat case_match; try done.
  unfold switchToAltScreen. by rewrite bind_getS, Ha.
Qed.

Lemma decreset_spares p t : altScreen (decset_code false p t).2 = true ->
  saved (decset_code false p t).2 = saved t.
Proof.
  unfold decset_code. generalize (Atoi p).1. intros n.
  repeat case_match; try done; cbn; repeat case_match; try done.
  unfold switchToNormalScreen. by destruct (altScreen t) eqn:E; cbn.
Qed.

Lemma for_each_saved {A} (body : A -> TM unit) l t :
  (forall x t, altScreen (body x t).2 = true -> saved (body x t).2 = saved t) ->
  altScreen (for_each l body t).2 = true -> saved (for_each l body t).2 = saved t.
Proof.
  intros H. revert t. induction l as [|x l IH]; intros t; cbn [for_each]; [done|].
  unfold mbind, M_bind. specialize (H x t). destruct (body x t) as [[[]| |] t1]; cbn in *; auto.
  intros Ha. pose proof (IH t1 Ha) as E. rewrite E. apply H.
  unfold saved in E. congruence.
Qed.

Lemma for_each_saved_set l t : altScreen t = true ->
  saved (for_each l (decset_code true) t).2 = saved t.
Proof.
  revert t. induction l as [|x l IH]; intros t Ha; cbn [for_each]; [done|].
  unfold mbind, M_bind. pose proof (decset_spares x t Ha) as E.
  destruct (decset_code true x t) as [[[]| |] t1]; cbn in *; [|done..].
  rewrite IH; [done|]. unfold saved in E. congruence.
Qed.

Lemma applyDECPrivate_saved c t : altScreen t = true -> altScreen (applyDECPrivate c t).2 = true ->
  saved (applyDECPrivate c t).2 = saved t.
Proof.
  intros Ha. unfold applyDECPrivate, applyDECSet. repeat case_match; [| |done];
    rewrite bind_getS; intros H'.
  - apply for_each_saved; [apply decreset_spares|done].
  - by apply for_each_saved_set.
Qed.

(** One byte on the alternate screen that does not leave it. *)
Lemma putc_saved c t : altScreen t = true -> altScreen (putc c t).2 = true ->
  saved (putc c t).2 = saved t.
Proof.
  intros Ha. unfold putc. rewrite bind_getS.
  destruct (esc t); [intros _; by cbn; unfold putc_esc; repeat case_match|].
  destruct (csi t); [|destruct (osc t); intros _; [apply saved_putc_osc|apply spares_plain]].
  unfold putc_csi. rewrite bind_getS. destruct (is_param c); [intros _; by case_match|].
  rewrite bind_modifyS. change (saved t) with (saved (set_csi false t)).
  destruct (Byte.eqb c "m"%byte); [intros _; apply saved_applySGR|].
  destruct (decPm t); [intros H'; by rewrite applyDECPrivate_saved|].
  intros _. by rewrite spares_csi_final.
Qed.

(** The run never shows the normal screen. *)
Fixpoint stays_alt (s : list byte) (t : Terminal) : Prop :=
  match s with
  | [] => altScreen t = true
  | c :: s' => altScreen t = true /\ stays_alt s' (putc c t).2
  end.

Lemma WriteString_saved s t t' : stays_alt s t -> WriteString s t = (Ok tt, t') ->
  saved t' = saved t.
Proof.
  revert t. induction s as [|c s IH]; intros t Hs.
  - by intros [= ->].
  - destruct Hs as [Ha Hs]. intros E. apply bind_inv_ok in E as ([] & t1 & E1 & E2).
    rewrite E1 in Hs. cbn in Hs. rewrite (IH t1 Hs E2).
    pose proof (putc_saved c t Ha) as P. rewrite E1 in P. apply P.
    destruct s; [done|apply Hs].
Qed.

Definition enter_alt : list byte := ESC :: "["%byte :: "?"%byte :: bs "1049" ++ ["h"%byte].
Definition leave_alt : list byte := ESC :: "["%byte :: "?"%byte :: bs "1049" ++ ["l"%byte].

Lemma enter_alt_ok t : wf t -> ground t -> altScreen t = false ->
  exists t', WriteString enter_alt t = (Ok tt, t') /\ wf t' /\ ground t' /\
    saved t' = (true, grid t, curX t, curY t) /\ cols t' = cols t /\ rows t' = rows t.
Proof.
  intros H Hg Ha. unfold enter_alt. rewrite dec_sequence by done.
  destruct Hg as (He & Hc & Ho).
  set (t1 := set_csi false _).
  assert (H1 : wf t1) by (destruct H; split; cbn; try done; rewrite Ho; naive_solver).
  destruct (safe_switchToAltScreen t1 H1) as ([] & t2 & E2 & H2).
  exists t2. split; [|split; [done|]].
  - change ((_ ← switchToAltScreen; mret tt) t1 = (Ok tt, t2)). by erewrite bind_ok.
  - revert E2. unfold switchToAltScreen. rewrite bind_getS. cbn [altScreen t1 set_csi in_csi set_csiBuf set_decPm set_esc].
    rewrite Ha, bind_modifyS. erewrite bind_ok by apply Clear_eq. intros [= <-].
    unfold ground, saved. cbn. rewrite copy_cells_all by (by apply wf_same_len). auto.
Qed.

Lemma leave_alt_ok t : wf t -> ground t -> altScreen t = true ->
  exists t', WriteString leave_alt t = (Ok tt, t') /\ wf t' /\ altScreen t' = false /\
    grid t' = altGrid t /\ curX t' = altX t /\ curY t' = altY t.
Proof.
  intros H Hg Ha. unfold leave_alt. rewrite dec_sequence by done.
  destruct Hg as (He & Hc & Ho). set (t1 := set_csi false _).
  assert (H1 : wf t1) by (destruct H; split; cbn; try done; rewrite Ho; naive_solver).
  exists (switchToNormalScreen t1). split; [done|]. split; [by apply wf_switchToNormalScreen|].
  unfold switchToNormalScreen. cbn [altScreen t1 set_csi in_csi set_csiBuf set_decPm set_esc].
  rewrite Ha. cbn. rewrite copy_cells_all by (by rewrite wf_same_len). done.
Qed.
