(* ===== verification/TermText.v ===== *)
(** * TermText: plain text on the screen

    What a reader of the console expects: the text, cut into lines at
    newlines and at the right margin, of which the screen shows the last
    [rows].  [transcript] is that specification; the lemmas relate it to the
    grid after every byte. *)

From Stdlib Require Import Strings.Byte.
From S2P Require Import Prelude Frame TermFb TermState Terminal TermFacts TermEscape.

(** ** The specification *)

Definition printable (c : byte) : bool := (32 <=? b2z c) && negb (b2z c =? 127).

(** The finished lines and the line being written. *)
Definition typed (w : Z) (p : list (list byte) * list byte) (c : byte) : list (list byte) * list byte :=
  let '(done, cur) := p in
  if b2z c =? 10 then (done ++ [cur], [])
  else
    let cur := cur ++ [c] in
    if zlen cur =? w then (done ++ [cur], []) else (done, cur).

Definition transcript (w : Z) (s : list byte) : list (list byte) * list byte :=
  fold_left (typed w) s ([], []).

Definition all_lines (p : list (list byte) * list byte) : list (list byte) := p.1 ++ [p.2].

(** The character at column [x] of line [r]: a space past the end. *)
Definition char_at (L : list (list byte)) (r x : Z) : Z :=
  default 32 (b2z <$> (L !! Z.to_nat r ≫= (fun l => l !! Z.to_nat x))).

(** The first line on a screen of [h] rows. *)
Definition first_line (h : Z) (L : list (list byte)) : Z := Z.max 0 (zlen L - h).

(** ** The grid as rows *)

Definition cell_at (t : Terminal) (x y : Z) : option cell := grid t !! Z.to_nat (y * cols t + x).

Lemma scroll_rows_full w h b g x y : 0 < w -> 0 < h -> zlen g = w * h ->
  0 <= x < w -> 0 <= y < h ->
  scroll_rows w 0 (h - 1) b g !! Z.to_nat (y * w + x) =
    if y =? h - 1 then Some b else g !! Z.to_nat ((y + 1) * w + x).
Proof.
  unfold zlen. intros Hw Hh Hg Hx Hy. unfold scroll_rows.
  rewrite lookup_splice by (rewrite length_splice; nia).
  rewrite length_splice, length_replicate by lia.
  destruct (y =? h - 1) eqn:E.
  - rewrite decide_True by nia. apply lookup_replicate_2. nia.
  - rewrite decide_False by nia. rewrite lookup_splice by lia.
    rewrite length_slice, decide_True by nia. rewrite lookup_slice, decide_True by nia.
    f_equal. nia.
Qed.

(** The screen shows the last lines of [L], the cursor's row being the last. *)
Record page (L : list (list byte)) (t : Terminal) : Prop := {
  pg_wf : wf t;
  pg_ground : ground t;
  pg_colors : fg t = 7 /\ bg t = 0;
  pg_wrap : autoWrap t = true;
  pg_region : scrollTop t = 0 /\ scrollBottom t = rows t - 1;
  pg_row : curY t = zlen L - 1 - first_line (rows t) L;
  pg_cells : forall x y, 0 <= x < cols t -> 0 <= y < rows t ->
    cell_at t x y = Some (mkCell (char_at L (first_line (rows t) L + y) x) 7 0)
}.

Lemma char_at_snoc L r x : 0 <= r -> char_at (L ++ [[]]) r x = char_at L r x.
Proof.
  intros Hr. unfold char_at. destruct (decide (Z.to_nat r < length L)%nat).
  - by rewrite lookup_app_l by lia.
  - rewrite lookup_app_r by lia. rewrite (lookup_ge_None_2 L) by lia.
    destruct (Z.to_nat r - length L)%nat; done.
Qed.

Lemma char_at_beyond L r x : zlen L <= r -> char_at L r x = 32.
Proof. unfold zlen. intros Hr. unfold char_at. by rewrite lookup_ge_None_2 by lia. Qed.

Lemma page_newLine L t : page L t -> (0 < length L)%nat ->
  exists t', newLine t = (Ok tt, t') /\ page (L ++ [[]]) t' /\ curX t' = 0 /\
    cols t' = cols t /\ rows t' = rows t.
Proof.
  intros [H (He & Hc & Ho) [Hf Hb] Ha [Ht Hs] Hy Hg] HL.
  destruct (safe_newLine t H) as ([] & t' & E & H'). exists t'. split; [done|].
  pose proof (wf_cols _ H). pose proof (wf_rows _ H). pose proof (wf_grid _ H) as Hl.
  unfold first_line, zlen in Hy, Hg.
  assert (Hw0 : wf (set_curX 0 t)) by (apply wf_set_curX; [done|lia]).
  revert E. unfold newLine. rewrite bind_modifyS, bind_getS. cbn [scrollBottom curY set_curX].
  rewrite Hs. destruct (rows t - 1 <=? curY t) eqn:Ey.
  - erewrite bind_ok by (apply scrollUp_eq; [done|cbn; lia]). intros [= <-].
    split; [|done]. split; cbn; try done.
    + unfold first_line, zlen. rewrite length_app. cbn. lia.
    + intros x y Hx Hy'. unfold cell_at. cbn. rewrite Ht, Hs.
      rewrite scroll_rows_full by (done || lia). unfold first_line, zlen. rewrite length_app. cbn [length].
      unfold cell_at in Hg. rewrite char_at_snoc by lia.
      destruct (y =? rows t - 1) eqn:E1.
      * rewrite char_at_beyond by (unfold zlen; lia). unfold blank. cbn. by rewrite Hf, Hb.
      * rewrite Hg by lia. do 3 f_equal. lia.
  - rewrite bind_modifyS, i64_small by lia. intros [= <-]. split; [|done].
    split; cbn; try done.
    + unfold first_line, zlen. rewrite length_app. cbn. lia.
    + intros x y Hx Hy'. unfold cell_at in *. cbn. rewrite Hg by done.
      unfold first_line, zlen. rewrite length_app. cbn [length].
      rewrite char_at_snoc by lia. do 3 f_equal. lia.
Qed.

Lemma char_at_put d cur c r x : 0 <= r -> 0 <= x ->
  char_at (d ++ [cur ++ [c]]) r x =
    if (r =? zlen d) && (x =? zlen cur) then b2z c else char_at (d ++ [cur]) r x.
Proof.
  intros Hr Hx. unfold char_at, zlen.
  destruct (decide (Z.to_nat r < length d)%nat).
  { replace (r =? Z.of_nat (length d)) with false by lia. cbn. by rewrite !lookup_app_l by lia. }
  rewrite !(lookup_app_r d) by lia.
  destruct (Z.to_nat r - length d)%nat eqn:E; cbn;
    [|by replace (r =? Z.of_nat (length d)) with false by lia].
  replace (r =? Z.of_nat (length d)) with true by lia. cbn.
  destruct (Z.lt_trichotomy x (Z.of_nat (length cur))) as [?|[->|?]].
  - replace (x =? _) with false by lia. by rewrite lookup_app_l by lia.
  - rewrite Z.eqb_refl, Nat2Z.id. by rewrite list_lookup_middle.
  - replace (x =? _) with false by lia.
    rewrite !lookup_ge_None_2; [done|lia|rewrite length_app; cbn; lia].
Qed.

Lemma zlen_line {A} (d : list A) x : zlen (d ++ [x]) = zlen d + 1.
Proof. unfold zlen. rewrite length_app. cbn. lia. Qed.

Lemma page_setCell d cur c t : page (d ++ [cur]) t -> curX t = zlen cur ->
  exists t', setCell (b2z c) t = (Ok tt, t') /\ page (d ++ [cur ++ [c]]) t' /\ curX t' = curX t /\
    cols t' = cols t /\ rows t' = rows t.
Proof.
  intros [H Hgr [Hf Hb] Ha Hr Hy Hg] Hx.
  destruct (safe_setCell (b2z c) (b2z_range c) t H) as ([] & t' & E & H').
  exists t'. split; [done|]. pose proof (wf_x _ H). pose proof (wf_y _ H). pose proof (wf_rows _ H).
  rewrite setCell_eq in E by done. injection E as <-. split; [|done].
  unfold first_line in *. rewrite zlen_line in *.
  split; cbn; try done; unfold first_line; rewrite ?zlen_line; [done|].
  intros x y Hx' Hy'. unfold cell_at in *. cbn. rewrite char_at_put by lia.
  pose proof (wf_grid _ H) as Hl. unfold zlen in Hl.
  destruct ((_ =? zlen d) && (x =? zlen cur)) eqn:Exy.
  - replace y with (curY t) by lia. replace x with (curX t) by lia.
    rewrite list_lookup_insert_eq by nia. by rewrite Hf, Hb.
  - rewrite list_lookup_insert_ne; [by apply Hg|]. intros E%Z2Nat.inj; [|nia..].
    apply (cell_index_inj (cols t)) in E; lia.
Qed.

(** ** One byte, then all of them *)

Definition is_text (c : byte) : bool := (b2z c =? 10) || printable c.

Definition shows (p : list (list byte) * list byte) (t : Terminal) : Prop :=
  page (all_lines p) t /\ curX t = zlen p.2.

Lemma shows_newLine d cur t : page (d ++ [cur]) t ->
  exists t', newLine t = (Ok tt, t') /\ shows (d ++ [cur], []) t' /\
    cols t' = cols t /\ rows t' = rows t.
Proof.
  intros Hp. destruct (page_newLine _ _ Hp) as (t' & E & Hp' & Hx & Hc); [rewrite length_app; cbn; lia|].
  exists t'. done.
Qed.

Lemma advance_eq t : wf t -> autoWrap t = true ->
  advance t = if curX t + 1 =? cols t then newLine (set_curX 0 t)
              else (Ok tt, set_curX (curX t + 1) t).
Proof.
  intros H Ha. pose proof (wf_x _ H). pose proof (wf_cols _ H).
  unfold advance. rewrite bind_modifyS, bind_getS. cbn [cols curX set_curX autoWrap].
  rewrite i64_small by lia. destruct (curX t + 1 =? cols t) eqn:E.
  - replace (cols t <=? curX t + 1) with true by lia. by rewrite Ha.
  - by replace (cols t <=? curX t + 1) with false by lia.
Qed.

Lemma page_set_curX L t x : page L t -> 0 <= x < cols t -> page L (set_curX x t).
Proof. intros [] Hx. split; try done. by apply wf_set_curX. Qed.

Lemma shows_put d cur c t : page (d ++ [cur]) t -> curX t = zlen cur -> printable c = true ->
  exists t', (_ ← setCell (b2z c); advance) t = (Ok tt, t') /\
    shows (typed (cols t) (d, cur) c) t' /\ cols t' = cols t /\ rows t' = rows t.
Proof.
  intros Hp Hx Hc. unfold printable in Hc.
  destruct (page_setCell d cur c t Hp Hx) as (t1 & E1 & Hp1 & Hx1 & Hc1 & Hr1).
  rewrite (bind_ok _ _ _ _ _ E1).
  pose proof (wf_x _ (pg_wf _ _ Hp1)). pose proof (wf_cols _ (pg_wf _ _ Hp1)).
  rewrite advance_eq by apply Hp1. unfold typed.
  replace (b2z c =? 10) with false by lia. rewrite zlen_line, <- Hx, <- Hx1, <- Hc1, <- Hr1.
  destruct (curX t1 + 1 =? cols t1) eqn:E.
  - destruct (shows_newLine d (cur ++ [c]) (set_curX 0 t1)) as (t2 & E2 & Hs2 & Hc2);
      [apply page_set_curX; [done|lia]|]. exists t2. done.
  - eexists. split; [done|]. split; [|done]. split.
    + apply page_set_curX; [done|lia].
    + cbn [snd]. rewrite zlen_line. cbn. lia.
Qed.

Lemma shows_putc p c t : shows p t -> is_text c = true ->
  exists t', putc c t = (Ok tt, t') /\ shows (typed (cols t) p c) t' /\
    cols t' = cols t /\ rows t' = rows t.
Proof.
  destruct p as [d cur]. intros [Hp Hx] Hc. cbn [snd] in Hx. unfold all_lines in Hp. cbn in Hp.
  destruct (pg_ground _ _ Hp) as (He & Hcs & Ho).
  unfold putc. rewrite bind_getS, He, Hcs, Ho. unfold putc_plain, is_text, printable in *.
  replace (b2z c =? 27) with false by lia.
  destruct (b2z c =? 10) eqn:E10.
  { unfold typed. rewrite E10. by apply shows_newLine. }
  cbn [orb] in Hc.
  replace (b2z c =? 13) with false by lia. replace (b2z c =? 9) with false by lia.
  replace ((b2z c =? 8) || (b2z c =? 127)) with false by lia. rewrite Hc.
  by apply shows_put.
Qed.

Lemma shows_WriteString s : forall p t, shows p t -> forallb is_text s = true ->
  exists t', WriteString s t = (Ok tt, t') /\ shows (fold_left (typed (cols t)) s p) t' /\
    cols t' = cols t /\ rows t' = rows t.
Proof.
  induction s as [|c s IH]; intros p t Hs Ht; [by exists t|].
  cbn in Ht. apply andb_true_iff in Ht as [Hc Ht].
  destruct (shows_putc p c t Hs Hc) as (t1 & E1 & Hs1 & Hc1 & Hr1).
  destruct (IH _ _ Hs1 Ht) as (t2 & E2 & Hs2 & Hc2 & Hr2).
  exists t2. rewrite (WriteString_cons _ _ _ _ E1), E2. cbn [fold_left].
  split; [done|]. rewrite Hc1 in Hs2. split; [done|split; congruence].
Qed.

Lemma New_shows w t : New w = (Ok tt, t) -> shows ([], []) t.
Proof.
  intros E.
  destruct (New_ok w) as (t0 & E0 & H & _ & _ & Hg & [= Hx Hy] & [= Hf Hb] & Ha & [= Ht Hs] & [= He Hc Ho] & _).
  rewrite E in E0. injection E0 as ->. pose proof (wf_rows _ H).
  split; [|done]. split; try done.
  - unfold first_line, all_lines, zlen. cbn. lia.
  - intros x y Hx' Hy'. unfold cell_at. rewrite Hg.
    rewrite lookup_replicate_2 by nia. unfold char_at.
    generalize (Z.to_nat (first_line (rows t0) (all_lines ([], [])) + y)). by intros [|[|n]].
Qed.
