(* ===== verification/TermPaint.v ===== *)
(** * TermPaint: what the drawing loops paint

    [paints f R t s]: from [t] to [s] the window's pixels in region [R] became
    [f] and nothing else changed, neither another pixel nor a byte outside
    the pixel area.  Regions compose, so each loop of [TermFlush] is one
    region: a scan line, a cell, a row of cells, the grid, the cursor. *)

From S2P Require Import Prelude Frame TermFb TermState Terminal TermFacts TermFlush.

(** The bytes of a pixel: B, G, R, X. *)
Definition pixel_bytes (color : Z) : list byte :=
  [z2b color; z2b (Z.shiftr color 8); z2b (Z.shiftr color 16); Byte.x00].

Lemma zlen_pixel c : zlen (pixel_bytes c) = 4.
Proof. done. Qed.

(** ** One pixel *)

Lemma insert4_splice {A} (l : list A) o a b c d : 0 <= o -> o + 4 <= zlen l ->
  <[Z.to_nat (o + 3) := d]> (<[Z.to_nat (o + 2) := c]>
    (<[Z.to_nat (o + 1) := b]> (<[Z.to_nat o := a]> l))) = splice l o [a; b; c; d].
Proof.
  unfold zlen. intros Ho Hl. apply list_eq. intros i.
  rewrite lookup_splice by lia. cbn [length].
  destruct (decide (i = Z.to_nat (o + 3))) as [->|N3].
  { rewrite list_lookup_insert_eq by (rewrite !length_insert; lia). rewrite decide_True by lia.
    by replace (_ - _)%nat with 3%nat by lia. }
  rewrite list_lookup_insert_ne by done.
  destruct (decide (i = Z.to_nat (o + 2))) as [->|N2].
  { rewrite list_lookup_insert_eq by (rewrite !length_insert; lia). rewrite decide_True by lia.
    by replace (_ - _)%nat with 2%nat by lia. }
  rewrite list_lookup_insert_ne by done.
  destruct (decide (i = Z.to_nat (o + 1))) as [->|N1].
  { rewrite list_lookup_insert_eq by (rewrite !length_insert; lia). rewrite decide_True by lia.
    by replace (_ - _)%nat with 1%nat by lia. }
  rewrite list_lookup_insert_ne by done.
  destruct (decide (i = Z.to_nat o)) as [->|N0].
  { rewrite list_lookup_insert_eq by lia. rewrite decide_True by lia.
    by replace (_ - _)%nat with 0%nat by lia. }
  rewrite list_lookup_insert_ne by done. by rewrite decide_False by lia.
Qed.

Definition with_mem (m : list byte) (t : Terminal) : Terminal := set_fb (set_mem m (fb t)) t.

Lemma pix_set_eq p o v t : 0 <= o < p.2 ->
  pix_set p o v t = (Ok tt, with_mem (<[Z.to_nat (p.1 + o) := v]> (mem (fb t))) t).
Proof. intros Ho. unfold pix_set. by replace ((0 <=? o) && (o <? p.2)) with true by lia. Qed.

Lemma plot_eq p o color t : 0 <= o -> o + 4 <= p.2 -> 0 <= p.1 -> p.1 + p.2 <= zlen (mem (fb t)) ->
  plot p o color t = (Ok tt, with_mem (splice (mem (fb t)) (p.1 + o) (pixel_bytes color)) t).
Proof.
  intros Ho Ho4 Hp Hm. unfold plot.
  do 3 (erewrite bind_ok by (apply pix_set_eq; lia)). rewrite pix_set_eq by lia.
  unfold pixel_bytes. rewrite <- insert4_splice by lia. rewrite !Z.add_assoc. done.
Qed.

(** ** Regions *)

Lemma FBOffset_slice w v : 24 <= zlen (mem v) -> zlen (mem w) = zlen (mem v) ->
  slice (mem w) 16 (16 + 8) = slice (mem v) 16 (16 + 8) -> FBOffset w = FBOffset v.
Proof. intros Hv Hl E. apply (Get64_ext (mem w) (mem v) 16); [lia..|done]. Qed.

Section paint.
Variables W H off : Z.

Definition px (t : Terminal) (x y : Z) : list byte :=
  slice (mem (fb t)) (off + (y * W + x) * 4) (off + (y * W + x) * 4 + 4).

(** The window the terminal is drawing into. *)
Record canvas (t : Terminal) : Prop := {
  cv_width : Width (fb t) = W;
  cv_height : Height (fb t) = H;
  cv_off : FBOffset (fb t) = off;
  cv_range : 0 < W < 2 ^ 32 /\ 0 <= H < 2 ^ 32 /\ 0x40 <= off;
  cv_len : off + W * H * 4 <= zlen (mem (fb t)) < 2 ^ 62
}.

Record paints (f : Z -> Z -> Z) (R : Z -> Z -> bool) (t s : Terminal) : Prop := {
  pa_term : s = with_mem (mem (fb s)) t;
  pa_len : zlen (mem (fb s)) = zlen (mem (fb t));
  pa_out : forall lo hi, 0 <= lo <= hi -> hi <= off \/ off + W * H * 4 <= lo ->
    slice (mem (fb s)) lo hi = slice (mem (fb t)) lo hi;
  pa_px : forall x y, 0 <= x < W -> 0 <= y < H ->
    px s x y = if R x y then pixel_bytes (f x y) else px t x y
}.

Lemma paints_none f t : paints f (fun _ _ => false) t t.
Proof. split; try done. unfold with_mem, set_mem. by destruct t as [[]]. Qed.

Lemma paints_trans f R B R' t s u : paints f R t s -> paints f B s u ->
  (forall x y, 0 <= x < W -> 0 <= y < H -> R' x y = R x y || B x y) -> paints f R' t u.
Proof.
  intros [T1 L1 O1 P1] [T2 L2 O2 P2] HR. split.
  - rewrite T2, T1. done.
  - congruence.
  - intros lo hi Hl Hb. by rewrite O2, O1.
  - intros x y Hx Hy. rewrite P2, HR, P1 by done. by destruct (R x y), (B x y).
Qed.

Lemma paints_ext f R R' t s : paints f R t s ->
  (forall x y, 0 <= x < W -> 0 <= y < H -> R' x y = R x y) -> paints f R' t s.
Proof. intros [T L O P] HR. split; try done. intros x y Hx Hy. by rewrite HR, P. Qed.

Lemma canvas_paints f R t s : canvas t -> paints f R t s -> canvas s.
Proof.
  intros [EW EH EO (HW & HH & Ho) [Hl Hb]] [T L O P].
  assert (0 <= W * H * 4) by nia.
  split; [| | |done|lia].
  - rewrite <- EW. apply Get32_ext; [lia..|apply O; lia].
  - rewrite <- EH. apply Get32_ext; [lia..|apply O; lia].
  - rewrite <- EO. apply FBOffset_slice; [lia..|apply O; lia].
Qed.

Lemma paints_plot f t x y : canvas t -> 0 <= x < W -> 0 <= y < H ->
  ht (fun s => s = t) (plot (off, W * H * 4) ((y * W + x) * 4) (f x y))
    (fun _ => paints f (fun x' y' => (x' =? x) && (y' =? y)) t).
Proof.
  intros [EW EH EO (HW & HH & Ho) [Hl Hb]] Hx Hy s ->. exists tt. eexists.
  assert (Hi : 0 <= y * W + x < W * H) by nia.
  split; [apply plot_eq; cbn [fst snd]; lia|]. cbn [fst].
  split; unfold px, with_mem; cbn [fb set_fb mem set_mem]; [done|apply zlen_splice; lia| |].
  - intros lo hi Hlo Hout.
    destruct Hout; [apply slice_splice_before|apply slice_splice_after]; rewrite ?zlen_pixel; lia.
  - intros x' y' Hx' Hy'. destruct ((x' =? x) && (y' =? y)) eqn:E.
    + assert (x' = x) as -> by lia. assert (y' = y) as -> by lia.
      by apply slice_splice_same; rewrite ?zlen_pixel; lia.
    + assert (y' * W + x' < y * W + x \/ y * W + x < y' * W + x') as [?|?].
      { destruct (Z.lt_trichotomy (y' * W + x') (y * W + x)) as [?|[?|?]]; [lia| |lia].
        destruct (cell_index_inj W x' y' x y); lia. }
      * apply slice_splice_before; lia.
      * apply slice_splice_after; rewrite ?zlen_pixel; lia.
Qed.

(** Equalities of boolean region tests. *)
Ltac bool_lia :=
  repeat match goal with
  | |- context [?a =? ?b] => destruct (Z.eqb_spec a b)
  | |- context [?a <=? ?b] => destruct (Z.leb_spec a b)
  | |- context [?a <? ?b] => destruct (Z.ltb_spec a b)
  end; cbn; first [done | lia].

(** Drawing more of the same picture. *)
Lemma ht_paint f R B R' t (m : TM unit) : canvas t ->
  (forall s, canvas s -> s = with_mem (mem (fb s)) t -> ht (fun u => u = s) m (fun _ => paints f B s)) ->
  (forall x y, 0 <= x < W -> 0 <= y < H -> R' x y = R x y || B x y) ->
  ht (paints f R t) m (fun _ => paints f R' t).
Proof.
  intros Hc Hm HR s Hs. destruct (Hm s) with (s := s) as (a & u & E & Hu).
  - by eapply canvas_paints.
  - apply Hs.
  - done.
  - exists a, u. split; [done|]. by eapply paints_trans.
Qed.

Lemma ht_none f R t (m : TM unit) : m = mret tt -> (forall x y, 0 <= x < W -> 0 <= y < H -> R x y = false) ->
  ht (fun s => s = t) m (fun _ => paints f R t).
Proof.
  intros -> HR s ->. exists tt, t. split; [done|]. apply (paints_ext f (fun _ _ => false)); [|done].
  apply paints_none.
Qed.

(** The pixels of row [y] from column [lo] up to [hi]. *)
Definition strip (y lo hi : Z) (x' y' : Z) : bool := (y' =? y) && (lo <=? x') && (x' <? hi).

Lemma paints_strip f y bx (color : Z -> Z) n i t : canvas t -> 0 <= y < H -> 0 <= bx -> 0 <= i ->
  (forall gx, i <= gx < i + Z.of_nat n -> color gx = f (bx + gx) y) ->
  ht (fun s => s = t)
    (for_break n i (fun gx t => Width (fb t) <=? bx + gx)
       (fun gx => plot (off, W * H * 4) ((y * W + bx) * 4 + gx * 4) (color gx)))
    (fun _ => paints f (strip y (bx + i) (bx + i + Z.of_nat n)) t).
Proof.
  revert i t. induction n as [|n IH]; intros i t Hc Hy Hb Hi Hf; cbn [for_break].
  { apply ht_none; [done|]. intros. unfold strip. bool_lia. }
  apply ht_get. intros s ->. rewrite (cv_width _ Hc).
  destruct (W <=? bx + i) eqn:E.
  { apply ht_none; [done|]. intros. unfold strip. bool_lia. }
  rewrite Hf by lia. replace ((y * W + bx) * 4 + i * 4) with ((y * W + (bx + i)) * 4) by lia.
  eapply ht_bind; [apply paints_plot; [done|lia|done]|]. intros [].
  eapply ht_paint; [done| |].
  - intros s Hs _. apply (IH (i + 1) s); [done|done|done|lia|]. intros gx Hg. apply Hf. lia.
  - intros x' y' Hx' Hy'. unfold strip. bool_lia.
Qed.

(** ** The picture *)

(** The colour the grid puts at a pixel: the glyph of the cell there, each
    font row drawn twice, bit 7 leftmost. *)
Definition cell_color (c : cell) (gx gy : Z) : Z :=
  if Z.testbit (default 0 (Glyph (u8 (ch c)) !! Z.to_nat gy)) (7 - gx)
  then color_of (cfg c) else color_of (cbg c).

Definition grid_color (g : list cell) (cs x y : Z) : Z :=
  match g !! Z.to_nat (y / GlyphH * cs + x / GlyphW) with
  | Some c => cell_color c (x mod GlyphW) (y mod GlyphH / 2)
  | None => 0
  end.

Lemma land_bit a n : 0 <= n -> negb (Z.land a (Z.shiftl 1 n) =? 0) = Z.testbit a n.
Proof.
  intros Hn. rewrite Z.shiftl_1_l. destruct (Z.testbit a n) eqn:E.
  - apply negb_true_iff, Z.eqb_neq. intros C.
    assert (Z.testbit (Z.land a (2 ^ n)) n = false) as F by (rewrite C; apply Z.bits_0).
    rewrite Z.land_spec, E, Z.pow2_bits_true in F by done. done.
  - apply negb_false_iff, Z.eqb_eq. apply Z.bits_inj'. intros m Hm.
    rewrite Z.land_spec, Z.bits_0. destruct (decide (n = m)) as [->|Hne]; [by rewrite E|].
    rewrite Z.pow2_bits_false by done. apply andb_false_r.
Qed.

Definition box (x0 x1 y0 y1 x y : Z) : bool := (x0 <=? x) && (x <? x1) && (y0 <=? y) && (y <? y1).

Lemma grid_color_in g cs row col c gx gy half : 0 <= col -> 0 <= row ->
  0 <= gx < 8 -> 0 <= gy < 8 -> 0 <= half < 2 ->
  g !! Z.to_nat (row * cs + col) = Some c ->
  grid_color g cs (col * GlyphW + gx) (row * GlyphH + gy * 2 + half) = cell_color c gx gy.
Proof.
  intros Hc Hr Hx Hy Hh E. unfold grid_color, GlyphW, GlyphH.
  replace ((row * 16 + gy * 2 + half) / 16) with row by (Z.to_euclidean_division_equations; lia).
  replace ((col * 8 + gx) / 8) with col by (Z.to_euclidean_division_equations; lia).
  rewrite E. f_equal; Z.to_euclidean_division_equations; lia.
Qed.

(** One scan line of a cell. *)
Lemma paints_line f c gy bx y t : canvas t -> 0 <= y < H -> 0 <= bx <= 2 ^ 32 ->
  (forall gx, 0 <= gx < 8 -> cell_color c gx gy = f (bx + gx) y) ->
  ht (fun s => s = t)
    (draw_line (off, W * H * 4) c (default 0 (Glyph (u8 (ch c)) !! Z.to_nat gy)) bx
       (i64 (y * (W * 4) + bx * 4)))
    (fun _ => paints f (strip y bx (bx + 8)) t).
Proof.
  intros Hc Hy Hb Hf. destruct (cv_range _ Hc) as (HW & HH & Ho). pose proof (cv_len _ Hc).
  assert (0 <= y * W < W * H) by nia. rewrite i64_small by lia.
  replace (y * (W * 4) + bx * 4) with ((y * W + bx) * 4) by lia.
  assert (Hf' : forall gx, 0 <= gx < 0 + Z.of_nat 8 ->
    (if negb (Z.land (default 0 (Glyph (u8 (ch c)) !! Z.to_nat gy)) (Z.shiftl 1 (7 - gx)) =? 0)
     then color_of (cfg c) else color_of (cbg c)) = f (bx + gx) y).
  { intros gx Hg. rewrite land_bit by lia. apply Hf. lia. }
  eapply ht_post; [|refine (paints_strip f y bx _ 8 0 t Hc Hy _ _ Hf'); lia].
  intros a s Hs. eapply paints_ext; [exact Hs|]. intros. unfold strip. bool_lia.
Qed.

(** A scan line when it is on the screen, nothing when it is not. *)
Lemma paints_scan f c gy bx y t : canvas t -> 0 <= y -> 0 <= bx <= 2 ^ 32 ->
  (forall gx, 0 <= gx < 8 -> cell_color c gx gy = f (bx + gx) y) ->
  ht (fun s => s = t)
    (t ← getS; if Height (fb t) <=? y then mret tt
     else draw_line (off, W * H * 4) c (default 0 (Glyph (u8 (ch c)) !! Z.to_nat gy)) bx
            (i64 (y * (W * 4) + bx * 4)))
    (fun _ => paints f (strip y bx (bx + 8)) t).
Proof.
  intros Hc Hy Hb Hf. apply ht_get. intros s ->. rewrite (cv_height _ Hc).
  destruct (H <=? y) eqn:E; [|apply paints_line; auto with lia].
  apply ht_none; [done|]. intros. unfold strip. bool_lia.
Qed.

(** A loop over [n] parts of the picture, part [j] painting [B j]. *)
Lemma paints_loop f (R : Z -> Z -> Z -> bool) (B : Z -> Z -> Z -> bool) n (body : Z -> TM unit) t : 0 <= n ->
  canvas t ->
  (forall x y, 0 <= x < W -> 0 <= y < H -> R 0 x y = false) ->
  (forall j x y, 0 <= j < n -> 0 <= x < W -> 0 <= y < H -> R (j + 1) x y = R j x y || B j x y) ->
  (forall j s, 0 <= j < n -> canvas s -> s = with_mem (mem (fb s)) t ->
     ht (fun u => u = s) (body j) (fun _ => paints f (B j) s)) ->
  ht (fun s => s = t) (for_range 0 n body) (fun _ => paints f (R n) t).
Proof.
  intros Hn Hc R0 RS Hb. apply (ht_pre _ (paints f (R 0) t)).
  { intros s ->. apply (paints_ext f (fun _ _ => false)); [apply paints_none|done]. }
  apply (ht_range (fun j => paints f (R j) t)); [done|]. intros j Hj.
  apply (ht_paint f (R j) (B j)); [done| |intros; by apply RS]. intros s Hs Es. by apply Hb.
Qed.

Lemma paints_cell f c bx by_ t : canvas t -> 0 <= bx <= 2 ^ 32 -> 0 <= by_ ->
  (forall gx gy half, 0 <= gx < 8 -> 0 <= gy < 8 -> 0 <= half < 2 ->
     cell_color c gx gy = f (bx + gx) (by_ + gy * 2 + half)) ->
  ht (fun s => s = t)
    (for_range 0 8 (fun gy => for_range 0 2 (fun half =>
       t ← getS;
       if Height (fb t) <=? by_ + gy * 2 + half then mret tt
       else draw_line (off, W * H * 4) c (default 0 (Glyph (u8 (ch c)) !! Z.to_nat gy)) bx
              (i64 ((by_ + gy * 2 + half) * (W * 4) + bx * 4)))))
    (fun _ => paints f (box bx (bx + 8) by_ (by_ + 16)) t).
Proof.
  intros Hc Hx Hy Hf.
  eapply ht_post; [|apply (paints_loop f (fun j => box bx (bx + 8) by_ (by_ + j * 2))
    (fun j => box bx (bx + 8) (by_ + j * 2) (by_ + j * 2 + 2)))]; [done|lia|done| | |].
  - intros. unfold box. bool_lia.
  - intros. unfold box. bool_lia.
  - intros gy s Hg Hs _.
    apply (paints_loop f (fun j => box bx (bx + 8) (by_ + gy * 2) (by_ + gy * 2 + j))
      (fun j => strip (by_ + gy * 2 + j) bx (bx + 8))); [lia|done| | |].
    + intros. unfold box. bool_lia.
    + intros. unfold box, strip. bool_lia.
    + intros half u Hh Hu _. apply paints_scan; [done|lia|done|]. intros. by apply Hf.
Qed.

Lemma paints_draw_cell t row col : wf t -> canvas t -> 0 <= row < rows t -> 0 <= col < cols t ->
  ht (fun s => s = t) (draw_cell (off, W * H * 4) (W * 4) row col)
    (fun _ => paints (grid_color (grid t) (cols t))
       (box (col * 8) (col * 8 + 8) (row * 16) (row * 16 + 16)) t).
Proof.
  intros Ht Hc Hr Hcol. destruct (index_ok t col row Ht Hcol Hr) as [_ Hi].
  apply ht_get. intros s ->. replace (row * cols t + col <? 0) with false by lia.
  destruct (grid t !! Z.to_nat (row * cols t + col)) as [c|] eqn:E;
    [|apply lookup_ge_None in E; unfold zlen in *; lia].
  pose proof (wf_cols _ Ht). apply paints_cell; [done|unfold GlyphW; lia|unfold GlyphH; lia|].
  intros gx gy half Hx Hy Hh. symmetry. apply grid_color_in; done || lia.
Qed.

Lemma wf_with_mem m t : wf t -> wf (with_mem m t).
Proof. intros []. by split. Qed.

Lemma paints_grid t : wf t -> canvas t ->
  ht (fun s => s = t)
    (for_range 0 (rows t) (fun row => for_range 0 (cols t) (fun col =>
       draw_cell (off, W * H * 4) (W * 4) row col)))
    (fun _ => paints (grid_color (grid t) (cols t)) (box 0 (cols t * 8) 0 (rows t * 16)) t).
Proof.
  intros Ht Hc. pose proof (wf_cols _ Ht). pose proof (wf_rows _ Ht).
  apply (paints_loop _ (fun j => box 0 (cols t * 8) 0 (j * 16))
    (fun j => box 0 (cols t * 8) (j * 16) (j * 16 + 16))); [lia|done| | |].
  { intros. unfold box. bool_lia. }
  { intros. unfold box. bool_lia. }
  intros row s Hr Hs Es.
  apply (paints_loop _ (fun j => box 0 (j * 8) (row * 16) (row * 16 + 16))
    (fun j => box (j * 8) (j * 8 + 8) (row * 16) (row * 16 + 16))); [lia|done| | |].
  { intros. unfold box. bool_lia. }
  { intros. unfold box. bool_lia. }
  intros col u Hcol Hu Eu.
  assert (wf u) by (rewrite Eu; apply wf_with_mem; rewrite Es; by apply wf_with_mem).
  assert (grid u = grid t /\ cols u = cols t /\ rows u = rows t) as (Eg & Ec & Er)
    by (rewrite Eu, Es; done).
  rewrite <- Eg, <- Ec. apply paints_draw_cell; [done|done|lia|lia].
Qed.

(** The cursor's block, when it shows. *)
Definition cursor_box (t : Terminal) (x y : Z) : bool :=
  cursorVisible t && cursorOn t &&
  box (curX t * 8) (curX t * 8 + 8) (curY t * 16) (curY t * 16 + 16) x y.

Definition white (x y : Z) : Z := 0xFFFFFF.

Lemma paints_cursor t : wf t -> canvas t ->
  ht (fun s => s = t) (draw_cursor (off, W * H * 4) (W * 4))
    (fun _ => paints white (cursor_box t) t).
Proof.
  intros Ht Hc. pose proof (wf_x _ Ht). pose proof (wf_y _ Ht). pose proof (wf_cols _ Ht).
  destruct (cv_range _ Hc) as (HW & HH & Ho). pose proof (cv_len _ Hc).
  apply ht_get. intros s ->. unfold cursor_box, Attached. rewrite (cv_width _ Hc).
  replace (W =? 0) with false by lia. rewrite andb_true_r.
  destruct (cursorVisible t && cursorOn t); [|apply ht_none; done].
  replace (_ && _ && _ && _) with true by lia. cbv zeta. unfold GlyphW, GlyphH.
  apply (paints_loop _ (fun j => box (curX t * 8) (curX t * 8 + 8) (curY t * 16) (curY t * 16 + j))
    (fun j => strip (curY t * 16 + j) (curX t * 8) (curX t * 8 + 8))); [lia|done| | |].
  { intros. unfold box. bool_lia. }
  { intros. unfold box, strip. bool_lia. }
  intros gy s Hg Hs _. apply ht_get. intros u ->. rewrite (cv_height _ Hs).
  destruct (H <=? curY t * 16 + gy) eqn:E.
  { apply ht_none; [done|]. intros. unfold strip. bool_lia. }
  assert (0 <= (curY t * 16 + gy) * W < W * H) by nia. rewrite i64_small by lia.
  replace (_ * (W * 4) + _) with (((curY t * 16 + gy) * W + curX t * 8) * 4) by lia.
  eapply ht_post; [|refine (paints_strip white _ (curX t * 8) (fun _ => 0xFFFFFF) 8 0 s Hs _ _ _ _); [lia..|done]].
  intros a u Hu. eapply paints_ext; [exact Hu|]. intros. unfold strip. bool_lia.
Qed.

Lemma Pixels_canvas t : canvas t -> Pixels (fb t) = Ok (off, W * H * 4).
Proof.
  intros [EW EH EO (HW & HH & Ho) [Hl Hb]]. unfold Pixels, Attached.
  rewrite EW, EH, EO. assert (0 <= W * H) by nia.
  replace (W =? 0) with false by lia. cbn [negb].
  rewrite (u64_small (W * 4)), (u64_small (W * 4 * H)), (u64_small (off + W * 4 * H)) by lia.
  rewrite !i64_small by lia.
  replace (zlen _ <? _) with false by lia. replace (_ && _) with true by lia. do 2 f_equal. lia.
Qed.

Definition screen_color (t : Terminal) (x y : Z) : Z :=
  if cursor_box t x y then 0xFFFFFF else grid_color (grid t) (cols t) x y.

Lemma draw_ok t : wf t -> canvas t ->
  exists s, draw t = (Ok tt, s) /\
    paints (screen_color t) (box 0 (cols t * 8) 0 (rows t * 16)) t s.
Proof.
  intros Ht Hc. cut (ht (fun s => s = t) draw (fun _ =>
    paints (screen_color t) (box 0 (cols t * 8) 0 (rows t * 16)) t)).
  { intros D. destruct (D t eq_refl) as ([] & s & ? & ?). eauto. }
  apply ht_get. intros s ->. rewrite (Pixels_canvas _ Hc), (cv_width _ Hc).
  eapply ht_step; [done|]. cbv zeta.
  eapply ht_bind; [by apply paints_grid|]. intros [] s Hs.
  pose proof (canvas_paints _ _ _ _ Hc Hs) as Hcs. pose proof (pa_term _ _ _ _ Hs) as Es.
  assert (Hws : wf s) by (rewrite Es; by apply wf_with_mem).
  destruct (paints_cursor s Hws Hcs s eq_refl) as (a & u & E & Hu). exists a, u. split; [done|].
  pose proof (wf_x _ Ht). pose proof (wf_y _ Ht).
  destruct Hs as [T1 L1 O1 P1], Hu as [T2 L2 O2 P2]. split.
  - rewrite T2, T1. done.
  - congruence.
  - intros lo hi Hl Hb. by rewrite O2, O1.
  - intros x y Hx Hy. rewrite P2, P1 by done. unfold screen_color.
    replace (cursor_box s) with (cursor_box t) by (by rewrite Es).
    destruct (cursor_box t x y) eqn:Eb; [|done].
    unfold cursor_box, box in *. rewrite !andb_true_iff in Eb.
    by replace (_ && _ && _ && _) with true by lia.
Qed.
End paint.
