(* ===== verification/TermServe.v ===== *)
(** * TermServe: the mailbox protocol and [Flush]

    [FBServer] is what the terminal relies on at the other end of the window:
    a posted flip or damage request is completed by one turn of the backend,
    which writes only the completion words.  The host backend [FakeFB] keeps
    it; [Flush] is proved against it. *)

From S2P Require Import Prelude Frame TermFb TermState Terminal TermFacts TermFlush TermPaint.

(** ** The contract *)

(** [idle d m]: no request is outstanding.  The third clause of [serves]: a
    byte outside the completion words 0x28..0x2f is not written. *)
Class FBServer (D : Type) `{Backend D} := {
  idle : D -> list byte -> Prop;
  idle_done d m : idle d m -> Get32 m 0x28 = Get32 m 0x24;
  idle_draw d m m' : zlen m' = zlen m -> slice m' 0 0x40 = slice m 0 0x40 -> idle d m -> idle d m';
  serves d w op a0 a1 a2 d' m' : idle d (mem w) -> 0x40 <= zlen (mem w) ->
    op = fbOpFlip \/ op = fbOpUpdateRect ->
    serve_turn d (mem (post op a0 a1 a2 w)) = (d', m') ->
    idle d' m' /\ zlen m' = zlen (mem w) /\ Get32 m' 0x28 = req (post op a0 a1 a2 w) /\
    (forall lo hi, 0 <= lo <= hi -> hi <= 0x28 \/ 0x30 <= lo ->
       slice m' lo hi = slice (mem (post op a0 a1 a2 w)) lo hi)
}.

(** ** Posting *)

Ltac wlen := rewrite ?zlen_Put32 by (rewrite ?zlen_Put32 by (rewrite ?zlen_Put32 by (rewrite ?zlen_Put32 by lia; lia); lia); lia); lia.

Section posted.
Variables (op a0 a1 a2 : Z) (w : FBWindow).
Abbreviation w' := (post op a0 a1 a2 w).

Lemma post_len : 0x40 <= zlen (mem w) -> zlen (mem w') = zlen (mem w).
Proof. intros Hl. unfold post. cbn [mem]. by rewrite !zlen_Put32 by wlen. Qed.

Lemma post_req : 0x40 <= zlen (mem w) -> req w' = u32 (Get32 (mem w) 0x24 + 1).
Proof. intros Hl. unfold post. cbn [req]. by rewrite !Get32_Put32_ne by wlen. Qed.

Lemma post_next : 0x40 <= zlen (mem w) -> Get32 (mem w') 0x24 = req w'.
Proof.
  intros Hl. unfold post. cbn [req mem]. rewrite Get32_Put32_eq by wlen.
  pose proof (u32_range (Get32 (Put32 (Put32 (Put32 (Put32 (mem w) 32 op) 48 a0) 52 a1) 56 a2) 36 + 1)).
  by apply u32_small.
Qed.

Lemma post_out lo hi : 0x40 <= zlen (mem w) -> 0 <= lo <= hi ->
  hi <= 0x20 \/ 0x28 <= lo /\ hi <= 0x30 \/ 0x3c <= lo ->
  slice (mem w') lo hi = slice (mem w) lo hi.
Proof. intros Hl Hlo Hout. unfold post. cbn [mem]. by rewrite !Put32_other by wlen. Qed.

Lemma post_op : 0x40 <= zlen (mem w) -> Get32 (mem w') 0x20 = u32 op.
Proof.
  intros Hl. unfold post. cbn [mem]. rewrite !Get32_Put32_ne by wlen. by apply Get32_Put32_eq; lia.
Qed.
End posted.

(** ** A request completes *)

(** How often the backend gets a turn. *)
Definition turns (s : list bool) : nat := length (List.filter (fun b => b) s).

(** The words a request and its completion write: 0x20..0x3b. *)
Definition outside (lo hi : Z) : Prop := 0 <= lo <= hi /\ (hi <= 0x20 \/ 0x3c <= lo).

Lemma u32_succ_ne n : 0 <= n < 2 ^ 32 -> u32 (n + 1) <> n.
Proof.
  intros Hn. unfold u32. destruct (decide (n = 2 ^ 32 - 1)) as [->|].
  - replace (2 ^ 32 - 1 + 1) with (2 ^ 32) by lia. rewrite Z.mod_same; lia.
  - rewrite Z.mod_small; lia.
Qed.

Section client.
Context {D : Type} {B : Backend D} {Srv : FBServer D}.

Lemma poll_ok s op a0 a1 a2 w d : idle d (mem w) -> 0x40 <= zlen (mem w) ->
  op = fbOpFlip \/ op = fbOpUpdateRect -> (0 < turns s)%nat ->
  exists st d' m' s', poll s (post op a0 a1 a2 w) d = (Ok st, mkLink (set_mem m' (post op a0 a1 a2 w)) d' s') /\
    serve_turn d (mem (post op a0 a1 a2 w)) = (d', m') /\ (turns s' + 1 = turns s)%nat.
Proof.
  intros Hi Hl Hop. induction s as [|b s IH]; intros Hs; [by apply Nat.lt_irrefl in Hs|]. cbn [poll]. destruct b.
  - destruct (serve_turn d _) as [d' m'] eqn:E.
    destruct (serves d w op a0 a1 a2 d' m' Hi Hl Hop E) as (_ & _ & Hd & _).
    rewrite Hd, Z.eqb_refl. exists (i32 (Get32 m' 44)), d', m', s. split; [done|].
    split; [done|]. unfold turns. cbn. lia.
  - set (w1 := post op a0 a1 a2 w) in *.
    replace (Get32 (mem w1) 40) with (Get32 (mem w) 0x24).
    2:{ rewrite <- (idle_done d _ Hi). symmetry. apply Get32_ext; [lia|lia|by apply post_len|].
        apply post_out; lia. }
    unfold w1 at 1. rewrite post_req by done.
    rewrite (proj2 (Z.eqb_neq _ _)) by (apply not_eq_sym, u32_succ_ne, Get32_range).
    replace (set_mem (mem w1) w1) with w1 by (by destruct w1).
    destruct IH as (st & d' & m' & s' & E & E2 & Hs'); [done|].
    exists st, d', m', s'. done.
Qed.

Lemma request_ok op a0 a1 a2 l : idle (dev l) (mem (win l)) -> 0x40 <= zlen (mem (win l)) ->
  op = fbOpFlip \/ op = fbOpUpdateRect -> (0 < turns (sched l))%nat ->
  exists st l', request op a0 a1 a2 l = (Ok st, l') /\
    idle (dev l') (mem (win l')) /\ zlen (mem (win l')) = zlen (mem (win l)) /\
    (turns (sched l') + 1 = turns (sched l))%nat /\
    (forall lo hi, outside lo hi -> slice (mem (win l')) lo hi = slice (mem (win l)) lo hi).
Proof.
  intros Hi Hl Hop Hs. unfold request.
  destruct (poll_ok (sched l) op a0 a1 a2 (win l) (dev l) Hi Hl Hop Hs)
    as (st & d' & m' & s' & E & E2 & Hs').
  destruct (serves _ _ _ _ _ _ _ _ Hi Hl Hop E2) as (Hi' & Hl' & _ & Hout).
  eexists st, _. split; [exact E|]. cbn. split; [done|]. split; [done|]. split; [done|].
  intros lo hi [Hlo Ho]. rewrite Hout by lia. apply post_out; lia.
Qed.

(** ** Flush *)

(** A window request keeps the picture. *)
Lemma canvas_outside W H off t v : canvas W H off t -> zlen (mem v) = zlen (mem (fb t)) ->
  (forall lo hi, outside lo hi -> slice (mem v) lo hi = slice (mem (fb t)) lo hi) ->
  canvas W H off (set_fb v t) /\
  (forall x y, 0 <= x < W -> 0 <= y < H -> px W off (set_fb v t) x y = px W off t x y).
Proof.
  intros [EW EH EO (HW & HH & Ho) [Hl Hb]] Hlen Hs. assert (0 <= W * H * 4) by nia.
  split; [split; cbn [fb set_fb]; [| | |done|lia]|].
  - rewrite <- EW. apply Get32_ext; [lia..|]. apply Hs. unfold outside. lia.
  - rewrite <- EH. apply Get32_ext; [lia..|]. apply Hs. unfold outside. lia.
  - rewrite <- EO. apply FBOffset_slice; [lia..|]. apply Hs. unfold outside. lia.
  - intros x y Hx Hy. apply Hs. unfold outside. nia.
Qed.

Lemma on_win_ok {A} (m : M (Link D) fault A) (s : Screen D) a l' :
  m (mkLink (fb (term s)) (sdev s) (ssched s)) = (Ok a, l') ->
  on_win m s = (Ok a, mkScreen (set_fb (win l') (term s)) (dev l') (sched l')).
Proof. intros E. unfold on_win. by rewrite E. Qed.

(** A step of [Flush] that asks the backend for something. *)
Lemma on_win_request W H off (m : M (Link D) fault Z) op a0 a1 a2 (s : Screen D) :
  (forall l, Attached (win l) = true -> m l = request op a0 a1 a2 l) ->
  op = fbOpFlip \/ op = fbOpUpdateRect -> canvas W H off (term s) ->
  idle (sdev s) (mem (fb (term s))) -> (0 < turns (ssched s))%nat ->
  exists st s', on_win m s = (Ok st, s') /\ canvas W H off (term s') /\
    term s' = set_fb (fb (term s')) (term s) /\
    idle (sdev s') (mem (fb (term s'))) /\ (turns (ssched s') + 1 = turns (ssched s))%nat /\
    (forall x y, 0 <= x < W -> 0 <= y < H -> px W off (term s') x y = px W off (term s) x y).
Proof.
  intros Hm Hop Hc Hi Hs. destruct (cv_range _ _ _ _ Hc) as (HW & HH & Ho).
  pose proof (cv_len _ _ _ _ Hc). assert (0 <= W * H * 4) by nia.
  destruct (request_ok op a0 a1 a2 (mkLink (fb (term s)) (sdev s) (ssched s)))
    as (st & l' & E & Hi' & Hl' & Hs' & Hout); cbn [dev win sched]; [done|lia|done|done|].
  exists st. eexists. split.
  { apply on_win_ok. rewrite Hm; [exact E|]. cbn [win]. unfold Attached.
    rewrite (cv_width _ _ _ _ Hc). by replace (W =? 0) with false by lia. }
  cbn [term sdev ssched dev win sched] in *.
  destruct (canvas_outside W H off (term s) (win l') Hc Hl' Hout) as [Hc' Hp]. done.
Qed.

Lemma Flush_ok W H off (s : Screen D) : wf (term s) -> canvas W H off (term s) ->
  dirty (term s) = true -> idle (sdev s) (mem (fb (term s))) -> (2 <= turns (ssched s))%nat ->
  exists s', Flush s = (Ok tt, s') /\
    term s' = set_dirty false (set_fb (fb (term s')) (term s)) /\
    canvas W H off (term s') /\ idle (sdev s') (mem (fb (term s'))) /\
    (forall x y, 0 <= x < W -> 0 <= y < H ->
       px W off (term s') x y =
         if box 0 (cols (term s) * GlyphW) 0 (rows (term s) * GlyphH) x y
         then pixel_bytes (screen_color (term s) x y) else px W off (term s) x y).
Proof.
  destruct s as [t d sc]. cbn [term sdev ssched]. intros Ht Hc Hd Hi Hs.
  destruct (draw_ok W H off t Ht Hc) as (t1 & E1 & P1).
  pose proof (canvas_paints _ _ _ _ _ _ _ Hc P1) as Hc1. pose proof (pa_term _ _ _ _ _ _ _ P1) as T1.
  destruct (cv_range _ _ _ _ Hc) as (HW & HH & Ho). pose proof (cv_len _ _ _ _ Hc).
  assert (0 <= W * H * 4) by nia.
  assert (Hi1 : idle d (mem (fb t1))).
  { eapply idle_draw; [apply (pa_len _ _ _ _ _ _ _ P1)| |exact Hi].
    apply (pa_out _ _ _ _ _ _ _ P1); lia. }
  unfold Flush. rewrite bind_getS. cbn [term]. rewrite Hd. unfold Attached at 1.
  rewrite (cv_width _ _ _ _ Hc). replace (W =? 0) with false by lia. cbn [negb orb].
  erewrite bind_ok by (unfold on_term; cbn [term]; rewrite E1; done). rewrite bind_getS. cbv zeta.
  set (ww := minU32 _ _). set (hh := minU32 _ _).
  destruct (on_win_request W H off (UpdateRect 0 0 ww hh) fbOpUpdateRect 0 0 ww (mkScreen t1 d sc))
    as (st & s2 & E2 & Hc2 & T2 & Hi2 & Hs2 & P2); [|by right|done..|cbn [ssched]; lia|].
  { intros l Hl. unfold UpdateRect. by rewrite bind_getS, Hl. }
  rewrite (bind_ok _ _ _ _ _ E2), bind_getS. cbn [term sdev ssched] in *.
  destruct (negb (Z.land (Caps (fb (term s2))) FBCapDoubleBuffer =? 0)).
  - destruct (on_win_request W H off Flip fbOpFlip 0 0 0 s2)
      as (st3 & s3 & E3 & Hc3 & T3 & Hi3 & Hs3 & P3); [|by left|done..|lia|].
    { intros l Hl. unfold Flip. by rewrite bind_getS, Hl. }
    assert (E3' : on_win (_ ← Flip; mret tt) s2 = (Ok tt, s3)).
    { revert E3. unfold on_win, mbind, M_bind. destruct (Flip _) as [[]?]; by intros [= -> <-]. }
    rewrite (bind_ok _ _ _ _ _ E3'). eexists. split; [done|]. cbn [term sdev].
    split; [by rewrite T3, T2, T1|]. split; [by destruct Hc3|]. split; [done|].
    intros x y Hx Hy. change (px W off (term s3) x y = if box 0 (cols t * 8) 0 (rows t * 16) x y
      then pixel_bytes (screen_color t x y) else px W off t x y).
    rewrite P3, P2 by done. by apply P1.
  - erewrite bind_ok by done. eexists. split; [done|]. cbn [term sdev].
    split; [by rewrite T2, T1|]. split; [by destruct Hc2|]. split; [done|].
    intros x y Hx Hy. change (px W off (term s2) x y = if box 0 (cols t * 8) 0 (rows t * 16) x y
      then pixel_bytes (screen_color t x y) else px W off t x y).
    rewrite P2 by done. by apply P1.
Qed.
End client.

(** ** The host backend keeps the contract *)

Lemma slice_sub {A} (m m' : list A) n lo hi : 0 <= lo <= hi -> hi <= n ->
  slice m' 0 n = slice m 0 n -> slice m' lo hi = slice m lo hi.
Proof.
  intros Hlo Hhi E. pose proof (slice_slice m' 0 n lo hi) as S1. pose proof (slice_slice m 0 n lo hi) as S2.
  rewrite !Z.add_0_l in S1, S2. rewrite <- S1, <- S2 by lia. by rewrite E.
Qed.

Definition fake_idle (ff : FakeFB) (m : list byte) : Prop :=
  0x40 <= zlen m /\ served ff = Get32 m 0x24 /\ Get32 m 0x28 = Get32 m 0x24.

(** A pending flip or damage request, served. *)
Lemma serve_pending ff m : 0x40 <= zlen m -> Get32 m 0x24 <> served ff ->
  Get32 m 0x20 = fbOpFlip \/ Get32 m 0x20 = fbOpUpdateRect ->
  exists ff', serve_turn ff m = (ff', Put32 (Put32 m 0x28 (Get32 m 0x24)) 0x2c 0) /\
    served ff' = Get32 m 0x24.
Proof.
  intros Hl Hne Hop. unfold serve_turn, serve. rewrite (proj2 (Z.eqb_neq _ _) Hne).
  destruct Hop as [-> | ->]; cbn; eauto.
Qed.

Lemma fake_draw ff m m' : zlen m' = zlen m -> slice m' 0 0x40 = slice m 0 0x40 ->
  fake_idle ff m -> fake_idle ff m'.
Proof.
  intros Hl E (Hm & Hs & Hd). unfold fake_idle.
  rewrite !(Get32_ext m' m) by (try apply (slice_sub _ _ 0x40); done || lia). by rewrite Hl.
Qed.

Lemma fake_serves d w op a0 a1 a2 d' m' : fake_idle d (mem w) -> 0x40 <= zlen (mem w) ->
  op = fbOpFlip \/ op = fbOpUpdateRect ->
  serve_turn d (mem (post op a0 a1 a2 w)) = (d', m') ->
  fake_idle d' m' /\ zlen m' = zlen (mem w) /\ Get32 m' 0x28 = req (post op a0 a1 a2 w) /\
  (forall lo hi, 0 <= lo <= hi -> hi <= 0x28 \/ 0x30 <= lo ->
     slice m' lo hi = slice (mem (post op a0 a1 a2 w)) lo hi).
Proof.
  intros (Hm & Hs & Hd) Hl Hop E.
  set (w1 := post op a0 a1 a2 w) in *.
  assert (Hl1 : zlen (mem w1) = zlen (mem w)) by by apply post_len.
  pose proof (post_next op a0 a1 a2 w Hl) as Hn. pose proof (post_req op a0 a1 a2 w Hl) as Hr.
  pose proof (post_op op a0 a1 a2 w Hl) as Ho. fold w1 in Hn, Hr, Ho. clearbody w1.
  destruct (serve_pending d (mem w1)) as (ff & E1 & Hff).
  { lia. }
  { rewrite Hn, Hr, Hs. apply u32_succ_ne, Get32_range. }
  { rewrite Ho. by destruct Hop as [-> | ->]; [left|right]. }
  rewrite E1 in E.
  assert (d' = ff /\ m' = Put32 (Put32 (mem w1) 0x28 (Get32 (mem w1) 0x24)) 0x2c 0) as [-> ->]
    by (split; [exact (eq_sym (f_equal fst E))|exact (eq_sym (f_equal snd E))]).
  rewrite Hn in *.
  assert (Hru : u32 (req w1) = req w1) by (rewrite Hr; apply u32_small, u32_range).
  unfold fake_idle. rewrite !zlen_Put32 by wlen.
  rewrite (Get32_Put32_ne _ 0x2c _ 0x28), Get32_Put32_eq by wlen.
  rewrite !(Get32_Put32_ne _ _ _ 0x24) by wlen. rewrite Hn, Hru, Hl1.
  split; [done|]. split; [done|]. split; [done|].
  intros lo hi Hlo Hout. by rewrite !Put32_other by wlen.
Qed.

#[export] Instance fake_server : FBServer FakeFB := {|
  idle := fake_idle;
  idle_done d m H := proj2 (proj2 H);
  idle_draw := fake_draw;
  serves := fake_serves
|}.

(** ** A window larger than its mapping *)

Definition panics {S E A} (m : M S E A) (s : S) : Prop := (m s).1 = Panic.

Lemma panics_bind {S E A B} (m : M S E A) (f : A -> M S E B) s : panics m s -> panics (m ≫= f) s.
Proof.
  unfold panics, mbind, M_bind. destruct (m s) as [[]?]; cbn; done.
Qed.

Lemma panics_range {S E} lo hi (body : Z -> M S E unit) s :
  lo < hi -> panics (body lo) s -> panics (for_range lo hi body) s.
Proof.
  intros Hlt Hb. unfold for_range. destruct (Z.to_nat (hi - lo)) eqn:E'; [lia|].
  cbn [for_from]. by apply panics_bind.
Qed.

(** The first pixel through a nil slice is out of range. *)
Lemma draw_nil t : wf t -> Attached (fb t) = true -> 0 < Height (fb t) ->
  Pixels (fb t) = Ok (0, 0) -> panics draw t.
Proof.
  intros Ht Ha Hh Hp. pose proof (wf_rows _ Ht). pose proof (wf_cols _ Ht).
  assert (Hw : 0 < Width (fb t)).
  { unfold Attached in Ha. pose proof (Get32_range (mem (fb t)) 4). unfold Width in *. lia. }
  unfold draw. unfold panics. rewrite bind_getS, Hp, bind_liftO. cbv zeta.
  apply panics_bind, panics_range; [lia|]. apply panics_range; [lia|].
  unfold draw_cell, panics. rewrite bind_getS.
  replace (0 * cols t + 0 <? 0) with false by lia.
  destruct (grid t !! Z.to_nat (0 * cols t + 0)) as [c|]; [|done].
  apply panics_range; [lia|]. apply panics_range; [lia|]. unfold panics. rewrite bind_getS.
  unfold GlyphH. replace (Height (fb t) <=? 0 * 16 + 0 * 2 + 0) with false by lia.
  unfold draw_line. cbn [for_break]. rewrite bind_getS.
  unfold GlyphW. replace (Width (fb t) <=? 0 * 8 + 0) with false by lia.
  apply panics_bind. unfold plot. apply panics_bind. unfold panics, pix_set. cbn [snd].
  by rewrite (proj2 (Z.ltb_ge _ 0)), andb_false_r.
Qed.
