(* ===== verification/TermTheorems.v ===== *)
(** * TermTheorems: the terminal's properties

    The theorems about the display terminal: its invariant over any text, the
    transcript it shows, the alternate screen, the picture [Flush] paints and
    what the code gets wrong. *)

From Stdlib Require Import Strings.Byte.
From S2P Require Import Prelude Frame TermFb TermState Terminal TermFlush TermFacts TermEscape TermText TermPaint TermServe.

(** A window of one cell, and one of four columns and two rows. *)
Definition tiny : FBWindow := mkFB (NewFake 8 16 0).2 0.
Definition small : FBWindow := mkFB (NewFake 32 32 0).2 0.

Lemma New_eta w : New w = (Ok tt, (New w).2).
Proof. destruct (New_ok w) as (t0 & E & _). by rewrite E. Qed.

Lemma small_size : cols (New small).2 = 4 /\ rows (New small).2 = 2.
Proof. vm_compute. done. Qed.



(** C19: the screen shows the end of the transcript.  Plain text (printable
    bytes and newlines) written to a new terminal is cut into lines at
    newlines and at the right margin; every cell of the grid then holds the
    character of the corresponding line, the last [rows] lines being shown
    from the top, in the default colours, and the cursor stands after the
    last character. *)
Theorem terminal_shows_transcript (w : FBWindow) (t0 : Terminal) (s : list byte) :
  New w = (Ok tt, t0) -> forallb is_text s = true ->
  exists t, WriteString s t0 = (Ok tt, t) /\
    let p := transcript (cols t0) s in
    let L := all_lines p in
    let top := first_line (rows t0) L in
    (forall x y, 0 <= x < cols t0 -> 0 <= y < rows t0 ->
       CellAt t x y = Some (mkCell (char_at L (top + y) x) 7 0)) /\
    (curX t, curY t) = (zlen p.2, zlen L - 1 - top).
Proof.
  intros HN Hs.
  destruct (shows_WriteString s _ _ (New_shows w t0 HN) Hs) as (t & E & [Hp Hx] & Hc & Hr).
  exists t. split; [done|]. cbv zeta. fold (transcript (cols t0) s) in *. rewrite <- Hr.
  split; [|by rewrite Hx, (pg_row _ _ Hp)].
  intros x y Hx' Hy'. rewrite <- Hc in Hx'. pose proof (pg_cells _ _ Hp x y Hx' Hy') as Hcell.
  unfold CellAt. by replace (y * cols t + x <? 0) with false by nia.
Qed.

Lemma terminal_shows_transcript_witness :
  exists t, WriteString (bs "one" ++ NL :: bs "twotwo") (New small).2 = (Ok tt, t) /\
    CellAt t 0 0 = Some (mkCell 116 7 0) /\ (curX t, curY t) = (2, 1).
Proof.
  destruct (terminal_shows_transcript small (New small).2 (bs "one" ++ NL :: bs "twotwo"))
    as (t & E & Hc & Hx); [apply New_eta|reflexivity|].
  cbv zeta in Hc, Hx. destruct small_size as [Ec Er]. rewrite Ec, Er in Hc, Hx.
  exists t. split; [exact E|]. split; [|exact Hx].
  exact (Hc 0 0 (conj (Z.le_refl 0) eq_refl) (conj (Z.le_refl 0) eq_refl)).
Defined.

(** the alternate screen gives the screen back.  Entering the alternate
    screen (CSI ?1049h), writing any bytes that do not leave it, and leaving
    it (CSI ?1049l) restores the grid and the cursor exactly, whatever was
    drawn, scrolled or erased in between. *)
Theorem alt_screen_roundtrip (t : Terminal) (s : list byte) :
  wf t -> ground t -> altScreen t = false ->
  exists t1, WriteString enter_alt t = (Ok tt, t1) /\
    (regions_fit s t1 -> stays_alt s t1 ->
     exists t2, WriteString s t1 = (Ok tt, t2) /\
       (ground t2 ->
        exists t3, WriteString leave_alt t2 = (Ok tt, t3) /\ wf t3 /\ altScreen t3 = false /\
          grid t3 = grid t /\ curX t3 = curX t /\ curY t3 = curY t)).
Proof.
  intros Ht Hg Ha. destruct (enter_alt_ok t Ht Hg Ha) as (t1 & E1 & H1 & _ & S1 & _).
  exists t1. split; [done|]. intros Hf Hs.
  destruct (WriteString_ok s t1 H1 Hf) as (t2 & E2 & H2). exists t2. split; [done|]. intros Hg2.
  pose proof (WriteString_saved s t1 t2 Hs E2) as S2. rewrite S1 in S2. injection S2 as A2 G2 X2 Y2.
  destruct (leave_alt_ok t2 H2 Hg2 A2) as (t3 & E3 & H3 & A3 & G3 & X3 & Y3).
  exists t3. rewrite G3, X3, Y3. done.
Qed.

Lemma alt_screen_roundtrip_witness :
  exists t1, WriteString enter_alt (New small).2 = (Ok tt, t1) /\
    (regions_fit (bs "x") t1 -> stays_alt (bs "x") t1 ->
     exists t2, WriteString (bs "x") t1 = (Ok tt, t2) /\
       (ground t2 ->
        exists t3, WriteString leave_alt t2 = (Ok tt, t3) /\ wf t3 /\ altScreen t3 = false /\
          grid t3 = grid (New small).2 /\ curX t3 = curX (New small).2 /\
          curY t3 = curY (New small).2)).
Proof.
  apply (alt_screen_roundtrip (New small).2 (bs "x")).
  - destruct (New_ok small) as (t0 & E & H & _). rewrite E. exact H.
  - split; [reflexivity|split; reflexivity].
  - reflexivity.
Defined.

(** a scrolling region below the screen crashes the terminal.  The code
    does not bound the region of CSI r by the rows it has.  After a region
    that ends beyond the screen, newlines move the cursor past the last row
    instead of scrolling, and the next printable byte indexes outside the
    grid: these few bytes panic any terminal, of any size, in any state
    reachable between sequences. *)
Theorem deep_region_panics (t : Terminal) (c : byte) :
  wf t -> ground t -> 32 <= b2z c -> b2z c <> 127 ->
  (WriteString (deep_region ++ replicate (Z.to_nat (rows t)) NL ++ [c]) t).1 = Panic.
Proof.
  intros Ht Hg Hc1 Hc2. pose proof (wf_rows _ Ht). pose proof (wf_cols _ Ht). pose proof (wf_y _ Ht).
  destruct (deep_region_lost t Ht Hg) as (t1 & E1 & L1). rewrite (WriteString_app _ _ _ _ E1).
  destruct (lost_newlines (Z.to_nat (rows t)) (cols t) (rows t) (curY t) t1 [c] L1)
    as (t2 & E2 & L2 & X2); [lia..|].
  rewrite E2, WriteString_one. eapply lost_write; [exact L2|done|lia..].
Qed.

Lemma deep_region_panics_witness :
  (WriteString (deep_region ++ replicate (Z.to_nat (rows (New small).2)) NL ++ ["x"%byte])
     (New small).2).1 = Panic.
Proof.
  apply deep_region_panics.
  - destruct (New_ok small) as (t0 & E & H & _). rewrite E. exact H.
  - split; [reflexivity|split; reflexivity].
  - vm_compute. discriminate.
  - vm_compute. discriminate.
Defined.

(** C20: [Flush] paints the picture.  On a window whose pixel area lies behind
    the header and inside the mapping, a dirty terminal's [Flush] returns as
    soon as the backend has had its turns (at most two), clears the dirty
    flag, changes nothing else of the terminal, and leaves at every pixel
    covered by the grid the colour of its cell's glyph there (white under a
    shown cursor); every other pixel keeps its value. *)
Theorem flush_paints_screen {D : Type} {B : Backend D} {Srv : FBServer D} (W H off : Z) (s : Screen D) :
  wf (term s) -> canvas W H off (term s) -> dirty (term s) = true ->
  idle (sdev s) (mem (fb (term s))) -> (2 <= turns (ssched s))%nat ->
  exists s', Flush s = (Ok tt, s') /\
    term s' = set_dirty false (set_fb (fb (term s')) (term s)) /\
    idle (sdev s') (mem (fb (term s'))) /\
    (forall x y, 0 <= x < W -> 0 <= y < H ->
       px W off (term s') x y =
         if box 0 (cols (term s) * GlyphW) 0 (rows (term s) * GlyphH) x y
         then pixel_bytes (screen_color (term s) x y) else px W off (term s) x y).
Proof.
  intros Ht Hc Hd Hi Hs. destruct (Flush_ok W H off s Ht Hc Hd Hi Hs) as (s' & E & T & _ & I & P).
  exists s'. done.
Qed.

Definition tiny_screen : Screen FakeFB :=
  mkScreen (New tiny).2 (NewFake 8 16 0).1 [false; true; true].

Lemma flush_paints_screen_witness :
  exists s', Flush tiny_screen = (Ok tt, s') /\
    px 8 64 (term s') 0 0 = [Byte.xff; Byte.xff; Byte.xff; Byte.x00].
Proof.
  destruct (flush_paints_screen 8 16 64 tiny_screen) as (s' & E & _ & _ & P).
  - destruct (New_ok tiny) as (t0 & E & H & _). unfold tiny_screen. cbn [term]. rewrite E. exact H.
  - split; [reflexivity|reflexivity|reflexivity|lia|].
    replace (zlen (mem (fb (term tiny_screen)))) with 640 by reflexivity. lia.
  - reflexivity.
  - split; [|split]; [|reflexivity|reflexivity].
    replace (zlen (mem (fb (term tiny_screen)))) with 640 by reflexivity. lia.
  - cbn. lia.
  - exists s'. split; [exact E|]. rewrite (P 0 0) by lia. reflexivity.
Defined.

(** a display larger than the mapping crashes the first [Flush].
    [attachFB] maps FBWindowMin bytes, one 80x25 screen; for a window with
    more pixels [Pixels] returns nil and [Flush], which does not look, writes
    through it: a new terminal on such a window panics on its first flush. *)
Theorem oversized_window_panics {D : Type} {B : Backend D} (w : FBWindow) (d : D) (turns : list bool) :
  zlen (mem w) = FBWindowMin -> FBOffset w = fbPixBase ->
  DefaultCols * GlyphW * (DefaultRows * GlyphH) < Width w * Height w < 2 ^ 60 ->
  (Flush (mkScreen (New w).2 d turns)).1 = Panic.
Proof.
  intros Hm Ho Hs. destruct (New_ok w) as (t & E & Ht & Hw & Hx). rewrite E. cbn [snd].
  assert (Hd : dirty t = true) by apply Hx. clear Hx E.
  pose proof (Get32_range (mem w) 4) as HW. pose proof (Get32_range (mem w) 8) as HH.
  fold (Width w) in HW. fold (Height w) in HH.
  unfold DefaultCols, DefaultRows, GlyphW, GlyphH in Hs.
  assert (0 < Width w) by nia. assert (0 < Height w) by nia.
  assert (Ha : Attached (fb t) = true).
  { rewrite Hw. unfold Attached. by replace (Width w =? 0) with false by lia. }
  assert (Hp : Pixels (fb t) = Ok (0, 0)).
  { unfold Pixels. rewrite Ha, Hw, Ho, Hm. cbn [negb].
    rewrite (u64_small (Width w * 4)), (u64_small (Width w * 4 * Height w)) by lia.
    unfold fbPixBase. rewrite u64_small, i64_small by lia.
    replace (FBWindowMin <? _) with true; [done|]. unfold FBWindowMin, DefaultCols, DefaultRows, GlyphW, GlyphH. lia. }
  assert (Hdraw : panics (on_term (D := D) draw) (mkScreen t d turns)).
  { pose proof (draw_nil t Ht Ha ltac:(rewrite Hw; lia) Hp) as Hn. unfold panics, on_term in *.
    cbn [term]. destruct (draw t) as [[]?]; done. }
  unfold Flush. rewrite bind_getS. cbn [term]. rewrite Hd, Ha. cbn [negb orb]. cbv zeta.
  by apply panics_bind.
Qed.

(** A 1024x768 window header, mapped as [attachFB] maps it. *)
Definition with_header (m : list byte) : list byte :=
  Put64 (Put32 (Put32 m 4 1024) 8 768) 16 fbPixBase.

Lemma with_header_fields m w : FBWindowMin <= zlen m -> mem w = with_header m ->
  zlen (mem w) = zlen m /\ FBOffset w = fbPixBase /\ Width w = 1024 /\ Height w = 768.
Proof.
  intros Hm. unfold FBOffset, Width, Height. intros ->. unfold with_header.
  assert (64 <= zlen m) by (revert Hm; unfold FBWindowMin, DefaultCols, DefaultRows, GlyphW, GlyphH; lia).
  clear Hm. rewrite Put64_split.
  assert (L1 : zlen (Put32 m 4 1024) = zlen m) by (apply zlen_Put32; lia).
  assert (L2 : zlen (Put32 (Put32 m 4 1024) 8 768) = zlen m) by (rewrite zlen_Put32; lia).
  assert (L3 : zlen (splice (Put32 (Put32 m 4 1024) 8 768) 16 (le_split 8 fbPixBase)) = zlen m)
    by (rewrite zlen_splice; lia).
  rewrite Get64_combine by lia.
  change (16 + 8) with (16 + zlen (le_split 8 fbPixBase)).
  rewrite slice_splice_same by (rewrite ?zlen_le_split; lia).
  split; [done|]. split; [reflexivity|].
  rewrite (Get32_ext _ (Put32 m 4 1024) 4), (Get32_ext _ (Put32 (Put32 m 4 1024) 8 768) 8) by
    (try lia; rewrite slice_splice_before by lia; done || (apply Put32_other; lia)).
  by rewrite !Get32_Put32_eq by lia.
Qed.

Definition xga : FBWindow := mkFB (with_header (mkbuf FBWindowMin)) 0.

Lemma oversized_window_panics_witness :
  (Flush (mkScreen (New xga).2 (NewFake 8 16 0).1 [])).1 = Panic.
Proof.
  assert (L : zlen (mkbuf FBWindowMin) = FBWindowMin) by (apply zlen_mkbuf; discriminate).
  destruct (with_header_fields (mkbuf FBWindowMin) xga) as (L' & O & EW & EH).
  - rewrite L. apply Z.le_refl.
  - exact eq_refl.
  - apply (oversized_window_panics xga).
    + rewrite L'. exact L.
    + exact O.
    + rewrite EW, EH. split; reflexivity.
Defined.

(** presses and releases look the same.  In the non-SGR mouse modes the
    encoder adds 32 to the button before testing whether it is 3 or more, so
    a press of any button is encoded as its release: the two reports are the
    same bytes, for every position, button and modifier. *)
Theorem mouse_press_reads_as_release (t : Terminal) (x y button modifiers : Z) :
  wf t -> mouseMode t = 1000 \/ mouseMode t = 1002 -> 0 <= button <= 5 ->
  EncodeMouseEvent t x y 0 button modifiers = EncodeMouseEvent t x y 1 button modifiers /\
  EncodeMouseEvent t x y 0 button modifiers <> None.
Proof.
  intros Ht Hm Hb. unfold EncodeMouseEvent.
  replace (mouseMode t =? 0) with false by lia. replace (mouseMode t =? 1006) with false by lia.
  cbn [Z.eqb Pos.eqb andb orb]. rewrite !(i64_small (button + 32)) by lia.
  replace (3 <=? button + 32) with true by lia. split; [reflexivity|discriminate].
Qed.

Lemma mouse_press_reads_as_release_witness :
  EncodeMouseEvent (set_mouseMode 1000 (New small).2) 1 1 0 0 0 =
  EncodeMouseEvent (set_mouseMode 1000 (New small).2) 1 1 1 0 0 /\
  EncodeMouseEvent (set_mouseMode 1000 (New small).2) 1 1 0 0 0 <> None.
Proof.
  apply mouse_press_reads_as_release; [|left; reflexivity|lia].
  apply wf_mouse_to; [|set_solver]. destruct (New_ok small) as (t0 & E & H & _). rewrite E. exact H.
Defined.
