(* ===== verification/Guest.v ===== *)
(** * Guest: the client half of the guest library

    Models [guests/lib/kern.go] and the request/response machinery of
    [guests/lib/frame.go].  The Go interface [Kernel] is a class over the
    state of the machine below the guest, so the same code runs over the
    kernel of [KernCalls], over a kernel with a service behind a port, or over
    any other machine that answers the calls.  Operations are computations of
    the state-and-outcome monad; a Go error is [Err].

    [NewInboxClient] is a loop without a bound in Go.  It takes fuel here, and
    running out of it is [Panic]: the loop has not ended and has no result. *)

From S2P Require Import Prelude Frame FsServer.

(** ** Errors and constants *)

Inductive gerr :=
  | ErrNoReply | ErrShort | ErrBadHandle | ErrRejected | ErrSpawnDenied
  | ErrFSIO | ErrFSNoEntry | ErrFSExists | ErrFSNotDir | ErrFSIsDir | ErrFSNoSpace | ErrFSBadName
  | ErrFSNotEmpty | ErrFSRange | ErrFSAccess
  (** [errors.New(msg)] of a service. *)
  | ErrNew (msg : list byte).

(** [err.Error()] *)
Definition err_text (e : gerr) : list byte :=
  match e with
  | ErrNoReply => bs "kern: no reply within budget"
  | ErrShort => bs "kern: short reply"
  | ErrBadHandle => bs "kern: invalid port handle"
  | ErrRejected => bs "kern: request rejected"
  | ErrSpawnDenied => bs "kern: spawn denied or failed"
  | ErrFSIO => bs "fs: io error"
  | ErrFSNoEntry => bs "fs: no such file or directory"
  | ErrFSExists => bs "fs: already exists"
  | ErrFSNotDir => bs "fs: parent is not a directory"
  | ErrFSIsDir => bs "fs: is a directory"
  | ErrFSNoSpace => bs "fs: no space"
  | ErrFSBadName => bs "fs: bad name"
  | ErrFSNotEmpty => bs "fs: directory not empty"
  | ErrFSRange => bs "fs: offset out of range"
  | ErrFSAccess => bs "fs: permission denied"
  | ErrNew msg => msg
  end.

#[export] Instance gerr_eq_dec : EqDecision gerr.
Proof. solve_decision. Defined.

Definition MaxName : Z := 15.
Definition StatusErr : Z := -1.
Definition InvalidHandle : Z := -1.

Definition NameConsole : list byte := bs "console".
Definition NameFS : list byte := bs "fs".
Definition NameLogin : list byte := bs "login".
Definition NameShell : list byte := bs "shell".
Definition NameRegistry : list byte := bs "registry".
Definition NameDevman : list byte := bs "devman".
Definition NamePower : list byte := bs "power".

Definition CapPortBind : Z := Z.shiftl 1 12.
(** Bits 0 to 12. *)
Definition CapAll : Z := Z.ones 13.

(** ** The calls a guest makes *)

Class Kernel (S : Type) := {
  k_PortCreate : list byte -> S -> Z * S;
  k_PortBind : list byte -> S -> Z * S;
  k_PortSend : Z -> list byte -> S -> Z * S;
  k_PortRecv : Z -> Z -> S -> (Z * list byte) * S;
  k_FocusSet : Z -> S -> unit * S;
  k_Yield : S -> unit * S;
  (** [time.Now().UnixNano()] *)
  k_UnixNano : S -> Z * S;
}.

(** A call of the kernel has a result, never a Go error. *)
Definition sys {S A} (f : S -> A * S) : M S gerr A := fun s => let '(a, s') := f s in (Ok a, s').

Lemma bind_sys {S A B} (f : S -> A * S) (g : A -> M S gerr B) s : (sys f ≫= g) s = g (f s).1 (f s).2.
Proof. unfold sys, mbind, M_bind. by destruct (f s). Qed.

(** A computation over the machine, inside the state of a client or service. *)
Definition onW {T W A} (m : M W gerr A) : M (T * W) gerr A := fun t => let '(r, w) := m t.2 in (r, (t.1, w)).

(** A computation of a service from its state [s]: the state it ends in. *)
Definition run_from {T W} (s : T) (m : M (T * W) gerr unit) : M W gerr T := fun w =>
  let '(o, (s', w')) := m (s, w) in
  match o with
  | Ok _ => (Ok s', w')
  | Err e => (Err e, w')
  | Panic => (Panic, w')
  end.

(** [uitoa]: decimal digits, the last one first. *)
Fixpoint uitoa_loop (fuel : nat) (v : Z) (acc : list byte) : list byte :=
  match fuel with
  | O => acc
  | S f => if v =? 0 then acc else uitoa_loop f (v / 10) (z2b (48 + v mod 10) :: acc)
  end.
Definition uitoa (v : Z) : list byte := if v =? 0 then bs "0" else uitoa_loop 20 v [].

(** ** The client *)

Definition DefaultRecvBudget : Z := 200000.

Record Client := mkClient { inboxName : list byte; inbox : Z; seq : Z; Budget : Z }.

Definition NewDirectClient (h : Z) : Client := mkClient [] h 0 0.

Definition setBudget (n : Z) (c : Client) : Client := mkClient (inboxName c) (inbox c) (seq c) n.
Definition budget (c : Client) : Z := if 0 <? Budget c then Budget c else DefaultRecvBudget.

Definition FrameRequest (op seq : Z) (payload : list byte) : list byte := FrameCanonical op seq [] payload.

Section Calls.
Context {W : Type} `{Kernel W}.

(** The salted name [NewInboxClient] tries next. *)
Definition salted (base : list byte) (now : Z) : list byte :=
  take (Z.to_nat MaxName) (base ++ bs "." ++ uitoa (Z.land now 0xFFFF)).

Fixpoint inbox_loop (fuel : nat) (base name : list byte) : M W gerr Client :=
  match fuel with
  | O => panic
  | S f =>
      h ← (if zlen name <=? MaxName then sys (k_PortCreate name) else mret InvalidHandle);
      if negb (h =? InvalidHandle) then mret (mkClient name h 0 0)
      else
        now ← sys k_UnixNano;
        let cand := salted base now in
        if bool_decide (cand = name) then throw ErrRejected else inbox_loop f base cand
  end.
Definition NewInboxClient (fuel : nat) (base : list byte) : M W gerr Client := inbox_loop fuel base base.

(** The reply loop of [Call] and [recvMatch]: at most [n] polls of [h] for a
    datagram with sequence number [want]. *)
Fixpoint recv_loop (n : nat) (h want : Z) : M W gerr (list byte) :=
  match n with
  | O => throw ErrNoReply
  | S n' =>
      r ← sys (k_PortRecv h MaxMsg);
      let '(len, buf) := r in
      if 0 <? len then
        if len <? CanonicalHeaderLen then throw ErrShort
        else if Get16 buf 2 =? want then mret buf
        else recv_loop n' h want
      else if len <? 0 then throw ErrBadHandle
      else
        _ ← sys k_Yield;
        recv_loop n' h want
  end.

Definition Call (c : Client) (h : Z) (req : list byte) : M W gerr (list byte) :=
  rc ← sys (k_PortSend h req);
  if rc =? StatusErr then throw ErrBadHandle
  else recv_loop (Z.to_nat (budget c)) h (Get16 req 2).

Definition recvMatch (c : Client) : M W gerr (list byte) :=
  recv_loop (Z.to_nat (budget c)) (inbox c) (seq c).

(** The operations below run over a client and the machine. *)
Definition nextSeq : M (Client * W) gerr Client := fun t =>
  let c := mkClient (inboxName t.1) (inbox t.1) (u16 (seq t.1 + 1)) (Budget t.1) in (Ok c, (c, t.2)).

Definition Request (h op : Z) (payload : list byte) : M (Client * W) gerr (list byte) :=
  c ← nextSeq;
  onW (Call c h (FrameRequest op (seq c) payload)).

Definition InboxRequest (h op : Z) (payload : list byte) : M (Client * W) gerr (list byte) :=
  c ← nextSeq;
  onW (rc ← sys (k_PortSend h (FrameCanonical op (seq c) (inboxName c) payload));
       if rc =? StatusErr then throw ErrBadHandle else recvMatch c).
End Calls.

(** ** The server's side: reply ports bound once *)

Definition ReplyBook : Type := gmap (list byte) Z.

Definition book_Bind {W} `{Kernel W} (rb : ReplyBook) (name : list byte) : M W gerr (Z * ReplyBook) :=
  match rb !! name with
  | Some h => mret (h, rb)
  | None =>
      h ← sys (k_PortBind name);
      if h =? InvalidHandle then throw ErrBadHandle else mret (h, <[name:=h]> rb)
  end.
