(* ===== verification/FsClient.v ===== *)
(** * FsClient: the file-service client ([guests/lib/fsclient.go])

    The calls a guest makes to the "fs" port: each one frames a request,
    sends it on the service's handle and waits on the client's own reply port.
    Reads and writes are cut into chunks of 2,048 bytes.  The state is the
    client and the machine below it.

    [ReadFile] and [WriteFile] return a count beside their error in Go; here
    the bytes read, or the count, beside [Some] error. *)

From S2P Require Import Prelude Frame FsServer Guest.

Definition maxReadChunk : Z := MaxMsg - 4096 / 2.
Definition BindWaitBudget : nat := 200.

(** [make([]T, 0, n)] for elements of [size] bytes: more than the 4 GiB a
    32-bit WebAssembly heap can address panics.  A smaller block the heap
    cannot hold ends the guest, which is not modelled. *)
Definition go_make {S E} (size n : Z) : M S E unit := if 2 ^ 32 <? size * n then panic else mret tt.

Definition FSErr (status : Z) : option gerr :=
  if status =? FSOK then None
  else if status =? FSNoEntry then Some ErrFSNoEntry
  else if status =? FSExists then Some ErrFSExists
  else if status =? FSNotDir then Some ErrFSNotDir
  else if status =? FSIsDir then Some ErrFSIsDir
  else if status =? FSNoSpace then Some ErrFSNoSpace
  else if status =? FSBadName then Some ErrFSBadName
  else if status =? FSNotEmpty then Some ErrFSNotEmpty
  else if status =? FSRange then Some ErrFSRange
  else if status =? FSAccess then Some ErrFSAccess
  else Some ErrFSIO.

(** [return FSErr(st)] and [return ..., FSErr(st)]. *)
Definition check_status {S} (st : Z) : M S gerr unit :=
  match FSErr st with None => mret tt | Some e => throw e end.

Record FileInfo := mkFileInfo { fi_Name : list byte; fi_Size : Z; fi_Attr : Z; fi_Cluster : Z }.

Definition pathPayload (path : list byte) : list byte := AppendLStr [] path.

Definition splitReply (rep : list byte) : outcome gerr (Z * list byte) :=
  if zlen rep <? 28 then Err ErrShort else Ok (i32 (Get32 rep 24), drop 28 rep).

(** {u64 off, u16 cnt} *)
Definition range_tail (off cnt : Z) : list byte := Put16 (Put64 (mkbuf 10) 0 (u64 off)) 8 (u16 cnt).

Section FSClient.
Context {W : Type} `{Kernel W}.

Fixpoint bind_wait (n : nat) (h : Z) : M W gerr Z :=
  match n with
  | O => mret h
  | S n' =>
      if h =? InvalidHandle then
        _ ← sys k_Yield;
        h' ← sys (k_PortBind NameFS);
        bind_wait n' h'
      else mret h
  end.

(** The fields of [FSClient]: the client and the handle of the service. *)
Definition BindFS (fuel : nat) (roleTag : list byte) : M W gerr (Client * Z) :=
  h0 ← sys (k_PortBind NameFS);
  h ← bind_wait BindWaitBudget h0;
  if h =? InvalidHandle then throw ErrBadHandle
  else
    c ← NewInboxClient fuel roleTag;
    mret (c, h).

(** One request and the split of its reply. *)
Definition ask (h op : Z) (payload : list byte) : M (Client * W) gerr (Z * list byte) :=
  rep ← InboxRequest h op payload;
  liftO (splitReply rep).

Definition Stat (h : Z) (path : list byte) : M (Client * W) gerr FileInfo :=
  r ← ask h OpFSStat (pathPayload path);
  let '(st, rest) := r in
  _ ← check_status st;
  if zlen rest <? 9 then throw ErrShort
  else mret (mkFileInfo [] (Get32 rest 0) (b2z (idx rest 4)) (Get32 rest 5)).

Fixpoint list_recs (n : nat) (rest : list byte) (off : Z) : list FileInfo :=
  match n with
  | O => []
  | S n' =>
      match LStr rest off with
      | None => []
      | Some (name, next) =>
          if zlen rest <? next + 5 then []
          else mkFileInfo name (Get32 rest (next + 1)) (b2z (idx rest next)) 0 :: list_recs n' rest (next + 5)
      end
  end.

Definition List (h : Z) (path : list byte) : M (Client * W) gerr (list FileInfo) :=
  r ← ask h OpFSList (pathPayload path);
  let '(st, rest) := r in
  _ ← check_status st;
  if zlen rest <? 4 then throw ErrShort
  else
    let n := Get32 rest 0 in
    _ ← go_make 32 n;
    mret (list_recs (Z.to_nat n) rest 4).

(** [ReadFile(path, off, buf)] for a buffer of [len] bytes: the bytes copied
    into it.  Every round but the last adds at least one byte. *)
Fixpoint read_loop (fuel : nat) (h : Z) (path : list byte) (off len : Z) (acc : list byte)
  : M (Client * W) gerr (list byte * option gerr) :=
  match fuel with
  | O => mret (acc, None)
  | S f =>
      let total := zlen acc in
      if total <? len then
        let cnt := Z.min (len - total) maxReadChunk in
        r ← attempt (ask h OpFSRead (AppendLStr [] path ++ range_tail (off + total) cnt));
        match r with
        | inl e => mret (acc, Some e)
        | inr (st, rest) =>
            if negb (st =? FSOK) then mret (if 0 <? total then (acc, None) else ([], FSErr st))
            else if zlen rest <? 2 then mret (acc, Some ErrShort)
            else
              let got := Get16 rest 0 in
              if got =? 0 then mret (acc, None)
              else if zlen rest <? 2 + got then panic
              else
                let n := Z.min (len - total) got in
                let acc' := acc ++ slice rest 2 (2 + n) in
                if n <? got then mret (acc', None)
                else if got <? cnt then mret (acc', None)
                else read_loop f h path off len acc'
        end
      else mret (acc, None)
  end.
Definition ReadFile (h : Z) (path : list byte) (off len : Z) : M (Client * W) gerr (list byte * option gerr) :=
  read_loop (S (Z.to_nat len)) h path off len [].

(** The loop runs once for empty data, and otherwise until all is written. *)
Fixpoint write_loop (fuel : nat) (h : Z) (path : list byte) (off : Z) (data : list byte) (written : Z)
  : M (Client * W) gerr (Z * option gerr) :=
  match fuel with
  | O => mret (written, None)
  | S f =>
      if (written <? zlen data) || (zlen data =? 0) && (written =? 0) then
        let cnt := Z.min (zlen data - written) maxReadChunk in
        r ← attempt (ask h OpFSWrite
              (AppendLStr [] path ++ range_tail (off + written) cnt ++ slice data written (written + cnt)));
        match r with
        | inl e => mret (written, Some e)
        | inr (st, _) =>
            if negb (st =? FSOK) then mret (written, FSErr st)
            else if zlen data =? 0 then mret (written + cnt, None)
            else write_loop f h path off data (written + cnt)
        end
      else mret (written, None)
  end.
Definition WriteFile (h : Z) (path : list byte) (off : Z) (data : list byte)
  : M (Client * W) gerr (Z * option gerr) :=
  write_loop (S (length data)) h path off data 0.

Definition simple (h op : Z) (path : list byte) : M (Client * W) gerr unit :=
  r ← ask h op (pathPayload path);
  check_status r.1.
Definition Create (h : Z) (path : list byte) : M (Client * W) gerr unit := simple h OpFSCreate path.
Definition Mkdir (h : Z) (path : list byte) : M (Client * W) gerr unit := simple h OpFSMkdir path.
Definition Delete (h : Z) (path : list byte) : M (Client * W) gerr unit := simple h OpFSDelete path.

(** {u32 uid, u16 len, name, u64 capmask} *)
Definition register_payload (uid : Z) (name : list byte) (capmask : Z) : list byte :=
  AppendLStr (Put32 (mkbuf 4) 0 uid) name ++ Put64 (mkbuf 8) 0 capmask.

Definition Register (h uid : Z) (name : list byte) (capmask : Z) : M (Client * W) gerr unit :=
  r ← ask h OpFSRegister (register_payload uid name capmask);
  check_status r.1.
End FSClient.
