(* ===== verification/FsLink.v ===== *)
(** * FsLink: the file client over a link to a file server

    What the client of [FsClient] promises its callers, whatever carries its
    requests.  The class [FsLink] is the contract of the carrier: a request
    reaches the server under the uid of the client's session, the server
    dispatches it once, and the reply comes back through the client's reply
    port.  The class [FileStore] is the contract of the store behind the
    server, for one file: what was written is read.  Both have instances: the
    kernel with the file service in another session ([FsBox]), and the KFS
    volume ([KFS_FileStore]). *)

From S2P Require Import Prelude Frame BlockDev KfsFormat Paths KfsFs KfsMount KfsData KfsTree KfsOps KfsTheorems FsServer FsPolicy KernCalls Guest FsClient.

(** ** Requests and replies on the wire *)

Lemma FrameCanonical_eq op seq rname payload :
  FrameCanonical op seq rname payload = (le_split 2 op ++ le_split 2 seq) ++ mkbuf 4 ++ padName rname ++ payload.
Proof.
  unfold FrameCanonical, CanonicalHeaderLen. cbv zeta. rewrite !Put16_split, (mkbuf_app0 24).
  rewrite (splice_frontier [] (le_split 2 op)) by len_solve. rewrite app_nil_l.
  rewrite (splice_frontier (le_split 2 op) (le_split 2 seq)) by len_solve. rewrite !zlen_le_split.
  change (mkbuf (24 - Z.of_nat 2 - Z.of_nat 2)) with (mkbuf 4 ++ mkbuf 16).
  rewrite (app_assoc (le_split 2 op)), (app_assoc _ (mkbuf 4)), (splice_frontier _ (padName rname)) by len_solve.
  rewrite zlen_padName, (mkbuf_0 (16 - 16)), app_nil_r by lia. by rewrite <-!app_assoc.
Qed.

Lemma stamp_eq uid (a b c : list byte) : zlen a = 4 -> zlen b = 4 -> stamp uid (a ++ b ++ c) = a ++ le_split 4 uid ++ c.
Proof.
  intros Ha Hb. pose proof (zlen_nonneg c). unfold stamp. rewrite !zlen_app, (proj2 (Z.leb_le _ _)) by lia.
  unfold zlen, splice in *. rewrite take_app_length' by lia. f_equal. rewrite length_le_split, take_ge.
  - f_equal. rewrite app_assoc. apply drop_app_length'. rewrite length_app. lia.
  - rewrite !length_app, length_le_split. lia.
Qed.

Lemma stamped_frame uid op seq rname payload :
  stamp uid (FrameCanonical op seq rname payload)
  = le_split 2 op ++ le_split 2 seq ++ le_split 4 uid ++ padName rname ++ payload.
Proof. rewrite FrameCanonical_eq, stamp_eq by len_solve. by rewrite <-!app_assoc. Qed.

(** The server reads the fields the client wrote, and the uid of the kernel. *)
Lemma stamped_header uid op seq rname payload :
  0 <= op < 2 ^ 16 -> 0 <= seq < 2 ^ 16 -> 0 <= uid < 2 ^ 32 -> zlen rname <= 16 -> Byte.x00 ∉ rname ->
  ParseHeader (stamp uid (FrameCanonical op seq rname payload)) = Some (mkHeader op seq uid rname)
  /\ drop 24 (stamp uid (FrameCanonical op seq rname payload)) = payload.
Proof.
  intros Ho Hs Hu Hn Hz. rewrite stamped_frame. pose proof (zlen_nonneg payload). split.
  - unfold ParseHeader, CanonicalHeaderLen. rewrite (proj2 (Z.ltb_ge _ _)) by len_solve. do 2 f_equal.
    + fields. by apply u16_small.
    + fields. by apply u16_small.
    + fields. by apply u32_small.
    + rewrite (slice_skip (le_split 2 op) _ 8 24 6) by len_solve.
      rewrite (slice_skip (le_split 2 seq) _ 6 _ 4) by len_solve.
      rewrite (slice_skip (le_split 4 uid) _ 4 _ 0) by len_solve.
      rewrite slice_here by len_solve. by apply cstr16_padName.
  - rewrite !app_assoc. apply drop_app_length'. rewrite !length_app, !length_le_split. unfold zlen in *.
    pose proof (zlen_padName rname). unfold zlen in *. lia.
Qed.

(** ** The contract of the store, for one file *)

Class FileStore (S : Type) `{Store S} := {
  (** The path names a regular file with these contents. *)
  holds_file : S -> list byte -> list byte -> Prop;
  fsl_read : forall s p c o n, holds_file s p c -> 0 <= o -> 0 < n ->
    exists s', st_ReadFile p o n s = (Ok (slice c o (o + n)), s') /\ holds_file s' p c;
  fsl_write : forall s p c o d, holds_file s p c -> 0 <= o -> o + zlen d < 2 ^ 32 -> zlen d <= maxReadChunk ->
    exists s', st_WriteFile p o d s = (Ok tt, s') /\ holds_file s' p (write_at c o d)
               \/ st_WriteFile p o d s = (Err ErrNoSpace, s');
  fsl_stat : forall s p c, holds_file s p c -> exists st s', st_Stat p s = (Ok st, s') /\ holds_file s' p c;
}.

Section KFS.
Context {D : Type} `{BlockDevLaws D}.

Record kfs_file (k : KFS D) (path c : list byte) : Prop := mkKfsFile {
  kf_meta : exists m pino leaf di nd, durable k m /\ walkParent m path = Ok (pino, leaf)
    /\ findDirent m pino leaf = Some di /\ inodes m !! dirent_ino m di = Some nd /\ i_kind nd ≠ KindDir
    /\ content m (dirent_ino m di) = c
}.

Lemma kfs_file_read k p c o n : kfs_file k p c -> 0 <= o -> 0 < n ->
  exists k', KfsFs.ReadFile p o n k = (Ok (slice c o (o + n)), k') /\ kfs_file k' p c.
Proof.
  intros [(m & pino & leaf & di & nd & Hd & Hw & Hf & Hi & Hk & Hc)] Ho Hn.
  destruct (ReadFile_ok k m p o n Hd Ho ltac:(lia)) as (k' & E & Hd'). exists k'. split.
  - rewrite E. unfold read_spec. rewrite (proj2 (Z.eqb_neq n 0)) by lia. rewrite Hw. cbn [mbind outcome_bind].
    rewrite Hf. unfold is_dir. rewrite Hi, bool_decide_false by done. by rewrite Hc.
  - split. by exists m, pino, leaf, di, nd.
Qed.

Lemma kfs_file_write k p c o d : kfs_file k p c -> 0 <= o -> o + zlen d < 2 ^ 32 -> zlen d <= maxReadChunk ->
  exists k', KfsFs.WriteFile p o d k = (Ok tt, k') /\ kfs_file k' p (write_at c o d)
    \/ KfsFs.WriteFile p o d k = (Err ErrNoSpace, k').
Proof.
  intros [(m & pino & leaf & di & nd & Hd & Hw & Hf & Hi & Hk & Hc)] Ho Hb Hl.
  assert (zlen d <= MaxPayload - 16) as Hm by (change maxReadChunk with 2048 in Hl; unfold MaxPayload; lia).
  pose proof (WriteFile_runs k m p o d pino leaf di nd Hd Hw Hf Hi Hk Ho Hb Hm) as Hr.
  unfold runs in Hr. destruct (KfsFs.WriteFile p o d k) as [[[]|e|] k'].
  - exists k'. left. split; [done|]. split.
    exists (set_file m (dirent_ino m di) nd (write_at c o d)), pino, leaf, di.
    exists (mkInode (dirent_ino m di) (i_uid nd) (i_kind nd) (zlen (write_at c o d))).
    rewrite <-Hc at 1. split_and!; [apply Hr|by rewrite set_file_walk|done| |done|].
    + cbn. apply lookup_insert_eq.
    + unfold content. cbn. by rewrite lookup_insert_eq.
  - exists k'. right. by rewrite Hr.
  - done.
Qed.

Lemma kfs_file_stat k p c : kfs_file k p c -> exists st, KfsFs.Stat (meta k) p = Ok st.
Proof.
  intros [(m & pino & leaf & di & nd & Hd & Hw & Hf & Hi & Hk & Hc)]. pose proof (du_tree _ _ Hd) as Ht.
  unfold KfsFs.Stat. case_bool_decide; [by eexists|].
  rewrite <-(walkParent_proper _ _ Ht _ _ eq_refl), Hw.
  destruct (splitPath p) as [parts|e|] eqn:Ep.
  - cbn [mbind outcome_bind]. rewrite <-(findDirent_proper _ _ Ht _ _ eq_refl _ _ eq_refl), Hf.
    rewrite <-(dirent_ino_proper _ _ Ht _ _ eq_refl), <-(st_inodes _ _ Ht), Hi. by eexists.
  - unfold walkParent in Hw. by rewrite Ep in Hw.
  - unfold walkParent in Hw. by rewrite Ep in Hw.
Qed.

#[export] Instance KFS_FileStore : FileStore (KFS D) := {|
  holds_file := kfs_file; fsl_read := kfs_file_read; fsl_write := kfs_file_write;
  fsl_stat := fun s p c Hs => match kfs_file_stat s p c Hs with
                              | ex_intro _ st E => ex_intro _ st (ex_intro _ s (conj (f_equal (fun x => (x, s)) E) Hs))
                              end |}.
End KFS.

(** The client after one request. *)
Definition bump (c : Client) : Client := mkClient (inboxName c) (inbox c) (u16 (seq c + 1)) (Budget c).

(** ** Requests in steps *)

Section Steps.
Context {W : Type} `{Kernel W}.

Lemma InboxRequest_eq c w h op payload rc w1 :
  k_PortSend h (FrameCanonical op (seq (bump c)) (inboxName c) payload) w = (rc, w1) -> rc ≠ StatusErr ->
  InboxRequest h op payload (c, w) = let '(r, w2) := recvMatch (bump c) w1 in (r, (bump c, w2)).
Proof.
  intros Es Hrc. unfold InboxRequest, nextSeq, onW, sys, mbind, M_bind. cbn [fst snd].
  change (mkClient (inboxName c) (inbox c) _ (Budget c)) with (bump c). cbn [inboxName bump] in *. rewrite Es.
  by rewrite (proj2 (Z.eqb_neq _ _)).
Qed.

(** The reply is there after the first yield. *)
Lemma recv_second n h want w1 w2 w3 len buf :
  (2 <= n)%nat -> k_PortRecv h MaxMsg w1 = ((0, []), w1) -> k_Yield w1 = (tt, w2) ->
  k_PortRecv h MaxMsg w2 = ((len, buf), w3) -> CanonicalHeaderLen <= len -> Get16 buf 2 = want ->
  recv_loop n h want w1 = (Ok buf, w3).
Proof.
  intros Hn E1 Ey E2 Hl Hw. unfold CanonicalHeaderLen in *. destruct n as [|[|n]]; [lia..|]. cbn [recv_loop].
  rewrite bind_sys, E1. cbn [fst snd Z.ltb Z.compare]. rewrite bind_sys, Ey. cbn [fst snd]. rewrite bind_sys, E2. cbn [fst snd].
  rewrite (proj2 (Z.ltb_lt _ _)), (proj2 (Z.ltb_ge _ _)) by (unfold CanonicalHeaderLen; lia). by rewrite Hw, Z.eqb_refl.
Qed.
End Steps.

(** ** The contract of the carrier *)

Class FsLink (W S : Type) `{Kernel W, Store S} := {
  (** What the server holds: its store and its table of sessions. *)
  l_store : W -> S * gmap Z fsSession;
  (** The uid the kernel knows the client's session by. *)
  l_uid : W -> Z;
  (** The client can reach the server through the handle. *)
  linked : Client -> Z -> W -> Prop;
  l_names : forall c h w, linked c h w ->
    0 < zlen (inboxName c) <= MaxName /\ Byte.x00 ∉ inboxName c /\ 0 <= l_uid w < 2 ^ 32;
  l_exchange : forall c h w op payload rep st', linked c h w -> zlen payload <= MaxMsg - CanonicalHeaderLen ->
    dispatch (stamp (l_uid w) (FrameCanonical op (seq (bump c)) (inboxName c) payload)) (l_store w)
      = (Ok (Some (rep, inboxName c)), st') ->
    CanonicalHeaderLen <= zlen rep <= MaxMsg -> Get16 rep 2 = seq (bump c) ->
    exists u w', InboxRequest h op payload (c, w) = (Ok (stamp u rep), (bump c, w'))
      /\ linked (bump c) h w' /\ l_store w' = st' /\ l_uid w' = l_uid w;
}.

Lemma splitReply_stamped u op seq status body :
  splitReply (stamp u (reply op seq status body)) = Ok (i32 (u32 status), body).
Proof.
  rewrite reply_eq. replace (mkbuf 20) with (mkbuf 4 ++ mkbuf 16) by done.
  rewrite (app_assoc (le_split 2 op)), <-(app_assoc (mkbuf 4)), stamp_eq by len_solve.
  pose proof (zlen_nonneg body). unfold splitReply. rewrite (proj2 (Z.ltb_ge _ _)).
  - rewrite <-app_assoc. f_equal. apply pair_equal_spec. split.
    + fields. unfold u32. by rewrite Z.mod_mod by lia.
    + done.
  - rewrite !zlen_app, !zlen_le_split. change (zlen (mkbuf 16)) with 16. lia.
Qed.

Lemma zlen_reply op seq status body : zlen (reply op seq status body) = 28 + zlen body.
Proof. rewrite reply_eq, !zlen_app, !zlen_le_split. change (zlen (mkbuf 20)) with 20. lia. Qed.

Section Client.
Context {W S : Type} `{FsLink W S}.

(** One question to the server, from what its dispatcher answers. *)
Lemma ask_ok c h w op payload status body st' :
  linked c h w -> 0 <= op < 2 ^ 16 -> zlen payload <= MaxMsg - CanonicalHeaderLen -> zlen body <= MaxMsg - 28 ->
  do_op (l_uid w) op (seq (bump c)) payload (l_store w)
    = (Ok (Some (reply op (seq (bump c)) status body)), st') ->
  exists w', ask h op payload (c, w) = (Ok (i32 (u32 status), body), (bump c, w'))
    /\ linked (bump c) h w' /\ l_store w' = st' /\ l_uid w' = l_uid w.
Proof.
  intros Hl Ho Hp Hb Hd. destruct (l_names _ _ _ Hl) as (Hn & Hz & Hu). unfold MaxName, MaxMsg, CanonicalHeaderLen in *.
  assert (0 <= seq (bump c) < 2 ^ 16) as Hs by apply u16_range.
  destruct (stamped_header (l_uid w) op (seq (bump c)) (inboxName c) payload) as [Eh Ep]; try done; try lia.
  pose proof (zlen_nonneg body).
  destruct (l_exchange c h w op payload (reply op (seq (bump c)) status body) st') as (u & w' & E & Hrest); try done.
  - unfold dispatch. rewrite Eh. cbn [RNam Op Seq Frame.UID]. rewrite bool_decide_false.
    + rewrite Ep. unfold mbind, M_bind. by rewrite Hd.
    + intros En. rewrite En in Hn. change (zlen []) with 0 in Hn. lia.
  - rewrite zlen_reply. unfold CanonicalHeaderLen, MaxMsg. lia.
  - by apply Get16_reply.
  - exists w'. split; [|done]. unfold ask. rewrite (bind_ok _ _ _ _ _ E). unfold liftO. by rewrite splitReply_stamped.
Qed.
End Client.

(** ** Reads and writes at the server *)

(** Who may write a path may read it. *)
Lemma authorize_write_read ss uid raw p :
  authorize ss uid raw true = (p, FSOK) -> authorize ss uid raw false = (p, FSOK).
Proof.
  unfold authorize. destruct (_ && _); [done|]. destruct (uid =? 0); [done|].
  destruct (ss !! uid) as [s|]; (destruct (negb _); [done|]); unfold gateAbsolute; cbv zeta; intros E;
    repeat match goal with |- context [bool_decide ?P] => destruct (bool_decide P) end; cbn [andb] in *;
    try done; by destruct (negb (fs_admin _)); destruct (negb (uid =? 0)).
Qed.

Lemma range_tail_eq off cnt : range_tail off cnt = le_split 8 (u64 off) ++ le_split 2 (u16 cnt).
Proof.
  unfold range_tail. rewrite Put64_split, Put16_split, (mkbuf_app0 10).
  rewrite (splice_frontier [] (le_split 8 _)) by len_solve. rewrite app_nil_l, zlen_le_split.
  rewrite (splice_frontier _ (le_split 2 _)) by len_solve. rewrite zlen_le_split, (mkbuf_0 (_ - _)) by lia.
  by rewrite app_nil_r.
Qed.

(** The fields of a READ or WRITE payload. *)
Lemma range_fields path off cnt rest :
  zlen path < 2 ^ 16 -> 0 <= off < 2 ^ 64 -> 0 <= cnt < 2 ^ 16 ->
  let pl := AppendLStr [] path ++ range_tail off cnt ++ rest in
  let plen := 2 + zlen path in
  LStr pl 0 = Some (path, plen) /\ zlen pl = plen + 10 + zlen rest /\ Get64 pl plen = off
  /\ Get16 pl (plen + 8) = cnt /\ slice pl (plen + 10) (plen + 10 + zlen rest) = rest.
Proof.
  intros Hp Ho Hc. cbv zeta. rewrite range_tail_eq, <-app_assoc. pose proof (zlen_nonneg path).
  assert (zlen (AppendLStr [] path) = 2 + zlen path) as Ea by (rewrite zlen_AppendLStr, zlen_nil; lia).
  split_and!.
  - apply (LStr_AppendLStr [] path _ Hp).
  - rewrite !zlen_app, !zlen_le_split, Ea. lia.
  - rewrite (Get64_skip _ _ _ 0), Get64_here by lia. rewrite !u64_small; lia || by rewrite u64_small.
  - rewrite (Get16_skip _ _ _ 8), (Get16_skip _ _ 8 0), Get16_here by (rewrite ?zlen_le_split; lia).
    rewrite !u16_small; lia || by rewrite u16_small.
  - rewrite !app_assoc. apply slice_tail; rewrite ?zlen_app, ?zlen_le_split, ?Ea; lia.
Qed.

Section Server.
Context {S : Type} `{FileStore S}.

Lemma do_read_file ss uid seq path p c off cnt s :
  authorize ss uid path true = (p, FSOK) -> holds_file s p c -> zlen path < 2 ^ 16 ->
  0 <= off < 2 ^ 64 -> 0 < cnt <= maxReadChunk ->
  exists s', do_op uid OpFSRead seq (AppendLStr [] path ++ range_tail off cnt) (s, ss)
      = (Ok (Some (reply OpFSRead seq FSOK
           (le_split 2 (zlen (slice c off (off + cnt))) ++ slice c off (off + cnt)))), (s', ss))
    /\ holds_file s' p c.
Proof.
  intros Ha%authorize_write_read Hh Hp Ho Hc. change maxReadChunk with 2048 in Hc.
  destruct (fsl_read s p c off cnt Hh) as (s' & E & Hh'); [lia..|]. exists s'. split; [|done].
  destruct (range_fields path off cnt []) as (E1 & E2 & E3 & E4 & _); [lia..|]. rewrite app_nil_r, zlen_nil in *.
  change (do_read uid OpFSRead seq (AppendLStr [] path ++ range_tail off cnt) (s, ss) = 
    (Ok (Some (reply OpFSRead seq FSOK
           (le_split 2 (zlen (slice c off (off + cnt))) ++ slice c off (off + cnt)))), (s', ss))).
  unfold do_read. rewrite bind_getS, E1. rewrite (proj2 (Z.ltb_ge _ _)) by lia. cbn [snd]. unfold resolveFor. rewrite Ha.
  cbn [negb FSOK Z.eqb]. rewrite E3, E4. rewrite Z.min_l by (unfold MaxMsg; lia).
  unfold onStore, attempt, mbind, M_bind. cbn [fst snd]. rewrite E. cbn [fst snd].
  change (Put16 (mkbuf 2) 0 ?v) with (le_split 2 v). rewrite u16_small; [done|]. split; [apply zlen_nonneg|].
  unfold zlen. rewrite length_slice. lia.
Qed.

Lemma do_write_file ss uid seq path p c off d s :
  authorize ss uid path true = (p, FSOK) -> holds_file s p c -> zlen path < 2 ^ 16 ->
  0 <= off -> off + zlen d < 2 ^ 32 -> zlen d <= maxReadChunk ->
  exists status body s', do_op uid OpFSWrite seq (AppendLStr [] path ++ range_tail off (zlen d) ++ d) (s, ss)
      = (Ok (Some (reply OpFSWrite seq status body)), (s', ss)) /\ zlen body <= 4
    /\ (status = FSOK /\ holds_file s' p (write_at c off d) \/ status = FSNoSpace).
Proof.
  intros Ha Hh Hp Ho Hb Hc. pose proof (zlen_nonneg d).
  destruct (fsl_write s p c off d Hh) as (s' & Hw); [done..|]. change maxReadChunk with 2048 in Hc.
  destruct (range_fields path off (zlen d) d) as (E1 & E2 & E3 & E4 & E5); [lia..|].
  change (do_op uid OpFSWrite) with (do_write uid OpFSWrite). unfold do_write. rewrite bind_getS, E1, E2.
  rewrite (proj2 (Z.ltb_ge _ _)) by lia. cbn [snd]. unfold resolveFor. rewrite Ha. cbn [negb FSOK Z.eqb].
  rewrite E3, E4, E5, (proj2 (Z.ltb_ge _ _)) by lia.
  unfold onStore, attempt, mbind, M_bind. cbn [fst snd].
  destruct Hw as [[-> Hh']| ->].
  - destruct (fsl_stat s' p _ Hh') as (st & s2 & E & Hh2). cbn [fst snd]. rewrite E.
    exists FSOK, (Put32 (mkbuf 4) 0 (st_Size st)), s2. split; [done|]. split; [|by left].
    rewrite zlen_Put32; [done|]. change (zlen (mkbuf 4)) with 4. lia.
  - exists FSNoSpace, [], s'. split; [done|]. split; [by rewrite zlen_nil|by right].
Qed.
End Server.

(** ** The client's calls *)

Section Files.
Context {W S : Type} {HK : Kernel W} {HS : Store S} {HF : FileStore S} {HL : FsLink W S}.

(** The client is connected, may write [path], and [path] resolves to the file
    [p] with contents [b]. *)
Record serving (c : Client) (h : Z) (w : W) (path p b : list byte) : Prop := {
  sv_linked : linked c h w;
  sv_auth : authorize (l_store w).2 (l_uid w) path true = (p, FSOK);
  sv_file : holds_file (l_store w).1 p b
}.

Lemma read_ask c h w path p b off cnt :
  serving c h w path p b -> zlen path <= 2000 -> 0 <= off < 2 ^ 64 -> 0 < cnt <= maxReadChunk ->
  let d := slice b off (off + cnt) in
  exists c' w', ask h OpFSRead (AppendLStr [] path ++ range_tail off cnt) (c, w) = (Ok (FSOK, le_split 2 (zlen d) ++ d), (c', w'))
    /\ serving c' h w' path p b.
Proof.
  intros [Hl Ha Hf] Hp Ho Hc d. destruct (l_store w) as [s ss] eqn:Es. cbn [fst snd] in *.
  destruct (do_read_file ss (l_uid w) (seq (bump c)) path p b off cnt s) as (s' & E & Hf'); try done; try lia.
  rewrite <-Es in E. change maxReadChunk with 2048 in Hc.
  assert (zlen d <= 2048) as Hd by (unfold d, zlen; rewrite length_slice; lia).
  edestruct (fun A B C => ask_ok c h w _ _ _ _ _ Hl A B C E) as (w' & E' & Hl' & Es' & Eu).
  - done.
  - unfold MaxMsg, CanonicalHeaderLen. rewrite range_tail_eq. len_solve.
  - unfold MaxMsg. fold d. len_solve.
  - exists (bump c), w'. split; [done|]. split; rewrite ?Es', ?Eu; done.
Qed.

Lemma write_ask c h w path p b off d :
  serving c h w path p b -> zlen path <= 2000 -> 0 <= off -> off + zlen d < 2 ^ 32 -> zlen d <= maxReadChunk ->
  exists st body c' w', ask h OpFSWrite (AppendLStr [] path ++ range_tail off (zlen d) ++ d) (c, w)
      = (Ok (st, body), (c', w'))
    /\ (st = FSOK /\ serving c' h w' path p (write_at b off d) \/ st = FSNoSpace).
Proof.
  intros [Hl Ha Hf] Hp Ho Hb Hc. destruct (l_store w) as [s ss] eqn:Es. cbn [fst snd] in *.
  destruct (do_write_file ss (l_uid w) (seq (bump c)) path p b off d s) as (st & body & s' & E & Hbd & Hf'); try done; try lia.
  rewrite <-Es in E. change maxReadChunk with 2048 in Hc.
  edestruct (fun A B C => ask_ok c h w _ _ _ _ _ Hl A B C E) as (w' & E' & Hl' & Es' & Eu).
  - done.
  - unfold MaxMsg, CanonicalHeaderLen. rewrite range_tail_eq. len_solve.
  - unfold MaxMsg. lia.
  - exists (i32 (u32 st)), body, (bump c), w'. split; [done|]. destruct Hf' as [[-> Hf']| ->]; [left|by right].
    split; [done|]. split; rewrite ?Es', ?Eu; done.
Qed.

(** The bytes of a file in a range, grown by the next piece. *)
Lemma slice_grow (b : list byte) off n cnt :
  0 <= off -> 0 <= n -> 0 < cnt -> zlen (slice b off (off + n)) = n ->
  slice b off (off + n) ++ slice b (off + n) (off + n + cnt) = slice b off (off + (n + cnt)).
Proof. intros. unfold zlen in *. rewrite length_slice in *. list_ext. Qed.

Lemma zlen_slice_min {A} (b : list A) off n :
  0 <= off -> 0 <= n -> zlen (slice b off (off + n)) = Z.max 0 (Z.min n (zlen b - off)).
Proof. intros. unfold zlen. rewrite length_slice. lia. Qed.

(** A range that ends past the file is the range up to its end. *)
Lemma slice_eof {A} (b : list A) off n n' :
  0 <= off -> 0 <= n <= n' -> zlen b <= off + n -> slice b off (off + n) = slice b off (off + n').
Proof. intros. list_ext. Qed.

Lemma client_read_loop h path p b off len : zlen path <= 2000 -> 0 <= off -> off + len < 2 ^ 64 ->
  forall fuel acc c w, serving c h w path p b -> acc = slice b off (off + zlen acc) -> zlen acc <= len ->
  (Z.to_nat (len - zlen acc) < fuel)%nat ->
  exists c' w', read_loop fuel h path off len acc (c, w) = (Ok (slice b off (off + len), None), (c', w'))
    /\ serving c' h w' path p b.
Proof.
  intros Hp Ho Hb. induction fuel as [|fuel IH]; intros acc c w Hs Hacc Hle Hf; [lia|].
  cbn [read_loop]. set (n := zlen acc) in *. pose proof (zlen_nonneg acc : 0 <= n).
  destruct (Z.ltb_spec n len) as [Hlt|Hge].
  2: { assert (n = len) as En by lia. rewrite <-En, <-Hacc. by exists c, w. }
  set (cnt := Z.min (len - n) maxReadChunk). assert (0 < cnt <= maxReadChunk /\ cnt <= len - n) as (Hc & Hcl).
  { unfold cnt. change maxReadChunk with 2048. lia. }
  destruct (read_ask c h w path p b (off + n) cnt Hs Hp ltac:(lia) Hc) as (c1 & w1 & E & Hs1).
  set (d := slice b (off + n) (off + n + cnt)) in *. change maxReadChunk with 2048 in Hc.
  assert (zlen d = Z.max 0 (Z.min cnt (zlen b - (off + n)))) as Hd by (apply zlen_slice_min; lia).
  assert (zlen acc = n) as Hn by done. rewrite Hacc in Hn.
  assert (acc ++ d = slice b off (off + (n + cnt))) as Hg by (rewrite Hacc; apply slice_grow; lia).
  unfold attempt at 1, mbind, M_bind. rewrite E. cbn [negb FSOK Z.eqb]. pose proof (zlen_nonneg d).
  rewrite (proj2 (Z.ltb_ge _ 2)) by len_solve. rewrite Get16_here, u16_small by lia.
  destruct (Z.eqb_spec (zlen d) 0) as [Hz|Hnz].
  { exists c1, w1. split; [|done]. rewrite Hacc, (slice_eof b off n len); [done|lia..|].
    rewrite zlen_slice_min in Hn by lia. lia. }
  rewrite (proj2 (Z.ltb_ge _ (2 + zlen d))) by len_solve. rewrite Z.min_r by lia.
  rewrite slice_tail by len_solve. rewrite Z.ltb_irrefl. destruct (Z.ltb_spec (zlen d) cnt) as [Hsh|Hfull].
  - exists c1, w1. split; [|done]. rewrite Hg, (slice_eof b off (n + cnt) len) by lia. done.
  - assert (zlen (acc ++ d) = n + cnt) as Ha by (rewrite zlen_app; lia).
    apply IH; [done| |lia|lia]. rewrite Ha. done.
Qed.

(** The file once the first [n] bytes of [data] are written. *)
Definition written_part (b : list byte) (off : Z) (data : list byte) (n : Z) : list byte :=
  if n =? 0 then b else write_at b off (slice data 0 n).

Lemma written_step b off data n cnt : 0 <= off -> 0 <= n -> 0 < cnt -> n + cnt <= zlen data ->
  write_at (written_part b off data n) (off + n) (slice data n (n + cnt)) = written_part b off data (n + cnt).
Proof.
  intros Ho Hn Hc Hl. unfold written_part. rewrite (proj2 (Z.eqb_neq (n + cnt) 0)) by lia.
  destruct (Z.eqb_spec n 0) as [->|Hn0]; [by rewrite Z.add_0_r|].
  rewrite (slice_app_split data 0 n (n + cnt)) by lia. rewrite <-write_at_app by done.
  by rewrite zlen_slice, Z.sub_0_r by lia.
Qed.

Lemma client_write_loop h path p off data b : zlen path <= 2000 -> 0 <= off -> off + zlen data < 2 ^ 32 -> 0 < zlen data ->
  forall fuel n c w, serving c h w path p (written_part b off data n) -> 0 <= n <= zlen data ->
  (Z.to_nat (zlen data - n) < fuel)%nat ->
  exists n' e c' w', write_loop fuel h path off data n (c, w) = (Ok (n', e), (c', w'))
    /\ (n' = zlen data /\ e = None /\ serving c' h w' path p (write_at b off data) \/ e = Some ErrFSNoSpace).
Proof.
  intros Hp Ho Hb Hpos. induction fuel as [|fuel IH]; intros n c w Hs Hn Hf; [lia|].
  cbn [write_loop]. rewrite (proj2 (Z.eqb_neq (zlen data) 0)) by lia. cbn [andb orb]. rewrite orb_false_r.
  destruct (Z.ltb_spec n (zlen data)) as [Hlt|Hge].
  2: { exists n, None, c, w. split; [done|]. left. assert (n = zlen data) as -> by lia. unfold written_part in Hs.
       rewrite (proj2 (Z.eqb_neq _ _)), slice_full in Hs by (done || lia). done. }
  set (cnt := Z.min (zlen data - n) maxReadChunk). assert (0 < cnt <= maxReadChunk /\ cnt <= zlen data - n) as (Hc & Hcl).
  { unfold cnt. change maxReadChunk with 2048. lia. }
  set (d := slice data n (n + cnt)). assert (zlen d = cnt) as Hd by (unfold d; rewrite zlen_slice; lia).
  destruct (write_ask c h w path p _ (off + n) d Hs Hp) as (st & body & c1 & w1 & E & Hst); [lia..|]. rewrite Hd in E.
  unfold attempt at 1, mbind, M_bind. rewrite E. destruct Hst as [[-> Hs1]| ->].
  - cbn [negb FSOK Z.eqb]. apply IH; [|lia|lia]. unfold d in Hs1. by rewrite written_step in Hs1 by lia.
  - exists n, (Some ErrFSNoSpace), c1, w1. split; [done|by right].
Qed.

Lemma ReadFile_file c h w path p b off len :
  serving c h w path p b -> zlen path <= 2000 -> 0 <= off -> 0 <= len -> off + len < 2 ^ 64 ->
  exists c' w', ReadFile h path off len (c, w) = (Ok (slice b off (off + len), None), (c', w')) /\ serving c' h w' path p b.
Proof.
  intros Hs Hp Ho Hl Hb. apply (client_read_loop h path p b off len Hp Ho Hb (Datatypes.S (Z.to_nat len)) [] c w Hs);
    rewrite zlen_nil; [|lia..]. rewrite Z.add_0_r. unfold slice. by rewrite Z.sub_diag.
Qed.

Lemma WriteFile_file c h w path p b off data :
  serving c h w path p b -> zlen path <= 2000 -> 0 <= off -> off + zlen data < 2 ^ 32 -> 0 < zlen data ->
  exists n e c' w', WriteFile h path off data (c, w) = (Ok (n, e), (c', w'))
    /\ (n = zlen data /\ e = None /\ serving c' h w' path p (write_at b off data) \/ e = Some ErrFSNoSpace).
Proof. intros Hs Hp Ho Hb Hpos. apply (client_write_loop h path p off data b); try done; unfold zlen in *; lia. Qed.
End Files.
