(* ===== verification/FsBox.v ===== *)
(** * FsBox: a client, the kernel and the file service together

    The machine of two sessions: a guest that calls [FsClient], and the file
    service's loop ([ServeFSOn] of [services/fs/server.go]) in another
    session, over the kernel's ports.  When the guest yields, the service runs
    some rounds of its loop; the number of rounds is a parameter, so the
    theorems hold however the scheduler shares the time.  The machine is an
    instance of [FsLink], and the client's theorems hold on it. *)

From S2P Require Import Prelude Frame BlockDev KfsFormat Paths KfsFs KfsMount KfsData KfsTree KfsOps KfsHistory KfsTheorems FsServer FsPolicy KernHeap KernState KernPorts KernSched KernCalls KernFacts KernTheorems KernLink Guest FsClient FsLink.

(** ** The calls of one session *)

(** Alone on the processor: a yield comes straight back.  The clock is what
    the platform says. *)
Definition session_calls {P : Platform} (clock : K -> Z) (sid : Z) : Kernel K := {|
  k_PortCreate := fun name => port_create sid name;
  k_PortBind := fun name => owned_port_bind sid name;
  k_PortSend := fun h d => port_send sid h d;
  k_PortRecv := fun h cap => port_recv sid h cap;
  k_FocusSet := fun h k => (tt, (owned_focus_set sid h k).2);
  k_Yield := fun k => (tt, k);
  k_UnixNano := fun k => (clock k, k) |}.

(** ** The service *)

Record FsBox (S : Type) := mkBox {
  box_k : K; box_store : S * gmap Z fsSession; box_book : ReplyBook; box_up : bool
}.
Arguments mkBox {S}.
Arguments box_k {S}.
Arguments box_store {S}.
Arguments box_book {S}.
Arguments box_up {S}.

Definition put_k {S} (k : K) (b : FsBox S) : FsBox S := mkBox k (box_store b) (box_book b) (box_up b).

Section box.
Context {P : Platform} {S : Type} {HS : Store S}.
Variables (clock : K -> Z) (csid ssid hs : Z) (rounds : nat).

(** One round of the loop of [ServeFSOn] on handle [hs].  A panic of the
    dispatcher ends the service. *)
Definition serve_once (b : FsBox S) : FsBox S :=
  if negb (box_up b) then b
  else
    let '((n, buf), k1) := port_recv ssid hs MaxMsg (box_k b) in
    if (0 <? n) && (CanonicalHeaderLen <=? n) then
      match dispatch buf (box_store b) with
      | (Ok (Some (rep, rname)), st) =>
          match @book_Bind K (session_calls clock ssid) (box_book b) rname k1 with
          | (Ok (rh, book), k2) => mkBox (port_send ssid rh rep k2).2 st book true
          | (_, k2) => mkBox k2 st (box_book b) true
          end
      | (Panic, st) => mkBox k1 st (box_book b) false
      | (_, st) => mkBox k1 st (box_book b) true
      end
    else put_k k1 b.

(** The guest's calls: its yield gives the service its rounds. *)
Definition box_calls : Kernel (FsBox S) := {|
  k_PortCreate := fun name b => let '(r, k) := port_create csid name (box_k b) in (r, put_k k b);
  k_PortBind := fun name b => let '(r, k) := owned_port_bind csid name (box_k b) in (r, put_k k b);
  k_PortSend := fun h d b => let '(r, k) := port_send csid h d (box_k b) in (r, put_k k b);
  k_PortRecv := fun h cap b => let '(r, k) := port_recv csid h cap (box_k b) in (r, put_k k b);
  k_FocusSet := fun h b => (tt, put_k (owned_focus_set csid h (box_k b)).2 b);
  k_Yield := fun b => (tt, Nat.iter rounds serve_once b);
  k_UnixNano := fun b => (clock (box_k b), b) |}.

(** ** The link *)

(** The guest holds a handle [h] on the service's port and its own reply port;
    the service holds the port through [hs] and has bound the reply port; both
    queues are empty and the kernel has memory for a message. *)
Record box_linked (c : Client) (h : Z) (b : FsBox S) : Prop := {
  bl_ports : exists gs ps gc pc hb,
    reaches (box_k b) csid h gs ps /\ reaches (box_k b) ssid hs gs ps
    /\ reaches (box_k b) csid (inbox c) gc pc /\ reaches (box_k b) ssid hb gc pc /\ gs ≠ gc
    /\ p_kernel_endpoint ps = false /\ p_kernel_endpoint pc = false
    /\ unawaited (p_name ps) (box_k b) /\ unawaited (p_name pc) (box_k b)
    /\ ring_view ps [] /\ ring_view pc [] /\ box_book b !! inboxName c = Some hb;
  bl_heap : msg_ready (k_heap (box_k b));
  bl_up : box_up b = true;
  bl_sids : csid ≠ 0 /\ ssid ≠ 0;
  bl_uid : 0 <= sched_uid_of (box_k b) csid < 2 ^ 32;
  bl_budget : 2 <= budget c;
  bl_rounds : (0 < rounds)%nat;
  bl_name : 0 < zlen (inboxName c) <= MaxName /\ Byte.x00 ∉ inboxName c
}.

(** ** One exchange *)

Lemma Get16_stamp u d : 24 <= zlen d -> Get16 (stamp u d) 2 = Get16 d 2.
Proof.
  intros Hd. unfold stamp. rewrite (proj2 (Z.leb_le _ _)) by lia. unfold Get16, idx.
  rewrite !lookup_splice by (unfold zlen in *; lia). rewrite length_le_split, !decide_False by lia. done.
Qed.

(** With nothing to read the service changes nothing. *)
Lemma serve_idle b gs ps n :
  reaches (box_k b) ssid hs gs ps -> ring_view ps [] -> Nat.iter n serve_once b = b.
Proof.
  intros Hr Hv. induction n as [|n IH]; [done|]. rewrite Nat.iter_succ, IH. unfold serve_once. destruct (box_up b) eqn:Eu; cbn [negb]; [|done].
  rewrite (port_recv_empty _ _ _ gs ps) by done. cbn [andb Z.ltb Z.compare]. unfold put_k. by destruct b.
Qed.

(** A request in the queue of a service that answers it. *)
Lemma serve_answers b k2 req rep rname st' hb k3 :
  box_up b = true -> port_recv ssid hs MaxMsg (box_k b) = ((zlen req, req), k2) -> 24 <= zlen req ->
  dispatch req (box_store b) = (Ok (Some (rep, rname)), st') -> box_book b !! rname = Some hb ->
  port_send ssid hb rep k2 = (0, k3) ->
  serve_once b = mkBox k3 st' (box_book b) true.
Proof.
  intros Hu Er Hl Hd Hb Es. unfold serve_once. rewrite Hu, Er. cbn [negb].
  rewrite (proj2 (Z.ltb_lt _ _)), (proj2 (Z.leb_le _ _)) by (unfold CanonicalHeaderLen; lia). cbn [andb].
  rewrite Hd. unfold book_Bind. rewrite Hb. unfold mret, M_ret. by rewrite Es.
Qed.

Lemma box_exchange c h b op payload rep st' :
  box_linked c h b -> zlen payload <= MaxMsg - CanonicalHeaderLen ->
  dispatch (stamp (sched_uid_of (box_k b) csid) (FrameCanonical op (seq (bump c)) (inboxName c) payload)) (box_store b)
    = (Ok (Some (rep, inboxName c)), st') ->
  CanonicalHeaderLen <= zlen rep <= MaxMsg -> Get16 rep 2 = seq (bump c) ->
  exists u b', @InboxRequest _ box_calls h op payload (c, b) = (Ok (stamp u rep), (bump c, b'))
    /\ box_linked (bump c) h b' /\ box_store b' = st'
    /\ sched_uid_of (box_k b') csid = sched_uid_of (box_k b) csid.
Proof.
  intros [Hports Hheap Hup [Hc0 Hs0] Huid Hbud Hrnd Hname] Hpay Hdis Hrep Hseq.
  destruct Hports as (gs & ps & gc & pc & hb & Hcs & Hss & Hcc & Hsc & Hne & Hks & Hkc & Hus & Huc & Hvs & Hvc & Hbook).
  set (k := box_k b) in *. set (req := FrameCanonical op (seq (bump c)) (inboxName c) payload) in *.
  unfold MaxMsg, CanonicalHeaderLen in *. pose proof (zlen_nonneg payload).
  assert (zlen req = 24 + zlen payload) as Hreq.
  { unfold req. rewrite FrameCanonical_eq, !zlen_app, !zlen_le_split, zlen_padName. change (zlen (mkbuf 4)) with 4. lia. }
  destruct (hop k csid h ssid hs gs ps req Hcs) as (k1 & k2 & ps1 & ps2 & Es & Hm1 & Er & Hm2 & Hv2 & Hh2); try done;
    [apply Hss|unfold MSG_MAX; lia|].
  pose proof (moved_other _ _ _ _ _ _ _ _ _ Hm2 (proj2 Hcs) (not_eq_sym Hne) Hsc) as Hsc2.
  pose proof (moved_other _ _ _ _ _ _ _ _ _ Hm2 (proj2 Hcs) (not_eq_sym Hne) Hcc) as Hcc2.
  destruct (hop k2 ssid hb csid (inbox c) gc pc rep Hsc2) as (k3 & k4 & pc1 & pc2 & Es2 & Hm3 & Er2 & Hm4 & Hv4 & Hh4); try done;
    [apply Hcc2|by eapply moved_unawaited|unfold MSG_MAX; lia|].
  pose proof (moved_reaches _ _ _ _ _ _ _ Hm2 Hss) as Hss2. pose proof (moved_reaches _ _ _ _ _ _ _ Hm2 Hcs) as Hcs2.
  pose proof (moved_other _ _ _ _ _ _ _ _ _ Hm3 (proj2 Hsc2) Hne Hss2) as Hss3.
  assert (Nat.iter rounds serve_once (put_k k1 b) = mkBox k3 st' (box_book b) true) as Eserve.
  { destruct rounds as [|r]; [lia|]. rewrite Nat.iter_succ_r.
    rewrite (serve_answers (put_k k1 b) k2 (stamp (sched_uid_of k csid) req) rep (inboxName c) st' hb k3); try done.
    - by apply (serve_idle _ gs ps2).
    - by rewrite zlen_stamp.
    - rewrite zlen_stamp. lia. }
  exists (sched_uid_of k2 ssid), (mkBox k4 st' (box_book b) true). split_and!; [|split|done|].
  - assert (@k_PortSend _ box_calls h req b = (0, put_k k1 b)) as Esend by (cbn; fold k; by rewrite Es).
    rewrite (InboxRequest_eq c b h op payload 0 (put_k k1 b) Esend) by done. unfold recvMatch.
    rewrite (recv_second _ _ _ (put_k k1 b) (mkBox k3 st' (box_book b) true) (mkBox k4 st' (box_book b) true)
      (zlen rep) (stamp (sched_uid_of k2 ssid) rep)); [done| | | | |unfold CanonicalHeaderLen; lia|].
    + change (budget (bump c)) with (budget c). lia.
    + cbn. rewrite (port_recv_empty _ _ _ gc pc); [done| |done].
      by eapply moved_other; [exact Hm1|apply Hcs|done|].
    + cbn. by rewrite Eserve.
    + cbn. change MaxMsg with MSG_MAX. by rewrite Er2.
    + rewrite Get16_stamp by lia. done.
  - exists gs, ps2, gc, pc2, hb. split_and!; try done.
    + eapply moved_other; [exact Hm4|apply Hsc2|done..].
    + eapply moved_other; [exact Hm4|apply Hsc2|done..].
    + by eapply moved_reaches.
    + by eapply moved_reaches.
    + by rewrite (mv_endpoint _ _ _ _ _ Hm2).
    + by rewrite (mv_endpoint _ _ _ _ _ Hm4).
    + rewrite (mv_name _ _ _ _ _ Hm2). eapply moved_unawaited, moved_unawaited; [exact Hm4|exact Hm2|done].
    + rewrite (mv_name _ _ _ _ _ Hm4). eapply moved_unawaited, moved_unawaited; [exact Hm4|exact Hm2|done].
  - done.
  - done.
  - done.
  - cbn [box_k]. by rewrite (uid_ext k2 k4 _ (mv_core _ _ _ _ _ Hm4)), (uid_ext k k2 _ (mv_core _ _ _ _ _ Hm2)).
  - done.
  - done.
  - done.
  - cbn [box_k]. by rewrite (uid_ext k2 k4 _ (mv_core _ _ _ _ _ Hm4)), (uid_ext k k2 _ (mv_core _ _ _ _ _ Hm2)).
Qed.

Lemma box_names c h b : box_linked c h b ->
  0 < zlen (inboxName c) <= MaxName /\ Byte.x00 ∉ inboxName c /\ 0 <= sched_uid_of (box_k b) csid < 2 ^ 32.
Proof. intros Hl. split_and!; apply Hl. Qed.

Definition box_link : @FsLink (FsBox S) S box_calls HS := {|
  l_store := box_store; l_uid := fun b => sched_uid_of (box_k b) csid; linked := box_linked;
  l_names := box_names; l_exchange := box_exchange |}.
End box.

(** ** The service end to end *)

(** C14: A file written through the service is read back through it: client
    library, kernel, file service and volume together.  A session whose
    requests the policy lets write [path], and whose file exists on a sound
    volume, calls [WriteFile] with any non-empty data below 4 GiB, of any
    number of chunks.  The call returns; unless the volume is full it reports
    every byte written, the volume then holds the old contents with the data
    in place, and [ReadFile] of the range returns exactly the data.  This holds
    for every number of rounds the service gets at each yield. *)
Theorem file_service_end_to_end {P : Platform} {D} `{BlockDevLaws D} clock csid ssid hs rounds c h
    (b : FsBox (KFS D)) path p old off data :
  box_linked csid ssid hs rounds c h b ->
  authorize (box_store b).2 (sched_uid_of (box_k b) csid) path true = (p, FSOK) ->
  kfs_file (box_store b).1 p old -> zlen path <= 2000 -> 0 <= off -> 0 < zlen data -> off + zlen data < 2 ^ 32 ->
  let HK := box_calls clock csid ssid hs rounds in
  exists n e c1 b1, FsClient.WriteFile h path off data (c, b) = (Ok (n, e), (c1, b1))
    /\ (e = Some ErrFSNoSpace
        \/ n = zlen data /\ e = None /\ kfs_file (box_store b1).1 p (write_at old off data)
           /\ exists c2 b2, FsClient.ReadFile h path off (zlen data) (c1, b1) = (Ok (data, None), (c2, b2))).
Proof.
  intros Hl Ha Hf Hp Ho Hpos Hb HK. set (HL := box_link clock csid ssid hs rounds : @FsLink _ _ HK _).
  assert (serving (HL := HL) c h b path p old) as Hs by done.
  destruct (WriteFile_file c h b path p old off data Hs Hp Ho Hb Hpos) as (n & e & c1 & b1 & E & Hr).
  exists n, e, c1, b1. split; [exact E|]. destruct Hr as [(-> & -> & Hs1)| ->]; [right|by left].
  destruct (ReadFile_file c1 h b1 path p _ off (zlen data) Hs1 Hp Ho ltac:(lia) ltac:(lia)) as (c2 & b2 & E2 & _).
  split_and!; [done..|apply Hs1|]. exists c2, b2. rewrite E2, slice_write_at by done. done.
Qed.

(** ** An example *)

(** The file service in slot 1 and a guest of root in slot 2, each with a
    handle on the port [fs] and one on the guest's reply port. *)
Definition box_kernel : K := mkK
  (demo_port false 1 (bs "fs") :: demo_port false 2 (bs "cl") :: replicate 22 free_port)
  (empty_row :: demo_row :: demo_row :: replicate 9 empty_row)
  (replicate 8 (mkPending false 0 [] false []))
  (zero_session :: demo_session (bs "fs") 0 0 S_RUNNABLE :: demo_session (bs "guest") 0 0 S_RUNNING :: replicate 9 zero_session)
  [] 1 (Some 2) demo_heap (mkLog (mkbuf LOG_SIZE) 0)
  (replicate 13 0) (mkConf (replicate 8 0) 5 1 0 0) (mkDev [] false false 0 0 [] 1) (mkbuf 4096) (replicate 12 [])
  false false.

Definition box_client : Client := mkClient (bs "cl") 1 0 0.
Definition box1 : FsBox (KFS memDevice) := mkBox box_kernel (vol1, ∅) {[ bs "cl" := 1 ]} true.

Lemma box1_linked : box_linked 2 1 0 1 box_client 0 box1.
Proof.
  assert (forall name, unawaited name box_kernel) as Hun.
  { intros name t Ht. change (t ∈ replicate 8 (mkPending false 0 [] false [])) in Ht. by apply elem_of_replicate in Ht as [-> _]. }
  split; try done.
  - exists 0, (demo_port false 1 (bs "fs")), 1, (demo_port false 2 (bs "cl")), 1.
    split_and!; try done; try apply Hun; try (by apply ring_empty_view).
  - exists ∅. split; [apply demo_heap_inv|]. right. done.
  - unfold budget. cbn. unfold DefaultRecvBudget. lia.
  - split; [done|]. set_solver.
Qed.

Lemma vol1_file : kfs_file vol1 (bs "/a") [].
Proof.
  split. exists meta1, RootIno, (bs "a"). eexists _, _. split; [exact vol1_durable|].
  split; [reflexivity|]. split; [reflexivity|]. split; [reflexivity|]. split; [done|reflexivity].
Qed.

Lemma file_service_end_to_end_witness :
  let HK := box_calls (fun _ => 0) 2 1 0 1 in
  exists n e c1 b1, FsClient.WriteFile 0 (bs "/a") 3 (bs "hi") (box_client, box1) = (Ok (n, e), (c1, b1))
    /\ (e = Some ErrFSNoSpace
        \/ n = 2 /\ e = None /\ kfs_file (box_store b1).1 (bs "/a") (write_at [] 3 (bs "hi"))
           /\ exists c2 b2, FsClient.ReadFile 0 (bs "/a") 3 2 (c1, b1) = (Ok (bs "hi", None), (c2, b2))).
Proof.
  apply (file_service_end_to_end (fun _ => 0) 2 1 0 1 box_client 0 box1 (bs "/a") (bs "/a") [] 3 (bs "hi"));
    [exact box1_linked|reflexivity|exact vol1_file|vm_compute; discriminate|lia|reflexivity|reflexivity].
Defined.

Lemma box1_not_full :
  (@FsClient.WriteFile _ (box_calls (fun _ => 0) 2 1 0 1) 0 (bs "/a") 3 (bs "hi") (box_client, box1)).1 = Ok (2, None).
Proof. vm_compute. reflexivity. Qed.
