(* ===== verification/SvcFacts.v ===== *)
(** * SvcFacts: services as sessions of the kernel

    The kernel calls of the guest services, as equations on the kernel's
    state: binding a port, sending to an endpoint of the kernel, and what the
    two leave alone. *)

From S2P Require Import Prelude Frame FsServer KernHeap KernState KernPorts KernSched KernSvc KernCalls KernFacts KernSafety KernTheorems KernLink Guest FsLink FsBox.

(** ** Binding *)

Lemma reaches_set_htab k sid h g hr g' p' :
  free_handle k sid = Some h -> reaches k sid hr g' p' -> reaches (set_htab sid (Z.of_nat h) g k) sid hr g' p'.
Proof.
  intros Hh [Ho Hp]. destruct (free_handle_row _ _ _ Hh) as (row & g0 & Hrow & Hg0 & Hneg). unfold port_of in *.
  destruct (_ || _ || _) eqn:Eb; [done|]. cbv zeta in *. destruct ((_ <? 0) || _) eqn:Er in Ho; [done|].
  pose proof Er as [Er0%Z.ltb_ge _]%orb_false_iff. pose proof Eb as [[_ Eb0%Z.ltb_ge]%orb_false_iff _]%orb_false_iff.
  assert (htab_at (set_htab sid (Z.of_nat h) g k) sid hr = htab_at k sid hr) as Eh.
  { unfold htab_at in *. cbn. rewrite list_lookup_alter_eq, Hrow. cbn. rewrite Nat2Z.id, list_lookup_insert_ne; [done|].
    intros ->. revert Er0. rewrite Hrow. cbn. rewrite Hg0. cbn. lia. }
  split; [|done]. unfold port_of. rewrite Eb. cbv zeta. rewrite Eh, Er. done.
Qed.

(** Who may bind a name: the well-known ones take a capability. *)
Definition may_bind (k : K) (sid : Z) (name : list byte) : Prop :=
  sched_alive k sid = true /\ (is_well_known_name name = true -> has_bits (sched_capmask_of k sid) SCHED_CAP_PORTBIND = true).

Section platform.
Context {P : Platform}.

Lemma owned_bind_eq k sid name : may_bind k sid name -> owned_port_bind sid name k = port_bind sid name k.
Proof.
  intros [_ Hc]. unfold owned_port_bind. rewrite kbind. destruct (is_well_known_name name); [|done].
  unfold owned_cap. rewrite kbind. cbn [kget fst snd]. rewrite Hc by done. done.
Qed.

Lemma alive_range k sid : sched_alive k sid = true -> 0 < sid < MAX_SESSIONS.
Proof. unfold sched_alive. intros [[[?%Z.ltb_lt ?%Z.ltb_lt]%andb_true_iff _]%andb_true_iff _]%andb_true_iff. lia. Qed.

(** A bind of a port that exists takes the first free handle. *)
Lemma bind_takes_handle k sid name gp h :
  may_bind k sid name -> findi (has_name name) (k_ports k) = Some gp -> free_handle k sid = Some h ->
  owned_port_bind sid name k = (Z.of_nat h, set_htab sid (Z.of_nat h) (Z.of_nat gp) k).
Proof.
  intros Hm Hg Hh. rewrite owned_bind_eq by done. destruct Hm as [Ha _]. pose proof (alive_range _ _ Ha).
  unfold port_bind. rewrite kbind. cbn [kget fst snd]. rewrite Ha, (proj2 (Z.eqb_neq sid 0)) by lia. cbn [negb orb].
  rewrite kbind. cbn [kget fst snd]. rewrite Hg. rewrite kbind. cbn [kget fst snd]. rewrite Hh. done.
Qed.

Lemma bound_reaches k sid name gp p h :
  0 < sid < MAX_SESSIONS -> findi (has_name name) (k_ports k) = Some gp -> k_ports k !! gp = Some p ->
  Z.of_nat gp < MAX_PORTS -> free_handle k sid = Some h -> Z.of_nat h < H_PER_SESS ->
  reaches (set_htab sid (Z.of_nat h) (Z.of_nat gp) k) sid (Z.of_nat h) (Z.of_nat gp) p.
Proof.
  intros Hs Hg Hp Hlt Hh Hh16. destruct (free_handle_row _ _ _ Hh) as (row & g0 & Hrow & Hg0 & Hneg).
  apply findi_Some in Hg as [(q & Hq & Hn) _]. assert (q = p) as -> by congruence.
  unfold has_name in Hn. apply andb_true_iff in Hn as [Hu _].
  set (k1 := set_htab _ _ _ _). assert (htab_at k1 sid (Z.of_nat h) = Z.of_nat gp) as Eh.
  { unfold htab_at. cbn. rewrite list_lookup_alter_eq, Hrow. cbn. rewrite Nat2Z.id, list_lookup_insert_eq; [done|].
    by eapply lookup_lt_Some. }
  assert (port_at k1 (Z.of_nat gp) = Some p) as Ep.
  { unfold port_at. rewrite (proj2 (Z.ltb_ge _ _)) by lia. cbn. by rewrite Nat2Z.id. }
  split; [|done]. unfold port_of. rewrite (proj2 (Z.leb_gt _ _)) by lia.
  rewrite (proj2 (Z.ltb_ge (Z.of_nat h) 0)), (proj2 (Z.leb_gt _ _)) by lia. cbn [orb]. cbv zeta. rewrite Eh.
  rewrite (proj2 (Z.ltb_ge (Z.of_nat gp) 0)), (proj2 (Z.leb_gt MAX_PORTS _)) by lia. cbn [orb]. by rewrite Ep, Hu.
Qed.
End platform.

(** ** What a request to an endpoint leaves alone *)

(** Handles and ports other than [g] are as before. *)
Definition calm (g : Z) (k k' : K) : Prop :=
  forall sid h g' p', g' ≠ g -> reaches k sid h g' p' -> reaches k' sid h g' p'.

Lemma calm_ext g k k' : k_ports k' = k_ports k -> k_htab k' = k_htab k -> calm g k k'.
Proof. intros Ep Eh sid h g' p' _ [Ho Hp]. split; [by rewrite (port_of_ext k) by done|by rewrite (port_at_ext k) by done]. Qed.

Lemma calm_trans g k1 k2 k3 : calm g k1 k2 -> calm g k2 k3 -> calm g k1 k3.
Proof. intros H1 H2 sid h g' p' Hne Hr. apply H2; [done|]. by apply H1. Qed.

Definition links (k : K) : list port * list (list Z) := (k_ports k, k_htab k).

Lemma calm_keeps {A} g (m : KM A) k : keeps links m -> calm g k (m k).2.
Proof. intros Hm. pose proof (Hm k) as [= Ep Eh]. by apply calm_ext. Qed.

Lemma calm_bind {A B} g (m : KM A) (f : A -> KM B) k :
  calm g k (m k).2 -> (forall a k', calm g k' (f a k').2) -> calm g k ((m ≫= f) k).2.
Proof. intros Hm Hf. rewrite kbind. eapply calm_trans; [done|apply Hf]. Qed.

Lemma count_send_links n : keeps links (count_send n).
Proof. unfold count_send, perf_inc. keeps. Qed.
#[export] Hint Resolve count_send_links : keeps.

Lemma enqueue_calm g p sid d k : port_at k g = Some p -> calm g k (enqueue g sid d k).2.
Proof.
  intros Hp. unfold enqueue. rewrite kbind. cbn [kget fst snd]. destruct (match port_at k g with Some _ => _ | None => _ end).
  { by apply calm_ext. }
  rewrite kbind. unfold k_rt_malloc. destruct (rt_malloc sizeof_msg (k_heap k)) as [a hp]. cbn [fst snd].
  destruct (a =? 0); [by apply calm_ext|]. rewrite kbind. cbn [kmod fst snd].
  set (k2 := put_heap hp k). assert (port_at k2 g = Some p) as Hp2 by done.
  apply (calm_trans _ _ (upd_port g (ring_put (mkMsg a sid d)) k2)).
  2: { apply (calm_keeps g (_ ← count_send (zlen d); mret 0)). keeps. }
  intros s h g' p' Hne [Ho Hq]. split.
  - by rewrite (port_of_upd k2 _ _ p).
  - by rewrite (port_at_upd k2 _ _ _ p), (proj2 (Z.eqb_neq _ _)).
Qed.

Section requests.
Context {P : Platform}.

(** A reply on the handle the request came through. *)
Lemma direct_reply_calm rt g p d k :
  cstr16 (g_rname rt) = [] -> reaches k (g_from_sid rt) (g_reply_h rt) g p -> calm g k (kernsvc_reply rt d k).2.
Proof.
  intros En [Ho Hp]. unfold kernsvc_reply. rewrite En. destruct (0 <=? _); [|by apply calm_ext].
  unfold ports_kernel_enqueue. rewrite kbind. cbn [kget fst snd]. rewrite Ho. destruct (_ || _); [by apply calm_ext|].
  rewrite kbind. by apply (enqueue_calm _ p).
Qed.

(** A request to an endpoint is dispatched while it is sent. *)
Lemma port_send_endpoint k sid h g p data :
  reaches k sid h g p -> p_kernel_endpoint p = true -> sid ≠ 0 -> 0 < zlen data <= MSG_MAX ->
  exists k', port_send sid h data k = (0, k')
    /\ k' = (count_send (zlen data) (kernsvc_dispatch (p_name p) sid h (stamp (sched_uid_of k sid) data) k).2).2.
Proof.
  intros [Ho Hp] Hke Hs Hl. eexists. split; [|reflexivity]. unfold port_send. rewrite kbind. cbn [kget fst snd].
  rewrite Ho. cbn [mbind option_bind]. rewrite Hp. cbn [fmap option_fmap option_map].
  rewrite (proj2 (Z.eqb_neq _ _)), (proj2 (Z.ltb_ge _ _)) by lia. cbn [orb]. rewrite kbind. cbn [kget fst snd].
  rewrite Hke, (proj2 (Z.eqb_neq sid 0)) by done. cbn [andb negb]. rewrite kbind, kbind. done.
Qed.

Lemma Get16_stamp0 u d : Get16 (stamp u d) 0 = Get16 d 0.
Proof.
  unfold stamp. destruct (Z.leb_spec 8 (zlen d)); [|done]. unfold Get16, idx.
  rewrite !lookup_splice by (unfold zlen in *; lia). rewrite length_le_split, !decide_False by lia. done.
Qed.

Lemma slice_stamp u d lo hi : 8 <= lo -> slice (stamp u d) lo hi = slice d lo hi.
Proof.
  intros Hlo. unfold stamp. destruct (Z.leb_spec 8 (zlen d)); [|done].
  apply slice_splice_after; rewrite ?zlen_le_split; lia.
Qed.

Lemma power_dispatch_halts rt op seq g p k :
  cstr16 (g_rname rt) = [] -> reaches k (g_from_sid rt) (g_reply_h rt) g p -> op = 1 \/ op = 2 ->
  has_bits (sched_capmask_of k (g_from_sid rt)) SCHED_CAP_POWER = true ->
  k_halted (power_dispatch rt op seq k).2 = true /\ calm g k (power_dispatch rt op seq k).2.
Proof.
  intros En Hr Hop Hcap. unfold power_dispatch. rewrite kbind. cbn [kget fst snd]. rewrite Hcap. cbn [negb].
  replace ((op =? 1) || (op =? 2)) with true by (destruct Hop; subst; done).
  assert (forall k', links k' = links k -> k_halted ((_ ← respond rt op seq (status 0); kmod (put_halted true)) k').2 = true
    /\ calm g k ((_ ← respond rt op seq (status 0); kmod (put_halted true)) k').2) as Hlast.
  { intros k' [= Ep Eh]. rewrite kbind. cbn [kmod snd]. split; [done|]. unfold respond. rewrite kbind. cbn [kmod fst snd].
    set (k2 := put_rbuf _ k'). assert (calm g k k2) as Hc by (by apply calm_ext).
    assert (reaches k2 (g_from_sid rt) (g_reply_h rt) g p) as Hr2.
    { destruct Hr as [Ho Hp]. split; [by rewrite (port_of_ext k)|by rewrite (port_at_ext k)]. }
    eapply calm_trans; [exact Hc|]. eapply calm_trans; [by apply (direct_reply_calm rt g p)|by apply calm_ext]. }
  do 3 (apply (quiet_bind links (fun k' => k_halted k' = true /\ calm g k k')); [keeps|]; intros _ ? E; rewrite <-?E in Hlast;
    first [clear E|idtac]).
  by apply Hlast.
Qed.

(** A request with [op] 1 or 2 to [power], from a session with the capability,
    halts the machine. *)
Lemma power_request k sid h g p data :
  reaches k sid h g p -> p_kernel_endpoint p = true -> p_name p = bs "power" -> sid ≠ 0 ->
  24 <= zlen data <= MSG_MAX -> Get16 data 0 = 1 \/ Get16 data 0 = 2 -> cstr16 (slice data 8 24) = [] ->
  has_bits (sched_capmask_of k sid) SCHED_CAP_POWER = true ->
  k_halted (port_send sid h data k).2 = true /\ calm g k (port_send sid h data k).2.
Proof.
  intros Hr Hke Hname Hsid Hlen Hop Hrn Hcap.
  destruct (port_send_endpoint k sid h g p data Hr Hke Hsid ltac:(lia)) as (k' & -> & ->). cbn [snd].
  set (d := stamp _ data). assert (zlen d = zlen data) as Hd by apply zlen_stamp.
  set (k1 := (kernsvc_dispatch (p_name p) sid h d k).2).
  cut (k_halted k1 = true /\ calm g k k1).
  { intros [Hh Hc]. split; [|eapply calm_trans; [done|apply calm_keeps; apply count_send_links]].
    rewrite <-Hh. apply (keeps_core k_halted); [apply count_send_core|]. by intros ? ? [=]. }
  unfold k1, kernsvc_dispatch. rewrite Hd, (proj2 (Z.ltb_ge _ _)) by lia. rewrite Hname.
  change (streq (bs "power") (bs "registry")) with false. change (streq (bs "power") (bs "devman")) with false.
  change (streq (bs "power") (bs "power")) with true. cbv iota zeta.
  apply (quiet_bind (fun k => (k_sessions k, links k)) (fun k' => k_halted k' = true /\ calm g k k')); [keeps|].
  intros _ k2 [= Es Ep Eh]. edestruct (power_dispatch_halts (mkRoute (slice d 8 24) sid h) (Get16 d 0) (Get16 d 2) g p k2) as [Hh Hc].
  - cbn. unfold d. by rewrite slice_stamp.
  - destruct Hr as [Ho Hp]. split; [by rewrite (port_of_ext k)|by rewrite (port_at_ext k)].
  - unfold d. by rewrite Get16_stamp0.
  - rewrite <-Hcap. unfold sched_capmask_of, state_of, in_use, state_of, sess. cbn. by rewrite Es.
  - split; [done|]. eapply calm_trans; [|exact Hc]. by apply calm_ext.
Qed.

(** ** One request to an endpoint of the kernel *)

(** Session [sid] holds the kernel's port [name] through handle [h], with
    nothing queued on it, and the kernel has memory for a message. *)
Record on_endpoint (k : K) (sid h : Z) (name : list byte) : Prop := {
  oe_port : exists g p, reaches k sid h g p /\ p_kernel_endpoint p = true /\ p_name p = name /\ ring_view p [];
  oe_heap : msg_ready (k_heap k);
  oe_sid : sid ≠ 0
}.


Lemma count_send_moved n k g p : moved k (count_send n k).2 g p p /\ k_heap (count_send n k).2 = k_heap k.
Proof.
  split; [|done]. split; try done. exists id. split; [done|]. cbn. by rewrite list_alter_id.
Qed.

(** The kernel queues its reply on the handle the request came through. *)
Lemma reply_queued k sid h g p frame :
  reaches k sid h g p -> ring_view p [] -> msg_ready (k_heap k) -> 0 < zlen frame <= MSG_MAX ->
  exists m, moved k (kernsvc_reply (mkRoute (mkbuf 16) sid h) frame k).2 g p (ring_put m p) /\ m_data m = frame
    /\ msg_ready (rt_free (m_ptr m) (k_heap (kernsvc_reply (mkRoute (mkbuf 16) sid h) frame k).2)).
Proof.
  intros Hr Hv Hm Hl. pose proof Hr as [Ho Hp]. destruct (msg_ready_cycle _ Hm) as (ptr & hp & E & Hnz & Hm2).
  assert (0 <= h) as Hh. { unfold port_of in Ho. destruct (Z.ltb_spec h 0); [|done]. by rewrite orb_true_r in Ho. }
  unfold kernsvc_reply. cbn [g_rname g_from_sid g_reply_h]. change (cstr16 (mkbuf 16)) with (@nil byte). cbv iota.
  rewrite (proj2 (Z.leb_le 0 h)) by done. unfold ports_kernel_enqueue. rewrite kbind. cbn [kget fst snd]. rewrite Ho.
  rewrite (proj2 (Z.eqb_neq (zlen frame) 0)), (proj2 (Z.ltb_ge _ _)) by lia. cbn [orb]. unfold enqueue. rewrite !kbind.
  cbn [kget fst snd]. rewrite Hp, (rv_qn _ _ Hv). change (MAX_Q <=? zlen []) with false. cbv iota. rewrite !kbind.
  unfold k_rt_malloc. rewrite E. cbn [fst snd]. rewrite (proj2 (Z.eqb_neq ptr 0)) by done. rewrite !kbind.
  exists (mkMsg ptr sid frame). split_and!; try done. split; try done. by exists (ring_put (mkMsg ptr sid frame)).
Qed.

(** The frame a request sends and the one the kernel sees. *)
Lemma dispatch_args u op seq payload : 0 <= op < 2 ^ 16 -> 0 <= seq < 2 ^ 16 ->
  let d := stamp u (FrameRequest op seq payload) in
  zlen d = 24 + zlen payload /\ Get16 d 0 = op /\ Get16 d 2 = seq /\ slice d 8 24 = mkbuf 16 /\ drop 24 d = payload.
Proof.
  intros Ho Hs d. unfold d, FrameRequest. rewrite stamped_frame. change (padName []) with (mkbuf 16). split_and!.
  - rewrite !zlen_app, !zlen_le_split. change (zlen (mkbuf 16)) with 16. lia.
  - fields. by apply u16_small.
  - fields. by apply u16_small.
  - rewrite (slice_skip (le_split 2 op) _ 8 24 6) by len_solve. rewrite (slice_skip (le_split 2 seq) _ 6 _ 4) by len_solve.
    rewrite (slice_skip (le_split 4 u) _ 4 _ 0) by len_solve. by rewrite slice_here by done.
  - rewrite !app_assoc. apply drop_app_length'. by rewrite !length_app, !length_le_split.
Qed.

(** From what the dispatcher does to what the client gets: [k1] is the kernel
    when it sends the reply [frame]. *)
Lemma direct_exchange clock c k sid h name op payload frame k1 :
  on_endpoint k sid h name -> 0 <= op < 2 ^ 16 -> zlen payload <= MSG_MAX - 24 -> 0 < budget c ->
  (kernsvc_dispatch name sid h (stamp (sched_uid_of k sid) (FrameRequest op (seq (bump c)) payload)) k).2
    = (kernsvc_reply (mkRoute (mkbuf 16) sid h) frame k1).2 ->
  links k1 = links k -> msg_ready (k_heap k1) -> 24 <= zlen frame <= MSG_MAX -> Get16 frame 2 = seq (bump c) ->
  exists k', @Request _ (session_calls clock sid) h op payload (c, k) = (Ok frame, (bump c, k'))
    /\ on_endpoint k' sid h name /\ core k' = core k1 /\ k_tab k' = k_tab k1.
Proof.
  intros [(g & p & Hr & Hke & Hn & Hv) _ Hsid] Hop Hpay Hb Hd [= Ep Eh] Hm Hl Hseq. subst name.
  pose proof (u16_range (seq c + 1) : 0 <= seq (bump c) < 2 ^ 16) as Hs.
  destruct (dispatch_args 0 op (seq (bump c)) payload Hop Hs) as (Hz & _ & E2 & _). rewrite zlen_stamp in Hz.
  set (req := FrameRequest op (seq (bump c)) payload) in *. pose proof (zlen_nonneg payload). unfold MSG_MAX in *.
  destruct (port_send_endpoint k sid h g p req Hr Hke Hsid) as (k2 & Es & E2'); [unfold MSG_MAX; lia|]. rewrite Hd in E2'.
  assert (reaches k1 sid h g p) as Hr1.
  { destruct Hr as [Ho Hp]. split; [by rewrite (port_of_ext k)|by rewrite (port_at_ext k)]. }
  destruct (reply_queued k1 sid h g p frame Hr1 Hv Hm) as (m & Hmv & Hdata & Hm2); [unfold MSG_MAX; lia|].
  set (kr := (kernsvc_reply _ frame k1).2) in *.
  destruct (count_send_moved (zlen req) kr g (ring_put m p)) as [Hcs Hch]. rewrite <-E2' in Hcs, Hch.
  pose proof (moved_trans _ _ _ _ _ _ _ (proj2 Hr1) Hmv Hcs) as Hmv2.
  pose proof (moved_reaches _ _ _ _ _ _ _ Hmv2 Hr1) as Hr2.
  assert (ring_view (ring_put m p) [m]) as Hv1 by (by apply (ring_put_view p [] m Hv)).
  destruct (port_recv_head k2 sid h g (ring_put m p) m [] MaxMsg Hr2 Hv1) as (k3 & Er & Hps & Hc & Ht & Hh3).
  assert (moved k2 k3 g (ring_put m p) (ring_take (ring_put m p))) as Hmv3 by (split; try done; by exists ring_take).
  exists k3. split_and!.
  - unfold Request, nextSeq, mbind, M_bind. cbn [fst snd]. change (mkClient (inboxName c) (inbox c) _ (Budget c)) with (bump c).
    fold req. unfold onW. cbn [snd fst]. unfold Call. rewrite bind_sys. cbn [k_PortSend session_calls]. rewrite Es. cbn [fst snd].
    change (0 =? StatusErr) with false. cbv iota. change (budget (bump c)) with (budget c).
    rewrite <-(Get16_stamp 0) by lia. rewrite E2. destruct (Z.to_nat (budget c)) as [|n] eqn:En; [lia|]. cbn [recv_loop].
    rewrite bind_sys. cbn [k_PortRecv session_calls]. rewrite Er, Hdata. cbn [fst snd].
    rewrite take_ge by (unfold MaxMsg, zlen in *; lia). unfold CanonicalHeaderLen.
    rewrite (proj2 (Z.ltb_lt 0 _)), (proj2 (Z.ltb_ge _ 24)), Hseq, Z.eqb_refl by lia. done.
  - split; [|by rewrite Hh3, Hch|done]. exists g, (ring_take (ring_put m p)).
    split; [by eapply moved_reaches|]. split; [done|]. split; [done|]. by apply (ring_take_view _ m).
  - rewrite Hc. apply (mv_core _ _ _ _ _ Hmv2).
  - rewrite Ht. apply (mv_tab _ _ _ _ _ Hmv2).
Qed.
End requests.
