(* ===== verification/Registry.v ===== *)
(** * Registry: the clients of the kernel's service ports

    Models [guests/lib/registry.go]: the calls of [RegistryClient],
    [PowerClient] and [DevmanClient].  Each frames a request with an empty
    reply-port name, sends it on the bound handle and reads the reply from the
    same handle; the state is the client and the machine below it. *)

From S2P Require Import Prelude Frame FsServer Guest FsClient.

Definition OpRegistryList : Z := 1.
Definition OpRegistryCaps : Z := 2.
Definition OpRegistryKill : Z := 3.
Definition OpRegistrySpawn : Z := 4.
Definition OpRegistryLogin : Z := 5.
Definition OpRegistrySetconf : Z := 6.
Definition OpRegistryAssignPCI : Z := 7.
Definition OpRegistrySysstat : Z := 8.
Definition OpRegistryLogdump : Z := 9.
Definition OpRegistryChcaps : Z := 10.
Definition OpRegistryKnobsGet : Z := 11.
Definition OpRegistryKnobsSet : Z := 12.
Definition OpDevmanEnum : Z := 1.
Definition OpPowerReboot : Z := 1.
Definition OpPowerOff : Z := 2.

(** [lib.Alive] on a state byte of LIST. *)
Definition Alive (state : Z) : bool := negb (state =? 0) && negb (state =? 3).

Record SessionInfo := mkInfo { si_Sid : Z; si_UID : Z; si_State : Z; si_Name : list byte; si_Source : Z }.
Record CapEntry := mkCap { ce_ID : Z; ce_Rights : Z }.
Record KnobInfo := mkKnob { ki_Value : Z; ki_Key : list byte }.
Record SysStatInfo := mkSys { ss_MemTotal : Z; ss_MemUsed : Z; ss_QuantumUs : Z; ss_PreemptOn : bool; ss_NCPUs : Z }.
Record LogChunk := mkChunk { lc_Total : Z; lc_Begin : Z; lc_Data : list byte }.
Record DeviceRec := mkDevRec { dr_Class : Z; dr_Inst : Z; dr_WinOff : Z }.

(** Records of [size] bytes at [off], as many of the [n] announced as the
    reply holds. *)
Fixpoint records {A} (n : nat) (size : Z) (parse : Z -> A) (rep : list byte) (off : Z) : list A :=
  match n with
  | O => []
  | S n' => if zlen rep <? off + size then [] else parse off :: records n' size parse rep (off + size)
  end.

Definition session_rec (rep : list byte) (off : Z) : SessionInfo :=
  mkInfo (Get32 rep off) (Get32 rep (off + 4)) (b2z (idx rep (off + 8)))
    (cstr16 (slice rep (off + 9) (off + 25))) (b2z (idx rep (off + 25))).
Definition cap_rec (rep : list byte) (off : Z) : CapEntry := mkCap (Get32 rep off) (Get64 rep (off + 4)).
Definition device_rec (rep : list byte) (off : Z) : DeviceRec :=
  mkDevRec (Get32 rep off) (Get32 rep (off + 4)) (Get64 rep (off + 8)).

Definition pad64 (s : list byte) : list byte := splice (mkbuf 64) 0 s.

(** The arguments of SPAWN, each ended by a NUL. *)
Definition argv_buf (args : list (list byte)) : list byte := concat (map (fun a => a ++ [Byte.x00]) args).

Definition spawn_payload (name path : list byte) (capmask : Z) (args : list (list byte)) : list byte :=
  let pl := mkbuf (86 + zlen (argv_buf args)) in
  let pl := splice pl 0 (padName name) in
  let pl := splice pl 16 (pad64 path) in
  let pl := Put32 pl 80 (u32 capmask) in
  let pl := Put16 pl 84 (u16 (zlen args)) in
  splice pl 86 (argv_buf args).

(** {char name[16], u32, u32} *)
Definition login_payload (name : list byte) (uid capmask : Z) : list byte :=
  Put32 (Put32 (splice (mkbuf 24) 0 (padName name)) 16 uid) 20 (u32 capmask).

Section Registry.
Context {W : Type} `{Kernel W}.

Definition bind_direct (name : list byte) : M W gerr (Client * Z) :=
  h ← sys (k_PortBind name);
  if h =? InvalidHandle then throw ErrBadHandle else mret (NewDirectClient h, h).

Definition BindRegistry : M W gerr (Client * Z) := bind_direct NameRegistry.
Definition BindPower : M W gerr (Client * Z) := bind_direct NamePower.
Definition BindDevman : M W gerr (Client * Z) := bind_direct NameDevman.

(** [r.SetBudget(n)] *)
Definition SetBudget (n : Z) : M (Client * W) gerr unit := modifyS (fun t => (setBudget n t.1, t.2)).

(** One request whose reply has at least [min] bytes. *)
Definition reply_of (rg op : Z) (pl : list byte) (min : Z) : M (Client * W) gerr (list byte) :=
  rep ← Request rg op pl;
  if zlen rep <? min then throw ErrShort else mret rep.

(** [if st := int32(...); st != 0 { return ErrRejected }] *)
Definition accepted (rep : list byte) : M (Client * W) gerr unit :=
  if i32 (Get32 rep 24) =? 0 then mret tt else throw ErrRejected.

Definition List (rg : Z) : M (Client * W) gerr (list SessionInfo) :=
  rep ← reply_of rg OpRegistryList [] 28;
  let n := Get32 rep 24 in
  _ ← go_make 40 n;
  mret (records (Z.to_nat n) 26 (session_rec rep) rep 28).

Definition Caps (rg sid : Z) : M (Client * W) gerr (list CapEntry) :=
  rep ← reply_of rg OpRegistryCaps (Put32 (mkbuf 4) 0 sid) 28;
  let n := Get32 rep 24 in
  _ ← go_make 16 n;
  mret (records (Z.to_nat n) 12 (cap_rec rep) rep 28).

Definition Kill (rg sid : Z) : M (Client * W) gerr Z :=
  rep ← reply_of rg OpRegistryKill (Put32 (mkbuf 4) 0 sid) 28;
  mret (i32 (Get32 rep 24)).

Definition Chcaps (rg targetSid clear set : Z) : M (Client * W) gerr Z :=
  rep ← reply_of rg OpRegistryChcaps (Put32 (Put32 (Put32 (mkbuf 12) 0 targetSid) 4 (u32 clear)) 8 (u32 set)) 28;
  mret (i32 (Get32 rep 24)).

Definition Login (rg : Z) (name : list byte) (uid capmask : Z) : M (Client * W) gerr unit :=
  rep ← reply_of rg OpRegistryLogin (login_payload name uid capmask) 28;
  accepted rep.

Definition SetConf (rg : Z) (key : list byte) (value : Z) : M (Client * W) gerr unit :=
  rep ← reply_of rg OpRegistrySetconf (Put64 (splice (mkbuf 24) 0 (padName key)) 16 value) 28;
  accepted rep.

(** [KnobKey] *)
Definition KnobKey (name : list byte) : option Z :=
  if bool_decide (name = bs "quantum_us") then Some 0
  else if bool_decide (name = bs "log_level") then Some 1
  else if bool_decide (name = bs "audit_mask") then Some 2
  else None.

(** The key is read up to the end of the reply: [cstr16(rep[36:])]. *)
Definition KnobsGet (rg idx : Z) : M (Client * W) gerr KnobInfo :=
  rep ← reply_of rg OpRegistryKnobsGet [z2b idx] (28 + 8 + 16);
  _ ← accepted rep;
  mret (mkKnob (Get64 rep 28) (cstr16 (drop 36 rep))).

Definition KnobsSet (rg idx val : Z) : M (Client * W) gerr unit :=
  rep ← reply_of rg OpRegistryKnobsSet (Put64 (splice (mkbuf 9) 0 [z2b idx]) 1 val) 28;
  accepted rep.

Definition AssignPCI (rg targetSid bus dev fn : Z) : M (Client * W) gerr unit :=
  rep ← reply_of rg OpRegistryAssignPCI ([z2b bus; z2b dev; z2b fn] ++ le_split 4 targetSid) 28;
  accepted rep.

Definition SysStat (rg : Z) : M (Client * W) gerr SysStatInfo :=
  rep ← reply_of rg OpRegistrySysstat [] (24 + 4 + 16 + 4 + 1 + 4);
  _ ← accepted rep;
  mret (mkSys (Get64 rep 28) (Get64 rep 36) (Get32 rep 44) (negb (b2z (idx rep 48) =? 0)) (Get32 rep 49)).

Definition LogDump (rg off : Z) : M (Client * W) gerr LogChunk :=
  rep ← reply_of rg OpRegistryLogdump (Put64 (mkbuf 8) 0 off) (24 + 4 + 16);
  _ ← accepted rep;
  mret (mkChunk (Get64 rep 28) (Get64 rep 36) (drop 44 rep)).

(** [LogAll]: the loop of dumps, bounded by fuel; the bytes and the error that
    ended it.  [None] when the fuel runs out. *)
Fixpoint log_loop (fuel : nat) (rg off : Z) (out : list byte) : M (Client * W) gerr (option (list byte * option gerr)) :=
  match fuel with
  | O => mret None
  | S f =>
      r ← attempt (LogDump rg off);
      match r with
      | inl e => mret (Some (out, Some e))
      | inr ch =>
          if zlen (lc_Data ch) =? 0 then mret (Some (out, None))
          else
            let out := out ++ lc_Data ch in
            let off := u64 (lc_Begin ch + zlen (lc_Data ch)) in
            if lc_Total ch <=? off then mret (Some (out, None)) else log_loop f rg off out
      end
  end.
Definition LogAll (fuel : nat) (rg : Z) : M (Client * W) gerr (option (list byte * option gerr)) := log_loop fuel rg 0 [].

Definition Spawn (rg : Z) (name path : list byte) (capmask : Z) (args : list (list byte)) : M (Client * W) gerr Z :=
  rep ← reply_of rg OpRegistrySpawn (spawn_payload name path capmask args) 28;
  let sid := Get32 rep 24 in
  if sid =? 0xFFFFFFFF then throw ErrSpawnDenied else mret sid.

(** ** The power and device endpoints *)

Definition power_send (p op : Z) : M (Client * W) gerr unit :=
  _ ← Request p op [];
  mret tt.
Definition Reboot (p : Z) : M (Client * W) gerr unit := power_send p OpPowerReboot.
Definition Off (p : Z) : M (Client * W) gerr unit := power_send p OpPowerOff.

Definition Enum (d : Z) : M (Client * W) gerr (list DeviceRec) :=
  rep ← reply_of d OpDevmanEnum [] 28;
  let n := Get32 rep 24 in
  if 64 <? n then throw ErrShort
  else mret (records (Z.to_nat n) 16 (device_rec rep) rep 28).
End Registry.
