(* ===== verification/RegistryFacts.v ===== *)
(** * RegistryFacts: the registry client over the kernel

    The client of [Registry] and the endpoint of [KernSvc] agree: what the
    client parses is what the kernel knows. *)

From S2P Require Import Prelude Frame FsServer KernHeap KernState KernPorts KernSched KernSvc KernCalls KernFacts KernSafety KernTheorems KernLink Guest FsClient FsLink FsBox SvcFacts Registry.

(** ** Records *)

Lemma records_map {A B} (enc : A -> list byte) (dec : A -> B) (parse : list byte -> Z -> B) size l : forall pre rep,
  0 <= size -> (forall x, x ∈ l -> zlen (enc x) = size) ->
  (forall x pre rest, x ∈ l -> parse (pre ++ enc x ++ rest) (zlen pre) = dec x) ->
  rep = pre ++ mjoin (map enc l) ->
  records (length l) size (parse rep) rep (zlen pre) = map dec l.
Proof.
  induction l as [|x l IH]; intros pre rep Hs Hl Hp Hrep; [done|]. subst rep. cbn [length records map].
  change (mjoin (enc x :: map enc l)) with (enc x ++ mjoin (map enc l)).
  assert (zlen (enc x) = size) as Hx by (apply Hl; left). pose proof (zlen_nonneg (mjoin (map enc l))).
  rewrite (proj2 (Z.ltb_ge _ _)) by (rewrite !zlen_app; lia). f_equal; [apply Hp; left|].
  assert (zlen pre + size = zlen (pre ++ enc x)) as -> by (rewrite zlen_app; lia).
  apply IH; [done|intros; apply Hl; by right|intros; apply Hp; by right|]. by rewrite app_assoc.
Qed.

(** A session whose fields have the widths of the C structure. *)
Definition session_fits (x : session) : Prop :=
  length (s_name x) = 16%nat /\ 0 <= s_uid x < 2 ^ 32 /\ 0 <= s_cap_source x < 256.

(** The record a client reads for the session in slot [i]. *)
Definition info_of (i : nat) (x : session) : SessionInfo :=
  mkInfo (Z.of_nat i) (s_uid x) (st_num (s_state x)) (cstr16 (take 15 (s_name x))) (s_cap_source x).

Definition in_use_slots (k : K) : list (nat * session) := filter (fun ix => s_state ix.2 ≠ S_FREE) (imap pair (k_sessions k)).

Lemma in_use_slots_lookup k i x : (i, x) ∈ in_use_slots k -> k_sessions k !! i = Some x /\ s_state x ≠ S_FREE.
Proof.
  unfold in_use_slots. rewrite list_elem_of_filter. cbn. intros [Hs Hin]. split; [|done].
  apply list_elem_of_lookup in Hin as [j Hj]. rewrite list_lookup_imap in Hj.
  destruct (k_sessions k !! j) eqn:E; [|done]. cbn in Hj. by injection Hj as -> ->.
Qed.

Lemma cstr16_snoc_nul s : cstr16 (s ++ [Byte.x00]) = cstr16 s.
Proof. induction s as [|c s IH]; cbn; [done|]. case_decide; [done|]. by rewrite IH. Qed.

Lemma idx_front (p q : list byte) c n : n = zlen p -> idx (p ++ [c] ++ q) n = c.
Proof. intros ->. unfold idx, zlen. rewrite Nat2Z.id, lookup_app_r, Nat.sub_diag by lia. done. Qed.

Lemma session_rec_skip pre q : session_rec (pre ++ q) (zlen pre) = session_rec q 0.
Proof.
  unfold session_rec. pose proof (zlen_nonneg pre).
  rewrite (Get32_skip pre q (zlen pre) 0), (Get32_skip pre q (zlen pre + 4) 4), (idx_skip pre q (zlen pre + 8) 8),
    (idx_skip pre q (zlen pre + 25) 25), (slice_skip pre q (zlen pre + 9) _ 9) by lia.
  do 2 f_equal. f_equal. lia.
Qed.

Lemma session_rec_parse k i x pre rest :
  (i < 12)%nat -> k_sessions k !! i = Some x -> s_state x ≠ S_FREE -> session_fits x ->
  zlen (list_rec k (slist_rec i x)) = 26
  /\ session_rec (pre ++ list_rec k (slist_rec i x) ++ rest) (zlen pre) = info_of i x.
Proof.
  intros Hi Hx Hst (Hn & Hu & Hsrc). unfold list_rec, slist_rec.
  assert (sched_cap_source k (Z.of_nat i) = s_cap_source x) as ->.
  { unfold sched_cap_source, in_use, state_of, sess. rewrite (proj2 (Z.ltb_ge (Z.of_nat i) 0)) by lia. rewrite Nat2Z.id, Hx. cbn.
    unfold MAX_SESSIONS. rewrite (proj2 (Z.ltb_lt _ _)), bool_decide_false by (done || lia). done. }
  set (name := take 15 (s_name x) ++ [Byte.x00]). assert (zlen name = 16) as Hz.
  { unfold name, zlen. by rewrite length_app, length_take, Hn. }
  assert (0 <= st_num (s_state x) < 256) as Hs by (destruct (s_state x); cbn; lia).
  split; [unfold name in *; autorewrite with zlen in *; cbn [app] in *; lia|].
  rewrite session_rec_skip. unfold session_rec, info_of. rewrite <-!app_assoc. f_equal.
  - rewrite Get32_here, u32_small by lia. done.
  - rewrite (Get32_skip _ _ _ 0), Get32_here, u32_small by (rewrite ?zlen_le_split; lia). done.
  - rewrite app_assoc, (idx_front _ _ (z2b (st_num (s_state x)))) by (rewrite !zlen_app, !zlen_le_split; lia).
    rewrite b2z_z2b, Z.mod_small by lia. done.
  - rewrite 2!app_assoc, slice_app_mid by (autorewrite with zlen; cbn [app]; lia).
    unfold name. apply cstr16_snoc_nul.
  - rewrite 3!app_assoc, idx_front by (autorewrite with zlen; cbn [app]; lia).
    rewrite b2z_z2b, Z.mod_small by lia. done.
Qed.

(** ** The session table, as a client sees it *)

Section listing.
Context {P : Platform} (clock : K -> Z).

Lemma listing_parse k l rep :
  (forall i x, (i, x) ∈ l -> (i < 12)%nat /\ k_sessions k !! i = Some x /\ s_state x ≠ S_FREE /\ session_fits x) ->
  rep = mjoin (map (list_rec k) (map (fun ix => slist_rec ix.1 ix.2) l)) ->
  forall hdr n, n = zlen hdr -> records (length l) 26 (session_rec (hdr ++ rep)) (hdr ++ rep) n = map (fun ix => info_of ix.1 ix.2) l.
Proof.
  intros Hl -> hdr n ->. rewrite map_map.
  apply (records_map (fun ix => list_rec k (slist_rec ix.1 ix.2)) (fun ix => info_of ix.1 ix.2) session_rec); [lia|..|done].
  - intros [i x] (? & ? & ? & ?)%Hl. by eapply (session_rec_parse k i x [] []).
  - intros [i x] pre rest (? & ? & ? & ?)%Hl. by eapply session_rec_parse.
Qed.

Lemma in_use_slots_short k : length (k_sessions k) = 12%nat -> (length (in_use_slots k) <= 12)%nat.
Proof.
  intros Hn. unfold in_use_slots. etransitivity; [apply length_filter|]. by rewrite length_imap, Hn.
Qed.

(** Listing the sessions through the registry client gives exactly the
    slots in use, each with its uid, state, name and the source of its
    capabilities; the call leaves the scheduler as it was and the connection
    ready for the next request. *)
Lemma List_exact k sid h c :
  on_endpoint k sid h (bs "registry") -> 0 < budget c ->
  length (k_sessions k) = 12%nat -> Forall session_fits (k_sessions k) ->
  exists k', @Registry.List _ (session_calls clock sid) h (c, k)
      = (Ok (map (fun ix => info_of ix.1 ix.2) (in_use_slots k)), (bump c, k'))
    /\ on_endpoint k' sid h (bs "registry") /\ core k' = core k /\ k_tab k' = k_tab k.
Proof.
  intros Hon Hb Hn Hfit. pose proof (u16_range (seq c + 1) : 0 <= seq (bump c) < 2 ^ 16) as Hs.
  pose proof (in_use_slots_short k Hn) as Hshort.
  set (l := in_use_slots k) in *. assert (sched_list k (Z.to_nat MAX_SESSIONS) = map (fun ix => slist_rec ix.1 ix.2) l) as El.
  { unfold sched_list. apply take_ge. rewrite length_map. done. }
  pose proof (body_list k) as Hbody. rewrite El in Hbody.
  set (recs := mjoin _) in Hbody. set (body := le_split 4 _ ++ recs) in Hbody.
  set (frame := kframe 1 (seq (bump c)) body).
  assert (zlen frame = 24 + zlen body) as Hz by (unfold frame, kframe; rewrite !zlen_app, !zlen_le_split; change (zlen (mkbuf 16)) with 16; lia).
  destruct (direct_exchange clock c k sid h (bs "registry") 1 [] frame (put_rbuf (splice (k_rbuf k) 0 frame) k)) as (k' & E & Hon' & Hc & Ht);
    try done.
  - destruct (dispatch_args (sched_uid_of k sid) 1 (seq (bump c)) []) as (Hz' & E0 & E2 & Er & Ep); [done..|].
    unfold kernsvc_dispatch. rewrite Hz', E0, E2, Er, Ep. change (24 + zlen [] <? 24) with false. cbv zeta iota.
    change (is_routine_poll 1) with true. change (streq (bs "registry") (bs "registry")) with true. cbv iota. rewrite kbind.
    cbn [mret KM_ret fst snd]. unfold registry_dispatch. rewrite kbind. cbn [kget fst snd]. unfold svc_list. rewrite kbind. cbn [kget fst snd].
    unfold respond. rewrite kbind. cbn [kmod fst snd]. by rewrite El.
  - apply Hon.
  - unfold MSG_MAX in *. lia.
  - unfold frame, kframe. fields. by apply u16_small.
  - exists k'. split; [|done]. unfold Registry.List, reply_of, mbind, M_bind. unfold OpRegistryList. rewrite E.
    rewrite (proj2 (Z.ltb_ge (zlen frame) 28)) by lia. cbn [mret M_ret]. cbv beta iota zeta.
    assert (Get32 frame 24 = zlen l) as ->.
    { unfold frame, kframe, body. fields. rewrite u32_small; unfold zlen in *; rewrite ?length_map; lia. }
    cbn [mret M_ret]. unfold go_make, zlen. rewrite (proj2 (Z.ltb_ge _ _)) by lia. rewrite Nat2Z.id.
    unfold mret, M_ret. do 2 f_equal. unfold frame, kframe, body. rewrite !app_assoc.
    apply listing_parse with (k := k); [|done|by rewrite !zlen_app, !zlen_le_split].
    intros i x (Hx & Hst)%in_use_slots_lookup. split_and!; try done.
    + apply lookup_lt_Some in Hx. lia.
    + by eapply Forall_lookup_1.
Qed.
End listing.
