(* ===== verification/GoText.v ===== *)
(** * GoText: digests, strings and numbers of the Go library

    First the digest of [crypto/sha256]: FIPS 180-4, on byte strings below 2^61 bytes; 32-bit words are integers. *)

From S2P Require Import Prelude Frame Paths FsServer.

Definition rotr (n x : Z) : Z := Z.lor (Z.shiftr x n) (u32 (Z.shiftl x (32 - n))).

Definition Ch (x y z : Z) : Z := Z.lxor (Z.land x y) (Z.land (Z.ldiff (Z.ones 32) x) z).
Definition Maj (x y z : Z) : Z := Z.lxor (Z.lxor (Z.land x y) (Z.land x z)) (Z.land y z).
Definition bsig0 (x : Z) : Z := Z.lxor (Z.lxor (rotr 2 x) (rotr 13 x)) (rotr 22 x).
Definition bsig1 (x : Z) : Z := Z.lxor (Z.lxor (rotr 6 x) (rotr 11 x)) (rotr 25 x).
Definition ssig0 (x : Z) : Z := Z.lxor (Z.lxor (rotr 7 x) (rotr 18 x)) (Z.shiftr x 3).
Definition ssig1 (x : Z) : Z := Z.lxor (Z.lxor (rotr 17 x) (rotr 19 x)) (Z.shiftr x 10).

(** The constants are fractional parts of roots of the first primes: square
    roots for the initial state, cube roots for the rounds. *)
Definition is_prime (p : Z) : bool :=
  forallb (fun d => negb (p mod d =? 0)) (map Z.of_nat (List.seq 2 (Z.to_nat p - 2))).
Definition first_primes : list Z := filter (fun p => is_prime p = true) (map Z.of_nat (List.seq 2 310)).

(** The integer cube root below [2 ^ k], bit by bit. *)
Fixpoint cube_root (k : nat) (x acc : Z) : Z :=
  match k with
  | O => acc
  | S k' =>
      let c := acc + 2 ^ Z.of_nat k' in
      cube_root k' x (if c ^ 3 <=? x then c else acc)
  end.

Definition sha_k : list Z := Eval vm_compute in map (fun p => u32 (cube_root 40 (p * 2 ^ 96) 0)) first_primes.
Definition sha_init : list Z := Eval vm_compute in map (fun p => u32 (Z.sqrt (p * 2 ^ 64))) (take 8 first_primes).

Definition be32 (v : Z) : list byte := rev (le_split 4 v).
Definition be64 (v : Z) : list byte := rev (le_split 8 v).

(** The message, a one bit, zeros, and the length in bits: a multiple of 64
    bytes. *)
Definition sha_pad (m : list byte) : list byte :=
  m ++ Byte.x80 :: mkbuf ((55 - zlen m) mod 64) ++ be64 (8 * zlen m).

Fixpoint words (n : nat) (b : list byte) : list Z :=
  match n with
  | O => []
  | S n' => le_combine (rev (take 4 b)) :: words n' (drop 4 b)
  end.

(** The message schedule, latest word first. *)
Fixpoint schedule (n : nat) (w : list Z) : list Z :=
  match n with
  | O => w
  | S n' =>
      let at_ i := default 0 (w !! i) in
      schedule n' (u32 (ssig1 (at_ 1%nat) + at_ 6%nat + ssig0 (at_ 14%nat) + at_ 15%nat) :: w)
  end.

Definition sha_round (st : list Z) (kw : Z * Z) : list Z :=
  match st with
  | [a; b; c; d; e; f; g; h] =>
      let t1 := u32 (h + bsig1 e + Ch e f g + kw.1 + kw.2) in
      let t2 := u32 (bsig0 a + Maj a b c) in
      [u32 (t1 + t2); a; b; c; u32 (d + t1); e; f; g]
  | _ => st
  end.

Definition sha_block (st : list Z) (blk : list byte) : list Z :=
  let w := rev (schedule 48 (rev (words 16 blk))) in
  zip_with (fun x y => u32 (x + y)) st (foldl sha_round st (combine sha_k w)).

Fixpoint sha_blocks (n : nat) (st : list Z) (b : list byte) : list Z :=
  match n with
  | O => st
  | S n' => sha_blocks n' (sha_block st (take 64 b)) (drop 64 b)
  end.

Definition Sum256 (m : list byte) : list byte :=
  let p := sha_pad m in
  concat (map be32 (sha_blocks (length p / 64) sha_init p)).

(** * Strings, numbers and digests

    The functions of [strings], [strconv] and [encoding/hex] that the
    configuration readers use, on byte strings; and [hex64] and [CapNames] of
    [guests/lib/kern.go].  White space is Go's [unicode.IsSpace], as the UTF-8
    sequences that encode it: no such sequence occurs inside another rune. *)

Definition newline : byte := Byte.x0a.
Definition space : byte := Byte.x20.

(** ** White space *)

Definition ascii_space (c : byte) : bool := (9 <=? b2z c) && (b2z c <=? 13) || (b2z c =? 32).

(** The length of the white space a string starts with: 0 when it starts with
    something else. *)
Definition space_at (s : list byte) : nat :=
  match s with
  | [] => 0%nat
  | c :: s1 =>
      if ascii_space c then 1%nat
      else
        match s1 with
        | [] => 0%nat
        | d :: s2 =>
            if (b2z c =? 0xC2) && ((b2z d =? 0x85) || (b2z d =? 0xA0)) then 2%nat
            else
              match s2 with
              | [] => 0%nat
              | e :: _ =>
                  let r := (b2z c * 256 + b2z d) * 256 + b2z e in
                  if (r =? 0xE19A80) || (0xE28080 <=? r) && (r <=? 0xE2808A) || (r =? 0xE280A8) || (r =? 0xE280A9)
                     || (r =? 0xE280AF) || (r =? 0xE2819F) || (r =? 0xE38080)
                  then 3%nat else 0%nat
              end
        end
  end.

Definition suffix_of (n : nat) (s : list byte) : list byte := drop (length s - n) s.

(** The length of the white space a string ends with. *)
Definition space_end (s : list byte) : nat :=
  if (1 <=? length s)%nat && (space_at (suffix_of 1 s) =? 1)%nat then 1%nat
  else if (2 <=? length s)%nat && (space_at (suffix_of 2 s) =? 2)%nat then 2%nat
  else if (3 <=? length s)%nat && (space_at (suffix_of 3 s) =? 3)%nat then 3%nat
  else 0%nat.

(** Each step removes at least one byte. *)
Fixpoint trim_left (fuel : nat) (s : list byte) : list byte :=
  match fuel with
  | O => s
  | S f => match space_at s with O => s | n => trim_left f (drop n s) end
  end.
Fixpoint trim_right (fuel : nat) (s : list byte) : list byte :=
  match fuel with
  | O => s
  | S f => match space_end s with O => s | n => trim_right f (take (length s - n) s) end
  end.

Definition TrimSpace (s : list byte) : list byte :=
  let s := trim_left (length s) s in trim_right (length s) s.

(** [strings.Fields]: [cur] is the field being read. *)
Definition push_field (cur : list byte) (l : list (list byte)) : list (list byte) :=
  match cur with [] => l | _ => cur :: l end.
Fixpoint fields_loop (fuel : nat) (cur s : list byte) : list (list byte) :=
  match fuel with
  | O => push_field cur []
  | S f =>
      match s with
      | [] => push_field cur []
      | c :: s' =>
          match space_at s with
          | O => fields_loop f (cur ++ [c]) s'
          | n => push_field cur (fields_loop f [] (drop n s))
          end
      end
  end.
Definition Fields (s : list byte) : list (list byte) := fields_loop (S (length s)) [] s.

(** ** Cutting *)

Fixpoint SplitN (n : nat) (s : list byte) (sep : byte) : list (list byte) :=
  match n with
  | O => []
  | S O => [s]
  | S n' => match IndexByte s sep with
            | None => [s]
            | Some i => take i s :: SplitN n' (drop (S i) s) sep
            end
  end.

(** ** Numbers *)

Definition digit (c : byte) : option Z :=
  let v := b2z c in
  if (48 <=? v) && (v <=? 57) then Some (v - 48)
  else if (97 <=? v) && (v <=? 122) then Some (v - 97 + 10)
  else if (65 <=? v) && (v <=? 90) then Some (v - 65 + 10)
  else None.

Fixpoint parse_digits (base v : Z) (s : list byte) : option Z :=
  match s with
  | [] => Some v
  | c :: s' =>
      match digit c with
      | Some d => if d <? base then parse_digits base (v * base + d) s' else None
      | None => None
      end
  end.

(** [strconv.ParseUint(s, base, bits)] for a base of 10 or 16; [None] is its
    error. *)
Definition ParseUint (s : list byte) (base bits : Z) : option Z :=
  match s with
  | [] => None
  | _ => match parse_digits base 0 s with
         | Some v => if v <? 2 ^ bits then Some v else None
         | None => None
         end
  end.

Definition hex_digit (d : Z) : byte := if d <? 10 then z2b (48 + d) else z2b (87 + d).

(** [hex.EncodeToString] *)
Definition EncodeToString (b : list byte) : list byte :=
  concat (map (fun c => [hex_digit (b2z c / 16); hex_digit (b2z c mod 16)]) b).

(** The last of 16 digits first. *)
Fixpoint hex64_loop (n : nat) (v : Z) (acc : list byte) : list byte :=
  match n with
  | O => acc
  | S n' => hex64_loop n' (Z.shiftr v 4) (hex_digit (Z.land v 15) :: acc)
  end.
Definition hex64 (v : Z) : list byte := hex64_loop 16 v [].

Definition capNames : list (list byte) :=
  [bs "kill"; bs "devman"; bs "power"; bs "focus"; bs "fs_admin"; bs "net_admin"; bs "spawn"; bs "conf"; bs "pci";
   bs "fb"; bs "doorbell"; bs "vmware"; bs "portbind"].
Definition CapNames (mask : Z) : list (list byte) :=
  let named := imap (fun i n => if Z.testbit mask (Z.of_nat i) then [n] else []) capNames in
  let rest := Z.ldiff mask (Z.ones 13) in
  concat named ++ (if rest =? 0 then [] else [bs "__0x" ++ hex64 rest]).
