(* ===== verification/Login.v ===== *)
(** * Login: the login service ([services/login/login.go])

    The user table and its parser, the password check, and the service: its
    start-up, the handler of an AUTH request, the shell it spawns and the
    registration of the user with the file service.  The state is the
    service's clients, reply ports and user table beside the machine. *)

From S2P Require Import Prelude Frame Paths FsServer Guest FsClient Registry GoText.

(** ** Users *)

Record User := mkUser { u_Name : list byte; u_UID : Z; u_Mask : Z; u_Salt : list byte; u_Hash : list byte }.

Definition CapFocus : Z := Z.shiftl 1 3.
Definition DefaultUsers : list User :=
  [mkUser (bs "admin") 0 CapAll [] [];
   mkUser (bs "u1") 1001 (Z.lor CapFocus CapFSAdmin) [] [];
   mkUser (bs "u2") 1002 (Z.lor CapFocus CapFSAdmin) [] []].

Definition splitSalted (s : list byte) : list byte * list byte :=
  match IndexByte s (Byte.x24) with
  | None => ([], s)
  | Some i => (take i s, drop (S i) s)
  end.

(** One line of /etc/users; [None] is a line that is skipped. *)
Definition parse_user (line : list byte) : option User :=
  let line := TrimSpace line in
  if bool_decide (line = []) || HasPrefix line (bs "#") then None
  else
    match SplitN 4 line (Byte.x3a) with
    | [name; uid; saltedHash; mask] =>
        match ParseUint uid 10 32 with
        | None => None
        | Some uid =>
            match ParseUint (TrimPrefix (TrimSpace mask) (bs "0x")) 16 64 with
            | None => None
            | Some mask =>
                let '(salt, hash) := splitSalted saltedHash in
                Some (mkUser name uid mask salt hash)
            end
        end
    | _ => None
    end.

Definition parseEtcUsers (text : list byte) : list User := omap parse_user (Split text newline).

Definition verifyPassword (u : User) (password : list byte) : bool :=
  bool_decide (u_Salt u = []) || bool_decide (EncodeToString (Sum256 (u_Salt u ++ password)) = u_Hash u).

Definition lookup_user (users : list User) (name : list byte) : option User :=
  head (filter (fun u => u_Name u = name) users).

(** The string and the offset behind it; both empty when it does not fit. *)
Definition lbyte (b : list byte) : list byte * Z :=
  match b with
  | [] => ([], 0)
  | c :: _ => let n := b2z c in if zlen b <? 1 + n then ([], 0) else (slice b 1 (1 + n), 1 + n)
  end.

(** ** The service *)

Definition opAuth : Z := 1.
Definition statusOK : Z := 0.
Definition statusBad : Z := -1.
Definition spawnNone : Z := 0xFFFFFFFF.

Definition appendStatus (rep : list byte) (status mask sid : Z) : list byte :=
  rep ++ Put32 (Put64 (Put32 (mkbuf 16) 0 (u32 status)) 4 mask) 12 sid.

(** The service's own state: the registry client and its handle, the reply
    ports, the cached console handle, the users, and the client of the file
    service if there is one. *)
Record LoginState := mkLogin {
  lg_reg : Client; lg_rg : Z; lg_book : ReplyBook; lg_conh : Z; lg_users : list User; lg_fsc : option (Client * Z)
}.
Definition set_reg (c : Client) (s : LoginState) : LoginState :=
  mkLogin c (lg_rg s) (lg_book s) (lg_conh s) (lg_users s) (lg_fsc s).
Definition set_book (b : ReplyBook) (s : LoginState) : LoginState :=
  mkLogin (lg_reg s) (lg_rg s) b (lg_conh s) (lg_users s) (lg_fsc s).
Definition set_conh (h : Z) (s : LoginState) : LoginState :=
  mkLogin (lg_reg s) (lg_rg s) (lg_book s) h (lg_users s) (lg_fsc s).
Definition set_users (l : list User) (s : LoginState) : LoginState :=
  mkLogin (lg_reg s) (lg_rg s) (lg_book s) (lg_conh s) l (lg_fsc s).
Definition set_fsc (f : option (Client * Z)) (s : LoginState) : LoginState :=
  mkLogin (lg_reg s) (lg_rg s) (lg_book s) (lg_conh s) (lg_users s) f.

Section Login.
Context {W : Type} `{Kernel W}.
(** The bound of the loop of [NewInboxClient]. *)
Variable fuel : nat.

Abbreviation LM A := (M (LoginState * W) gerr A).

Definition getL : LM LoginState := fun t => (Ok t.1, t).
Definition modL (f : LoginState -> LoginState) : LM unit := modifyS (fun t => (f t.1, t.2)).

(** A call of the registry client. *)
Definition onReg {A} (m : Z -> M (Client * W) gerr A) : LM A := fun t =>
  let '(r, (c, w)) := m (lg_rg t.1) (lg_reg t.1, t.2) in (r, (set_reg c t.1, w)).

Definition console_line (msg : list byte) : list byte := bs "[lg" ++ mkbuf 5 ++ bs "] " ++ msg.

Definition consoleOut (msg : list byte) : LM unit :=
  s ← getL;
  conh ← (if lg_conh s =? InvalidHandle then
            h ← onW (sys (k_PortBind NameConsole));
            _ ← modL (set_conh h);
            mret h
          else mret (lg_conh s));
  if negb (conh =? InvalidHandle) then
    _ ← onW (sys (k_PortSend conh (console_line msg)));
    mret tt
  else mret tt.

(** The reply port of a client, bound once. *)
Definition bind_reply (name : list byte) : LM Z :=
  s ← getL;
  r ← onW (book_Bind (lg_book s) name);
  _ ← modL (set_book r.2);
  mret r.1.

Definition registerFS (u : User) : LM unit :=
  fh ← onW (sys (k_PortBind NameFS));
  if fh =? InvalidHandle then throw (ErrNew (bs "fs: no fs service port"))
  else
    c ← onW (NewInboxClient fuel (bs "fsreg"));
    r ← attempt (fun t => let '(r, (_, w)) := InboxRequest fh OpFSRegister (register_payload (u_UID u) (u_Name u) (u_Mask u))
                                               (setBudget 2000 c, t.2) in (r, (t.1, w)));
    match r with
    | inl e =>
        _ ← consoleOut (bs "fsreg failed: " ++ err_text e ++ [newline]);
        throw e
    | inr _ => mret tt
    end.

Definition doSpawn (shell : list byte) (u : User) : LM Z :=
  let mask := Z.lor (u_Mask u) CapPortBind in
  r ← attempt (onReg (fun rg => Spawn rg shell shell mask [bs "/home/" ++ u_Name u]));
  match r with
  | inl _ => mret spawnNone
  | inr sid =>
      _ ← attempt (onReg (fun rg => Login rg shell (u_UID u) mask));
      mret sid
  end.

Fixpoint focus_loop (n : nat) : M W gerr unit :=
  match n with
  | O => mret tt
  | S n' =>
      sh ← sys (k_PortBind NameShell);
      if negb (sh =? InvalidHandle) then sys (k_FocusSet sh)
      else
        _ ← sys k_Yield;
        focus_loop n'
  end.
Definition focusShell : M W gerr unit := focus_loop 5000.

(** The accepted branch of [kernAuth], up to the reply. *)
Definition accept_user (hdr : HeaderView) (shell : list byte) (u : User) (rep : list byte) : LM (list byte) :=
  sid ← doSpawn shell u;
  _ ← attempt (onReg (fun rg => Login rg (RNam hdr) (u_UID u) (Z.lor (u_Mask u) CapPortBind)));
  _ ← onW focusShell;
  r ← attempt (registerFS u);
  _ ← match r with
      | inl e => consoleOut (bs "fs registration failed for " ++ u_Name u ++ bs ": " ++ err_text e
                               ++ bs " (relative paths will be denied)" ++ [newline])
      | inr _ => mret tt
      end;
  mret (appendStatus rep statusOK (u_Mask u) sid).

(** The user an AUTH payload names and proves to be. *)
Definition authenticate (users : list User) (payload : list byte) : option User :=
  let '(name, n2) := lbyte payload in
  let '(pass, _) := lbyte (drop (Z.to_nat n2) payload) in
  match lookup_user users name with
  | None => None
  | Some u => if u_Mask u =? 0 then None else if negb (verifyPassword u pass) then None else Some u
  end.

Definition kernAuth (shell req : list byte) : LM unit :=
  match ParseHeader req with
  | None => mret tt
  | Some hdr =>
      if negb (Op hdr =? opAuth) || bool_decide (RNam hdr = []) then mret tt
      else
        r ← attempt (bind_reply (RNam hdr));
        match r with
        | inl _ => mret tt
        | inr rh =>
            let rep := Put16 (Put16 (mkbuf CanonicalHeaderLen) 0 (Op hdr)) 2 (Seq hdr) in
            s ← getL;
            rep ← match authenticate (lg_users s) (drop 24 req) with
                  | None => mret (appendStatus rep statusBad 0 spawnNone)
                  | Some u => accept_user hdr shell u rep
                  end;
            _ ← onW (sys (k_PortSend rh rep));
            mret tt
        end
  end.

(** ** Reading the user table *)

(** A read of the table through the file client. *)
Definition read_table (f : Client * Z) : LM (list byte * option gerr) := fun t =>
  let '(r, (c', w)) := ReadFile f.2 (bs "/etc/users") 0 8192 (f.1, t.2) in (r, (set_fsc (Some (c', f.2)) t.1, w)).

Definition readUsers : LM (list User) :=
  s ← getL;
  match lg_fsc s with
  | None => throw (ErrNew (bs "login: no fs client"))
  | Some f =>
      r ← read_table f;
      match r.2 with
      | None => mret (parseEtcUsers r.1)
      | Some e => throw e
      end
  end.

(** The table is replaced by a successful, non-empty read. *)
Definition reload : LM bool :=
  r ← attempt readUsers;
  match r with
  | inr (u :: l) => _ ← modL (set_users (u :: l)); mret true
  | _ => mret false
  end.

(** ** [Serve] *)

(** The loop that owns or binds "login"; fuel as above. *)
Fixpoint login_port (n : nat) (h : Z) : M W gerr Z :=
  if h =? InvalidHandle then
    match n with
    | O => panic
    | S n' =>
        h ← sys (k_PortBind NameLogin);
        if h =? InvalidHandle then
          _ ← sys k_Yield;
          login_port n' h
        else mret h
    end
  else mret h.

Fixpoint bind_fs (n : nat) : M W gerr (option (Client * Z)) :=
  match n with
  | O => mret None
  | S n' =>
      r ← attempt (BindFS fuel (bs "login"));
      match r with
      | inr f => mret (Some f)
      | inl _ =>
          _ ← sys k_Yield;
          bind_fs n'
      end
  end.

(** Start-up in production: no users given, so the table comes from the file
    service if it can be bound and read, and otherwise from [DefaultUsers]. *)
Definition load_table : LM unit :=
  ok ← reload;
  if (ok : bool) then
    s ← getL;
    consoleOut (bs "loaded " ++ uitoa (zlen (lg_users s)) ++ bs " users from /etc/users" ++ [newline])
  else
    _ ← modL (set_users DefaultUsers);
    consoleOut (bs "using default user table" ++ [newline]).

(** The state of the service once [fsc] is bound or given up. *)
Definition fresh_login (reg : Client * Z) (fsc : option (Client * Z)) : LoginState :=
  mkLogin (setBudget 5000 reg.1) reg.2 ∅ InvalidHandle []
    (match fsc with Some (c, fh) => Some (setBudget 500 c, fh) | None => None end).

Definition start : M W gerr (Z * LoginState) :=
  h0 ← sys (k_PortCreate NameLogin);
  h ← login_port fuel h0;
  reg ← BindRegistry;
  fsc ← bind_fs 300;
  s ← run_from (fresh_login reg fsc) load_table;
  mret (h, s).

(** One round of the main loop. *)
Definition serve_auth (h : Z) : LM unit :=
  r ← onW (sys (k_PortRecv h MaxMsg));
  let '(n, buf) := r in
  _ ← (if 8 <? n then
         _ ← reload;
         kernAuth NameShell buf
       else mret tt);
  if n =? 0 then onW (sys k_Yield) else mret tt.
End Login.
