(* ===== verification/Supervisor.v ===== *)
(** * Supervisor: the init service ([services/init/init.go])

    The parsers of init.conf and kernel.conf, and the supervisor: boot, the
    sweep that respawns dead services, and the control requests of
    [guests/lib/initctl.go].  The state is the supervisor's record beside the
    machine; the services are a list in configuration order, and a [*svcState]
    is an index into it.  Log lines are dropped, as the production [Log] does.

    Go ranges over the knob map in an order of its own: [map_order] stands for
    it.  [quote] is [strconv.Quote], which only error texts use. *)

From S2P Require Import Prelude Frame Paths FsServer Guest FsClient Registry GoText.

(** ** Configuration *)

Record Service := mkService { sv_Name : list byte; sv_Path : list byte; sv_Capmask : Z; sv_Respawn : bool }.

Inductive conf_error :=
  | WantFields (ln : Z)
  | BadCapmask (ln : Z) (field : list byte)
  | BadPolicy (ln : Z) (field : list byte).

Definition conf_error_text (quote : list byte -> list byte) (e : conf_error) : list byte :=
  match e with
  | WantFields ln => bs "init.conf:" ++ uitoa ln ++ bs ": want <name> <path> <capmask> [respawn]"
  | BadCapmask ln f => bs "init.conf:" ++ uitoa ln ++ bs ": bad capmask " ++ quote f
  | BadPolicy ln f => bs "init.conf:" ++ uitoa ln ++ bs ": bad policy " ++ quote f
  end.

(** A blank line or a comment. *)
Definition skipped (line : list byte) : bool := bool_decide (line = []) || HasPrefix line (bs "#").

Definition parse_service (ln : Z) (fields : list (list byte)) : outcome conf_error Service :=
  match fields with
  | name :: path :: cap :: rest =>
      match ParseUint (TrimPrefix cap (bs "0x")) 16 64 with
      | None => Err (BadCapmask ln cap)
      | Some mask =>
          match rest with
          | [] => Ok (mkService name path mask true)
          | policy :: _ =>
              if bool_decide (policy = bs "respawn=yes") then Ok (mkService name path mask true)
              else if bool_decide (policy = bs "respawn=no") then Ok (mkService name path mask false)
              else Err (BadPolicy ln policy)
          end
      end
  | _ => Err (WantFields ln)
  end.

(** [ln] counts from 0. *)
Fixpoint conf_lines (ln : Z) (lines : list (list byte)) : outcome conf_error (list Service) :=
  match lines with
  | [] => Ok []
  | raw :: lines =>
      let line := TrimSpace raw in
      if skipped line then conf_lines (ln + 1) lines
      else
        s ← parse_service (ln + 1) (Fields line);
        l ← conf_lines (ln + 1) lines;
        mret (s :: l)
  end.
Definition ParseConf (text : list byte) : outcome conf_error (list Service) := conf_lines 0 (Split text newline).

(** The last value of a key wins. *)
Definition knob_line (raw : list byte) (knobs : gmap (list byte) (list byte)) : gmap (list byte) (list byte) :=
  let line := TrimSpace raw in
  if skipped line then knobs
  else
    match IndexByte line (Byte.x3d) with
    | Some (S i) => <[TrimSpace (take (S i) line) := TrimSpace (drop (S (S i)) line)]> knobs
    | _ => knobs
    end.
Definition ParseKnobs (text : list byte) : gmap (list byte) (list byte) :=
  foldl (fun knobs raw => knob_line raw knobs) ∅ (Split text newline).

(** ** The supervisor *)

Definition maxSpawnFails : Z := 5.
Definition defaultPollEvery : Z := 10000.
Definition listSaturationCap : Z := 12.

Record svcState := mkSvc { st_svc : Service; st_sid : Z; st_fails : Z; st_spawned : bool }.

Record supervisor := mkSup {
  sp_reg : Client; sp_rg : Z; sp_states : list svcState; sp_book : ReplyBook; sp_initH : Z; sp_knobs : list byte;
  sp_fs : option (Client * Z)
}.
Definition set_sreg (c : Client) (s : supervisor) : supervisor :=
  mkSup c (sp_rg s) (sp_states s) (sp_book s) (sp_initH s) (sp_knobs s) (sp_fs s).
Definition set_states (l : list svcState) (s : supervisor) : supervisor :=
  mkSup (sp_reg s) (sp_rg s) l (sp_book s) (sp_initH s) (sp_knobs s) (sp_fs s).
Definition set_sbook (b : ReplyBook) (s : supervisor) : supervisor :=
  mkSup (sp_reg s) (sp_rg s) (sp_states s) b (sp_initH s) (sp_knobs s) (sp_fs s).
Definition set_sfs (f : option (Client * Z)) (s : supervisor) : supervisor :=
  mkSup (sp_reg s) (sp_rg s) (sp_states s) (sp_book s) (sp_initH s) (sp_knobs s) f.

(** [alive[si.Sid] = lib.Alive(si.State)] for each record of the list. *)
Definition alive_map (l : list SessionInfo) : gmap Z bool :=
  foldl (fun m si => <[si_Sid si := Alive (si_State si)]> m) ∅ l.
Definition is_alive (alive : gmap Z bool) (sid : Z) : bool := default false (alive !! sid).

Definition NameInit : list byte := bs "init".
Definition InitOK : Z := 0.
Definition InitNotFound : Z := 1.
Definition InitBadName : Z := 2.
Definition InitUnavailable : Z := 4.

(** [SplitPolicyPayload]: the name before the first NUL, which the flag
    follows as the last byte. *)
Definition SplitPolicyPayload (pl : list byte) : option (list byte * bool) :=
  match IndexByte pl Byte.x00 with
  | None => None
  | Some i =>
      match drop (S i) pl with
      | [c] => if b2z c =? 49 then Some (take i pl, true)
               else if b2z c =? 48 then Some (take i pl, false) else None
      | _ => None
      end
  end.

Section Supervisor.
Context {W : Type} `{Kernel W}.
Variables (fuel : nat) (map_order : gmap (list byte) (list byte) -> list (list byte * list byte)).
Variable quote : list byte -> list byte.

Abbreviation SM A := (M (supervisor * W) gerr A).

Definition getSup : SM supervisor := fun t => (Ok t.1, t).
Definition modSup (f : supervisor -> supervisor) : SM unit := modifyS (fun t => (f t.1, t.2)).
Definition onSupReg {A} (m : Z -> M (Client * W) gerr A) : SM A := fun t =>
  let '(r, (c, w)) := m (sp_rg t.1) (sp_reg t.1, t.2) in (r, (set_sreg c t.1, w)).

(** The service at index [i], and an assignment to its fields. *)
Definition getSvc (i : nat) : SM svcState :=
  s ← getSup;
  match sp_states s !! i with Some st => mret st | None => panic end.
Definition updSvc (i : nat) (f : svcState -> svcState) : SM unit :=
  modSup (fun s => set_states (alter f i (sp_states s)) s).

Definition spawn (i : nat) : SM unit :=
  st ← getSvc i;
  if maxSpawnFails <=? st_fails st then mret tt
  else
    r ← attempt (onSupReg (fun rg => Spawn rg (sv_Name (st_svc st)) (sv_Path (st_svc st)) (sv_Capmask (st_svc st)) []));
    match r with
    | inl _ => updSvc i (fun st => mkSvc (st_svc st) (st_sid st) (st_fails st + 1) (st_spawned st))
    | inr sid => updSvc i (fun st => mkSvc (st_svc st) sid 0 true)
    end.

Definition unspawn (st : svcState) : svcState := mkSvc (st_svc st) (st_sid st) (st_fails st) false.

(** The body of the loop of [sweep] for one service. *)
Definition sweep_one (alive : gmap Z bool) (i : nat) : SM unit :=
  st ← getSvc i;
  if negb (sv_Respawn (st_svc st)) then mret tt
  else if st_spawned st then
    if is_alive alive (st_sid st) then mret tt
    else
      _ ← updSvc i unspawn;
      spawn i
  else if st_fails st =? 0 then mret tt
  else spawn i.

Fixpoint each_svc (n i : nat) (body : nat -> SM unit) : SM unit :=
  match n with
  | O => mret tt
  | S n' => _ ← body i; each_svc n' (S i) body
  end.

Definition sweep : SM unit :=
  r ← attempt (onSupReg List);
  match r with
  | inl _ => mret tt
  | inr list_ =>
      if listSaturationCap <=? zlen list_ then mret tt
      else
        s ← getSup;
        each_svc (length (sp_states s)) 0 (sweep_one (alive_map list_))
  end.

Fixpoint apply_each (l : list (list byte * list byte)) : SM unit :=
  match l with
  | [] => mret tt
  | (key, val) :: l =>
      _ ← match ParseUint val 10 64 with
          | None => mret tt
          | Some num => _ ← attempt (onSupReg (fun rg => SetConf rg key num)); mret tt
          end;
      apply_each l
  end.
Definition applyKnobs (text : list byte) : SM unit :=
  if bool_decide (text = []) then mret tt else apply_each (map_order (ParseKnobs text)).

(** ** Control requests *)

Definition byName (states : list svcState) (name : list byte) : option nat :=
  fst <$> list_find (fun st => sv_Name (st_svc st) = name) states.

Definition restart (i : nat) : SM unit :=
  st ← getSvc i;
  _ ← (if st_spawned st then
         _ ← attempt (onSupReg (fun rg => Kill rg (st_sid st)));
         updSvc i unspawn
       else mret tt);
  _ ← updSvc i (fun st => mkSvc (st_svc st) (st_sid st) 0 (st_spawned st));
  spawn i.

(** The lazily bound reader of [fsReadFile]; 4,096-byte reads until a short
    one.  Fuel bounds the reads. *)
Definition fs_client : SM (Client * Z) :=
  s ← getSup;
  match sp_fs s with
  | Some f => mret f
  | None =>
      f ← onW (BindFS fuel (bs "init"));
      let f := (setBudget 20000 f.1, f.2) in
      _ ← modSup (set_sfs (Some f));
      mret f
  end.
Definition fs_read (f : Client * Z) (path : list byte) (off : Z) : SM (list byte * option gerr) := fun t =>
  let '(r, (c', w)) := ReadFile f.2 path off 4096 (f.1, t.2) in (r, (set_sfs (Some (c', f.2)) t.1, w)).
Fixpoint read_all (n : nat) (path : list byte) (off : Z) (data : list byte) : SM (list byte) :=
  match n with
  | O => panic
  | S n' =>
      f ← fs_client;
      r ← fs_read f path off;
      match r with
      | (_, Some e) => throw e
      | (buf, None) =>
          if zlen buf =? 0 then mret data
          else if zlen buf <? 4096 then mret (data ++ buf)
          else read_all n' path (off + zlen buf) (data ++ buf)
      end
  end.
Definition readFile (path : list byte) : SM (list byte) := read_all fuel path 0 [].

(** The diff of a new configuration, service by service; the names kept. *)
Fixpoint adopt (svcs : list Service) : SM unit :=
  match svcs with
  | [] => mret tt
  | svc :: svcs =>
      s ← getSup;
      _ ← match byName (sp_states s) (sv_Name svc) with
          | Some i => updSvc i (fun st => mkSvc (mkService (sv_Name (st_svc st)) (sv_Path svc) (sv_Capmask svc) (sv_Respawn svc))
                                            (st_sid st) (st_fails st) (st_spawned st))
          | None =>
              _ ← modSup (fun s => set_states (sp_states s ++ [mkSvc svc 0 0 false]) s);
              spawn (length (sp_states s))
          end;
      adopt svcs
  end.

Definition set_respawn (b : bool) (st : svcState) : svcState :=
  mkSvc (mkService (sv_Name (st_svc st)) (sv_Path (st_svc st)) (sv_Capmask (st_svc st)) b)
    (st_sid st) (st_fails st) (st_spawned st).

Definition drop_missing (svcs : list Service) (st : svcState) : svcState :=
  if existsb (fun v => bool_decide (sv_Name v = sv_Name (st_svc st))) svcs then st else set_respawn false st.

(** The respawn loop at the end of a reload. *)
Definition revive (alive : gmap Z bool) (i : nat) : SM unit :=
  st ← getSvc i;
  if negb (sv_Respawn (st_svc st)) || negb (st_spawned st) then mret tt
  else if is_alive alive (st_sid st) then mret tt
  else
    _ ← updSvc i (fun st => mkSvc (st_svc st) (st_sid st) 0 false);
    spawn i.

Definition reloadInitconf : SM (outcome conf_error Z) :=
  text ← readFile (bs "/etc/init.conf");
  match ParseConf text with
  | Err e => mret (Err e)
  | Panic => panic
  | Ok svcs =>
      _ ← adopt svcs;
      _ ← modSup (fun s => set_states (map (drop_missing svcs) (sp_states s)) s);
      r ← attempt (onSupReg List);
      _ ← match r with
          | inl _ => mret tt
          | inr l => s ← getSup; each_svc (length (sp_states s)) 0 (revive (alive_map l))
          end;
      mret (Ok (zlen svcs))
  end.

Definition bad_name (name : list byte) : bool := bool_decide (name = []) || (15 <? zlen name).

Definition handleInitctl (subop : Z) (pl : list byte) : SM (Z * list byte) :=
  if subop =? 1 then
    if bad_name pl then mret (InitBadName, bs "bad service name")
    else
      s ← getSup;
      match byName (sp_states s) pl with
      | None => mret (InitNotFound, pl)
      | Some i =>
          _ ← restart i;
          st ← getSvc i;
          mret (InitOK, bs "sid=" ++ uitoa (st_sid st))
      end
  else if subop =? 2 then
    r ← attempt reloadInitconf;
    match r with
    | inl _ => mret (InitUnavailable, bs "no conf source")
    | inr (Ok n) => mret (InitOK, uitoa n ++ bs " services")
    | inr (Err e) => mret (InitBadName, conf_error_text quote e)
    | inr Panic => panic
    end
  else if subop =? 3 then
    s ← getSup;
    _ ← applyKnobs (sp_knobs s);
    mret (InitOK, bs "knobs applied")
  else if subop =? 4 then
    match SplitPolicyPayload pl with
    | None => mret (InitBadName, bs "want name\x00[01]")
    | Some (name, yes) =>
        if bad_name name then mret (InitBadName, bs "want name\x00[01]")
        else
          s ← getSup;
          match byName (sp_states s) name with
          | None => mret (InitNotFound, name)
          | Some i =>
              _ ← updSvc i (set_respawn yes);
              mret (InitOK, bs "respawn=" ++ (if yes then bs "yes" else bs "no"))
          end
    end
  else mret (InitBadName, bs "unknown subop").

Definition bind_ctl_reply (name : list byte) : SM Z :=
  s ← getSup;
  r ← onW (book_Bind (sp_book s) name);
  _ ← modSup (set_sbook r.2);
  mret r.1.

(** At most four datagrams a turn. *)
Fixpoint poll_batch (n : nat) (h : Z) : SM unit :=
  match n with
  | O => mret tt
  | S n' =>
      r ← onW (sys (k_PortRecv h MaxMsg));
      let '(len, buf) := r in
      if len <=? 0 then mret tt
      else
        match ParseHeader buf with
        | None => poll_batch n' h
        | Some hdr =>
            if bool_decide (RNam hdr = []) then poll_batch n' h
            else
              b ← attempt (bind_ctl_reply (RNam hdr));
              match b with
              | inl _ => poll_batch n' h
              | inr rh =>
                  a ← handleInitctl (Op hdr) (drop 24 buf);
                  let rep := mkbuf (CanonicalHeaderLen + 4) in
                  let rep := Put32 (Put16 (Put16 rep 0 (Op hdr)) 2 (Seq hdr)) CanonicalHeaderLen a.1 ++ a.2 in
                  _ ← onW (sys (k_PortSend rh rep));
                  poll_batch n' h
              end
        end
  end.
Definition pollInitctl : SM unit :=
  s ← getSup;
  if sp_initH s =? InvalidHandle then mret tt else poll_batch 4 (sp_initH s).

(** ** [Run] *)

Definition boot (services : list Service) (knobs : list byte) : M W gerr supervisor :=
  reg ← BindRegistry;
  h0 ← sys (k_PortCreate NameInit);
  initH ← (if negb (h0 =? InvalidHandle) then mret h0 else sys (k_PortBind NameInit));
  let sup := mkSup (setBudget 5000 reg.1) reg.2 (map (fun s => mkSvc s 0 0 false) services) ∅ initH knobs None in
  run_from sup (_ ← applyKnobs knobs; each_svc (length services) 0 spawn).

(** One turn of the main loop; [sweeps] counts the turns. *)
Definition run_once (poll sweeps : Z) : SM Z :=
  _ ← pollInitctl;
  let sweeps := sweeps + 1 in
  _ ← (if sweeps mod poll =? 0 then sweep else mret tt);
  _ ← onW (sys k_Yield);
  mret sweeps.
End Supervisor.

(** ** The client of the control port ([guests/lib/initctl.go]) *)

Definition InitAlready : Z := 3.
Definition InitSubRestart : Z := 1.
Definition InitSubReload : Z := 2.
Definition InitSubApplyKnobs : Z := 3.
Definition InitSubPolicy : Z := 4.

Definition InitStatusText (st : Z) : list byte :=
  if st =? InitOK then bs "ok"
  else if st =? InitNotFound then bs "not found"
  else if st =? InitBadName then bs "bad name"
  else if st =? InitAlready then bs "already"
  else if st =? InitUnavailable then bs "unavailable"
  else bs "status=" ++ uitoa st.

Definition boolByte (yes : bool) : byte := if yes then Byte.x31 else Byte.x30.

Section InitClient.
Context {W : Type} `{Kernel W}.

Definition BindInit (fuel : nat) : M W gerr (Client * Z) :=
  h ← sys (k_PortBind NameInit);
  if h =? InvalidHandle then throw ErrBadHandle
  else
    c ← NewInboxClient fuel (bs "shinit");
    mret (c, h).

Definition call (h subop : Z) (payload : list byte) : M (Client * W) gerr (Z * list byte) :=
  rep ← InboxRequest h subop payload;
  if zlen rep <? CanonicalHeaderLen + 4 then throw ErrShort
  else mret (Get32 rep CanonicalHeaderLen, drop 28 rep).

Definition Restart (h : Z) (svc : list byte) : M (Client * W) gerr (Z * list byte) := call h InitSubRestart svc.
Definition Reload (h : Z) : M (Client * W) gerr (Z * list byte) := call h InitSubReload [].
Definition ApplyKnobs (h : Z) : M (Client * W) gerr (Z * list byte) := call h InitSubApplyKnobs [].
Definition RespawnPolicy (h : Z) (svc : list byte) (yes : bool) : M (Client * W) gerr (Z * list byte) :=
  call h InitSubPolicy (svc ++ [Byte.x00; boolByte yes]).
End InitClient.
