(* ===== verification/SweepFacts.v ===== *)
(** * SweepFacts: what the init service does to the system

    Theorems about the supervisor of [Supervisor], some of them over the
    kernel. *)

From S2P Require Import Prelude Frame Paths FsServer FsPolicy KernHeap KernState KernPorts KernSched.
From S2P Require Import KernSvc KernCalls KernFacts KernSafety KernTheorems KernLink Guest FsClient FsLink.
From S2P Require Import FsBox Registry GoText Supervisor SvcFacts RegistryFacts.

(** ** A reply that is a request *)

Lemma findi_alter {A} (f : A -> bool) (g : A -> A) i l x :
  l !! i = Some x -> f (g x) = f x -> findi f (alter g i l) = findi f l.
Proof.
  revert i. induction l as [|y l IH]; intros [|i] Hx Hf; cbn in *; try done.
  - injection Hx as ->. by rewrite Hf.
  - by rewrite IH.
Qed.

Lemma moved_findi k k' g p p' name : moved k k' g p p' -> port_at k g = Some p ->
  findi (has_name name) (k_ports k') = findi (has_name name) (k_ports k).
Proof.
  intros [_ _ (f & <- & ->) Hu Hn _] Hp. unfold port_at in Hp. destruct (g <? 0); [done|]. cbn.
  apply (findi_alter _ _ _ _ p Hp). unfold has_name. by rewrite Hu, Hn.
Qed.

Section deputy.
Context {P : Platform}.
Variables (clock : K -> Z) (isid : Z) (fuel : nat).
Variables (map_order : gmap (list byte) (list byte) -> list (list byte * list byte)) (quote : list byte -> list byte).

#[local] Instance init_calls : Kernel K := session_calls clock isid.

(** The service's answer to a control request has the layout of a reply. *)
Lemma ctl_reply_eq op seq st detail :
  Put32 (Put16 (Put16 (mkbuf (CanonicalHeaderLen + 4)) 0 op) 2 seq) CanonicalHeaderLen st ++ detail
  = le_split 2 op ++ le_split 2 seq ++ mkbuf 20 ++ le_split 4 st ++ detail.
Proof.
  rewrite !Put16_split, Put32_split. change (CanonicalHeaderLen + 4) with 28. change CanonicalHeaderLen with 24.
  rewrite (mkbuf_app0 28). repeat (rewrite (splice_frontier _ (le_split 2 _)) by len_solve; rewrite ?app_assoc).
  rewrite !zlen_le_split. change (mkbuf (28 - Z.of_nat 2 - Z.of_nat 2)) with (mkbuf 20 ++ mkbuf 4).
  rewrite app_assoc, (splice_frontier _ (le_split 4 _)) by len_solve.
  rewrite zlen_le_split. change (mkbuf (4 - Z.of_nat 4)) with (@nil byte). by rewrite app_nil_r, <- !app_assoc.
Qed.

(** One control request, up to the reply: the service binds the name the
    client wrote in the header and sends its answer there, with the client's
    [op], as itself. *)
Lemma poll_one n hi sup k k2 uid op seq rname payload gp h st detail sup' :
  port_recv isid hi MaxMsg k = ((24 + zlen payload, stamp uid (FrameCanonical op seq rname payload)), k2) ->
  0 <= op < 2 ^ 16 -> 0 <= seq < 2 ^ 16 -> 0 <= uid < 2 ^ 32 -> 0 < zlen rname <= 16 -> Byte.x00 ∉ rname ->
  sp_book sup !! rname = None -> may_bind k2 isid rname -> findi (has_name rname) (k_ports k2) = Some gp ->
  free_handle k2 isid = Some h ->
  let k3 := set_htab isid (Z.of_nat h) (Z.of_nat gp) k2 in
  handleInitctl fuel map_order quote op payload (set_sbook (<[rname := Z.of_nat h]> (sp_book sup)) sup, k3)
    = (Ok (st, detail), (sup', k3)) ->
  let rep := le_split 2 op ++ le_split 2 seq ++ mkbuf 20 ++ le_split 4 st ++ detail in
  poll_batch fuel map_order quote (S n) hi (sup, k)
  = poll_batch fuel map_order quote n hi (sup', (port_send isid (Z.of_nat h) rep k3).2).
Proof.
  intros Er Hop Hseq Huid Hrn Hnul Hbook Hmb Hg Hh k3 Hctl rep. pose proof (zlen_nonneg payload).
  destruct (stamped_header uid op seq rname payload) as [Eh Ep]; try done; [lia|].
  cbn [poll_batch]. unfold mbind at 1, M_bind. unfold onW at 1, sys at 1. cbn [snd k_PortRecv init_calls session_calls].
  rewrite Er. cbn [fst snd]. rewrite (proj2 (Z.leb_gt _ _)) by lia. rewrite Eh. cbn [RNam Op Seq].
  rewrite bool_decide_false by (intros ->; unfold zlen in Hrn; cbn in Hrn; lia).
  assert (attempt (bind_ctl_reply rname) (sup, k2)
    = (Ok (inr (Z.of_nat h)), (set_sbook (<[rname := Z.of_nat h]> (sp_book sup)) sup, k3))) as Eb.
  { unfold attempt, bind_ctl_reply, getSup, modSup, onW, book_Bind, sys, mbind, M_bind. cbn [fst snd].
    rewrite Hbook. cbn [fst snd k_PortBind init_calls session_calls]. rewrite (bind_takes_handle k2 isid rname gp h) by done.
    unfold InvalidHandle. rewrite (proj2 (Z.eqb_neq _ _)) by lia. done. }
  rewrite (bind_ok _ _ _ _ _ Eb). rewrite Ep, (bind_ok _ _ _ _ _ Hctl). cbv zeta. cbn [fst snd].
  rewrite ctl_reply_eq. fold rep. unfold mbind at 1, M_bind, onW, sys. cbn [fst snd k_PortSend init_calls session_calls].
  by destruct (port_send isid (Z.of_nat h) rep k3).
Qed.

(** Any session that can send to the port [init] can reboot the machine,
    whatever its capabilities.  The supervisor answers a control request at
    the port the request names, and repeats the request's [op] in its answer;
    a "restart" request without a service name that names the kernel's
    endpoint [power] as its reply port makes the supervisor, which holds the
    capability, send [power] a frame with [op] 1, and that is REBOOT. *)
Theorem initctl_reply_reboots k a ha g p hi sup seq gp pp h :
  reaches k a ha g p -> port_of k isid hi = Some g -> a ≠ 0 -> p_kernel_endpoint p = false ->
  unawaited (p_name p) k -> ring_view p [] -> msg_ready (k_heap k) -> 0 <= seq < 2 ^ 16 ->
  0 <= sched_uid_of k a < 2 ^ 32 -> sp_initH sup = hi -> sp_book sup !! bs "power" = None ->
  may_bind k isid (bs "power") -> has_bits (sched_capmask_of k isid) SCHED_CAP_POWER = true ->
  findi (has_name (bs "power")) (k_ports k) = Some gp -> k_ports k !! gp = Some pp ->
  p_kernel_endpoint pp = true -> p_name pp = bs "power" -> Z.of_nat gp < MAX_PORTS ->
  free_handle k isid = Some h -> Z.of_nat h < H_PER_SESS ->
  let k1 := (port_send a ha (FrameCanonical 1 seq (bs "power") []) k).2 in
  k_halted k1 = k_halted k
  /\ k_halted (pollInitctl fuel map_order quote (sup, k1)).2.2 = true.
Proof.
  intros Hr Hi Ha Hke Hun Hv Hm Hseq Huid Hhi Hbook Hmb Hcap Hgp Hpp Hkp Hname Hlt Hh Hh16 k1.
  set (req := FrameCanonical 1 seq (bs "power") []) in *.
  assert (zlen req = 24) as Hreq by (unfold req; rewrite FrameCanonical_eq; len_solve).
  destruct (hop k a ha isid hi g p req Hr Hi Ha Hke Hun Hv) as (k1' & k2 & p1 & p2 & Es & Hm1 & Er & Hm2 & Hv2 & _);
    [unfold MSG_MAX; lia|done|].
  assert (k1 = k1') as -> by (unfold k1; by rewrite Es). pose proof (mv_core _ _ _ _ _ Hm2) as Hc2.
  split; [by injection (mv_core _ _ _ _ _ Hm1)|]. pose proof (alive_range _ _ (proj1 Hmb)) as His.
  assert (forall s, sched_capmask_of k2 s = sched_capmask_of k s) as Ecap.
  { intros s. unfold sched_capmask_of, in_use, state_of, sess. by rewrite (core_sessions _ _ Hc2). }
  assert (may_bind k2 isid (bs "power")) as Hmb2.
  { destruct Hmb as [Hal Hmb]. split; [|by rewrite Ecap]. rewrite <-Hal. unfold sched_alive, state_of, sess.
    by rewrite (core_sessions _ _ Hc2). }
  assert (free_handle k2 isid = Some h) as Hh2 by (unfold free_handle in *; by rewrite (core_htab _ _ Hc2)).
  assert (findi (has_name (bs "power")) (k_ports k2) = Some gp) as Hg2 by (rewrite (moved_findi _ _ _ _ _ _ Hm2); [done|apply Hr]).
  assert (Z.of_nat gp ≠ g) as Hne.
  { intros <-. destruct Hr as [_ Hp]. unfold port_at in Hp. rewrite (proj2 (Z.ltb_ge _ _)), Nat2Z.id in Hp by lia. congruence. }
  assert (k_ports k2 !! gp = Some pp) as Hpp2.
  { destruct (mv_ports _ _ _ _ _ Hm2) as (f & _ & ->). cbn. rewrite list_lookup_alter_ne; [done|].
    intros <-. apply Hne. destruct Hr as [_ Hp]. unfold port_at in Hp. destruct (Z.ltb_spec g 0); [done|lia]. }
  assert (reaches k isid hi g p) as Hri by (split; [done|apply Hr]).
  pose proof (moved_reaches _ _ _ _ _ _ _ Hm2 Hri) as Hri2.
  pose proof (reaches_set_htab k2 isid h (Z.of_nat gp) hi g p2 Hh2 Hri2) as Hri3.
  pose proof (bound_reaches k2 isid _ gp pp h His Hg2 Hpp2 Hlt Hh2 Hh16) as Hrp3.
  set (k3 := set_htab isid (Z.of_nat h) (Z.of_nat gp) k2) in *.
  set (rep := le_split 2 1 ++ le_split 2 seq ++ mkbuf 20 ++ le_split 4 InitBadName ++ bs "bad service name").
  assert (24 <= zlen rep <= MSG_MAX) as Hlen.
  { unfold rep, MSG_MAX. rewrite !zlen_app, !zlen_le_split. vm_compute. split; discriminate. }
  assert (cstr16 (slice rep 8 24) = []) as Hrn.
  { unfold rep. rewrite (app_assoc (le_split 2 1)). change (mkbuf 20) with (mkbuf 4 ++ mkbuf 16).
    rewrite <-(app_assoc (mkbuf 4)), (slice_skip _ _ 8 24 4), (slice_skip (mkbuf 4) _ 4 _ 0) by len_solve.
    by rewrite slice_here by done. }
  assert (Get16 rep 0 = 1) as Hop by (unfold rep; by rewrite Get16_here).
  rewrite <-Ecap in Hcap.
  destruct (power_request k3 isid (Z.of_nat h) (Z.of_nat gp) pp rep Hrp3 Hkp Hname ltac:(lia) Hlen (or_introl Hop) Hrn Hcap)
    as [Hhalt Hcalm].
  assert (0 <= hi) as Hhi0.
  { unfold port_of in Hi. destruct (Z.ltb_spec hi 0); [|done]. by rewrite orb_true_r in Hi. }
  unfold pollInitctl, getSup, mbind, M_bind. cbn [fst snd]. rewrite Hhi. unfold InvalidHandle.
  rewrite (proj2 (Z.eqb_neq hi (-1))) by lia.
  rewrite (poll_one 3 hi sup k1' k2 (sched_uid_of k a) 1 seq (bs "power") [] gp h InitBadName
    (bs "bad service name") (set_sbook (<[bs "power" := Z.of_nat h]> (sp_book sup)) sup)); try done.
  - fold k3. cbn [poll_batch]. fold rep. set (k4 := (port_send _ _ rep k3).2) in *. unfold mbind, M_bind, onW, sys.
    cbn [fst snd k_PortRecv init_calls session_calls]. by rewrite (port_recv_empty k4 isid hi g p2) by (by try apply Hcalm).
  - set_solver.
Qed.
End deputy.

(** The supervisor in slot 1 with every capability, a guest of uid 7 without
    any in slot 2; each holds the port [init]. *)
Definition deputy_kernel : K := mkK
  (demo_port false 1 (bs "init") :: demo_port true 0 (bs "power") :: replicate 22 free_port)
  (empty_row :: (0 :: replicate 15 (-1)) :: (0 :: replicate 15 (-1)) :: replicate 9 empty_row)
  (replicate 8 (mkPending false 0 [] false []))
  (zero_session :: demo_session (bs "init") 0 8191 S_RUNNABLE :: demo_session (bs "guest") 7 0 S_RUNNING :: replicate 9 zero_session)
  [] 1 (Some 2) demo_heap (mkLog (mkbuf LOG_SIZE) 0)
  (replicate 13 0) (mkConf (replicate 8 0) 5 1 0 0) (mkDev [] false false 0 0 [] 1) (mkbuf 4096) (replicate 12 [])
  false false.

Definition deputy_sup : supervisor := mkSup (NewDirectClient 5) 5 [] ∅ 0 [] None.

Lemma initctl_reply_reboots_witness :
  let k1 := (port_send 2 0 (FrameCanonical 1 9 (bs "power") []) deputy_kernel).2 in
  sched_capmask_of deputy_kernel 2 = 0 /\ k_halted k1 = false
  /\ k_halted (@pollInitctl _ (session_calls (fun _ => 0) 1) 0 map_to_list id (deputy_sup, k1)).2.2 = true.
Proof.
  split; [reflexivity|].
  apply (initctl_reply_reboots (fun _ => 0) 1 0 map_to_list id deputy_kernel 2 0 0 (demo_port false 1 (bs "init")) 0 deputy_sup 9 1
    (demo_port true 0 (bs "power")) 1); try done.
  - intros t Ht. change (t ∈ replicate 8 (mkPending false 0 [] false [])) in Ht. by apply elem_of_replicate in Ht as [-> _].
  - by apply ring_empty_view.
  - exists ∅. split; [apply demo_heap_inv|]. right. done.
Defined.

(** * What a sweep of the supervisor does

    [Supervisor.sweep] against a specification of supervision: which services
    are left alone, which are started again, and when the supervisor gives up.
    The kernel's session table decides. *)

(** ** Supervision *)

(** Nothing to do for a service: its policy is not to respawn, or its session
    is alive, or it was never started. *)
Definition healthy (up : Z -> bool) (st : svcState) : bool :=
  negb (sv_Respawn (st_svc st)) || (if st_spawned st then up (st_sid st) else st_fails st =? 0).

(** What may become of a service: it stays, or it runs under the session that
    was spawned for it, or the attempt failed and counts, or the supervisor has
    given it up.  [gave] is what the kernel answered to the attempt. *)
Inductive supervised (up : Z -> bool) (gave : Service -> outcome gerr Z -> Prop) (st : svcState) : svcState -> Prop :=
| Sv_stays : healthy up st = true -> supervised up gave st st
| Sv_started sid : healthy up st = false -> st_fails st < maxSpawnFails -> gave (st_svc st) (Ok sid) ->
    supervised up gave st (mkSvc (st_svc st) sid 0 true)
| Sv_failed e : healthy up st = false -> st_fails st < maxSpawnFails -> gave (st_svc st) (Err e) ->
    supervised up gave st (mkSvc (st_svc st) (st_sid st) (st_fails st + 1) false)
| Sv_given_up : healthy up st = false -> maxSpawnFails <= st_fails st ->
    supervised up gave st (mkSvc (st_svc st) (st_sid st) (st_fails st) false).

Lemma list_alter_insert' {A} (f : A -> A) (l : list A) i x : l !! i = Some x -> <[i := f x]> l = alter f i l.
Proof. revert i. induction l as [|y l IH]; intros [|i] Hi; cbn in *; try done; [congruence|]. f_equal. by apply IH. Qed.

Section sweep.
Context {W : Type} `{Kernel W}.

Lemma recv_loop_total n h want (w : W) : exists r w', recv_loop n h want w = (r, w') /\ r ≠ Panic.
Proof.
  revert w. induction n as [|n IH]; intros w; cbn [recv_loop]; [by do 2 eexists|].
  rewrite bind_sys. destruct (k_PortRecv h MaxMsg w) as [[len buf] w1]. cbn [fst snd].
  repeat case_match; try by do 2 eexists.
  - apply IH.
  - rewrite bind_sys. apply IH.
Qed.

Lemma Request_total h op pl (c : Client) (w : W) : exists r c' w', Request h op pl (c, w) = (r, (c', w')) /\ r ≠ Panic.
Proof.
  unfold Request, nextSeq, mbind, M_bind. cbn [fst snd]. unfold onW. cbn [fst snd]. unfold Call. rewrite bind_sys.
  destruct (k_PortSend _ _ w) as [rc w1]. cbn [fst snd]. destruct (rc =? StatusErr); [by do 3 eexists|].
  edestruct recv_loop_total as (r & w' & -> & Hr). by exists r; do 2 eexists.
Qed.

Lemma Spawn_total rg name path mask args (c : Client) (w : W) :
  exists r c' w', Spawn rg name path mask args (c, w) = (r, (c', w')) /\ r ≠ Panic.
Proof.
  unfold Spawn, reply_of, mbind, M_bind.
  edestruct Request_total as (r & c' & w' & -> & Hr). destruct r as [rep|e|]; [|by do 3 eexists|done].
  destruct (zlen rep <? 28); [by do 3 eexists|]. cbn [mret M_ret]. cbv zeta beta.
  destruct (Get32 rep 24 =? 0xFFFFFFFF); by do 3 eexists.
Qed.

(** An answer of the kernel to a request to start [sv]. *)
Definition answered (rg : Z) (sv : Service) (r : outcome gerr Z) : Prop :=
  exists c (w : W) c' w', Spawn rg (sv_Name sv) (sv_Path sv) (sv_Capmask sv) [] (c, w) = (r, (c', w')).

(** Starting the service of slot [i]. *)
Lemma spawn_spec i (sup : supervisor) (w : W) st : sp_states sup !! i = Some st ->
  exists sup' w' st', spawn i (sup, w) = (Ok tt, (sup', w')) /\ sp_states sup' = <[i := st']> (sp_states sup)
    /\ sp_rg sup' = sp_rg sup
    /\ (maxSpawnFails <= st_fails st /\ st' = st
       \/ st_fails st < maxSpawnFails
         /\ ((exists sid, answered (sp_rg sup) (st_svc st) (Ok sid) /\ st' = mkSvc (st_svc st) sid 0 true)
            \/ exists e, answered (sp_rg sup) (st_svc st) (Err e)
                 /\ st' = mkSvc (st_svc st) (st_sid st) (st_fails st + 1) (st_spawned st))).
Proof.
  intros Hi. unfold spawn, getSvc, getSup, mbind, M_bind. cbn [fst snd]. rewrite Hi. cbn [mret M_ret].
  destruct (Z.leb_spec maxSpawnFails (st_fails st)) as [Hf|Hf].
  { exists sup, w, st. split_and!; [done|by rewrite list_insert_id|done|by left]. }
  unfold attempt, onSupReg. edestruct Spawn_total as (r & c' & w' & E & Hr). rewrite E. destruct r as [sid|e|]; [| |done].
  all: do 3 eexists; cbn; split_and!; [done|symmetry; by apply list_alter_insert'|done|right; split; [done|]].
  - left. exists sid. split; [|done]. by do 4 eexists.
  - right. exists e. split; [|done]. by do 4 eexists.
Qed.

Lemma sweep_one_spec alive i (sup : supervisor) (w : W) st : sp_states sup !! i = Some st ->
  exists sup' w' st', sweep_one alive i (sup, w) = (Ok tt, (sup', w')) /\ sp_states sup' = <[i := st']> (sp_states sup)
    /\ sp_rg sup' = sp_rg sup /\ supervised (is_alive alive) (answered (sp_rg sup)) st st' /\ (healthy (is_alive alive) st = true -> (sup', w') = (sup, w)).
Proof.
  intros Hi. unfold sweep_one, getSvc, getSup, mbind, M_bind. cbn [fst snd]. rewrite Hi. cbn [mret M_ret].
  destruct (healthy (is_alive alive) st) eqn:Hh.
  - exists sup, w, st. split_and!; [|by rewrite list_insert_id|done|by constructor|done]. revert Hh. unfold healthy.
    destruct (sv_Respawn _), (st_spawned st); cbn; [intros ->..|done|done]; done.
  - assert (exists sup1, sp_states sup1 !! i = Some (unspawn st) /\ (forall st', <[i := st']> (sp_states sup1) = <[i := st']> (sp_states sup))
      /\ sp_rg sup1 = sp_rg sup /\ sweep_one alive i (sup, w) = spawn i (sup1, w)) as (sup1 & Hi1 & Hins & Hrg & E).
    { unfold sweep_one, getSvc, getSup, mbind, M_bind. cbn [fst snd]. rewrite Hi. cbn [mret M_ret]. revert Hh. unfold healthy.
      destruct (sv_Respawn _); [|done]. destruct (st_spawned st) eqn:Esp; cbn; intros ->.
      - exists (set_states (alter unspawn i (sp_states sup)) sup). split_and!; [|intros st'|done|reflexivity]; cbn.
        + by rewrite list_lookup_alter_eq, Hi.
        + by rewrite <-(list_alter_insert' _ _ _ _ Hi), list_insert_insert_eq.
      - exists sup. split_and!; [|done..]. rewrite Hi. f_equal. destruct st; cbn in *. by rewrite Esp. }
    revert E. unfold sweep_one, getSvc, getSup, mbind, M_bind. cbn [fst snd]. rewrite Hi. cbn [mret M_ret]. intros ->.
    destruct (spawn_spec i sup1 w _ Hi1) as (sup' & w' & st' & -> & Hs & Hrg' & Hst). rewrite Hrg in *.
    exists sup', w', st'. rewrite Hs, Hins. split_and!; try done.
    destruct Hst as [[Hf ->]|[Hf [(sid & Ha & ->)|(e & Ha & ->)]]]; cbn in *; by econstructor.
Qed.

Lemma each_svc_spec alive n : forall i (sup : supervisor) (w : W), (length (sp_states sup) = i + n)%nat ->
  exists sup' w', each_svc n i (sweep_one alive) (sup, w) = (Ok tt, (sup', w')) /\ length (sp_states sup') = length (sp_states sup)
    /\ (forall j st, sp_states sup !! j = Some st -> exists st', sp_states sup' !! j = Some st'
        /\ if decide (j < i)%nat then st' = st else supervised (is_alive alive) (answered (sp_rg sup)) st st')
    /\ (Forall (fun st => healthy (is_alive alive) st = true) (drop i (sp_states sup)) -> (sup', w') = (sup, w)).
Proof.
  induction n as [|n IH]; intros i sup w Hn.
  - exists sup, w. split_and!; try done. intros j st Hj. exists st. split; [done|]. apply lookup_lt_Some in Hj as Hlt.
    by rewrite decide_True by lia.
  - destruct (lookup_lt_is_Some_2 (sp_states sup) i) as [st Hi]; [lia|].
    destruct (sweep_one_spec alive i sup w st Hi) as (sup1 & w1 & st1 & E1 & Hs1 & Hrg & Hsv & Hq).
    destruct (IH (S i) sup1 w1) as (sup' & w' & E & Hlen & Hall & Hq'); [rewrite Hs1, length_insert; lia|]. rewrite Hrg in Hall.
    exists sup', w'. split_and!.
    + cbn [each_svc]. by rewrite (bind_ok _ _ _ _ _ E1).
    + by rewrite Hlen, Hs1, length_insert.
    + intros j stj Hj. destruct (decide (j = i)) as [->|Hne].
      * assert (stj = st) as -> by congruence. destruct (Hall i st1) as (st' & Hst' & Hd).
        { rewrite Hs1. apply list_lookup_insert_eq. by eapply lookup_lt_Some. }
        rewrite decide_True in Hd by lia. subst st'. exists st1. split; [done|]. by rewrite decide_False by lia.
      * destruct (Hall j stj) as (st' & Hst' & Hd); [by rewrite Hs1, list_lookup_insert_ne|]. exists st'. split; [done|].
        revert Hd. repeat case_decide; try done; lia.
    + rewrite (drop_S _ _ _ Hi). intros [Hh Hr]%Forall_cons. rewrite Hq'; [by apply Hq|].
      specialize (Hq Hh) as [= -> ->]. done.
Qed.

(** A sweep over a list of sessions the kernel could give: every service is
    supervised, by the sessions the list has; with nothing to do for any, the
    kernel is not called again. *)
Lemma sweep_spec (sup : supervisor) (w : W) c1 w1 l :
  @Registry.List W _ (sp_rg sup) (sp_reg sup, w) = (Ok l, (c1, w1)) -> zlen l < listSaturationCap ->
  exists sup' w', sweep (sup, w) = (Ok tt, (sup', w')) /\ length (sp_states sup') = length (sp_states sup)
    /\ (forall j st, sp_states sup !! j = Some st -> exists st', sp_states sup' !! j = Some st'
        /\ supervised (is_alive (alive_map l)) (answered (sp_rg sup)) st st')
    /\ (Forall (fun st => healthy (is_alive (alive_map l)) st = true) (sp_states sup) -> (sup', w') = (set_sreg c1 sup, w1)).
Proof.
  intros El Hl. unfold sweep, attempt, onSupReg, mbind, M_bind. cbn [fst snd]. rewrite El.
  rewrite (proj2 (Z.leb_gt listSaturationCap (zlen l))) by done. unfold getSup. cbn [fst snd].
  destruct (each_svc_spec (alive_map l) (length (sp_states sup)) 0 (set_sreg c1 sup) w1) as (sup' & w' & E & Hn & Hall & Hq); [done|].
  exists sup', w'. split_and!; done.
Qed.
End sweep.

(** ** On the kernel *)

Lemma alive_map_fun l f s : (forall si, si ∈ l -> Alive (si_State si) = f (si_Sid si)) ->
  is_alive (alive_map l) s = bool_decide (s ∈ map si_Sid l) && f s.
Proof.
  induction l as [|si l IH] using rev_ind; intros Hf; [done|]. unfold is_alive, alive_map in *. rewrite foldl_app. cbn [foldl].
  rewrite map_app. cbn [map]. destruct (decide (si_Sid si = s)) as [Hs|Hs].
  - rewrite bool_decide_true by set_solver. rewrite Hs, lookup_insert_eq. cbn. rewrite Hf, Hs by set_solver. done.
  - rewrite lookup_insert_ne, IH by set_solver. f_equal. apply bool_decide_ext. set_solver.
Qed.

Definition sessions_ok (k : K) : Prop :=
  length (k_sessions k) = 12%nat /\ Forall session_fits (k_sessions k) /\ (s_state <$> k_sessions k !! 0%nat) = Some S_FREE.

Definition listing (k : K) : list SessionInfo := map (fun ix => info_of ix.1 ix.2) (in_use_slots k).

Lemma state_of_nat k i x : k_sessions k !! i = Some x -> state_of k (Z.of_nat i) = s_state x.
Proof. intros Hx. unfold state_of, sess. rewrite (proj2 (Z.ltb_ge _ _)) by lia. by rewrite Nat2Z.id, Hx. Qed.

Lemma in_use_slots_intro k i x : k_sessions k !! i = Some x -> s_state x ≠ S_FREE -> (i, x) ∈ in_use_slots k.
Proof.
  intros Hx Hs. unfold in_use_slots. rewrite list_elem_of_filter. split; [done|]. apply list_elem_of_lookup. exists i.
  by rewrite list_lookup_imap, Hx.
Qed.

(** The supervisor sees a session alive exactly when the kernel does. *)
Lemma listing_alive k s : sessions_ok k -> is_alive (alive_map (listing k)) s = sched_alive k s.
Proof.
  intros (Hn & _ & H0). rewrite (alive_map_fun _ (sched_alive k)).
  - case_bool_decide as Hin; [done|]. cbn. symmetry. unfold sched_alive, MAX_SESSIONS.
    destruct (Z.ltb_spec 0 s); [|done]. destruct (Z.ltb_spec s 12); [|done]. cbn.
    destruct (lookup_lt_is_Some_2 (k_sessions k) (Z.to_nat s)) as [x Hx]; [lia|]. pose proof (state_of_nat _ _ _ Hx) as Es.
    rewrite Z2Nat.id in Es by lia. rewrite Es. destruct (decide (s_state x = S_FREE)) as [->|Hs]; [done|]. destruct Hin.
    apply list_elem_of_fmap. exists (info_of (Z.to_nat s) x). cbn. split; [lia|].
    apply list_elem_of_fmap. exists (Z.to_nat s, x). split; [done|]. by apply in_use_slots_intro.
  - intros si ([i x] & -> & (Hx & Hs)%in_use_slots_lookup)%list_elem_of_fmap. cbn. pose proof (lookup_lt_Some _ _ _ Hx).
    unfold sched_alive, MAX_SESSIONS. rewrite (state_of_nat _ _ _ Hx). destruct i as [|i]; [by rewrite Hx in H0; injection H0|].
    rewrite (proj2 (Z.ltb_lt 0 _)), (proj2 (Z.ltb_lt _ 12)) by lia. by destruct (s_state x).
Qed.

Lemma listing_short k : sessions_ok k -> zlen (listing k) < listSaturationCap.
Proof.
  intros (Hn & _ & H0). unfold listing, in_use_slots, listSaturationCap, zlen. rewrite length_map.
  destruct (k_sessions k) as [|x l]; [done|]. cbn in H0. injection H0 as H0. cbn [imap]. rewrite filter_cons_False by (cbn; tauto).
  pose proof (length_filter (fun ix : nat * session => s_state ix.2 ≠ S_FREE) (imap (pair ∘ S) l)) as Hl.
  rewrite length_imap in Hl. cbn in Hn. lia.
Qed.

Lemma healthy_ext up up' st : (forall s, up s = up' s) -> healthy up st = healthy up' st.
Proof. intros E. unfold healthy. by rewrite E. Qed.
Lemma supervised_ext up up' gave st st' : (forall s, up s = up' s) -> supervised up gave st st' -> supervised up' gave st st'.
Proof. intros E [Hh|sid Hh|e Hh|Hh]; rewrite (healthy_ext up up') in Hh by done; by econstructor. Qed.

Section kernel.
Context {P : Platform} (clock : K -> Z).

Lemma sweep_kernel sid (sup : supervisor) (k : K) :
  on_endpoint k sid (sp_rg sup) (bs "registry") -> 0 < budget (sp_reg sup) -> sessions_ok k ->
  let calls := session_calls clock sid in
  exists sup' k', sweep (sup, k) = (Ok tt, (sup', k')) /\ length (sp_states sup') = length (sp_states sup)
    /\ (forall j st, sp_states sup !! j = Some st -> exists st', sp_states sup' !! j = Some st'
        /\ supervised (sched_alive k) (answered (sp_rg sup)) st st')
    /\ (Forall (fun st => healthy (sched_alive k) st = true) (sp_states sup) ->
        sup' = set_sreg (bump (sp_reg sup)) sup /\ core k' = core k /\ on_endpoint k' sid (sp_rg sup) (bs "registry")).
Proof.
  intros Hon Hb Hk calls. destruct (List_exact clock k sid _ _ Hon Hb (proj1 Hk) (proj1 (proj2 Hk))) as (k1 & El & Hon1 & Hc1 & _).
  fold (listing k) in El. destruct (sweep_spec sup k _ _ _ El (listing_short k Hk)) as (sup' & k' & E & Hn & Hall & Hq).
  pose proof (fun s => listing_alive k s Hk) as Hup. exists sup', k'. split_and!; try done.
  - intros j st (st' & Hj & Hs)%Hall. exists st'. split; [done|]. by eapply supervised_ext.
  - intros Hh. assert ((sup', k') = (set_sreg (bump (sp_reg sup)) sup, k1)) as [= -> ->]; [|done].
    apply Hq. eapply Forall_impl; [exact Hh|]. intros st. by rewrite (healthy_ext _ _ _ Hup).
Qed.

(** A session of this name is alive. *)
Definition running (k : K) (name : list byte) : Prop :=
  exists i x, k_sessions k !! i = Some x /\ sched_alive k (Z.of_nat i) = true /\ cstr16 (s_name x) = name.

Fixpoint sweeps (sid : Z) (n : nat) : M (supervisor * K) gerr unit :=
  match n with
  | O => mret tt
  | S n' => _ ← @sweep _ (session_calls clock sid); sweeps sid n'
  end.


(** a service that died is never started again once another session has
    taken its slot.  The supervisor knows its services by slot number only: if
    the slot of every service holds some session that is alive, no number of
    sweeps changes anything, although no session with the name of the service
    is running. *)
Theorem reused_slot_hides_death sid (sup : supervisor) (k : K) st n :
  on_endpoint k sid (sp_rg sup) (bs "registry") -> 0 < budget (sp_reg sup) -> sessions_ok k ->
  Forall (fun st => st_spawned st = true /\ sched_alive k (st_sid st) = true) (sp_states sup) ->
  st ∈ sp_states sup -> sv_Respawn (st_svc st) = true -> ~ running k (sv_Name (st_svc st)) ->
  exists sup' k', sweeps sid n (sup, k) = (Ok tt, (sup', k'))
    /\ sp_states sup' = sp_states sup /\ ~ running k' (sv_Name (st_svc st)).
Proof.
  intros Hon Hb Hk Hall Hst _ Hrun. revert sup k Hon Hb Hk Hall Hst Hrun. induction n as [|n IH]; intros; [by exists sup, k|].
  destruct (sweep_kernel sid sup k Hon Hb Hk) as (sup1 & k1 & E & _ & _ & Hq). destruct Hq as (-> & Hc & Hon1).
  { eapply Forall_impl; [exact Hall|]. intros s [Hsp Hal]. unfold healthy. rewrite Hsp, Hal. by destruct (sv_Respawn _). }
  injection Hc as Es _ _ _ _ _ _ _. assert (forall s, sched_alive k1 s = sched_alive k s) as Ea.
  { intros s. unfold sched_alive, state_of, sess. by rewrite Es. }
  destruct (IH (set_sreg (bump (sp_reg sup)) sup) k1) as (sup' & k' & E' & Hs & Hr); try done.
  - unfold sessions_ok. by rewrite Es.
  - cbn. eapply Forall_impl; [exact Hall|]. intros s. by rewrite Ea.
  - unfold running. setoid_rewrite Ea. by rewrite Es.
  - exists sup', k'. split_and!; [|done..]. cbn [sweeps]. by rewrite (bind_ok _ _ _ _ _ E).
Qed.
End kernel.

(** The supervisor in slot 1, and the session [guest] in the slot its service
    [net] had. *)
Definition swept : K := put_sessions
  (zero_session :: demo_session (padName (bs "init")) 0 8191 S_RUNNABLE
     :: demo_session (padName (bs "guest")) 7 0 S_RUNNING :: replicate 9 zero_session) demo.

Definition swept_sup : supervisor :=
  mkSup (NewDirectClient 0) 0 [mkSvc (mkService (bs "net") (bs "/bin/net") 4104 true) 2 0 true] ∅ (-1) [] None.

Lemma swept_on : on_endpoint swept 1 0 (bs "registry").
Proof.
  split; [|exists ∅; split; [apply demo_heap_inv|by right]|done]. exists 0, (demo_port true 0 (bs "registry")).
  split_and!; [done..|by apply ring_empty_view].
Qed.

Lemma swept_ok : sessions_ok swept.
Proof. split_and!; [done| |done]. unfold session_fits; repeat (apply Forall_cons; split); [cbn; split_and!; (done||lia)..|done]. Qed.


Lemma reused_slot_hides_death_witness : exists sup' k',
  sweeps (fun _ => 0) 1 3 (swept_sup, swept) = (Ok tt, (sup', k')) /\ ~ running k' (bs "net").
Proof.
  destruct (reused_slot_hides_death (fun _ => 0) 1 swept_sup swept (mkSvc (mkService (bs "net") (bs "/bin/net") 4104 true) 2 0 true) 3
    swept_on ltac:(done) swept_ok) as (sup' & k' & E & _ & Hr).
  - by apply Forall_singleton.
  - left.
  - done.
  - intros (i & x & Hx & Ha & Hn). do 12 (destruct i as [|i]; [cbn in Hx; injection Hx as <-; vm_compute in Hn; done|]). done.
  - exists sup', k'. split; [exact E|exact Hr].
Defined.
