(* ===== verification/WasmNum.v ===== *)
(** * WasmNum: data and numbers of the kernel's WebAssembly engine
      ([core/wasm/wasm.h], [core/wasm/wasm.cc])

    First the data, then the numbers, then the numeric instructions.

    The data: the enumerations, the lowered instruction with its union of immediates,
    functions and modules.  Pointers that may be null are options; an array
    with its count is a list. *)

From Stdlib Require Import SpecFloat.
From S2P Require Import Prelude.

(** ** Enumerations *)

Module Status.
Inductive t :=
  | Ok | Malformed | Unsupported | TypeMismatch | OutOfMemory | MissingImport | Internal
  | TrapUnreachable | TrapOutOfBounds | TrapDivideByZero | TrapIndirectCall | TrapStackOverflow
  | TrapIntegerOverflow | TrapInvalidConversion.
End Status.

Module RunStatus.
Inductive t := Completed | Yield | Exited | Trapped | Error.
End RunStatus.

Module ValueType.
Inductive t := I32 | I64 | F32 | F64 | FuncRef | ExternRef.
End ValueType.

Module Op.
Inductive t :=
  | Unreachable | Nop | Block | Loop | If | Else | End | Br | BrIf | BrTable | Return | Drop | Select | I32Const
  | I32Add | I32Sub | I32Mul | I32Eqz | I32Cmp | I32Clz | I32Ctz | I32Popcnt | I32Rotl | I32Rotr | I32DivS | I32DivU
  | I32RemS | I32RemU | I32And | I32Or | I32Xor | I32Shl | I32ShrS | I32ShrU | I64Eqz | I64Cmp | I64Clz | I64Ctz
  | I64Popcnt | I64Rotl | I64Rotr | I64Sub | I64Mul | I64DivS | I64DivU | I64RemS | I64RemU | I64And | I64Or | I64Xor
  | I64Shl | I64ShrS | I64ShrU | LocalGet | LocalSet | LocalTee | GlobalGet | GlobalSet | Call | CallIndirect
  | MemorySize | MemoryGrow | I32Load | I32Store | I64Const | I64ExtendI32S | I64ExtendI32U | I32WrapI64 | I64Add
  | I64Load | I64Store | F32Const | F64Const | F32Load | F64Load | F32Store | F64Store | F32Cmp | F64Cmp | F32Unary
  | F32Binary | F64Unary | F64Binary | FloatConvert | F32DemoteF64 | F64PromoteF32 | Reinterpret | SignExtend
  | TruncSat | MemoryCopy | MemoryFill.
End Op.

#[export] Instance status_eq_dec : EqDecision Status.t.
Proof. solve_decision. Defined.
#[export] Instance run_status_eq_dec : EqDecision RunStatus.t.
Proof. solve_decision. Defined.
#[export] Instance value_type_eq_dec : EqDecision ValueType.t.
Proof. solve_decision. Defined.
(** [static_cast<ValueType>(b)] of a byte that [valid_value_type] accepts. *)
Definition value_type (b : Z) : option ValueType.t :=
  if b =? 0x7f then Some ValueType.I32
  else if b =? 0x7e then Some ValueType.I64
  else if b =? 0x7d then Some ValueType.F32
  else if b =? 0x7c then Some ValueType.F64
  else None.
Definition valid_value_type (b : Z) : bool := match value_type b with Some _ => true | None => false end.
Definition valid_block_type (b : Z) : bool := (b =? 0x40) || valid_value_type b.

(** ** Limits *)

Definition kPageSize : Z := 65536.
Definition kMaxSections : Z := 64.
Definition kMaxTypes : Z := 4096.
Definition kMaxImports : Z := 4096.
Definition kMaxFunctions : Z := 65536.
Definition kMaxExports : Z := 65536.
Definition kMaxLocals : Z := 1024.
Definition kMaxInstructions : Z := 1000000.
Definition kMaxControlDepth : Z := 4096.
Definition kMaxTypeStack : Z := 16384.
Definition kMaxBranchTargets : Z := 65536.
Definition kNoPc : Z := 0xffffffff.
Definition UINT32_MAX : Z := 0xffffffff.
Definition kNoImport : Z := 0xffffffff.

(** ** Functions and instructions *)

Record FuncType := mkFuncType { params : list ValueType.t; results : list ValueType.t }.

#[export] Instance func_type_eq_dec : EqDecision FuncType.
Proof. solve_decision. Defined.

Definition same_function_type (left right : FuncType) : bool := bool_decide (left = right).

(** The union of [immediate], [operand2] and [control] is the eight bytes
    [i_union]: [operand2] and [control.else_pc] are its low half,
    [control.end_pc] its high half.  [i_block] is [block_type], whose 0 is
    [None]. *)
Record Instruction := mkI {
  i_union : Z; i_operand : Z; i_op : Op.t; i_block : option ValueType.t; i_width : Z; i_signed : bool
}.
Definition i_immediate (i : Instruction) : Z := i_union i.
Definition i_operand2 (i : Instruction) : Z := u32 (i_union i).
Definition i_else_pc (i : Instruction) : Z := u32 (i_union i).
Definition i_end_pc (i : Instruction) : Z := Z.shiftr (i_union i) 32.
Definition set_else_pc (pc : Z) (i : Instruction) : Instruction :=
  mkI (Z.shiftl (i_end_pc i) 32 + pc) (i_operand i) (i_op i) (i_block i) (i_width i) (i_signed i).
Definition set_end_pc (pc : Z) (i : Instruction) : Instruction :=
  mkI (Z.shiftl pc 32 + i_else_pc i) (i_operand i) (i_op i) (i_block i) (i_width i) (i_signed i).

(** [instructions] is null until the body is lowered; [instruction_count] is
    known from the first walk. *)
Record FunctionBody := mkBody {
  b_type_index : Z; b_local_types : list ValueType.t; b_instruction_count : Z;
  b_instructions : option (list Instruction); b_max_stack : Z; b_branch_base : Z; b_branch_count : Z; b_code : list byte
}.
Definition local_count (b : FunctionBody) : Z := zlen (b_local_types b).

(** ** Modules *)

Record Import := mkImport { im_module : list byte; im_field : list byte; im_kind : Z; im_type_index : Z }.
Record Export := mkExport { ex_name : list byte; ex_kind : Z; ex_index : Z }.
Record MemoryDesc := mkMemory { min_pages : Z; max_pages : Z; mem_has_max : bool }.
Record TableDesc := mkTable { min_size : Z; max_size : Z; tab_has_max : bool }.
Record GlobalDesc := mkGlobal { g_value_type : ValueType.t; g_mutable : bool; g_constant_init : bool; g_initial : Z }.
Record ElementSegment := mkElem { el_table : Z; el_has_offset : bool; el_offset : Z; el_functions : list Z }.
Record DataSegment := mkData { ds_offset : Z; ds_bytes : list byte }.

(** [has_table] and [has_memory] say whether the description is there. *)
Record ModuleData := mkModule {
  m_types : list FuncType; m_imports : list Import; m_imported : Z; m_function_types : list Z;
  m_table : option TableDesc; m_memory : option MemoryDesc; m_globals : list GlobalDesc;
  m_elements : list ElementSegment; m_exports : list Export; m_start : option Z; m_data : list DataSegment;
  m_branch_targets : list Z; m_bodies : list FunctionBody; m_abi : option Z
}.

(** [l[i]] of an array of known length. *)
Definition at_ {A} (l : list A) (i : Z) : option A := if i <? 0 then None else l !! Z.to_nat i.

(** The loop of [function_type] over the imports, whose kinds other than
    functions are skipped. *)
Fixpoint import_type (imports : list Import) (idx : Z) : Z + Import :=
  match imports with
  | [] => inl idx
  | im :: l =>
      if negb (im_kind im =? 0) then import_type l idx
      else if idx =? 0 then inr im
      else import_type l (idx - 1)
  end.

(** [function_index - imported] is unsigned and wraps. *)
Definition function_type (m : ModuleData) (idx : Z) : option FuncType :=
  match import_type (m_imports m) idx with
  | inr im => at_ (m_types m) (im_type_index im)
  | inl d =>
      let d := u32 d in
      if (zlen (m_function_types m) <=? d) || (zlen (m_bodies m) <=? d) then None
      else at_ (m_function_types m) d ≫= at_ (m_types m)
  end.

Definition body_for (m : ModuleData) (idx : Z) : option FunctionBody :=
  if idx <? m_imported m then None
  else at_ (m_bodies m) (idx - m_imported m).

(** * The numbers of the engine ([core/wasm/wasm.cc], lines 61-381)

    Integer operations on 32- and 64-bit patterns as the source computes them,
    and the floating-point ones on the IEEE 754 values the patterns encode.
    The arithmetic of C++ on [float] and [double] is that of the standard
    library's [SpecFloat]; which of the NaN patterns an operation gives is left
    to the processor, the class [NaNs]. *)

(** ** Integers *)

Definition b2u (b : bool) : Z := if b then 1 else 0.

Definition compare_i32 (opcode left right : Z) : Z :=
  let sl := i32 left in
  let sr := i32 right in
  match opcode with
  | 0x46 => b2u (left =? right)
  | 0x47 => b2u (negb (left =? right))
  | 0x48 => b2u (sl <? sr)
  | 0x49 => b2u (left <? right)
  | 0x4a => b2u (sr <? sl)
  | 0x4b => b2u (right <? left)
  | 0x4c => b2u (sl <=? sr)
  | 0x4d => b2u (left <=? right)
  | 0x4e => b2u (sr <=? sl)
  | 0x4f => b2u (right <=? left)
  | _ => 0
  end.

Definition compare_i64 (opcode left right : Z) : Z :=
  let sl := i64 left in
  let sr := i64 right in
  match opcode with
  | 0x51 => b2u (left =? right)
  | 0x52 => b2u (negb (left =? right))
  | 0x53 => b2u (sl <? sr)
  | 0x54 => b2u (left <? right)
  | 0x55 => b2u (sr <? sl)
  | 0x56 => b2u (right <? left)
  | 0x57 => b2u (sl <=? sr)
  | 0x58 => b2u (left <=? right)
  | 0x59 => b2u (sr <=? sl)
  | 0x5a => b2u (right <=? left)
  | _ => 0
  end.

(** The 32- and 64-bit versions differ in their width [w] only. *)
Definition shift_right (w value count : Z) (arithmetic : bool) : Z :=
  let count := Z.land count (w - 1) in
  if count =? 0 then value
  else
    let result := Z.shiftr value count in
    if arithmetic && negb (Z.land value (2 ^ (w - 1)) =? 0)
    then Z.lor result (Z.shiftl (2 ^ w - 1) (w - count) mod 2 ^ w) else result.
Definition shift_right_i32 : Z -> Z -> bool -> Z := shift_right 32.
Definition shift_right_i64 : Z -> Z -> bool -> Z := shift_right 64.

(** The loop of [count_leading_zeroes]: at most [n] rounds. *)
Fixpoint clz_loop (n : nat) (w value count : Z) : Z :=
  match n with
  | O => count
  | S n' =>
      if Z.land value (2 ^ (w - 1)) =? 0 then clz_loop n' w (Z.shiftl value 1 mod 2 ^ w) (count + 1) else count
  end.
Fixpoint ctz_loop (n : nat) (value count : Z) : Z :=
  match n with
  | O => count
  | S n' => if Z.land value 1 =? 0 then ctz_loop n' (Z.shiftr value 1) (count + 1) else count
  end.
Fixpoint popcnt_loop (n : nat) (value count : Z) : Z :=
  match n with
  | O => count
  | S n' => if value =? 0 then count else popcnt_loop n' (Z.shiftr value 1) (count + Z.land value 1)
  end.
Definition count_leading_zeroes (w value : Z) : Z := if value =? 0 then w else clz_loop (Z.to_nat w) w value 0.
Definition count_trailing_zeroes (w value : Z) : Z := if value =? 0 then w else ctz_loop (Z.to_nat w) value 0.
Definition population_count (w value : Z) : Z := popcnt_loop (Z.to_nat w) value 0.

Definition rotate_left (w value count : Z) : Z :=
  let count := Z.land count (w - 1) in
  if count =? 0 then value else Z.lor (Z.shiftl value count mod 2 ^ w) (Z.shiftr value (w - count)).
Definition rotate_right (w value count : Z) : Z :=
  let count := Z.land count (w - 1) in
  if count =? 0 then value else Z.lor (Z.shiftr value count) (Z.shiftl value (w - count) mod 2 ^ w).

(** Division: an error is a trap.  [/] and [%] of C++ truncate. *)
Definition div_op (w : Z) (sgn rem : bool) (left right : Z) : Status.t + Z :=
  if right =? 0 then inl Status.TrapDivideByZero
  else if negb sgn then inr (if rem then left mod right else left / right)
  else
    let sl := swrap w left in
    let sr := swrap w right in
    if (sl =? - 2 ^ (w - 1)) && (sr =? -1) then
      if rem then inr 0 else inl Status.TrapIntegerOverflow
    else inr ((if rem then Z.rem sl sr else Z.quot sl sr) mod 2 ^ w).

(** ** Floating point *)

(** A format: [mw] bits of mantissa and [ew] of exponent. *)
Definition prec (mw : Z) : Z := mw + 1.
Definition emax (ew : Z) : Z := 2 ^ (ew - 1).
Definition emin (mw ew : Z) : Z := 3 - emax ew - prec mw.

Definition of_bits (mw ew bits : Z) : spec_float :=
  let s := Z.testbit bits (mw + ew) in
  let e := Z.shiftr bits mw mod 2 ^ ew in
  let m := bits mod 2 ^ mw in
  if e =? 0 then match m with Zpos p => S754_finite s p (emin mw ew) | _ => S754_zero s end
  else if e =? 2 ^ ew - 1 then (if m =? 0 then S754_infinity s else S754_nan)
  else S754_finite s (Z.to_pos (m + 2 ^ mw)) (e + emin mw ew - 1).

Definition sign_bit (mw ew : Z) (s : bool) : Z := if s then 2 ^ (mw + ew) else 0.
Definition bits_of (mw ew nan : Z) (f : spec_float) : Z :=
  match f with
  | S754_zero s => sign_bit mw ew s
  | S754_infinity s => sign_bit mw ew s + Z.shiftl (2 ^ ew - 1) mw
  | S754_nan => nan
  | S754_finite s m e =>
      sign_bit mw ew s +
      (if Z.pos m <? 2 ^ mw then Z.pos m else Z.shiftl (e - emin mw ew + 1) mw + (Z.pos m - 2 ^ mw)) mod 2 ^ (mw + ew)
  end.

(** The value as a number with the fraction cut off. *)
Definition to_Z (f : spec_float) : Z :=
  match f with
  | S754_finite s m e =>
      let q := if 0 <=? e then Z.pos m * 2 ^ e else Z.pos m / 2 ^ (- e) in
      if s then - q else q
  | _ => 0
  end.
Definition has_fraction (f : spec_float) : bool :=
  match f with
  | S754_finite _ m e => if 0 <=? e then false else negb (Z.pos m mod 2 ^ (- e) =? 0)
  | _ => false
  end.
Definition sf_sign (f : spec_float) : bool :=
  match f with S754_zero s | S754_infinity s | S754_finite s _ _ => s | S754_nan => false end.

Section format.
Variables (mw ew : Z).
Definition of_Z (n : Z) : spec_float := binary_normalize (prec mw) (emax ew) n 0 false.

(** [ceil], [floor] and [trunc] of the C library. *)
Definition round_by (up : bool -> bool) (f : spec_float) : spec_float :=
  match f with
  | S754_finite s _ _ =>
      let q := Z.abs (to_Z f) + (if has_fraction f && up s then 1 else 0) in
      binary_normalize (prec mw) (emax ew) (if s then - q else q) 0 s
  | _ => f
  end.
Definition sf_ceil : spec_float -> spec_float := round_by negb.
Definition sf_floor : spec_float -> spec_float := round_by id.
Definition sf_trunc : spec_float -> spec_float := round_by (fun _ => false).

(** Rounding into this format from another one. *)
Definition sf_convert (f : spec_float) : spec_float :=
  match f with
  | S754_finite s m e => binary_normalize (prec mw) (emax ew) (if s then Z.neg m else Z.pos m) e s
  | _ => f
  end.
End format.

Definition f32_from_bits : Z -> spec_float := of_bits 23 8.
Definition f64_from_bits : Z -> spec_float := of_bits 52 11.

Definition f32_is_nan (bits : Z) : bool :=
  (Z.land bits 0x7f800000 =? 0x7f800000) && negb (Z.land bits 0x007fffff =? 0).
Definition f64_is_nan (bits : Z) : bool :=
  (Z.land bits 0x7ff0000000000000 =? 0x7ff0000000000000) && negb (Z.land bits 0x000fffffffffffff =? 0).

(** [f32_nearest] and [f64_nearest], on values and on the bits of their
    truncation; [nan] does not matter, as the argument is finite. *)
Definition nearest (mw ew : Z) (bits : Z) : Z :=
  let f := of_bits mw ew bits in
  if Z.land bits (Z.shiftl (2 ^ ew - 1) mw) =? Z.shiftl (2 ^ ew - 1) mw then bits
  else
    let negative := negb (Z.land bits (2 ^ (mw + ew)) =? 0) in
    let magnitude := if negative then SFopp f else f in
    let truncated := sf_trunc mw ew magnitude in
    let fraction := SFsub (prec mw) (emax ew) magnitude truncated in
    let truncated_bits := bits_of mw ew 0 truncated in
    let half := binary_normalize (prec mw) (emax ew) 1 (-1) false in
    let truncated :=
      if SFltb half fraction || (SFeqb fraction half && negb (Z.land truncated_bits 1 =? 0))
      then SFadd (prec mw) (emax ew) truncated (of_Z mw ew 1) else truncated in
    bits_of mw ew 0 (if negative then SFopp truncated else truncated).
Definition f32_nearest : Z -> Z := nearest 23 8.
Definition f64_nearest : Z -> Z := nearest 52 11.

(** [f32_min] and its kin; [gt] chooses the maximum. *)
Definition min_max (mw ew quiet : Z) (gt : bool) (left right : Z) : Z :=
  let l := of_bits mw ew left in
  let r := of_bits mw ew right in
  let is_nan f := match f with S754_nan => true | _ => false end in
  if is_nan l || is_nan r then quiet
  else if SFeqb l (S754_zero false) && SFeqb r (S754_zero false) then
    let sl := negb (Z.land left (2 ^ (mw + ew)) =? 0) in
    let sr := negb (Z.land right (2 ^ (mw + ew)) =? 0) in
    if (if gt then sl && sr else sl || sr) then 2 ^ (mw + ew) else 0
  else if (if gt then SFltb r l else SFltb l r) then left else right.
Definition f32_min : Z -> Z -> Z := min_max 23 8 0x7fc00000 false.
Definition f32_max : Z -> Z -> Z := min_max 23 8 0x7fc00000 true.
Definition f64_min : Z -> Z -> Z := min_max 52 11 0x7ff8000000000000 false.
Definition f64_max : Z -> Z -> Z := min_max 52 11 0x7ff8000000000000 true.

(** [value >= n] and [value < n] for a constant [n] that is exact. *)
Definition ge_const (f : spec_float) (n : Z) : bool := SFleb (of_Z 52 11 n) f.
Definition lt_const (f : spec_float) (n : Z) : bool := SFltb f (of_Z 52 11 n).
Definition le_const (f : spec_float) (n : Z) : bool := SFleb f (of_Z 52 11 n).

Definition trunc_i32_s (f : spec_float) : option Z :=
  if ge_const f (- 2 ^ 31) && lt_const f (2 ^ 31) then Some (u32 (to_Z f)) else None.
Definition trunc_i32_u (f : spec_float) : option Z :=
  if ge_const f 0 && lt_const f (2 ^ 32) then Some (u32 (to_Z f)) else None.
Definition trunc_i64_s (f : spec_float) : option Z :=
  if ge_const f (- 2 ^ 63) && lt_const f (2 ^ 63) then Some (u64 (to_Z f)) else None.
Definition trunc_i64_u (f : spec_float) : option Z :=
  if ge_const f 0 && lt_const f (2 ^ 64) then Some (u64 (to_Z f)) else None.

Definition saturate_i32_s (f : spec_float) : Z :=
  if negb (SFeqb f f) then 0
  else if le_const f (- 2 ^ 31) then 0x80000000
  else if ge_const f (2 ^ 31) then 0x7fffffff else u32 (to_Z f).
Definition saturate_i32_u (f : spec_float) : Z :=
  if negb (SFeqb f f) then 0
  else if le_const f 0 then 0
  else if ge_const f (2 ^ 32) then 0xffffffff else u32 (to_Z f).
Definition saturate_i64_s (f : spec_float) : Z :=
  if negb (SFeqb f f) then 0
  else if le_const f (- 2 ^ 63) then 0x8000000000000000
  else if ge_const f (2 ^ 63) then 0x7fffffffffffffff else u64 (to_Z f).
Definition saturate_i64_u (f : spec_float) : Z :=
  if negb (SFeqb f f) then 0
  else if le_const f 0 then 0
  else if ge_const f (2 ^ 64) then 0xffffffffffffffff else u64 (to_Z f).

(** The pattern the processor gives for a NaN result of an opcode. *)
Class NaNs := {
  nan32 : Z -> list Z -> Z;
  nan64 : Z -> list Z -> Z;
  nan32_is : forall op l, 0 <= nan32 op l < 2 ^ 32 /\ f32_is_nan (nan32 op l) = true;
  nan64_is : forall op l, 0 <= nan64 op l < 2 ^ 64 /\ f64_is_nan (nan64 op l) = true
}.

Section ops.
Context `{NaNs}.
Definition f32_to_bits (op : Z) (l : list Z) (f : spec_float) : Z := bits_of 23 8 (nan32 op l) f.
Definition f64_to_bits (op : Z) (l : list Z) (f : spec_float) : Z := bits_of 52 11 (nan64 op l) f.
End ops.

(** * What the numeric instructions compute
      ([Runtime::step] of [core/wasm/wasm.cc])

    The value each instruction pushes for the operands it popped, its trap, or
    [Bad] where the interpreter has no case for the immediate.  Operands are
    the 64 bits of a [Value].  [f32_from_bits] followed by [f32_to_bits] keeps
    the bits, so moves between the two are not written. *)

Inductive NumResult := Val (v : Z) | Trap (st : Status.t) | Bad.

Definition of_option (o : option Z) : NumResult := match o with Some v => Val v | None => Bad end.

(** ** Integers *)

Definition divide (w : Z) (op : Op.t) (left right : Z) : NumResult :=
  let signed := match op with Op.I32DivS | Op.I32RemS | Op.I64DivS | Op.I64RemS => true | _ => false end in
  let rem := match op with Op.I32RemS | Op.I32RemU | Op.I64RemS | Op.I64RemU => true | _ => false end in
  match div_op w signed rem (left mod 2 ^ w) (right mod 2 ^ w) with
  | inr v => Val v
  | inl st => Trap st
  end.

Definition bitwise32 (op : Op.t) (left right : Z) : Z :=
  let a := u32 left in
  let b := u32 right in
  match op with
  | Op.I32And => Z.land a b
  | Op.I32Or => Z.lor a b
  | Op.I32Xor => Z.lxor a b
  | Op.I32Shl => u32 (Z.shiftl a (Z.land b 31))
  | Op.I32ShrS => shift_right_i32 a b true
  | _ => shift_right_i32 a b false
  end.
Definition bitwise64 (op : Op.t) (a b : Z) : Z :=
  match op with
  | Op.I64And => Z.land a b
  | Op.I64Or => Z.lor a b
  | Op.I64Xor => Z.lxor a b
  | Op.I64Shl => u64 (Z.shiftl a (Z.land (u32 b) 63))
  | Op.I64ShrS => shift_right_i64 a (u32 b) true
  | _ => shift_right_i64 a (u32 b) false
  end.

Definition arith32 (op : Op.t) (left right : Z) : Z :=
  let a := u32 left in
  let b := u32 right in
  u32 (match op with Op.I32Add => a + b | Op.I32Sub => a - b | _ => a * b end).
Definition arith64 (op : Op.t) (left right : Z) : Z :=
  u64 (match op with Op.I64Sub => left - right | _ => left * right end).

Definition count32 (op : Op.t) (left : Z) : Z :=
  match op with
  | Op.I32Clz => count_leading_zeroes 32 (u32 left)
  | Op.I32Ctz => count_trailing_zeroes 32 (u32 left)
  | _ => population_count 32 (u32 left)
  end.
Definition count64 (op : Op.t) (left : Z) : Z :=
  match op with
  | Op.I64Clz => count_leading_zeroes 64 left
  | Op.I64Ctz => count_trailing_zeroes 64 left
  | _ => population_count 64 left
  end.

Definition sign_extend (imm left : Z) : option Z :=
  match imm with
  | 0xc0 => Some (u32 (swrap 8 left))
  | 0xc1 => Some (u32 (swrap 16 left))
  | 0xc2 => Some (u64 (swrap 8 left))
  | 0xc3 => Some (u64 (swrap 16 left))
  | 0xc4 => Some (u64 (swrap 32 left))
  | _ => None
  end.

Definition reinterpret (imm left : Z) : Z := if (imm =? 0xbc) || (imm =? 0xbe) then Z.land left 0xffffffff else left.

(** ** Floats *)

(** The comparisons of one type, whose opcodes start at [base]. *)
Definition float_compare (base imm : Z) (a b : spec_float) : option Z :=
  match imm - base with
  | 0 => Some (b2u (SFeqb a b))
  | 1 => Some (b2u (negb (SFeqb a b)))
  | 2 => Some (b2u (SFltb a b))
  | 3 => Some (b2u (SFltb b a))
  | 4 => Some (b2u (SFleb a b))
  | 5 => Some (b2u (SFleb b a))
  | _ => None
  end.
Definition compare_f32 (imm left right : Z) : option Z :=
  float_compare 0x5b imm (f32_from_bits (u32 left)) (f32_from_bits (u32 right)).
Definition compare_f64 (imm left right : Z) : option Z :=
  float_compare 0x61 imm (f64_from_bits left) (f64_from_bits right).

(** [static_cast<double>] of a [float]. *)
Definition promote (f : spec_float) : spec_float := sf_convert 52 11 f.

Section nans.
Context `{NaNs}.

Definition f32_unary (imm left : Z) : option Z :=
  let bits := u32 left in
  let value := f32_from_bits bits in
  match imm with
  | 0x8b => Some (Z.land bits 0x7fffffff)
  | 0x8c => Some (Z.lxor bits 0x80000000)
  | 0x8d => Some (f32_to_bits imm [bits] (sf_ceil 23 8 value))
  | 0x8e => Some (f32_to_bits imm [bits] (sf_floor 23 8 value))
  | 0x8f => Some (f32_to_bits imm [bits] (sf_trunc 23 8 value))
  | 0x90 => Some (f32_nearest bits)
  | 0x91 => Some (f32_to_bits imm [bits] (SFsqrt (prec 23) (emax 8) value))
  | _ => None
  end.
Definition f64_unary (imm bits : Z) : option Z :=
  let value := f64_from_bits bits in
  match imm with
  | 0x99 => Some (Z.land bits 0x7fffffffffffffff)
  | 0x9a => Some (Z.lxor bits 0x8000000000000000)
  | 0x9b => Some (f64_to_bits imm [bits] (sf_ceil 52 11 value))
  | 0x9c => Some (f64_to_bits imm [bits] (sf_floor 52 11 value))
  | 0x9d => Some (f64_to_bits imm [bits] (sf_trunc 52 11 value))
  | 0x9e => Some (f64_nearest bits)
  | 0x9f => Some (f64_to_bits imm [bits] (SFsqrt (prec 52) (emax 11) value))
  | _ => None
  end.

Definition f32_binary (imm left right : Z) : option Z :=
  let l := u32 left in
  let r := u32 right in
  let a := f32_from_bits l in
  let b := f32_from_bits r in
  match imm with
  | 0x92 => Some (f32_to_bits imm [l; r] (SFadd (prec 23) (emax 8) a b))
  | 0x93 => Some (f32_to_bits imm [l; r] (SFsub (prec 23) (emax 8) a b))
  | 0x94 => Some (f32_to_bits imm [l; r] (SFmul (prec 23) (emax 8) a b))
  | 0x95 => Some (f32_to_bits imm [l; r] (SFdiv (prec 23) (emax 8) a b))
  | 0x96 => Some (f32_min l r)
  | 0x97 => Some (f32_max l r)
  | 0x98 => Some (Z.lor (Z.land l 0x7fffffff) (Z.land r 0x80000000))
  | _ => None
  end.
Definition f64_binary (imm l r : Z) : option Z :=
  let a := f64_from_bits l in
  let b := f64_from_bits r in
  match imm with
  | 0xa0 => Some (f64_to_bits imm [l; r] (SFadd (prec 52) (emax 11) a b))
  | 0xa1 => Some (f64_to_bits imm [l; r] (SFsub (prec 52) (emax 11) a b))
  | 0xa2 => Some (f64_to_bits imm [l; r] (SFmul (prec 52) (emax 11) a b))
  | 0xa3 => Some (f64_to_bits imm [l; r] (SFdiv (prec 52) (emax 11) a b))
  | 0xa4 => Some (f64_min l r)
  | 0xa5 => Some (f64_max l r)
  | 0xa6 => Some (Z.lor (Z.land l 0x7fffffffffffffff) (Z.land r 0x8000000000000000))
  | _ => None
  end.

(** A conversion to an integer traps where [trunc] has no result. *)
Definition truncated (trunc : spec_float -> option Z) (is_nan : bool) (value : spec_float) : NumResult :=
  if is_nan then Trap Status.TrapInvalidConversion
  else
    match trunc value with
    | Some v => Val v
    | None => Trap Status.TrapInvalidConversion
    end.

Definition float_convert (imm left : Z) : NumResult :=
  let low := u32 left in
  let f32_value := promote (f32_from_bits low) in
  let f64_value := f64_from_bits left in
  match imm with
  | 0xa8 => truncated trunc_i32_s (f32_is_nan low) f32_value
  | 0xa9 => truncated trunc_i32_u (f32_is_nan low) f32_value
  | 0xaa => truncated trunc_i32_s (f64_is_nan left) f64_value
  | 0xab => truncated trunc_i32_u (f64_is_nan left) f64_value
  | 0xae => truncated trunc_i64_s (f32_is_nan low) f32_value
  | 0xaf => truncated trunc_i64_u (f32_is_nan low) f32_value
  | 0xb0 => truncated trunc_i64_s (f64_is_nan left) f64_value
  | 0xb1 => truncated trunc_i64_u (f64_is_nan left) f64_value
  | 0xb2 => Val (f32_to_bits imm [left] (of_Z 23 8 (i32 left)))
  | 0xb3 => Val (f32_to_bits imm [left] (of_Z 23 8 low))
  | 0xb4 => Val (f32_to_bits imm [left] (of_Z 23 8 (i64 left)))
  | 0xb5 => Val (f32_to_bits imm [left] (of_Z 23 8 left))
  | 0xb7 => Val (f64_to_bits imm [left] (of_Z 52 11 (i32 left)))
  | 0xb8 => Val (f64_to_bits imm [left] (of_Z 52 11 low))
  | 0xb9 => Val (f64_to_bits imm [left] (of_Z 52 11 (i64 left)))
  | 0xba => Val (f64_to_bits imm [left] (of_Z 52 11 left))
  | _ => Bad
  end.

Definition trunc_sat (sub left : Z) : Z :=
  let value :=
    if negb (Z.land sub 2 =? 0) then f64_from_bits left else promote (f32_from_bits (u32 left)) in
  if negb (Z.land sub 4 =? 0) then
    if negb (Z.land sub 1 =? 0) then saturate_i64_u value else saturate_i64_s value
  else
    if negb (Z.land sub 1 =? 0) then saturate_i32_u value else saturate_i32_s value.

(** ** The instructions with one and with two operands *)

Definition unary_value (i : Instruction) (left : Z) : NumResult :=
  let imm := i_immediate i in
  match i_op i with
  | Op.I64ExtendI32U | Op.I32WrapI64 => Val (u32 left)
  | Op.I64ExtendI32S => Val (u64 (i32 left))
  | Op.I32Eqz => Val (b2u (u32 left =? 0))
  | Op.I64Eqz => Val (b2u (left =? 0))
  | Op.F32Unary => of_option (f32_unary imm left)
  | Op.F64Unary => of_option (f64_unary imm left)
  | Op.FloatConvert => float_convert (imm mod 256) left
  | Op.F32DemoteF64 => Val (f32_to_bits 0xb6 [left] (sf_convert 23 8 (f64_from_bits left)))
  | Op.F64PromoteF32 => Val (f64_to_bits 0xbb [u32 left] (promote (f32_from_bits (u32 left))))
  | Op.Reinterpret => Val (reinterpret imm left)
  | Op.SignExtend => of_option (sign_extend imm left)
  | Op.I32Clz | Op.I32Ctz | Op.I32Popcnt => Val (count32 (i_op i) left)
  | Op.I64Clz | Op.I64Ctz | Op.I64Popcnt => Val (count64 (i_op i) left)
  | Op.TruncSat => Val (trunc_sat (i_operand i) left)
  | _ => Bad
  end.

Definition binary_value (i : Instruction) (left right : Z) : NumResult :=
  let imm := i_immediate i in
  match i_op i with
  | Op.I64Add => Val (u64 (left + right))
  | Op.I64Sub | Op.I64Mul => Val (arith64 (i_op i) left right)
  | Op.I32DivS | Op.I32DivU | Op.I32RemS | Op.I32RemU => divide 32 (i_op i) left right
  | Op.I64DivS | Op.I64DivU | Op.I64RemS | Op.I64RemU => divide 64 (i_op i) left right
  | Op.I32Cmp => Val (compare_i32 (imm mod 256) (u32 left) (u32 right))
  | Op.I64Cmp => Val (compare_i64 (imm mod 256) left right)
  | Op.F32Cmp => of_option (compare_f32 imm left right)
  | Op.F64Cmp => of_option (compare_f64 imm left right)
  | Op.F32Binary => of_option (f32_binary imm left right)
  | Op.F64Binary => of_option (f64_binary imm left right)
  | Op.I32Rotl => Val (rotate_left 32 (u32 left) (u32 right))
  | Op.I32Rotr => Val (rotate_right 32 (u32 left) (u32 right))
  | Op.I64Rotl => Val (rotate_left 64 left (u32 right))
  | Op.I64Rotr => Val (rotate_right 64 left (u32 right))
  | Op.I32And | Op.I32Or | Op.I32Xor | Op.I32Shl | Op.I32ShrS | Op.I32ShrU => Val (bitwise32 (i_op i) left right)
  | Op.I64And | Op.I64Or | Op.I64Xor | Op.I64Shl | Op.I64ShrS | Op.I64ShrU => Val (bitwise64 (i_op i) left right)
  | Op.I32Add | Op.I32Sub | Op.I32Mul => Val (arith32 (i_op i) left right)
  | _ => Bad
  end.
End nans.
