(* ===== verification/WasmDecode.v ===== *)
(** * WasmDecode: reading a module ([core/wasm/wasm.cc])

    The reader with its LEB128 numbers, the lowering of one function body and
    the sections.  A reader is the list of the bytes still to be read.
    Allocation does not fail here; running out of arena memory would end the
    decoding with [OutOfMemory]. *)

From S2P Require Import Prelude WasmNum.

(** ** The reader *)

Definition rd_u8 (s : list byte) : option (Z * list byte) :=
  match s with
  | [] => None
  | c :: s' => Some (b2z c, s')
  end.

Definition rd_bytes (n : Z) (s : list byte) : option (list byte * list byte) :=
  if n <=? zlen s then Some (take (Z.to_nat n) s, drop (Z.to_nat n) s) else None.

Fixpoint uleb32_loop (n : nat) (shift result : Z) (s : list byte) : option (Z * list byte) :=
  match n with
  | O => None
  | S n' =>
      match s with
      | [] => None
      | c :: s' =>
          let byte := b2z c in
          if (shift =? 28) && negb (Z.land byte 0xf0 =? 0) then None
          else
            let result := Z.lor result (Z.shiftl (Z.land byte 0x7f) shift) in
            if Z.land byte 0x80 =? 0 then Some (u32 result, s') else uleb32_loop n' (shift + 7) result s'
      end
  end.
Definition uleb32 : list byte -> option (Z * list byte) := uleb32_loop 5 0 0.

(** [sleb32] and [sleb64] for a width [w], whose last byte starts at bit
    [last] and may only have [ext] all clear or all set. *)
Fixpoint sleb_loop (n : nat) (w last ext : Z) (shift result : Z) (s : list byte) : option (Z * list byte) :=
  match n with
  | O => None
  | S n' =>
      match s with
      | [] => None
      | c :: s' =>
          let byte := b2z c in
          if (shift =? last) && negb (Z.land byte ext =? 0) && negb (Z.land byte ext =? ext) then None
          else
            let result := Z.lor result (Z.shiftl (Z.land byte 0x7f) shift) in
            let shift := shift + 7 in
            if Z.land byte 0x80 =? 0 then
              Some (swrap w (if (shift <? w) && negb (Z.land byte 0x40 =? 0) then Z.lor result (Z.shiftl (-1) shift) else result), s')
            else sleb_loop n' w last ext shift result s'
      end
  end.
Definition sleb32 : list byte -> option (Z * list byte) := sleb_loop 5 32 28 0x70 0 0.
Definition sleb64 : list byte -> option (Z * list byte) := sleb_loop 10 64 63 0x7e 0 0.

Definition rd_name (s : list byte) : option (list byte * list byte) :=
  match uleb32 s with
  | None => None
  | Some (n, s') => rd_bytes n s'
  end.

(** Decoding: the reader is the state, and a failure a status. *)
Abbreviation DM A := (M (list byte) Status.t A).

(** [if (!reader.f(...)) return st] *)
Definition need {A} (st : Status.t) (f : list byte -> option (A * list byte)) : DM A := fun s =>
  match f s with
  | Some (a, s') => (Ok a, s')
  | None => (Err st, s)
  end.
Definition check (st : Status.t) (b : bool) : DM unit := if b then mret tt else throw st.

(** [n] items in a row. *)
Fixpoint repeat_dm {A} (n : nat) (f : DM A) : DM (list A) :=
  match n with
  | O => mret []
  | S n' => x ← f; l ← repeat_dm n' f; mret (x :: l)
  end.

Definition need_type (st : Status.t) : DM ValueType.t :=
  b ← need st rd_u8;
  match value_type b with Some t => mret t | None => throw st end.

(** ** One instruction *)

Definition all_ones : Z := 2 ^ 64 - 1.
Definition blank (op : Op.t) : Instruction := mkI all_ones 0 op None 0 false.
Definition with_operand (n : Z) (i : Instruction) : Instruction :=
  mkI (i_union i) n (i_op i) (i_block i) (i_width i) (i_signed i).
Definition with_operand2 (n : Z) (i : Instruction) : Instruction :=
  mkI (Z.shiftl (Z.shiftr (i_union i) 32) 32 + n) (i_operand i) (i_op i) (i_block i) (i_width i) (i_signed i).
Definition with_immediate (n : Z) (i : Instruction) : Instruction :=
  mkI n (i_operand i) (i_op i) (i_block i) (i_width i) (i_signed i).

(** The opcodes without operands. *)
Definition simple_op (opcode : Z) : option Op.t :=
  match opcode with
  | 0x00 => Some Op.Unreachable | 0x01 => Some Op.Nop | 0x0f => Some Op.Return
  | 0x1a => Some Op.Drop | 0x1b => Some Op.Select
  | 0x45 => Some Op.I32Eqz | 0x67 => Some Op.I32Clz | 0x68 => Some Op.I32Ctz | 0x69 => Some Op.I32Popcnt
  | 0x77 => Some Op.I32Rotl | 0x78 => Some Op.I32Rotr
  | 0x79 => Some Op.I64Clz | 0x7a => Some Op.I64Ctz | 0x7b => Some Op.I64Popcnt
  | 0x89 => Some Op.I64Rotl | 0x8a => Some Op.I64Rotr | 0x50 => Some Op.I64Eqz
  | 0x6d => Some Op.I32DivS | 0x6e => Some Op.I32DivU | 0x6f => Some Op.I32RemS | 0x70 => Some Op.I32RemU
  | 0x71 => Some Op.I32And | 0x72 => Some Op.I32Or | 0x73 => Some Op.I32Xor
  | 0x74 => Some Op.I32Shl | 0x75 => Some Op.I32ShrS | 0x76 => Some Op.I32ShrU
  | 0x83 => Some Op.I64And | 0x84 => Some Op.I64Or | 0x85 => Some Op.I64Xor
  | 0x86 => Some Op.I64Shl | 0x87 => Some Op.I64ShrS | 0x88 => Some Op.I64ShrU
  | 0x7c => Some Op.I64Add | 0x7d => Some Op.I64Sub | 0x7e => Some Op.I64Mul
  | 0x7f => Some Op.I64DivS | 0x80 => Some Op.I64DivU | 0x81 => Some Op.I64RemS | 0x82 => Some Op.I64RemU
  | 0xa7 => Some Op.I32WrapI64 | 0xac => Some Op.I64ExtendI32S | 0xad => Some Op.I64ExtendI32U
  | 0x6a => Some Op.I32Add | 0x6b => Some Op.I32Sub | 0x6c => Some Op.I32Mul
  | 0xb6 => Some Op.F32DemoteF64 | 0xbb => Some Op.F64PromoteF32
  | _ => None
  end.

Definition within (lo hi x : Z) : bool := (lo <=? x) && (x <=? hi).

(** The opcodes kept in [immediate]. *)
Definition opcode_op (opcode : Z) : option Op.t :=
  if within 0x46 0x4f opcode then Some Op.I32Cmp
  else if within 0x51 0x5a opcode then Some Op.I64Cmp
  else if within 0x5b 0x60 opcode then Some Op.F32Cmp
  else if within 0x61 0x66 opcode then Some Op.F64Cmp
  else if within 0x8b 0x91 opcode then Some Op.F32Unary
  else if within 0x92 0x98 opcode then Some Op.F32Binary
  else if within 0x99 0x9f opcode then Some Op.F64Unary
  else if within 0xa0 0xa6 opcode then Some Op.F64Binary
  else if within 0xa8 0xab opcode || within 0xae 0xb5 opcode || within 0xb7 0xba opcode then Some Op.FloatConvert
  else if within 0xbc 0xbf opcode then Some Op.Reinterpret
  else if within 0xc0 0xc4 opcode then Some Op.SignExtend
  else None.

(** Loads and stores. *)
Definition memory_op (opcode : Z) : Op.t :=
  if (opcode =? 0x28) || within 0x2c 0x2f opcode then Op.I32Load
  else if (opcode =? 0x29) || within 0x30 0x35 opcode then Op.I64Load
  else if opcode =? 0x2a then Op.F32Load
  else if opcode =? 0x2b then Op.F64Load
  else if (opcode =? 0x36) || within 0x3a 0x3b opcode then Op.I32Store
  else if (opcode =? 0x37) || within 0x3c 0x3e opcode then Op.I64Store
  else if opcode =? 0x38 then Op.F32Store
  else Op.F64Store.
Definition memory_shape (opcode : Z) : Z * bool :=
  match opcode with
  | 0x29 | 0x37 | 0x2b | 0x39 => (8, false)
  | 0x2c => (1, true) | 0x2d => (1, false)
  | 0x2e => (2, true) | 0x2f => (2, false)
  | 0x30 => (1, true) | 0x31 => (1, false)
  | 0x32 => (2, true) | 0x33 => (2, false)
  | 0x34 => (4, true) | 0x35 => (4, false)
  | 0x3a | 0x3c => (1, false)
  | 0x3b | 0x3d => (2, false)
  | 0x3e => (4, false)
  | _ => (4, false)
  end.

Definition one_operand (op : Op.t) : DM (Instruction * list Z) :=
  n ← need Status.Malformed uleb32;
  mret (with_operand n (blank op), []).

(** [br_table]: the targets with the default one last; [count] is
    [body->branch_count]. *)
Definition decode_br_table (count : Z) : DM (Instruction * list Z) :=
  n ← need Status.Unsupported uleb32;
  _ ← check Status.Unsupported (n <=? kMaxBranchTargets - 1);
  ts ← repeat_dm (S (Z.to_nat n)) (need Status.Malformed uleb32);
  mret (with_operand2 (n + 1) (with_operand count (blank Op.BrTable)), ts).

Definition decode_memory_op (opcode : Z) : DM (Instruction * list Z) :=
  align ← need Status.Malformed uleb32;
  offset ← need Status.Malformed uleb32;
  let '(width, sgn) := memory_shape opcode in
  mret (with_operand2 offset (mkI all_ones align (memory_op opcode) None width sgn), []).

Definition zero_byte : DM unit :=
  b ← need Status.Malformed rd_u8;
  check Status.Malformed (b =? 0).

Definition decode_prefixed : DM (Instruction * list Z) :=
  sub ← need Status.Malformed uleb32;
  if sub <=? 7 then mret (with_operand sub (blank Op.TruncSat), [])
  else if sub =? 10 then
    _ ← zero_byte;
    _ ← zero_byte;
    mret (blank Op.MemoryCopy, [])
  else if sub =? 11 then
    _ ← zero_byte;
    mret (blank Op.MemoryFill, [])
  else throw Status.Unsupported.

(** The instructions other than [block], [loop], [if], [else] and [end]. *)
Definition decode_plain (opcode count : Z) : DM (Instruction * list Z) :=
  match simple_op opcode with
  | Some op => mret (blank op, [])
  | None =>
      match opcode_op opcode with
      | Some op => mret (with_immediate opcode (blank op), [])
      | None =>
          if opcode =? 0x0c then one_operand Op.Br
          else if opcode =? 0x0d then one_operand Op.BrIf
          else if opcode =? 0x0e then decode_br_table count
          else if opcode =? 0x10 then one_operand Op.Call
          else if opcode =? 0x11 then
            ty ← need Status.Malformed uleb32;
            tab ← need Status.Malformed uleb32;
            mret (with_operand2 tab (with_operand ty (blank Op.CallIndirect)), [])
          else if opcode =? 0x20 then one_operand Op.LocalGet
          else if opcode =? 0x21 then one_operand Op.LocalSet
          else if opcode =? 0x22 then one_operand Op.LocalTee
          else if opcode =? 0x23 then one_operand Op.GlobalGet
          else if opcode =? 0x24 then one_operand Op.GlobalSet
          else if within 0x28 0x3e opcode then decode_memory_op opcode
          else if within 0x3f 0x40 opcode then
            _ ← zero_byte;
            mret (blank (if opcode =? 0x3f then Op.MemorySize else Op.MemoryGrow), [])
          else if opcode =? 0x41 then
            v ← need Status.Malformed sleb32;
            mret (with_immediate (u32 v) (blank Op.I32Const), [])
          else if opcode =? 0x42 then
            v ← need Status.Malformed sleb64;
            mret (with_immediate (u64 v) (blank Op.I64Const), [])
          else if opcode =? 0x43 then
            b ← need Status.Malformed (rd_bytes 4);
            mret (with_immediate (le_combine b) (blank Op.F32Const), [])
          else if opcode =? 0x44 then
            b ← need Status.Malformed (rd_bytes 8);
            mret (with_immediate (le_combine b) (blank Op.F64Const), [])
          else if opcode =? 0xfc then decode_prefixed
          else throw Status.Unsupported
      end
  end.

(** ** One body *)

Record OpenControl := mkOpen { oc_opening : nat; oc_opcode : Z; oc_has_else : bool }.

Definition block_op (opcode : Z) : Op.t :=
  if opcode =? 0x02 then Op.Block else if opcode =? 0x03 then Op.Loop else Op.If.

(** The loop over the instructions: those so far, the open blocks with the
    index of the instruction that opened each, and the targets of the
    [br_table]s.  Every round reads at least one byte. *)
Fixpoint body_loop (fuel : nat) (ops : list Instruction) (controls : list OpenControl) (targets : list Z)
  : DM (list Instruction * list Z) :=
  match fuel with
  | O => throw Status.Malformed
  | S f =>
      rest ← getS;
      match rest with
      | [] => throw Status.Malformed
      | _ =>
          _ ← check Status.Unsupported (zlen ops <? kMaxInstructions);
          opcode ← need Status.Malformed rd_u8;
          if within 0x02 0x04 opcode then
            bt ← need Status.Malformed rd_u8;
            _ ← check Status.Malformed (valid_block_type bt);
            _ ← check Status.Unsupported (zlen controls <? kMaxControlDepth - 1);
            body_loop f (ops ++ [mkI all_ones 0 (block_op opcode) (value_type bt) 0 false])
              (mkOpen (length ops) opcode false :: controls) targets
          else if opcode =? 0x05 then
            match controls with
            | c :: cs =>
                _ ← check Status.Malformed ((oc_opcode c =? 0x04) && negb (oc_has_else c));
                body_loop f (alter (set_else_pc (zlen ops)) (oc_opening c) ops ++ [blank Op.Else])
                  (mkOpen (oc_opening c) (oc_opcode c) true :: cs) targets
            | [] => throw Status.Malformed
            end
          else if opcode =? 0x0b then
            match controls with
            | c :: cs => body_loop f (alter (set_end_pc (zlen ops)) (oc_opening c) ops ++ [blank Op.End]) cs targets
            | [] =>
                rest ← getS;
                match rest with
                | [] => mret (ops ++ [blank Op.End], targets)
                | _ => throw Status.Malformed
                end
            end
          else
            r ← decode_plain opcode (zlen targets);
            body_loop f (ops ++ [r.1]) controls (targets ++ r.2)
      end
  end.

(** The groups of locals. *)
Fixpoint locals_loop (n : nat) (locals : list ValueType.t) : DM (list ValueType.t) :=
  match n with
  | O => mret locals
  | S n' =>
      count ← need Status.Malformed uleb32;
      t ← need_type Status.Malformed;
      _ ← check Status.Unsupported (count <=? kMaxLocals - zlen locals);
      locals_loop n' (locals ++ replicate (Z.to_nat count) t)
  end.

(** [decode_body]: the local types, the lowered instructions and the branch
    targets. *)
Definition decode_body : DM (list ValueType.t * list Instruction * list Z) :=
  groups ← need Status.Malformed uleb32;
  rest ← getS;
  locals ← locals_loop (Z.to_nat groups) [];
  r ← body_loop (S (length rest)) [] [] [];
  mret (locals, r.1, r.2).

(** A body from its bytes. *)
Definition lower (code : list byte) : outcome Status.t (list ValueType.t * list Instruction * list Z) :=
  (decode_body code).1.

(** ** The sections *)

Definition limited (max : Z) : DM nat :=
  n ← need Status.Malformed uleb32;
  _ ← check Status.Malformed (n <=? max);
  mret (Z.to_nat n).

Definition read_limits (s : list byte) : option ((Z * Z * bool) * list byte) :=
  match rd_u8 s with
  | None => None
  | Some (flags, s) =>
      if 1 <? flags then None
      else
        match uleb32 s with
        | None => None
        | Some (minimum, s) =>
            if flags =? 1 then
              match uleb32 s with
              | None => None
              | Some (maximum, s) => if minimum <=? maximum then Some ((minimum, maximum, true), s) else None
              end
            else Some ((minimum, 0, false), s)
        end
  end.

(** A vector of at most [max] value types. *)
Definition type_vector (max : Z) : DM (list ValueType.t) :=
  n ← need Status.Unsupported uleb32;
  _ ← check Status.Unsupported (n <=? max);
  repeat_dm (Z.to_nat n) (need_type Status.Malformed).

Definition decode_func_type : DM FuncType :=
  tag ← need Status.Malformed rd_u8;
  _ ← check Status.Malformed (tag =? 0x60);
  ps ← type_vector 16;
  rs ← type_vector 4;
  mret (mkFuncType ps rs).
Definition decode_type_section : DM (list FuncType) :=
  n ← limited kMaxTypes;
  repeat_dm n decode_func_type.

Definition decode_import : DM Import :=
  md ← need Status.Malformed rd_name;
  field ← need Status.Malformed rd_name;
  kind ← need Status.Malformed rd_u8;
  _ ← check Status.Unsupported (kind =? 0);
  ty ← need Status.Malformed uleb32;
  mret (mkImport md field kind ty).
Definition decode_import_section : DM (list Import) :=
  n ← limited kMaxImports;
  repeat_dm n decode_import.

Definition decode_function_section : DM (list Z) :=
  n ← limited kMaxFunctions;
  repeat_dm n (need Status.Malformed uleb32).

(** At most one table or memory. *)
Definition at_most_one {A} (f : DM A) : DM (option A) :=
  n ← need Status.Unsupported uleb32;
  _ ← check Status.Unsupported (n <=? 1);
  if n =? 0 then mret None
  else
    x ← f;
    mret (Some x).
Definition decode_table_section : DM (option TableDesc) :=
  at_most_one (
    t ← need Status.Unsupported rd_u8;
    _ ← check Status.Unsupported (t =? 0x70);
    l ← need Status.Malformed read_limits;
    mret (mkTable l.1.1 l.1.2 l.2)).
Definition decode_memory_section : DM (option MemoryDesc) :=
  at_most_one (
    l ← need Status.Malformed read_limits;
    mret (mkMemory l.1.1 l.1.2 l.2)).

(** The value of an initializer of type [t]. *)
Definition decode_init (t : ValueType.t) : DM Z :=
  opcode ← need Status.Malformed rd_u8;
  if opcode =? 0x41 then
    _ ← check Status.Malformed (bool_decide (t = ValueType.I32));
    need Status.Malformed sleb32
  else if opcode =? 0x42 then
    _ ← check Status.Malformed (bool_decide (t = ValueType.I64));
    need Status.Malformed sleb64
  else if opcode =? 0x43 then
    _ ← check Status.Malformed (bool_decide (t = ValueType.F32));
    b ← need Status.Malformed (rd_bytes 4);
    mret (i32 (le_combine b))
  else if opcode =? 0x44 then
    _ ← check Status.Malformed (bool_decide (t = ValueType.F64));
    b ← need Status.Malformed (rd_bytes 8);
    mret (i64 (le_combine b))
  else throw Status.Unsupported.

Definition end_byte : DM unit :=
  b ← need Status.Malformed rd_u8;
  check Status.Malformed (b =? 0x0b).

Definition decode_global : DM GlobalDesc :=
  t ← need_type Status.Malformed;
  mut ← need Status.Malformed rd_u8;
  _ ← check Status.Malformed (mut <=? 1);
  v ← decode_init t;
  _ ← end_byte;
  mret (mkGlobal t (negb (mut =? 0)) true v).
Definition decode_global_section : DM (list GlobalDesc) :=
  n ← limited kMaxTypes;
  repeat_dm n decode_global.

(** The offset of an element or data segment: flags 0 and an [i32.const]. *)
Definition decode_offset : DM Z :=
  flags ← need Status.Unsupported uleb32;
  _ ← check Status.Unsupported (flags =? 0);
  opcode ← need Status.Unsupported rd_u8;
  _ ← check Status.Unsupported (opcode =? 0x41);
  off ← need Status.Unsupported sleb32;
  _ ← end_byte;
  mret off.

Definition decode_element : DM ElementSegment :=
  off ← decode_offset;
  n ← limited kMaxFunctions;
  fs ← repeat_dm n (need Status.Malformed uleb32);
  mret (mkElem 0 true off fs).
Definition decode_element_section : DM (list ElementSegment) :=
  n ← limited kMaxExports;
  repeat_dm n decode_element.

Definition decode_export : DM Export :=
  name ← need Status.Malformed rd_name;
  kind ← need Status.Malformed rd_u8;
  _ ← check Status.Unsupported ((kind =? 0) || (kind =? 2));
  idx ← need Status.Malformed uleb32;
  mret (mkExport name kind idx).
Definition decode_export_section : DM (list Export) :=
  n ← limited kMaxExports;
  repeat_dm n decode_export.

Definition decode_data : DM DataSegment :=
  off ← decode_offset;
  size ← need Status.Malformed uleb32;
  bytes ← need Status.Malformed (rd_bytes size);
  mret (mkData (u32 off) bytes).
Definition decode_data_section (declared : option Z) (has_memory : bool) : DM (list DataSegment) :=
  count ← need Status.Malformed uleb32;
  _ ← check Status.Malformed (match declared with Some n => count =? n | None => true end);
  _ ← check Status.Malformed ((count <=? 0) || has_memory);
  repeat_dm (Z.to_nat count) decode_data.

(** One entry of the code section; [base] targets are recorded before it. *)
Definition decode_code (base : Z) : DM (FunctionBody * list Z) :=
  size ← need Status.Malformed uleb32;
  code ← need Status.Malformed (rd_bytes size);
  match lower code with
  | Ok (locals, ops, targets) => mret (mkBody 0 locals (zlen ops) None 0 base (zlen targets) code, targets)
  | Err e => throw e
  | Panic => panic
  end.
Fixpoint code_loop (n : nat) (targets : list Z) : DM (list FunctionBody * list Z) :=
  match n with
  | O => mret ([], targets)
  | S n' =>
      b ← decode_code (zlen targets);
      r ← code_loop n' (targets ++ b.2);
      mret (b.1 :: r.1, r.2)
  end.
Definition decode_code_section (functions : Z) : DM (list FunctionBody * list Z) :=
  count ← need Status.Malformed uleb32;
  _ ← check Status.Malformed (count =? functions);
  code_loop (Z.to_nat count) [].
