(* ===== verification/WasmModule.v ===== *)
(** * WasmModule: validating and accepting a module ([core/wasm/wasm.cc])

    First the validator of a body, then [Module::decode] as a whole.

    [ValidationContext] as a state: the operand types and the open controls,
    the newest first, and the deepest stack so far.  A step that fails keeps
    the status of its first failure. *)

From S2P Require Import Prelude WasmNum WasmDecode.

Module ValidationType.
Inductive t := Bottom | I32 | I64 | F32 | F64.
End ValidationType.

#[export] Instance validation_type_eq_dec : EqDecision ValidationType.t.
Proof. solve_decision. Defined.

Abbreviation VT := ValidationType.t.

Definition validation_type (t : ValueType.t) : VT :=
  match t with
  | ValueType.I32 => ValidationType.I32
  | ValueType.I64 => ValidationType.I64
  | ValueType.F32 => ValidationType.F32
  | ValueType.F64 => ValidationType.F64
  | _ => ValidationType.Bottom
  end.

Definition compatible_types (actual expected : VT) : bool :=
  bool_decide (actual = ValidationType.Bottom) || bool_decide (expected = ValidationType.Bottom)
  || bool_decide (actual = expected).

(** [vc_opcode] is [None] for the implicit control of the function. *)
Record ValidationControl := mkControl {
  vc_opcode : option Op.t; vc_height : nat; vc_label_types : list VT; vc_end_types : list VT;
  vc_unreachable : bool; vc_has_else : bool
}.

Record VCtx := mkV { v_stack : list VT; v_controls : list ValidationControl; v_max : nat; v_ended : bool }.

Abbreviation VM A := (M VCtx Status.t A).

Definition fail {A} (st : Status.t) : VM A := throw st.

Definition set_vstack (l : list VT) (v : VCtx) : VCtx := mkV l (v_controls v) (v_max v) (v_ended v).
Definition set_controls (l : list ValidationControl) (v : VCtx) : VCtx := mkV (v_stack v) l (v_max v) (v_ended v).

Definition current_control : VM ValidationControl :=
  v ← getS;
  match v_controls v with
  | c :: _ => mret c
  | [] => fail Status.Internal
  end.

Definition push_type (t : VT) : VM unit :=
  c ← current_control;
  v ← getS;
  let n := length (v_stack v) in
  if bool_decide (n < vc_height c)%nat then fail Status.Internal
  else if kMaxTypeStack <=? Z.of_nat n then fail Status.Unsupported
  else putS (mkV (t :: v_stack v) (v_controls v) (Nat.max (v_max v) (S n)) (v_ended v)).

(** The type taken off the stack; in code that cannot be reached there is
    always one, of no particular type. *)
Definition pop_select_type : VM VT :=
  c ← current_control;
  v ← getS;
  if bool_decide (length (v_stack v) < vc_height c)%nat then fail Status.TypeMismatch
  else if bool_decide (length (v_stack v) = vc_height c) then
    if negb (vc_unreachable c) then fail Status.TypeMismatch else mret ValidationType.Bottom
  else
    match v_stack v with
    | t :: l => _ ← putS (set_vstack l v); mret t
    | [] => fail Status.TypeMismatch
    end.

Definition pop_type (expected : VT) : VM unit :=
  actual ← pop_select_type;
  if compatible_types actual expected then mret tt else fail Status.TypeMismatch.

(** From the last type to the first. *)
Fixpoint pop_each (types : list VT) : VM unit :=
  match types with
  | [] => mret tt
  | t :: l => _ ← pop_type t; pop_each l
  end.
Definition pop_types (types : list VT) : VM unit := pop_each (rev types).
Fixpoint push_types (types : list VT) : VM unit :=
  match types with
  | [] => mret tt
  | t :: l => _ ← push_type t; push_types l
  end.

(** The conversions of [pop_value_types] and [push_value_types]. *)
Definition converted (types : list ValueType.t) : VM (list VT) :=
  let l := map validation_type types in
  if bool_decide (ValidationType.Bottom ∈ l) then fail Status.Malformed else mret l.
Definition pop_value_types (types : list ValueType.t) : VM unit :=
  l ← converted types;
  pop_types l.
Definition push_value_types (types : list ValueType.t) : VM unit :=
  l ← converted types;
  push_types l.

Definition initialize_control (ty : FuncType) : VM unit :=
  if (16 <? zlen (params ty)) || (4 <? zlen (results ty)) then fail Status.Malformed
  else
    l ← converted (results ty);
    modifyS (fun v => set_controls (mkControl None 0 l l false false :: v_controls v) v).

Definition parent_unreachable (l : list ValidationControl) : bool :=
  match l with
  | c :: _ => vc_unreachable c
  | [] => false
  end.

Definition push_control (op : Op.t) (block : option ValueType.t) : VM unit :=
  v ← getS;
  if kMaxControlDepth <=? zlen (v_controls v) then fail Status.Unsupported
  else
    l ← converted (match block with Some t => [t] | None => [] end);
    let labels := match op with Op.Loop => [] | _ => l end in
    modifyS (fun v => set_controls
      (mkControl (Some op) (length (v_stack v)) labels l (parent_unreachable (v_controls v)) false :: v_controls v) v).

Definition finish_control (c : ValidationControl) : VM unit :=
  _ ← pop_types (vc_end_types c);
  v ← getS;
  if bool_decide (length (v_stack v) = vc_height c) then mret tt else fail Status.TypeMismatch.

(** The last [n] entries. *)
Definition bottom {A} (n : nat) (l : list A) : list A := drop (length l - n) l.

Definition mark_unreachable : VM unit :=
  v ← getS;
  match v_controls v with
  | [] => fail Status.Internal
  | c :: cs =>
      let c' := mkControl (vc_opcode c) (vc_height c) (vc_label_types c) (vc_end_types c) true (vc_has_else c) in
      putS (mkV (bottom (vc_height c) (v_stack v)) (c' :: cs) (v_max v) (v_ended v))
  end.

Definition end_control : VM unit :=
  v ← getS;
  match v_controls v with
  | [] => fail Status.Malformed
  | c :: cs =>
      match vc_opcode c with
      | None =>
          if negb (bool_decide (cs = [])) then fail Status.Malformed
          else
            _ ← finish_control c;
            modifyS (fun v => mkV (v_stack v) cs (v_max v) true)
      | Some op =>
          let lone_if := match op with Op.If => negb (vc_has_else c) && negb (bool_decide (vc_end_types c = [])) | _ => false end in
          if lone_if then fail Status.TypeMismatch
          else
            _ ← finish_control c;
            _ ← modifyS (set_controls cs);
            push_types (vc_end_types c)
      end
  end.

Definition enter_else : VM unit :=
  v ← getS;
  match v_controls v with
  | [] => fail Status.Malformed
  | c :: cs =>
      let is_if := match vc_opcode c with Some Op.If => true | _ => false end in
      if negb is_if || vc_has_else c then fail Status.Malformed
      else
        _ ← finish_control c;
        modifyS (fun v => mkV (bottom (vc_height c) (v_stack v))
          (mkControl (vc_opcode c) (vc_height c) (vc_label_types c) (vc_end_types c) (parent_unreachable cs) true :: cs)
          (v_max v) (v_ended v))
  end.

Definition validate_binary (operand result : VT) : VM unit :=
  _ ← pop_type operand;
  _ ← pop_type operand;
  push_type result.
Definition validate_unary (operand result : VT) : VM unit :=
  _ ← pop_type operand;
  push_type result.

Definition validate_select : VM unit :=
  _ ← pop_type ValidationType.I32;
  right ← pop_select_type;
  left ← pop_select_type;
  if negb (bool_decide (left = ValidationType.Bottom)) && negb (bool_decide (right = ValidationType.Bottom))
     && negb (bool_decide (left = right)) then fail Status.TypeMismatch
  else push_type (if bool_decide (left = ValidationType.Bottom) then right else left).

(** The signatures chosen by an immediate. *)
Definition float_convert_type (imm : Z) : option (VT * VT) :=
  match imm with
  | 0xa8 | 0xa9 => Some (ValidationType.F32, ValidationType.I32)
  | 0xaa | 0xab => Some (ValidationType.F64, ValidationType.I32)
  | 0xae | 0xaf => Some (ValidationType.F32, ValidationType.I64)
  | 0xb0 | 0xb1 => Some (ValidationType.F64, ValidationType.I64)
  | 0xb2 | 0xb3 => Some (ValidationType.I32, ValidationType.F32)
  | 0xb4 | 0xb5 => Some (ValidationType.I64, ValidationType.F32)
  | 0xb7 | 0xb8 => Some (ValidationType.I32, ValidationType.F64)
  | 0xb9 | 0xba => Some (ValidationType.I64, ValidationType.F64)
  | _ => None
  end.
Definition reinterpret_type (imm : Z) : option (VT * VT) :=
  match imm with
  | 0xbc => Some (ValidationType.F32, ValidationType.I32)
  | 0xbd => Some (ValidationType.F64, ValidationType.I64)
  | 0xbe => Some (ValidationType.I32, ValidationType.F32)
  | 0xbf => Some (ValidationType.I64, ValidationType.F64)
  | _ => None
  end.
Definition sign_extend_type (imm : Z) : option (VT * VT) :=
  match imm with
  | 0xc0 | 0xc1 => Some (ValidationType.I32, ValidationType.I32)
  | 0xc2 | 0xc3 | 0xc4 => Some (ValidationType.I64, ValidationType.I64)
  | _ => None
  end.
Definition trunc_sat_type (sub : Z) : option (VT * VT) :=
  match sub with
  | 0 | 1 => Some (ValidationType.F32, ValidationType.I32)
  | 2 | 3 => Some (ValidationType.F64, ValidationType.I32)
  | 4 | 5 => Some (ValidationType.F32, ValidationType.I64)
  | 6 | 7 => Some (ValidationType.F64, ValidationType.I64)
  | _ => None
  end.
Definition by_type (sig : option (VT * VT)) : VM unit :=
  match sig with
  | Some (operand, result) => validate_unary operand result
  | None => fail Status.Malformed
  end.

(** ** One instruction of a body *)

Section body.
Variables (m : ModuleData) (ty : FuncType) (locals : list ValueType.t) (branch_base : Z).

(** The type of a parameter or local. *)
Definition local_type (idx : Z) : option VT :=
  match at_ (params ty ++ locals) idx with
  | Some t => if bool_decide (validation_type t = ValidationType.Bottom) then None else Some (validation_type t)
  | None => None
  end.

Definition require_memory : VM unit :=
  match m_memory m with Some _ => mret tt | None => fail Status.TypeMismatch end.

Definition natural_alignment (width : Z) : Z :=
  if width =? 2 then 1 else if width =? 4 then 2 else if width =? 8 then 3 else 0.
Definition validate_alignment (i : Instruction) : VM unit :=
  if i_operand i <=? natural_alignment (i_width i) then mret tt else fail Status.TypeMismatch.

(** The type a load or store moves, and whether its width is possible. *)
Definition memory_type (i : Instruction) : option VT :=
  let narrow := (i_width i =? 1) || (i_width i =? 2) || (i_width i =? 4) in
  match i_op i with
  | Op.I32Load | Op.I32Store => if narrow then Some ValidationType.I32 else None
  | Op.I64Load | Op.I64Store => if narrow || (i_width i =? 8) then Some ValidationType.I64 else None
  | Op.F32Load | Op.F32Store => if (i_width i =? 4) && negb (i_signed i) then Some ValidationType.F32 else None
  | Op.F64Load | Op.F64Store => if (i_width i =? 8) && negb (i_signed i) then Some ValidationType.F64 else None
  | _ => None
  end.

Definition validate_load (i : Instruction) : VM unit :=
  _ ← require_memory;
  _ ← validate_alignment i;
  match memory_type i with
  | None => fail Status.Malformed
  | Some t => _ ← pop_type ValidationType.I32; push_type t
  end.
Definition validate_store (i : Instruction) : VM unit :=
  _ ← require_memory;
  _ ← validate_alignment i;
  match memory_type i with
  | None => fail Status.Malformed
  | Some t => _ ← pop_type t; pop_type ValidationType.I32
  end.

Definition validate_call (i : Instruction) : VM unit :=
  match function_type m (i_operand i) with
  | None => fail Status.TypeMismatch
  | Some callee => _ ← pop_value_types (params callee); push_value_types (results callee)
  end.

Definition validate_call_indirect (i : Instruction) : VM unit :=
  match m_table m with
  | Some _ =>
      if negb (i_operand2 i =? 0) then fail Status.TypeMismatch
      else
        match at_ (m_types m) (i_operand i) with
        | None => fail Status.TypeMismatch
        | Some callee =>
            _ ← pop_type ValidationType.I32;
            _ ← pop_value_types (params callee);
            push_value_types (results callee)
        end
  | None => fail Status.TypeMismatch
  end.

Definition local_or_fail (idx : Z) : VM VT :=
  match local_type idx with Some t => mret t | None => fail Status.TypeMismatch end.

(** The descriptor of a global, which [global.set] needs to be mutable. *)
Definition global_or_fail (idx : Z) (set : bool) : VM VT :=
  match at_ (m_globals m) idx with
  | None => fail Status.TypeMismatch
  | Some g =>
      if bool_decide (validation_type (g_value_type g) = ValidationType.Bottom) then fail Status.Malformed
      else if set && negb (g_mutable g) then fail Status.TypeMismatch
      else mret (validation_type (g_value_type g))
  end.

(** The control [depth] levels out. *)
Definition control_at (depth : Z) : VM ValidationControl :=
  v ← getS;
  match at_ (v_controls v) depth with
  | Some c => mret c
  | None => fail Status.TypeMismatch
  end.

(** The entries of a [br_table]; they lie in the module's array. *)
Definition table_targets (i : Instruction) : option (list Z) :=
  let n := zlen (m_branch_targets m) in
  if (i_operand2 i =? 0) || (n <? branch_base) || (n - branch_base <? i_operand i)
     || (n - branch_base - i_operand i <? i_operand2 i) then None
  else Some (slice (m_branch_targets m) (branch_base + i_operand i) (branch_base + i_operand i + i_operand2 i)).

Fixpoint check_targets (types : list VT) (targets : list Z) : VM unit :=
  match targets with
  | [] => mret tt
  | d :: l =>
      c ← control_at d;
      if bool_decide (vc_label_types c = types) then check_targets types l else fail Status.TypeMismatch
  end.

Definition validate_br_table (i : Instruction) : VM unit :=
  match table_targets i with
  | None => fail Status.Malformed
  | Some targets =>
      _ ← pop_type ValidationType.I32;
      c ← control_at (List.last targets 0);
      _ ← check_targets (vc_label_types c) targets;
      _ ← pop_types (vc_label_types c);
      mark_unreachable
  end.

Definition in_range (lo hi : Z) (i : Instruction) (k : VM unit) : VM unit :=
  if within lo hi (i_immediate i) then k else fail Status.Malformed.

Definition outermost (l : list ValidationControl) : option ValidationControl := last l.

Definition validate_instruction (i : Instruction) : VM unit :=
  v ← getS;
  if v_ended v then fail Status.Malformed
  else
    match i_op i with
    | Op.Unreachable => mark_unreachable
    | Op.Nop => mret tt
    | Op.Block | Op.Loop => push_control (i_op i) (i_block i)
    | Op.If => _ ← pop_type ValidationType.I32; push_control (i_op i) (i_block i)
    | Op.Else => enter_else
    | Op.End => end_control
    | Op.Br =>
        c ← control_at (i_operand i);
        _ ← pop_types (vc_label_types c);
        mark_unreachable
    | Op.BrIf =>
        c ← control_at (i_operand i);
        _ ← pop_type ValidationType.I32;
        _ ← pop_types (vc_label_types c);
        push_types (vc_label_types c)
    | Op.BrTable => validate_br_table i
    | Op.Return =>
        match outermost (v_controls v) with
        | None => fail Status.Internal
        | Some c => _ ← pop_types (vc_end_types c); mark_unreachable
        end
    | Op.Drop => pop_type ValidationType.Bottom
    | Op.Select => validate_select
    | Op.I32Const => push_type ValidationType.I32
    | Op.I64Const => push_type ValidationType.I64
    | Op.F32Const => push_type ValidationType.F32
    | Op.F64Const => push_type ValidationType.F64
    | Op.I32Eqz | Op.I32Clz | Op.I32Ctz | Op.I32Popcnt => validate_unary ValidationType.I32 ValidationType.I32
    | Op.I32Cmp => in_range 0x46 0x4f i (validate_binary ValidationType.I32 ValidationType.I32)
    | Op.I32Rotl | Op.I32Rotr | Op.I32DivS | Op.I32DivU | Op.I32RemS | Op.I32RemU | Op.I32And | Op.I32Or
    | Op.I32Xor | Op.I32Shl | Op.I32ShrS | Op.I32ShrU | Op.I32Add | Op.I32Sub | Op.I32Mul =>
        validate_binary ValidationType.I32 ValidationType.I32
    | Op.I64Eqz => validate_unary ValidationType.I64 ValidationType.I32
    | Op.I64Cmp => in_range 0x51 0x5a i (validate_binary ValidationType.I64 ValidationType.I32)
    | Op.I64Clz | Op.I64Ctz | Op.I64Popcnt => validate_unary ValidationType.I64 ValidationType.I64
    | Op.I64Rotl | Op.I64Rotr | Op.I64Sub | Op.I64Mul | Op.I64DivS | Op.I64DivU | Op.I64RemS | Op.I64RemU
    | Op.I64And | Op.I64Or | Op.I64Xor | Op.I64Shl | Op.I64ShrS | Op.I64ShrU | Op.I64Add =>
        validate_binary ValidationType.I64 ValidationType.I64
    | Op.F32Cmp => in_range 0x5b 0x60 i (validate_binary ValidationType.F32 ValidationType.I32)
    | Op.F64Cmp => in_range 0x61 0x66 i (validate_binary ValidationType.F64 ValidationType.I32)
    | Op.F32Unary => validate_unary ValidationType.F32 ValidationType.F32
    | Op.F32Binary => validate_binary ValidationType.F32 ValidationType.F32
    | Op.F64Unary => validate_unary ValidationType.F64 ValidationType.F64
    | Op.F64Binary => validate_binary ValidationType.F64 ValidationType.F64
    | Op.I32WrapI64 => validate_unary ValidationType.I64 ValidationType.I32
    | Op.I64ExtendI32S | Op.I64ExtendI32U => validate_unary ValidationType.I32 ValidationType.I64
    | Op.FloatConvert => by_type (float_convert_type (i_immediate i))
    | Op.F32DemoteF64 => validate_unary ValidationType.F64 ValidationType.F32
    | Op.F64PromoteF32 => validate_unary ValidationType.F32 ValidationType.F64
    | Op.Reinterpret => by_type (reinterpret_type (i_immediate i))
    | Op.SignExtend => by_type (sign_extend_type (i_immediate i))
    | Op.TruncSat => by_type (trunc_sat_type (i_operand i))
    | Op.LocalGet => t ← local_or_fail (i_operand i); push_type t
    | Op.LocalSet => t ← local_or_fail (i_operand i); pop_type t
    | Op.LocalTee => t ← local_or_fail (i_operand i); _ ← pop_type t; push_type t
    | Op.GlobalGet => t ← global_or_fail (i_operand i) false; push_type t
    | Op.GlobalSet => t ← global_or_fail (i_operand i) true; pop_type t
    | Op.Call => validate_call i
    | Op.CallIndirect => validate_call_indirect i
    | Op.MemorySize => _ ← require_memory; push_type ValidationType.I32
    | Op.MemoryGrow => _ ← require_memory; validate_unary ValidationType.I32 ValidationType.I32
    | Op.MemoryCopy | Op.MemoryFill =>
        _ ← require_memory;
        _ ← pop_type ValidationType.I32;
        _ ← pop_type ValidationType.I32;
        pop_type ValidationType.I32
    | Op.I32Load | Op.I64Load | Op.F32Load | Op.F64Load => validate_load i
    | Op.I32Store | Op.I64Store | Op.F32Store | Op.F64Store => validate_store i
    end.

Fixpoint validate_all (l : list Instruction) : VM unit :=
  match l with
  | [] => mret tt
  | i :: l => _ ← validate_instruction i; validate_all l
  end.

(** [validate]: the deepest stack of the body. *)
Definition validate (ops : list Instruction) : outcome Status.t nat :=
  if kMaxInstructions <? zlen ops then Err Status.Unsupported
  else if bool_decide (ops = []) then Err Status.Malformed
  else
    match (_ ← initialize_control ty; validate_all ops) (mkV [] [] 0 false) with
    | (Ok _, v) => if v_ended v && bool_decide (v_controls v = []) then Ok (v_max v) else Err Status.Malformed
    | (Err e, _) => Err e
    | (Panic, _) => Panic
    end.
End body.

(** * Accepting a module ([Module::decode] of [core/wasm/wasm.cc])

    The walk over the sections, the validation of every body and of the
    module, and the lowering of a body on its first call. *)

(** ** Setters *)

Definition set_types l m := mkModule l (m_imports m) (m_imported m) (m_function_types m) (m_table m) (m_memory m)
  (m_globals m) (m_elements m) (m_exports m) (m_start m) (m_data m) (m_branch_targets m) (m_bodies m) (m_abi m).
Definition set_imports l m := mkModule (m_types m) l (zlen l) (m_function_types m) (m_table m) (m_memory m)
  (m_globals m) (m_elements m) (m_exports m) (m_start m) (m_data m) (m_branch_targets m) (m_bodies m) (m_abi m).
Definition set_function_types l m := mkModule (m_types m) (m_imports m) (m_imported m) l (m_table m) (m_memory m)
  (m_globals m) (m_elements m) (m_exports m) (m_start m) (m_data m) (m_branch_targets m) (m_bodies m) (m_abi m).
Definition set_table t m := mkModule (m_types m) (m_imports m) (m_imported m) (m_function_types m) t (m_memory m)
  (m_globals m) (m_elements m) (m_exports m) (m_start m) (m_data m) (m_branch_targets m) (m_bodies m) (m_abi m).
Definition set_mem t m := mkModule (m_types m) (m_imports m) (m_imported m) (m_function_types m) (m_table m) t
  (m_globals m) (m_elements m) (m_exports m) (m_start m) (m_data m) (m_branch_targets m) (m_bodies m) (m_abi m).
Definition set_globals l m := mkModule (m_types m) (m_imports m) (m_imported m) (m_function_types m) (m_table m)
  (m_memory m) l (m_elements m) (m_exports m) (m_start m) (m_data m) (m_branch_targets m) (m_bodies m) (m_abi m).
Definition set_elements l m := mkModule (m_types m) (m_imports m) (m_imported m) (m_function_types m) (m_table m)
  (m_memory m) (m_globals m) l (m_exports m) (m_start m) (m_data m) (m_branch_targets m) (m_bodies m) (m_abi m).
Definition set_exports l m := mkModule (m_types m) (m_imports m) (m_imported m) (m_function_types m) (m_table m)
  (m_memory m) (m_globals m) (m_elements m) l (m_start m) (m_data m) (m_branch_targets m) (m_bodies m) (m_abi m).
Definition set_start s m := mkModule (m_types m) (m_imports m) (m_imported m) (m_function_types m) (m_table m)
  (m_memory m) (m_globals m) (m_elements m) (m_exports m) s (m_data m) (m_branch_targets m) (m_bodies m) (m_abi m).
Definition set_data_segments l m := mkModule (m_types m) (m_imports m) (m_imported m) (m_function_types m) (m_table m)
  (m_memory m) (m_globals m) (m_elements m) (m_exports m) (m_start m) l (m_branch_targets m) (m_bodies m) (m_abi m).
Definition set_bodies t l m := mkModule (m_types m) (m_imports m) (m_imported m) (m_function_types m) (m_table m)
  (m_memory m) (m_globals m) (m_elements m) (m_exports m) (m_start m) (m_data m) t l (m_abi m).
Definition set_abi a m := mkModule (m_types m) (m_imports m) (m_imported m) (m_function_types m) (m_table m)
  (m_memory m) (m_globals m) (m_elements m) (m_exports m) (m_start m) (m_data m) (m_branch_targets m) (m_bodies m) a.

Definition empty_module : ModuleData := mkModule [] [] 0 [] None None [] [] [] None [] [] [] None.

(** ** Validation *)

Definition set_max_stack (n : Z) (b : FunctionBody) : FunctionBody :=
  mkBody (b_type_index b) (b_local_types b) (b_instruction_count b) (b_instructions b) n (b_branch_base b)
    (b_branch_count b) (b_code b).
Definition set_type_index (t : Z) (b : FunctionBody) : FunctionBody :=
  mkBody t (b_local_types b) (b_instruction_count b) (b_instructions b) (b_max_stack b) (b_branch_base b)
    (b_branch_count b) (b_code b).
Definition set_instructions (l : list Instruction) (b : FunctionBody) : FunctionBody :=
  mkBody (b_type_index b) (b_local_types b) (zlen l) (Some l) (b_max_stack b) (b_branch_base b) (b_branch_count b)
    (b_code b).

(** The second walk of a body agrees with the first. *)
Definition same_walk (b : FunctionBody) (locals : list ValueType.t) (ops : list Instruction) (targets : list Z) : bool :=
  (zlen ops =? b_instruction_count b) && (zlen locals =? local_count b) && (zlen targets =? b_branch_count b).

(** One body of [validate_all_bodies]: its depth. *)
Definition validate_body (m : ModuleData) (idx : Z) (b : FunctionBody) : outcome Status.t FunctionBody :=
  match function_type m (m_imported m + idx) with
  | None => Err Status.TypeMismatch
  | Some ty =>
      if negb (bool_decide (Some (b_type_index b) = at_ (m_function_types m) idx)) then Err Status.Malformed
      else if bool_decide (b_code b = []) then Err Status.Malformed
      else if kMaxInstructions <? b_instruction_count b then Err Status.Unsupported
      else
        match lower (b_code b) with
        | Ok (locals, ops, targets) =>
            if negb (same_walk b locals ops targets) then Err Status.Internal
            else
              match validate m ty (b_local_types b) (b_branch_base b) ops with
              | Ok n => Ok (set_max_stack (Z.of_nat n) b)
              | Err e => Err e
              | Panic => Panic
              end
        | Err e => Err e
        | Panic => Panic
        end
  end.

Fixpoint validate_bodies (m : ModuleData) (idx : Z) (l : list FunctionBody) : outcome Status.t (list FunctionBody) :=
  match l with
  | [] => Ok []
  | b :: l =>
      match validate_body m idx b with
      | Ok b' =>
          match validate_bodies m (idx + 1) l with
          | Ok l' => Ok (b' :: l')
          | r => r
          end
      | Err e => Err e
      | Panic => Panic
      end
  end.

Definition function_count (m : ModuleData) : Z := m_imported m + zlen (m_function_types m).

Definition export_ok (m : ModuleData) (e : Export) : option Status.t :=
  if ex_kind e =? 0 then if ex_index e <? function_count m then None else Some Status.TypeMismatch
  else if ex_kind e =? 2 then
    if (ex_index e =? 0) && match m_memory m with Some _ => true | None => false end then None else Some Status.TypeMismatch
  else Some Status.Unsupported.

Definition element_ok (m : ModuleData) (t : TableDesc) (e : ElementSegment) : option Status.t :=
  if negb (el_table e =? 0) || negb (el_has_offset e) || (el_offset e <? 0) then Some Status.Malformed
  else if (min_size t <? zlen (el_functions e)) || (min_size t - zlen (el_functions e) <? el_offset e) then Some Status.TypeMismatch
  else if forallb (fun f => f <? function_count m) (el_functions e) then None else Some Status.TypeMismatch.

(** The first failure of a list of checks. *)
Fixpoint first_failure {A} (f : A -> option Status.t) (l : list A) : option Status.t :=
  match l with
  | [] => None
  | x :: l => match f x with Some e => Some e | None => first_failure f l end
  end.

Definition type_ok (ty : FuncType) : option Status.t :=
  if (16 <? zlen (params ty)) || (4 <? zlen (results ty)) then Some Status.Unsupported
  else if forallb (fun t => negb (bool_decide (validation_type t = ValidationType.Bottom))) (params ty ++ results ty)
  then None else Some Status.Malformed.

Definition import_ok (m : ModuleData) (im : Import) : option Status.t :=
  if negb (im_kind im =? 0) then Some Status.Unsupported
  else if im_type_index im <? zlen (m_types m) then None else Some Status.TypeMismatch.

Definition global_ok (g : GlobalDesc) : option Status.t :=
  if bool_decide (validation_type (g_value_type g) = ValidationType.Bottom) || negb (g_constant_init g)
  then Some Status.Malformed else None.

Definition start_ok (m : ModuleData) (f : Z) : option Status.t :=
  if function_count m <=? f then Some Status.TypeMismatch
  else
    match function_type m f with
    | Some (mkFuncType [] []) => None
    | _ => Some Status.TypeMismatch
    end.

Definition orelse (a b : option Status.t) : option Status.t := match a with Some e => Some e | None => b end.

Definition when (b : bool) (e : Status.t) : option Status.t := if b then Some e else None.

Definition validate_module (m : ModuleData) : option Status.t :=
  orelse (first_failure type_ok (m_types m))
  (orelse (first_failure (import_ok m) (m_imports m))
  (orelse (when (negb (zlen (m_imports m) =? m_imported m)) Status.Malformed)
  (orelse (when (negb (zlen (m_function_types m) =? zlen (m_bodies m))) Status.Malformed)
  (orelse (first_failure (fun t => when (zlen (m_types m) <=? t) Status.TypeMismatch) (m_function_types m))
  (orelse (first_failure global_ok (m_globals m))
  (orelse (first_failure (export_ok m) (m_exports m))
  (orelse (match m_start m with Some f => start_ok m f | None => None end)
  (orelse (match m_table m with
           | Some t => first_failure (element_ok m t) (m_elements m)
           | None => when (negb (bool_decide (m_elements m = []))) Status.TypeMismatch
           end)
     (match m_memory m with
      | Some _ => None
      | None => when (negb (bool_decide (m_data m = []))) Status.TypeMismatch
      end))))))))).

(** ** The walk over the sections *)

Definition section_order (id : Z) : option Z :=
  if within 1 9 id then Some id
  else if id =? 12 then Some 10
  else if id =? 10 then Some 11
  else if id =? 11 then Some 12
  else None.

(** The module so far and the declared number of data segments. *)
Definition Builder : Type := ModuleData * option Z.
Definition on_module {A} (f : A -> ModuleData -> ModuleData) (m : ModuleData) (p : DM A) (dc : option Z) : DM Builder :=
  x ← p;
  mret (f x m, dc).

Definition decode_section (id : Z) (b : Builder) : DM Builder :=
  let '(m, dc) := b in
  match id with
  | 1 => on_module set_types m decode_type_section dc
  | 2 => on_module set_imports m decode_import_section dc
  | 3 => on_module set_function_types m decode_function_section dc
  | 4 => on_module set_table m decode_table_section dc
  | 5 => on_module set_mem m decode_memory_section dc
  | 6 => on_module set_globals m decode_global_section dc
  | 7 => on_module set_exports m decode_export_section dc
  | 8 => on_module (fun f => set_start (Some f)) m (need Status.Malformed uleb32) dc
  | 9 => on_module set_elements m decode_element_section dc
  | 10 => on_module (fun r => set_bodies r.2 r.1) m (decode_code_section (zlen (m_function_types m))) dc
  | 11 =>
      on_module set_data_segments m
        (decode_data_section dc (match m_memory m with Some _ => true | None => false end)) dc
  | 12 => n ← need Status.Malformed uleb32; mret (m, Some n)
  | _ => throw Status.Unsupported
  end.

(** A custom section; [abi_ver] carries the version the kernel looks for. *)
Definition decode_custom (b : Builder) : DM Builder :=
  name ← need Status.Malformed rd_name;
  rest ← getS;
  _ ← putS [];
  mret (match rest with
        | v :: _ => if bool_decide (name = bs "abi_ver") then (set_abi (Some (b2z v)) b.1, b.2) else b
        | [] => b
        end).

(** A section's decoder must use up its payload. *)
Definition in_payload {A} (p : DM A) (payload : list byte) : outcome Status.t A :=
  match p payload with
  | (Ok a, []) => Ok a
  | (Ok _, _) => Err Status.Malformed
  | (Err e, _) => Err e
  | (Panic, _) => Panic
  end.

Fixpoint sections (n : nat) (last_order : Z) (b : Builder) : DM Builder :=
  rest ← getS;
  match rest with
  | [] => mret b
  | _ =>
      match n with
      | O => throw Status.Unsupported
      | S n' =>
          id ← need Status.Malformed rd_u8;
          size ← need Status.Malformed uleb32;
          payload ← need Status.Malformed (rd_bytes size);
          if id =? 0 then
            b' ← liftO (in_payload (decode_custom b) payload);
            sections n' last_order b'
          else
            match section_order id with
            | None => throw Status.Unsupported
            | Some order =>
                _ ← check Status.Malformed (last_order <? order);
                b' ← liftO (in_payload (decode_section id b) payload);
                sections n' order b'
            end
      end
  end.

(** The type of each body is the one its function section entry names. *)
Definition with_types (types : list Z) (l : list FunctionBody) : list FunctionBody := zip_with set_type_index types l.

Definition decode_impl (blob : list byte) : outcome Status.t ModuleData :=
  if zlen blob <? 8 then Err Status.Malformed
  else if negb (bool_decide (take 8 blob = [Byte.x00; Byte.x61; Byte.x73; Byte.x6d; Byte.x01; Byte.x00; Byte.x00; Byte.x00]))
  then Err Status.Malformed
  else
    match sections (Z.to_nat kMaxSections) 0 (empty_module, None) (drop 8 blob) with
    | (Ok (m, dc), _) =>
        if negb (zlen (m_function_types m) =? zlen (m_bodies m)) then Err Status.Malformed
        else if match dc with Some n => negb (n =? zlen (m_data m)) | None => false end then Err Status.Malformed
        else
          let m := set_bodies (m_branch_targets m) (with_types (m_function_types m) (m_bodies m)) m in
          if negb (forallb (fun t => t <? zlen (m_types m)) (m_function_types m)) then Err Status.TypeMismatch
          else if negb (forallb (fun im => im_type_index im <? zlen (m_types m)) (m_imports m)) then Err Status.TypeMismatch
          else
            match validate_bodies m 0 (m_bodies m) with
            | Ok l =>
                let m := set_bodies (m_branch_targets m) l m in
                match validate_module m with
                | None => Ok m
                | Some e => Err e
                end
            | Err e => Err e
            | Panic => Panic
            end
    | (Err e, _) => Err e
    | (Panic, _) => Panic
    end.

(** ** Lowering on the first call *)

Definition ensure_lowered (m : ModuleData) (idx : Z) : Status.t * ModuleData :=
  if idx <? m_imported m then (Status.Ok, m)
  else
    match at_ (m_bodies m) (idx - m_imported m) with
    | None => (Status.TypeMismatch, m)
    | Some b =>
        match b_instructions b with
        | Some _ => (Status.Ok, m)
        | None =>
            if bool_decide (b_code b = []) then (Status.Malformed, m)
            else
              match lower (b_code b) with
              | Ok (locals, ops, targets) =>
                  if same_walk b locals ops targets
                  then (Status.Ok, set_bodies (m_branch_targets m)
                          (alter (set_instructions ops) (Z.to_nat (idx - m_imported m)) (m_bodies m)) m)
                  else (Status.Internal, m)
              | Err e => (e, m)
              | Panic => (Status.Internal, m)
              end
        end
    end.
