(* ===== verification/WasmRun.v ===== *)
(** * WasmRun: the interpreter ([Runtime] of [core/wasm/wasm.cc] and
      [core/wasm/owned_session.cc])

    The value, frame and label arrays are stacks, newest first, as long as
    their counts; reading or writing an array outside the part in use is
    [Panic].  A computation of the interpreter gives a value, returns from
    [step] with a [RunStatus] ([Err]), or panics.  The host's functions and the
    kernel's allocator are the class [Host]. *)

From S2P Require Import Prelude WasmNum WasmDecode WasmModule.

(** ** The state *)

Record RuntimeConfig := mkConfig { max_values : Z; max_frames : Z; max_labels : Z; max_table_entries : Z }.

(** [memory_size_] is the length of [mem_bytes]; [mem_max] is the
    configuration's [max_memory_bytes], which the kernel may lift. *)
Record Memory := mkMem { mem_bytes : list byte; mem_capacity : Z; mem_max : Z }.
Definition memory_size (mem : Memory) : Z := zlen (mem_bytes mem).

(** What an imported function gives back: its status and results, the memory
    and exit code it leaves, the trap it records and whether the session was
    asked to yield meanwhile. *)
Record HostReply := mkReply {
  hr_status : RunStatus.t; hr_results : list Z; hr_memory : Memory; hr_exit_code : Z; hr_error : option Status.t;
  hr_preempt : bool
}.

(** A host with state [T]: an allocation of some bytes succeeds or fails, and
    a bound function is called by its number with the memory, the exit code,
    the arguments and the number of results. *)
Class Host (T : Type) := {
  h_alloc : Z -> T -> bool * T;
  h_invoke : Z -> Memory -> Z -> list Z -> nat -> T -> HostReply * T
}.

Record Frame := mkFrame {
  function_index : Z; f_pc : Z; locals_base : Z; values_base : Z; labels_base : Z
}.
Record Label := mkLabel {
  l_kind : Z; l_start_pc : Z; l_else_pc : Z; l_end_pc : Z; value_height : Z; result_count : Z
}.

Record Flags := mkFlags {
  instantiated : bool; running : bool; preempt_pending : bool; exit_requested : bool; exit_code : Z; error : Status.t;
  trap_function : Z; trap_pc : Z; error_import : Z
}.

Record R (T : Type) := mkR {
  r_module : ModuleData; r_config : RuntimeConfig; r_values : list Z; r_frames : list Frame; r_labels : list Label;
  r_globals : list Z; r_table : list Z; r_memory : Memory; r_flags : Flags; r_imports : list (option Z);
  r_results : list Z; r_capacity : Z; r_world : T
}.
Arguments mkR {T}.
Arguments r_module {T}.
Arguments r_config {T}.
Arguments r_values {T}.
Arguments r_frames {T}.
Arguments r_labels {T}.
Arguments r_globals {T}.
Arguments r_table {T}.
Arguments r_memory {T}.
Arguments r_flags {T}.
Arguments r_imports {T}.
Arguments r_results {T}.
Arguments r_capacity {T}.
Arguments r_world {T}.

Definition set_running (b : bool) (f : Flags) : Flags :=
  mkFlags (instantiated f) b (preempt_pending f) (exit_requested f) (exit_code f) (error f) (trap_function f)
    (trap_pc f) (error_import f).
Definition set_preempt (b : bool) (f : Flags) : Flags :=
  mkFlags (instantiated f) (running f) b (exit_requested f) (exit_code f) (error f) (trap_function f) (trap_pc f)
    (error_import f).
Definition set_exit (b : bool) (f : Flags) : Flags :=
  mkFlags (instantiated f) (running f) (preempt_pending f) b (exit_code f) (error f) (trap_function f) (trap_pc f)
    (error_import f).
Definition set_exit_code (c : Z) (f : Flags) : Flags :=
  mkFlags (instantiated f) (running f) (preempt_pending f) (exit_requested f) c (error f) (trap_function f) (trap_pc f)
    (error_import f).
Definition set_status (st : Status.t) (f : Flags) : Flags :=
  mkFlags (instantiated f) (running f) (preempt_pending f) (exit_requested f) (exit_code f) st (trap_function f)
    (trap_pc f) (error_import f).
Definition set_trap (fn pc : Z) (f : Flags) : Flags :=
  mkFlags (instantiated f) (running f) (preempt_pending f) (exit_requested f) (exit_code f) (error f) fn pc
    (error_import f).
Definition set_error_import (i : Z) (f : Flags) : Flags :=
  mkFlags (instantiated f) (running f) (preempt_pending f) (exit_requested f) (exit_code f) (error f) (trap_function f)
    (trap_pc f) i.
Definition set_instantiated (f : Flags) : Flags :=
  mkFlags true (running f) (preempt_pending f) (exit_requested f) (exit_code f) (error f) (trap_function f)
    (trap_pc f) (error_import f).

Section setters.
Context {T : Type}.
Implicit Types r : R T.
Definition with_module (x : ModuleData) r := mkR x (r_config r) (r_values r) (r_frames r) (r_labels r) (r_globals r)
  (r_table r) (r_memory r) (r_flags r) (r_imports r) (r_results r) (r_capacity r) (r_world r).
Definition with_values (x : list Z) r := mkR (r_module r) (r_config r) x (r_frames r) (r_labels r) (r_globals r)
  (r_table r) (r_memory r) (r_flags r) (r_imports r) (r_results r) (r_capacity r) (r_world r).
Definition with_frames (x : list Frame) r := mkR (r_module r) (r_config r) (r_values r) x (r_labels r) (r_globals r)
  (r_table r) (r_memory r) (r_flags r) (r_imports r) (r_results r) (r_capacity r) (r_world r).
Definition with_labels (x : list Label) r := mkR (r_module r) (r_config r) (r_values r) (r_frames r) x (r_globals r)
  (r_table r) (r_memory r) (r_flags r) (r_imports r) (r_results r) (r_capacity r) (r_world r).
Definition with_globals (x : list Z) r := mkR (r_module r) (r_config r) (r_values r) (r_frames r) (r_labels r) x
  (r_table r) (r_memory r) (r_flags r) (r_imports r) (r_results r) (r_capacity r) (r_world r).
Definition with_table (x : list Z) r := mkR (r_module r) (r_config r) (r_values r) (r_frames r) (r_labels r)
  (r_globals r) x (r_memory r) (r_flags r) (r_imports r) (r_results r) (r_capacity r) (r_world r).
Definition with_memory (x : Memory) r := mkR (r_module r) (r_config r) (r_values r) (r_frames r) (r_labels r)
  (r_globals r) (r_table r) x (r_flags r) (r_imports r) (r_results r) (r_capacity r) (r_world r).
Definition on_flags (g : Flags -> Flags) r := mkR (r_module r) (r_config r) (r_values r) (r_frames r) (r_labels r)
  (r_globals r) (r_table r) (r_memory r) (g (r_flags r)) (r_imports r) (r_results r) (r_capacity r) (r_world r).
Definition with_imports (x : list (option Z)) r := mkR (r_module r) (r_config r) (r_values r) (r_frames r)
  (r_labels r) (r_globals r) (r_table r) (r_memory r) (r_flags r) x (r_results r) (r_capacity r) (r_world r).
Definition with_results (x : list Z) r := mkR (r_module r) (r_config r) (r_values r) (r_frames r) (r_labels r)
  (r_globals r) (r_table r) (r_memory r) (r_flags r) (r_imports r) x (r_capacity r) (r_world r).
Definition with_capacity (x : Z) r := mkR (r_module r) (r_config r) (r_values r) (r_frames r) (r_labels r)
  (r_globals r) (r_table r) (r_memory r) (r_flags r) (r_imports r) (r_results r) x (r_world r).
Definition with_world (x : T) r := mkR (r_module r) (r_config r) (r_values r) (r_frames r) (r_labels r)
  (r_globals r) (r_table r) (r_memory r) (r_flags r) (r_imports r) (r_results r) (r_capacity r) x.
End setters.

(** ** The linear memory *)

Definition check_memory (mem : Memory) (offset size : Z) : bool :=
  (offset <=? memory_size mem) && (size <=? memory_size mem - offset).

Definition align_up (x a : Z) : Z := if 2 ^ 64 <=? x + (a - 1) then 0 else Z.land (x + (a - 1)) (2 ^ 64 - a).

Definition kEnsureSlackBytes : Z := 8 * 1024 * 1024.

(** The maximum the module declares for its memory, in bytes. *)
Definition beyond_max (m : ModuleData) (bytes : Z) : bool :=
  match m_memory m with
  | Some d => mem_has_max d && (max_pages d * kPageSize <? bytes)
  | None => false
  end.

Section memory.
Context {T : Type} `{Host T}.

Definition ensure_memory_bytes (m : ModuleData) (min_bytes : Z) (mem : Memory) (t : T) : bool * Memory * T :=
  let want := align_up min_bytes kPageSize in
  if want =? 0 then (false, mem, t)
  else if want <=? memory_size mem then (true, mem, t)
  else if beyond_max m want then (false, mem, t)
  else if (2 ^ 64 <=? want + kEnsureSlackBytes) || (2 ^ 64 - 1 - kPageSize <? want + kEnsureSlackBytes)
  then (false, mem, t)
  else
    let capacity := align_up (want + kEnsureSlackBytes) kPageSize in
    if capacity =? 0 then (false, mem, t)
    else
      let limit := Z.max (mem_max mem) capacity in
      let grown := mem_bytes mem ++ mkbuf (want - memory_size mem) in
      if mem_capacity mem <? want then
        let '(ok, t) := h_alloc capacity t in
        if ok then (true, mkMem grown capacity limit, t)
        else (false, mkMem (mem_bytes mem) (mem_capacity mem) limit, t)
      else (true, mkMem grown (mem_capacity mem) limit, t).

(** The old number of pages, or nothing when the memory cannot grow. *)
Definition grow_memory (m : ModuleData) (pages : Z) (mem : Memory) (t : T) : option Z * Memory * T :=
  let old_pages := u32 (memory_size mem / kPageSize) in
  let grown := memory_size mem + pages * kPageSize in
  if (2 ^ 64 <=? grown) || (mem_max mem <? grown) then (None, mem, t)
  else if beyond_max m grown then (None, mem, t)
  else if grown =? memory_size mem then (Some old_pages, mem, t)
  else
    let bytes := mem_bytes mem ++ mkbuf (grown - memory_size mem) in
    if grown <=? mem_capacity mem then (Some old_pages, mkMem bytes (mem_capacity mem) (mem_max mem), t)
    else
      let '(ok, t) := h_alloc grown t in
      if ok then (Some old_pages, mkMem bytes grown (mem_max mem), t) else (None, mem, t).
End memory.

(** The bytes a load or store of [size] bytes touches, if it may. *)
Definition effective (mem : Memory) (i : Instruction) (base size : Z) : option Z :=
  let address := base + i_operand2 i in
  if (size =? 0) || (2 ^ 64 <=? address) || negb (check_memory mem address size) then None else Some address.

Definition load_value (i : Instruction) (mem : Memory) (address : Z) : Z :=
  let size := i_width i in
  let value := le_combine (slice (mem_bytes mem) address (address + size)) in
  let value :=
    if i_signed i && (size <? 8) && negb (Z.land value (2 ^ (size * 8 - 1)) =? 0)
    then Z.lor value (u64 (Z.shiftl (2 ^ 64 - 1) (size * 8))) else value in
  match i_op i with
  | Op.I32Load | Op.F32Load => Z.land value 0xffffffff
  | _ => value
  end.

Definition store_value (i : Instruction) (mem : Memory) (address value : Z) : Memory :=
  mkMem (splice (mem_bytes mem) address (le_split (Z.to_nat (i_width i)) value)) (mem_capacity mem) (mem_max mem).

Definition copy_bytes (mem : Memory) (destination source length : Z) : Memory :=
  mkMem (splice (mem_bytes mem) destination (slice (mem_bytes mem) source (source + length))) (mem_capacity mem)
    (mem_max mem).
Definition fill_bytes (mem : Memory) (destination value length : Z) : Memory :=
  mkMem (splice (mem_bytes mem) destination (replicate (Z.to_nat length) (z2b (Z.land value 0xff)))) (mem_capacity mem)
    (mem_max mem).

(** ** Frames and labels *)

Section runtime.
Context {T : Type} `{!Host T} `{!NaNs}.

Abbreviation RM A := (M (R T) RunStatus.t A).

Definition set_error (st : Status.t) (r : R T) : R T :=
  let '(fn, pc) :=
    match r_frames r with
    | f :: _ => (function_index f, if 0 <? f_pc f then f_pc f - 1 else 0)
    | [] => (0, 0)
    end in
  on_flags (fun fl => set_trap fn pc (set_status st fl)) r.

(** [raise(st); running_ = false; return RunStatus::Trapped] *)
Definition trap {A} (st : Status.t) : RM A :=
  _ ← modifyS (fun r => on_flags (set_running false) (set_error st r));
  throw RunStatus.Trapped.

Definition pop_value : RM Z :=
  r ← getS;
  match r_values r with
  | [] => throw RunStatus.Error
  | x :: l => _ ← putS (with_values l r); mret x
  end.
Definition push_value (x : Z) : RM unit :=
  r ← getS;
  if max_values (r_config r) <=? zlen (r_values r) then throw RunStatus.Error
  else putS (with_values (x :: r_values r) r).

(** [values_[n]]: the position in the stack, whose bottom is 0. *)
Definition slot (r : R T) (n : Z) : option nat :=
  if (0 <=? n) && (n <? zlen (r_values r)) then Some (Z.to_nat (zlen (r_values r) - 1 - n)) else None.
Definition read_slot (n : Z) : RM Z :=
  r ← getS;
  match slot r n ≫= fun k => r_values r !! k with
  | Some x => mret x
  | None => panic
  end.
Definition write_slot (n x : Z) : RM unit :=
  r ← getS;
  match slot r n with
  | Some k => putS (with_values (<[k := x]> (r_values r)) r)
  | None => panic
  end.

Definition function_body (r : R T) (idx : Z) : option FunctionBody := body_for (r_module r) idx.

Definition enter_frame (idx : Z) : RM Status.t :=
  r ← getS;
  match function_type (r_module r) idx, function_body r idx with
  | Some ty, Some body =>
      let '(st, m) := match b_instructions body with
                      | Some _ => (Status.Ok, r_module r)
                      | None => ensure_lowered (r_module r) idx
                      end in
      _ ← putS (with_module m r);
      if negb (bool_decide (st = Status.Ok)) then mret st
      else
        match body_for m idx with
        | Some (mkBody _ locals _ (Some _) max_stack _ _ _) =>
            let param_count := zlen (params ty) in
            let count := zlen (r_values r) in
            if count <? param_count then mret Status.TypeMismatch
            else
              let base := count - param_count in
              let total := param_count + zlen locals in
              if max_values (r_config r) - base <? total then mret Status.TrapStackOverflow
              else if max_values (r_config r) - (base + total) <? max_stack then mret Status.TrapStackOverflow
              else if max_frames (r_config r) <=? zlen (r_frames r) then mret Status.TrapStackOverflow
              else if max_labels (r_config r) <? zlen (r_labels r) then mret Status.TrapStackOverflow
              else
                _ ← modifyS (fun r => with_values (replicate (length locals) 0 ++ r_values r)
                      (with_frames (mkFrame idx 0 base (base + total) (zlen (r_labels r)) :: r_frames r) r));
                mret Status.Ok
        | _ => mret Status.Internal
        end
  | _, _ => mret Status.TypeMismatch
  end.

Definition import_failed (st : Status.t) : RM RunStatus.t :=
  _ ← modifyS (on_flags (fun f => set_running false (set_status st f)));
  mret RunStatus.Error.

(** The state as the host leaves it. *)
Definition after_host (reply : HostReply) (t : T) (r : R T) : R T :=
  let r := with_world t (with_memory (hr_memory reply) (on_flags (set_exit_code (hr_exit_code reply)) r)) in
  let r := match hr_error reply with Some st => set_error st r | None => r end in
  if hr_preempt reply && running (r_flags r) then on_flags (set_preempt true) r else r.

Definition execute_import (idx : Z) : RM RunStatus.t :=
  _ ← modifyS (on_flags (set_error_import kNoImport));
  r ← getS;
  match at_ (m_imports (r_module r)) idx with
  | None => import_failed Status.TypeMismatch
  | Some im =>
      match at_ (r_imports r) idx with
      | None => panic
      | Some None => import_failed Status.MissingImport
      | Some (Some binding) =>
          match at_ (m_types (r_module r)) (im_type_index im) with
          | None => panic
          | Some ty =>
              let n := length (params ty) in
              let k := length (results ty) in
              if bool_decide (length (r_values r) < n)%nat then import_failed Status.TypeMismatch
              else
                let args := rev (take n (r_values r)) in
                let rest := drop n (r_values r) in
                if max_values (r_config r) <? zlen rest + Z.of_nat k then panic
                else
                  let '(reply, t) := h_invoke binding (r_memory r) (exit_code (r_flags r)) args k (r_world r) in
                  _ ← putS (after_host reply t (with_values rest r));
                  match hr_status reply with
                  | RunStatus.Completed =>
                      if negb (bool_decide (length (hr_results reply) = k)) then panic
                      else
                        _ ← modifyS (fun r => with_values (rev (hr_results reply) ++ r_values r) r);
                        mret RunStatus.Completed
                  | RunStatus.Exited =>
                      _ ← modifyS (on_flags (fun f => set_running false (set_exit true f)));
                      mret RunStatus.Exited
                  | RunStatus.Yield => mret RunStatus.Yield
                  | st =>
                      _ ← modifyS (on_flags (fun f => set_running false (set_error_import idx f)));
                      mret st
                  end
          end
      end
  end.

Definition set_pc (pc : Z) (f : Frame) : Frame :=
  mkFrame (function_index f) pc (locals_base f) (values_base f) (labels_base f).
Definition jump (pc : Z) (r : R T) : R T :=
  match r_frames r with
  | f :: l => with_frames (set_pc pc f :: l) r
  | [] => r
  end.

Definition is_loop (l : Label) : bool := l_kind l =? 0x03.
Definition keep_count (l : Label) : Z := if is_loop l then 0 else result_count l.

(** [if (!branch_to(depth)) return RunStatus::Error] *)
Definition branch_to (depth : Z) : RM unit :=
  r ← getS;
  match r_frames r with
  | [] => throw RunStatus.Error
  | f :: _ =>
      let explicit := u32 (zlen (r_labels r) - labels_base f) in
      if depth =? explicit then
        match function_body r (function_index f) with
        | None => throw RunStatus.Error
        | Some body => putS (jump (b_instruction_count body) (with_labels (bottom (Z.to_nat (labels_base f)) (r_labels r)) r))
        end
      else if explicit <? depth then throw RunStatus.Error
      else
        match at_ (r_labels r) depth with
        | None => panic
        | Some target =>
            let keep := keep_count target in
            if zlen (r_values r) <? value_height target + keep then throw RunStatus.Error
            else
              let vs := take (Z.to_nat keep) (r_values r) ++ bottom (Z.to_nat (value_height target)) (r_values r) in
              let ls := drop (Z.to_nat depth) (r_labels r) in
              if is_loop target then putS (jump (l_start_pc target) (with_labels ls (with_values vs r)))
              else putS (jump (u32 (l_end_pc target + 1)) (with_labels (tail ls) (with_values vs r)))
        end
  end.

Definition return_from_function : RM RunStatus.t :=
  r ← getS;
  match r_frames r with
  | [] => mret RunStatus.Error
  | f :: frames =>
      _ ← putS (with_frames frames r);
      match function_type (r_module r) (function_index f) with
      | None => mret RunStatus.Error
      | Some ty =>
          let k := length (results ty) in
          if bool_decide (length (r_values r) < k)%nat then mret RunStatus.Error
          else if zlen (r_values r) - Z.of_nat k <? locals_base f then mret RunStatus.Error
          else
            let top := take k (r_values r) in
            _ ← modifyS (fun r => with_labels (bottom (Z.to_nat (labels_base f)) (r_labels r))
                  (with_values (top ++ bottom (Z.to_nat (locals_base f)) (r_values r)) r));
            if negb (bool_decide (frames = [])) then mret RunStatus.Completed
            else if r_capacity r <? Z.of_nat k then mret RunStatus.Error
            else
              _ ← modifyS (fun r => on_flags (set_running false) (with_results (rev top) r));
              mret (if exit_requested (r_flags r) then RunStatus.Exited else RunStatus.Completed)
      end
  end.
Definition finish_function : RM RunStatus.t := return_from_function.

(** The three places where the function may be the last one. *)
Definition leave_function : RM unit :=
  st ← finish_function;
  r ← getS;
  if negb (bool_decide (st = RunStatus.Completed)) || bool_decide (r_frames r = []) then throw st else mret tt.

(** ** One instruction *)

(** Opening a block: the label, and the value an [if] tests. *)
Definition push_label (i : Instruction) (pc : Z) : RM unit :=
  r ← getS;
  let kind := match i_op i with Op.Block => 0x02 | Op.Loop => 0x03 | _ => 0x04 end in
  let count := match i_block i with Some _ => 1 | None => 0 end in
  if max_labels (r_config r) <=? zlen (r_labels r) then throw RunStatus.Error
  else putS (with_labels (mkLabel kind pc (i_else_pc i) (i_end_pc i) (zlen (r_values r)) count :: r_labels r) r).

Definition run_if (i : Instruction) (pc : Z) : RM unit :=
  c ← pop_value;
  _ ← push_label i pc;
  if u32 c =? 0 then
    modifyS (jump (if i_else_pc i =? kNoPc then i_end_pc i else u32 (i_else_pc i + 1)))
  else mret tt.

Definition run_br_table (i : Instruction) (base : Z) : RM unit :=
  r ← getS;
  match r_values r with
  | [] => throw RunStatus.Error
  | lhs :: l =>
      _ ← putS (with_values l r);
      match table_targets (r_module r) base i with
      | None => throw RunStatus.Error
      | Some targets =>
          let n := i_operand2 i in
          let selector := u32 lhs in
          match at_ targets (if selector <? n - 1 then selector else n - 1) with
          | Some target => branch_to target
          | None => panic
          end
      end
  end.

Definition call_function (idx : Z) : RM unit :=
  r ← getS;
  if idx <? m_imported (r_module r) then
    st ← execute_import idx;
    if bool_decide (st = RunStatus.Completed) then mret tt else throw st
  else
    st ← enter_frame idx;
    if bool_decide (st = Status.Ok) then mret tt else throw RunStatus.Error.

Definition run_call_indirect (i : Instruction) : RM unit :=
  lhs ← pop_value;
  r ← getS;
  if negb (i_operand2 i =? 0) || bool_decide (r_table r = []) then trap Status.TrapIndirectCall
  else
    match at_ (r_table r) (u32 lhs) with
    | None => trap Status.TrapIndirectCall
    | Some target =>
        if target =? UINT32_MAX then trap Status.TrapIndirectCall
        else
          match at_ (m_types (r_module r)) (i_operand i), function_type (r_module r) target with
          | Some expected, Some actual =>
              if same_function_type expected actual then call_function target else trap Status.TrapIndirectCall
          | Some _, None => trap Status.TrapIndirectCall
          | None, _ => panic
          end
    end.

Definition num (res : NumResult) : RM unit :=
  match res with
  | Val v => push_value v
  | Trap st => trap st
  | Bad => throw RunStatus.Error
  end.
Definition run_unary (i : Instruction) : RM unit :=
  lhs ← pop_value;
  num (unary_value i lhs).
Definition run_binary (i : Instruction) : RM unit :=
  rhs ← pop_value;
  lhs ← pop_value;
  num (binary_value i lhs rhs).

Definition run_select : RM unit :=
  lhs ← pop_value;
  false_value ← pop_value;
  true_value ← pop_value;
  push_value (if negb (u32 lhs =? 0) then true_value else false_value).

Definition run_local_get (i : Instruction) (f : Frame) (body : FunctionBody) : RM unit :=
  r ← getS;
  match function_type (r_module r) (function_index f) with
  | None => panic
  | Some ty =>
      if local_count body + zlen (params ty) <=? i_operand i then throw RunStatus.Error
      else
        x ← read_slot (locals_base f + i_operand i);
        push_value x
  end.

(** The value of a global of type [t]. *)
Definition mask_global (t : ValueType.t) (x : Z) : Z :=
  match t with ValueType.I32 | ValueType.F32 => Z.land x 0xffffffff | _ => x end.

Definition run_global_get (i : Instruction) : RM unit :=
  r ← getS;
  match at_ (r_globals r) (i_operand i) with
  | None => throw RunStatus.Error
  | Some x => push_value x
  end.
Definition run_global_set (i : Instruction) : RM unit :=
  r ← getS;
  if zlen (r_globals r) <=? i_operand i then throw RunStatus.Error
  else
    match at_ (m_globals (r_module r)) (i_operand i) with
    | None => panic
    | Some g =>
        if negb (g_mutable g) then throw RunStatus.Error
        else
          lhs ← pop_value;
          modifyS (fun r => with_globals (<[Z.to_nat (i_operand i) := mask_global (g_value_type g) lhs]> (r_globals r)) r)
    end.

Definition run_memory_grow : RM unit :=
  lhs ← pop_value;
  r ← getS;
  let '(old, mem, t) := grow_memory (r_module r) (u32 lhs) (r_memory r) (r_world r) in
  _ ← putS (with_world t (with_memory mem r));
  push_value (default UINT32_MAX old).

Definition run_load (i : Instruction) : RM unit :=
  lhs ← pop_value;
  r ← getS;
  match effective (r_memory r) i (u32 lhs) (i_width i) with
  | None => trap Status.TrapOutOfBounds
  | Some address => push_value (load_value i (r_memory r) address)
  end.
Definition run_store (i : Instruction) : RM unit :=
  rhs ← pop_value;
  lhs ← pop_value;
  r ← getS;
  match effective (r_memory r) i (u32 lhs) (i_width i) with
  | None => trap Status.TrapOutOfBounds
  | Some address => putS (with_memory (store_value i (r_memory r) address rhs) r)
  end.

(** The sums of two 32-bit numbers do not overflow. *)
Definition run_memory_copy : RM unit :=
  len ← pop_value;
  src ← pop_value;
  dst ← pop_value;
  r ← getS;
  let mem := r_memory r in
  if negb (check_memory mem (u32 dst) (u32 len)) || negb (check_memory mem (u32 src) (u32 len))
  then trap Status.TrapOutOfBounds
  else putS (with_memory (copy_bytes mem (u32 dst) (u32 src) (u32 len)) r).
Definition run_memory_fill : RM unit :=
  len ← pop_value;
  value ← pop_value;
  dst ← pop_value;
  r ← getS;
  let mem := r_memory r in
  if negb (check_memory mem (u32 dst) (u32 len)) then trap Status.TrapOutOfBounds
  else putS (with_memory (fill_bytes mem (u32 dst) value (u32 len)) r).

Definition run_end (f : Frame) : RM unit :=
  r ← getS;
  if labels_base f <? zlen (r_labels r) then putS (with_labels (tail (r_labels r)) r) else leave_function.

Definition run_else (f : Frame) : RM unit :=
  r ← getS;
  if zlen (r_labels r) <=? labels_base f then throw RunStatus.Error
  else
    match r_labels r with
    | l :: _ => putS (jump (l_end_pc l) r)
    | [] => panic
    end.

(** [br_if] on an empty stack does nothing. *)
Definition run_br_if (i : Instruction) : RM unit :=
  r ← getS;
  match r_values r with
  | [] => mret tt
  | lhs :: l =>
      _ ← putS (with_values l r);
      if u32 lhs =? 0 then mret tt else branch_to (i_operand i)
  end.

(** The [switch] of [step]; [f] is the frame with its pc already past [i]. *)
Definition execute (i : Instruction) (f : Frame) (body : FunctionBody) : RM unit :=
  match i_op i with
  | Op.Unreachable => trap Status.TrapUnreachable
  | Op.Nop => mret tt
  | Op.Block | Op.Loop => push_label i (f_pc f)
  | Op.If => run_if i (f_pc f)
  | Op.Else => run_else f
  | Op.End => run_end f
  | Op.Br => branch_to (i_operand i)
  | Op.BrIf => run_br_if i
  | Op.BrTable => run_br_table i (b_branch_base body)
  | Op.Return => leave_function
  | Op.Drop => _ ← pop_value; mret tt
  | Op.Select => run_select
  | Op.I32Const | Op.F32Const => push_value (u32 (i_immediate i))
  | Op.I64Const | Op.F64Const => push_value (i_immediate i)
  | Op.LocalGet => run_local_get i f body
  | Op.LocalSet => lhs ← pop_value; write_slot (locals_base f + i_operand i) lhs
  | Op.LocalTee =>
      r ← getS;
      match r_values r with
      | [] => throw RunStatus.Error
      | x :: _ => write_slot (locals_base f + i_operand i) x
      end
  | Op.GlobalGet => run_global_get i
  | Op.GlobalSet => run_global_set i
  | Op.Call => call_function (i_operand i)
  | Op.CallIndirect => run_call_indirect i
  | Op.MemorySize => r ← getS; push_value (memory_size (r_memory r) / kPageSize)
  | Op.MemoryGrow => run_memory_grow
  | Op.I32Load | Op.I64Load | Op.F32Load | Op.F64Load => run_load i
  | Op.I32Store | Op.I64Store | Op.F32Store | Op.F64Store => run_store i
  | Op.MemoryCopy => run_memory_copy
  | Op.MemoryFill => run_memory_fill
  | Op.I64ExtendI32U | Op.I64ExtendI32S | Op.I32WrapI64 | Op.I32Eqz | Op.I64Eqz | Op.F32Unary | Op.F64Unary
  | Op.FloatConvert | Op.F32DemoteF64 | Op.F64PromoteF32 | Op.Reinterpret | Op.SignExtend | Op.I32Clz | Op.I32Ctz
  | Op.I32Popcnt | Op.I64Clz | Op.I64Ctz | Op.I64Popcnt | Op.TruncSat => run_unary i
  | Op.I64Add | Op.I64Sub | Op.I64Mul | Op.I32DivS | Op.I32DivU | Op.I32RemS | Op.I32RemU | Op.I64DivS | Op.I64DivU
  | Op.I64RemS | Op.I64RemU | Op.I32Cmp | Op.I64Cmp | Op.F32Cmp | Op.F64Cmp | Op.F32Binary | Op.F64Binary
  | Op.I32Rotl | Op.I32Rotr | Op.I64Rotl | Op.I64Rotr | Op.I32And | Op.I32Or | Op.I32Xor | Op.I32Shl | Op.I32ShrS
  | Op.I32ShrU | Op.I64And | Op.I64Or | Op.I64Xor | Op.I64Shl | Op.I64ShrS | Op.I64ShrU | Op.I32Add | Op.I32Sub
  | Op.I32Mul => run_binary i
  end.

(** One round of the loop of [step]. *)
Definition step1 : RM unit :=
  r ← getS;
  if negb (running (r_flags r)) then throw RunStatus.Completed
  else if preempt_pending (r_flags r) then
    _ ← putS (on_flags (set_preempt false) r);
    throw RunStatus.Yield
  else
    match r_frames r with
    | [] => st ← finish_function; throw st
    | f :: _ =>
        match function_body r (function_index f) with
        | None => leave_function
        | Some body =>
            if b_instruction_count body <=? f_pc f then leave_function
            else
              match b_instructions body ≫= fun l => at_ l (f_pc f) with
              | None => panic
              | Some i =>
                  _ ← putS (jump (f_pc f + 1) r);
                  execute i (set_pc (f_pc f + 1) f) body
              end
        end
    end.

(** [step] for at most [n] rounds; [Ok] means it is still running. *)
Fixpoint step (n : nat) : RM unit :=
  match n with
  | O => mret tt
  | S n' => _ ← step1; step n'
  end.

(** ** Starting and resuming *)

Definition named (im : Import) (md field : list byte) : bool :=
  (im_kind im =? 0) && bool_decide (im_module im = md) && bool_decide (im_field im = field).

(** The imports with these names have the expected type, if there is one. *)
Fixpoint matching (m : ModuleData) (md field : list byte) (expected : option FuncType) (l : list Import)
  : outcome Status.t Z :=
  match l with
  | [] => Ok 0
  | im :: l =>
      let rest := match matching m md field expected l with Ok n => Ok (n + 1) | o => o end in
      if named im md field then
        match expected with
        | None => rest
        | Some ty =>
            match at_ (m_types m) (im_type_index im) with
            | None => Panic
            | Some actual => if same_function_type ty actual then rest else Err Status.TypeMismatch
            end
        end
      else matching m md field expected l
  end.

Definition bind_import_typed (md field : list byte) (expected : option FuncType) (binding : Z) : M (R T) Status.t unit :=
  r ← getS;
  if negb (instantiated (r_flags r)) then throw Status.Internal
  else
    n ← liftO (matching (r_module r) md field expected (m_imports (r_module r)));
    if n =? 0 then throw Status.MissingImport
    else putS (with_imports
      (zip_with (fun im b => if named im md field then Some binding else b) (m_imports (r_module r)) (r_imports r)) r).
Definition bind_import (md field : list byte) (binding : Z) : M (R T) Status.t unit :=
  bind_import_typed md field None binding.

Definition imports_bound (r : R T) : bool :=
  instantiated (r_flags r) && forallb (fun b => match b with Some _ => true | None => false end) (r_imports r).

Definition find_function (m : ModuleData) (name : list byte) : option Z :=
  ex_index <$> List.find (fun e => (ex_kind e =? 0) && bool_decide (ex_name e = name)) (m_exports m).

(** [invoke] up to its call of [step]. *)
Definition begin_invoke (name : list byte) (args : list Z) (capacity : Z) : RM unit :=
  r ← getS;
  if negb (instantiated (r_flags r)) then throw RunStatus.Error
  else
    match find_function (r_module r) name with
    | None => throw RunStatus.Error
    | Some idx =>
        match function_type (r_module r) idx with
        | None => throw RunStatus.Error
        | Some ty =>
            if negb (zlen args =? zlen (params ty)) || (capacity <? zlen (results ty)) then throw RunStatus.Error
            else if max_values (r_config r) <? zlen args then panic
            else
              _ ← putS (on_flags (fun f => set_exit false (set_running true (set_status Status.Ok f)))
                    (with_capacity capacity (with_results [] (with_labels [] (with_frames [] (with_values (rev args) r))))));
              st ← enter_frame idx;
              if bool_decide (st = Status.Ok) then mret tt
              else
                _ ← modifyS (on_flags (fun f => set_running false (set_status st f)));
                throw (if bool_decide (st = Status.TrapStackOverflow) then RunStatus.Trapped else RunStatus.Error)
        end
    end.
Definition invoke (n : nat) (name : list byte) (args : list Z) (capacity : Z) : RM unit :=
  _ ← begin_invoke name args capacity;
  step n.

Definition begin_resume (capacity : Z) : RM unit :=
  r ← getS;
  if negb (running (r_flags r)) then
    _ ← putS (on_flags (set_status Status.Internal) r);
    throw RunStatus.Error
  else putS (with_capacity capacity r).
Definition resume (n : nat) (capacity : Z) : RM unit :=
  _ ← begin_resume capacity;
  step n.

Definition request_preempt (r : R T) : R T := if running (r_flags r) then on_flags (set_preempt true) r else r.
End runtime.

(** * From a module's bytes to a running session
      ([Runtime::instantiate] and [core/wasm/owned_session.cc])

    The arena's allocations succeed here; the allocation of the linear memory
    is the host's.  A failed [instantiate] leaves the session uninitialised, and
    what it had built of the table or the memory is not kept. *)

Section session.
Context {T : Type} `{!Host T} `{!NaNs}.

Abbreviation IM A := (M (R T) Status.t A).

Definition or_default (n d : Z) : Z := if n =? 0 then d else n.
Definition effective_config (c : RuntimeConfig) : RuntimeConfig :=
  mkConfig (or_default (max_values c) 4096) (or_default (max_frames c) 64) (or_default (max_labels c) 4096)
    (or_default (max_table_entries c) (2 ^ 20)).

(** The state [instantiate] starts from; the trap location and
    [instantiated_] stay as they were. *)
Definition reset (m : ModuleData) (c : RuntimeConfig) (max_memory : Z) (r : R T) : R T :=
  let fl := r_flags r in
  mkR m (effective_config c) [] [] [] [] [] (mkMem [] 0 (or_default max_memory (16 * 1024 * 1024)))
    (mkFlags (instantiated fl) false false false 0 Status.Ok (trap_function fl) (trap_pc fl) (error_import fl))
    (replicate (length (m_imports m)) None) [] 0 (r_world r).

Definition initial_global (g : GlobalDesc) : Z := mask_global (g_value_type g) (u64 (g_initial g)).

Fixpoint place_elements (functions : Z) (l : list ElementSegment) (table : list Z) : outcome Status.t (list Z) :=
  match l with
  | [] => Ok table
  | e :: l =>
      if negb (el_table e =? 0) || negb (el_has_offset e) || (el_offset e <? 0) then Err Status.Malformed
      else if (zlen table <? zlen (el_functions e)) || (zlen table - zlen (el_functions e) <? el_offset e)
      then Err Status.Malformed
      else if negb (forallb (fun f => f <? functions) (el_functions e)) then Err Status.TypeMismatch
      else place_elements functions l (splice table (el_offset e) (el_functions e))
  end.

Definition build_table : IM unit :=
  r ← getS;
  match m_table (r_module r) with
  | None => mret tt
  | Some d =>
      if max_table_entries (r_config r) <? min_size d then throw Status.OutOfMemory
      else
        table ← liftO (place_elements (function_count (r_module r)) (m_elements (r_module r))
                   (replicate (Z.to_nat (min_size d)) UINT32_MAX));
        modifyS (with_table table)
  end.

Definition MiB : Z := 1024 * 1024.
Definition initial_capacity (minimum limit : Z) : Z :=
  let base := if minimum =? 0 then kPageSize else minimum in
  if MiB <? minimum then Z.max base (Z.min limit (Z.max (4 * MiB) (minimum + minimum / 2))) else base.

Fixpoint place_data (l : list DataSegment) (mem : Memory) : outcome Status.t Memory :=
  match l with
  | [] => Ok mem
  | d :: l =>
      if check_memory mem (ds_offset d) (zlen (ds_bytes d))
      then place_data l (mkMem (splice (mem_bytes mem) (ds_offset d) (ds_bytes d)) (mem_capacity mem) (mem_max mem))
      else Err Status.Malformed
  end.

Definition build_memory : IM unit :=
  r ← getS;
  match m_memory (r_module r) with
  | None => mret tt
  | Some d =>
      let minimum := min_pages d * kPageSize in
      let limit := mem_max (r_memory r) in
      if limit <? minimum then throw Status.OutOfMemory
      else
        let capacity := initial_capacity minimum limit in
        let '(ok, t) := h_alloc capacity (r_world r) in
        _ ← putS (with_world t r);
        if negb ok then throw Status.OutOfMemory
        else
          mem ← liftO (place_data (m_data (r_module r)) (mkMem (mkbuf minimum) capacity limit));
          modifyS (with_memory mem)
  end.

Definition instantiate (m : ModuleData) (c : RuntimeConfig) (max_memory : Z) : IM unit :=
  _ ← modifyS (reset m c max_memory);
  if negb (forallb g_constant_init (m_globals m)) then throw Status.Unsupported
  else
    _ ← modifyS (with_globals (initial_global <$> m_globals m));
    _ ← build_table;
    _ ← build_memory;
    modifyS (on_flags set_instantiated).

(** ** The session *)

Record OwnedSession := mkSession { initialized : bool; runtime : R T }.

(** [init] and [init_view]: they differ in who owns the bytes. *)
Definition init (blob : list byte) (c : RuntimeConfig) (max_memory : Z) (s : OwnedSession) : Status.t * OwnedSession :=
  if zlen blob <? 8 then (Status.Malformed, mkSession false (runtime s))
  else
    match decode_impl blob with
    | Ok m =>
        if negb (bool_decide (m_abi m = Some 2)) then (Status.Unsupported, mkSession false (runtime s))
        else
          match instantiate m c max_memory (runtime s) with
          | (Ok _, r) => (Status.Ok, mkSession true r)
          | (Err st, r) => (st, mkSession false r)
          | (Panic, r) => (Status.Internal, mkSession false r)
          end
    | Err st => (st, mkSession false (runtime s))
    | Panic => (Status.Internal, mkSession false (runtime s))
    end.

(** What a call of the session leaves: its status, or nothing while it runs
    ([Ok]) or after a fault ([Panic]). *)
Definition start (n : nat) (capacity : Z) (s : OwnedSession) : outcome RunStatus.t unit * OwnedSession :=
  if negb (initialized s) then (Err RunStatus.Error, s)
  else
    let '(o, r) := invoke n (bs "_start") [] capacity (runtime s) in
    (o, mkSession true r).
Definition session_resume (n : nat) (capacity : Z) (s : OwnedSession) : outcome RunStatus.t unit * OwnedSession :=
  if negb (initialized s) then (Err RunStatus.Error, s)
  else
    let '(o, r) := resume n capacity (runtime s) in
    (o, mkSession true r).
Definition session_bind_typed (md field : list byte) (expected : option FuncType) (binding : Z) (s : OwnedSession)
  : outcome Status.t unit * OwnedSession :=
  if negb (initialized s) then (Err Status.Internal, s)
  else
    let '(o, r) := bind_import_typed md field expected binding (runtime s) in
    (o, mkSession true r).
Definition session_preempt (s : OwnedSession) : OwnedSession :=
  if initialized s then mkSession true (request_preempt (runtime s)) else s.
End session.
