(* ===== verification/WasmWalk.v ===== *)
(** * WasmWalk: what the validator establishes

    The effect of each instruction on the height of the operand stack, and the
    control stack against the blocks a body has open. *)

From S2P Require Import Prelude WasmNum WasmDecode WasmModule.

(** Taking apart a computation that succeeded. *)
Ltac minv1 H :=
  match type of H with
  | mbind _ getS _ = _ => rewrite bind_getS in H
  | mbind _ (modifyS _) _ = _ => rewrite bind_modifyS in H
  | mbind _ (mret _) _ = _ => rewrite bind_mret in H
  | mbind _ (liftO _) _ = (Ok _, _) => let H' := fresh "Hm" in let x := fresh "x" in let w := fresh "w" in
      apply bind_inv_ok in H as (x & w & H' & H); unfold liftO in H'
  | mbind _ _ _ = (Ok _, _) => let H' := fresh "Hm" in let x := fresh "x" in let w := fresh "w" in
      apply bind_inv_ok in H as (x & w & H' & H)
  | (if ?b then _ else _) _ = _ => let E := fresh "E" in destruct b eqn:E
  | throw _ _ = (Ok _, _) => discriminate H
  | fail _ _ = (Ok _, _) => discriminate H
  | panic _ = (Ok _, _) => discriminate H
  end.
Ltac minv H := repeat (cbv beta in H; minv1 H).

(** ** The operand stack *)

Lemma length_bottom {A} n (l : list A) : length (bottom n l) = Nat.min n (length l).
Proof. unfold bottom. rewrite length_drop. lia. Qed.

Definition reach (v : VCtx) : Prop :=
  match v_controls v with c :: _ => vc_unreachable c = false | [] => False end.
Definition height (v : VCtx) : nat := match v_controls v with c :: _ => vc_height c | [] => 0 end.

(** Steps that leave the controls alone and the stack above the height of the
    current one. *)
Record weak (v v' : VCtx) : Prop := mkWeak {
  weak_controls : v_controls v' = v_controls v;
  weak_ended : v_ended v' = v_ended v;
  weak_height : (height v <= length (v_stack v) -> height v <= length (v_stack v'))%nat;
  weak_max : (v_max v <= v_max v')%nat;
  weak_bound : (length (v_stack v) <= v_max v -> length (v_stack v') <= v_max v')%nat
}.

(** In code that can be reached, [a] operands are taken and [b] put back. *)
Record effect (a b : nat) (v v' : VCtx) : Prop := mkEffect {
  effect_weak : weak v v';
  effect_enough : (a + height v <= length (v_stack v))%nat;
  effect_length : (length (v_stack v') + a = length (v_stack v) + b)%nat
}.

Lemma height_controls v v' : v_controls v' = v_controls v -> height v' = height v.
Proof. unfold height. by intros ->. Qed.
Lemma reach_controls v v' : v_controls v' = v_controls v -> reach v -> reach v'.
Proof. unfold reach. by intros ->. Qed.

Lemma weak_refl v : weak v v.
Proof. by split. Qed.
Lemma weak_trans v v1 v2 : weak v v1 -> weak v1 v2 -> weak v v2.
Proof.
  intros [H1 H2 H3 H4 H5] [K1 K2 K3 K4 K5]. pose proof (height_controls _ _ H1).
  rewrite H in K3. split; first [congruence | lia].
Qed.

Lemma effect_refl v : (height v <= length (v_stack v))%nat -> effect 0 0 v v.
Proof. intros. split; [apply weak_refl | lia | lia]. Qed.
Lemma effect_seq a1 b1 a2 b2 v v1 v2 :
  effect a1 b1 v v1 -> effect a2 b2 v1 v2 -> effect (a1 + (a2 - b1)) (b2 + (b1 - a2)) v v2.
Proof.
  intros [W1 E1 L1] [W2 E2 L2]. pose proof (height_controls _ _ (weak_controls _ _ W1)).
  split; [by eapply weak_trans | lia | lia].
Qed.

Lemma effect_cat a b a1 b1 a2 b2 v v1 v2 :
  effect a1 b1 v v1 -> effect a2 b2 v1 v2 -> a = (a1 + (a2 - b1))%nat -> b = (b2 + (b1 - a2))%nat -> effect a b v v2.
Proof. intros H1 H2 -> ->. by eapply effect_seq. Qed.

Lemma current_control_inv v c v' :
  current_control v = (Ok c, v') -> v' = v /\ exists cs, v_controls v = c :: cs.
Proof.
  unfold current_control. intros H. minv H. destruct (v_controls v) as [|c0 cs] eqn:E; [discriminate|].
  unfold mret, M_ret in H. simplify_eq. eauto.
Qed.

Lemma push_type_effect t v v' : push_type t v = (Ok tt, v') -> effect 0 1 v v'.
Proof.
  unfold push_type. intros H. minv H. destruct (current_control_inv _ _ _ Hm) as [-> [cs Hc]].
  unfold putS in H. simplify_eq. apply bool_decide_eq_false in E.
  assert (height v = vc_height x) by (unfold height; by rewrite Hc).
  split; [split|..]; cbn [v_controls v_ended v_stack v_max length]; first [done | lia].
Qed.
Lemma push_type_weak t v v' : push_type t v = (Ok tt, v') -> weak v v'.
Proof. intros H. apply (effect_weak _ _ _ _ (push_type_effect _ _ _ H)). Qed.

Lemma pop_select_inv v t v' :
  pop_select_type v = (Ok t, v') -> weak v v' /\ (reach v -> effect 1 0 v v').
Proof.
  unfold pop_select_type. intros H. minv H; destruct (current_control_inv _ _ _ Hm) as [-> [cs Hc]];
    apply bool_decide_eq_false in E; assert (height v = vc_height x) as Hh by (unfold height; by rewrite Hc).
  - injection H as <- <-. split; [apply weak_refl|]. unfold reach. rewrite Hc. intros Hr. by rewrite Hr in E1.
  - apply bool_decide_eq_false in E0. destruct (v_stack v) as [|t0 l] eqn:Es; [discriminate|]. minv H.
    unfold putS in Hm0. injection Hm0 as <- <-. injection H as <- <-.
    assert (weak v (set_vstack l v)) as W.
    { split; cbn [set_vstack v_controls v_ended v_stack v_max]; rewrite ?Es; cbn [length] in *; first [done | lia]. }
    split; [done|]. intros _. split; [done|..]; rewrite Es; cbn [set_vstack v_stack length] in *; lia.
Qed.

Lemma pop_type_inv t v v' : pop_type t v = (Ok tt, v') -> weak v v' /\ (reach v -> effect 1 0 v v').
Proof. unfold pop_type. intros H. minv H. injection H as <-. by eapply pop_select_inv. Qed.

Lemma pop_each_inv l v v' :
  pop_each l v = (Ok tt, v') ->
  weak v v' /\ (reach v -> (height v <= length (v_stack v))%nat -> effect (length l) 0 v v').
Proof.
  revert v. induction l as [|t l IH]; intros v H; cbn [pop_each] in H.
  - injection H as <-. split; [apply weak_refl | intros _; apply effect_refl].
  - minv H. destruct x. apply pop_type_inv in Hm as [W1 E1]. destruct (IH _ H) as [W2 E2].
    split; [by eapply weak_trans|]. intros Hr Hl. specialize (E1 Hr).
    assert (effect (length l) 0 w v') as K.
    { apply E2; [by eapply reach_controls, Hr; apply (weak_controls _ _ W1)|].
      rewrite (height_controls _ _ (weak_controls _ _ W1)). by apply (weak_height _ _ W1). }
    eapply effect_cat; [exact E1 | exact K | cbn [length]; lia | lia].
Qed.
Lemma pop_types_inv l v v' :
  pop_types l v = (Ok tt, v') ->
  weak v v' /\ (reach v -> (height v <= length (v_stack v))%nat -> effect (length l) 0 v v').
Proof. unfold pop_types. intros H. rewrite <- (length_rev l). by apply pop_each_inv. Qed.

Lemma push_types_effect l v v' :
  push_types l v = (Ok tt, v') -> weak v v' /\ ((height v <= length (v_stack v))%nat -> effect 0 (length l) v v').
Proof.
  revert v. induction l as [|t l IH]; intros v H; cbn [push_types] in H.
  - injection H as <-. split; [apply weak_refl | apply effect_refl].
  - minv H. destruct x. apply push_type_effect in Hm as E1. destruct (IH _ H) as [W2 E2].
    split; [eapply weak_trans; [apply E1|done]|]. intros Hl.
    assert (effect 0 (length l) w v') as K.
    { apply E2. rewrite (height_controls _ _ (weak_controls _ _ (effect_weak _ _ _ _ E1))).
      by apply (weak_height _ _ (effect_weak _ _ _ _ E1)). }
    eapply effect_cat; [exact E1 | exact K | lia | cbn [length]; lia].
Qed.

Lemma push_types_length l v v' :
  push_types l v = (Ok tt, v') -> length (v_stack v') = (length (v_stack v) + length l)%nat.
Proof.
  revert v. induction l as [|t l IH]; intros v H; cbn [push_types length] in *; [injection H as <-; lia|].
  minv H. destruct x. apply push_type_effect, effect_length in Hm. rewrite (IH _ H). lia.
Qed.

Lemma converted_inv l v r v' : converted l v = (Ok r, v') -> v' = v /\ r = map validation_type l.
Proof. unfold converted. intros H. minv H. injection H as <- <-. done. Qed.

(** ** Plain instructions *)

(** How many operands an instruction other than control, calls and blocks
    takes and gives. *)
Definition arity (op : Op.t) : option (nat * nat) :=
  match op with
  | Op.Unreachable | Op.Block | Op.Loop | Op.If | Op.Else | Op.End | Op.Br | Op.BrIf | Op.BrTable | Op.Return | Op.Call
  | Op.CallIndirect => None
  | Op.Nop => Some (0, 0)%nat
  | Op.Drop | Op.LocalSet | Op.GlobalSet => Some (1, 0)%nat
  | Op.Select => Some (3, 1)%nat
  | Op.I32Const | Op.I64Const | Op.F32Const | Op.F64Const | Op.LocalGet | Op.GlobalGet | Op.MemorySize => Some (0, 1)%nat
  | Op.I32Store | Op.I64Store | Op.F32Store | Op.F64Store => Some (2, 0)%nat
  | Op.MemoryCopy | Op.MemoryFill => Some (3, 0)%nat
  | Op.LocalTee | Op.MemoryGrow | Op.I32Load | Op.I64Load | Op.F32Load | Op.F64Load
  | Op.I64ExtendI32U | Op.I64ExtendI32S | Op.I32WrapI64 | Op.I32Eqz | Op.I64Eqz | Op.F32Unary | Op.F64Unary
  | Op.FloatConvert | Op.F32DemoteF64 | Op.F64PromoteF32 | Op.Reinterpret | Op.SignExtend | Op.I32Clz | Op.I32Ctz
  | Op.I32Popcnt | Op.I64Clz | Op.I64Ctz | Op.I64Popcnt | Op.TruncSat => Some (1, 1)%nat
  | _ => Some (2, 1)%nat
  end.

Lemma unary_effect t u v v' :
  validate_unary t u v = (Ok tt, v') -> weak v v' /\ (reach v -> effect 1 1 v v').
Proof.
  unfold validate_unary. intros H. minv H. destruct x. apply pop_type_inv in Hm as [W1 E1]. apply push_type_effect in H as E2.
  split; [eapply weak_trans; [done|apply E2]|]. intros Hr. apply (effect_seq _ _ _ _ _ _ _ (E1 Hr) E2).
Qed.

Lemma pops_effect l v v' :
  pop_each l v = (Ok tt, v') -> (0 < length l)%nat -> weak v v' /\ (reach v -> effect (length l) 0 v v').
Proof.
  destruct l as [|t l]; cbn [length]; [lia|]. intros H _. cbn [pop_each] in H. minv H. destruct x.
  apply pop_type_inv in Hm as [W1 E1]. apply pop_each_inv in H as [W2 E2]. split; [by eapply weak_trans|].
  intros Hr. specialize (E1 Hr). pose proof (weak_controls _ _ W1) as Hc. pose proof (height_controls _ _ Hc).
  pose proof (effect_enough _ _ _ _ E1). pose proof (effect_length _ _ _ _ E1).
  eapply effect_cat; [exact E1 | apply E2; [by eapply reach_controls, Hr | lia] | lia | lia].
Qed.

Lemma binary_effect t u v v' :
  validate_binary t u v = (Ok tt, v') -> weak v v' /\ (reach v -> effect 2 1 v v').
Proof.
  unfold validate_binary. intros H. minv H. destruct x, x0. apply push_type_effect in H as E2.
  assert (pop_each [t; t] v = (Ok tt, w0)) as K.
  { cbn [pop_each]. rewrite (bind_ok _ _ _ _ _ Hm), (bind_ok _ _ _ _ _ Hm0). done. }
  apply pops_effect in K as [W1 E1]; [|cbn; lia]. split; [eapply weak_trans; [done|apply E2]|].
  intros Hr. apply (effect_seq _ _ _ _ _ _ _ (E1 Hr) E2).
Qed.

Lemma pop_effect t v v' : pop_type t v = (Ok tt, v') -> weak v v' /\ (reach v -> effect 1 0 v v').
Proof. apply pop_type_inv. Qed.

Lemma pop3_effect t v v' w w0 :
  pop_type t v = (Ok tt, w) -> pop_type t w = (Ok tt, w0) -> pop_type t w0 = (Ok tt, v') ->
  weak v v' /\ (reach v -> effect 3 0 v v').
Proof.
  intros H1 H2 H3. apply (pops_effect [t; t; t]); [|cbn; lia]. cbn [pop_each].
  rewrite (bind_ok _ _ _ _ _ H1), (bind_ok _ _ _ _ _ H2), (bind_ok _ _ _ _ _ H3). done.
Qed.

Lemma select_effect v v' : validate_select v = (Ok tt, v') -> weak v v' /\ (reach v -> effect 3 1 v v').
Proof.
  unfold validate_select. intros H. minv H. destruct x. apply pop_type_inv in Hm as [W1 E1].
  apply pop_select_inv in Hm0 as [W2 E2], Hm1 as [W3 E3]. apply push_type_effect in H as E4.
  split; [repeat (eapply weak_trans; [done|]); apply E4|]. intros Hr.
  assert (reach w) as R1 by (eapply reach_controls, Hr; apply W1).
  assert (reach w0) as R2 by (eapply reach_controls, R1; apply W2).
  exact (effect_seq _ _ _ _ _ _ _ (effect_seq _ _ _ _ _ _ _ (effect_seq _ _ _ _ _ _ _ (E1 Hr) (E2 R1)) (E3 R2)) E4).
Qed.

Lemma by_type_effect s v v' : by_type s v = (Ok tt, v') -> weak v v' /\ (reach v -> effect 1 1 v v').
Proof. destruct s as [[t u]|]; [apply unary_effect | discriminate]. Qed.

Lemma in_range_inv lo hi i k v v' :
  in_range lo hi i k v = (Ok tt, v') -> within lo hi (i_immediate i) = true /\ k v = (Ok tt, v').
Proof. unfold in_range. by case_match. Qed.

Lemma require_memory_inv m v x v' : require_memory m v = (Ok x, v') -> v' = v.
Proof. unfold require_memory. case_match; [|discriminate]. by injection 1. Qed.
Lemma validate_alignment_inv i v x v' : validate_alignment i v = (Ok x, v') -> v' = v.
Proof. unfold validate_alignment. case_match; [|discriminate]. by injection 1. Qed.

Section body.
Variables (m : ModuleData) (ty : FuncType) (locals : list ValueType.t) (branch_base : Z).

Abbreviation instr := (validate_instruction m ty locals branch_base).

Lemma local_or_fail_inv idx v t v' :
  local_or_fail ty locals idx v = (Ok t, v') -> v' = v /\ local_type ty locals idx = Some t.
Proof. unfold local_or_fail. case_match; [|discriminate]. injection 1 as <- <-. done. Qed.
Lemma global_or_fail_inv idx b v t v' :
  global_or_fail m idx b v = (Ok t, v') -> v' = v /\ exists g, at_ (m_globals m) idx = Some g /\ (b = true -> g_mutable g = true).
Proof.
  unfold global_or_fail. destruct (at_ (m_globals m) idx) as [g|] eqn:E; [|discriminate]. intros H. minv H.
  injection H as <- <-. split; [done|]. eexists. split; [done|]. intros ->. by destruct (g_mutable g).
Qed.

Lemma load_effect i v v' :
  validate_load m i v = (Ok tt, v') -> weak v v' /\ (reach v -> effect 1 1 v v').
Proof.
  unfold validate_load. intros H. minv H. apply require_memory_inv in Hm as ->. apply validate_alignment_inv in Hm0 as ->.
  destruct (memory_type i) as [t|]; [|discriminate]. by apply (unary_effect ValidationType.I32 t).
Qed.
Lemma store_effect i v v' :
  validate_store m i v = (Ok tt, v') -> weak v v' /\ (reach v -> effect 2 0 v v').
Proof.
  unfold validate_store. intros H. minv H. apply require_memory_inv in Hm as ->. apply validate_alignment_inv in Hm0 as ->.
  destruct (memory_type i) as [t|]; [|discriminate]. minv H. destruct x1. apply (pops_effect [t; ValidationType.I32]); [|cbn; lia].
  cbn [pop_each]. rewrite (bind_ok _ _ _ _ _ Hm), (bind_ok _ _ _ _ _ H). done.
Qed.

Lemma instr_running i v v' : instr i v = (Ok tt, v') -> v_ended v = false.
Proof. unfold validate_instruction. intros H. minv1 H. by destruct (v_ended v). Qed.

Lemma lift_effect a b v v' :
  weak v v' /\ (reach v -> effect a b v v') ->
  weak v v' /\ (reach v -> (height v <= length (v_stack v))%nat -> effect a b v v').
Proof. intros [W E]. split; [done|]. intros Hr _. auto. Qed.

(** Case analysis on a validated plain instruction. *)
Lemma plain_effect i v v' a b :
  instr i v = (Ok tt, v') -> arity (i_op i) = Some (a, b) ->
  weak v v' /\ (reach v -> (height v <= length (v_stack v))%nat -> effect a b v v').
Proof.
  intros H Ha. pose proof (instr_running _ _ _ H) as He. unfold validate_instruction in H. minv1 H. rewrite He in H.
  destruct (i_op i) eqn:Eo; cbn [arity] in Ha; simplify_eq;
    try (apply in_range_inv in H as [_ H]);
    try (apply lift_effect; by eapply unary_effect); try (apply lift_effect; by eapply binary_effect);
    try (apply lift_effect; by eapply by_type_effect); try (apply lift_effect; by eapply load_effect);
    try (apply lift_effect; by eapply store_effect); try (apply lift_effect; by eapply select_effect);
    try (apply lift_effect; by eapply pop_effect);
    try (apply push_type_effect in H; split; [apply H | intros _ _; exact H]).
  - injection H as <-. split; [apply weak_refl | intros _; apply effect_refl].
  - minv H. apply local_or_fail_inv in Hm as [-> _]. apply push_type_effect in H. split; [apply H | intros _ _; exact H].
  - minv H. apply local_or_fail_inv in Hm as [-> _]. apply lift_effect; by eapply pop_effect.
  - minv1 H. apply local_or_fail_inv in Hm as [-> _]. apply lift_effect; by apply (unary_effect x x).
  - minv H. apply global_or_fail_inv in Hm as [-> _]. apply push_type_effect in H. split; [apply H | intros _ _; exact H].
  - minv H. apply global_or_fail_inv in Hm as [-> _]. apply lift_effect; by eapply pop_effect.
  - minv H. apply require_memory_inv in Hm as ->. apply push_type_effect in H. split; [apply H | intros _ _; exact H].
  - minv H. apply require_memory_inv in Hm as ->. apply lift_effect; by eapply unary_effect.
  - minv H. apply require_memory_inv in Hm as ->. destruct x0, x1. apply lift_effect. by eapply pop3_effect.
  - minv H. apply require_memory_inv in Hm as ->. destruct x0, x1. apply lift_effect. by eapply pop3_effect.
Qed.

(** ** Control *)

Definition is_opener (op : Op.t) : bool := match op with Op.Block | Op.Loop | Op.If => true | _ => false end.
Definition is_if (op : Op.t) : bool := match op with Op.If => true | _ => false end.
Definition block_count (i : Instruction) : nat := match i_block i with Some _ => 1 | None => 0 end.

(** The control an opener pushes over a stack of [h] operands. *)
Record new_control (i : Instruction) (h : nat) (u : bool) (c : ValidationControl) : Prop := mkNew {
  new_opcode : vc_opcode c = Some (i_op i);
  new_height : vc_height c = h;
  new_ends : length (vc_end_types c) = block_count i;
  new_labels : vc_label_types c = match i_op i with Op.Loop => [] | _ => vc_end_types c end;
  new_unreachable : vc_unreachable c = u;
  new_else : vc_has_else c = false
}.

Lemma push_control_inv i v v' :
  push_control (i_op i) (i_block i) v = (Ok tt, v') ->
  exists c, new_control i (length (v_stack v)) (parent_unreachable (v_controls v)) c
    /\ v' = set_controls (c :: v_controls v) v.
Proof.
  unfold push_control. intros H. minv H. apply converted_inv in Hm as [-> ->]. unfold modifyS in H. injection H as <-.
  eexists. split; [|reflexivity]. split; try done. cbn [vc_end_types]. rewrite length_map. unfold block_count. by destruct (i_block i).
Qed.

Lemma instr_open i v v' :
  instr i v = (Ok tt, v') -> is_opener (i_op i) = true ->
  exists v1 c, weak v v1 /\ v' = set_controls (c :: v_controls v) v1
    /\ new_control i (length (v_stack v1)) (parent_unreachable (v_controls v)) c
    /\ (reach v -> (height v <= length (v_stack v))%nat -> effect (if is_if (i_op i) then 1 else 0) 0 v v1).
Proof.
  intros H Ho. pose proof (instr_running _ _ _ H) as He. unfold validate_instruction in H. minv1 H. rewrite He in H.
  destruct (i_op i) eqn:Eo; try discriminate Ho.
  1,2: rewrite <- Eo in H; apply push_control_inv in H as (c & Hc & ->); exists v, c; split_and!;
    [apply weak_refl | done | done | intros _; apply effect_refl].
  minv H. destruct x. apply pop_type_inv in Hm as [W E]. rewrite <- Eo in H. apply push_control_inv in H as (c & Hc & ->).
  rewrite (weak_controls _ _ W) in Hc. exists w, c. split_and!; try done.
  - by rewrite (weak_controls _ _ W).
  - intros Hr _. auto.
Qed.

Lemma finish_control_inv c v v' :
  finish_control c v = (Ok tt, v') ->
  weak v v' /\ length (v_stack v') = vc_height c
  /\ (reach v -> (height v <= length (v_stack v))%nat -> length (v_stack v) = (vc_height c + length (vc_end_types c))%nat).
Proof.
  unfold finish_control. intros H. minv H. destruct x. injection H as <-. apply bool_decide_eq_true in E.
  apply pop_types_inv in Hm as [W K]. split_and!; [done..|]. intros Hr Hh. pose proof (effect_length _ _ _ _ (K Hr Hh)). lia.
Qed.

(** [end]: of the function, or of a block. *)
Lemma instr_end i v v' :
  instr i v = (Ok tt, v') -> i_op i = Op.End ->
  exists c cs, v_controls v = c :: cs /\ v_controls v' = cs /\ (v_max v <= v_max v')%nat
    /\ (reach v -> (height v <= length (v_stack v))%nat -> length (v_stack v) = (vc_height c + length (vc_end_types c))%nat)
    /\ match vc_opcode c with
       | None => cs = [] /\ v_ended v' = true
       | Some op => v_ended v' = false /\ length (v_stack v') = (vc_height c + length (vc_end_types c))%nat
           /\ ((length (v_stack v) <= v_max v -> length (v_stack v') <= v_max v')%nat)
           /\ (op = Op.If -> vc_has_else c = false -> vc_end_types c = [])
       end.
Proof.
  intros H Ho. pose proof (instr_running _ _ _ H) as He. unfold validate_instruction in H. minv1 H. rewrite He, Ho in H.
  unfold end_control in H. minv H. destruct (v_controls v) as [|c cs] eqn:Ec; [discriminate|]. exists c, cs.
  destruct (vc_opcode c) as [op|] eqn:Eop.
  - minv H. destruct x. apply finish_control_inv in Hm as (W & Hl & K). pose proof (push_types_length _ _ _ H) as HL. apply push_types_effect in H as [W2 _].
    cbn [set_controls v_stack] in HL. destruct W, W2; cbn in *. split_and!; try done; try lia; try congruence.
    intros -> Hh. rewrite Hh in E. by apply negb_false_iff, bool_decide_eq_true in E.
  - minv H. destruct x. apply finish_control_inv in Hm as (W & Hl & K). unfold modifyS in H. injection H as <-.
    apply negb_false_iff, bool_decide_eq_true in E. split_and!; try done. by apply W.
Qed.

(** [else]: the new branch starts where the [if] did. *)
Lemma instr_else i v v' :
  instr i v = (Ok tt, v') -> i_op i = Op.Else ->
  exists c cs c', v_controls v = c :: cs /\ v_controls v' = c' :: cs /\ v_ended v' = false /\ (v_max v <= v_max v')%nat
    /\ vc_opcode c = Some Op.If
    /\ c' = mkControl (vc_opcode c) (vc_height c) (vc_label_types c) (vc_end_types c) (parent_unreachable cs) true
    /\ length (v_stack v') = vc_height c
    /\ (length (v_stack v) <= v_max v -> length (v_stack v') <= v_max v')%nat
    /\ (reach v -> (height v <= length (v_stack v))%nat -> length (v_stack v) = (vc_height c + length (vc_end_types c))%nat).
Proof.
  intros H Ho. pose proof (instr_running _ _ _ H) as He. unfold validate_instruction in H. minv1 H. rewrite He, Ho in H.
  unfold enter_else in H. minv H. destruct (v_controls v) as [|c cs] eqn:Ec; [discriminate|]. minv H. destruct x.
  apply finish_control_inv in Hm as (W & Hl & K). unfold modifyS in H. injection H as <-. destruct W.
  exists c, cs. eexists. split_and!; cbn [v_controls v_ended v_max v_stack]; rewrite ?length_bottom; try done; try lia; try congruence.
  destruct (vc_opcode c) as [[]|]; try discriminate E. done.
Qed.

Definition marked (c : ValidationControl) : ValidationControl :=
  mkControl (vc_opcode c) (vc_height c) (vc_label_types c) (vc_end_types c) true (vc_has_else c).

(** Instructions after which the code cannot be reached; [need] operands are
    there when they are. *)
Record leaves (need : nat) (v v' : VCtx) : Prop := mkLeaves {
  leaves_controls : exists c cs, v_controls v = c :: cs /\ v_controls v' = marked c :: cs;
  leaves_ended : v_ended v' = v_ended v;
  leaves_max : (v_max v <= v_max v')%nat;
  leaves_bound : (length (v_stack v) <= v_max v -> length (v_stack v') <= v_max v')%nat;
  leaves_height : (height v <= length (v_stack v) -> height v <= length (v_stack v'))%nat;
  leaves_need : reach v -> (height v <= length (v_stack v) -> need + height v <= length (v_stack v))%nat
}.

Lemma mark_leaves n v w v' :
  weak v w -> (reach v -> (height v <= length (v_stack v))%nat -> effect n 0 v w) -> mark_unreachable w = (Ok tt, v') ->
  leaves n v v'.
Proof.
  intros W K H. unfold mark_unreachable in H. minv H. destruct (v_controls w) as [|c cs] eqn:Ec; [discriminate|].
  unfold putS in H. injection H as <-. destruct W as [Wc We Wh Wm Wb]. rewrite Ec in Wc.
  assert (height v = vc_height c) as Hh by (unfold height; by rewrite <- Wc).
  split; cbn [v_controls v_ended v_stack v_max]; rewrite ?length_bottom; try done; try lia.
  - eauto.
  - intros Hr Hl. apply (effect_enough _ _ _ _ (K Hr Hl)).
Qed.

Lemma control_at_inv d v c v' : control_at d v = (Ok c, v') -> v' = v /\ at_ (v_controls v) d = Some c.
Proof. unfold control_at. intros H. minv H. destruct (at_ (v_controls v) d); [|discriminate]. injection H as <- <-. done. Qed.

Lemma check_targets_inv types l v x v' :
  check_targets types l v = (Ok x, v') ->
  v' = v /\ Forall (fun d => exists c, at_ (v_controls v) d = Some c /\ vc_label_types c = types) l.
Proof.
  revert v. induction l as [|d l IH]; intros v H; cbn [check_targets] in H; [by injection H as _ <-|].
  minv H. apply control_at_inv in Hm as [-> Hc]. apply bool_decide_eq_true in E. destruct (IH _ H) as [-> HF]. eauto.
Qed.

Lemma instr_leaves i v v' :
  instr i v = (Ok tt, v') ->
  match i_op i with
  | Op.Unreachable => leaves 0 v v'
  | Op.Br => exists c, at_ (v_controls v) (i_operand i) = Some c /\ leaves (length (vc_label_types c)) v v'
  | Op.Return => exists c, outermost (v_controls v) = Some c /\ leaves (length (vc_end_types c)) v v'
  | Op.BrTable => exists targets types, table_targets m branch_base i = Some targets
      /\ Forall (fun d => exists c, at_ (v_controls v) d = Some c /\ vc_label_types c = types) targets
      /\ leaves (S (length types)) v v'
  | _ => True
  end.
Proof.
  intros H. pose proof (instr_running _ _ _ H) as He. unfold validate_instruction in H. minv1 H. rewrite He in H.
  destruct (i_op i) eqn:Eo; try done.
  - eapply mark_leaves; [apply weak_refl | intros _; apply effect_refl | done].
  - minv H. apply control_at_inv in Hm as [-> Hc]. destruct x0. apply pop_types_inv in Hm0 as [W K].
    eexists. split; [done|]. by eapply mark_leaves.
  - unfold validate_br_table in H. destruct (table_targets m branch_base i) as [targets|]; [|discriminate]. minv H.
    destruct x, x1, x2. apply control_at_inv in Hm0 as [-> Hc]. apply check_targets_inv in Hm1 as [-> HF].
    apply pop_type_inv in Hm as [W1 K1]. apply pop_types_inv in Hm2 as [W2 K2]. rewrite (weak_controls _ _ W1) in HF.
    exists targets, (vc_label_types x0). split_and!; [done..|]. eapply mark_leaves; [by eapply weak_trans| |done].
    intros Hr Hl. pose proof (weak_controls _ _ W1) as Hc1.
    eapply effect_cat; [exact (K1 Hr)|apply K2|lia|lia]; [by eapply reach_controls|].
    rewrite (height_controls _ _ Hc1). by apply (weak_height _ _ W1).
  - destruct (outermost (v_controls v)) as [c|]; [|discriminate]. minv H. destruct x. apply pop_types_inv in Hm as [W K].
    eexists. split; [done|]. by eapply mark_leaves.
Qed.

Lemma instr_br_if i v v' :
  instr i v = (Ok tt, v') -> i_op i = Op.BrIf ->
  weak v v' /\ exists c, at_ (v_controls v) (i_operand i) = Some c
    /\ (reach v -> (height v <= length (v_stack v))%nat -> effect (S (length (vc_label_types c))) (length (vc_label_types c)) v v').
Proof.
  intros H Ho. pose proof (instr_running _ _ _ H) as He. unfold validate_instruction in H. minv1 H. rewrite He, Ho in H.
  minv H. destruct x0, x1. apply control_at_inv in Hm as [-> Hc]. apply pop_type_inv in Hm0 as [W1 K1].
  apply pop_types_inv in Hm1 as [W2 K2]. apply push_types_effect in H as [W3 K3].
  pose proof (weak_controls _ _ W1) as Hc1. pose proof (weak_controls _ _ W2) as Hc2.
  split; [by eapply weak_trans, W3; eapply weak_trans|]. eexists. split; [done|]. intros Hr Hl.
  assert (height w0 <= length (v_stack w0))%nat as Hl0.
  { rewrite (height_controls _ _ Hc1). by apply (weak_height _ _ W1). }
  assert (height w1 <= length (v_stack w1))%nat as Hl1.
  { rewrite (height_controls _ _ Hc2). by apply (weak_height _ _ W2). }
  pose proof (reach_controls _ _ Hc1 Hr) as Hr0.
  eapply effect_cat; [eapply effect_cat; [exact (K1 Hr)|exact (K2 Hr0 Hl0)|reflexivity|reflexivity]|exact (K3 Hl1)|lia|lia].
Qed.

Lemma signature_effect ty' v v' w x :
  pop_value_types (params ty') v = (Ok x, w) -> push_value_types (results ty') w = (Ok tt, v') ->
  weak v v' /\ (reach v -> (height v <= length (v_stack v))%nat -> effect (length (params ty')) (length (results ty')) v v').
Proof.
  unfold pop_value_types, push_value_types. intros H1 H2. destruct x. minv H1. minv H2.
  apply converted_inv in Hm as [-> ->]. apply converted_inv in Hm0 as [-> ->].
  apply pop_types_inv in H1 as [W1 K1]. apply push_types_effect in H2 as [W2 K2]. rewrite length_map in K1, K2.
  split; [by eapply weak_trans|]. intros Hr Hl. eapply effect_cat; [exact (K1 Hr Hl)|apply K2|lia|lia].
  rewrite (height_controls _ _ (weak_controls _ _ W1)). by apply (weak_height _ _ W1).
Qed.

Lemma instr_call i v v' :
  instr i v = (Ok tt, v') -> i_op i = Op.Call ->
  weak v v' /\ exists callee, function_type m (i_operand i) = Some callee
    /\ (reach v -> (height v <= length (v_stack v))%nat -> effect (length (params callee)) (length (results callee)) v v').
Proof.
  intros H Ho. pose proof (instr_running _ _ _ H) as He. unfold validate_instruction in H. minv1 H. rewrite He, Ho in H.
  unfold validate_call in H. destruct (function_type m (i_operand i)) as [callee|]; [|discriminate]. minv H.
  destruct (signature_effect _ _ _ _ _ Hm H). eauto.
Qed.

Lemma instr_call_indirect i v v' :
  instr i v = (Ok tt, v') -> i_op i = Op.CallIndirect ->
  weak v v' /\ exists callee, at_ (m_types m) (i_operand i) = Some callee
    /\ (reach v -> (height v <= length (v_stack v))%nat -> effect (S (length (params callee))) (length (results callee)) v v').
Proof.
  intros H Ho. pose proof (instr_running _ _ _ H) as He. unfold validate_instruction in H. minv1 H. rewrite He, Ho in H.
  unfold validate_call_indirect in H. destruct (m_table m); [|discriminate]. minv H.
  destruct (at_ (m_types m) (i_operand i)) as [callee|]; [|discriminate]. minv H. destruct x.
  apply pop_type_inv in Hm as [W1 K1]. destruct (signature_effect _ _ _ _ _ Hm0 H) as [W2 K2].
  pose proof (weak_controls _ _ W1) as Hc1. split; [by eapply weak_trans|]. eexists. split; [done|]. intros Hr Hl.
  eapply effect_cat; [exact (K1 Hr)|apply K2|lia|lia]; [by eapply reach_controls|].
  rewrite (height_controls _ _ Hc1). by apply (weak_height _ _ W1).
Qed.
End body.

(** * A validated body, instruction by instruction

    The validator's state before each instruction of a body it accepted, and
    the blocks open there by the index of the instruction that opened them. *)

(** ** Open blocks *)

Definition opens_step (k : nat) (i : Instruction) (os : list nat) : list nat :=
  match i_op i with
  | Op.Block | Op.Loop | Op.If => k :: os
  | Op.End => tail os
  | _ => os
  end.
Fixpoint opens_from (k : nat) (l : list Instruction) (os : list nat) : list nat :=
  match l with
  | [] => os
  | i :: l => opens_from (S k) l (opens_step k i os)
  end.
Definition opens (ops : list Instruction) (k : nat) : list nat := opens_from 0 (take k ops) [].

Lemma opens_from_app k l1 l2 os :
  opens_from k (l1 ++ l2) os = opens_from (k + length l1) l2 (opens_from k l1 os).
Proof.
  revert k os. induction l1 as [|i l1 IH]; intros k os; cbn [opens_from app length]; [by rewrite Nat.add_0_r|].
  rewrite IH. f_equal. lia.
Qed.

Lemma opens_S ops k i : ops !! k = Some i -> opens ops (S k) = opens_step k i (opens ops k).
Proof.
  intros H. unfold opens. rewrite (take_S_r _ _ _ H), opens_from_app. rewrite length_take.
  apply lookup_lt_Some in H. replace (0 + k `min` length ops)%nat with k by lia. done.
Qed.
Lemma opens_0 ops : opens ops 0 = [].
Proof. done. Qed.

(** ** The validator along a body *)

Section walk.
Variables (m : ModuleData) (ty : FuncType) (locals : list ValueType.t) (branch_base : Z) (ops : list Instruction).

Abbreviation instr := (validate_instruction m ty locals branch_base).
Abbreviation all := (validate_all m ty locals branch_base).

(** [v] is the validator's state before instruction [k]. *)
Definition vat (k : nat) (v : VCtx) : Prop :=
  (_ ← initialize_control ty; all (take k ops)) (mkV [] [] 0 false) = (Ok tt, v).

Lemma vat_det k v v' : vat k v -> vat k v' -> v = v'.
Proof. unfold vat. intros H1 H2. congruence. Qed.

Lemma validate_all_app l1 l2 s :
  all (l1 ++ l2) s = (_ ← all l1; all l2) s.
Proof.
  revert s. induction l1 as [|i l1 IH]; intros s; [done|]. cbn [validate_all app].
  unfold mbind, M_bind in *. destruct (instr i s) as [[[]|e|] s']; [|done..]. apply IH.
Qed.

Lemma vat_S k i v v' : ops !! k = Some i -> vat k v -> instr i v = (Ok tt, v') -> vat (S k) v'.
Proof.
  intros Hi Hk Hs. unfold vat in *. rewrite (take_S_r _ _ _ Hi). apply bind_inv_ok in Hk as (x & w & H1 & H2).
  rewrite (bind_ok _ _ _ _ _ H1), validate_all_app, (bind_ok _ _ _ _ _ H2). cbn [validate_all].
  by rewrite (bind_ok _ _ _ _ _ Hs).
Qed.

Lemma vat_S_inv k i v' : ops !! k = Some i -> vat (S k) v' -> exists v, vat k v /\ instr i v = (Ok tt, v').
Proof.
  intros Hi H. unfold vat in *. rewrite (take_S_r _ _ _ Hi) in H. apply bind_inv_ok in H as (x & w & H1 & H2).
  rewrite validate_all_app in H2. apply bind_inv_ok in H2 as ([] & w1 & H2 & H3).
  exists w1. rewrite (bind_ok _ _ _ _ _ H1). split; [done|]. cbn [validate_all] in H3.
  apply bind_inv_ok in H3 as ([] & w2 & H3 & H4). by injection H4 as <-.
Qed.

Variable depth : nat.
Hypothesis valid : validate m ty locals branch_base ops = Ok depth.

Lemma vat_end : exists v, vat (length ops) v /\ v_ended v = true /\ v_controls v = [] /\ v_max v = depth.
Proof using valid.
  unfold validate in valid. unfold vat. rewrite take_ge by lia.
  destruct (kMaxInstructions <? zlen ops); [done|]. destruct (bool_decide (ops = [])); [done|].
  destruct ((_ ← initialize_control ty; all ops) (mkV [] [] 0 false)) as [[[]|e|] v] eqn:E; try done. destruct (v_ended v) eqn:Ee; [|done]. cbn [andb] in valid.
  case_bool_decide; [|done]. injection valid as <-. eauto.
Qed.

Lemma vat_before n k : (k + n = length ops)%nat -> exists v, vat k v.
Proof using valid.
  revert k. induction n as [|n IH]; intros k Hk.
  - destruct vat_end as (v & Hv & _). exists v. by replace k with (length ops) by lia.
  - destruct (IH (S k) ltac:(lia)) as [v' Hv']. destruct (lookup_lt_is_Some_2 ops k ltac:(lia)) as [i Hi].
    destruct (vat_S_inv _ _ _ Hi Hv') as (v & Hv & _). eauto.
Qed.

Lemma vat_step k i : ops !! k = Some i -> exists v v', vat k v /\ instr i v = (Ok tt, v') /\ vat (S k) v'.
Proof using valid.
  intros Hi. pose proof (lookup_lt_Some _ _ _ Hi). destruct (vat_before (length ops - S k) (S k) ltac:(lia)) as [v' Hv'].
  destruct (vat_S_inv _ _ _ Hi Hv') as (v & Hv & Hs). eauto.
Qed.

Lemma vat_next k i v : ops !! k = Some i -> vat k v -> exists v', instr i v = (Ok tt, v') /\ vat (S k) v'.
Proof using valid.
  intros Hi Hv. destruct (vat_step _ _ Hi) as (w & v' & Hw & Hs & Hn). rewrite (vat_det _ _ _ Hv Hw). eauto.
Qed.

(** ** Controls and the blocks that are open *)

Definition has_else (o : nat) : Prop :=
  exists e i os, ops !! e = Some i /\ i_op i = Op.Else /\ opens ops e = o :: os.

(** [c] is still the control [c0], but for its flags. *)
Definition same_block (c0 c : ValidationControl) : Prop :=
  vc_opcode c = vc_opcode c0 /\ vc_height c = vc_height c0 /\ vc_label_types c = vc_label_types c0
  /\ vc_end_types c = vc_end_types c0.

Definition outer_height (cs : list ValidationControl) : nat := match cs with c :: _ => vc_height c | [] => 0 end.

Inductive aligned : list ValidationControl -> list nat -> Prop :=
  | aligned_function c :
      vc_opcode c = None -> vc_height c = 0%nat -> vc_label_types c = vc_end_types c ->
      length (vc_end_types c) = length (results ty) -> aligned [c] []
  | aligned_block c cs o os i c0 v0 :
      aligned cs os -> ops !! o = Some i -> is_opener (i_op i) = true -> vat (S o) v0 -> v_controls v0 = c0 :: cs ->
      new_control i (length (v_stack v0)) (parent_unreachable cs) c0 -> same_block c0 c -> opens ops o = os ->
      (parent_unreachable cs = true -> vc_unreachable c = true) -> (vc_has_else c = true -> has_else o) ->
      (outer_height cs <= vc_height c)%nat -> aligned (c :: cs) (o :: os).

Record wf (k : nat) (v : VCtx) : Prop := mkWf {
  wf_aligned : aligned (v_controls v) (opens ops k);
  wf_height : (height v <= length (v_stack v))%nat;
  wf_max : (length (v_stack v) <= v_max v)%nat
}.

(** The kinds of instructions, by what they do to the controls. *)
Lemma instr_kind i v v' :
  instr i v = (Ok tt, v') ->
  (weak v v' /\ forall k os, opens_step k i os = os)
  \/ is_opener (i_op i) = true
  \/ ((exists n, leaves n v v') /\ forall k os, opens_step k i os = os)
  \/ i_op i = Op.Else \/ i_op i = Op.End.
Proof.
  intros H. destruct (arity (i_op i)) as [[a b]|] eqn:Ea.
  - left. split; [exact (proj1 (plain_effect _ _ _ _ _ _ _ _ _ H Ea))|]. unfold opens_step. by destruct (i_op i).
  - pose proof (instr_leaves _ _ _ _ _ _ _ H) as HL. unfold opens_step.
    destruct (i_op i) eqn:Eo; try discriminate Ea; try (by auto).
    + right; right; left. eauto.
    + right; right; left. destruct HL as (? & _ & ?). eauto.
    + left. destruct (instr_br_if _ _ _ _ _ _ _ H Eo). eauto.
    + right; right; left. destruct HL as (? & ? & _ & _ & ?). eauto.
    + right; right; left. destruct HL as (? & _ & ?). eauto.
    + left. destruct (instr_call _ _ _ _ _ _ _ H Eo). eauto.
    + left. destruct (instr_call_indirect _ _ _ _ _ _ _ H Eo). eauto.
Qed.

Lemma aligned_flags c c' cs os :
  aligned (c :: cs) os -> same_block c c' -> (parent_unreachable cs = true -> vc_unreachable c' = true) ->
  (forall o os', os = o :: os' -> vc_has_else c' = true -> has_else o) -> aligned (c' :: cs) os.
Proof.
  intros H (E1 & E2 & E3 & E4) Hu Hh. inversion H; subst.
  - constructor; congruence.
  - econstructor; try done; [|by eauto|congruence]. unfold same_block in *. intuition congruence.
Qed.

Lemma height_outer v c cs : v_controls v = c :: cs -> height v = vc_height c.
Proof. unfold height. by intros ->. Qed.

Lemma wf_open k i v v' :
  ops !! k = Some i -> vat (S k) v' -> wf k v -> instr i v = (Ok tt, v') -> is_opener (i_op i) = true -> wf (S k) v'.
Proof.
  intros Hi Hn [Ha Hh Hx] Hs Ho. destruct (instr_open _ _ _ _ _ _ _ Hs Ho) as (v1 & c & W & -> & Hc & _).
  assert (height v <= length (v_stack v1))%nat by by apply (weak_height _ _ W).
  assert (opens ops (S k) = k :: opens ops k) as Hos.
  { rewrite (opens_S _ _ _ Hi). unfold opens_step. by destruct (i_op i). }
  split; cbn [set_controls v_controls v_stack v_max].
  - rewrite Hos. econstructor; try done.
    + intros Hp. by rewrite (new_unreachable _ _ _ _ Hc).
    + by rewrite (new_else _ _ _ _ Hc).
    + by rewrite (new_height _ _ _ _ Hc).
  - by rewrite (height_outer _ c (v_controls v)), (new_height _ _ _ _ Hc).
  - by apply (weak_bound _ _ W).
Qed.

Lemma wf_else k i v v' :
  ops !! k = Some i -> wf k v -> instr i v = (Ok tt, v') -> i_op i = Op.Else -> wf (S k) v'.
Proof.
  intros Hi [Ha Hh Hx] Hs Ho.
  destruct (instr_else _ _ _ _ _ _ _ Hs Ho) as (c & cs & c' & Hc & Hc' & _ & _ & _ & Ec' & Hl & Hb & _).
  assert (opens ops (S k) = opens ops k) as Hos.
  { rewrite (opens_S _ _ _ Hi). unfold opens_step. by rewrite Ho. }
  split; [|by rewrite (height_outer _ _ _ Hc'), Ec', Hl|by apply Hb].
  rewrite Hc', Hos. rewrite Hc in Ha. eapply aligned_flags; [done| |by rewrite Ec'|].
  - by rewrite Ec'.
  - intros o os Eo _. exists k, i, os. done.
Qed.

Lemma wf_end k i v v' :
  ops !! k = Some i -> wf k v -> instr i v = (Ok tt, v') -> i_op i = Op.End -> v_ended v' = false -> wf (S k) v'.
Proof.
  intros Hi [Ha Hh Hx] Hs Ho He. destruct (instr_end _ _ _ _ _ _ _ Hs Ho) as (c & cs & Hc & Hc' & _ & _ & K).
  rewrite Hc in Ha. inversion Ha as [? E1|? ? o os ? ? ? Ha' ? ? ? ? Hnew Hsame ? ? ? Hout]; subst.
  - rewrite E1 in K. destruct K as [_ K]. congruence.
  - destruct Hsame as (E1 & _). rewrite E1, (new_opcode _ _ _ _ Hnew) in K. destruct K as (_ & Hl & Hb & _).
    assert (opens ops (S k) = opens ops o) as Hos.
    { rewrite (opens_S _ _ _ Hi). unfold opens_step. rewrite Ho. by destruct (opens ops k); simplify_eq. }
    split; [by rewrite Hos| |by apply Hb]. unfold height, outer_height in *. rewrite Hl. destruct (v_controls v'); lia.
Qed.

Lemma wf_step k i v v' :
  ops !! k = Some i -> vat k v -> wf k v -> instr i v = (Ok tt, v') -> v_ended v' = false -> wf (S k) v'.
Proof.
  intros Hi Hk Hw Hs He. pose proof (vat_S _ _ _ _ Hi Hk Hs) as Hn.
  destruct (instr_kind _ _ _ Hs) as [[W Ho]|[Ho|[[[n L] Ho]|[Ho|Ho]]]].
  - destruct Hw as [Ha Hh Hx]. split; rewrite ?(opens_S _ _ _ Hi), ?Ho, ?(weak_controls _ _ W); [done| |by apply W].
    rewrite (height_controls _ _ (weak_controls _ _ W)). by apply W.
  - by eapply wf_open.
  - destruct Hw as [Ha Hh Hx], L as [(c & cs & Hc & Hc') _ _ Hb Hl _]. rewrite Hc in Ha.
    split; [rewrite (opens_S _ _ _ Hi), Ho, Hc'| |by apply Hb].
    + eapply aligned_flags; [done|done|done|]. intros o os Eo Hh'. rewrite Eo in Ha. inversion Ha; subst. auto.
    + rewrite (height_outer _ _ _ Hc'). cbn [marked vc_height]. rewrite <- (height_outer _ _ _ Hc). auto.
  - by eapply wf_else.
  - by eapply wf_end.
Qed.

Lemma wf_start v : vat 0 v -> wf 0 v.
Proof.
  unfold vat, initialize_control. intros H. apply bind_inv_ok in H as (x & w & H & H').
  cbn [take validate_all] in H'. injection H' as <-. minv H. apply converted_inv in Hm as [-> ->].
  unfold modifyS in H. injection H as _ <-. cbn [set_controls v_controls v_stack v_max]. split; [|cbn; lia..].
  rewrite opens_0. by apply aligned_function; [..|cbn; rewrite length_map].
Qed.

Lemma vat_0 v : vat 0 v -> v_stack v = [] /\ v_ended v = false /\ reach v.
Proof.
  unfold vat, initialize_control. intros H. apply bind_inv_ok in H as (x & w & H & H').
  cbn [take validate_all] in H'. injection H' as <-. minv H. apply converted_inv in Hm as [-> ->].
  unfold modifyS in H. by injection H as _ <-.
Qed.

Lemma vat_wf k v : vat k v -> v_ended v = false -> (k <= length ops)%nat -> wf k v.
Proof.
  revert v. induction k as [|k IH]; intros v Hv He Hk; [by apply wf_start|].
  destruct (lookup_lt_is_Some_2 ops k ltac:(lia)) as [i Hi]. destruct (vat_S_inv _ _ _ Hi Hv) as (w & Hw & Hs).
  eapply wf_step; try done. apply IH; [done| |lia]. by eapply instr_running.
Qed.

(** ** Where a block ends *)

Lemma end_block k i v v' o os :
  wf k v -> instr i v = (Ok tt, v') -> i_op i = Op.End -> opens ops k = o :: os ->
  exists c cs, v_controls v = c :: cs /\ v_controls v' = cs /\ v_ended v' = false
    /\ length (v_stack v') = (vc_height c + length (vc_end_types c))%nat
    /\ (vc_opcode c = Some Op.If -> vc_has_else c = false -> vc_end_types c = [])
    /\ (reach v -> length (v_stack v) = (vc_height c + length (vc_end_types c))%nat).
Proof.
  intros [Ha Hh Hx] Hs Ho Hos. destruct (instr_end _ _ _ _ _ _ _ Hs Ho) as (c & cs & Hc & Hc' & _ & Hr & K).
  rewrite Hc, Hos in Ha. exists c, cs. inversion Ha as [|? ? ? ? ? ? ? ? ? ? ? ? Hnew Hsame]; subst.
  destruct Hsame as (E1 & _). rewrite E1, (new_opcode _ _ _ _ Hnew) in *. destruct K as (? & ? & _ & K).
  split_and!; try done; [|by auto]. intros E. apply K. congruence.
Qed.

(** The controls and open blocks around the block at position [j]. *)
Lemma block_step k i v v' j o :
  ops !! k = Some i -> vat k v -> wf k v -> instr i v = (Ok tt, v') -> opens ops k !! j = Some o ->
  (i_op i = Op.End /\ j = 0%nat)
  \/ exists j', opens ops (S k) !! j' = Some o
       /\ drop (S j') (v_controls v') = drop (S j) (v_controls v)
       /\ drop (S j') (opens ops (S k)) = drop (S j) (opens ops k).
Proof.
  intros Hi Hk Hw Hs Hj. rewrite (opens_S _ _ _ Hi).
  destruct (instr_kind _ _ _ Hs) as [[W Ho]|[Ho|[[[n L] Ho]|[Ho|Ho]]]].
  - right. exists j. rewrite Ho, (weak_controls _ _ W). done.
  - right. exists (S j). destruct (instr_open _ _ _ _ _ _ _ Hs Ho) as (v1 & c & W & -> & _).
    unfold opens_step. destruct (i_op i); try discriminate Ho; done.
  - right. exists j. destruct L as [(c & cs & Hc & Hc') _ _ _ _ _]. rewrite Ho, Hc, Hc'. done.
  - right. exists j. unfold opens_step. rewrite Ho. split_and!; [done| |done].
    destruct (instr_else _ _ _ _ _ _ _ Hs Ho) as (c & cs & c' & Hc & Hc' & _). by rewrite Hc, Hc'.
  - destruct j as [|j]; [by left|]. right. exists j. unfold opens_step. rewrite Ho.
    destruct (instr_end _ _ _ _ _ _ _ Hs Ho) as (c & cs & Hc & Hc' & _). rewrite Hc, Hc'.
    by destruct (opens ops k).
Qed.

(** Every open block has an [end], before which the blocks around it are the
    same, and after which its results are on the stack. *)
Lemma block_ends n k v j o :
  (k + n = length ops)%nat -> vat k v -> v_ended v = false -> opens ops k !! j = Some o ->
  exists e i ve v', (k <= e)%nat /\ ops !! e = Some i /\ i_op i = Op.End
    /\ vat e ve /\ wf e ve /\ instr i ve = (Ok tt, v') /\ vat (S e) v'
    /\ opens ops e = o :: drop (S j) (opens ops k) /\ drop 1 (v_controls ve) = drop (S j) (v_controls v).
Proof using valid.
  revert k v j. induction n as [|n IH]; intros k v j Hk Hv He Hj.
  - destruct vat_end as (w & Hw & Hw' & _). replace (length ops) with k in Hw by lia.
    rewrite (vat_det _ _ _ Hv Hw) in He. congruence.
  - destruct (lookup_lt_is_Some_2 ops k ltac:(lia)) as [i Hi]. destruct (vat_next _ _ _ Hi Hv) as (v' & Hs & Hn).
    assert (wf k v) as Hw by (apply vat_wf; [done|done|lia]).
    destruct (block_step _ _ _ _ _ _ Hi Hv Hw Hs Hj) as [[Ho ->]|(j' & Hj' & E1 & E2)].
    + exists k, i, v, v'. split_and!; try done. destruct (opens ops k) as [|o0 os0]; [done|]. cbn in Hj. by simplify_eq.
    + assert (v_ended v' = false) as He'.
      { destruct (instr_kind _ _ _ Hs) as [[W Ho]|[Ho|[[[p L] Ho]|[Ho|Ho]]]].
        - by rewrite (weak_ended _ _ W).
        - destruct (instr_open _ _ _ _ _ _ _ Hs Ho) as (v1 & c & W & -> & _). cbn. by rewrite (weak_ended _ _ W).
        - by rewrite (leaves_ended _ _ _ L).
        - destruct (instr_else _ _ _ _ _ _ _ Hs Ho) as (c & cs & c' & _ & _ & Hx & _). done.
        - destruct (opens ops k) as [|o0 os0] eqn:Eo; [done|]. destruct (end_block _ _ _ _ _ _ Hw Hs Ho Eo) as (? & ? & _ & _ & ? & _). done. }
      destruct (IH (S k) v' j' ltac:(lia) Hn He' Hj') as (e & ie & ve & v2 & ? & ? & ? & ? & ? & ? & ? & E3 & E4).
      exists e, ie, ve, v2. rewrite E3, E4, E1, E2. split_and!; try done. lia.
Qed.

(** ** Blocks by their opener *)

Lemma aligned_lookup cs os j o :
  aligned cs os -> os !! j = Some o ->
  exists c i c0 v0, cs !! j = Some c /\ ops !! o = Some i /\ is_opener (i_op i) = true /\ vat (S o) v0
    /\ v_controls v0 = c0 :: drop (S j) cs
    /\ new_control i (length (v_stack v0)) (parent_unreachable (drop (S j) cs)) c0 /\ same_block c0 c
    /\ opens ops o = drop (S j) os /\ (vc_height c <= outer_height cs)%nat
    /\ (parent_unreachable (drop (S j) cs) = true -> parent_unreachable cs = true)
    /\ (j = 0%nat -> vc_has_else c = true -> has_else o).
Proof.
  intros H. revert j. induction H as [c|c cs o' os i c0 v0 H IH Hi Ho Hv Hc Hn Hs Hos Hu Hh Hout]; intros j Hj; [done|].
  destruct j as [|j]; cbn in Hj |- *.
  - injection Hj as ->. exists c, i, c0, v0. split_and!; try done.
  - destruct (IH j Hj) as (c1 & i1 & c2 & v1 & ? & ? & ? & ? & ? & ? & ? & ? & Hle & Hp & _).
    exists c1, i1, c2, v1. split_and!; try done; [|by auto]. unfold outer_height in *. destruct cs; lia.
Qed.

Lemma aligned_outer cs os : aligned cs os ->
  length cs = S (length os) /\ exists c, last cs = Some c /\ cs !! length os = Some c
    /\ vc_label_types c = vc_end_types c /\ length (vc_end_types c) = length (results ty).
Proof.
  induction 1 as [c|c cs o os i c0 v0 H [IH1 (c1 & IH2 & IH3 & IH4)]]; cbn [length lookup list_lookup].
  - split; [done|]. exists c. done.
  - split; [lia|]. exists c1. rewrite last_cons, IH2. done.
Qed.

(** The [end] of the block opened at [o], whose height is [h]. *)
Lemma opener_ends o i v0 :
  ops !! o = Some i -> is_opener (i_op i) = true -> vat (S o) v0 -> v_ended v0 = false ->
  exists e ie ve v', (o < e)%nat /\ ops !! e = Some ie /\ i_op ie = Op.End /\ vat e ve /\ wf e ve
    /\ opens ops e = o :: opens ops o /\ vat (S e) v' /\ v_ended v' = false /\ opens ops (S e) = opens ops o
    /\ v_controls v' = tail (v_controls v0) /\ length (v_stack v') = (length (v_stack v0) + block_count i)%nat
    /\ (is_if (i_op i) = true -> ~ has_else o -> block_count i = 0%nat).
Proof using valid.
  intros Hi Ho Hv He. pose proof (lookup_lt_Some _ _ _ Hi) as Hlt.
  assert (opens ops (S o) = o :: opens ops o) as Hos.
  { rewrite (opens_S _ _ _ Hi). unfold opens_step. by destruct (i_op i). }
  destruct (block_ends (length ops - S o) (S o) v0 0 o) as (e & ie & ve & v' & Hle & Hie & Hend & Hve & Hw & Hs & Hv' & E1 & E2);
    [lia|done|done|by rewrite Hos|]. rewrite Hos in E1. cbn [drop] in E1, E2.
  destruct (end_block _ _ _ _ _ _ Hw Hs Hend E1) as (c & cs & Hc & Hc' & He' & Hl & Hif & _).
  destruct (aligned_lookup _ _ 0 o (wf_aligned _ _ Hw)) as (c1 & i1 & c0 & v1 & A1 & A2 & A3 & A4 & A5 & A6 & A7 & A8 & _ & _ & A9);
    [by rewrite E1|]. assert (i1 = i) as -> by congruence. pose proof (vat_det _ _ _ Hv A4) as <-. rewrite Hc in A1. injection A1 as <-.
  destruct A7 as (B1 & B2 & B3 & B4). rewrite B2, B4, (new_height _ _ _ _ A6), (new_ends _ _ _ _ A6) in Hl.
  exists e, ie, ve, v'. split_and!; try done; try lia.
  - by rewrite (opens_S _ _ _ Hie), E1; unfold opens_step; rewrite Hend.
  - rewrite Hc', (f_equal (drop 1) (eq_sym Hc) : cs = _), E2. by destruct (v_controls v0).
  - intros Hisif Hno. rewrite <- (new_ends _ _ _ _ A6), <- B4, Hif; [done| |].
    + rewrite B1, (new_opcode _ _ _ _ A6). by destruct (i_op i).
    + destruct (vc_has_else c); [|done]. destruct Hno. by apply A9.
Qed.

(** The control of the innermost block, when its opener is [o]. *)
Lemma innermost e ve o os i v0 :
  wf e ve -> opens ops e = o :: os -> ops !! o = Some i -> vat (S o) v0 ->
  os = opens ops o /\ exists c, v_controls ve = c :: tail (v_controls v0) /\ vc_height c = length (v_stack v0)
    /\ length (vc_end_types c) = block_count i.
Proof.
  intros Hw Eo Hi Hv. destruct (aligned_lookup _ _ 0 o (wf_aligned _ _ Hw)) as (c & i1 & c0 & v1 & A1 & A2 & A3 & A4 & A5 & A6 & A7 & A8 & _);
    [by rewrite Eo|]. assert (i1 = i) as -> by congruence. pose proof (vat_det _ _ _ Hv A4) as <-.
  destruct A7 as (B1 & B2 & B3 & B4). rewrite Eo in A8. split; [by rewrite A8|]. exists c.
  rewrite B2, B4, (new_height _ _ _ _ A6), (new_ends _ _ _ _ A6). split_and!; try done.
  rewrite A5. cbn [tail]. destruct (v_controls ve); [done|]. cbn in *. by simplify_eq.
Qed.

Lemma opener_else e ie ve o os i v0 :
  ops !! e = Some ie -> i_op ie = Op.Else -> vat e ve -> wf e ve -> opens ops e = o :: os -> ops !! o = Some i -> vat (S o) v0 ->
  exists v' c', vat (S e) v' /\ v_ended v' = false /\ opens ops (S e) = o :: os /\ v_controls v' = c' :: tail (v_controls v0)
    /\ vc_unreachable c' = parent_unreachable (tail (v_controls v0)) /\ length (v_stack v') = length (v_stack v0)
    /\ (reach ve -> length (v_stack ve) = (length (v_stack v0) + block_count i)%nat).
Proof using valid.
  intros Hie Ho Hve Hw Eo Hi Hv. destruct (innermost _ _ _ _ _ _ Hw Eo Hi Hv) as (-> & c & Hc & Hh & He).
  destruct (vat_next _ _ _ Hie Hve) as (v' & Hs & Hn).
  destruct (instr_else _ _ _ _ _ _ _ Hs Ho) as (c1 & cs & c' & Hc1 & Hc' & Hend & _ & _ & Ec' & Hl & _ & Hr).
  rewrite Hc in Hc1. injection Hc1 as <- <-. exists v', c'. split_and!; try done.
  - by rewrite (opens_S _ _ _ Hie), Eo; unfold opens_step; rewrite Ho.
  - by rewrite Ec'.
  - by rewrite Hl.
  - intros Hre. rewrite <- Hh, <- He. apply Hr; [done|apply Hw].
Qed.

Lemma at_end_block e ie ve o os i v0 :
  ops !! e = Some ie -> i_op ie = Op.End -> vat e ve -> wf e ve -> opens ops e = o :: os -> ops !! o = Some i ->
  vat (S o) v0 -> reach ve -> length (v_stack ve) = (length (v_stack v0) + block_count i)%nat.
Proof using valid.
  intros Hie Ho Hve Hw Eo Hi Hv Hr. destruct (innermost _ _ _ _ _ _ Hw Eo Hi Hv) as (-> & c & Hc & Hh & He).
  destruct (vat_next _ _ _ Hie Hve) as (v' & Hs & Hn).
  destruct (end_block _ _ _ _ _ _ Hw Hs Ho Eo) as (c1 & cs & Hc1 & _ & _ & _ & _ & K). rewrite Hc in Hc1. injection Hc1 as <- <-.
  rewrite <- Hh, <- He. auto.
Qed.

Lemma at_end_function e ie ve :
  ops !! e = Some ie -> i_op ie = Op.End -> vat e ve -> wf e ve -> opens ops e = [] -> reach ve ->
  length (v_stack ve) = length (results ty).
Proof using valid.
  intros Hie Ho Hve [Ha Hh Hx] Eo Hr. destruct (vat_next _ _ _ Hie Hve) as (v' & Hs & Hn). rewrite Eo in Ha.
  destruct (instr_end _ _ _ _ _ _ _ Hs Ho) as (c & cs & Hc & _ & _ & K & _). rewrite Hc in Ha. inversion Ha; subst.
  rewrite (K Hr Hh). lia.
Qed.

(** ** The deepest stack *)

Lemma instr_max i v v' : instr i v = (Ok tt, v') -> (v_max v <= v_max v')%nat.
Proof.
  intros Hs. destruct (instr_kind _ _ _ Hs) as [[W _]|[Ho|[[[n L] _]|[Ho|Ho]]]].
  - apply W.
  - destruct (instr_open _ _ _ _ _ _ _ Hs Ho) as (v1 & c & W & -> & _). apply W.
  - apply L.
  - by destruct (instr_else _ _ _ _ _ _ _ Hs Ho) as (? & ? & ? & _ & _ & _ & ? & _).
  - by destruct (instr_end _ _ _ _ _ _ _ Hs Ho) as (? & ? & _ & _ & ? & _).
Qed.

Lemma vat_max n k v : (k + n = length ops)%nat -> vat k v -> (v_max v <= depth)%nat.
Proof using valid.
  revert k v. induction n as [|n IH]; intros k v Hk Hv.
  - destruct vat_end as (w & Hw & _ & _ & <-). replace (length ops) with k in Hw by lia. by rewrite (vat_det _ _ _ Hv Hw).
  - destruct (lookup_lt_is_Some_2 ops k ltac:(lia)) as [i Hi]. destruct (vat_next _ _ _ Hi Hv) as (v' & Hs & Hn).
    pose proof (instr_max _ _ _ Hs). pose proof (IH (S k) v' ltac:(lia) Hn). lia.
Qed.

Lemma vat_running k v : vat k v -> v_ended v = false -> (k <= length ops)%nat -> (k < length ops)%nat.
Proof using valid.
  intros Hv He Hk. destruct (decide (k = length ops)) as [->|]; [|lia]. destruct vat_end as (w & Hw & Hw' & _).
  rewrite (vat_det _ _ _ Hv Hw) in He. congruence.
Qed.

Lemma stack_depth k v : vat k v -> v_ended v = false -> (k <= length ops)%nat -> (length (v_stack v) <= depth)%nat.
Proof using valid.
  intros Hv He Hk. pose proof (wf_max _ _ (vat_wf _ _ Hv He Hk)). pose proof (vat_max (length ops - k) k v ltac:(lia) Hv). lia.
Qed.
End walk.

Lemma opens_length ops k : (k <= length ops)%nat -> (length (opens ops k) <= k)%nat.
Proof.
  induction k as [|k IH]; intros Hk; [done|]. destruct (lookup_lt_is_Some_2 ops k ltac:(lia)) as [i Hi].
  rewrite (opens_S _ _ _ Hi). specialize (IH ltac:(lia)). unfold opens_step.
  destruct (i_op i); cbn [length]; try lia; destruct (opens ops k); cbn [tail length] in *; lia.
Qed.
