(* ===== verification/WasmLower.v ===== *)
(** * WasmLower: the lowered form of a body ([decode_body])

    The instructions it gives are within the ranges the interpreter switches
    on, and the program counters it writes into the openers are those of the
    [else] and [end] that belong to them. *)

From S2P Require Import Prelude WasmNum WasmDecode WasmWalk.

(** ** Open blocks, again *)

Lemma opens_from_ops k l l' os : map i_op l = map i_op l' -> opens_from k l os = opens_from k l' os.
Proof.
  revert k l' os. induction l as [|i l IH]; intros k [|i' l'] os E; try done. cbn [map] in E. injection E as E1 E2.
  cbn [opens_from]. unfold opens_step. rewrite E1. by apply IH.
Qed.
Lemma opens_ops ops ops' k : map i_op ops = map i_op ops' -> opens ops k = opens ops' k.
Proof. intros E. unfold opens. apply opens_from_ops. by rewrite <- !firstn_map, E. Qed.

Lemma opens_app ops i k : (k <= length ops)%nat -> opens (ops ++ [i]) k = opens ops k.
Proof. intros. unfold opens. by rewrite take_app_le. Qed.

(** The newest block is last; all lie before the current instruction. *)
Definition decreasing (k : nat) (os : list nat) : Prop := NoDup os /\ Forall (fun o => o < k)%nat os.

Lemma opens_decreasing ops k : (k <= length ops)%nat -> decreasing k (opens ops k).
Proof.
  induction k as [|k IH]; intros Hk; [rewrite opens_0; split; constructor|].
  destruct (lookup_lt_is_Some_2 ops k ltac:(lia)) as [i Hi]. rewrite (opens_S _ _ _ Hi). destruct (IH ltac:(lia)) as [Hn Hf].
  assert (decreasing (S k) (opens ops k)) as Hsame by (split; [done|eapply Forall_impl; [done|cbn; lia]]).
  assert (decreasing (S k) (k :: opens ops k)) as Hopen.
  { split; [|constructor; [lia|apply Hsame]]. constructor; [|done]. intros Hin. rewrite Forall_forall in Hf. specialize (Hf _ Hin). lia. }
  assert (decreasing (S k) (tail (opens ops k))) as Hclose.
  { destruct Hsame as [Hs1 Hs2]. destruct (opens ops k); [done|]. inversion Hs1; inversion Hs2; subst. by split. }
  unfold opens_step. by destruct (i_op i).
Qed.

(** A closed block stays closed. *)
Lemma opens_closed ops o j n : (j + n <= length ops)%nat -> (o < j)%nat -> o ∉ opens ops j -> o ∉ opens ops (j + n).
Proof.
  intros Hn Hj Ho. induction n as [|n IH]; [by rewrite Nat.add_0_r|]. specialize (IH ltac:(lia)).
  destruct (lookup_lt_is_Some_2 ops (j + n) ltac:(lia)) as [i Hi].
  replace (j + S n)%nat with (S (j + n)) by lia. rewrite (opens_S _ _ _ Hi).
  assert (o ∉ (j + n)%nat :: opens ops (j + n)) as Hopen by (apply not_elem_of_cons; split; [lia|done]).
  assert (o ∉ tail (opens ops (j + n))) as Hclose.
  { destruct (opens ops (j + n)); [done|]. by apply not_elem_of_cons in IH as [_ IH]. }
  unfold opens_step. by destruct (i_op i).
Qed.

Lemma closed_not_open ops e i o os :
  ops !! e = Some i -> i_op i = Op.End -> opens ops e = o :: os -> o ∉ opens ops (length ops).
Proof.
  intros Hi Ho Eo. pose proof (lookup_lt_Some _ _ _ Hi). destruct (opens_decreasing ops e ltac:(lia)) as [Hn Hf].
  rewrite Eo in Hn, Hf. inversion Hn; inversion Hf; subst.
  replace (length ops) with (S e + (length ops - S e))%nat by lia. apply opens_closed; [lia|lia|].
  rewrite (opens_S _ _ _ Hi), Eo. unfold opens_step. by rewrite Ho.
Qed.

Lemma opens_lt ops k o : (k <= length ops)%nat -> o ∈ opens ops k -> (o < k)%nat.
Proof. intros Hk Ho. destruct (opens_decreasing ops k Hk) as [_ Hf]. rewrite Forall_forall in Hf. auto. Qed.

(** ** The program counters of an opener *)

Lemma end_pc_set_end pc i : 0 <= pc -> i_end_pc (set_end_pc pc i) = pc.
Proof.
  intros. unfold i_end_pc, set_end_pc, i_else_pc, u32. cbn [i_union]. rewrite Z.shiftl_mul_pow2, Z.shiftr_div_pow2 by lia.
  pose proof (Z.mod_pos_bound (i_union i) (2 ^ 32) ltac:(lia)). rewrite Z.div_add_l by lia. rewrite Z.div_small by lia. lia.
Qed.
Lemma else_pc_set_end pc i : 0 <= pc -> i_else_pc (set_end_pc pc i) = i_else_pc i.
Proof.
  intros. unfold set_end_pc, i_else_pc, u32. cbn [i_union]. rewrite Z.shiftl_mul_pow2 by lia.
  rewrite Z.add_comm, Z_mod_plus_full. by rewrite Zmod_mod.
Qed.
Lemma else_pc_set_else pc i : 0 <= pc < 2 ^ 32 -> i_else_pc (set_else_pc pc i) = pc.
Proof.
  intros. unfold set_else_pc, i_else_pc, u32. cbn [i_union]. rewrite Z.shiftl_mul_pow2 by lia.
  rewrite Z.add_comm, Z_mod_plus_full. by apply Z.mod_small.
Qed.
Lemma end_pc_set_else pc i : 0 <= pc < 2 ^ 32 -> i_end_pc (set_else_pc pc i) = i_end_pc i.
Proof.
  intros. unfold i_end_pc at 1, set_else_pc. cbn [i_union]. rewrite Z.shiftl_mul_pow2, Z.shiftr_div_pow2 by lia.
  rewrite Z.div_add_l by lia. rewrite (Z.div_small pc) by lia. lia.
Qed.

(** Each [end] and [else] is the one its opener names, and an opener that
    names an [else] has one. *)
Definition ends_match (ops : list Instruction) : Prop :=
  forall e ie o os io, ops !! e = Some ie -> i_op ie = Op.End -> opens ops e = o :: os -> ops !! o = Some io ->
  i_end_pc io = Z.of_nat e.
Definition elses_match (ops : list Instruction) : Prop :=
  forall e ie o os io, ops !! e = Some ie -> i_op ie = Op.Else -> opens ops e = o :: os -> ops !! o = Some io ->
  i_else_pc io = Z.of_nat e.
Definition elses_there (ops : list Instruction) : Prop :=
  forall o io, ops !! o = Some io -> is_opener (i_op io) = true -> i_else_pc io <> kNoPc ->
  exists e ie os, ops !! e = Some ie /\ i_op ie = Op.Else /\ opens ops e = o :: os /\ i_else_pc io = Z.of_nat e.

(** The index of a call is 32 bits, a table's targets start in the array, and the opcodes the validator does not
    look at are those the interpreter knows. *)
Definition decoded (i : Instruction) : Prop :=
  match i_op i with
  | Op.Call => 0 <= i_operand i < 2 ^ 32
  | Op.BrTable => 0 <= i_operand i
  | Op.F32Unary => within 0x8b 0x91 (i_immediate i) = true
  | Op.F32Binary => within 0x92 0x98 (i_immediate i) = true
  | Op.F64Unary => within 0x99 0x9f (i_immediate i) = true
  | Op.F64Binary => within 0xa0 0xa6 (i_immediate i) = true
  | _ => True
  end.

Record lowered (ops : list Instruction) : Prop := mkLowered {
  lw_end : ends_match ops;
  lw_else : elses_match ops;
  lw_there : elses_there ops;
  lw_decoded : Forall decoded ops;
  lw_count : zlen ops <= kMaxInstructions
}.

(** ** Adding an instruction *)

Lemma lookup_snoc_inv {A} (l : list A) x k y :
  (l ++ [x]) !! k = Some y -> l !! k = Some y \/ (k = length l /\ y = x).
Proof.
  intros H. apply lookup_app_Some in H as [H|[Hk H]]; [by left|]. right.
  destruct (k - length l)%nat as [|n] eqn:E; cbn in H; [|done]. injection H as <-. split; [lia|done].
Qed.

(** The entry of an opener below the end. *)
Lemma opener_snoc ops i e o os io :
  (e <= length ops)%nat -> opens (ops ++ [i]) e = o :: os -> (ops ++ [i]) !! o = Some io ->
  opens ops e = o :: os /\ ops !! o = Some io.
Proof.
  intros He Eo Hio. rewrite opens_app in Eo by lia. split; [done|].
  assert (o < e)%nat by (apply (opens_lt ops); [done|rewrite Eo; left]). by rewrite lookup_app_l in Hio by lia.
Qed.

Lemma ends_snoc ops i :
  ends_match ops ->
  (i_op i = Op.End -> forall o os io, opens ops (length ops) = o :: os -> ops !! o = Some io -> i_end_pc io = zlen ops) ->
  ends_match (ops ++ [i]).
Proof.
  intros H Hi e ie o os io He Ho Eo Hio. destruct (lookup_snoc_inv _ _ _ _ He) as [He'|[-> ->]].
  - pose proof (lookup_lt_Some _ _ _ He'). destruct (opener_snoc ops i e o os io ltac:(lia) Eo Hio). by eapply H.
  - destruct (opener_snoc ops i (length ops) o os io ltac:(lia) Eo Hio). by eapply Hi.
Qed.
Lemma elses_snoc ops i :
  elses_match ops ->
  (i_op i = Op.Else -> forall o os io, opens ops (length ops) = o :: os -> ops !! o = Some io -> i_else_pc io = zlen ops) ->
  elses_match (ops ++ [i]).
Proof.
  intros H Hi e ie o os io He Ho Eo Hio. destruct (lookup_snoc_inv _ _ _ _ He) as [He'|[-> ->]].
  - pose proof (lookup_lt_Some _ _ _ He'). destruct (opener_snoc ops i e o os io ltac:(lia) Eo Hio). by eapply H.
  - destruct (opener_snoc ops i (length ops) o os io ltac:(lia) Eo Hio). by eapply Hi.
Qed.
(** The opener [o] may name the new instruction. *)
Definition there_but (ops : list Instruction) (x : option nat) : Prop :=
  forall o io, ops !! o = Some io -> is_opener (i_op io) = true -> i_else_pc io <> kNoPc -> x <> Some o ->
  exists e ie os, ops !! e = Some ie /\ i_op ie = Op.Else /\ opens ops e = o :: os /\ i_else_pc io = Z.of_nat e.
Lemma there_snoc ops i x :
  there_but ops x -> (is_opener (i_op i) = true -> i_else_pc i = kNoPc) ->
  (forall o, x = Some o -> i_op i = Op.Else /\ exists os, opens ops (length ops) = o :: os
     /\ forall io, ops !! o = Some io -> i_else_pc io = zlen ops) ->
  elses_there (ops ++ [i]).
Proof.
  intros H Hi Hx o io Ho Hop Hne. destruct (lookup_snoc_inv _ _ _ _ Ho) as [Ho'|[-> ->]]; [|by destruct Hne; auto].
  destruct (decide (x = Some o)) as [->|Hxo].
  - destruct (Hx o eq_refl) as (E & os & Eo & K). exists (length ops), i, os. rewrite opens_app by lia.
    split_and!; try done; [|by apply K]. rewrite lookup_app_r by lia. by rewrite Nat.sub_diag.
  - destruct (H _ _ Ho' Hop Hne Hxo) as (e & ie & os & He & E & Eo & K). pose proof (lookup_lt_Some _ _ _ He).
    exists e, ie, os. rewrite opens_app by lia. split_and!; try done. by rewrite lookup_app_l.
Qed.

(** ** Patching an opener *)

Lemma map_op_alter f (o : nat) (ops : list Instruction) : (forall i, i_op (f i) = i_op i) -> map i_op (alter f o ops) = map i_op ops.
Proof.
  intros Hf. apply list_eq. intros k. rewrite !list_lookup_fmap.
  destruct (decide (k = o)) as [->|Hk]; [rewrite list_lookup_alter_eq|by rewrite list_lookup_alter_ne].
  destruct (ops !! o); cbn; [|done]. by rewrite Hf.
Qed.

Lemma lookup_alter_inv {A} (f : A -> A) (l : list A) o k x :
  alter f o l !! k = Some x -> exists y, l !! k = Some y /\ ((k = o /\ x = f y) \/ (k <> o /\ x = y)).
Proof.
  destruct (decide (k = o)) as [->|Hk]; [rewrite list_lookup_alter_eq|rewrite list_lookup_alter_ne by done].
  - destruct (l !! o); [|done]. injection 1 as <-. eauto.
  - eauto 6.
Qed.

(** [ops'] has the operations of [ops], and [end_pc] or [else_pc] may differ
    at [o]. *)
Lemma patched_lookup (ops : list Instruction) f (o k : nat) i' :
  (forall i, i_op (f i) = i_op i) -> alter f o ops !! k = Some i' ->
  exists i, ops !! k = Some i /\ i_op i' = i_op i /\ (k <> o -> i' = i) /\ (k = o -> i' = f i).
Proof.
  intros Hf H. destruct (lookup_alter_inv _ _ _ _ _ H) as (i & Hi & [[-> ->]|[Hk ->]]); exists i.
  - split_and!; done.
  - split_and!; done.
Qed.

Lemma opens_alter ops f (o : nat) k : (forall i, i_op (f i) = i_op i) -> opens (alter f o ops) k = opens ops k.
Proof. intros. by apply opens_ops, map_op_alter. Qed.

Lemma opens_opener ops k o : (k <= length ops)%nat -> o ∈ opens ops k -> exists io, ops !! o = Some io /\ is_opener (i_op io) = true.
Proof.
  induction k as [|k IH]; intros Hk Ho; [by apply not_elem_of_nil in Ho|].
  destruct (lookup_lt_is_Some_2 ops k ltac:(lia)) as [i Hi]. rewrite (opens_S _ _ _ Hi) in Ho. specialize (IH ltac:(lia)).
  assert (o ∈ tail (opens ops k) -> o ∈ opens ops k) as Htl by (destruct (opens ops k); [done|by right]).
  assert (o ∈ k :: opens ops k -> is_opener (i_op i) = true -> exists io, ops !! o = Some io /\ is_opener (i_op io) = true).
  { intros Hin Hop. apply elem_of_cons in Hin as [->|Hin]; eauto. }
  unfold opens_step in Ho. destruct (i_op i); auto.
Qed.

Section patch.
Variables (ops : list Instruction) (o : nat) (n : Z).
Hypothesis (Hopen : o ∈ opens ops (length ops)) (Hn : n = zlen ops) (Hlen : zlen ops < kMaxInstructions).

Lemma decoded_patch f :
  (forall i, i_op (f i) = i_op i) -> Forall decoded ops -> Forall decoded (alter f o ops).
Proof using Hopen.
  intros Hf H. apply Forall_lookup. intros k i' Hi'.
  destruct (patched_lookup _ _ _ _ _ Hf Hi') as (i & Hi & Eo & Hne & Heq). rewrite Forall_lookup in H. specialize (H _ _ Hi).
  destruct (decide (k = o)) as [->|Hk]; [|by rewrite (Hne Hk)].
  destruct (opens_opener ops _ _ (le_n _) Hopen) as (io & Hio & Hop). assert (io = i) as -> by congruence.
  unfold decoded in *. rewrite Eo. by destruct (i_op i).
Qed.

Lemma ends_patch_end : ends_match ops -> ends_match (alter (set_end_pc n) o ops).
Proof using Hopen.
  intros H e ie o' os io He Ho Eo Hio. rewrite opens_alter in Eo by done.
  destruct (patched_lookup ops (set_end_pc n) o _ _ ltac:(done) He) as (i & Hi & Ei & _). rewrite Ei in Ho.
  destruct (patched_lookup ops (set_end_pc n) o _ _ ltac:(done) Hio) as (i1 & Hi1 & _ & Hne & _).
  pose proof (closed_not_open _ _ _ _ _ Hi Ho Eo). rewrite Hne by (intros ->; done). by eapply H.
Qed.

(** A patch that keeps [end_pc]. *)
Lemma ends_patch f :
  (forall i, i_op (f i) = i_op i) -> (forall i, i_end_pc (f i) = i_end_pc i) ->
  ends_match ops -> ends_match (alter f o ops).
Proof.
  intros Hf Hg H e ie o' os io He Ho Eo Hio. rewrite opens_alter in Eo by done.
  destruct (patched_lookup _ _ _ _ _ Hf He) as (i & Hi & Ei & _). rewrite Ei in Ho.
  destruct (patched_lookup _ _ _ _ _ Hf Hio) as (i1 & Hi1 & _ & Hne & Heq).
  replace (i_end_pc io) with (i_end_pc i1); [by eapply H|].
  destruct (decide (o' = o)) as [->|Hk]; [by rewrite (Heq eq_refl), Hg|by rewrite (Hne Hk)].
Qed.

(** A patch that keeps [else_pc]. *)
Lemma elses_patch f :
  (forall i, i_op (f i) = i_op i) -> (forall i, i_else_pc (f i) = i_else_pc i) ->
  elses_match ops -> elses_match (alter f o ops).
Proof.
  intros Hf Hg H e ie o' os io He Ho Eo Hio. rewrite opens_alter in Eo by done.
  destruct (patched_lookup _ _ _ _ _ Hf He) as (i & Hi & Ei & _). rewrite Ei in Ho.
  destruct (patched_lookup _ _ _ _ _ Hf Hio) as (i1 & Hi1 & _ & Hne & Heq).
  replace (i_else_pc io) with (i_else_pc i1); [by eapply H|].
  destruct (decide (o' = o)) as [->|Hk]; [by rewrite (Heq eq_refl), Hg|by rewrite (Hne Hk)].
Qed.
Lemma there_patch f :
  (forall i, i_op (f i) = i_op i) ->
  elses_there ops -> there_but (alter f o ops) (Some o).
Proof.
  intros Hf H o' io Hio Hop Hne Hx. destruct (patched_lookup _ _ _ _ _ Hf Hio) as (i1 & Hi1 & E1 & Hsame & _).
  rewrite (Hsame ltac:(congruence)) in *. destruct (H _ _ Hi1 ltac:(congruence) Hne) as (e & ie & os & He & E & Eo & K).
  destruct (lookup_lt_is_Some_2 (alter f o ops) e) as [ie' He'].
  { rewrite length_alter. by eapply lookup_lt_Some. }
  destruct (patched_lookup _ _ _ _ _ Hf He') as (i2 & Hi2 & E2 & _).
  exists e, ie', os. rewrite opens_alter by done. split_and!; try done. congruence.
Qed.
Lemma there_patch_end : elses_there ops -> elses_there (alter (set_end_pc n) o ops).
Proof using Hn.
  intros H o' io Hio Hop Hne. destruct (patched_lookup ops (set_end_pc n) o _ _ ltac:(done) Hio) as (i1 & Hi1 & E1 & Hsame & Heq).
  assert (i_else_pc io = i_else_pc i1) as Ep.
  { destruct (decide (o' = o)) as [->|Hk]; [|by rewrite (Hsame Hk)]. rewrite (Heq eq_refl). apply else_pc_set_end.
    rewrite Hn. apply zlen_nonneg. }
  rewrite Ep in *. destruct (H _ _ Hi1 ltac:(congruence) Hne) as (e & ie & os & He & E & Eo & K).
  destruct (lookup_lt_is_Some_2 (alter (set_end_pc n) o ops) e) as [ie' He'].
  { rewrite length_alter. by eapply lookup_lt_Some. }
  destruct (patched_lookup ops (set_end_pc n) o _ _ ltac:(done) He') as (i2 & Hi2 & E2 & _).
  exists e, ie', os. rewrite opens_alter by done. split_and!; try done. congruence.
Qed.
End patch.

(** ** One instruction *)

Definition is_plain (op : Op.t) : bool :=
  match op with Op.Block | Op.Loop | Op.If | Op.Else | Op.End => false | _ => true end.

Lemma opens_step_plain k i os : is_plain (i_op i) = true -> opens_step k i os = os.
Proof. unfold opens_step. by destruct (i_op i). Qed.

Lemma uleb32_loop_range n shift result s x s' :
  uleb32_loop n shift result s = Some (x, s') -> 0 <= x < 2 ^ 32.
Proof.
  revert shift result s. induction n as [|n IH]; intros shift result [|c s] H; try discriminate. cbn [uleb32_loop] in H.
  case_match; [discriminate|]. case_match; [|by eapply IH]. injection H as <- _. unfold u32. apply Z.mod_pos_bound. lia.
Qed.
Lemma need_uleb32 st s x s' : need st uleb32 s = (Ok x, s') -> 0 <= x < 2 ^ 32.
Proof.
  unfold need. destruct (uleb32 s) as [[y t]|] eqn:E; [|discriminate]. injection 1 as <- _. by eapply uleb32_loop_range.
Qed.

Lemma simple_op_plain opcode op :
  simple_op opcode = Some op -> is_plain op = true /\ decoded (blank op).
Proof.
  unfold simple_op. intros H. repeat (case_match; try discriminate H); injection H as <-; split; try done; cbn; done.
Qed.
Lemma opcode_op_plain opcode op :
  opcode_op opcode = Some op -> is_plain op = true /\ decoded (with_immediate opcode (blank op)).
Proof.
  unfold opcode_op. intros H. repeat (case_match; try discriminate H); injection H as <-; split; try done; cbn; done.
Qed.

Lemma one_operand_plain op s r s' :
  one_operand op s = (Ok r, s') -> is_plain op = true ->
  match op with Op.BrTable | Op.F32Unary | Op.F32Binary | Op.F64Unary | Op.F64Binary => False | _ => True end ->
  is_plain (i_op r.1) = true /\ decoded r.1.
Proof.
  unfold one_operand. intros H Hp Hm. minv H. apply need_uleb32 in Hm0. injection H as <- _. split; [done|].
  unfold decoded. cbn. by destruct op.
Qed.

Lemma check_inv st b s x s' : check st b s = (Ok x, s') -> b = true /\ s' = s.
Proof. unfold check. destruct b; [|discriminate]. injection 1 as _ <-. done. Qed.

Lemma memory_op_plain opcode n m w sg :
  is_plain (memory_op opcode) = true /\ decoded (with_operand2 m (mkI all_ones n (memory_op opcode) None w sg)).
Proof. unfold memory_op. repeat case_match; split; try done; cbn; done. Qed.

Lemma decode_plain_inv opcode n s r s' :
  0 <= n -> decode_plain opcode n s = (Ok r, s') -> is_plain (i_op r.1) = true /\ decoded r.1.
Proof.
  intros Hn. unfold decode_plain. destruct (simple_op opcode) as [op|] eqn:E1.
  { injection 1 as <- _. by eapply simple_op_plain. }
  destruct (opcode_op opcode) as [op|] eqn:E2.
  { injection 1 as <- _. by eapply opcode_op_plain. }
  intros H. minv H;
    try (eapply one_operand_plain; [exact H|done|done]);
    repeat match goal with K : need _ uleb32 _ = (Ok _, _) |- _ => apply need_uleb32 in K end;
    try (injection H as <- _; split; done).
  - unfold decode_br_table in H. minv H. injection H as <- _. done.
  - unfold decode_memory_op in H. minv H. destruct (memory_shape opcode) as [w1 sg]. injection H as <- _.
    apply memory_op_plain.
  - injection H as <- _. by destruct (opcode =? 63).
  - unfold decode_prefixed in H. minv H; by injection H as <- _.
Qed.

(** ** The loop *)

Definition flags (ops : list Instruction) (controls : list OpenControl) : Prop :=
  Forall (fun c => oc_has_else c = false -> forall io, ops !! oc_opening c = Some io -> i_else_pc io = kNoPc) controls.

Record building (ops : list Instruction) (controls : list OpenControl) : Prop := mkBuilding {
  bl_lowered : lowered ops;
  bl_open : map oc_opening controls = opens ops (length ops);
  bl_flag : flags ops controls
}.

Lemma opens_snoc ops i : opens (ops ++ [i]) (S (length ops)) = opens_step (length ops) i (opens ops (length ops)).
Proof. rewrite (opens_S _ _ i), opens_app; [done|lia|]. by rewrite lookup_app_r, Nat.sub_diag. Qed.

(** The openings lie in the list. *)
Lemma openings_lt ops controls c :
  map oc_opening controls = opens ops (length ops) -> c ∈ controls -> (oc_opening c < length ops)%nat.
Proof. intros Hmap Hc. apply (opens_lt ops); [lia|]. rewrite <- Hmap. by apply list_elem_of_fmap_2. Qed.

Lemma flag_snoc ops i controls :
  (forall c, c ∈ controls -> oc_opening c < length ops)%nat -> flags ops controls -> flags (ops ++ [i]) controls.
Proof.
  unfold flags. intros Hlt H. rewrite Forall_forall in *. intros c Hc Hf io Hio. apply (H c Hc Hf).
  by rewrite lookup_app_l in Hio by by apply Hlt.
Qed.

Lemma count_snoc (ops : list Instruction) i : zlen ops < kMaxInstructions -> zlen (ops ++ [i]) <= kMaxInstructions.
Proof. intros. rewrite zlen_app, zlen_cons, zlen_nil. lia. Qed.

Lemma building_plain ops controls i :
  building ops controls -> zlen ops < kMaxInstructions -> is_plain (i_op i) = true -> decoded i -> building (ops ++ [i]) controls.
Proof.
  intros [[H1 H2 H3 H4 H5] Ho Hf] Hlen Hp Hd. split; [split| |].
  - apply ends_snoc; [done|]. intros E. by rewrite E in Hp.
  - apply elses_snoc; [done|]. intros E. by rewrite E in Hp.
  - apply (there_snoc _ _ None); [|intros E; by destruct (i_op i)|done]. intros o io ? ? ? _. by eapply H3.
  - apply Forall_app; by split; [|apply Forall_singleton].
  - by apply count_snoc.
  - rewrite length_app, Nat.add_1_r, opens_snoc, opens_step_plain by done. done.
  - apply flag_snoc; [|done]. intros. by eapply openings_lt.
Qed.

Lemma building_open ops controls opcode bt :
  building ops controls -> zlen ops < kMaxInstructions ->
  building (ops ++ [mkI all_ones 0 (block_op opcode) bt 0 false]) (mkOpen (length ops) opcode false :: controls).
Proof.
  intros [[H1 H2 H3 H4 H5] Ho Hf] Hlen. set (i := mkI _ _ _ _ _ _).
  assert (is_opener (i_op i) = true) as Hop by (cbn; unfold block_op; by repeat case_match).
  assert (forall k os, opens_step k i os = k :: os) as Hstep by (intros; unfold opens_step; by destruct (i_op i)).
  split; [split| |].
  - apply ends_snoc; [done|]. intros E. by rewrite E in Hop.
  - apply elses_snoc; [done|]. intros E. by rewrite E in Hop.
  - apply (there_snoc _ _ None); [|done|done]. intros o io ? ? ? _. by eapply H3.
  - apply Forall_app; split; [done|apply Forall_singleton]. unfold decoded. by destruct (i_op i).
  - by apply count_snoc.
  - cbn [map oc_opening]. rewrite Ho, length_app, Nat.add_1_r, opens_snoc, Hstep. done.
  - constructor; [|apply flag_snoc; [intros; by eapply openings_lt|done]]. cbn [oc_opening]. intros _ io. rewrite lookup_app_r, Nat.sub_diag by lia. by injection 1 as <-.
Qed.

Lemma lowered_end ops o os :
  lowered ops -> opens ops (length ops) = o :: os -> zlen ops < kMaxInstructions ->
  lowered (alter (set_end_pc (zlen ops)) o ops ++ [blank Op.End]).
Proof.
  intros [H1 H2 H3 H4 H5] Eo Hlen. assert (o ∈ opens ops (length ops)) as Hin by (rewrite Eo; left).
  split.
  - apply ends_snoc; [by apply ends_patch_end|]. intros _ o' os' io. rewrite length_alter, opens_alter, Eo by done.
    injection 1 as <- _. intros Hio. destruct (patched_lookup ops (set_end_pc (zlen ops)) o _ _ ltac:(done) Hio) as (i & _ & _ & _ & Heq).
    rewrite (Heq eq_refl), end_pc_set_end by apply zlen_nonneg. unfold zlen. by rewrite length_alter.
  - apply elses_snoc; [|done]. apply elses_patch; [done| |done]. intros. apply else_pc_set_end, zlen_nonneg.
  - apply (there_snoc _ _ None); [|done|done]. intros o' io ? ? ? _. by eapply (there_patch_end ops o (zlen ops)).
  - apply Forall_app; split; [by apply decoded_patch|by apply Forall_singleton].
  - rewrite zlen_app, zlen_cons, zlen_nil. unfold zlen in *. rewrite length_alter. lia.
Qed.

Lemma building_end ops c cs :
  building ops (c :: cs) -> zlen ops < kMaxInstructions ->
  building (alter (set_end_pc (zlen ops)) (oc_opening c) ops ++ [blank Op.End]) cs.
Proof.
  intros [HL Ho Hf] Hlen. cbn [map] in Ho. symmetry in Ho. split; [by eapply lowered_end| |].
  - rewrite length_app, Nat.add_1_r, opens_snoc, length_alter, opens_alter, Ho by done. done.
  - inversion Hf as [|? ? _ Hcs]; subst. apply flag_snoc.
    + intros c' Hc'. rewrite length_alter. eapply (openings_lt ops (c :: cs)); [by rewrite Ho|by right].
    + unfold flags in *. rewrite Forall_forall in *. intros c' Hc' Hfl io Hio.
      destruct (patched_lookup ops (set_end_pc (zlen ops)) _ _ _ ltac:(done) Hio) as (i & Hi & _ & Hne & Heq).
      rewrite <- (Hcs _ Hc' Hfl _ Hi). destruct (decide (oc_opening c' = oc_opening c)) as [E|E]; [|by rewrite Hne].
      rewrite Heq by done. apply else_pc_set_end, zlen_nonneg.
Qed.

Lemma lowered_else ops o os :
  lowered ops -> opens ops (length ops) = o :: os -> zlen ops < kMaxInstructions ->
  (forall io, ops !! o = Some io -> i_else_pc io = kNoPc) ->
  lowered (alter (set_else_pc (zlen ops)) o ops ++ [blank Op.Else]).
Proof.
  intros [H1 H2 H3 H4 H5] Eo Hlen Hno. assert (o ∈ opens ops (length ops)) as Hin by (rewrite Eo; left).
  assert (0 <= zlen ops < 2 ^ 32) as Hr by (pose proof (zlen_nonneg ops); unfold kMaxInstructions in Hlen; lia).
  assert (zlen (alter (set_else_pc (zlen ops)) o ops) = zlen ops) as Hz by (unfold zlen; by rewrite length_alter).
  assert (forall io, alter (set_else_pc (zlen ops)) o ops !! o = Some io -> i_else_pc io = zlen ops) as Hset.
  { intros io Hio. destruct (patched_lookup ops (set_else_pc (zlen ops)) o _ _ ltac:(done) Hio) as (i & _ & _ & _ & Heq).
    rewrite (Heq eq_refl). by apply else_pc_set_else. }
  split.
  - apply ends_snoc; [|done]. apply ends_patch; [done| |done]. intros. by apply end_pc_set_else.
  - apply elses_snoc.
    + intros e ie o' os' io He Ho Eo' Hio. rewrite opens_alter in Eo' by done.
      destruct (patched_lookup ops (set_else_pc (zlen ops)) o _ _ ltac:(done) He) as (i & Hi & Ei & _). rewrite Ei in Ho.
      destruct (patched_lookup ops (set_else_pc (zlen ops)) o _ _ ltac:(done) Hio) as (i1 & Hi1 & _ & Hne & _).
      pose proof (lookup_lt_Some _ _ _ Hi). pose proof (H2 _ _ _ _ _ Hi Ho Eo' Hi1) as K.
      rewrite Hne; [done|]. intros ->. rewrite (Hno _ Hi1) in K. unfold kNoPc, kMaxInstructions, zlen in *. lia.
    + intros _ o' os' io. rewrite length_alter, opens_alter, Eo, Hz by done. injection 1 as <- _. apply Hset.
  - apply (there_snoc _ _ (Some o)); [by apply there_patch|done|]. intros o' E. injection E as <-. split; [done|].
    exists os. rewrite length_alter, opens_alter, Eo, Hz by done. done.
  - apply Forall_app; split; [by apply decoded_patch|by apply Forall_singleton].
  - rewrite zlen_app, zlen_cons, zlen_nil, Hz. lia.
Qed.

Lemma building_else ops c cs :
  building ops (c :: cs) -> zlen ops < kMaxInstructions -> oc_has_else c = false ->
  building (alter (set_else_pc (zlen ops)) (oc_opening c) ops ++ [blank Op.Else]) (mkOpen (oc_opening c) (oc_opcode c) true :: cs).
Proof.
  intros [HL Ho Hf] Hlen Hno. cbn [map] in Ho. symmetry in Ho. inversion Hf as [|? ? Hc Hcs]; subst. split.
  - by eapply lowered_else; auto.
  - rewrite length_app, Nat.add_1_r, opens_snoc, length_alter, opens_alter, Ho by done. done.
  - constructor; [done|]. apply flag_snoc.
    + intros c' Hc'. rewrite length_alter. eapply (openings_lt ops (c :: cs)); [by rewrite Ho|by right].
    + unfold flags in *. rewrite Forall_forall in *. intros c' Hc' Hfl io Hio.
      destruct (patched_lookup ops (set_else_pc (zlen ops)) _ _ _ ltac:(done) Hio) as (i & Hi & _ & Hne & Heq).
      rewrite Hne; [by eapply Hcs|]. intros E. destruct (opens_decreasing ops (length ops) (le_n _)) as [Hnd _].
      rewrite Ho in Hnd. inversion Hnd as [|? ? Hnotin _]; subst. apply Hnotin. rewrite <- E. by apply list_elem_of_fmap_2.
Qed.

Lemma building_start : building [] [].
Proof.
  split; [|done|by constructor]. split; [| | |by constructor|done].
  - intros e ie o os io He. discriminate He.
  - intros e ie o os io He. discriminate He.
  - intros o io He. discriminate He.
Qed.

Lemma lowered_last ops : building ops [] -> zlen ops < kMaxInstructions -> lowered (ops ++ [blank Op.End]).
Proof.
  intros [[H1 H2 H3 H4 H5] Ho Hf] Hlen. cbn [map] in Ho. split.
  - apply ends_snoc; [done|]. intros _ o os io. by rewrite <- Ho.
  - by apply elses_snoc.
  - apply (there_snoc _ _ None); [|done|done]. intros o io ? ? ? _. by eapply H3.
  - apply Forall_app; split; [done|by apply Forall_singleton].
  - by apply count_snoc.
Qed.

Lemma body_loop_lowered fuel ops controls targets s r s' :
  building ops controls -> body_loop fuel ops controls targets s = (Ok r, s') -> lowered r.1.
Proof.
  revert ops controls targets s. induction fuel as [|fuel IH]; intros ops controls targets s HB H; [discriminate|].
  cbn [body_loop] in H. minv1 H. destruct s as [|b s]; [discriminate|]. minv1 H. apply check_inv in Hm as [Hlen ->].
  apply Z.ltb_lt in Hlen. minv1 H. minv1 H; [|minv1 H; [|minv1 H]].
  - minv H. by eapply IH; [|exact H]; apply building_open.
  - destruct controls as [|c cs]; [discriminate|]. minv1 H. apply check_inv in Hm0 as [Hc ->].
    apply andb_true_iff in Hc as [_ Hc]. apply negb_true_iff in Hc. by eapply IH; [|exact H]; apply building_else.
  - destruct controls as [|c cs]; [|by eapply IH; [|exact H]; apply building_end].
    minv1 H. destruct w; [|discriminate]. injection H as <- _. by apply lowered_last.
  - minv1 H. apply decode_plain_inv in Hm0 as [Hp Hd]; [|apply zlen_nonneg]. by eapply IH; [|exact H]; apply building_plain.
Qed.

(** What the interpreter may rely on of a body's lowered form. *)
Lemma lower_lowered code locals ops targets : lower code = Ok (locals, ops, targets) -> lowered ops.
Proof.
  unfold lower. destruct (decode_body code) as [o s'] eqn:H. cbn. intros ->. unfold decode_body in H. minv H.
  injection H as <- E _ _. rewrite <- E. by eapply body_loop_lowered; [apply building_start|].
Qed.
