(* ===== verification/WasmPlain.v ===== *)
(** * WasmPlain: the instructions that only compute

    Where the validator counted their operands, the instructions without
    control find them on the stack, read and write only what is in use, and
    leave the operands the validator counted or trap. *)

From S2P Require Import Prelude WasmNum WasmDecode WasmModule WasmRun.
From S2P Require Import WasmWalk WasmLower.

(** ** Plain instructions in the interpreter *)

(** What the validator checked of an instruction's operand. *)
Definition checked (m : ModuleData) (ty : FuncType) (locals : list ValueType.t) (i : Instruction) : Prop :=
  match i_op i with
  | Op.F32Cmp => within 0x5b 0x60 (i_immediate i) = true
  | Op.F64Cmp => within 0x61 0x66 (i_immediate i) = true
  | Op.FloatConvert => float_convert_type (i_immediate i) <> None
  | Op.SignExtend => sign_extend_type (i_immediate i) <> None
  | Op.LocalGet | Op.LocalSet | Op.LocalTee => 0 <= i_operand i < zlen (params ty) + zlen locals
  | Op.GlobalGet => exists g, at_ (m_globals m) (i_operand i) = Some g
  | Op.GlobalSet => exists g, at_ (m_globals m) (i_operand i) = Some g /\ g_mutable g = true
  | _ => True
  end.

Lemma at_Some {A} (l : list A) n x : at_ l n = Some x -> 0 <= n < zlen l.
Proof.
  unfold at_. destruct (n <? 0) eqn:E; [done|]. intros H. apply lookup_lt_Some in H. unfold zlen. lia.
Qed.
Lemma at_lt {A} (l : list A) n : 0 <= n < zlen l -> exists x, at_ l n = Some x.
Proof.
  intros H. unfold at_, zlen in *. rewrite (proj2 (Z.ltb_ge n 0)) by lia. apply lookup_lt_is_Some_2. lia.
Qed.

Lemma local_type_range ty locals idx t :
  local_type ty locals idx = Some t -> 0 <= idx < zlen (params ty) + zlen locals.
Proof.
  unfold local_type. destruct (at_ (params ty ++ locals) idx) eqn:E; [|done]. intros _. apply at_Some in E.
  by rewrite zlen_app in E.
Qed.

Lemma instr_checked m ty locals bb i v v' :
  validate_instruction m ty locals bb i v = (Ok tt, v') -> checked m ty locals i.
Proof.
  intros H. pose proof (instr_running _ _ _ _ _ _ _ H) as He. unfold validate_instruction in H. minv1 H. rewrite He in H.
  unfold checked. destruct (i_op i); try done;
    try (apply in_range_inv in H as [? _]; done);
    try (intros E; by rewrite E in H);
    try (minv1 H; apply local_or_fail_inv in Hm as [_ Hm]; by eapply local_type_range);
    minv1 H; apply global_or_fail_inv in Hm as (_ & g & ? & ?); eauto.
Qed.

Lemma float_convert_good imm x `{NaNs} : float_convert_type imm <> None -> float_convert (imm mod 256) x <> Bad.
Proof.
  unfold float_convert_type. intros H0 K. destruct (float_convert_type imm) eqn:E; unfold float_convert_type in E;
    [|by rewrite E in H0]. repeat (case_match; try discriminate E); subst;
    revert K; unfold float_convert; cbn -[promote f64_from_bits f32_from_bits of_Z f32_to_bits f64_to_bits truncated];
    unfold truncated; repeat case_match; discriminate.
Qed.

Lemma of_option_good o : is_Some o -> of_option o <> Bad.
Proof. by intros [x ->]. Qed.

(** Every opcode in a range the interpreter switches on. *)
Lemma within_cases lo hi x (P : Z -> Prop) :
  within lo hi x = true -> Forall P (seqZ lo (hi - lo + 1)) -> P x.
Proof.
  unfold within. intros H HF. apply andb_true_iff in H as [H1 H2]. rewrite Forall_forall in HF. apply HF.
  apply elem_of_seqZ. lia.
Qed.

Ltac each_opcode :=
  match goal with |- Forall ?P ?l => let l' := eval vm_compute in l in change (Forall P l') end;
  repeat (apply Forall_cons; split; [eexists; reflexivity|]); by apply Forall_nil.

Lemma f32_unary_good `{NaNs} imm x : within 0x8b 0x91 imm = true -> is_Some (f32_unary imm x).
Proof. intros K. apply (within_cases _ _ _ (fun imm => is_Some (f32_unary imm x)) K). each_opcode. Qed.
Lemma f64_unary_good `{NaNs} imm x : within 0x99 0x9f imm = true -> is_Some (f64_unary imm x).
Proof. intros K. apply (within_cases _ _ _ (fun imm => is_Some (f64_unary imm x)) K). each_opcode. Qed.
Lemma f32_binary_good `{NaNs} imm x y : within 0x92 0x98 imm = true -> is_Some (f32_binary imm x y).
Proof. intros K. apply (within_cases _ _ _ (fun imm => is_Some (f32_binary imm x y)) K). each_opcode. Qed.
Lemma f64_binary_good `{NaNs} imm x y : within 0xa0 0xa6 imm = true -> is_Some (f64_binary imm x y).
Proof. intros K. apply (within_cases _ _ _ (fun imm => is_Some (f64_binary imm x y)) K). each_opcode. Qed.
Lemma compare_f32_good imm x y : within 0x5b 0x60 imm = true -> is_Some (compare_f32 imm x y).
Proof. intros K. apply (within_cases _ _ _ (fun imm => is_Some (compare_f32 imm x y)) K). each_opcode. Qed.
Lemma compare_f64_good imm x y : within 0x61 0x66 imm = true -> is_Some (compare_f64 imm x y).
Proof. intros K. apply (within_cases _ _ _ (fun imm => is_Some (compare_f64 imm x y)) K). each_opcode. Qed.
Lemma sign_extend_good imm x : sign_extend_type imm <> None -> is_Some (sign_extend imm x).
Proof. unfold sign_extend_type, sign_extend. intros K. repeat case_match; first [by eauto | by destruct K]. Qed.

Lemma unary_good `{NaNs} m ty locals i x :
  checked m ty locals i -> decoded i -> arity (i_op i) = Some (1, 1)%nat ->
  match i_op i with Op.LocalTee | Op.MemoryGrow | Op.I32Load | Op.I64Load | Op.F32Load | Op.F64Load => False | _ => True end ->
  unary_value i x <> Bad.
Proof.
  unfold checked, decoded, unary_value. intros Hc Hd Ha Hx. destruct (i_op i); try discriminate Ha; try done;
    try (by apply float_convert_good); apply of_option_good;
    [by apply f32_unary_good | by apply f64_unary_good | by apply sign_extend_good].
Qed.
Lemma binary_good `{NaNs} m ty locals i x y :
  checked m ty locals i -> decoded i -> arity (i_op i) = Some (2, 1)%nat -> binary_value i x y <> Bad.
Proof.
  unfold checked, decoded, binary_value. intros Hc Hd Ha. destruct (i_op i); try discriminate Ha; try done;
    try (unfold divide; by case_match); apply of_option_good;
    [by apply compare_f32_good | by apply compare_f64_good | by apply f32_binary_good | by apply f64_binary_good].
Qed.

Section run.
Context {T : Type} `{!Host T} `{!NaNs}.
Implicit Types r : R T.

(** A step that leaves everything but the operands, the contents of globals
    and memory, the host and the flags other than [running]. *)
Record quiet (r r' : R T) : Prop := mkQuiet {
  q_module : r_module r' = r_module r;
  q_config : r_config r' = r_config r;
  q_frames : r_frames r' = r_frames r;
  q_labels : r_labels r' = r_labels r;
  q_imports : r_imports r' = r_imports r;
  q_capacity : r_capacity r' = r_capacity r;
  q_table : r_table r' = r_table r;
  q_globals : length (r_globals r') = length (r_globals r);
  q_running : running (r_flags r') = running (r_flags r)
}.

Lemma quiet_trans r r1 r2 : quiet r r1 -> quiet r1 r2 -> quiet r r2.
Proof. intros [] []. split; congruence. Qed.
Lemma quiet_values l r : quiet r (with_values l r).
Proof. by split. Qed.

(** It ends with [n] operands, or in a trap. *)
Definition ends_in (n : nat) (r : R T) (x : outcome RunStatus.t unit * R T) : Prop :=
  match x with
  | (Ok _, r') => quiet r r' /\ length (r_values r') = n
  | (Err RunStatus.Trapped, _) => True
  | _ => False
  end.

Lemma ends_in_quiet n r r1 x : quiet r r1 -> ends_in n r1 x -> ends_in n r x.
Proof. intros Hq. destruct x as [[]]; cbn; [|done..]. intros [H1 H2]. split; [by eapply quiet_trans|done]. Qed.

Lemma pop_ok r x l : r_values r = x :: l -> pop_value r = (Ok x, with_values l r).
Proof. intros E. unfold pop_value. rewrite bind_getS, E. done. Qed.
Lemma push_ok n x r :
  length (r_values r) = n -> Z.of_nat (S n) <= max_values (r_config r) -> ends_in (S n) r (push_value x r).
Proof.
  intros <- Hm. unfold push_value. rewrite bind_getS. rewrite (proj2 (Z.leb_gt _ _)) by (unfold zlen; lia). by split.
Qed.

Lemma trap_ends n st r : ends_in n r (trap st r).
Proof. done. Qed.

(** Popping one operand of a stack that has it. *)
Lemma pop_bind n (k : Z -> M (R T) RunStatus.t unit) r :
  (0 < length (r_values r))%nat ->
  (forall x r1, quiet r r1 -> length (r_values r1) = (length (r_values r) - 1)%nat -> ends_in n r1 (k x r1)) ->
  ends_in n r ((x ← pop_value; k x) r).
Proof.
  intros Hl Hk. destruct (r_values r) as [|x l] eqn:E; [cbn in Hl; lia|]. rewrite (bind_ok _ _ _ _ _ (pop_ok r x l E)).
  eapply ends_in_quiet; [apply quiet_values|]. apply Hk; [apply quiet_values|]. cbn. lia.
Qed.

Lemma num_ends n v r :
  v <> Bad -> length (r_values r) = n -> Z.of_nat (S n) <= max_values (r_config r) -> ends_in (S n) r (num v r).
Proof. intros Hv Hn Hm. destruct v; [by apply push_ok|done|done]. Qed.

Definition room (n : nat) (r : R T) : Prop := Z.of_nat n <= max_values (r_config r).
Lemma room_quiet n r r1 : quiet r r1 -> room n r -> room n r1.
Proof. unfold room. intros Hq. by rewrite (q_config _ _ Hq). Qed.

(** Pushing back what was counted. *)
Lemma push_ends n x r : S (length (r_values r)) = n -> room n r -> ends_in n r (push_value x r).
Proof. intros <- K. by apply push_ok. Qed.

Lemma run_select_ends n r :
  (3 <= length (r_values r))%nat -> n = (length (r_values r) - 2)%nat -> room n r -> ends_in n r (run_select r).
Proof.
  intros Hl -> Hm. unfold run_select.
  apply pop_bind; [lia|]. intros x r1 Q1 L1. apply pop_bind; [lia|]. intros y r2 Q2 L2. apply pop_bind; [lia|]. intros z r3 Q3 L3.
  apply push_ends; [lia|]. by repeat (eapply room_quiet; [done|]).
Qed.

Lemma run_load_ends i n r :
  (1 <= length (r_values r))%nat -> n = length (r_values r) -> room n r -> ends_in n r (run_load i r).
Proof.
  intros Hl -> Hm. unfold run_load. apply pop_bind; [lia|]. intros x r1 Q1 L1. rewrite bind_getS.
  case_match; [|done]. apply push_ends; [lia|]. by eapply room_quiet.
Qed.
Lemma run_store_ends i n r :
  (2 <= length (r_values r))%nat -> n = (length (r_values r) - 2)%nat -> ends_in n r (run_store i r).
Proof.
  intros Hl ->. unfold run_store. apply pop_bind; [lia|]. intros x r1 Q1 L1. apply pop_bind; [lia|]. intros y r2 Q2 L2.
  rewrite bind_getS. case_match; [|done]. cbn. split; [by split|lia].
Qed.
Lemma run_copy_ends n r :
  (3 <= length (r_values r))%nat -> n = (length (r_values r) - 3)%nat -> ends_in n r (run_memory_copy r).
Proof.
  intros Hl ->. unfold run_memory_copy. apply pop_bind; [lia|]. intros x r1 Q1 L1. apply pop_bind; [lia|]. intros y r2 Q2 L2.
  apply pop_bind; [lia|]. intros z r3 Q3 L3. rewrite bind_getS. case_match; [done|]. cbn. split; [by split|lia].
Qed.
Lemma run_fill_ends n r :
  (3 <= length (r_values r))%nat -> n = (length (r_values r) - 3)%nat -> ends_in n r (run_memory_fill r).
Proof.
  intros Hl ->. unfold run_memory_fill. apply pop_bind; [lia|]. intros x r1 Q1 L1. apply pop_bind; [lia|]. intros y r2 Q2 L2.
  apply pop_bind; [lia|]. intros z r3 Q3 L3. rewrite bind_getS. case_match; [done|]. cbn. split; [by split|lia].
Qed.
Lemma run_grow_ends n r :
  (1 <= length (r_values r))%nat -> n = length (r_values r) -> room n r -> ends_in n r (run_memory_grow r).
Proof.
  intros Hl -> Hm. unfold run_memory_grow. apply pop_bind; [lia|]. intros x r1 Q1 L1. rewrite bind_getS.
  destruct (grow_memory _ _ _ _) as [[old mem] t]. rewrite (bind_ok _ _ _ tt (with_world t (with_memory mem r1))) by done.
  eapply ends_in_quiet; [|apply push_ends; [cbn; lia|exact (room_quiet _ _ _ Q1 Hm)]]. by split.
Qed.

Lemma slot_ok r n : 0 <= n < zlen (r_values r) -> exists k x, slot r n = Some k /\ r_values r !! k = Some x.
Proof.
  intros Hn. unfold slot. rewrite (proj2 (Z.leb_le 0 n)), (proj2 (Z.ltb_lt n (zlen (r_values r)))) by lia. cbn [andb].
  eexists. destruct (lookup_lt_is_Some_2 (r_values r) (Z.to_nat (zlen (r_values r) - 1 - n))) as [x Hx]; [unfold zlen in *; lia|].
  eauto.
Qed.

Lemma write_slot_ends n x m r :
  0 <= n < zlen (r_values r) -> m = length (r_values r) -> ends_in m r (write_slot n x r).
Proof.
  intros Hn ->. unfold write_slot. rewrite bind_getS. destruct (slot_ok r n Hn) as (k & y & -> & _). cbn.
  by rewrite length_insert.
Qed.

(** The locals of a frame lie below its operands. *)
Definition has_locals (ty : FuncType) (locals : list ValueType.t) (f : Frame) : Prop :=
  0 <= locals_base f /\ values_base f = locals_base f + zlen (params ty) + zlen locals.

Lemma run_local_get_ends ty b i f n r :
  function_type (r_module r) (function_index f) = Some ty -> has_locals ty (b_local_types b) f ->
  0 <= i_operand i < zlen (params ty) + zlen (b_local_types b) -> values_base f <= zlen (r_values r) ->
  n = S (length (r_values r)) -> room n r -> ends_in n r (run_local_get i f b r).
Proof.
  intros Ht [H1 H2] Hi Hv -> Hm. unfold run_local_get, local_count. rewrite bind_getS, Ht.
  rewrite (proj2 (Z.leb_gt _ _)) by lia. unfold read_slot.
  destruct (slot_ok r (locals_base f + i_operand i)) as (k & x & E1 & E2); [lia|].
  erewrite bind_ok; [by apply push_ends|]. rewrite bind_getS, E1. cbn [mbind option_bind]. by rewrite E2.
Qed.

Lemma run_global_get_ends i n r :
  0 <= i_operand i < zlen (r_globals r) -> n = S (length (r_values r)) -> room n r -> ends_in n r (run_global_get i r).
Proof.
  intros Hi -> Hm. unfold run_global_get. rewrite bind_getS. destruct (at_lt _ _ Hi) as [x ->]. by apply push_ends.
Qed.
Lemma run_global_set_ends i n r g :
  zlen (r_globals r) = zlen (m_globals (r_module r)) -> at_ (m_globals (r_module r)) (i_operand i) = Some g ->
  g_mutable g = true -> (1 <= length (r_values r))%nat -> n = (length (r_values r) - 1)%nat ->
  ends_in n r (run_global_set i r).
Proof.
  intros Hl Hg Hmut Hv ->. unfold run_global_set. rewrite bind_getS, Hg, Hmut. pose proof (at_Some _ _ _ Hg).
  rewrite (proj2 (Z.leb_gt _ _)) by lia. cbn [negb]. apply pop_bind; [lia|]. intros x r1 Q1 L1. cbn.
  split; [|done]. split; try done. cbn. by rewrite length_insert.
Qed.

(** The state in which an instruction of a frame runs. *)
Record fits (ty : FuncType) (b : FunctionBody) (f : Frame) (r : R T) : Prop := mkFits {
  fits_type : function_type (r_module r) (function_index f) = Some ty;
  fits_locals : has_locals ty (b_local_types b) f;
  fits_globals : zlen (r_globals r) = zlen (m_globals (r_module r))
}.

Lemma run_unary_ends m ty locals i n r :
  checked m ty locals i -> decoded i -> arity (i_op i) = Some (1, 1)%nat ->
  match i_op i with Op.LocalTee | Op.MemoryGrow | Op.I32Load | Op.I64Load | Op.F32Load | Op.F64Load => False | _ => True end ->
  (1 <= length (r_values r))%nat -> n = length (r_values r) -> room n r -> ends_in n r (run_unary i r).
Proof.
  intros Hc Hd Ha Hx Hl -> Hm. unfold run_unary. apply pop_bind; [lia|]. intros x r1 Q1 L1.
  replace (length (r_values r)) with (S (length (r_values r1))) by lia.
  apply num_ends; [by eapply unary_good|done|]. rewrite (q_config _ _ Q1). unfold room in Hm. lia.
Qed.
Lemma run_binary_ends m ty locals i n r :
  checked m ty locals i -> decoded i -> arity (i_op i) = Some (2, 1)%nat ->
  (2 <= length (r_values r))%nat -> n = (length (r_values r) - 1)%nat -> room n r -> ends_in n r (run_binary i r).
Proof.
  intros Hc Hd Ha Hl -> Hm. unfold run_binary. apply pop_bind; [lia|]. intros x r1 Q1 L1. apply pop_bind; [lia|]. intros y r2 Q2 L2.
  replace (length (r_values r) - 1)%nat with (S (length (r_values r2))) by lia.
  apply num_ends; [by eapply binary_good|done|]. rewrite (q_config _ _ Q2), (q_config _ _ Q1). unfold room in Hm. lia.
Qed.

Lemma plain_ends ty b f i a c n r :
  fits ty b f r -> checked (r_module r) ty (b_local_types b) i -> decoded i -> arity (i_op i) = Some (a, c) ->
  values_base f + Z.of_nat a <= zlen (r_values r) -> (n + a = length (r_values r) + c)%nat -> room n r ->
  ends_in n r (execute i f b r).
Proof.
  intros [F1 F2 F3] Hc Hd Ha Hl Hn Hm. pose proof F2 as [G1 G2]. pose proof (zlen_nonneg (params ty)).
  pose proof (zlen_nonneg (b_local_types b)). assert (a <= length (r_values r))%nat as Ha' by (unfold zlen in *; lia).
  unfold execute. destruct (i_op i) eqn:Eo; cbn [arity] in Ha; try discriminate Ha; injection Ha as <- <-;
    try (eapply run_unary_ends; [done|done|by rewrite Eo|by rewrite Eo|lia|lia|done]);
    try (eapply run_binary_ends; [done|done|by rewrite Eo|lia|lia|done]);
    try (apply push_ends; [lia|done]); try (apply run_load_ends; [lia|lia|done]); try (apply run_store_ends; lia);
    try (unfold checked in Hc; rewrite Eo in Hc).
  - cbn. split; [by split|lia].
  - apply pop_bind; [lia|]. intros x r1 Q1 L1. cbn. split; [by split|lia].
  - apply run_select_ends; [lia|lia|done].
  - eapply run_local_get_ends; try done; lia.
  - apply pop_bind; [lia|]. intros x r1 Q1 L1. apply write_slot_ends; [unfold zlen in *; lia|lia].
  - rewrite bind_getS. destruct (r_values r) as [|x l] eqn:E; [cbn in Ha'; lia|]. rewrite <- E in *.
    apply write_slot_ends; [unfold zlen in *; lia|lia].
  - destruct Hc as [g Hg]. apply at_Some in Hg. apply run_global_get_ends; [lia|lia|done].
  - destruct Hc as (g & Hg & Hmut). eapply run_global_set_ends; [done|done|done|lia|lia].
  - apply run_grow_ends; [lia|lia|done].
  - apply run_copy_ends; lia.
  - apply run_fill_ends; lia.
Qed.
End run.
