(* ===== verification/WasmSafe.v ===== *)
(** * WasmSafe: validated code does not go wrong

    The interpreter against the validator: along a body it accepted, the
    operands, labels and frames the interpreter keeps are those the validator
    counted, so no array is read or written outside its part in use, and the
    only errors are the limits of the session and the failures of the host. *)

From S2P Require Import Prelude WasmNum WasmDecode WasmModule WasmRun.
From S2P Require Import WasmWalk WasmLower WasmPlain.

(** What the interpreter needs of the host: a function that completes has
    filled in its results, and none asks to be resumed. *)
Class HostOk (T : Type) `{!Host T} : Prop := {
  host_results : forall n mem c args k t,
    hr_status (h_invoke n mem c args k t).1 = RunStatus.Completed -> length (hr_results (h_invoke n mem c args k t).1) = k;
  host_yields : forall n mem c args k t, hr_status (h_invoke n mem c args k t).1 <> RunStatus.Yield
}.

(** ** Accepted modules *)

Record accepted (m : ModuleData) : Prop := mkAccepted {
  ac_imported : m_imported m = zlen (m_imports m);
  ac_imports : Forall (fun im => im_kind im = 0 /\ is_Some (at_ (m_types m) (im_type_index im))) (m_imports m);
  ac_count : zlen (m_function_types m) = zlen (m_bodies m);
  ac_body : forall n b, m_bodies m !! n = Some b -> exists ty locs ops targets depth,
    function_type m (m_imported m + Z.of_nat n) = Some ty /\ b_code b <> [] /\ lower (b_code b) = Ok (locs, ops, targets)
    /\ same_walk b locs ops targets = true /\ validate m ty (b_local_types b) (b_branch_base b) ops = Ok depth
    /\ b_max_stack b = Z.of_nat depth /\ b_instructions b = None /\ 0 <= b_branch_base b;
  ac_elements : Forall (fun e => Forall (fun f => 0 <= f < 2 ^ 32) (el_functions e)) (m_elements m)
}.

Lemma import_type_spec imports idx :
  Forall (fun im => im_kind im = 0) imports -> 0 <= idx ->
  import_type imports idx = match imports !! Z.to_nat idx with Some im => inr im | None => inl (idx - zlen imports) end.
Proof.
  intros HF. revert idx. induction HF as [|im l Hk HF IH]; intros idx Hi; cbn [import_type].
  - rewrite zlen_nil. f_equal. lia.
  - rewrite Hk. cbn [Z.eqb negb]. destruct (Z.eqb_spec idx 0) as [->|Hne]; [done|]. rewrite IH by lia.
    replace (Z.to_nat idx) with (S (Z.to_nat (idx - 1))) by lia. cbn [lookup list_lookup]. rewrite zlen_cons.
    destruct (l !! Z.to_nat (idx - 1)); [done|]. f_equal. lia.
Qed.

Lemma set_bodies_same m : set_bodies (m_branch_targets m) (m_bodies m) m = m.
Proof. by destruct m. Qed.

Section module.
Variable m0 : ModuleData.
Hypothesis ac : accepted m0.

Lemma imports_kind : Forall (fun im => im_kind im = 0) (m_imports m0).
Proof using ac. eapply Forall_impl; [apply (ac_imports _ ac)|]. by intros im [? _]. Qed.

Lemma type_of_import idx ty :
  0 <= idx < m_imported m0 -> function_type m0 idx = Some ty ->
  exists im, at_ (m_imports m0) idx = Some im /\ at_ (m_types m0) (im_type_index im) = Some ty.
Proof using ac.
  intros Hi Ht. rewrite (ac_imported _ ac) in Hi. unfold function_type in Ht. rewrite import_type_spec in Ht by (lia || apply imports_kind).
  unfold at_ at 1. rewrite (proj2 (Z.ltb_ge idx 0)) by lia.
  destruct (lookup_lt_is_Some_2 (m_imports m0) (Z.to_nat idx)) as [im Him]; [unfold zlen in *; lia|].
  rewrite Him in Ht |- *. eauto.
Qed.

Lemma type_of_body idx ty :
  m_imported m0 <= idx < 2 ^ 32 -> function_type m0 idx = Some ty ->
  exists b, m_bodies m0 !! Z.to_nat (idx - m_imported m0) = Some b.
Proof using ac.
  intros Hi Ht. rewrite (ac_imported _ ac) in *. pose proof (zlen_nonneg (m_imports m0)). unfold function_type in Ht.
  rewrite import_type_spec in Ht by (lia || apply imports_kind). rewrite lookup_ge_None_2 in Ht by (unfold zlen in *; lia).
  unfold u32 in Ht. rewrite Z.mod_small in Ht by lia. destruct (Z.leb_spec (zlen (m_bodies m0)) (idx - zlen (m_imports m0))).
  - by rewrite orb_true_r in Ht.
  - apply lookup_lt_is_Some_2. unfold zlen in *. lia.
Qed.

(** ** The module as bodies are lowered *)

Definition lowered_from (b b' : FunctionBody) : Prop :=
  b' = b \/ exists locs ops targets, lower (b_code b) = Ok (locs, ops, targets) /\ b' = set_instructions ops b.
Definition evolved (m : ModuleData) : Prop :=
  exists l, m = set_bodies (m_branch_targets m0) l m0 /\ Forall2 lowered_from (m_bodies m0) l.

Lemma evolved_start : evolved m0.
Proof.
  exists (m_bodies m0). split; [by rewrite set_bodies_same|]. apply Forall2_same_length_lookup_2; [done|]. intros n b b' H1 H2. left. congruence.
Qed.

Lemma evolved_type m idx : evolved m -> function_type m idx = function_type m0 idx.
Proof. intros (l & -> & HF). apply Forall2_length in HF. unfold function_type, zlen. cbn [set_bodies m_imports m_types m_function_types m_bodies]. by rewrite HF. Qed.

(** A body that has been lowered, and what is known of it. *)
Record code (m : ModuleData) (idx : Z) (ty : FuncType) (b : FunctionBody) (ops : list Instruction) (depth : nat) : Prop := mkCode {
  c_body : body_for m idx = Some b;
  c_ops : b_instructions b = Some ops;
  c_type : function_type m0 idx = Some ty;
  c_count : b_instruction_count b = zlen ops;
  c_valid : validate m0 ty (b_local_types b) (b_branch_base b) ops = Ok depth;
  c_depth : b_max_stack b = Z.of_nat depth;
  c_lowered : lowered ops;
  c_base : 0 <= b_branch_base b
}.

(** Bodies that run stay as they are. *)
Definition keeps (m m' : ModuleData) : Prop :=
  forall idx b, body_for m idx = Some b -> b_instructions b <> None -> body_for m' idx = Some b.
Lemma code_keeps m m' idx ty b ops depth : keeps m m' -> code m idx ty b ops depth -> code m' idx ty b ops depth.
Proof. intros K [H1 H2]. split; try done. apply K; [done|]. by rewrite H2. Qed.
Lemma keeps_refl m : keeps m m.
Proof. by intros idx b. Qed.

Lemma body_for_at m idx : m_imported m <= idx -> body_for m idx = m_bodies m !! Z.to_nat (idx - m_imported m).
Proof. intros. unfold body_for, at_. rewrite (proj2 (Z.ltb_ge _ _)), (proj2 (Z.ltb_ge _ 0)) by lia. done. Qed.

Lemma lowered_code m l idx b b' n locs ops targets ty depth :
  m = set_bodies (m_branch_targets m0) l m0 -> m_imported m0 <= idx -> n = Z.to_nat (idx - m_imported m0) ->
  m_bodies m0 !! n = Some b -> l !! n = Some b' -> b' = set_instructions ops b ->
  function_type m0 idx = Some ty -> lower (b_code b) = Ok (locs, ops, targets) ->
  validate m0 ty (b_local_types b) (b_branch_base b) ops = Ok depth -> b_max_stack b = Z.of_nat depth -> 0 <= b_branch_base b ->
  code m idx ty b' ops depth.
Proof.
  intros -> Hi -> Hb Hb' -> Hty Hlow Hval Hdepth Hbase. split; try done; [|by eapply lower_lowered].
  rewrite body_for_at; done.
Qed.

(** A call finds its body lowered, or lowers it. *)
Lemma lowers m idx ty :
  evolved m -> m_imported m0 <= idx < 2 ^ 32 -> function_type m0 idx = Some ty ->
  exists body m' b ops depth, body_for m idx = Some body
    /\ match b_instructions body with Some _ => (Status.Ok, m) | None => ensure_lowered m idx end = (Status.Ok, m')
    /\ evolved m' /\ code m' idx ty b ops depth /\ keeps m m'.
Proof using ac.
  intros (l & -> & HF) Hi Ht. destruct (type_of_body _ _ Hi Ht) as [b Hb]. set (n := Z.to_nat (idx - m_imported m0)) in *.
  destruct (ac_body _ ac _ _ Hb) as (ty' & locs & ops & targets & depth & Hty & Hne & Hlow & Hsame & Hval & Hd & Hnone & Hbase).
  replace (m_imported m0 + Z.of_nat n) with idx in Hty by lia. assert (ty' = ty) as -> by congruence.
  destruct (Forall2_lookup_l _ _ _ _ _ HF Hb) as (b' & Hb' & Hfrom).
  set (m := set_bodies (m_branch_targets m0) l m0). assert (body_for m idx = Some b') as Hbody by (rewrite body_for_at; [done|cbn; lia]).
  exists b'. destruct Hfrom as [->|(locs' & ops' & targets' & Hlow' & ->)].
  - rewrite Hnone. set (l' := alter (set_instructions ops) n l).
    exists (set_bodies (m_branch_targets m0) l' m0), (set_instructions ops b), ops, depth. split; [done|].
    assert (l' !! n = Some (set_instructions ops b)) as Hl' by (unfold l'; by rewrite list_lookup_alter_eq, Hb').
    split_and!.
    + unfold ensure_lowered. cbn [m set_bodies m_imported m_bodies m_branch_targets]. rewrite (proj2 (Z.ltb_ge idx _)) by lia.
      unfold at_. rewrite (proj2 (Z.ltb_ge _ 0)) by lia. fold n. rewrite Hb', Hnone, bool_decide_eq_false_2, Hlow, Hsame by done. done.
    + exists l'. split; [done|]. apply Forall2_same_length_lookup_2; [unfold l'; rewrite length_alter; by eapply Forall2_length|].
      intros k x y Hx Hy. destruct (lookup_alter_inv _ _ _ _ _ Hy) as (z & Hz & [[-> ->]|[_ ->]]).
      * right. assert (x = b) as -> by congruence. assert (z = b) as -> by congruence. eauto.
      * by eapply Forall2_lookup_lr.
    + eapply lowered_code; try done; lia.
    + intros idx2 b2 Hb2 Hi2. unfold body_for in *. cbn [m set_bodies m_imported m_bodies] in *. case_match; [done|].
      unfold at_ in *. case_match; [done|]. destruct (decide (Z.to_nat (idx2 - m_imported m0) = n)) as [E|E].
      * rewrite E, Hb' in Hb2. injection Hb2 as <-. done.
      * unfold l'. by rewrite list_lookup_alter_ne.
  - assert (ops' = ops) as -> by congruence. cbn [set_instructions b_instructions].
    exists m, (set_instructions ops b), ops, depth. split_and!; [done|done|by exists l| |apply keeps_refl].
    eapply lowered_code; try done; lia.
Qed.

(** ** The invariant *)

(** The bindings of the session and the number of results its caller takes. *)
Variables (imps : list (option Z)) (cap : Z).

Context {T : Type} `{!Host T} `{!NaNs} `{!HostOk T}.

Definition is_loop_op (op : Op.t) : bool := match op with Op.Loop => true | _ => false end.

Section frame.
Variables (ty : FuncType) (b : FunctionBody) (ops : list Instruction) (f : Frame).

Definition val (k : nat) (v : VCtx) : Prop := vat m0 ty (b_local_types b) (b_branch_base b) ops k v.

(** A label of the frame and the opener it belongs to. *)
Definition label_ok (l : Label) (o : nat) : Prop :=
  exists i v0, ops !! o = Some i /\ is_opener (i_op i) = true /\ val (S o) v0 /\ v_ended v0 = false
    /\ l_start_pc l = Z.of_nat (S o) /\ l_end_pc l = i_end_pc i /\ is_loop l = is_loop_op (i_op i)
    /\ value_height l = values_base f + Z.of_nat (length (v_stack v0)) /\ result_count l = Z.of_nat (block_count i).

(** The frame is about to run instruction [k], with [len] values in use. *)
Definition normal (labels : list Label) (len : Z) : Prop :=
  exists k v, f_pc f = Z.of_nat k /\ (k < length ops)%nat /\ val k v /\ v_ended v = false /\ reach v
    /\ Forall2 label_ok labels (opens ops k) /\ len = values_base f + Z.of_nat (length (v_stack v)).

(** It is at the [end] of a block whose results are on the stack; the
    validator's state before that [end] may be another one. *)
Definition closing (labels : list Label) (len : Z) : Prop :=
  exists k ie o os v', f_pc f = Z.of_nat k /\ ops !! k = Some ie /\ i_op ie = Op.End /\ opens ops k = o :: os
    /\ val (S k) v' /\ v_ended v' = false /\ reach v' /\ Forall2 label_ok labels (opens ops k)
    /\ len = values_base f + Z.of_nat (length (v_stack v')).

(** It has left its outermost block. *)
Definition returning (labels : list Label) (len : Z) : Prop :=
  zlen ops <= f_pc f /\ labels = [] /\ values_base f + zlen (results ty) <= len.
End frame.

Record frame_ok (m : ModuleData) (c : RuntimeConfig) (f : Frame) (ty : FuncType) (b : FunctionBody) (ops : list Instruction)
    (depth : nat) : Prop := mkFrameOk {
  fo_code : code m (function_index f) ty b ops depth;
  fo_locals : has_locals ty (b_local_types b) f;
  fo_room : values_base f + Z.of_nat depth <= max_values c
}.

(** The frames that wait for a call to return, which will leave [len] values. *)
Inductive callers (m : ModuleData) (c : RuntimeConfig) : list Frame -> list Label -> Z -> Prop :=
  | callers_nil len : len <= cap -> callers m c [] [] len
  | callers_cons f fs lf lr len ty b ops depth :
      frame_ok m c f ty b ops depth -> labels_base f = zlen lr -> normal ty b ops f lf len ->
      callers m c fs lr (locals_base f + zlen (results ty)) -> callers m c (f :: fs) (lf ++ lr) len.

(** The part that calls and returns do not touch. *)
Record steady (r : R T) : Prop := mkSteady {
  s_evolved : evolved (r_module r);
  s_labels : zlen (r_labels r) <= max_labels (r_config r);
  s_globals : zlen (r_globals r) = zlen (m_globals m0);
  s_imports : r_imports r = imps;
  s_capacity : r_capacity r = cap;
  s_table : Forall (fun x => 0 <= x < 2 ^ 32) (r_table r)
}.

Definition stack_ok (r : R T) : Prop :=
  exists f fs lf lr ty b ops depth, r_frames r = f :: fs /\ r_labels r = lf ++ lr /\ labels_base f = zlen lr
    /\ frame_ok (r_module r) (r_config r) f ty b ops depth
    /\ (normal ty b ops f lf (zlen (r_values r)) \/ closing ty b ops f lf (zlen (r_values r))
        \/ returning ty ops f lf (zlen (r_values r)))
    /\ callers (r_module r) (r_config r) fs lr (locals_base f + zlen (results ty)).

Definition inv (r : R T) : Prop := steady r /\ stack_ok r.

(** ** What an error means *)

Inductive limit (r r' : R T) : Prop :=
  | limit_labels : max_labels (r_config r) <= zlen (r_labels r) -> limit r r'
  | limit_call idx b :
      body_for (r_module r') idx = Some b ->
      (max_frames (r_config r) <= zlen (r_frames r)
       \/ max_values (r_config r) < zlen (r_values r) + zlen (b_local_types b) + b_max_stack b) -> limit r r'
  | limit_host idx : 0 <= idx < m_imported m0 -> error_import (r_flags r') = idx -> limit r r'.

Definition safe (r : R T) (x : outcome RunStatus.t unit * R T) : Prop :=
  match x with
  | (Ok _, r') | (Err RunStatus.Yield, r') => inv r'
  | (Err RunStatus.Error, r') => limit r r'
  | (Err _, _) => True
  | (Panic, _) => False
  end.

(** ** One instruction *)

Lemma steady_quiet r r' : quiet r r' -> steady r -> steady r'.
Proof.
  intros [Q1 Q2 Q3 Q4 Q5 Q6 Q7 Q8 Q9] [S1 S2 S3 S4 S6 S5]. split; rewrite ?Q1, ?Q2, ?Q4, ?Q5, ?Q6, ?Q7; try done. unfold zlen in *. lia.
Qed.

(** Returning to the caller. *)
Lemma bottom_app {A} (l1 l2 : list A) : bottom (length l2) (l1 ++ l2) = l2.
Proof. unfold bottom. rewrite length_app. rewrite drop_app_ge by lia. replace (_ - _ - _)%nat with 0%nat by lia. done. Qed.

Lemma leave_safe r f fs lf lr ty b ops depth :
  steady r -> r_frames r = f :: fs -> r_labels r = lf ++ lr -> labels_base f = zlen lr ->
  frame_ok (r_module r) (r_config r) f ty b ops depth -> values_base f + zlen (results ty) <= zlen (r_values r) ->
  callers (r_module r) (r_config r) fs lr (locals_base f + zlen (results ty)) -> safe r (leave_function r).
Proof.
  intros [S1 S2 S3 S4 S6 S5] Hf Hl Hb [C [L1 L2] _] Hv Hcs. pose proof (zlen_nonneg (params ty)). pose proof (zlen_nonneg (b_local_types b)).
  assert (bottom (Z.to_nat (labels_base f)) (r_labels r) = lr) as HE.
  { rewrite Hb, Hl. unfold zlen. by rewrite Nat2Z.id, bottom_app. }
  unfold leave_function, finish_function, return_from_function, mbind, M_bind, getS, putS, modifyS, mret, M_ret. rewrite Hf.
  rewrite evolved_type, (c_type _ _ _ _ _ _ C) by done. rewrite bool_decide_eq_false_2 by (unfold zlen in *; lia).
  rewrite (proj2 (Z.ltb_ge _ _)) by (unfold zlen in *; lia). destruct fs as [|f2 fs2].
  - inversion Hcs as [? Hcap|]; subst. cbn. rewrite (proj2 (Z.ltb_ge _ _)) by (unfold zlen in *; lia). cbn.
    by destruct (exit_requested (r_flags r)).
  - cbn -[bottom]. rewrite HE. clear HE. inversion Hcs as [|? ? lf2 lr2 len2 ty2 b2 ops2 d2 F2 B2 N2 C2]; subst.
    split; [split; try done; cbn; rewrite Hl, zlen_app in S2; pose proof (zlen_nonneg lf); lia|].
    exists f2, fs2, lf2, lr2, ty2, b2, ops2, d2. cbn. split_and!; try done. left.
    replace (zlen (take _ _ ++ _)) with (locals_base f + zlen (results ty)); [done|].
    rewrite zlen_app. unfold zlen. rewrite length_take, length_bottom. unfold zlen in *. lia.
Qed.

(** The end of a block. *)
Lemma close_safe r f fs lf lr ty b ops depth k ie o os v' :
  steady r -> r_frames r = f :: fs -> f_pc f = Z.of_nat (S k) -> r_labels r = lf ++ lr -> labels_base f = zlen lr ->
  frame_ok (r_module r) (r_config r) f ty b ops depth -> ops !! k = Some ie -> i_op ie = Op.End -> opens ops k = o :: os ->
  val ty b ops (S k) v' -> v_ended v' = false -> reach v' -> Forall2 (label_ok ty b ops f) lf (opens ops k) ->
  zlen (r_values r) = values_base f + Z.of_nat (length (v_stack v')) ->
  callers (r_module r) (r_config r) fs lr (locals_base f + zlen (results ty)) -> safe r (run_end f r).
Proof.
  intros [S1 S2 S3 S4 S6 S5] Hf Hpc Hl Hb FO Hi Hend Ho Hv He Hr HF Hlen Hcs. rewrite Ho in HF.
  inversion HF as [|l ? lf1 ? Hl1 HF1]; subst. unfold run_end. rewrite bind_getS, Hb, Hl. pose proof (zlen_nonneg lf1).
  rewrite (proj2 (Z.ltb_lt _ _)) by (rewrite zlen_app, zlen_cons; lia). cbn. pose proof (lookup_lt_Some _ _ _ Hi).
  split; [split; try done; cbn; rewrite Hl in S2; cbn in S2; rewrite zlen_cons in S2; lia|].
  exists f, fs, lf1, lr, ty, b, ops, depth. cbn. split_and!; try done. left. exists (S k), v'.
  assert (opens ops (S k) = os) as -> by (rewrite (opens_S _ _ _ Hi), Ho; unfold opens_step; by rewrite Hend).
  split_and!; try done. eapply vat_running; [apply (c_valid _ _ _ _ _ _ (fo_code _ _ _ _ _ _ _ FO))|done|done|lia].
Qed.

(** Entering a function: its frame, over [count] values. *)
Definition new_frame (idx : Z) (callee : FuncType) (b : FunctionBody) (count labels : Z) : Frame :=
  mkFrame idx 0 (count - zlen (params callee)) (count - zlen (params callee) + (zlen (params callee) + zlen (b_local_types b))) labels.
Definition enter_state (m : ModuleData) (idx : Z) (callee : FuncType) (b : FunctionBody) (r : R T) : R T :=
  with_values (replicate (length (b_local_types b)) 0 ++ r_values r)
    (with_frames (new_frame idx callee b (zlen (r_values r)) (zlen (r_labels r)) :: r_frames r) (with_module m r)).

Lemma enter_frame_spec r idx callee :
  evolved (r_module r) -> m_imported m0 <= idx < 2 ^ 32 -> function_type m0 idx = Some callee ->
  zlen (params callee) <= zlen (r_values r) -> zlen (r_labels r) <= max_labels (r_config r) ->
  exists m' b ops depth, evolved m' /\ keeps (r_module r) m' /\ code m' idx callee b ops depth /\
    ((enter_frame idx r = (Ok Status.TrapStackOverflow, with_module m' r)
      /\ (max_frames (r_config r) <= zlen (r_frames r)
          \/ max_values (r_config r) < zlen (r_values r) + zlen (b_local_types b) + b_max_stack b))
     \/ (enter_frame idx r = (Ok Status.Ok, enter_state m' idx callee b r)
         /\ zlen (r_values r) + zlen (b_local_types b) + Z.of_nat depth <= max_values (r_config r))).
Proof using ac.
  intros Hev Hi Hty Hargs Hlab.
  destruct (lowers _ _ _ Hev Hi Hty) as (body & m' & b & ops & d & Hbody & Hlow & Hev' & HC & Hk).
  exists m', b, ops, d. split_and!; try done. pose proof (c_body _ _ _ _ _ _ HC) as Hb.
  unfold enter_frame, function_body, mbind, M_bind, getS, putS, modifyS, mret, M_ret.
  rewrite evolved_type, Hty, Hbody, Hlow, Hb by done. rewrite bool_decide_eq_true_2 by done. cbn [negb].
  pose proof (c_ops _ _ _ _ _ _ HC) as Hops. pose proof (c_depth _ _ _ _ _ _ HC) as Hd. clear HC Hb.
  destruct b as [bti bl bic bin bms bbb bbc bco]. cbn [b_instructions b_max_stack b_local_types] in *. rewrite Hops, Hd.
  rewrite (proj2 (Z.ltb_ge (zlen (r_values r)) _)) by lia.
  destruct (Z.ltb_spec (max_values (r_config r) - (zlen (r_values r) - zlen (params callee))) (zlen (params callee) + zlen bl)) as [H1|H1];
    [left; split; [done|right; lia]|].
  destruct (Z.ltb_spec (max_values (r_config r) - (zlen (r_values r) - zlen (params callee) + (zlen (params callee) + zlen bl))) (Z.of_nat d)) as [H2|H2];
    [left; split; [done|right; lia]|].
  destruct (Z.leb_spec (max_frames (r_config r)) (zlen (r_frames r))) as [H3|H3]; [left; split; [done|by left]|].
  rewrite (proj2 (Z.ltb_ge _ _)) by done. right. split; [done|lia].
Qed.

Lemma enter_normal m' idx callee b ops depth c r :
  code m' idx callee b ops depth -> zlen (params callee) <= zlen (r_values r) ->
  zlen (r_values r) + zlen (b_local_types b) + Z.of_nat depth <= max_values c ->
  frame_ok m' c (new_frame idx callee b (zlen (r_values r)) (zlen (r_labels r))) callee b ops depth
  /\ normal callee b ops (new_frame idx callee b (zlen (r_values r)) (zlen (r_labels r))) [] (zlen (r_values (enter_state m' idx callee b r))).
Proof.
  intros HC Hargs Hmax. split.
  - split; [done| |cbn; lia]. split; cbn; lia.
  - destruct (vat_before _ _ _ _ _ _ (c_valid _ _ _ _ _ _ HC) (length ops) 0 ltac:(lia)) as [w Hw].
    destruct (vat_0 _ _ _ _ _ _ Hw) as (W1 & W2 & W3). exists 0%nat, w. rewrite opens_0, W1. cbn [length]. split_and!; try done.
    + eapply vat_running; [apply HC|done|done|lia].
    + cbn. rewrite zlen_app. unfold zlen at 1. rewrite length_replicate. unfold zlen. lia.
Qed.

(** The frame [f] has fetched instruction [k] of its body. *)
Record at_instr (r : R T) (f : Frame) (fs : list Frame) (lf lr : list Label) (ty : FuncType) (b : FunctionBody)
    (ops : list Instruction) (depth k : nat) (i : Instruction) (v : VCtx) : Prop := mkAt {
  ai_steady : steady r;
  ai_frames : r_frames r = f :: fs;
  ai_pc : f_pc f = Z.of_nat (S k);
  ai_labels : r_labels r = lf ++ lr;
  ai_base : labels_base f = zlen lr;
  ai_frame : frame_ok (r_module r) (r_config r) f ty b ops depth;
  ai_op : ops !! k = Some i;
  ai_val : val ty b ops k v;
  ai_ended : v_ended v = false;
  ai_reach : reach v;
  ai_match : Forall2 (label_ok ty b ops f) lf (opens ops k);
  ai_len : zlen (r_values r) = values_base f + Z.of_nat (length (v_stack v));
  ai_callers : callers (r_module r) (r_config r) fs lr (locals_base f + zlen (results ty))
}.

(** Every import is bound. *)
Definition all_bound : Prop := zlen imps = zlen (m_imports m0) /\ Forall (fun x => x <> None) imps.
Hypothesis bound : all_bound.

Section instr.
Variables (r : R T) (f : Frame) (fs : list Frame) (lf lr : list Label) (ty : FuncType) (b : FunctionBody).
Variables (ops : list Instruction) (depth k : nat) (i : Instruction) (v : VCtx).
Hypothesis A : at_instr r f fs lf lr ty b ops depth k i v.

Lemma a_steady : steady r.
Proof using A. apply A. Qed.
Lemma a_pc : f_pc f = Z.of_nat (S k).
Proof using A. apply A. Qed.
Lemma a_op : ops !! k = Some i.
Proof using A. apply A. Qed.
Lemma a_labels : r_labels r = lf ++ lr.
Proof using A. apply A. Qed.
Lemma a_len : zlen (r_values r) = values_base f + Z.of_nat (length (v_stack v)).
Proof using A. apply A. Qed.
Lemma a_reach : reach v.
Proof using A. apply A. Qed.
Lemma a_lowered : lowered ops.
Proof using A. apply A. Qed.
Lemma a_locals : has_locals ty (b_local_types b) f.
Proof using A. apply A. Qed.
Lemma a_room : values_base f + Z.of_nat depth <= max_values (r_config r).
Proof using A. apply A. Qed.
Lemma ai_valid : validate m0 ty (b_local_types b) (b_branch_base b) ops = Ok depth.
Proof using A. apply A. Qed.
Lemma ai_lt : (k < length ops)%nat.
Proof using A. eapply lookup_lt_Some, A. Qed.
Lemma ai_wf : wf m0 ty (b_local_types b) (b_branch_base b) ops k v.
Proof using A. pose proof ai_lt. apply vat_wf; [apply A|apply A|lia]. Qed.
Lemma ai_next : exists v', validate_instruction m0 ty (b_local_types b) (b_branch_base b) i v = (Ok tt, v') /\ val ty b ops (S k) v'.
Proof using A. eapply vat_next; [apply ai_valid|apply A|apply A]. Qed.

(** Where the next instruction is the following one. *)
Lemma go_on r' v' :
  quiet r r' -> val ty b ops (S k) v' -> v_ended v' = false -> reach v' -> opens ops (S k) = opens ops k ->
  zlen (r_values r') = values_base f + Z.of_nat (length (v_stack v')) -> inv r'.
Proof using A.
  intros Q Hv He Hr Ho Hl. pose proof ai_lt. split; [eapply steady_quiet, A; done|]. destruct A, Q as [Q1 Q2 Q3 Q4 _ _ _ _ _].
  exists f, fs, lf, lr, ty, b, ops, depth. rewrite Q3, Q4, Q1, Q2. split_and!; try done.
  left. exists (S k), v'. rewrite Ho. split_and!; try done. eapply vat_running; [apply ai_valid|done|done|lia].
Qed.

(** The room the validator's state leaves. *)
Lemma stack_room v' : val ty b ops (S k) v' -> v_ended v' = false ->
  values_base f + Z.of_nat (length (v_stack v')) <= max_values (r_config r).
Proof using A.
  intros Hv He. pose proof ai_lt. pose proof a_room.
  pose proof (stack_depth _ _ _ _ _ _ ai_valid (S k) v' Hv He ltac:(lia)). lia.
Qed.

Lemma weak_next v' : weak v v' -> v_ended v' = false /\ reach v'.
Proof using A.
  intros W. split; [rewrite (weak_ended _ _ W); apply A|]. eapply reach_controls; [apply W|apply A].
Qed.

Lemma plain_safe a c : arity (i_op i) = Some (a, c) -> safe r (execute i f b r).
Proof using A.
  intros Ha. destruct ai_next as (v' & Hs & Hn). pose proof (plain_effect _ _ _ _ _ _ _ _ _ Hs Ha) as [W K].
  destruct (weak_next _ W) as [He Hr].
  specialize (K a_reach (wf_height _ _ _ _ _ _ _ ai_wf)). destruct K as [_ Hen Hlen].
  pose proof (stack_room _ Hn He) as Hroom. pose proof A as [S1 S2 S3 S4 S5 [C1 C2 C3] S7 S8 S9 S10 S11 S12 S13].
  assert (opens ops (S k) = opens ops k) as Ho.
  { rewrite (opens_S _ _ _ S7). unfold opens_step. by destruct (i_op i). }
  assert (0 <= values_base f) by (destruct C2; pose proof (zlen_nonneg (params ty)); pose proof (zlen_nonneg (b_local_types b)); lia).
  assert (ends_in (length (r_values r) - a + c) r (execute i f b r)) as HE.
  { eapply plain_ends; [split| | | |..]; try done.
    - rewrite evolved_type by apply S1. apply C1.
    - rewrite (s_globals _ S1). destruct (s_evolved _ S1) as (l & -> & _). done.
    - apply instr_checked in Hs. destruct (s_evolved _ S1) as (l & -> & _). done.
    - eapply Forall_lookup_1; [apply (lw_decoded _ (c_lowered _ _ _ _ _ _ C1))|done].
    - lia.
    - unfold zlen in *. lia.
    - unfold room, zlen in *. lia. }
  destruct (execute i f b r) as [[[]|[]|] r']; try done. destruct HE as [Q Hl]. eapply go_on; try done. unfold zlen in *. lia.
Qed.

(** ** Blocks *)

Definition new_label (r1 : R T) : Label :=
  mkLabel (match i_op i with Op.Block => 0x02 | Op.Loop => 0x03 | _ => 0x04 end) (f_pc f) (i_else_pc i) (i_end_pc i)
    (zlen (r_values r1)) (match i_block i with Some _ => 1 | None => 0 end).

Lemma push_label_run r1 :
  quiet r r1 ->
  (max_labels (r_config r) <= zlen (r_labels r) /\ push_label i (f_pc f) r1 = (Err RunStatus.Error, r1))
  \/ (zlen (r_labels r) < max_labels (r_config r)
      /\ push_label i (f_pc f) r1 = (Ok tt, with_labels (new_label r1 :: r_labels r1) r1)).
Proof.
  intros Q. unfold push_label. rewrite bind_getS, (q_config _ _ Q), (q_labels _ _ Q).
  destruct (Z.leb_spec (max_labels (r_config r)) (zlen (r_labels r))); [left|right]; done.
Qed.

(** The state once a block is entered. *)
Lemma entered r1 v' :
  quiet r r1 -> zlen (r_labels r) < max_labels (r_config r) -> is_opener (i_op i) = true -> val ty b ops (S k) v' ->
  v_ended v' = false -> zlen (r_values r1) = values_base f + Z.of_nat (length (v_stack v')) ->
  steady (with_labels (new_label r1 :: r_labels r1) r1)
  /\ Forall2 (label_ok ty b ops f) (new_label r1 :: lf) (k :: opens ops k).
Proof using A.
  intros Q Hlab Ho Hv He Hl. split.
  - pose proof (steady_quiet _ _ Q a_steady) as [S1 S2 S3 S4 S6 S5].
    split; try done. cbn [with_labels r_labels r_config]. rewrite (q_labels _ _ Q), (q_config _ _ Q), zlen_cons. lia.
  - constructor; [|apply A]. exists i, v'. pose proof a_pc.
    pose proof a_op. unfold new_label, block_count. cbn. split_and!; try done.
    + unfold is_loop. cbn. by destruct (i_op i).
    + by destruct (i_block i).
Qed.

Lemma reach_parent : parent_unreachable (v_controls v) = false.
Proof using A. pose proof a_reach as Hr. unfold reach in Hr. by destruct (v_controls v). Qed.

Lemma opens_open : is_opener (i_op i) = true -> opens ops (S k) = k :: opens ops k.
Proof using A. intros Ho. rewrite (opens_S _ _ _ a_op). unfold opens_step. by destruct (i_op i). Qed.

(** Entering a block after [n] operands were taken. *)
Lemma enter_safe r1 v' :
  quiet r r1 -> is_opener (i_op i) = true -> val ty b ops (S k) v' -> v_ended v' = false -> reach v' ->
  zlen (r_values r1) = values_base f + Z.of_nat (length (v_stack v')) -> safe r (push_label i (f_pc f) r1).
Proof using A.
  intros Q Ho Hv He Hr Hl. pose proof ai_lt. destruct (push_label_run r1 Q) as [[Hmax ->]|[Hmax ->]]; [by apply limit_labels|].
  destruct (entered r1 v' Q Hmax Ho Hv He Hl) as [Hs Hm]. split; [done|]. destruct A, Q as [Q1 Q2 Q3 Q4 _ _ _ _ _].
  exists f, fs, (new_label r1 :: lf), lr, ty, b, ops, depth. cbn [with_labels r_frames r_labels r_module r_config r_values].
  rewrite Q3, Q4, Q1, Q2. split_and!; try done; [by rewrite ai_labels0|].
  left. exists (S k), v'. rewrite opens_open by done. split_and!; try done. eapply vat_running; [apply ai_valid|done|done|lia].
Qed.

Lemma open_next :
  is_opener (i_op i) = true ->
  exists v1 v' c, val ty b ops (S k) v' /\ v_ended v' = false /\ reach v' /\ v_controls v' = c :: v_controls v
    /\ length (v_stack v') = length (v_stack v1) /\ effect (if is_if (i_op i) then 1 else 0) 0 v v1.
Proof using A.
  intros Ho. destruct ai_next as (v' & Hs & Hn). destruct (instr_open _ _ _ _ _ _ _ Hs Ho) as (v1 & c & W & -> & Hc & K).
  eexists v1, _, c. split; [done|]. cbn [set_controls v_ended v_controls v_stack]. split_and!; try done.
  - rewrite (weak_ended _ _ W). apply A.
  - unfold reach. cbn. by rewrite (new_unreachable _ _ _ _ Hc), reach_parent.
  - apply K; [apply A|apply ai_wf].
Qed.

Lemma block_safe : is_opener (i_op i) = true -> is_if (i_op i) = false -> safe r (push_label i (f_pc f) r).
Proof using A.
  intros Ho Hif. destruct (open_next Ho) as (v1 & v' & c & Hv & He & Hr & _ & Hl & K). rewrite Hif in K. destruct K as [_ _ K].
  assert (quiet r r) as Q by by split. eapply enter_safe; try done. rewrite a_len, Hl. lia.
Qed.

(** Jumping within the frame. *)
Lemma land r2 lf' pc :
  steady r2 -> r_frames r2 = f :: fs -> r_labels r2 = lf' ++ lr -> r_module r2 = r_module r -> r_config r2 = r_config r ->
  (normal ty b ops (set_pc pc f) lf' (zlen (r_values r2)) \/ closing ty b ops (set_pc pc f) lf' (zlen (r_values r2))
   \/ returning ty ops (set_pc pc f) lf' (zlen (r_values r2))) -> inv (jump pc r2).
Proof using A.
  intros [S1 S2 S3 S4 S6 S5] Hf Hl Hm Hc HN. unfold jump. rewrite Hf. split; [by split|].
  exists (set_pc pc f), fs, lf', lr, ty, b, ops, depth. cbn [with_frames r_frames r_labels r_module r_config r_values].
  rewrite Hm, Hc. destruct A as [_ _ _ _ B1 [C1 C2 C3] _ _ _ _ _ _ B2]. split_and!; try done.
Qed.

Lemma end_bound e ie : ops !! e = Some ie -> Z.of_nat e + 1 < 2 ^ 32.
Proof using A.
  intros He. apply lookup_lt_Some in He. pose proof (lw_count _ a_lowered).
  unfold kMaxInstructions, zlen in *. lia.
Qed.

Lemma no_else_pc : i_else_pc i = kNoPc -> ~ has_else ops k.
Proof using A.
  intros E (e & ie & os & He & Ho & Eo). pose proof (end_bound _ _ He).
  pose proof (lw_else _ a_lowered _ _ _ _ _ He Ho Eo
    a_op) as K. rewrite E in K. unfold kNoPc in K. lia.
Qed.

(** A false [if] without an [else]. *)
Lemma if_end v' lf' len :
  is_opener (i_op i) = true -> is_if (i_op i) = true -> i_else_pc i = kNoPc -> val ty b ops (S k) v' -> v_ended v' = false ->
  (exists c, v_controls v' = c :: v_controls v) -> Forall2 (label_ok ty b ops f) lf' (k :: opens ops k) ->
  len = values_base f + Z.of_nat (length (v_stack v')) -> closing ty b ops (set_pc (i_end_pc i) f) lf' len.
Proof using A.
  intros Ho Hif Hno Hv He [c Hc] HF ->. pose proof a_op as Hi.
  destruct (opener_ends _ _ _ _ _ _ ai_valid k i v' Hi Ho Hv He) as (e & ie & ve & v2 & _ & Hie & Hend & _ & _ & Eo & Hv2 & He2 & _ & Hc2 & Hl2 & Hb).
  rewrite (Hb Hif (no_else_pc Hno)), Nat.add_0_r in Hl2.
  exists e, ie, k, (opens ops k), v2. rewrite Eo, Hl2. split_and!; try done.
  - cbn. by apply (lw_end _ a_lowered _ _ _ _ _ Hie Hend Eo).
  - unfold reach. rewrite Hc2, Hc. cbn [tail]. apply A.
Qed.

(** A false [if] with one. *)
Lemma if_else v' lf' len :
  is_opener (i_op i) = true -> i_else_pc i <> kNoPc -> val ty b ops (S k) v' -> v_ended v' = false ->
  (exists c, v_controls v' = c :: v_controls v) -> Forall2 (label_ok ty b ops f) lf' (k :: opens ops k) ->
  len = values_base f + Z.of_nat (length (v_stack v')) -> normal ty b ops (set_pc (u32 (i_else_pc i + 1)) f) lf' len.
Proof using A.
  intros Ho Hno Hv He [c Hc] HF ->. pose proof a_op as Hi.
  destruct (lw_there _ a_lowered _ _ Hi Ho Hno)
    as (e & ie & os & Hie & Hel & Eo & Hpc).
  destruct (vat_step _ _ _ _ _ _ ai_valid _ _ Hie) as (ve & w & Hve & Hs & _). pose proof (lookup_lt_Some _ _ _ Hie).
  assert (wf m0 ty (b_local_types b) (b_branch_base b) ops e ve) as Hw by (apply vat_wf; [done|by eapply instr_running|lia]).
  destruct (opener_else _ _ _ _ _ _ ai_valid _ _ _ _ _ _ _ Hie Hel Hve Hw Eo Hi Hv) as (v2 & c' & Hv2 & He2 & Eo2 & Hc2 & Hu & Hl2 & _).
  destruct (innermost _ _ _ _ _ _ _ _ _ _ _ Hw Eo Hi Hv) as (-> & _).
  exists (S e), v2. rewrite Eo2, Hl2. split_and!; try done.
  - cbn. rewrite Hpc. pose proof (end_bound _ _ Hie). unfold u32. rewrite Z.mod_small by lia. lia.
  - eapply vat_running; [apply ai_valid|done|done|lia].
  - unfold reach. rewrite Hc2, Hu, Hc. apply reach_parent.
Qed.

Lemma if_safe : is_if (i_op i) = true -> safe r (run_if i (f_pc f) r).
Proof using A.
  intros Hif. assert (is_opener (i_op i) = true) as Ho by by destruct (i_op i).
  destruct (open_next Ho) as (v1 & v' & c & Hv & He & Hr & Hc & Hl & K). rewrite Hif in K. destruct K as [_ K1 K2].
  unfold run_if. pose proof a_len as Hlen. pose proof a_locals as [G1 G2].
  pose proof (zlen_nonneg (params ty)). pose proof (zlen_nonneg (b_local_types b)).
  destruct (r_values r) as [|x l] eqn:E; [unfold zlen in *; cbn [length] in *; lia|]. rewrite (bind_ok _ _ _ _ _ (pop_ok r x l E)).
  pose proof (quiet_values l r) as Q. rewrite zlen_cons in Hlen.
  assert (zlen (r_values (with_values l r)) = values_base f + Z.of_nat (length (v_stack v'))) as Hlen1 by (cbn; lia).
  pose proof (enter_safe _ _ Q Ho Hv He Hr Hlen1) as HS. destruct (push_label_run _ Q) as [[Hmax E1]|[Hmax E1]].
  { rewrite (bind_err _ _ _ _ _ E1). by rewrite E1 in HS. }
  rewrite (bind_ok _ _ _ _ _ E1). rewrite E1 in HS. case_match; [|done].
  destruct (entered _ _ Q Hmax Ho Hv He Hlen1) as [Hst HF].
  apply (land _ (new_label (with_values l r) :: lf)); try done; [apply A| |].
  { cbn. by rewrite a_labels. }
  destruct (Z.eqb_spec (i_else_pc i) kNoPc) as [En|En]; [right; left|left].
  - eapply if_end; try done. eauto.
  - eapply if_else; try done. eauto.
Qed.

(** ** Leaving blocks *)

(** What lies outside a block that is open can be reached. *)
Lemma outer_reach j o w :
  opens ops k !! j = Some o -> v_controls w = drop (S j) (v_controls v) -> reach w.
Proof using A.
  intros Hj Hw. destruct (aligned_lookup _ _ _ _ _ _ _ _ _ (wf_aligned _ _ _ _ _ _ _ ai_wf) Hj)
    as (c & i1 & c0 & v0 & _ & _ & _ & _ & _ & _ & _ & _ & _ & Hp & _).
  destruct (aligned_outer _ _ _ _ _ _ _ (wf_aligned _ _ _ _ _ _ _ ai_wf)) as [Hlen _].
  unfold reach. rewrite Hw. destruct (drop (S j) (v_controls v)) as [|c1 cs] eqn:E.
  - apply (f_equal length) in E. rewrite length_drop, Hlen in E. cbn in E. apply lookup_lt_Some in Hj. lia.
  - cbn in Hp. destruct (vc_unreachable c1); [|done]. rewrite reach_parent in Hp. by specialize (Hp eq_refl).
Qed.

(** The blocks open here, with their labels. *)
Lemma label_at j o : opens ops k !! j = Some o -> exists l, lf !! j = Some l /\ label_ok ty b ops f l o.
Proof using A. intros Hj. apply (Forall2_lookup_r _ _ _ _ _ (ai_match _ _ _ _ _ _ _ _ _ _ _ _ A) Hj). Qed.

Lemma opens_count : (length (opens ops k) <= k)%nat /\ length lf = length (opens ops k).
Proof using A. pose proof ai_lt. split; [apply opens_length; lia|]. eapply Forall2_length, A. Qed.

(** The end of the block opened at [o], [j] levels out. *)
Lemma leave_to j o io v0 :
  opens ops k !! j = Some o -> ops !! o = Some io -> val ty b ops (S o) v0 -> is_opener (i_op io) = true -> v_ended v0 = false ->
  exists e ie v2, ops !! e = Some ie /\ i_op ie = Op.End /\ i_end_pc io = Z.of_nat e /\ opens ops e = o :: drop (S j) (opens ops k)
    /\ val ty b ops (S e) v2 /\ v_ended v2 = false /\ reach v2 /\ opens ops (S e) = drop (S j) (opens ops k)
    /\ length (v_stack v2) = (length (v_stack v0) + block_count io)%nat.
Proof using A.
  intros Hj Hio Hv0 Hop He0.
  destruct (aligned_lookup _ _ _ _ _ _ _ _ _ (wf_aligned _ _ _ _ _ _ _ ai_wf) Hj)
    as (c & i1 & c0 & v1 & _ & Hi1 & _ & Hv1 & Hc0 & _ & _ & Hos & _).
  assert (i1 = io) as -> by congruence. pose proof (vat_det _ _ _ _ _ _ _ _ Hv0 Hv1) as <-.
  destruct (opener_ends _ _ _ _ _ _ ai_valid o io v0 Hio Hop Hv0 He0) as (e & ie & ve & v2 & _ & Hie & Hend & _ & _ & Eo & Hv2 & He2 & Eo2 & Hc2 & Hl2 & _).
  exists e, ie, v2. rewrite <- Hos. split_and!; try done.
  - by apply (lw_end _ a_lowered _ _ _ _ _ Hie Hend Eo).
  - eapply (outer_reach j o); [done|]. by rewrite Hc2, Hc0.
Qed.

Lemma else_safe : i_op i = Op.Else -> safe r (run_else f r).
Proof using A.
  intros Ho. destruct ai_next as (v' & Hs & Hn).
  destruct (instr_else _ _ _ _ _ _ _ Hs Ho) as (c & cs & c' & Hc & _ & _ & _ & Hop & _).
  pose proof (wf_aligned _ _ _ _ _ _ _ ai_wf) as Ha. rewrite Hc in Ha.
  destruct (opens ops k) as [|o os] eqn:Eo; [inversion Ha; congruence|].
  destruct (label_at 0 o) as (l & Hl & io & v0 & Hio & Hopn & Hv0 & He0 & _ & Hend & _); [by rewrite Eo|].
  destruct (leave_to 0 o io v0) as (e & ie & v2 & Hie & Hie' & Hpc & Eo' & Hv2 & He2 & Hr2 & _ & Hl2); [by rewrite Eo|done..|].
  destruct (opener_else _ _ _ _ _ _ ai_valid _ _ _ _ _ _ _ a_op Ho (ai_val _ _ _ _ _ _ _ _ _ _ _ _ A) ai_wf Eo Hio Hv0)
    as (_ & _ & _ & _ & _ & _ & _ & _ & Hlen). specialize (Hlen a_reach).
  unfold run_else. rewrite bind_getS, a_labels, (ai_base _ _ _ _ _ _ _ _ _ _ _ _ A). 
  assert (exists lf', lf = l :: lf') as [lf' Elf] by (destruct lf; [done|]; cbn in Hl; simplify_eq; eauto).
  pose proof (zlen_nonneg lf'). rewrite (proj2 (Z.leb_gt _ _)) by (rewrite Elf, zlen_app, zlen_cons; lia). rewrite Elf. cbn [app].
  apply (land _ lf); try done; [apply a_steady|apply A|apply a_labels|]. right. left. exists e, ie, o, os, v2.
  rewrite Eo' in *. cbn [drop] in *. rewrite Eo in *. cbn [drop]. split_and!; try done.
  - cbn. congruence.
  - pose proof (ai_match _ _ _ _ _ _ _ _ _ _ _ _ A) as HF. by rewrite Eo in HF.
  - rewrite a_len, Hlen, Hl2. done.
Qed.

Lemma end_safe : i_op i = Op.End -> safe r (run_end f r).
Proof using A.
  intros Ho. destruct ai_next as (v' & Hs & Hn). destruct (opens ops k) as [|o os] eqn:Eo.
  - pose proof opens_count as [_ Hc]. rewrite Eo in Hc. assert (lf = []) as Elf by by apply nil_length_inv. unfold run_end.
    rewrite bind_getS, a_labels, (ai_base _ _ _ _ _ _ _ _ _ _ _ _ A). rewrite Elf. cbn [app]. rewrite Z.ltb_irrefl.
    eapply leave_safe; try apply A.
    rewrite a_len, (at_end_function _ _ _ _ _ _ ai_valid _ _ _ a_op Ho (ai_val _ _ _ _ _ _ _ _ _ _ _ _ A) ai_wf Eo a_reach). done.
  - destruct (end_block _ _ _ _ _ _ _ _ _ _ _ ai_wf Hs Ho Eo) as (c & cs & Hc & Hc' & He & Hl & _ & Hl'). specialize (Hl' a_reach).
    apply (close_safe r f fs lf lr ty b ops depth k i o os v'); try apply A; try done.
    + eapply (outer_reach 0 o); [by rewrite Eo|]. by rewrite Hc', Hc.
    + rewrite a_len, Hl', Hl. done.
Qed.

(** ** Branches *)

Lemma quiet_land r1 r2 lf' pc :
  quiet r r1 -> steady r2 -> r_frames r2 = r_frames r1 -> r_labels r2 = lf' ++ lr -> r_module r2 = r_module r1 ->
  r_config r2 = r_config r1 ->
  (normal ty b ops (set_pc pc f) lf' (zlen (r_values r2)) \/ closing ty b ops (set_pc pc f) lf' (zlen (r_values r2))
   \/ returning ty ops (set_pc pc f) lf' (zlen (r_values r2))) -> inv (jump pc r2).
Proof using A.
  intros [Q1 Q2 Q3 Q4 _ _ _ _ _] S2 E1 E2 E3 E4 HN. apply (land r2 lf'); try done; [|congruence..]. rewrite E1, Q3. apply A.
Qed.

Lemma steady_shrink r1 labels values :
  steady r1 -> (length labels <= length (r_labels r1))%nat -> steady (with_labels labels (with_values values r1)).
Proof. intros [S1 S2 S3 S4 S6 S5] Hl. split; try done. cbn. unfold zlen in *. lia. Qed.

(** A branch out of the function. *)
Lemma branch_out r1 :
  quiet r r1 -> values_base f + zlen (results ty) <= zlen (r_values r1) ->
  inv (jump (b_instruction_count b) (with_labels (bottom (Z.to_nat (labels_base f)) (r_labels r1)) r1)).
Proof using A.
  intros Q Hv. pose proof (steady_quiet _ _ Q a_steady) as S1.
  assert (bottom (Z.to_nat (labels_base f)) (r_labels r1) = lr) as ->.
  { rewrite (q_labels _ _ Q), a_labels, (ai_base _ _ _ _ _ _ _ _ _ _ _ _ A). unfold zlen. by rewrite Nat2Z.id, bottom_app. }
  apply (quiet_land r1 _ []); try done.
  - destruct S1 as [S1 S2 S3 S4 S6 S5]. split; try done. cbn. rewrite (q_labels _ _ Q), a_labels, zlen_app in S2. pose proof (zlen_nonneg lf). lia.
  - right. right. split_and!; [|done|done]. cbn.
    rewrite (c_count _ _ _ _ _ _ (fo_code _ _ _ _ _ _ _ (ai_frame _ _ _ _ _ _ _ _ _ _ _ _ A))). done.
Qed.

(** The label a branch of depth [j] goes to. *)
Lemma target_of j o c :
  opens ops k !! j = Some o -> v_controls v !! j = Some c ->
  exists l io v0, lf !! j = Some l /\ ops !! o = Some io /\ is_opener (i_op io) = true /\ val ty b ops (S o) v0 /\ v_ended v0 = false
    /\ reach v0 /\ opens ops (S o) = drop j (opens ops k)
    /\ l_start_pc l = Z.of_nat (S o) /\ l_end_pc l = i_end_pc io /\ is_loop l = is_loop_op (i_op io)
    /\ value_height l = values_base f + Z.of_nat (length (v_stack v0)) /\ result_count l = Z.of_nat (block_count io)
    /\ keep_count l = Z.of_nat (length (vc_label_types c)) /\ (length (v_stack v0) <= height v)%nat.
Proof using A.
  intros Hj Hc. destruct (label_at j o Hj) as (l & Hl & io & v0 & Hio & Hop & Hv0 & He0 & L1 & L2 & L3 & L4 & L5).
  destruct (aligned_lookup _ _ _ _ _ _ _ _ _ (wf_aligned _ _ _ _ _ _ _ ai_wf) Hj)
    as (c1 & i1 & c0 & v1 & Hc1 & Hi1 & _ & Hv1 & Hc0 & Hnew & Hsame & Hos & Hh & Hp & _).
  assert (c1 = c) as -> by congruence. assert (i1 = io) as -> by congruence. pose proof (vat_det _ _ _ _ _ _ _ _ Hv0 Hv1) as <-.
  exists l, io, v0. destruct Hsame as (B1 & B2 & B3 & B4). split_and!; try done.
  - unfold reach. rewrite Hc0, (new_unreachable _ _ _ _ Hnew). rewrite reach_parent in Hp.
    destruct (parent_unreachable _); [by specialize (Hp eq_refl)|done].
  - rewrite (opens_S _ _ _ Hio), Hos. rewrite (drop_S _ _ _ Hj). unfold opens_step. by destruct (i_op io).
  - unfold keep_count. rewrite L3, L5, B3, (new_labels _ _ _ _ Hnew), <- (new_ends _ _ _ _ Hnew). by destruct (i_op io).
  - rewrite <- (new_height _ _ _ _ Hnew), <- B2. unfold height, outer_height in *. by destruct (v_controls v).
Qed.

Lemma take_bottom_length (l : list Z) n h : (n <= length l)%nat -> (h <= length l)%nat -> length (take n l ++ bottom h l) = (n + h)%nat.
Proof. intros. rewrite length_app, length_take, length_bottom. lia. Qed.

(** A branch to a label of the frame. *)
Lemma branch_in r1 j o c :
  quiet r r1 -> opens ops k !! j = Some o -> v_controls v !! j = Some c ->
  values_base f + Z.of_nat (height v + length (vc_label_types c)) <= zlen (r_values r1) ->
  exists r2, branch_to (Z.of_nat j) r1 = (Ok tt, r2) /\ inv r2.
Proof using A.
  intros Q Hj Hc Hv. destruct (target_of j o c Hj Hc) as (l & io & v0 & Hl & Hio & Hop & Hv0 & He0 & Hr0 & Eo & L1 & L2 & L3 & L4 & L5 & L6 & Hh).
  pose proof (steady_quiet _ _ Q a_steady) as S1. pose proof opens_count as [Hk Hlf]. pose proof (lookup_lt_Some _ _ _ Hj) as Hjlt.
  pose proof (end_bound _ _ a_op). destruct a_locals as [G1 G2]. pose proof (zlen_nonneg (params ty)). pose proof (zlen_nonneg (b_local_types b)).
  unfold branch_to. rewrite bind_getS, (q_frames _ _ Q), (ai_frames _ _ _ _ _ _ _ _ _ _ _ _ A), (q_labels _ _ Q), a_labels, (ai_base _ _ _ _ _ _ _ _ _ _ _ _ A).
  replace (u32 (zlen (lf ++ lr) - zlen lr)) with (zlen lf) by (rewrite zlen_app; unfold u32; rewrite Z.mod_small; unfold zlen in *; lia).
  rewrite (proj2 (Z.eqb_neq (Z.of_nat j) (zlen lf))), (proj2 (Z.ltb_ge (zlen lf) (Z.of_nat j))) by (unfold zlen; lia).
  assert (at_ (lf ++ lr) (Z.of_nat j) = Some l) as ->.
  { unfold at_. rewrite (proj2 (Z.ltb_ge _ 0)) by lia. rewrite Nat2Z.id, lookup_app_l by lia. done. }
  rewrite L6, L4, (proj2 (Z.ltb_ge _ _)) by lia. rewrite !Nat2Z.id.
  set (vs := take _ _ ++ _). assert (zlen vs = values_base f + Z.of_nat (length (v_stack v0)) + Z.of_nat (length (vc_label_types c))) as Hvs.
  { unfold vs, zlen in *. rewrite take_bottom_length by lia. lia. }
  pose proof (ai_match _ _ _ _ _ _ _ _ _ _ _ _ A) as HF. rewrite L3. destruct (is_loop_op (i_op io)) eqn:Eloop; (eexists; split; [done|]).
  - apply (quiet_land r1 _ (drop j lf)); try done; [|cbn; by rewrite drop_app_le by lia|].
    { apply steady_shrink; [done|]. rewrite (q_labels _ _ Q), a_labels, length_drop. lia. }
    left. exists (S o), v0. rewrite Eo. split_and!; try done.
    + apply lookup_lt_Some in Hio as Hlt. eapply vat_running; [apply ai_valid|done|done|lia].
    + by apply Forall2_drop.
    + cbn. rewrite Hvs. replace (length (vc_label_types c)) with 0%nat; [cbn; lia|].
      unfold keep_count in L6. rewrite L3 in L6. lia.
  - destruct (leave_to j o io v0 Hj Hio Hv0 Hop He0) as (e & ie & v2 & Hie & _ & Hpc & _ & Hv2 & He2 & Hr2 & Eo2 & Hl2).
    pose proof (end_bound _ _ Hie). pose proof (lookup_lt_Some _ _ _ Hie).
    apply (quiet_land r1 _ (drop (S j) lf)); try done; [|cbn; rewrite drop_app_le by lia; rewrite (drop_S _ _ _ Hl); done|].
    { apply steady_shrink; [done|]. rewrite (q_labels _ _ Q), a_labels, drop_app_le, (drop_S _ _ _ Hl) by lia. cbn.
      rewrite !length_app, length_drop. lia. }
    left. exists (S e), v2. rewrite Eo2. split_and!; try done.
    + cbn. rewrite L2, Hpc. unfold u32. rewrite Z.mod_small by lia. lia.
    + eapply vat_running; [apply ai_valid|done|done|lia].
    + by apply Forall2_drop.
    + cbn. rewrite Hvs, Hl2. unfold keep_count in L6. rewrite L3, L5 in L6. lia.
Qed.

Lemma branch_safe r1 d c :
  quiet r r1 -> at_ (v_controls v) d = Some c ->
  values_base f + Z.of_nat (height v + length (vc_label_types c)) <= zlen (r_values r1) -> safe r (branch_to d r1).
Proof using A.
  intros Q Hc Hv. pose proof (at_Some _ _ _ Hc) as Hd. unfold at_ in Hc. rewrite (proj2 (Z.ltb_ge _ 0)) in Hc by lia.
  destruct (aligned_outer _ _ _ _ _ _ _ (wf_aligned _ _ _ _ _ _ _ ai_wf)) as (Hlen & c1 & _ & Hc1 & E1 & E2).
  destruct (decide (Z.to_nat d = length (opens ops k))) as [E|E].
  - rewrite E, Hc1 in Hc. injection Hc as <-. pose proof opens_count as [Hk Hlf]. pose proof (end_bound _ _ a_op).
    unfold branch_to. rewrite bind_getS, (q_frames _ _ Q), (ai_frames _ _ _ _ _ _ _ _ _ _ _ _ A), (q_labels _ _ Q), a_labels, (ai_base _ _ _ _ _ _ _ _ _ _ _ _ A).
    replace (u32 (zlen (lf ++ lr) - zlen lr)) with d by (rewrite zlen_app; unfold u32; rewrite Z.mod_small; unfold zlen in *; lia).
    rewrite Z.eqb_refl. unfold function_body. rewrite (q_module _ _ Q), (c_body _ _ _ _ _ _ (fo_code _ _ _ _ _ _ _ (ai_frame _ _ _ _ _ _ _ _ _ _ _ _ A))).
    rewrite <- a_labels, <- (q_labels _ _ Q), <- (ai_base _ _ _ _ _ _ _ _ _ _ _ _ A). apply branch_out; [done|]. rewrite E1, E2 in Hv. unfold zlen in *. lia.
  - destruct (lookup_lt_is_Some_2 (opens ops k) (Z.to_nat d)) as [o Ho]; [unfold zlen in *; lia|].
    destruct (branch_in r1 (Z.to_nat d) o c Q Ho Hc Hv) as (r2 & Hb & Hi). rewrite Z2Nat.id in Hb by lia. by rewrite Hb.
Qed.

Lemma br_safe : i_op i = Op.Br -> safe r (branch_to (i_operand i) r).
Proof using A.
  intros Ho. destruct ai_next as (v' & Hs & Hn). pose proof (instr_leaves _ _ _ _ _ _ _ Hs) as HL. rewrite Ho in HL.
  destruct HL as (c & Hc & L). pose proof (leaves_need _ _ _ L a_reach (wf_height _ _ _ _ _ _ _ ai_wf)) as Hneed.
  assert (quiet r r) as Q by by split. apply (branch_safe r _ c Q Hc). rewrite a_len. lia.
Qed.

(** The stack has the operands the validator counted. *)
Lemma operands n : (n <= length (v_stack v))%nat -> (n <= length (r_values r))%nat.
Proof using A.
  intros Hn. pose proof a_len. destruct a_locals as [G1 G2]. pose proof (zlen_nonneg (params ty)).
  pose proof (zlen_nonneg (b_local_types b)). unfold zlen in *. lia.
Qed.

Lemma br_if_safe : i_op i = Op.BrIf -> safe r (run_br_if i r).
Proof using A.
  intros Ho. destruct ai_next as (v' & Hs & Hn). destruct (instr_br_if _ _ _ _ _ _ _ Hs Ho) as (W & c & Hc & K).
  destruct (K a_reach (wf_height _ _ _ _ _ _ _ ai_wf)) as [_ K1 K2]. destruct (weak_next _ W) as [He Hr].
  pose proof a_len as Hlen. unfold run_br_if. rewrite bind_getS. destruct (r_values r) as [|x l] eqn:E.
  { pose proof (operands 1 ltac:(lia)) as Hop. rewrite E in Hop. cbn in Hop. lia. }
  rewrite (bind_ok _ _ _ tt (with_values l r)) by done. rewrite zlen_cons in Hlen. pose proof (quiet_values l r) as Q. case_match.
  - eapply go_on; try done; [|cbn; lia]. rewrite (opens_S _ _ _ a_op). unfold opens_step. by rewrite Ho.
  - apply (branch_safe _ _ c Q Hc). cbn. lia.
Qed.

Lemma table_targets_length m bb j ts :
  0 <= bb -> 0 <= i_operand j -> table_targets m bb j = Some ts -> zlen ts = i_operand2 j /\ 0 < i_operand2 j.
Proof.
  intros Hb Ho. assert (0 <= i_operand2 j) by (unfold i_operand2, u32; apply Z.mod_pos_bound; lia). unfold table_targets.
  destruct (_ || _) eqn:E; [done|]. rewrite !orb_false_iff in E. destruct E as [[[E1 E2] E3] E4]. injection 1 as <-.
  unfold zlen in *. rewrite length_slice; unfold zlen in *; lia.
Qed.

Lemma br_table_safe : i_op i = Op.BrTable -> safe r (run_br_table i (b_branch_base b) r).
Proof using A.
  intros Ho. destruct ai_next as (v' & Hs & Hn). pose proof (instr_leaves _ _ _ _ _ _ _ Hs) as HL. rewrite Ho in HL.
  destruct HL as (targets & types & Ht & HF & L). pose proof (leaves_need _ _ _ L a_reach (wf_height _ _ _ _ _ _ _ ai_wf)) as Hneed.
  pose proof a_len as Hlen. unfold run_br_table. rewrite bind_getS. destruct (r_values r) as [|x l] eqn:E.
  { pose proof (operands 1 ltac:(lia)) as Hop. rewrite E in Hop. cbn in Hop. lia. }
  rewrite (bind_ok _ _ _ tt (with_values l r)) by done. rewrite zlen_cons in Hlen.
  assert (table_targets (r_module r) (b_branch_base b) i = Some targets) as ->.
  { destruct (s_evolved _ a_steady) as (bl & -> & _). done. }
  pose proof (Forall_lookup_1 _ _ _ _ (lw_decoded _ a_lowered) a_op) as Hdec. unfold decoded in Hdec. rewrite Ho in Hdec.
  destruct (table_targets_length _ _ _ _ (c_base _ _ _ _ _ _ (fo_code _ _ _ _ _ _ _ (ai_frame _ _ _ _ _ _ _ _ _ _ _ _ A))) Hdec Ht) as [Hz Hpos].
  destruct (at_lt targets (if u32 x <? i_operand2 i - 1 then u32 x else i_operand2 i - 1)) as [d Hd].
  { pose proof (Z.mod_pos_bound x (2 ^ 32) ltac:(lia)). unfold u32. destruct (Z.ltb_spec (x mod 2 ^ 32) (i_operand2 i - 1)); lia. }
  rewrite Hd. unfold at_ in Hd. destruct (_ <? 0); [done|]. destruct (Forall_lookup_1 _ _ _ _ HF Hd) as (c & Hc & Hty).
  apply (branch_safe _ _ c (quiet_values l r) Hc). cbn. rewrite Hty. lia.
Qed.

Lemma return_safe : i_op i = Op.Return -> safe r (leave_function r).
Proof using A.
  intros Ho. destruct ai_next as (v' & Hs & Hn). pose proof (instr_leaves _ _ _ _ _ _ _ Hs) as HL. rewrite Ho in HL.
  destruct HL as (c & Hc & L). pose proof (leaves_need _ _ _ L a_reach (wf_height _ _ _ _ _ _ _ ai_wf)) as Hneed.
  destruct (aligned_outer _ _ _ _ _ _ _ (wf_aligned _ _ _ _ _ _ _ ai_wf)) as (_ & c1 & Hc1 & _ & _ & E2).
  unfold outermost in Hc. assert (c1 = c) as -> by congruence.
  apply (leave_safe r f fs lf lr ty b ops depth); try apply A. rewrite a_len. unfold zlen. lia.
Qed.

(** ** Calls *)


Lemma after_host_quiet reply (t : T) (r1 : R T) : quiet r1 (after_host reply t r1).
Proof. unfold after_host, set_error. repeat case_match; by split. Qed.

Lemma after_host_values reply (t : T) (r1 : R T) : r_values (after_host reply t r1) = r_values r1.
Proof. unfold after_host, set_error. by repeat case_match. Qed.

(** The callers see the same module. *)
Lemma callers_keeps m m' c fl ll len : keeps m m' -> callers m c fl ll len -> callers m' c fl ll len.
Proof.
  intros K. induction 1 as [|? ? ? ? ? ? ? ? ? [C1 C2 C3]]; [by constructor|].
  econstructor; try done. split; try done. by eapply code_keeps.
Qed.

Section call.
Variables (r1 : R T) (idx : Z) (callee : FuncType) (v' : VCtx).
Hypothesis Q : quiet r r1.
Hypothesis Hcallee : function_type m0 idx = Some callee.
Hypothesis Hidx : 0 <= idx < 2 ^ 32.
Hypothesis Hpops : (length (r_values r1) <= length (r_values r))%nat.
Hypothesis Hargs : zlen (params callee) <= zlen (r_values r1).
Hypothesis Hnext : val ty b ops (S k) v' /\ v_ended v' = false /\ reach v' /\ opens ops (S k) = opens ops k.
Hypothesis Hlen : zlen (r_values r1) - zlen (params callee) + zlen (results callee) = values_base f + Z.of_nat (length (v_stack v')).

Lemma import_safe : idx < m_imported m0 -> safe r (call_function idx r1).
Proof using A ac bound HostOk0 Q Hcallee Hidx Hpops Hargs Hnext Hlen.
  intros Hi. destruct Hnext as (Hv & He & Hr & Ho). pose proof (stack_room _ Hv He) as Hroom.
  destruct (type_of_import _ _ (conj (proj1 Hidx) Hi) Hcallee) as (im & Him & Hty).
  pose proof (steady_quiet _ _ Q a_steady) as S1. destruct (s_evolved _ S1) as (bl & Em & _).
  assert (exists bnd, at_ (r_imports r1) idx = Some (Some bnd)) as [bnd Hbnd].
  { destruct bound as [Hcount Hall]. rewrite (s_imports _ S1). destruct (at_lt imps idx) as [x Hx]; [rewrite Hcount, <- (ac_imported _ ac); lia|].
    rewrite Hx. unfold at_ in Hx. case_match; [done|]. pose proof (Forall_lookup_1 _ _ _ _ Hall Hx). destruct x; [eauto|done]. }
  unfold call_function. rewrite bind_getS. replace (m_imported (r_module r1)) with (m_imported m0) by by rewrite Em.
  rewrite (proj2 (Z.ltb_lt _ _)) by done. set (rest := drop (length (params callee)) (r_values r1)).
  assert (zlen rest + zlen (results callee) = values_base f + Z.of_nat (length (v_stack v'))) as Hrest.
  { unfold rest, zlen in *. rewrite length_drop. lia. }
  unfold execute_import, mbind, M_bind, modifyS, getS. cbn [r_module r_imports on_flags r_values r_config r_memory r_flags r_world].
  replace (m_imports (r_module r1)) with (m_imports m0) by by rewrite Em. rewrite Him, Hbnd.
  replace (m_types (r_module r1)) with (m_types m0) by by rewrite Em. rewrite Hty.
  rewrite bool_decide_eq_false_2 by (unfold zlen in *; lia). fold rest. rewrite (q_config _ _ Q).
  rewrite (proj2 (Z.ltb_ge _ _)) by (unfold zlen in *; lia).
  pose proof (host_results bnd (r_memory r1) (exit_code (set_error_import kNoImport (r_flags r1))) (rev (take (length (params callee)) (r_values r1))) (length (results callee)) (r_world r1)) as HR.
  pose proof (host_yields bnd (r_memory r1) (exit_code (set_error_import kNoImport (r_flags r1))) (rev (take (length (params callee)) (r_values r1))) (length (results callee)) (r_world r1)) as HY.
  destruct (h_invoke _ _ _ _ _ _) as [reply t]. cbn [fst] in HR, HY. unfold putS.
  set (r2 := with_values rest (on_flags (set_error_import kNoImport) r1)). pose proof (after_host_quiet reply t r2) as Q2.
  assert (quiet r r2) as Q1 by (eapply quiet_trans; [exact Q|by split]).
  destruct (hr_status reply); try done.
  - rewrite bool_decide_eq_true_2 by auto. cbn. eapply go_on; try done.
    + eapply quiet_trans; [exact Q1|]. eapply quiet_trans; [exact Q2|by split].
    + cbn. rewrite <- Hrest, zlen_app, after_host_values. specialize (HR eq_refl). unfold zlen. rewrite length_rev, HR. cbn. lia.
  - cbn. apply (limit_host _ _ idx); [lia|done].
Qed.

(** The state once a function is entered. *)
Lemma entered_call m' b2 ops2 depth2 :
  evolved m' -> keeps (r_module r1) m' -> code m' idx callee b2 ops2 depth2 ->
  zlen (r_values r1) + zlen (b_local_types b2) + Z.of_nat depth2 <= max_values (r_config r1) ->
  inv (enter_state m' idx callee b2 r1).
Proof using A Q Hpops Hargs Hnext Hlen.
  intros Hev Hk HC Hmax. destruct Hnext as (Hv & He & Hr & Ho). pose proof ai_lt as Hlt.
  destruct (steady_quiet _ _ Q a_steady) as [S1 S2 S3 S4 S6 S5]. split; [by split|].
  destruct (enter_normal _ _ _ _ _ _ (r_config r1) r1 HC Hargs Hmax) as [HF HN].
  eexists _, _, [], (r_labels r1), callee, b2, ops2, depth2. split; [done|]. split; [done|]. split; [done|]. split; [done|].
  split; [by left|]. cbn [enter_state with_values with_frames with_module r_module r_config new_frame locals_base].
  destruct Q as [Q1 Q2 Q3 Q4 _ _ _ _ _]. rewrite Q3, Q4, Q2, (ai_frames _ _ _ _ _ _ _ _ _ _ _ _ A), a_labels.
  pose proof (ai_frame _ _ _ _ _ _ _ _ _ _ _ _ A) as [C1 C2 C3]. rewrite Q1 in Hk.
  econstructor; [split; [by eapply code_keeps|done|done]|apply A| |eapply callers_keeps; [done|apply A]].
  exists (S k), v'. rewrite Ho. split_and!; try done; [apply A| |apply A]. eapply vat_running; [apply ai_valid|done|done|lia].
Qed.

Lemma body_safe : m_imported m0 <= idx -> safe r (call_function idx r1).
Proof using A ac Q Hcallee Hidx Hpops Hargs Hnext Hlen.
  intros Hi. pose proof (steady_quiet _ _ Q a_steady) as S1. pose proof (s_evolved _ S1) as Hev.
  destruct (enter_frame_spec r1 idx callee Hev ltac:(lia) Hcallee Hargs (s_labels _ S1)) as (m' & b2 & ops2 & d2 & Hev' & Hk & HC & Hcase).
  unfold call_function. rewrite bind_getS. replace (m_imported (r_module r1)) with (m_imported m0) by (destruct Hev as (bl & -> & _); done).
  rewrite (proj2 (Z.ltb_ge _ _)) by done. destruct Hcase as [[E Hlim]|[E Hmax]]; rewrite (bind_ok _ _ _ _ _ E).
  - rewrite bool_decide_eq_false_2 by done. eapply limit_call; [apply HC|]. rewrite <- (q_config _ _ Q), <- (q_frames _ _ Q).
    destruct Hlim; [by left|right]. unfold zlen in *. lia.
  - rewrite bool_decide_eq_true_2 by done. by eapply entered_call.
Qed.
End call.

Lemma call_any r1 idx callee v' :
  quiet r r1 -> function_type m0 idx = Some callee -> 0 <= idx < 2 ^ 32 -> (length (r_values r1) <= length (r_values r))%nat ->
  zlen (params callee) <= zlen (r_values r1) ->
  val ty b ops (S k) v' /\ v_ended v' = false /\ reach v' /\ opens ops (S k) = opens ops k ->
  zlen (r_values r1) - zlen (params callee) + zlen (results callee) = values_base f + Z.of_nat (length (v_stack v')) ->
  safe r (call_function idx r1).
Proof using A ac bound HostOk0.
  intros. destruct (Z.lt_ge_cases idx (m_imported m0)); [eapply import_safe | eapply body_safe]; try done.
Qed.

Lemma call_safe : i_op i = Op.Call -> safe r (call_function (i_operand i) r).
Proof using A ac bound HostOk0.
  intros Ho. destruct ai_next as (v' & Hs & Hn). destruct (instr_call _ _ _ _ _ _ _ Hs Ho) as (W & callee & Hc & K).
  destruct (K a_reach (wf_height _ _ _ _ _ _ _ ai_wf)) as [_ K1 K2]. destruct (weak_next _ W) as [He Hr].
  pose proof (Forall_lookup_1 _ _ _ _ (lw_decoded _ a_lowered) a_op) as Hdec. unfold decoded in Hdec. rewrite Ho in Hdec.
  pose proof (operands (length (params callee)) ltac:(lia)). pose proof a_len. assert (quiet r r) as Q by by split.
  eapply (call_any r _ callee v'); try done; [unfold zlen; lia| |unfold zlen in *; lia].
  split_and!; try done. rewrite (opens_S _ _ _ a_op). unfold opens_step. by rewrite Ho.
Qed.

Lemma call_indirect_safe : i_op i = Op.CallIndirect -> safe r (run_call_indirect i r).
Proof using A ac bound HostOk0.
  intros Ho. destruct ai_next as (v' & Hs & Hn). destruct (instr_call_indirect _ _ _ _ _ _ _ Hs Ho) as (W & callee & Hc & K).
  destruct (K a_reach (wf_height _ _ _ _ _ _ _ ai_wf)) as [_ K1 K2]. destruct (weak_next _ W) as [He Hr].
  pose proof (operands (S (length (params callee))) ltac:(lia)) as Hop. pose proof a_len as Hlen.
  destruct (r_values r) as [|x l] eqn:E; [cbn in Hop; lia|]. unfold run_call_indirect. rewrite (bind_ok _ _ _ _ _ (pop_ok r x l E)), bind_getS.
  case_match; [done|]. change (r_table (with_values l r)) with (r_table r). destruct (at_ (r_table r) (u32 x)) as [target|] eqn:Et; [|done]. case_match; [done|].
  assert (m_types (r_module r) = m_types m0) as Em by (destruct (s_evolved _ a_steady) as (bl & -> & _); done).
  change (r_module (with_values l r)) with (r_module r). rewrite Em, Hc, (evolved_type (r_module r)) by apply a_steady.
  destruct (function_type m0 target) as [actual|] eqn:Ea; [|done]. 
  destruct (same_function_type callee actual) eqn:Hsame; [|done]. apply bool_decide_eq_true in Hsame as <-.
  assert (0 <= target < 2 ^ 32) as Htarget.
  { unfold at_ in Et. case_match; [done|]. apply (Forall_lookup_1 _ _ _ _ (s_table _ a_steady) Et). }
  apply (call_any _ _ callee v' (quiet_values l r)); try done; [cbn; rewrite E; cbn; lia| | |].
  - cbn in *. unfold zlen. lia.
  - split_and!; try done. rewrite (opens_S _ _ _ a_op). unfold opens_step. by rewrite Ho.
  - rewrite zlen_cons in Hlen. cbn. unfold zlen in *. lia.
Qed.

Lemma execute_safe : safe r (execute i f b r).
Proof using A ac bound HostOk0.
  destruct (arity (i_op i)) as [[a c]|] eqn:Ea; [by eapply plain_safe|].
  unfold execute. destruct (i_op i) eqn:Eo; try discriminate Ea.
  - done.
  - apply block_safe; by rewrite Eo.
  - apply block_safe; by rewrite Eo.
  - apply if_safe; by rewrite Eo.
  - by apply else_safe.
  - by apply end_safe.
  - by apply br_safe.
  - by apply br_if_safe.
  - by apply br_table_safe.
  - by apply return_safe.
  - by apply call_safe.
  - by apply call_indirect_safe.
Qed.
End instr.

(** ** One round of the loop *)

Lemma limit_jump pc r r' : limit (jump pc r) r' -> limit r r'.
Proof.
  unfold jump. destruct (r_frames r) as [|f fs] eqn:E; [done|].
  destruct 1 as [H1|idx b H1 H2|idx H1 H2]; cbn in *.
  - by apply limit_labels.
  - eapply limit_call; [done|]. rewrite E. done.
  - by eapply limit_host.
Qed.
Lemma safe_jump pc r x : safe (jump pc r) x -> safe r x.
Proof. destruct x as [[|[]|] r']; try done. apply limit_jump. Qed.

Lemma inv_quiet r r' : quiet r r' -> r_values r' = r_values r -> inv r -> inv r'.
Proof.
  intros Q Hv [S1 (f & fs & lf & lr & ty & b & ops & depth & H1 & H2 & H3 & H4 & H5 & H6)].
  split; [by eapply steady_quiet|]. destruct Q as [Q1 Q2 Q3 Q4 _ _ _ _ _].
  exists f, fs, lf, lr, ty, b, ops, depth. rewrite Q1, Q2, Q3, Q4, Hv. done.
Qed.

Lemma steady_jump pc r : steady r -> steady (jump pc r).
Proof. intros [S1 S2 S3 S4 S6 S5]. unfold jump. by destruct (r_frames r). Qed.

Lemma step1_safe r : inv r -> safe r (step1 r).
Proof using ac bound HostOk0.
  intros HI. pose proof HI as [S1 (f & fs & lf & lr & ty & b & ops & depth & H1 & H2 & H3 & [C1 C2 C3] & H5 & H6)].
  unfold step1. rewrite bind_getS. case_match; [done|]. case_match; [by eapply inv_quiet, HI|].
  rewrite H1. unfold function_body. rewrite (c_body _ _ _ _ _ _ C1), (c_count _ _ _ _ _ _ C1), (c_ops _ _ _ _ _ _ C1). cbn [mbind option_bind].
  assert (forall k i, f_pc f = Z.of_nat k -> ops !! k = Some i -> (zlen ops <=? f_pc f) = false /\ at_ ops (f_pc f) = Some i) as Hfetch.
  { intros k i -> Hi. apply lookup_lt_Some in Hi as Hlt. split; [unfold zlen; lia|]. unfold at_.
    rewrite (proj2 (Z.ltb_ge _ 0)) by lia. by rewrite Nat2Z.id. }
  assert (r_frames (jump (f_pc f + 1) r) = set_pc (f_pc f + 1) f :: fs) as Hj by (unfold jump; by rewrite H1).
  assert (forall A (g : R T -> A), (forall fl, g (with_frames fl r) = g r) -> g (jump (f_pc f + 1) r) = g r) as Hg.
  { intros A g Hgg. unfold jump. by rewrite H1. }
  destruct H5 as [(k & v & P1 & P2 & P3 & P4 & P5 & P6 & P7)|[(k & ie & o & os & v' & P1 & P2 & P3 & P4 & P5 & P6 & P7 & P8 & P9)|(P1 & P2 & P3)]].
  - destruct (lookup_lt_is_Some_2 ops k P2) as [i Hi]. destruct (Hfetch _ _ P1 Hi) as [-> ->].
    rewrite (bind_ok _ _ _ tt (jump (f_pc f + 1) r)) by done. apply (safe_jump (f_pc f + 1)).
    eapply (execute_safe _ _ fs lf lr ty b ops depth k i v). split; try done; try (by apply steady_jump); rewrite ?Hg by done; try done.
    cbn. lia.
  - destruct (Hfetch _ _ P1 P2) as [-> ->]. rewrite (bind_ok _ _ _ tt (jump (f_pc f + 1) r)) by done. apply (safe_jump (f_pc f + 1)).
    unfold execute. rewrite P3.
    apply (close_safe _ _ fs lf lr ty b ops depth k ie o os v'); rewrite ?Hg by done; try done; [by apply steady_jump|cbn; lia].
  - rewrite (proj2 (Z.leb_le _ _)) by done. by eapply leave_safe.
Qed.
End module.
