(* ===== verification/WasmAccept.v ===== *)
(** * WasmAccept: what decoding a module establishes, and pauses

    A module that [decode_impl] accepts has what the interpreter's safety rests
    on, and [instantiate] and [invoke] set up the state it starts from. *)

From S2P Require Import Prelude WasmNum WasmDecode WasmModule WasmRun WasmWalk WasmLower WasmPlain WasmSafe.

(** ** What the section decoders give *)

Definition in_u32 (x : Z) : Prop := 0 <= x < 2 ^ 32.
Definition fresh_body (b : FunctionBody) : Prop := b_instructions b = None /\ 0 <= b_branch_base b.

(** The parts of a module that come from the bytes. *)
Record raw (m : ModuleData) : Prop := mkRaw {
  raw_imports : Forall (fun im => in_u32 (im_type_index im)) (m_imports m);
  raw_elements : Forall (fun e => Forall in_u32 (el_functions e)) (m_elements m);
  raw_exports : Forall (fun e => in_u32 (ex_index e)) (m_exports m);
  raw_bodies : Forall fresh_body (m_bodies m)
}.

Lemma repeat_dm_forall {A} (P : A -> Prop) n (f : DM A) s l s' :
  (forall s x s', f s = (Ok x, s') -> P x) -> repeat_dm n f s = (Ok l, s') -> Forall P l.
Proof.
  intros Hf. revert s l s'. induction n as [|n IH]; intros s l s' H; cbn [repeat_dm] in H; [injection H as <- _; by constructor|].
  minv H. injection H as <- _. constructor; [by eapply Hf|by eapply IH].
Qed.

Lemma decode_import_raw s x s' : decode_import s = (Ok x, s') -> in_u32 (im_type_index x).
Proof. unfold decode_import. intros H. minv H. injection H as <- _. by eapply need_uleb32. Qed.
Lemma decode_element_raw s x s' : decode_element s = (Ok x, s') -> Forall in_u32 (el_functions x).
Proof. unfold decode_element. intros H. minv H. injection H as <- _. eapply repeat_dm_forall; [|done]. intros. by eapply need_uleb32. Qed.
Lemma decode_export_raw s x s' : decode_export s = (Ok x, s') -> in_u32 (ex_index x).
Proof. unfold decode_export. intros H. minv H. injection H as <- _. by eapply need_uleb32. Qed.

Lemma decode_code_raw base s x s' : 0 <= base -> decode_code base s = (Ok x, s') -> fresh_body x.1.
Proof.
  intros Hb. unfold decode_code. intros H. minv H. destruct (lower x1) as [[[locals ops] targets]|e|]; try discriminate H.
  injection H as <- _. done.
Qed.
Lemma code_loop_raw n targets s x s' : code_loop n targets s = (Ok x, s') -> Forall fresh_body x.1.
Proof.
  revert targets s x s'. induction n as [|n IH]; intros targets s x s' H; cbn [code_loop] in H; [injection H as <- _; by constructor|].
  minv H. injection H as <- _. constructor; [eapply decode_code_raw; [|done]; apply zlen_nonneg|by eapply IH].
Qed.

Lemma decode_section_raw id bld s bld' s' :
  raw bld.1 -> decode_section id bld s = (Ok bld', s') -> raw bld'.1.
Proof.
  destruct bld as [m dc]. intros [R1 R2 R3 R4] H. unfold decode_section, on_module in H.
  repeat (case_match; try discriminate H); minv H; injection H as <- _; split; try done.
  - unfold decode_export_section in Hm. minv Hm. eapply repeat_dm_forall; [|done]. apply decode_export_raw.
  - unfold decode_element_section in Hm. minv Hm. eapply repeat_dm_forall; [|done]. apply decode_element_raw.
  - unfold decode_code_section in Hm. minv Hm. by eapply code_loop_raw.
  - unfold decode_import_section in Hm. minv Hm. eapply repeat_dm_forall; [|done]. apply decode_import_raw.
Qed.

Lemma decode_custom_raw bld s bld' s' : raw bld.1 -> decode_custom bld s = (Ok bld', s') -> raw bld'.1.
Proof.
  intros [R1 R2 R3 R4] H. unfold decode_custom in H. minv H. injection H as <- _. repeat case_match; by split.
Qed.

Lemma in_payload_inv {A} (p : DM A) payload x : in_payload p payload = Ok x -> exists s', p payload = (Ok x, s').
Proof. unfold in_payload. repeat case_match; try discriminate. injection 1 as <-. eauto. Qed.

Lemma sections_raw n order bld s bld' s' : raw bld.1 -> sections n order bld s = (Ok bld', s') -> raw bld'.1.
Proof.
  revert order bld s. induction n as [|n IH]; intros order bld s HR H; cbn [sections] in H; minv1 H.
  - destruct s; [|discriminate H]. by injection H as <- _.
  - destruct s as [|c s]; [by injection H as <- _|]. minv1 H. minv1 H. minv1 H. minv1 H.
    + minv1 H. unfold liftO in Hm2. injection Hm2 as Hp _. destruct (in_payload_inv _ _ _ Hp) as [s2 Hc].
      eapply IH; [|exact H]. by eapply decode_custom_raw.
    + destruct (section_order x); [|discriminate H]. minv1 H. minv1 H. injection Hm3 as Hp _.
      destruct (in_payload_inv _ _ _ Hp) as [s2 Hc]. eapply IH; [|exact H]. by eapply decode_section_raw.
Qed.

(** ** Validation looks only at the types *)

Section ext.
Variables (m : ModuleData) (l : list FunctionBody).
Hypothesis Hl : zlen l = zlen (m_bodies m).
Let m' := set_bodies (m_branch_targets m) l m.

Lemma set_bodies_type idx : function_type m' idx = function_type m idx.
Proof using Hl. unfold function_type. cbn [m' set_bodies m_imports m_types m_function_types m_bodies]. by rewrite Hl. Qed.

Lemma validate_instruction_ext ty locals bb i v :
  validate_instruction m' ty locals bb i v = validate_instruction m ty locals bb i v.
Proof using Hl.
  unfold validate_instruction. rewrite !bind_getS. destruct (v_ended v); [done|]. destruct (i_op i); try done.
  unfold validate_call. by rewrite set_bodies_type.
Qed.
Lemma validate_all_ext ty locals bb ops v : validate_all m' ty locals bb ops v = validate_all m ty locals bb ops v.
Proof using Hl.
  revert v. induction ops as [|i ops IH]; intros v; [done|]. cbn [validate_all]. unfold mbind, M_bind.
  rewrite validate_instruction_ext. by destruct (validate_instruction m ty locals bb i v) as [[]].
Qed.
Lemma validate_ext ty locals bb ops : validate m' ty locals bb ops = validate m ty locals bb ops.
Proof using Hl.
  unfold validate, mbind, M_bind. destruct (initialize_control ty _) as [[[]| |] v]; try done. by rewrite validate_all_ext.
Qed.
End ext.

(** ** Validated bodies *)

Lemma validate_body_inv m idx b b' :
  validate_body m idx b = Ok b' ->
  exists ty locs ops targets depth, function_type m (m_imported m + idx) = Some ty /\ b_code b <> []
    /\ lower (b_code b) = Ok (locs, ops, targets) /\ same_walk b locs ops targets = true
    /\ validate m ty (b_local_types b) (b_branch_base b) ops = Ok depth /\ b' = set_max_stack (Z.of_nat depth) b.
Proof.
  unfold validate_body. destruct (function_type m (m_imported m + idx)) as [ty|]; [|done].
  destruct (negb _); [done|]. case_bool_decide as Hc; [done|]. destruct (kMaxInstructions <? _); [done|].
  destruct (lower (b_code b)) as [[[locs ops] targets]|e|]; [|done..]. destruct (same_walk b locs ops targets) eqn:Hs; [|done]. cbn [negb].
  destruct (validate m ty (b_local_types b) (b_branch_base b) ops) as [depth|e|] eqn:Hv; [|done..]. injection 1 as <-.
  exists ty, locs, ops, targets, depth. done.
Qed.

Lemma validate_bodies_inv m idx l l' :
  validate_bodies m idx l = Ok l' ->
  length l' = length l /\ forall n b', l' !! n = Some b' -> exists b, l !! n = Some b /\ validate_body m (idx + Z.of_nat n) b = Ok b'.
Proof.
  revert idx l'. induction l as [|b l IH]; intros idx l' H; cbn [validate_bodies] in H; [injection H as <-; done|].
  destruct (validate_body m idx b) as [b1|e|] eqn:Hb; [|done..].
  destruct (validate_bodies m (idx + 1) l) as [l1|e|] eqn:Hl; [|done..]. injection H as <-.
  destruct (IH _ _ Hl) as [Hlen Hn]. split; [cbn; lia|]. intros [|n] b' Hb'.
  - injection Hb' as <-. exists b. rewrite Z.add_0_r. done.
  - destruct (Hn n b' Hb') as (b0 & H0 & H1). exists b0. split; [done|]. by replace (idx + Z.of_nat (S n)) with (idx + 1 + Z.of_nat n) by lia.
Qed.

Lemma first_failure_none {A} (f : A -> option Status.t) l : first_failure f l = None -> Forall (fun x => f x = None) l.
Proof. induction l as [|x l IH]; cbn [first_failure]; [constructor|]. destruct (f x) eqn:E; [done|]. intros. constructor; auto. Qed.
Lemma orelse_none a b : orelse a b = None -> a = None /\ b = None.
Proof. by destruct a. Qed.
Lemma when_none b e : when b e = None -> b = false.
Proof. by destruct b. Qed.

Lemma validate_module_inv m :
  validate_module m = None ->
  Forall (fun im => import_ok m im = None) (m_imports m) /\ zlen (m_imports m) = m_imported m
  /\ zlen (m_function_types m) = zlen (m_bodies m) /\ Forall (fun e => export_ok m e = None) (m_exports m).
Proof.
  unfold validate_module. intros H.
  apply orelse_none in H as [_ H]. apply orelse_none in H as [H1 H]. apply orelse_none in H as [H2 H].
  apply orelse_none in H as [H3 H]. apply orelse_none in H as [_ H]. apply orelse_none in H as [_ H]. apply orelse_none in H as [H4 _].
  apply first_failure_none in H1, H4. apply when_none in H2, H3. split_and!; [done|lia|lia|done].
Qed.

Lemma with_types_raw types l : Forall fresh_body l -> Forall fresh_body (with_types types l).
Proof.
  intros H. revert types. induction H as [|b l Hb H IH]; intros [|t types]; cbn [with_types zip_with]; constructor; [done|by apply IH].
Qed.

Lemma raw_start : raw empty_module.
Proof. by split. Qed.

(** A module that was accepted. *)
Lemma decode_impl_inv blob m :
  decode_impl blob = Ok m -> exists m1 l, raw m1 /\ validate_bodies m1 0 (m_bodies m1) = Ok l
    /\ m = set_bodies (m_branch_targets m1) l m1 /\ validate_module m = None.
Proof.
  unfold decode_impl. destruct (_ <? 8); [done|]. destruct (negb _); [done|].
  destruct (sections (Z.to_nat kMaxSections) 0 (empty_module, None) (drop 8 blob)) as [[[m0 dc]|e|] s'] eqn:Hs; [|done..].
  apply sections_raw in Hs as [R1 R2 R3 R4]; [|apply raw_start]. cbn [fst] in *.
  destruct (negb _); [done|]. destruct (match dc with Some _ => _ | None => _ end); [done|].
  destruct (negb _); [done|]. destruct (negb _); [done|].
  set (m1 := set_bodies (m_branch_targets m0) (with_types (m_function_types m0) (m_bodies m0)) m0).
  destruct (validate_bodies m1 0 (m_bodies m1)) as [l|e|] eqn:Hb; [|done..].
  destruct (validate_module _) eqn:Hm; [done|]. injection 1 as <-. exists m1, l. split_and!; try done.
  split; try done. by apply with_types_raw.
Qed.

Lemma decode_accepted blob m :
  decode_impl blob = Ok m -> accepted m /\ Forall (fun e => in_u32 (ex_index e)) (m_exports m).
Proof.
  intros H. destruct (decode_impl_inv _ _ H) as (m1 & l & [R1 R2 R3 R4] & Hb & -> & Hm).
  destruct (validate_bodies_inv _ _ _ _ Hb) as [Hlen Hn]. destruct (validate_module_inv _ Hm) as (M1 & M2 & M3 & M4).
  assert (zlen l = zlen (m_bodies m1)) as Hz by (unfold zlen; lia). split; [|done]. split; try done.
  - eapply Forall_impl; [apply Forall_and; split; [exact M1|exact R1]|]. intros im [K1 K2]. cbn in K1.
    unfold import_ok in K1. destruct (im_kind im =? 0) eqn:Ek; [|done]. cbn [negb] in K1. destruct (_ <? _) eqn:Et in K1; [|done].
    split; [lia|]. cbn. destruct (at_lt (m_types m1) (im_type_index im)) as [x Hx]; [unfold in_u32 in K2; cbn in Et; lia|]. eauto.
  - intros n b' Hb'. destruct (Hn n b' Hb') as (b & Hb0 & Hvb). rewrite Forall_lookup in R4. destruct (R4 _ _ Hb0) as [F1 F2].
    destruct (validate_body_inv _ _ _ _ Hvb) as (ty & locs & ops & targets & depth & V1 & V2 & V3 & V4 & V5 & ->).
    exists ty, locs, ops, targets, depth. rewrite validate_ext, set_bodies_type by done. done.
Qed.

(** ** A session before it runs *)

Section ready.
Context {T : Type} `{!Host T} `{!NaNs} `{!HostOk T}.

(** The limits of a session are unsigned. *)
Definition config_ok (c : RuntimeConfig) : Prop := 0 <= max_values c /\ 0 <= max_labels c.

Record ready (m : ModuleData) (r : R T) : Prop := mkReady {
  rd_evolved : evolved m (r_module r);
  rd_config : config_ok (r_config r);
  rd_globals : zlen (r_globals r) = zlen (m_globals m);
  rd_imports : zlen (r_imports r) = zlen (m_imports m);
  rd_table : Forall (fun x => 0 <= x < 2 ^ 32) (r_table r)
}.

Lemma place_elements_range n es table t :
  Forall (fun e => Forall (fun f => 0 <= f < 2 ^ 32) (el_functions e)) es -> Forall (fun x => 0 <= x < 2 ^ 32) table ->
  place_elements n es table = Ok t -> Forall (fun x => 0 <= x < 2 ^ 32) t.
Proof.
  intros HF. revert table. induction HF as [|e es He HF IH]; intros table Ht HH; cbn [place_elements] in HH; [by injection HH as <-|].
  repeat (case_match; try discriminate HH). eapply IH; [|exact HH]. by apply Forall_splice.
Qed.

Lemma build_table_ready m r r' :
  accepted m -> ready m r -> r_module r = m -> build_table r = (Ok tt, r') -> ready m r' /\ r_module r' = m.
Proof.
  intros Hac [R1 R2 R3 R4 R5] Hm HH. unfold build_table in HH. minv1 HH. rewrite Hm in HH. destruct (m_table m) as [d|].
  - minv HH. injection Hm0 as Hp <-. unfold modifyS in HH. injection HH as <-. split; [|done]. split; try done.
    cbn. eapply place_elements_range; [apply (ac_elements _ Hac)| |exact Hp]. apply Forall_replicate. by unfold UINT32_MAX.
  - injection HH as <-. by split.
Qed.

Lemma build_memory_ready m r r' : ready m r -> build_memory r = (Ok tt, r') -> ready m r'.
Proof.
  intros [R1 R2 R3 R4 R5] HH. unfold build_memory in HH. minv1 HH. destruct (m_memory (r_module r)) as [d|]; [|by injection HH as <-].
  minv1 HH; [discriminate|]. destruct (h_alloc _ _) as [ok t]. minv HH. unfold putS in Hm. injection Hm as _ <-.
  injection Hm0 as Hp <-. unfold modifyS in HH. by injection HH as <-.
Qed.

Lemma config_effective c : config_ok c -> config_ok (effective_config c).
Proof. intros [H1 H2]. unfold config_ok, effective_config, or_default. cbn. repeat case_match; lia. Qed.

Lemma instantiate_ready m c mm r0 r :
  accepted m -> config_ok c -> instantiate m c mm r0 = (Ok tt, r) -> ready m r.
Proof.
  intros Hac Hc HH. unfold instantiate in HH. minv HH. unfold modifyS in HH. injection HH as <-. destruct x, x0.
  set (r1 := with_globals _ _) in Hm.
  assert (ready m r1) as HR1.
  { split; cbn; [apply evolved_start|by apply config_effective| | |by constructor].
    - unfold zlen. by rewrite length_fmap.
    - unfold zlen. by rewrite length_replicate. }
  destruct (build_table_ready m r1 w Hac HR1 eq_refl Hm) as [HR2 _]. pose proof (build_memory_ready m w w0 HR2 Hm0) as [R1 R2 R3 R4 R5]. by split.
Qed.

Lemma bind_ready m md field expected binding r r' :
  accepted m -> ready m r -> bind_import_typed md field expected binding r = (Ok tt, r') -> ready m r'.
Proof.
  intros Hac [R1 R2 R3 R4 R5] HH. unfold bind_import_typed in HH. minv HH. injection Hm as _ <-. unfold putS in HH. injection HH as <-.
  split; try done. cbn. destruct R1 as (l & -> & _). unfold zlen in *. rewrite length_zip_with. cbn. lia.
Qed.

(** ** Starting a function *)

Lemma begin_invoke_inv m name args capacity r o r' :
  accepted m -> Forall (fun e => in_u32 (ex_index e)) (m_exports m) -> ready m r -> zlen args <= max_values (r_config r) ->
  begin_invoke name args capacity r = (o, r') ->
  match o with Ok _ => inv m (r_imports r) capacity r' | Err _ => True | Panic => False end.
Proof.
  intros Hac Hex [R1 R2 R3 R4 R5] Hargs. unfold begin_invoke. rewrite bind_getS. case_match; [by injection 1 as <- <-|].
  assert (m_exports (r_module r) = m_exports m) as Em by (destruct R1 as (l & -> & _); done).
  unfold find_function. rewrite Em. destruct (List.find _ (m_exports m)) as [e|] eqn:Ef; cbn [fmap option_fmap option_map]; [|by injection 1 as <- <-].
  apply List.find_some in Ef as [Hin _]. apply list_elem_of_In in Hin. rewrite Forall_forall in Hex. specialize (Hex _ Hin). set (idx := ex_index e) in *.
  rewrite (evolved_type m) by done. destruct (function_type m idx) as [ty|] eqn:Hty; [|by injection 1 as <- <-].
  case_match eqn:Hchk; [by injection 1 as <- <-|]. rewrite (proj2 (Z.ltb_ge _ _)) by done.
  apply orb_false_iff in Hchk as [Hlen Hcap]. apply Z.ltb_ge in Hcap. apply negb_false_iff, Z.eqb_eq in Hlen.
  set (r1 := on_flags _ (with_capacity _ _)). rewrite (bind_ok _ _ _ tt r1) by done.
  destruct (Z.lt_ge_cases idx (m_imported m)) as [Hi|Hi].
  - assert (enter_frame idx r1 = (Ok Status.TypeMismatch, r1)) as E.
    { unfold enter_frame. rewrite bind_getS. unfold function_body, body_for. change (r_module r1) with (r_module r).
      rewrite (evolved_type m), Hty by done. destruct R1 as (l & -> & _). cbn [set_bodies m_imported].
      by rewrite (proj2 (Z.ltb_lt _ _)). }
    rewrite (bind_ok _ _ _ _ _ E). by injection 1 as <- <-.
  - destruct (enter_frame_spec m Hac r1 idx ty) as (m' & b & ops & d & Hev' & Hk & HC & Hcase); try done.
    { by destruct Hex. }
    { cbn. unfold zlen in *. rewrite length_rev. lia. }
    { cbn. apply R2. }
    destruct Hcase as [[E _]|[E Hmax]]; rewrite (bind_ok _ _ _ _ _ E); [by injection 1 as <- <-|].
    rewrite bool_decide_eq_true_2 by done. injection 1 as <- <-.
    destruct (enter_normal m m' idx ty b ops d (r_config r1) r1 HC) as [HF HN]; [cbn; unfold zlen in *; rewrite length_rev; lia|done|].
    split; [split; try done; apply R2|]. eexists _, _, [], [], ty, b, ops, d. split_and!; try done; [by left|constructor]. cbn. unfold zlen in *. rewrite length_rev. lia.
Qed.
End ready.

(** * Pausing and resuming a session

    The timer asks a session to yield between two rounds of the interpreter's
    loop, and the kernel resumes it later.  A session with such pauses against
    the same session without them. *)

Section pause.
Context {T : Type} `{!Host T} `{!NaNs}.

Abbreviation RM A := (M (R T) RunStatus.t A).

(** ** Where a yield comes from *)

(** [x] gives a value with [P], and does not return with [Yield]. *)
Definition gives {A} (P : A -> Prop) (x : RM A) : Prop :=
  forall r, match (x r).1 with Ok a => P a | Err e => e <> RunStatus.Yield | Panic => True end.

Lemma gives_bind {A B} (P : A -> Prop) (Q : B -> Prop) (x : RM A) (f : A -> RM B) :
  gives P x -> (forall a, P a -> gives Q (f a)) -> gives Q (x ≫= f).
Proof. intros H1 H2 r. unfold mbind, M_bind. specialize (H1 r). destruct (x r) as [[a|e|] r']; [apply (H2 a H1)|done..]. Qed.
Lemma gives_ret {A} (P : A -> Prop) (a : A) : P a -> gives P (mret a).
Proof. by intros H1 r. Qed.
Lemma gives_throw {A} (P : A -> Prop) e : e <> RunStatus.Yield -> gives (A := A) P (throw e).
Proof. by intros H1 r. Qed.
Lemma gives_panic {A} (P : A -> Prop) : gives (A := A) P panic.
Proof. by intros r. Qed.
Lemma gives_get : gives (fun _ => True) getS.
Proof. by intros r. Qed.
Lemma gives_put r : gives (fun _ => True) (putS r).
Proof. by intros ?. Qed.
Lemma gives_modify g : gives (fun _ => True) (modifyS g).
Proof. by intros r. Qed.

Create HintDb gives discriminated.
Hint Resolve gives_get gives_put gives_modify gives_panic : gives.

(** Walks through a computation, a case and a bind at a time. *)
Ltac gives_walk :=
  repeat first
    [ solve [eauto with gives]
    | apply gives_ret; done
    | apply gives_throw; done
    | eapply gives_bind; [solve [eauto with gives]|intros ? _]
    | case_match ].

Lemma gives_trap {A} st : gives (A := A) (fun _ => True) (trap st).
Proof. unfold trap. gives_walk. Qed.
Lemma gives_pop : gives (fun _ => True) pop_value.
Proof. unfold pop_value. gives_walk. Qed.
Lemma gives_push x : gives (fun _ => True) (push_value x).
Proof. unfold push_value. gives_walk. Qed.
Lemma gives_read n : gives (fun _ => True) (read_slot n).
Proof. unfold read_slot. gives_walk. Qed.
Lemma gives_write n x : gives (fun _ => True) (write_slot n x).
Proof. unfold write_slot. gives_walk. Qed.
Lemma gives_enter idx : gives (fun _ => True) (enter_frame idx).
Proof. unfold enter_frame. gives_walk. Qed.
Lemma gives_branch depth : gives (fun _ => True) (branch_to depth).
Proof. unfold branch_to. gives_walk. Qed.
Lemma gives_label i pc : gives (fun _ => True) (push_label i pc).
Proof. unfold push_label. gives_walk. Qed.
Hint Resolve gives_trap gives_pop gives_push gives_read gives_write gives_enter gives_branch gives_label : gives.

Lemma gives_finish : gives (fun st => st <> RunStatus.Yield) finish_function.
Proof. unfold finish_function, return_from_function. gives_walk. Qed.
Lemma gives_leave : gives (fun _ => True) leave_function.
Proof. eapply gives_bind; [apply gives_finish|]. intros st Hst. eapply gives_bind; [apply gives_get|intros r _]. case_match; [by apply gives_throw|by apply gives_ret]. Qed.
Hint Resolve gives_leave : gives.

Lemma gives_import `{!HostOk T} idx : gives (fun st => st <> RunStatus.Yield) (execute_import idx).
Proof.
  unfold execute_import, import_failed. gives_walk.
  match goal with Hs : hr_status ?x = RunStatus.Yield, Hh : h_invoke ?n ?mem ?c ?args ?k ?t = (?x, _) |- _ =>
    destruct (host_yields n mem c args k t); by rewrite Hh end.
Qed.

Lemma gives_call `{!HostOk T} idx : gives (fun _ => True) (call_function idx).
Proof.
  eapply gives_bind; [apply gives_get|intros r _]. case_match; [|gives_walk].
  eapply gives_bind; [apply gives_import|]. intros st Hst. case_match; [by apply gives_ret|by apply gives_throw].
Qed.
Hint Resolve gives_call : gives.

Lemma gives_execute `{!HostOk T} i f body : gives (fun _ => True) (execute i f body).
Proof.
  unfold execute. case_match; solve [unfold run_if, run_else, run_end, run_br_if, run_br_table, run_select, run_local_get, run_global_get,
    run_global_set, run_memory_grow, run_load, run_store, run_memory_copy, run_memory_fill, run_unary, run_binary, num, run_call_indirect; gives_walk].
Qed.

(** A round yields only because it was asked to, and then does nothing. *)
Lemma step1_yield `{!HostOk T} r r' :
  step1 r = (Err RunStatus.Yield, r') -> running (r_flags r) = true /\ preempt_pending (r_flags r) = true /\ r' = on_flags (set_preempt false) r.
Proof.
  unfold step1. rewrite bind_getS. destruct (running (r_flags r)); [|done]. destruct (preempt_pending (r_flags r)); [by intros [= <-]|].
  assert (forall A (x : RM A), gives (fun _ => True) x -> x r <> (Err RunStatus.Yield, r')) as Hg.
  { intros A x Hx E. specialize (Hx r). by rewrite E in Hx. }
  cbn [negb]. case_match.
  - intros E. exfalso. revert E. apply Hg. eapply gives_bind; [apply gives_finish|]. intros. by apply gives_throw.
  - intros E. exfalso. revert E. apply Hg. gives_walk. apply gives_execute.
Qed.

(** ** Rounds with and without pauses *)

(** The session under a schedule: before each round the timer may ask for a
    pause, and a session that pauses is resumed with room for [capacity]
    results.  The first number counts the rounds that ran. *)
Fixpoint timed (capacity : Z) (schedule : list bool) (r : R T) : nat * outcome RunStatus.t unit * R T :=
  match schedule with
  | [] => (O, Ok tt, r)
  | tick :: schedule =>
      match step1 (if tick then request_preempt r else r) with
      | (Ok _, r') => let '(n, o, r'') := timed capacity schedule r' in (S n, o, r'')
      | (Err RunStatus.Yield, r') =>
          match begin_resume capacity r' with
          | (Ok _, r'') => timed capacity schedule r''
          | (o, r'') => (O, o, r'')
          end
      | (o, r') => (1%nat, o, r')
      end
  end.

(** The session on a machine where nobody asks. *)
Definition unasked (r : R T) : R T := on_flags (set_preempt false) r.
Fixpoint uninterrupted (n : nat) (r : R T) : outcome RunStatus.t unit * R T :=
  match n with
  | O => (Ok tt, r)
  | S n =>
      match step1 (unasked r) with
      | (Ok _, r') => uninterrupted n r'
      | x => x
      end
  end.

Definition requests (schedule : list bool) : nat := length (List.filter id schedule).
Definition pending (r : R T) : nat := if preempt_pending (r_flags r) then 1 else 0.

Lemma unasked_not_pending r : preempt_pending (r_flags r) = false -> unasked r = r.
Proof. destruct r as [? ? ? ? ? ? ? ? [] ? ? ? ?]. cbn. by intros ->. Qed.
Lemma unasked_twice r : unasked (unasked r) = unasked r.
Proof. done. Qed.
Lemma unasked_request (b : bool) r : unasked (if b then request_preempt r else r) = unasked r.
Proof. destruct b; [|done]. unfold request_preempt. by destruct (running _). Qed.

Lemma uninterrupted_unasked n r r' :
  unasked r = unasked r' -> (uninterrupted n r).1 = (uninterrupted n r').1 /\ unasked (uninterrupted n r).2 = unasked (uninterrupted n r').2.
Proof. intros E. destruct n as [|n]; [done|]. cbn. by rewrite E. Qed.

Lemma step1_unasked r o r' :
  step1 r = (o, r') -> o <> Err RunStatus.Yield -> exists r2, step1 (unasked r) = (o, r2) /\ unasked r2 = unasked r'.
Proof.
  intros Hs Hny. destruct (preempt_pending (r_flags r)) eqn:Hp; [|rewrite unasked_not_pending by done; eauto].
  unfold step1 in *. rewrite bind_getS in *. cbn [r_flags unasked on_flags]. cbn. rewrite Hp in Hs.
  destruct (running (r_flags r)); injection Hs as <- <-; [done|]. by exists (unasked r).
Qed.
End pause.

(** ** Pauses change nothing *)

Section invariant.
Context {T : Type} `{!Host T} `{!NaNs} `{!HostOk T}.
Variable m : ModuleData.
Hypothesis Hac : accepted m.
Variables (imps : list (option Z)) (cap : Z).
Hypothesis Hall : all_bound m imps.
Implicit Type r : R T.

Lemma inv_request (b : bool) r : inv m imps cap r -> inv m imps cap (if b then request_preempt r else r).
Proof. intros HI. destruct b; [|done]. unfold request_preempt. case_match; [|done]. eapply inv_quiet, HI; [by split|done]. Qed.

Lemma inv_step1 r r' : inv m imps cap r -> step1 r = (Ok tt, r') -> inv m imps cap r'.
Proof using Hac Hall HostOk0. intros HI Hs. pose proof (step1_safe m Hac imps cap Hall r HI) as K. by rewrite Hs in K. Qed.

Lemma inv_yield r r' :
  inv m imps cap r -> step1 r = (Err RunStatus.Yield, r') -> inv m imps cap r' /\ begin_resume cap r' = (Ok tt, r').
Proof using Hac Hall HostOk0.
  intros HI Hs. pose proof (step1_safe m Hac imps cap Hall r HI) as K. rewrite Hs in K. split; [done|].
  destruct (step1_yield _ _ Hs) as (Hr & _ & ->). destruct K as [K _]. pose proof (s_capacity _ _ _ _ K) as Hc. cbn in Hc.
  unfold begin_resume. rewrite bind_getS. cbn. rewrite Hr. cbn. unfold putS, with_capacity. cbn. rewrite <- Hc. by destruct r.
Qed.

Lemma timed_uninterrupted schedule r n o r' :
  inv m imps cap r -> timed cap schedule r = (n, o, r') ->
  (uninterrupted n r).1 = o /\ unasked (uninterrupted n r).2 = unasked r'
  /\ (o = Ok tt -> (length schedule <= 2 * n + requests schedule + pending r)%nat).
Proof using Hac Hall HostOk0.
  revert r n o r'. induction schedule as [|tick schedule IH]; intros r n o r' HI; cbn [timed].
  { intros [= <- <- <-]. cbn. auto with lia. }
  pose proof (inv_request tick r HI) as HI1. pose proof (unasked_request tick r) as Eq. set (r1 := if tick then request_preempt r else r) in *.
  destruct (step1 r1) as [o1 r2] eqn:Hs.
  assert (o1 = Err RunStatus.Yield \/ o1 <> Err RunStatus.Yield) as [->|Hny] by (destruct o1 as [|[]|]; auto).
  - destruct (inv_yield _ _ HI1 Hs) as [HI2 ->]. destruct (step1_yield _ _ Hs) as (_ & Hp & ->). intros Ht.
    destruct (IH _ _ _ _ HI2 Ht) as (E1 & E2 & E3). destruct (uninterrupted_unasked n r (on_flags (set_preempt false) r1)) as [-> ->]; [done|].
    split_and!; [done..|]. intros Ho. specialize (E3 Ho). unfold pending, requests in *. destruct tick; cbn in *; [lia|]. subst r1. rewrite Hp. lia.
  - destruct (step1_unasked _ _ _ Hs Hny) as (r3 & Hs3 & E3). rewrite Eq in Hs3.
    destruct o1 as [[]|e|].
    + destruct (timed cap schedule r2) as [[n2 o2] r4] eqn:Ht. intros [= <- <- <-]. cbn [uninterrupted]. rewrite Hs3.
      destruct (uninterrupted_unasked n2 r3 r2 E3) as [-> ->]. destruct (IH _ _ _ _ (inv_step1 _ _ HI1 Hs) Ht) as (E1 & E2 & E4).
      split_and!; [done..|]. intros Ho. specialize (E4 Ho). unfold pending in *. unfold requests in *. cbn. destruct tick; cbn; case_match; lia.
    + destruct e; try done; intros [= <- <- <-]; cbn [uninterrupted]; rewrite Hs3; done.
    + intros [= <- <- <-]; cbn [uninterrupted]; rewrite Hs3; done.
Qed.
End invariant.
