(* ===== verification/WasmTheorems.v ===== *)
(** * WasmTheorems: what the engine guarantees

    Validated code runs without faults, pauses do not change what it computes,
    and the decoder, the integer operations and the linear memory do what the
    format asks; the conversions that do not are shown too.

    First the bits: shifts, rotations and counts of [WasmNum] by the bits of their results. *)

From Stdlib Require Import SpecFloat.
From S2P Require Import Prelude WasmNum WasmDecode WasmModule WasmRun WasmWalk WasmLower WasmPlain WasmSafe.
From S2P Require Import WasmAccept BlockDev Frame.

(** ** Bits *)

Lemma lor_shift res x k : 0 <= k -> 0 <= res < 2 ^ k -> Z.lor res (Z.shiftl x k) = res + x * 2 ^ k.
Proof.
  intros Hk Hr. rewrite Z.shiftl_mul_pow2, <- Z.add_lor_land by done.
  assert (Z.land res (x * 2 ^ k) = 0) as ->; [|lia]. rewrite <- Z.shiftl_mul_pow2 by done. apply Z.bits_inj'. intros i Hi.
  rewrite Z.land_spec, Z.bits_0. destruct (Z.ltb_spec i k).
  - rewrite Z.shiftl_spec_low by done. apply andb_false_r.
  - rewrite (proj1 (Z.bounded_iff_bits_nonneg' k res ltac:(lia) ltac:(lia))) by lia. done.
Qed.

Lemma swrap_small w z : 1 <= w -> - 2 ^ (w - 1) <= z < 2 ^ (w - 1) -> swrap w z = z.
Proof.
  intros Hw Hz. unfold swrap. assert (2 ^ w = 2 * 2 ^ (w - 1)) as E by (rewrite <- Z.pow_succ_r by lia; f_equal; lia).
  rewrite Z.mod_small by lia. lia.
Qed.
Lemma swrap_add w z k : 0 <= w -> swrap w (z + k * 2 ^ w) = swrap w z.
Proof.
  intros Hw. unfold swrap. f_equal. replace (z + k * 2 ^ w + 2 ^ (w - 1)) with (z + 2 ^ (w - 1) + k * 2 ^ w) by lia. apply Z.mod_add.
  pose proof (Z.pow_pos_nonneg 2 w). lia.
Qed.

Lemma top_bit w v : 1 <= w -> 0 <= v < 2 ^ w -> Z.testbit v (w - 1) = (2 ^ (w - 1) <=? v).
Proof.
  intros Hw Hv. apply eq_true_iff_eq. rewrite Z.testbit_true, Z.leb_le by lia.
  assert (2 ^ w = 2 * 2 ^ (w - 1)) as E by (rewrite <- Z.pow_succ_r by lia; f_equal; lia).
  pose proof (Z.pow_pos_nonneg 2 (w - 1) ltac:(lia) ltac:(lia)) as Hp. set (h := 2 ^ (w - 1)) in *.
  pose proof (Z.div_mod v h ltac:(lia)). pose proof (Z.mod_pos_bound v h Hp).
  destruct (Z.leb_spec h v); [assert (v / h = 1) as -> by nia|assert (v / h = 0) as -> by nia]; cbn; split; (done || lia).
Qed.

(** Narrowing a number, by its sign bit. *)
Lemma swrap_sign w z : 1 <= w -> swrap w z = z mod 2 ^ w + (if Z.testbit z (w - 1) then -1 else 0) * 2 ^ w.
Proof.
  intros Hw. assert (2 ^ w = 2 * 2 ^ (w - 1)) as E by (rewrite <- Z.pow_succ_r by lia; f_equal; lia).
  pose proof (Z.pow_pos_nonneg 2 (w - 1) ltac:(lia) ltac:(lia)) as Hp. set (h := 2 ^ (w - 1)) in *.
  pose proof (Z.mod_pos_bound z (2 ^ w) ltac:(lia)) as Hm. rewrite <- (Z.mod_pow2_bits_low z w (w - 1)) by lia.
  unfold swrap. fold h. rewrite <- Z.add_mod_idemp_l by lia. set (m := z mod 2 ^ w) in *.
  assert (Z.testbit m (w - 1) = (h <=? m)) as -> by (apply top_bit; lia).
  destruct (Z.leb_spec h m).
  - replace (m + h) with (m - h + 1 * 2 ^ w) by lia. rewrite Z.mod_add, Z.mod_small by lia. lia.
  - rewrite Z.mod_small by lia. lia.
Qed.
Lemma swrap_bits w z i : 1 <= w -> 0 <= i -> Z.testbit (swrap w z) i = Z.testbit z (Z.min i (w - 1)).
Proof.
  intros Hw Hi. pose proof (Z.mod_pos_bound z (2 ^ w) ltac:(lia)). rewrite swrap_sign, <- lor_shift by lia. rewrite Z.lor_spec.
  destruct (Z.ltb_spec i w) as [Hlt|Hge].
  - rewrite Z.mod_pow2_bits_low, Z.shiftl_spec_low, orb_false_r, Z.min_l by lia. done.
  - rewrite Z.mod_pow2_bits_high, Z.shiftl_spec, Z.min_r by lia. cbn [orb]. destruct (Z.testbit z (w - 1)); [apply Z.bits_m1|apply Z.bits_0]; lia.
Qed.
Lemma swrap_lor w a b : 1 <= w -> swrap w (Z.lor a b) = Z.lor (swrap w a) (swrap w b).
Proof. intros Hw. apply Z.bits_inj'. intros i Hi. by rewrite Z.lor_spec, !swrap_bits, Z.lor_spec by lia. Qed.


Lemma land_pow2 v k : 0 <= k -> (Z.land v (2 ^ k) =? 0) = negb (Z.testbit v k).
Proof.
  intros Hk. destruct (Z.testbit v k) eqn:E; cbn.
  - apply Z.eqb_neq. intros E0. apply (f_equal (fun x => Z.testbit x k)) in E0. rewrite Z.land_spec, E, Z.pow2_bits_true, Z.bits_0 in E0; done.
  - apply Z.eqb_eq, Z.bits_inj'. intros i Hi. rewrite Z.land_spec, Z.bits_0, Z.pow2_bits_eqb by done.
    destruct (Z.eqb_spec k i) as [<-|]; [by rewrite E|apply andb_false_r].
Qed.
Lemma bits_above w v i : 0 <= v < 2 ^ w -> w <= i -> 0 <= w -> Z.testbit v i = false.
Proof. intros Hv Hi Hw. apply (proj1 (Z.bounded_iff_bits_nonneg' w v ltac:(lia) ltac:(lia))); lia. Qed.

(** ** Counting *)

Lemma clz_loop_spec n w v c :
  1 <= w -> 0 < v < 2 ^ w -> w - 1 - Z.log2 v <= Z.of_nat n -> clz_loop n w v c = c + (w - 1 - Z.log2 v).
Proof.
  intros Hw. revert v c. induction n as [|n IH]; intros v c Hv Hn; cbn [clz_loop].
  - assert (Z.log2 v < w) by (apply Z.log2_lt_pow2; lia). lia.
  - rewrite land_pow2, top_bit by lia. assert (2 ^ w = 2 * 2 ^ (w - 1)) as E by (rewrite <- Z.pow_succ_r by lia; f_equal; lia).
    destruct (Z.leb_spec (2 ^ (w - 1)) v) as [Hle|Hlt]; cbn [negb].
    + assert (w - 1 <= Z.log2 v) by (apply Z.log2_le_pow2; lia). assert (Z.log2 v < w) by (apply Z.log2_lt_pow2; lia). lia.
    + rewrite Z.shiftl_mul_pow2, Z.mod_small by lia. change (2 ^ 1) with 2. assert (Z.log2 (v * 2) = Z.log2 v + 1) as El.
      { change 2 with (2 ^ 1). rewrite Z.log2_mul_pow2 by lia. lia. }
      rewrite IH by lia. lia.
Qed.

(** The lowest bit that is set. *)
Definition lowest (v t : Z) : Prop := 0 <= t /\ Z.testbit v t = true /\ forall i, 0 <= i < t -> Z.testbit v i = false.

Lemma even_bits v i : 0 < i -> Z.testbit v i = Z.testbit (Z.shiftr v 1) (i - 1).
Proof. intros Hi. rewrite Z.shiftr_spec by lia. f_equal. lia. Qed.
Lemma land_1 v : (Z.land v 1 =? 0) = negb (Z.testbit v 0).
Proof. apply (land_pow2 v 0). lia. Qed.

Lemma ctz_loop_spec n v c : 0 < v < 2 ^ Z.of_nat n -> exists t, ctz_loop n v c = c + t /\ lowest v t.
Proof.
  revert v c. induction n as [|n IH]; intros v c Hv; [cbn in Hv; lia|]. cbn [ctz_loop]. rewrite land_1. destruct (Z.testbit v 0) eqn:E0; cbn [negb].
  - exists 0. split; [lia|]. split_and!; [lia|done|lia].
  - assert (v mod 2 = 0) as Hm by (by rewrite <- Z.bit0_mod, E0). pose proof (Z.div_mod v 2 ltac:(lia)).
    assert (Z.shiftr v 1 = v / 2) as Es by (by rewrite Z.shiftr_div_pow2).
    destruct (IH (Z.shiftr v 1) (c + 1)) as (t & -> & T1 & T2 & T3).
    { rewrite Nat2Z.inj_succ, Z.pow_succ_r in Hv by lia. lia. }
    exists (t + 1). split; [lia|]. split_and!; [lia| |].
    + rewrite even_bits by lia. rewrite <- T2. f_equal. lia.
    + intros i Hi. destruct (decide (i = 0)) as [->|]; [done|]. rewrite even_bits by lia. apply T3. lia.
Qed.

(** The number of bits that are set below [n]. *)
Definition set_bits (n : nat) (v : Z) : Z := zlen (List.filter (Z.testbit v) (Z.of_nat <$> seq 0 n)).

Lemma set_bits_S n v : set_bits (S n) v = Z.b2z (Z.testbit v 0) + set_bits n (Z.shiftr v 1).
Proof.
  unfold set_bits. cbn [seq fmap list_fmap List.filter]. change (Z.of_nat 0) with 0.
  assert (zlen (List.filter (Z.testbit v) (Z.of_nat <$> seq 1 n)) = zlen (List.filter (Z.testbit (Z.shiftr v 1)) (Z.of_nat <$> seq 0 n))) as E.
  { rewrite <- fmap_S_seq. generalize (seq 0 n). intros l. induction l as [|k l IH]; [done|]. cbn [fmap list_fmap List.filter].
    rewrite even_bits by lia. replace (Z.of_nat (S k) - 1) with (Z.of_nat k) by lia. destruct (Z.testbit _ _); rewrite ?zlen_cons; by rewrite IH. }
  destruct (Z.testbit v 0); cbn [Z.b2z]; rewrite ?zlen_cons, E; lia.
Qed.
Lemma popcnt_loop_spec n v c : 0 <= v < 2 ^ Z.of_nat n -> popcnt_loop n v c = c + set_bits n v.
Proof.
  revert v c. induction n as [|n IH]; intros v c Hv; [by rewrite Z.add_0_r|]. cbn [popcnt_loop]. destruct (Z.eqb_spec v 0) as [->|Hne].
  - assert (forall k, set_bits k 0 = 0) as ->; [|lia]. intros k. unfold set_bits. induction (Z.of_nat <$> seq 0 k) as [|x l IHl]; [done|].
    cbn [List.filter]. by rewrite Z.bits_0.
  - rewrite IH, set_bits_S.
    + rewrite Z.bit0_mod. change (Z.land v 1) with (Z.land v (Z.ones 1)). rewrite Z.land_ones by lia. change (2 ^ 1) with 2. lia.
    + rewrite Z.shiftr_div_pow2 by lia. rewrite Nat2Z.inj_succ, Z.pow_succ_r in Hv by lia. change (2 ^ 1) with 2.
      split; [apply Z.div_pos; lia|apply Z.div_lt_upper_bound; lia].
Qed.

(** ** Moving bits *)

Lemma rotate_left_bits w v c i :
  0 <= v < 2 ^ w -> 0 <= i < w -> Z.land c (w - 1) = c mod w ->
  Z.testbit (rotate_left w v c) i = Z.testbit v ((i - c) mod w).
Proof.
  intros Hv Hi Hc. unfold rotate_left. rewrite Hc. pose proof (Z.mod_pos_bound c w ltac:(lia)) as Hm.
  assert ((i - c) mod w = (i - c mod w) mod w) as -> by (by rewrite Zminus_mod_idemp_r). set (k := c mod w) in *.
  destruct (Z.eqb_spec k 0) as [->|Hk]; [by rewrite Z.sub_0_r, Z.mod_small|].
  rewrite Z.lor_spec, Z.mod_pow2_bits_low, Z.shiftl_spec, Z.shiftr_spec by lia. destruct (Z.ltb_spec i k).
  - rewrite Z.testbit_neg_r by lia. cbn [orb]. f_equal. rewrite <- (Z.mod_add _ 1) by lia. rewrite Z.mod_small; lia.
  - rewrite (bits_above w v (i + (w - k))), orb_false_r, Z.mod_small by lia. done.
Qed.
Lemma rotate_right_bits w v c i :
  0 <= v < 2 ^ w -> 0 <= i < w -> Z.land c (w - 1) = c mod w ->
  Z.testbit (rotate_right w v c) i = Z.testbit v ((i + c) mod w).
Proof.
  intros Hv Hi Hc. unfold rotate_right. rewrite Hc. pose proof (Z.mod_pos_bound c w ltac:(lia)) as Hm.
  rewrite <- Zplus_mod_idemp_r. set (k := c mod w) in *.
  destruct (Z.eqb_spec k 0) as [->|Hk]; [by rewrite Z.add_0_r, Z.mod_small|].
  rewrite Z.lor_spec, Z.mod_pow2_bits_low, Z.shiftl_spec, Z.shiftr_spec by lia. destruct (Z.ltb_spec i (w - k)).
  - rewrite (Z.testbit_neg_r v (i - (w - k))), orb_false_r, Z.mod_small by lia. done.
  - rewrite (bits_above w v (i + k)) by lia. cbn [orb]. f_equal. rewrite <- (Z.mod_add _ (-1)) by lia. rewrite Z.mod_small; lia.
Qed.

Lemma shift_right_value w v c (arithmetic : bool) :
  1 <= w -> 0 <= v < 2 ^ w -> Z.land c (w - 1) = c mod w ->
  shift_right w v c arithmetic = Z.shiftr (if arithmetic then swrap w v else v) (c mod w) mod 2 ^ w.
Proof.
  intros Hw Hv Hc. unfold shift_right. rewrite Hc. pose proof (Z.mod_pos_bound c w ltac:(lia)) as Hm. set (k := c mod w) in *.
  rewrite land_pow2 by lia. rewrite negb_involutive. apply Z.bits_inj'. intros i Hi.
  destruct (Z.ltb_spec i w) as [Hlt|Hge].
  - rewrite Z.mod_pow2_bits_low, Z.shiftr_spec by lia. destruct (Z.eqb_spec k 0) as [->|Hk].
    { rewrite Z.add_0_r. destruct arithmetic; [|done]. rewrite swrap_bits, Z.min_l by lia. done. }
    destruct arithmetic; cbn [andb]; [|by rewrite Z.shiftr_spec]. rewrite swrap_bits by lia.
    assert (Z.testbit (Z.lor (Z.shiftr v k) (Z.shiftl (2 ^ w - 1) (w - k) mod 2 ^ w)) i = Z.testbit v (i + k) || (w - k <=? i)) as Hl.
    { rewrite Z.lor_spec, Z.shiftr_spec, Z.mod_pow2_bits_low, Z.shiftl_spec by lia. f_equal. replace (2 ^ w - 1) with (Z.ones w) by (rewrite Z.ones_equiv; lia).
      destruct (Z.leb_spec (w - k) i); [apply Z.ones_spec_low; lia|apply Z.testbit_neg_r; lia]. }
    destruct (Z.ltb_spec (i + k) w).
    + rewrite Z.min_l by lia. destruct (Z.testbit v (w - 1)); [|by rewrite Z.shiftr_spec]. rewrite Hl, (proj2 (Z.leb_gt _ _)) by lia. apply orb_false_r.
    + rewrite Z.min_r by lia. destruct (Z.testbit v (w - 1)) eqn:E; [rewrite Hl, (proj2 (Z.leb_le _ _)) by lia; apply orb_true_r|].
      rewrite Z.shiftr_spec by lia. apply (bits_above w); lia.
  - rewrite Z.mod_pow2_bits_high by lia. assert (Z.testbit (Z.shiftr v k) i = false) as Hs by (rewrite Z.shiftr_spec by lia; apply (bits_above w); lia).
    destruct (k =? 0); [apply (bits_above w); lia|]. destruct (arithmetic && _); [|done].
    rewrite Z.lor_spec, Hs, Z.mod_pow2_bits_high by lia. done.
Qed.

(** ** Sessions as the kernel runs them *)

Section engine.
Context {T : Type} `{!Host T} `{!NaNs} `{!HostOk T}.

(** Binding host functions, as [bind_owned_wasi] and [bind_owned_kernel] do. *)
Inductive binds : R T -> R T -> Prop :=
  | binds_done r : binds r r
  | binds_one md field expected binding r r1 r2 :
      bind_import_typed md field expected binding r = (Ok tt, r1) -> binds r1 r2 -> binds r r2.

(** The limits [engine_init] sets. *)
Definition engine_config : RuntimeConfig := mkConfig (2 ^ 16) 2048 4096 (2 ^ 18).
Definition engine_max_memory : Z := 64 * 1024 * 1024.

(** [engine_init] and the loop of [engine_start]: the states a session passes
    through, with requests to yield at any time. *)
Inductive engine_run (blob : list byte) : R T -> Prop :=
  | run_start s0 s1 r r' :
      init blob engine_config engine_max_memory s0 = (Status.Ok, s1) -> initialized s1 = true ->
      binds (runtime s1) r -> imports_bound r = true ->
      begin_invoke (bs "_start") [] 0 r = (Ok tt, r') -> engine_run blob r'
  | run_step r r' : engine_run blob r -> step1 r = (Ok tt, r') -> engine_run blob r'
  | run_preempt r : engine_run blob r -> engine_run blob (request_preempt r)
  | run_resume r r1 r2 :
      engine_run blob r -> step1 r = (Err RunStatus.Yield, r1) -> begin_resume 0 r1 = (Ok tt, r2) -> engine_run blob r2.

Lemma binds_ready m (r r' : R T) : accepted m -> ready m r -> binds r r' -> ready m r'.
Proof. intros Hac HR Hb. revert HR. induction Hb as [|? ? ? ? ? ? ? H1 H2 IH]; intros HR; [done|]. by eapply IH, bind_ready. Qed.

Lemma engine_config_ok : config_ok engine_config.
Proof. split; cbn; lia. Qed.

Lemma imports_bound_all m (r : R T) : ready m r -> imports_bound r = true -> all_bound m (r_imports r).
Proof.
  intros HR HB. split; [apply HR|]. unfold imports_bound in HB. apply andb_true_iff in HB as [_ HB].
  rewrite forallb_forall in HB. rewrite Forall_forall. intros x Hx ->. apply list_elem_of_In in Hx. by specialize (HB _ Hx).
Qed.

Lemma engine_run_inv blob r :
  engine_run blob r -> exists m imps, decode_impl blob = Ok m /\ accepted m /\ all_bound m imps /\ inv m imps 0 r.
Proof using HostOk0.
  induction 1 as [s0 s1 r r' Hi Hin Hb Hib Hs|r r' _ (m & imps & Hd & Hac & Hall & HI) Hs|r _ (m & imps & Hd & Hac & Hall & HI)
                 |r r1 r2 _ (m & imps & Hd & Hac & Hall & HI) Hs Hr].
  - unfold init in Hi. case_match; [done|]. destruct (decode_impl blob) as [m|e|] eqn:Hd; [|by simplify_eq/=..].
    case_match; [done|]. destruct (decode_accepted _ _ Hd) as [Hac Hex].
    destruct (instantiate m engine_config engine_max_memory (runtime s0)) as [[[]|e|] r0] eqn:Hinst; simplify_eq/=.
    pose proof (binds_ready _ _ _ Hac (instantiate_ready _ _ _ _ _ Hac engine_config_ok Hinst) Hb) as HR.
    exists m, (r_imports r). split_and!; try done; [by apply imports_bound_all|].
    refine (begin_invoke_inv _ _ _ _ _ _ _ Hac Hex HR _ Hs). by destruct (rd_config _ _ HR).
  - exists m, imps. split_and!; try done. by eapply inv_step1.
  - exists m, imps. split_and!; try done. by apply (inv_request m imps 0 true).
  - exists m, imps. split_and!; try done. destruct (inv_yield m Hac imps 0 Hall _ _ HI Hs) as [HI' E]. congruence.
Qed.

(** C2: whatever bytes the kernel accepts as a program, in every state the
    session passes through the next round of the interpreter stays within its
    stacks, its labels, its locals and its module: it never reads or writes
    outside the part of an array that is in use.  The only errors it can
    report are the session's limits on frames, values and labels, or a failure
    of the host function it called; stack underflow and bad indices do not
    occur. *)
Theorem wasm_program_is_safe blob r :
  engine_run blob r ->
  exists m, decode_impl blob = Ok m /\
    match step1 r with
    | (Panic, _) => False
    | (Err RunStatus.Error, r') => limit m r r'
    | _ => True
    end.
Proof using HostOk0.
  intros Hr. destruct (engine_run_inv _ _ Hr) as (m & imps & Hd & Hac & Hall & HI). exists m. split; [done|].
  pose proof (step1_safe m Hac imps 0 Hall r HI) as K. destruct (step1 r) as [[[]|[]|] r']; done.
Qed.

(** C9: pauses are invisible to the program.  Under any schedule of requests to
    yield, a session that is resumed after each pause runs the rounds of the
    same session without any request: same outcome, same state but for the
    pending request.  And it makes progress: a schedule of [k] entries with
    [q] requests runs at least [(k - q - 1) / 2] rounds. *)
Theorem wasm_pauses_invisible blob r schedule n o r' :
  engine_run blob r -> timed 0 schedule r = (n, o, r') ->
  (uninterrupted n r).1 = o /\ unasked (uninterrupted n r).2 = unasked r'
  /\ (o = Ok tt -> (length schedule <= 2 * n + requests schedule + 1)%nat).
Proof using HostOk0.
  intros Hr Ht. destruct (engine_run_inv _ _ Hr) as (m & imps & Hd & Hac & Hall & HI).
  destruct (timed_uninterrupted m Hac imps 0 Hall _ _ _ _ _ HI Ht) as (E1 & E2 & E3). split_and!; [done..|].
  intros Ho. specialize (E3 Ho). unfold pending in E3. case_match; lia.
Qed.
End engine.

(** ** A program *)

(** Calls [k.f], which counts down, until it gives 0. *)
Module Demo.
Definition blob : list byte :=
  z2b <$> [0x00; 0x61; 0x73; 0x6d; 0x01; 0x00; 0x00; 0x00;
    0x01; 0x09; 0x02; 0x60; 0x00; 0x00; 0x60; 0x01; 0x7f; 0x01; 0x7f;
    0x02; 0x07; 0x01; 0x01; 0x6b; 0x01; 0x66; 0x00; 0x01;
    0x03; 0x02; 0x01; 0x00;
    0x07; 0x0a; 0x01; 0x06; 0x5f; 0x73; 0x74; 0x61; 0x72; 0x74; 0x00; 0x01;
    0x0a; 0x0d; 0x01; 0x0b; 0x00; 0x03; 0x40; 0x41; 0x05; 0x10; 0x00; 0x0d; 0x00; 0x0b; 0x0b;
    0x00; 0x09; 0x07; 0x61; 0x62; 0x69; 0x5f; 0x76; 0x65; 0x72; 0x02].

#[export] Instance countdown : Host nat := {
  h_alloc := fun _ t => (true, t);
  h_invoke := fun _ mem c _ k t =>
    (mkReply RunStatus.Completed (replicate k (Z.of_nat (pred t))) mem c None false, pred t)
}.
#[export] Instance countdown_ok : HostOk nat.
Proof. split; [intros; apply length_replicate|done]. Qed.
#[export] Instance quiet_nans : NaNs.
Proof. by refine {| nan32 := fun _ _ => 0x7fc00000; nan64 := fun _ _ => 0x7ff8000000000000 |}. Defined.

Definition blank : OwnedSession :=
  mkSession false (mkR empty_module (mkConfig 0 0 0 0) [] [] [] [] [] (mkMem [] 0 0)
    (mkFlags false false false false 0 Status.Ok 0 0 0) [] [] 0 3%nat).
Definition loaded : OwnedSession := (init blob engine_config engine_max_memory blank).2.
Definition bound : R nat := (bind_import_typed (bs "k") (bs "f") None 0 (runtime loaded)).2.
Definition started : R nat := (begin_invoke (bs "_start") [] 0 bound).2.

Lemma started_runs : engine_run blob started.
Proof.
  apply (run_start blob blank loaded bound).
  - by vm_compute.
  - by vm_compute.
  - apply (binds_one (bs "k") (bs "f") None 0 (runtime loaded) bound); [by vm_compute|constructor].
  - by vm_compute.
  - by vm_compute.
Qed.
End Demo.
Import (hints) Demo.

Lemma wasm_program_is_safe_witness :
  exists m, decode_impl Demo.blob = Ok m /\
    match step1 Demo.started with
    | (Panic, _) => False
    | (Err RunStatus.Error, r') => limit m Demo.started r'
    | _ => True
    end.
Proof. apply wasm_program_is_safe, Demo.started_runs. Defined.

Lemma wasm_pauses_invisible_witness :
  let schedule := [false; true; false; true; true; false; false; true; false; false] in
  (timed 0 schedule Demo.started).1.1 = 6%nat /\
  (uninterrupted 6 Demo.started).1 = Ok tt /\
  unasked (uninterrupted 6 Demo.started).2 = unasked (timed 0 schedule Demo.started).2 /\
  (Ok tt = Ok tt :> outcome RunStatus.t unit -> (length schedule <= 2 * 6 + requests schedule + 1)%nat).
Proof.
  split; [by vm_compute|]. apply (wasm_pauses_invisible Demo.blob); [apply Demo.started_runs|by vm_compute].
Defined.

(** * What the engine's memory and numbers do

    Loads after stores, growing, the lowering of blocks, and the corner cases
    of rounding and of the call depth. *)

(** ** Integers *)

Lemma width_mask w c : w = 32 \/ w = 64 -> Z.land c (w - 1) = c mod w.
Proof. intros [->| ->]; [apply (Z.land_ones c 5)|apply (Z.land_ones c 6)]; lia. Qed.

(** C29: the bit operations of both widths mean what WebAssembly says: the
    counts are the position of the highest and lowest bit set and the number of
    bits set, a rotation moves each bit by the count modulo the width, and a
    shift to the right divides the unsigned or the signed value. *)
Theorem wasm_bit_operations w v c :
  w = 32 \/ w = 64 -> 0 <= v < 2 ^ w ->
  count_leading_zeroes w v = (if v =? 0 then w else w - 1 - Z.log2 v) /\
  (if v =? 0 then count_trailing_zeroes w v = w else lowest v (count_trailing_zeroes w v)) /\
  population_count w v = set_bits (Z.to_nat w) v /\
  (forall i, 0 <= i < w ->
     Z.testbit (rotate_left w v c) i = Z.testbit v ((i - c) mod w)
     /\ Z.testbit (rotate_right w v c) i = Z.testbit v ((i + c) mod w)) /\
  (forall arithmetic : bool,
     shift_right w v c arithmetic = Z.shiftr (if arithmetic then swrap w v else v) (c mod w) mod 2 ^ w).
Proof.
  intros Hw Hv. pose proof (width_mask w c Hw) as Hc. assert (1 <= w) as Hw1 by (destruct Hw; lia).
  split_and!.
  - unfold count_leading_zeroes. destruct (Z.eqb_spec v 0); [done|]. pose proof (Z.log2_nonneg v). rewrite clz_loop_spec by lia. lia.
  - unfold count_trailing_zeroes. destruct (Z.eqb_spec v 0); [done|].
    destruct (ctz_loop_spec (Z.to_nat w) v 0) as (t & -> & Ht); [rewrite Z2Nat.id; lia|done].
  - unfold population_count. rewrite popcnt_loop_spec by (rewrite Z2Nat.id; lia). lia.
  - intros i Hi. by rewrite rotate_left_bits, rotate_right_bits.
  - intros a. by apply shift_right_value.
Qed.
Lemma wasm_bit_operations_witness :
  count_leading_zeroes 32 0x00f0 = 24 /\ lowest 0x00f0 (count_trailing_zeroes 32 0x00f0) /\ population_count 32 0x00f0 = 4.
Proof.
  destruct (wasm_bit_operations 32 0x00f0 40 ltac:(by left) ltac:(lia)) as (E1 & E2 & E3 & _). split_and!; [exact E1|exact E2|].
  rewrite E3. by vm_compute.
Defined.

(** ** Memory *)

(** The value a load of [size] bytes gives when they hold [x]. *)
Definition extended (i : Instruction) (x : Z) : Z :=
  let size := i_width i in
  let y := if i_signed i && (size <? 8) then u64 (swrap (size * 8) x) else x in
  match i_op i with Op.I32Load | Op.F32Load => u32 y | _ => y end.

Lemma extend_value size x :
  0 < size < 8 -> 0 <= x < 2 ^ (size * 8) ->
  (if negb (Z.land x (2 ^ (size * 8 - 1)) =? 0) then Z.lor x (u64 (Z.shiftl (2 ^ 64 - 1) (size * 8))) else x) = u64 (swrap (size * 8) x).
Proof.
  intros Hs Hx. assert (2 ^ 64 = 2 ^ (size * 8) * 2 ^ (64 - size * 8)) as Hp by (rewrite <- Z.pow_add_r by lia; f_equal; lia).
  rewrite land_pow2, negb_involutive, swrap_sign, (Z.mod_small x) by lia. pose proof (Z.pow_pos_nonneg 2 (64 - size * 8)). set (h := 2 ^ (size * 8)) in *. set (g := 2 ^ (64 - size * 8)) in *.
  destruct (Z.testbit x _).
  - assert (u64 (Z.shiftl (2 ^ 64 - 1) (size * 8)) = Z.shiftl (g - 1) (size * 8)) as ->.
    { rewrite !Z.shiftl_mul_pow2 by lia. fold h. unfold u64. rewrite Hp. replace ((h * g - 1) * h) with ((g - 1) * h + (h - 1) * (h * g)) by ring.
      rewrite Z.mod_add by nia. apply Z.mod_small. nia. }
    rewrite lor_shift by (fold h; lia). fold h. unfold u64. rewrite Hp. replace (x + -1 * h) with (x + (g - 1) * h + (-1) * (h * g)) by ring.
    rewrite Z.mod_add by nia. rewrite Z.mod_small; nia.
  - unfold u64. rewrite Z.mod_small; nia.
Qed.

Lemma load_after_store st ld mem a v :
  i_width st = i_width ld -> 0 < i_width ld <= 8 -> 0 <= a -> check_memory mem a (i_width ld) = true ->
  load_value ld (store_value st mem a v) a = extended ld (v mod 2 ^ (i_width ld * 8)).
Proof.
  intros Hw Hs Ha Hc. apply andb_true_iff in Hc as [H1%Z.leb_le H2%Z.leb_le]. unfold memory_size in *.
  unfold load_value, store_value, extended. cbn [mem_bytes]. rewrite Hw.
  replace (a + i_width ld) with (a + zlen (le_split (Z.to_nat (i_width ld)) v)) by (rewrite zlen_le_split; lia).
  rewrite slice_splice_same by (rewrite ?zlen_le_split; lia). rewrite le_combine_split, Z2Nat.id by lia.
  set (x := v mod 2 ^ (i_width ld * 8)). assert (0 <= x < 2 ^ (i_width ld * 8)) as Hx by (apply Z.mod_pos_bound; lia).
  assert ((if i_signed ld && (i_width ld <? 8) && negb (Z.land x (2 ^ (i_width ld * 8 - 1)) =? 0)
           then Z.lor x (u64 (Z.shiftl (2 ^ 64 - 1) (i_width ld * 8))) else x)
          = if i_signed ld && (i_width ld <? 8) then u64 (swrap (i_width ld * 8) x) else x) as ->.
  { destruct (i_signed ld && (i_width ld <? 8)) eqn:E; [|done]. apply andb_true_iff in E as [_ E%Z.ltb_lt]. cbn [andb]. apply extend_value; lia. }
  assert (forall y, Z.land y 0xffffffff = u32 y) as Hu by (intros y; apply (Z.land_ones y 32); lia). rewrite Hu. done.
Qed.

Lemma memory_size_store st mem a v :
  0 <= a -> 0 < i_width st -> check_memory mem a (i_width st) = true -> memory_size (store_value st mem a v) = memory_size mem.
Proof.
  intros Ha Hs Hc. apply andb_true_iff in Hc as [H1%Z.leb_le H2%Z.leb_le]. unfold memory_size, store_value in *. cbn [mem_bytes].
  apply zlen_splice; lia.
Qed.

(** C27: the linear memory reads back what was stored.  A store within bounds
    followed by a load of the same width at the same address gives the value cut
    to that width and extended as the load asks; the size of the memory and
    every byte outside the address range stay as they were. *)
Theorem wasm_memory_reads_back st ld mem base v a :
  effective mem st base (i_width st) = Some a -> 0 <= base -> i_width st = i_width ld -> i_operand2 st = i_operand2 ld -> 0 < i_width ld <= 8 ->
  let mem' := store_value st mem a v in
  effective mem' ld base (i_width ld) = Some a /\
  load_value ld mem' a = extended ld (v mod 2 ^ (i_width ld * 8)) /\
  (forall lo hi, 0 <= lo -> hi <= a \/ a + i_width ld <= lo -> slice (mem_bytes mem') lo hi = slice (mem_bytes mem) lo hi).
Proof.
  intros He Hb Hw Ho Hs mem'. unfold effective in *. rewrite Hw in He.
  assert (0 <= i_operand2 st) as Hop by apply u32_range. destruct (_ || negb (check_memory mem _ _)) eqn:E; [done|]. injection He as <-.
  apply orb_false_iff in E as [E1 E2%negb_false_iff]. pose proof E2 as Hc. rewrite <- Hw in Hc.
  assert (check_memory mem' (base + i_operand2 st) (i_width ld) = true) as Hc2.
  { unfold check_memory, mem'. rewrite memory_size_store by (done || lia). exact E2. }
  split_and!.
  - by rewrite <- Ho, E1, Hc2.
  - apply load_after_store; (done || lia).
  - intros lo hi Hlo Hout. apply andb_true_iff in E2 as [H1%Z.leb_le H2%Z.leb_le]. unfold memory_size in *. unfold mem', store_value. cbn [mem_bytes].
    destruct Hout; [apply slice_splice_before; lia|apply slice_splice_after; [lia|rewrite zlen_le_split, Hw; lia]].
Qed.
Lemma wasm_memory_reads_back_witness :
  let st := mkI 1 0 Op.I64Store None 2 false in
  let ld := mkI 1 0 Op.I64Load None 2 true in
  let mem := mkMem (mkbuf 8) 8 8 in
  let mem' := store_value st mem 4 (-2) in
  effective mem' ld 3 2 = Some 4 /\ load_value ld mem' 4 = extended ld ((-2) mod 2 ^ (2 * 8)) /\
  (forall lo hi, 0 <= lo -> hi <= 4 \/ 4 + 2 <= lo -> slice (mem_bytes mem') lo hi = slice (mem_bytes mem) lo hi).
Proof.
  apply (wasm_memory_reads_back (mkI 1 0 Op.I64Store None 2 false) (mkI 1 0 Op.I64Load None 2 true) (mkMem (mkbuf 8) 8 8) 3 (-2) 4);
    [reflexivity|lia|reflexivity|reflexivity|cbn; lia].
Defined.

(** ** Growing *)

Section grow.
Context {T : Type} `{!Host T}.

(** C28: growing appends zero bytes and changes nothing else.  It gives the old
    number of pages, stays within the session's and the module's maximum and
    within the memory's capacity; when it cannot, the memory is as it was. *)
Theorem wasm_memory_grows m pages mem (t : T) old mem' t' :
  grow_memory m pages mem t = (old, mem', t') -> 0 <= pages -> memory_size mem <= mem_capacity mem ->
  match old with
  | None => mem' = mem
  | Some n =>
      n = u32 (memory_size mem / kPageSize) /\ mem_bytes mem' = mem_bytes mem ++ mkbuf (pages * kPageSize)
      /\ memory_size mem' <= mem_max mem' /\ memory_size mem' <= mem_capacity mem' /\ beyond_max m (memory_size mem') = false
  end.
Proof.
  intros Hg Hp Hcap. unfold grow_memory in Hg. set (grown := memory_size mem + pages * kPageSize) in *.
  destruct ((2 ^ 64 <=? grown) || (mem_max mem <? grown)) eqn:E1; [by simplify_eq|]. apply orb_false_iff in E1 as [_ E1%Z.ltb_ge].
  destruct (beyond_max m grown) eqn:E2; [by simplify_eq|].
  replace (grown - memory_size mem) with (pages * kPageSize) in * by (unfold grown; lia).
  assert (zlen (mem_bytes mem ++ mkbuf (pages * kPageSize)) = grown) as Hsz.
  { rewrite zlen_app, zlen_mkbuf by (unfold kPageSize; lia). done. }
  destruct (Z.eqb_spec grown (memory_size mem)) as [E|E].
  - injection Hg as <- <- <-. assert (pages * kPageSize = 0) as -> by (unfold grown in E; lia). rewrite app_nil_r, <- E. split_and!; [done..|lia|lia|done].
  - destruct (grown <=? mem_capacity mem) eqn:E3; [|destruct (h_alloc grown t) as [[] t2]; [|by simplify_eq]]; simplify_eq; cbn [mem_bytes mem_max mem_capacity];
      unfold memory_size in *; cbn [mem_bytes]; rewrite Hsz; split_and!; try done; lia.
Qed.
End grow.
Import (hints) Demo.
Lemma wasm_memory_grows_witness :
  let mem := mkMem [] 0 (2 ^ 20) in
  let mem' := (grow_memory (T := nat) empty_module 1 mem 0%nat).1.2 in
  0 = u32 (memory_size mem / kPageSize) /\ mem_bytes mem' = [] ++ mkbuf (1 * kPageSize)
  /\ memory_size mem' <= mem_max mem' /\ memory_size mem' <= mem_capacity mem' /\ beyond_max empty_module (memory_size mem') = false.
Proof.
  apply (wasm_memory_grows empty_module 1 (mkMem [] 0 (2 ^ 20)) 0%nat (Some 0) _ 0%nat); [reflexivity|lia|done].
Defined.

(** ** Blocks *)

(** C22: lowering a body pairs its blocks.  Every [end] that closes a block is
    recorded in the instruction that opened it, every [else] in its [if], and an
    [else] is recorded only where there is one; [opens] counts the blocks open
    at a position from the instructions alone. *)
Theorem lowering_pairs_blocks code locals ops targets :
  lower code = Ok (locals, ops, targets) ->
  (forall e ie o os io, ops !! e = Some ie -> i_op ie = Op.End -> opens ops e = o :: os -> ops !! o = Some io -> i_end_pc io = Z.of_nat e) /\
  (forall e ie o os io, ops !! e = Some ie -> i_op ie = Op.Else -> opens ops e = o :: os -> ops !! o = Some io -> i_else_pc io = Z.of_nat e) /\
  (forall o io, ops !! o = Some io -> is_opener (i_op io) = true -> i_else_pc io <> kNoPc ->
     exists e ie os, ops !! e = Some ie /\ i_op ie = Op.Else /\ opens ops e = o :: os /\ i_else_pc io = Z.of_nat e).
Proof. intros Hl. destruct (lower_lowered _ _ _ _ Hl) as [H1 H2 H3 _ _]. done. Qed.

(** A body with an [if] and its [else]: [i32.const 1; if; nop; else; end; end]. *)
Definition if_else_code : list byte := z2b <$> [0x00; 0x41; 0x01; 0x04; 0x40; 0x01; 0x05; 0x0b; 0x0b].
Definition if_else_ops : list Instruction := match lower if_else_code with Ok (_, ops, _) => ops | _ => [] end.
Lemma lowering_pairs_blocks_witness :
  (i_end_pc <$> if_else_ops !! 1%nat) = Some 4 /\ (i_else_pc <$> if_else_ops !! 1%nat) = Some 3.
Proof.
  destruct (lowering_pairs_blocks if_else_code [] if_else_ops []) as (H1 & H2 & _); [reflexivity|].
  assert (exists io, if_else_ops !! 1%nat = Some io) as [io E] by (eexists; reflexivity). rewrite E. split; cbn; f_equal.
  - by eapply (H1 4%nat _ 1%nat []).
  - by eapply (H2 3%nat _ 1%nat []).
Defined.

(** ** Where it fails *)

(** rounding and conversions that differ from WebAssembly.  [f32.nearest]
    and [f64.nearest] test the last bit of the mantissa where the parity of the
    number is meant: 1.5 and 3.5 become 1 and 3, not 2 and 4.  The conversions
    to unsigned numbers trap on -0.5, which truncates to 0, and the one to
    signed 32-bit numbers on -2147483648.5, which truncates to its minimum. *)
Theorem float_corner_cases :
  f32_nearest 0x3fc00000 = 0x3f800000 /\ f32_nearest 0x40600000 = 0x40400000 /\
  f64_nearest 0x3ff8000000000000 = 0x3ff0000000000000 /\
  (let f := f64_from_bits 0xbfe0000000000000 in to_Z f = 0 /\ trunc_i32_u f = None /\ trunc_i64_u f = None) /\
  (let f := f64_from_bits 0xc1e0000000100000 in to_Z f = - 2 ^ 31 /\ trunc_i32_s f = None).
Proof. vm_compute; auto 10. Qed.

Section overflow.
Context {T : Type} `{!Host T}.

(** C40: running out of stack inside a call is not recorded.  The round that
    makes the call ends with an error, but no trap is set and the session still
    counts as running, so [engine_start] reports error 0 at a stale place and a
    resume would go on after the call. *)
Theorem deep_call_error_lost idx (r r' : R T) :
  m_imported (r_module r) <= idx -> enter_frame idx r = (Ok Status.TrapStackOverflow, r') ->
  call_function idx r = (Err RunStatus.Error, r') /\ r_flags r' = r_flags r /\
  (running (r_flags r) = true -> forall capacity, begin_resume capacity r' = (Ok tt, with_capacity capacity r')).
Proof.
  intros Hi He. assert (r_flags r' = r_flags r) as Ef.
  { revert He. unfold enter_frame, mbind, M_bind, getS, putS, modifyS, mret, M_ret. repeat (case_match; try done); intros; by simplify_eq. }
  split_and!; [|done|].
  - unfold call_function. rewrite bind_getS, (proj2 (Z.ltb_ge _ _)) by done. by rewrite (bind_ok _ _ _ _ _ He).
  - intros Hr c. unfold begin_resume. rewrite bind_getS, Ef, Hr. done.
Qed.
End overflow.

(** The program of [Demo] with room for one frame, calling itself. *)
Definition full_stack : R nat :=
  let r := Demo.started in
  mkR (r_module r) (mkConfig (2 ^ 16) 1 4096 0) (r_values r) (r_frames r) (r_labels r) (r_globals r) (r_table r) (r_memory r)
    (r_flags r) (r_imports r) (r_results r) (r_capacity r) (r_world r).
Lemma deep_call_error_lost_witness :
  let r' := (enter_frame 1 full_stack).2 in
  call_function 1 full_stack = (Err RunStatus.Error, r') /\ r_flags r' = r_flags full_stack /\
  (running (r_flags full_stack) = true -> forall capacity, begin_resume capacity r' = (Ok tt, with_capacity capacity r')).
Proof. apply (deep_call_error_lost 1 full_stack); [by vm_compute|by vm_compute]. Defined.
