(* ===== verification/ModuleTools.v ===== *)
(** * ModuleTools: what reads and writes modules
      ([services/pkg], [tools/module-sign], [tools/modulesign],
       [scripts/add_abiver.py], [services/jitc])

    The package manager ([services/pkg/pkg.go]), the host tools that stamp and
    sign, and the writer of the sample module.

    The manager: reading the custom sections of a module, checking its signature against
    the trusted keys, and installing it.  The file system it is given and
    ed25519 are classes; the [path] and [hex] functions of the Go library are
    written out.  Go's [int] has 64 bits, and no sum below leaves them. *)

From S2P Require Import Prelude Paths FsServer FsClient GoText WasmNum.

(** ** Numbers and sections *)

(** The loop of [readLEB128Full] and [readLEB128], which read at most five
    bytes; [pos] is the position of the next one. *)
Fixpoint leb128_loop (n : nat) (shift result pos : Z) (s : list byte) : option (Z * Z) :=
  match n with
  | O => None
  | S n' =>
      match s with
      | [] => None
      | c :: s' =>
          let b := b2z c in
          let result := Z.lor result (Z.shiftl (Z.land b 0x7f) shift) in
          if b <? 0x80 then Some (result, pos + 1) else leb128_loop n' (shift + 7) result (pos + 1) s'
      end
  end.
Definition readLEB128Full (data : list byte) : Z * Z := default (0, 0) (leb128_loop 5 0 0 0 data).
Definition readLEB128 (data : list byte) (pos : Z) : option (Z * Z) :=
  leb128_loop 5 0 0 pos (drop (Z.to_nat pos) data).

(** [Leb] of a number of at most nine groups of seven bits. *)
Fixpoint Leb_loop (fuel : nat) (n : Z) : list byte :=
  match fuel with
  | O => []
  | S f =>
      let b7 := Z.land n 0x7f in
      let n := Z.shiftr n 7 in
      if 0 <? n then z2b (Z.lor b7 0x80) :: Leb_loop f n else [z2b b7]
  end.
Definition Leb (n : Z) : list byte := Leb_loop 10 n.

Definition is_wasm (data : list byte) : bool :=
  (8 <=? zlen data) && bool_decide (take 4 data = [Byte.x00; Byte.x61; Byte.x73; Byte.x6d]).

(** A custom section that was found: where it starts, its size with its
    header, and what follows its name. *)
Record Found := mkFound { sectionStart : Z; totalSize : Z; body : list byte }.

(** The loop of [findSectionSize] and [extractCustomSection], from position
    [i]; each round moves on by at least two bytes. *)
Fixpoint scan (fuel : nat) (data name : list byte) (i : Z) : option Found :=
  match fuel with
  | O => None
  | S f =>
      match at_ data i with
      | None => None
      | Some id =>
          match readLEB128 data (i + 1) with
          | None => None
          | Some (size, i') =>
              if zlen data <? i' + size then None
              else
                let sec := slice data i' (i' + size) in
                let '(nameLen, j) := readLEB128Full sec in
                if (b2z id =? 0) && (j + nameLen <=? zlen sec) && bool_decide (slice sec j (j + nameLen) = name)
                then Some (mkFound i (i' - i + size) (drop (Z.to_nat (j + nameLen)) sec))
                else scan f data name (i' + size)
          end
      end
  end.
Definition find_section (data name : list byte) : option Found :=
  if is_wasm data then scan (length data) data name 8 else None.

Definition findSectionSize (data name : list byte) : option (Z * Z) :=
  (fun f => (sectionStart f, totalSize f)) <$> find_section data name.
Definition extractCustomSection (data name : list byte) : option (list byte) := body <$> find_section data name.

Definition extractABIVer (data : list byte) : option byte := extractCustomSection data (bs "abi_ver") ≫= head.
Definition extractSig (data : list byte) : option (list byte) := extractCustomSection data (bs "sig").

(** [data[:offset]] and [data[offset+size:]] *)
Definition cut (data : list byte) (offset size : Z) : list byte :=
  take (Z.to_nat offset) data ++ drop (Z.to_nat (offset + size)) data.
Definition stripSigSection (data : list byte) : list byte :=
  match findSectionSize data (bs "sig") with
  | Some (offset, size) => cut data offset size
  | None => data
  end.
Definition verifyMessage (abiVer : byte) (wasm : list byte) : list byte :=
  match findSectionSize wasm (bs "sig") with
  | Some (offset, size) => abiVer :: cut wasm offset size
  | None => abiVer :: wasm
  end.

Definition ABIVer (wasm : list byte) : byte := default Byte.x00 (extractABIVer wasm).

(** [strings.TrimRight(s, "\x00")] *)
Fixpoint trim_nul (s : list byte) : list byte :=
  match s with
  | [] => []
  | c :: s => match trim_nul s with [] => if decide (c = Byte.x00) then [] else [c] | s' => c :: s' end
  end.
Definition ModuleName (wasm : list byte) : list byte :=
  match extractCustomSection wasm (bs "module_name") with
  | Some (c :: l) => c :: l
  | _ => default [] (trim_nul <$> extractCustomSection wasm (bs "name"))
  end.

(** ** The Go library *)

(** [path.Clean], a component at a time; [out] holds the components kept,
    newest first. *)
Fixpoint clean_loop (rooted : bool) (parts out : list (list byte)) : list (list byte) :=
  match parts with
  | [] => rev out
  | p :: parts =>
      if bool_decide (p = []) || bool_decide (p = dot) then clean_loop rooted parts out
      else if bool_decide (p = dotdot) then
        match out with
        | q :: out' => if bool_decide (q = dotdot) then clean_loop rooted parts (p :: out) else clean_loop rooted parts out'
        | [] => clean_loop rooted parts (if rooted then [] else [p])
        end
      else clean_loop rooted parts (p :: out)
  end.
Fixpoint join_slash (parts : list (list byte)) : list byte :=
  match parts with
  | [] => []
  | [p] => p
  | p :: parts => p ++ slash :: join_slash parts
  end.
Definition Clean (p : list byte) : list byte :=
  let rooted := HasPrefix p [slash] in
  let s := join_slash (clean_loop rooted (Split p slash) []) in
  if rooted then slash :: s else match s with [] => dot | _ => s end.
(** [path.Join] of two elements *)
Definition Join (a b : list byte) : list byte :=
  match a, b with
  | [], [] => []
  | [], _ => Clean b
  | _, [] => Clean a
  | _, _ => Clean (a ++ slash :: b)
  end.

(** [hex.DecodeString] *)
Fixpoint hex_decode (s : list byte) : option (list byte) :=
  match s with
  | [] => Some []
  | [_] => None
  | a :: b :: s =>
      match digit a, digit b, hex_decode s with
      | Some x, Some y, Some l => if (x <? 16) && (y <? 16) then Some (z2b (16 * x + y) :: l) else None
      | _, _, _ => None
      end
  end.

Definition HasSuffix (s p : list byte) : bool :=
  bool_decide ((length p <= length s)%nat) && bool_decide (drop (length s - length p) s = p).

(** ** The manager *)

(** The file system the manager is given. *)
Class FS (F E : Type) := {
  fs_List : list byte -> F -> outcome E (list FileInfo) * F;
  fs_ReadFile : list byte -> Z -> Z -> F -> outcome E (list byte) * F;
  fs_WriteFile : list byte -> Z -> list byte -> F -> outcome E Z * F;
  fs_Create : list byte -> F -> outcome E unit * F;
  fs_Delete : list byte -> F -> outcome E unit * F;
  fs_Stat : list byte -> F -> outcome E FileInfo * F
}.

(** [ed25519.Verify] and [ed25519.Sign] with the public half of a key. *)
Class Ed25519 := {
  ed_Verify : list byte -> list byte -> list byte -> bool;
  ed_Sign : list byte -> list byte -> list byte;
  ed_Public : list byte -> list byte
}.
Definition PublicKeySize : Z := 32.

Inductive PkgError (E : Type) :=
  | NoKeys | NoAbiVer | NoSigSection | BadSignature | VerifyFailed (e : PkgError E) | NoNameSection
  | CreateFailed (e : E) | WriteFailed (e : E) | ZeroProgress | NotInstalled | FsError (e : E).
Arguments NoKeys {E}.
Arguments NoAbiVer {E}.
Arguments NoSigSection {E}.
Arguments BadSignature {E}.
Arguments VerifyFailed {E}.
Arguments NoNameSection {E}.
Arguments CreateFailed {E}.
Arguments WriteFailed {E}.
Arguments ZeroProgress {E}.
Arguments NotInstalled {E}.
Arguments FsError {E}.

Section manager.
Context {F E : Type} `{!FS F E} `{!Ed25519}.

Record Manager := mkManager { trusted : list (list byte); modulesDir : list byte }.

Abbreviation PM A := (M (Manager * F) (PkgError E) A).

(** A call of the file system whose error becomes [f]. *)
Definition call {A} (op : F -> outcome E A * F) (f : E -> PkgError E) : PM A := fun s =>
  let '(o, fs) := op s.2 in
  (match o with Ok a => Ok a | Err e => Err (f e) | Panic => Panic end, (s.1, fs)).

(** A line of the list of keys. *)
Definition trusted_key (line : list byte) : option (list byte) :=
  let line := TrimSpace line in
  if bool_decide (line = []) || HasPrefix line (bs "#") then None
  else match hex_decode line with
       | Some raw => if zlen raw =? PublicKeySize then Some raw else None
       | None => None
       end.
Definition trusted_keys (text : list byte) : list (list byte) := omap trusted_key (Split text newline).
Definition readTrusted : PM (list (list byte)) := fun s =>
  match fs_Stat (bs "/etc/trusted") s.2 with
  | (Ok st, fs) =>
      match fs_ReadFile (bs "/etc/trusted") 0 (fi_Size st) fs with
      | (Ok text, fs) => (Ok (trusted_keys text), (s.1, fs))
      | (Err _, fs) => (Ok [], (s.1, fs))
      | (Panic, fs) => (Panic, (s.1, fs))
      end
  | (Err _, fs) => (Ok [], (s.1, fs))
  | (Panic, fs) => (Panic, (s.1, fs))
  end.
Definition ensureKeys : PM unit :=
  s ← getS;
  if bool_decide (trusted s.1 = []) then
    keys ← readTrusted;
    modifyS (fun s => (mkManager keys (modulesDir s.1), s.2))
  else mret tt.
Definition TrustedKeyCount : PM Z :=
  _ ← ensureKeys;
  s ← getS;
  mret (zlen (trusted s.1)).

Definition Verify (wasm : list byte) : PM unit :=
  _ ← ensureKeys;
  s ← getS;
  if bool_decide (trusted s.1 = []) then throw NoKeys
  else
    match extractABIVer wasm with
    | None => throw NoAbiVer
    | Some abiVer =>
        match extractSig wasm with
        | None => throw NoSigSection
        | Some sig =>
            let msg := verifyMessage abiVer wasm in
            if existsb (fun k => ed_Verify k msg sig) (trusted s.1) then mret tt else throw BadSignature
        end
    end.

Definition module_path (dir name : list byte) : list byte := Join dir (name ++ bs ".wasm").

(** The loop that writes the module; every round writes something. *)
Fixpoint write_all (fuel : nat) (dst wasm : list byte) (written : Z) : PM unit :=
  if zlen wasm <=? written then mret tt
  else
    match fuel with
    | O => panic
    | S f =>
        n ← call (fs_WriteFile dst written (drop (Z.to_nat written) wasm)) WriteFailed;
        if n =? 0 then throw ZeroProgress else write_all f dst wasm (written + n)
    end.

(** What [Install] and [Update] share: they differ in [check]. *)
Definition put_module (check : list byte -> PM unit) (wasm : list byte) : PM (list byte) := fun s =>
  match Verify wasm s with
  | (Ok _, s) =>
      (let name := ModuleName wasm in
       if bool_decide (name = []) then throw NoNameSection
       else
         let dst := module_path (modulesDir s.1) name in
         _ ← check dst;
         _ ← call (fs_Create dst) CreateFailed;
         _ ← write_all (length wasm) dst wasm 0;
         mret name) s
  | (Err e, s) => (Err (VerifyFailed e), s)
  | (Panic, s) => (Panic, s)
  end.
Definition Install : list byte -> PM (list byte) := put_module (fun _ => mret tt).
Definition Update : list byte -> PM (list byte) :=
  put_module (fun dst => _ ← call (fs_Stat dst) (fun _ => NotInstalled); mret tt).

Definition Remove (name : list byte) : PM unit :=
  s ← getS;
  call (fs_Delete (module_path (modulesDir s.1) name)) FsError.
Definition wasm_name (name : list byte) : option (list byte) :=
  if HasSuffix name (bs ".wasm") then Some (take (length name - 5) name) else None.
Definition List : PM (list (list byte)) :=
  s ← getS;
  ents ← call (fs_List (modulesDir s.1)) FsError;
  mret (omap (fun e => wasm_name (fi_Name e)) ents).
End manager.

(** * The host tools that stamp and sign modules
      ([tools/module-sign/main.go], [tools/modulesign/main.go],
       [scripts/add_abiver.py])

    Three writers of custom sections.  A module is a list of bytes; reading and
    writing the files around them is left out, and ending the process with an
    error is [Err].  The functions of [module-sign] that are copies of those of
    [services/pkg] are those above: [leb] is [Leb] and [readLEB128] is
    [readLEB128]. *)

Definition abi_ver : list byte := bs "abi_ver".

(** ** [module-sign]: signatures *)

Definition appendCustomSection (buf name payload : list byte) : list byte :=
  let section := Leb (zlen name) ++ name ++ payload in
  buf ++ Byte.x00 :: Leb (zlen section) ++ section.

(** [readLEB128Full] without the limit of five bytes: a shift by 64 or more
    gives 0, and the result may be negative. *)
Fixpoint full_loop (shift result pos : Z) (s : list byte) : Z * Z :=
  match s with
  | [] => (result, pos)
  | c :: s' =>
      let b := b2z c in
      let result := Z.lor result (i64 (Z.shiftl (Z.land b 0x7f) shift)) in
      if b <? 0x80 then (result, pos + 1) else full_loop (shift + 7) result (pos + 1) s'
  end.
Definition sign_readLEB128Full (data : list byte) : Z * Z := full_loop 0 0 0 data.

(** A negative length passes the test and makes the slice panic. *)
Fixpoint sign_scan (fuel : nat) (data name : list byte) (i : Z) : outcome unit (option (list byte)) :=
  match fuel with
  | O => Ok None
  | S f =>
      match at_ data i with
      | None => Ok None
      | Some id =>
          match readLEB128 data (i + 1) with
          | None => Ok None
          | Some (size, i') =>
              if zlen data <? i' + size then Ok None
              else
                let sec := slice data i' (i' + size) in
                if b2z id =? 0 then
                  let '(nameLen, j) := sign_readLEB128Full sec in
                  let hi := i64 (j + nameLen) in
                  if hi <=? zlen sec then
                    if hi <? j then Panic
                    else if bool_decide (slice sec j hi = name) then Ok (Some (drop (Z.to_nat hi) sec))
                    else sign_scan f data name (i' + size)
                  else sign_scan f data name (i' + size)
                else sign_scan f data name (i' + size)
          end
      end
  end.
Definition sign_extractCustomSection (data name : list byte) : outcome unit (option (list byte)) :=
  sign_scan (length data) data name 8.
Definition sign_extractABIVer (data : list byte) : outcome unit (option byte) :=
  o ← sign_extractCustomSection data abi_ver;
  mret (o ≫= head).

(** The section as [appendCustomSection] writes it, wherever its bytes first
    occur. *)
Fixpoint findBytes_from (i : nat) (haystack needle : list byte) : option nat :=
  if HasPrefix haystack needle then Some i
  else match haystack with [] => None | _ :: h => findBytes_from (S i) h needle end.
Definition findBytes (haystack needle : list byte) : option nat := findBytes_from 0 haystack needle.
Definition sign_stripSigSection (data : list byte) : outcome unit (list byte) :=
  o ← sign_extractCustomSection data (bs "sig");
  match o with
  | None => mret data
  | Some payload =>
      let header := appendCustomSection [] (bs "sig") payload in
      mret (match findBytes data header with
            | None => data
            | Some idx => take idx data ++ drop (idx + length header) data
            end)
  end.

Section keys.
Context `{!Ed25519}.

(** A module that has no name gets one. *)
Definition with_name (wasmData moduleName : list byte) : outcome unit (list byte) :=
  match moduleName with
  | [] => mret wasmData
  | _ =>
      o ← sign_extractCustomSection wasmData (bs "module_name");
      mret (match o with
            | Some _ => wasmData
            | None => appendCustomSection wasmData (bs "module_name") moduleName
            end)
  end.
Definition sign (wasmData privKey : list byte) (abiVer : byte) (moduleName : list byte) : outcome unit (list byte) :=
  wasmData ← with_name wasmData moduleName;
  mret (appendCustomSection wasmData (bs "sig") (ed_Sign privKey (abiVer :: wasmData))).

Inductive SignError := ErrNoAbi | ErrNoSignature | ErrVerification.
Definition lift_unit {A} (x : outcome unit A) : outcome SignError A :=
  match x with Ok a => Ok a | _ => Panic end.
Definition sign_verify (data pubKey : list byte) : outcome SignError unit :=
  abi ← lift_unit (sign_extractABIVer data);
  match abi with
  | None => Err ErrNoAbi
  | Some abiVer =>
      sig ← lift_unit (sign_extractCustomSection data (bs "sig"));
      match sig with
      | None => Err ErrNoSignature
      | Some sig =>
          stripped ← lift_unit (sign_stripSigSection data);
          if ed_Verify pubKey (abiVer :: stripped) sig then Ok tt else Err ErrVerification
      end
  end.
End keys.

(** [tamperSig]: the signature with the lowest bit of its first byte flipped. *)
Definition tamperSig (data : list byte) : outcome unit (list byte) :=
  o ← sign_extractCustomSection data (bs "sig");
  match o with
  | Some (c :: payload) =>
      stripped ← sign_stripSigSection data;
      mret (appendCustomSection stripped (bs "sig") (z2b (Z.lxor (b2z c) 1) :: payload))
  | _ => Err tt
  end.

(** ** Removing stamps *)

(** One section: its id, its body, its bytes and what follows; [read] is the
    reader of lengths, which gives the value and the bytes it used. *)
Definition cut_section (read : list byte -> option (Z * Z)) (rest : list byte) : option (byte * list byte * list byte * list byte) :=
  match rest with
  | [] => None
  | id :: rest1 =>
      match read rest1 with
      | None => None
      | Some (v, n) =>
          if zlen rest1 - n <? v then None
          else Some (id, slice rest1 n (n + v), take (Z.to_nat (1 + n + v)) rest, drop (Z.to_nat (n + v)) rest1)
      end
  end.
(** What follows the name of a custom section that is called [abi_ver]. *)
Definition abi_payload (read : list byte -> option (Z * Z)) (id : byte) (body : list byte) : option (list byte) :=
  if b2z id =? 0 then
    match read body with
    | Some (nameLen, n) =>
        if (nameLen <=? zlen body - n) && bool_decide (slice body n (n + nameLen) = abi_ver)
        then Some (drop (Z.to_nat (n + nameLen)) body) else None
    | None => None
    end
  else None.

(** The loop of [replaceABIVer] and [findAbiVer]: the first stamp, and the
    sections that are none.  It stops at a section it cannot read, whose
    bytes are lost. *)
Fixpoint drop_stamps (read : list byte -> option (Z * Z)) (fuel : nat) (rest : list byte) : option (list byte) * list byte :=
  match fuel with
  | O => (None, [])
  | S f =>
      match cut_section read rest with
      | None => (None, [])
      | Some (id, body, raw, rest) =>
          let '(first, out) := drop_stamps read f rest in
          match abi_payload read id body with
          | Some payload => (Some payload, out)
          | None => (first, raw ++ out)
          end
      end
  end.

Definition readLEB128_at (s : list byte) : option (Z * Z) := readLEB128 s 0.
Definition replaceABIVer (wasm : list byte) (ver : Z) : outcome unit (list byte * bool) :=
  if negb (is_wasm wasm) then Ok (wasm, false)
  else if (ver <? 1) || (255 <? ver) then Err tt
  else
    match drop_stamps readLEB128_at (length wasm) (drop 8 wasm) with
    | (None, _) => Ok (wasm, false)
    | (Some _, out) => Ok (appendCustomSection (take 8 wasm ++ out) abi_ver [z2b ver], true)
    end.

(** ** [modulesign]: stamps *)

Fixpoint stamp_leb_loop (fuel : nat) (v : Z) : list byte :=
  match fuel with
  | O => []
  | S f =>
      let b := Z.land v 0x7f in
      let v := Z.shiftr v 7 in
      if negb (v =? 0) then z2b (Z.lor b 0x80) :: stamp_leb_loop f v else [z2b b]
  end.
Definition stamp_leb (v : Z) : list byte := stamp_leb_loop 10 v.
Definition customSection (name payload : list byte) : list byte :=
  let body := stamp_leb (zlen name) ++ name ++ payload in
  Byte.x00 :: stamp_leb (zlen body) ++ body.

Fixpoint readLEB_loop (n : nat) (shift v i : Z) (b : list byte) : option (Z * Z) :=
  match n with
  | O => None
  | S n' =>
      match b with
      | [] => None
      | c :: b' =>
          let v := Z.lor v (u64 (Z.shiftl (Z.land (b2z c) 0x7f) shift)) in
          if Z.land (b2z c) 0x80 =? 0 then Some (v, i + 1) else readLEB_loop n' (shift + 7) v (i + 1) b'
      end
  end.
Definition readLEB (b : list byte) : option (Z * Z) := readLEB_loop 10 0 0 0 b.

Definition findAbiVer (wasm : list byte) : Z * list byte * bool :=
  if negb (is_wasm wasm) then (0, wasm, false)
  else
    match drop_stamps readLEB (length wasm) (drop 8 wasm) with
    | (None, _) => (0, wasm, false)
    | (Some payload, out) => (match payload with [] => 0 | c :: _ => b2z c end, take 8 wasm ++ out, true)
    end.

(** [main]: the version of [-stamp] (0 when it is not given) or [-mismatch]. *)
Definition stamp (version : Z) (mismatch : bool) (wasm : list byte) : outcome unit (list byte) :=
  let ver := if mismatch then 99 else if version =? 0 then 2 else version in
  let stripped := (findAbiVer wasm).1.2 in
  if (ver <? 1) || (255 <? ver) then Err tt else Ok (stripped ++ customSection abi_ver [z2b ver]).

(** ** [add_abiver.py] *)

Definition add_abiver (d : list byte) (ver : Z) : outcome unit (list byte) :=
  if negb (bool_decide (take 4 d = [Byte.x00; Byte.x61; Byte.x73; Byte.x6d])) then Err tt
  else if (ver <? 0) || (255 <? ver) then Err tt
  else Ok (d ++ customSection abi_ver [z2b ver]).

(** * Numbers and the sample module of the native compiler
      ([services/jitc/leb.go], [services/jitc/fibmod.go])

    The bounds-checked cursor, and the module the smoke test builds byte by
    byte.  The cursor is the bytes it has not read; after an error it is left
    wherever the error was found. *)

(** ** The cursor *)

Inductive LebError := ErrTruncated | ErrOverflow.
Abbreviation CM A := (M (list byte) LebError A).

Definition rest : CM Z := s ← getS; mret (zlen s).
Definition cu8 : CM Z :=
  s ← getS;
  match s with
  | [] => throw ErrTruncated
  | v :: s' => _ ← putS s'; mret (b2z v)
  end.
Definition cbytes (n : Z) : CM (list byte) :=
  s ← getS;
  if (n <? 0) || (zlen s <? n) then throw ErrTruncated
  else _ ← putS (drop (Z.to_nat n) s); mret (take (Z.to_nat n) s).

(** [v] is a [uint32], whose shift drops what does not fit. *)
Fixpoint u32leb_loop (n : nat) (shift v : Z) : CM Z :=
  match n with
  | O => throw ErrOverflow
  | S n' =>
      b ← cu8;
      if (shift =? 28) && negb (Z.land b 0xf0 =? 0) then throw ErrOverflow
      else
        let v := Z.lor v (u32 (Z.shiftl (Z.land b 0x7f) shift)) in
        if Z.land b 0x80 =? 0 then mret v else u32leb_loop n' (shift + 7) v
  end.
Definition u32leb : CM Z := u32leb_loop 5 0 0.

(** [s32leb] and [s64leb], which differ in the width [w]; [n] bytes are left. *)
Fixpoint sleb_cursor (w : Z) (n : nat) (shift v : Z) : CM Z :=
  match n with
  | O => throw ErrOverflow
  | S n' =>
      b ← cu8;
      let v := Z.lor v (swrap w (Z.shiftl (Z.land b 0x7f) shift)) in
      let shift := shift + 7 in
      if Z.land b 0x80 =? 0 then
        mret (if (shift <? w) && negb (Z.land b 0x40 =? 0) then Z.lor v (swrap w (Z.shiftl (-1) shift)) else v)
      else sleb_cursor w n' shift v
  end.
Definition s32leb : CM Z := sleb_cursor 32 5 0 0.
Definition s64leb : CM Z := sleb_cursor 64 10 0 0.

Definition cname : CM (list byte) :=
  n ← u32leb;
  cbytes n.
Definition vecLen : CM Z :=
  n ← u32leb;
  left ← rest;
  if left <? n then throw ErrTruncated else mret n.

(** ** Writing *)

Fixpoint ulebEnc_loop (fuel : nat) (v : Z) : list byte :=
  match fuel with
  | O => []
  | S f =>
      let b := Z.land v 0x7f in
      let v := Z.shiftr v 7 in
      if negb (v =? 0) then z2b (Z.lor b 0x80) :: ulebEnc_loop f v else [z2b b]
  end.
(** A [uint32] has five groups of seven bits. *)
Definition ulebEnc (v : Z) : list byte := ulebEnc_loop 5 v.

Fixpoint slebEnc_loop (fuel : nat) (v : Z) : list byte :=
  match fuel with
  | O => []
  | S f =>
      let b := Z.land v 0x7f in
      let v := Z.shiftr v 7 in
      if (v =? 0) && (Z.land b 0x40 =? 0) || (v =? -1) && negb (Z.land b 0x40 =? 0) then [z2b b]
      else z2b (Z.lor b 0x80) :: slebEnc_loop f v
  end.
Definition slebEnc (v : Z) : list byte := slebEnc_loop 5 v.

Definition fibSec (id : Z) (payload : list byte) : list byte := z2b id :: ulebEnc (zlen payload) ++ payload.
Definition constI32 (v : Z) : list byte := Byte.x41 :: slebEnc v.

Definition hex (l : list Z) : list byte := z2b <$> l.

Definition printSeq (ptr length : Z) : list byte :=
  constI32 64 ++ constI32 ptr ++ hex [0x36; 0x02; 0x00]
  ++ constI32 64 ++ constI32 length ++ hex [0x36; 0x02; 0x04]
  ++ constI32 1 ++ constI32 64 ++ constI32 1 ++ constI32 80
  ++ hex [0x10; 0x00] ++ hex [0x1a].

Definition StampABIVer (wasm : list byte) (ver : byte) : list byte :=
  let name := bs "abi_ver" in
  let body := ulebEnc (zlen name) ++ name ++ [ver] in
  wasm ++ Byte.x00 :: ulebEnc (zlen body) ++ body.

Definition fibBodyWrap (localsAndOps : list byte) : list byte := ulebEnc (zlen localsAndOps) ++ localsAndOps.

(** ** The module *)

Definition fib_main : list byte :=
  hex [0x00] ++ constI32 20 ++ hex [0x10; 0x02] ++ constI32 6765 ++ hex [0x46] ++ hex [0x04; 0x40]
  ++ printSeq 100 10 ++ hex [0x05] ++ printSeq 120 11 ++ hex [0x0b]
  ++ constI32 20 ++ hex [0x10; 0x02] ++ hex [0x0b].
Definition fibBody : list byte :=
  fibBodyWrap (hex [0x00] ++ hex [
    0x20; 0x00; 0x41; 0x02; 0x48;
    0x04; 0x7f; 0x20; 0x00; 0x05;
    0x20; 0x00; 0x41; 0x01; 0x6b; 0x10; 0x02;
    0x20; 0x00; 0x41; 0x02; 0x6b; 0x10; 0x02;
    0x6a; 0x0b; 0x0b]).
Definition fib_code : list byte := ulebEnc 2 ++ fibBodyWrap fib_main ++ fibBody.
Definition fib_imports : list byte :=
  let md := bs "wasi_snapshot_preview1" in
  let nm := bs "fd_write" in
  ulebEnc 1 ++ ulebEnc (zlen md) ++ md ++ ulebEnc (zlen nm) ++ nm ++ hex [0x00; 0x02].
Definition okMsg : list byte := bs "NATIVE-OK" ++ [Byte.x0a].
Definition badMsg : list byte := bs "NATIVE-BAD" ++ [Byte.x0a].
Definition fib_data : list byte :=
  ulebEnc 2 ++ hex [0x00; 0x41] ++ slebEnc 100 ++ hex [0x0b] ++ ulebEnc (zlen okMsg) ++ okMsg
  ++ hex [0x00; 0x41] ++ slebEnc 120 ++ hex [0x0b] ++ ulebEnc (zlen badMsg) ++ badMsg.
Definition FibModule : list byte :=
  let out := hex [0x00; 0x61; 0x73; 0x6d; 0x01; 0x00; 0x00; 0x00]
    ++ fibSec 1 (hex [
         0x03; 0x60; 0x00; 0x01; 0x7f;
         0x60; 0x01; 0x7f; 0x01; 0x7f;
         0x60; 0x04; 0x7f; 0x7f; 0x7f; 0x7f; 0x01; 0x7f])
    ++ fibSec 2 fib_imports
    ++ fibSec 3 (hex [0x02; 0x00; 0x01])
    ++ fibSec 5 (hex [0x01; 0x00; 0x01])
    ++ fibSec 7 (hex [0x02; 0x04] ++ bs "main" ++ hex [0x00; 0x01; 0x06] ++ bs "_start" ++ hex [0x00; 0x01])
    ++ fibSec 10 fib_code
    ++ fibSec 11 fib_data in
  StampABIVer out Byte.x02.
