(* ===== verification/ModuleFacts.v ===== *)
(** * ModuleFacts: the sections of a module as every reader sees them

    A module the kernel decodes is a header and a list of sections.  Each
    reader and writer of [ModuleTools] and [WasmModule] is
    described on that list. *)

From S2P Require Import Prelude FsServer WasmNum WasmTheorems WasmDecode WasmModule WasmWalk WasmLower WasmAccept ModuleTools.

(** ** Lengths *)

Lemma land_7f x : Z.land x 0x7f = x mod 128.
Proof. change 0x7f with (Z.ones 7). by rewrite Z.land_ones. Qed.
Lemma low_byte x : 0 <= x < 128 -> Z.land x 0x80 = 0 /\ Z.land (Z.lor x 0x80) 0x80 <> 0 /\ Z.lor x 0x80 = x + 128.
Proof.
  intros Hx. assert (Z.land x 128 = 0) as E.
  { apply Z.bits_inj'. intros k Hk. rewrite Z.land_spec, Z.bits_0. change 128 with (2 ^ 7). rewrite Z.pow2_bits_eqb by lia.
    destruct (Z.eqb_spec 7 k) as [<-|]; [|by rewrite andb_false_r]. rewrite Z.bits_above_log2; [done|lia|].
    destruct (decide (x = 0)) as [->|]; [done|]. apply Z.log2_lt_pow2; lia. }
  split_and!; [done| |].
  - rewrite Z.land_lor_distr_l, E. done.
  - rewrite <- Z.add_lor_land, E. lia.
Qed.
Lemma high_bit (c : byte) : (Z.land (b2z c) 0x80 =? 0) = (b2z c <? 0x80).
Proof. by destruct c. Qed.
Lemma high_nibble (c : byte) : Z.land (b2z c) 0xf0 = 0 -> b2z c < 16.
Proof. by destruct c. Qed.

(** The kernel's reader, with the number of bytes it used. *)
Definition kernel_read (s : list byte) : option (Z * Z) :=
  (fun '(v, s') => (v, zlen s - zlen s')) <$> uleb32 s.
Definition agrees (read : list byte -> option (Z * Z)) : Prop :=
  forall s v n, kernel_read s = Some (v, n) -> read s = Some (v, n).

Lemma uleb32_loop_split n shift res s v s' :
  uleb32_loop n shift res s = Some (v, s') -> exists p, s = p ++ s' /\ (0 < length p <= n)%nat /\ forall x, uleb32_loop n shift res (p ++ x) = Some (v, x).
Proof.
  revert shift res s. induction n as [|n IH]; intros shift res [|c s] H1; try discriminate. cbn [uleb32_loop] in H1.
  destruct ((shift =? 28) && _) eqn:E1; [discriminate|]. destruct (Z.land (b2z c) 0x80 =? 0) eqn:E2.
  - injection H1 as <- <-. exists [c]. split_and!; [done|cbn; lia|cbn; lia|]. intros x. cbn. by rewrite E1, E2.
  - destruct (IH _ _ _ H1) as (p & -> & Hp & Hx). exists (c :: p). split_and!; [done|cbn; lia|cbn; lia|]. intros x. cbn. by rewrite E1, E2.
Qed.

(** The results stay below the bits the loop has reached. *)
Lemma uleb32_value n k shift res (c : byte) :
  n = (5 - k)%nat -> (k < 5)%nat -> shift = 7 * Z.of_nat k -> 0 <= res < 2 ^ shift ->
  (shift =? 28) && negb (Z.land (b2z c) 0xf0 =? 0) = false ->
  0 <= Z.lor res (Z.shiftl (Z.land (b2z c) 0x7f) shift) < 2 ^ (shift + 7)
  /\ 0 <= Z.lor res (Z.shiftl (Z.land (b2z c) 0x7f) shift) < 2 ^ 32.
Proof.
  intros -> Hk -> Hr Hc. pose proof (b2z_range c). pose proof (Z.mod_pos_bound (b2z c) 128 ltac:(lia)).
  rewrite land_7f, lor_shift by lia. set (x := b2z c mod 128) in *. rewrite Z.pow_add_r by lia.
  split; [nia|]. destruct (decide (k = 4%nat)) as [->|Hne].
  - cbn [Z.of_nat Z.mul Z.eqb Pos.mul Pos.of_succ_nat Pos.succ Pos.eqb andb] in *. apply negb_false_iff, Z.eqb_eq, high_nibble in Hc.
    assert (x < 16) by (unfold x; rewrite Z.mod_small; lia). cbn in *. lia.
  - assert (2 ^ (7 * Z.of_nat k) <= 2 ^ 21) by (apply Z.pow_le_mono_r; lia). nia.
Qed.

Lemma group_small (c : byte) shift : 0 <= shift <= 28 -> 0 <= Z.shiftl (Z.land (b2z c) 0x7f) shift < 2 ^ 35.
Proof.
  intros Hs. rewrite land_7f, Z.shiftl_mul_pow2 by lia. pose proof (Z.mod_pos_bound (b2z c) 128 ltac:(lia)).
  assert (2 ^ shift <= 2 ^ 28) by (apply Z.pow_le_mono_r; lia). nia.
Qed.

Lemma uleb32_pkg n k shift res pos s v s' :
  n = (5 - k)%nat -> shift = 7 * Z.of_nat k -> 0 <= res < 2 ^ shift ->
  uleb32_loop n shift res s = Some (v, s') -> leb128_loop n shift res pos s = Some (v, pos + (zlen s - zlen s')).
Proof.
  revert k shift res pos s. induction n as [|n IH]; intros k shift res pos [|c s] Hn Hsh Hr H1; try discriminate.
  cbn [uleb32_loop leb128_loop] in *. destruct ((shift =? 28) && _) eqn:E1; [discriminate|].
  destruct (uleb32_value (S n) k shift res c) as [V1 V2]; try done; [lia|]. rewrite high_bit in H1. destruct (b2z c <? 0x80).
  - injection H1 as <- <-. rewrite u32_small by done. do 2 f_equal. rewrite zlen_cons. lia.
  - rewrite (IH (S k) (shift + 7) _ _ _ ltac:(lia) ltac:(lia) V1 H1). do 2 f_equal. rewrite zlen_cons. lia.
Qed.
Lemma uleb32_stamp n k shift res i s v s' :
  n = (5 - k)%nat -> shift = 7 * Z.of_nat k -> 0 <= res < 2 ^ shift ->
  uleb32_loop n shift res s = Some (v, s') -> readLEB_loop (n + 5) shift res i s = Some (v, i + (zlen s - zlen s')).
Proof.
  revert k shift res i s. induction n as [|n IH]; intros k shift res i [|c s] Hn Hsh Hr H1; try discriminate.
  cbn [uleb32_loop readLEB_loop Nat.add] in *. destruct ((shift =? 28) && _) eqn:E1; [discriminate|].
  destruct (uleb32_value (S n) k shift res c) as [V1 V2]; try done; [lia|].
  pose proof (group_small c shift ltac:(lia)). rewrite (u64_small (Z.shiftl _ _)) by lia.
  destruct (Z.land (b2z c) 0x80 =? 0).
  - injection H1 as <- <-. rewrite u32_small by done. do 2 f_equal. rewrite zlen_cons. lia.
  - rewrite (IH (S k) (shift + 7) _ _ _ ltac:(lia) ltac:(lia) V1 H1). do 2 f_equal. rewrite zlen_cons. lia.
Qed.
Lemma uleb32_full n k shift res pos s v s' :
  n = (5 - k)%nat -> shift = 7 * Z.of_nat k -> 0 <= res < 2 ^ shift ->
  uleb32_loop n shift res s = Some (v, s') -> full_loop shift res pos s = (v, pos + (zlen s - zlen s')).
Proof.
  revert k shift res pos s. induction n as [|n IH]; intros k shift res pos [|c s] Hn Hsh Hr H1; try discriminate.
  cbn [uleb32_loop full_loop] in *. destruct ((shift =? 28) && _) eqn:E1; [discriminate|].
  destruct (uleb32_value (S n) k shift res c) as [V1 V2]; try done; [lia|].
  pose proof (group_small c shift ltac:(lia)). rewrite (i64_small (Z.shiftl _ _)) by lia.
  rewrite high_bit in H1. destruct (b2z c <? 0x80).
  - injection H1 as <- <-. rewrite u32_small by done. f_equal. rewrite zlen_cons. lia.
  - rewrite (IH (S k) (shift + 7) _ _ _ ltac:(lia) ltac:(lia) V1 H1). f_equal. rewrite zlen_cons. lia.
Qed.

Lemma kernel_read_inv s v n :
  kernel_read s = Some (v, n) ->
  exists p s', s = p ++ s' /\ uleb32 s = Some (v, s') /\ n = zlen p /\ 0 < n <= 5 /\ 0 <= v < 2 ^ 32 /\ forall x, uleb32 (p ++ x) = Some (v, x).
Proof.
  unfold kernel_read. destruct (uleb32 s) as [[v' s']|] eqn:E; [|done]. intros [= <- <-].
  destruct (uleb32_loop_split _ _ _ _ _ _ E) as (p & -> & Hp & Hx). exists p, s'. rewrite zlen_app. split_and!; try done; try (unfold zlen; lia).
  all: apply (uleb32_loop_range _ _ _ _ _ _ E).
Qed.
Lemma agrees_pkg : agrees readLEB128_at.
Proof.
  intros s v n H1. destruct (kernel_read_inv _ _ _ H1) as (p & s' & -> & E & -> & _). unfold readLEB128_at, readLEB128. change (drop (Z.to_nat 0) (p ++ s')) with (p ++ s').
  rewrite (uleb32_pkg 5 0 0 0 0 (p ++ s') v s'); [|done..]. do 2 f_equal. rewrite zlen_app. lia.
Qed.
Lemma agrees_stamp : agrees readLEB.
Proof.
  intros s v n H1. destruct (kernel_read_inv _ _ _ H1) as (p & s' & -> & E & -> & _). unfold readLEB. change 10%nat with (5 + 5)%nat.
  rewrite (uleb32_stamp 5 0 0 0 0 (p ++ s') v s'); [|done..]. do 2 f_equal. rewrite zlen_app. lia.
Qed.
Lemma agrees_sign s v n : kernel_read s = Some (v, n) -> sign_readLEB128Full s = (v, n).
Proof.
  intros H1. destruct (kernel_read_inv _ _ _ H1) as (p & s' & -> & E & -> & _). unfold sign_readLEB128Full.
  rewrite (uleb32_full 5 0 0 0 0 (p ++ s') v s'); [|done..]. f_equal. rewrite zlen_app. lia.
Qed.
Lemma agrees_full s v n : kernel_read s = Some (v, n) -> readLEB128Full s = (v, n).
Proof. intros H1. apply agrees_pkg in H1. unfold readLEB128Full. unfold readLEB128_at, readLEB128 in H1. change (drop (Z.to_nat 0) s) with s in H1. by rewrite H1. Qed.

(** *** The writers *)

Lemma stamp_leb_Leb v : 0 <= v -> stamp_leb v = Leb v.
Proof.
  unfold stamp_leb, Leb. generalize 10%nat. intros n. revert v. induction n as [|n IH]; intros v Hv; [done|]. cbn.
  assert (0 <= Z.shiftr v 7) by (by apply Z.shiftr_nonneg). rewrite IH by done.
  destruct (Z.ltb_spec 0 (Z.shiftr v 7)); [by rewrite (proj2 (Z.eqb_neq _ 0)) by lia|by rewrite (proj2 (Z.eqb_eq _ 0)) by lia].
Qed.

Lemma uleb32_Leb n k shift res v x :
  n = (5 - k)%nat -> (k < 5)%nat -> shift = 7 * Z.of_nat k -> 0 <= res < 2 ^ shift -> 0 <= v < 2 ^ (32 - shift) ->
  uleb32_loop n shift res (Leb_loop (n + 5) v ++ x) = Some (res + v * 2 ^ shift, x).
Proof.
  revert k shift res v. induction n as [|n IH]; intros k shift res v Hn Hk Hsh Hr [Hv Hb]; [lia|].
  cbn [Leb_loop Nat.add]. rewrite land_7f, Z.shiftr_div_pow2 by lia. change (2 ^ 7) with 128.
  pose proof (Z.mod_pos_bound v 128 ltac:(lia)) as Hm. destruct (low_byte _ Hm) as (L1 & L2 & L3).
  assert (shift = 28 -> v < 16) as H28 by (intros ->; lia).
  assert (1 <= 2 ^ shift) by (pose proof (Z.pow_pos_nonneg 2 shift); lia).
  assert (2 ^ 32 = 2 ^ shift * 2 ^ (32 - shift)) as Hp by (rewrite <- Z.pow_add_r by lia; f_equal; lia).
  pose proof (Z.div_mod v 128 ltac:(lia)) as Hdm. destruct (Z.ltb_spec 0 (v / 128)) as [Hd|Hd]; cbn [app uleb32_loop]; rewrite b2z_z2b.
  - rewrite (Z.mod_small (Z.lor _ _)) by lia. destruct (Z.eqb_spec shift 28) as [->|Hne]; [lia|]. cbn [andb]. rewrite (proj2 (Z.eqb_neq _ 0)) by done.
    rewrite L3, land_7f, <- (Z.add_mod_idemp_r _ 128) by lia. change (128 mod 128) with 0. rewrite Z.add_0_r, Z.mod_mod by lia.
    rewrite lor_shift by lia. rewrite (IH (S k) (shift + 7)); try lia.
    + do 2 f_equal. rewrite Z.pow_add_r by lia. change (2 ^ 7) with 128. rewrite Hdm at 3. ring.
    + rewrite Z.pow_add_r by lia. change (2 ^ 7) with 128. clear -Hr Hm. nia.
    + split; [lia|]. apply Z.div_lt_upper_bound; [lia|]. change 128 with (2 ^ 7). rewrite <- Z.pow_add_r by lia.
      replace (7 + (32 - (shift + 7))) with (32 - shift) by lia. done.
  - assert (v < 128) by lia. rewrite (Z.mod_small v 128) in * by lia. rewrite (Z.mod_small v 256) by lia. rewrite L1. cbn [Z.eqb].
    replace ((shift =? 28) && negb (Z.land v 0xf0 =? 0)) with false.
    + rewrite land_7f, (Z.mod_small v 128), lor_shift by lia. rewrite u32_small; [done|]. rewrite Hp. clear -Hr Hv Hb. nia.
    + destruct (Z.eqb_spec shift 28) as [E|]; [|done]. specialize (H28 E). rewrite <- (Z.mod_small v 16) by lia. change 16 with (2 ^ 4).
      rewrite <- Z.land_ones, <- Z.land_assoc by lia. by rewrite Z.land_0_r.
Qed.

(** ** A module as a list of sections *)

Record Sect := mkSect { sc_id : byte; sc_payload : list byte; sc_raw : list byte }.

(** The name of a custom section and what follows it. *)
Definition sc_custom (x : Sect) : option (list byte * list byte) :=
  if b2z (sc_id x) =? 0 then rd_name (sc_payload x) else None.
Record good (x : Sect) : Prop := mkGood {
  g_cut : forall rest, cut_section kernel_read (sc_raw x ++ rest) = Some (sc_id x, sc_payload x, sc_raw x, rest);
  g_name : b2z (sc_id x) = 0 -> is_Some (sc_custom x)
}.
Definition bytes (l : list Sect) : list byte := concat (sc_raw <$> l).

(** The kernel's decoder on that list. *)
Fixpoint run_list (last : Z) (b : Builder) (l : list Sect) : option Builder :=
  match l with
  | [] => Some b
  | x :: l =>
      if b2z (sc_id x) =? 0 then
        match in_payload (decode_custom b) (sc_payload x) with Ok b' => run_list last b' l | _ => None end
      else
        match section_order (b2z (sc_id x)) with
        | Some order =>
            if last <? order then
              match in_payload (decode_section (b2z (sc_id x)) b) (sc_payload x) with Ok b' => run_list order b' l | _ => None end
            else None
        | None => None
        end
  end.

Lemma cut_intro id p v x :
  (forall y, uleb32 (p ++ y) = Some (v, y)) -> 0 <= v <= zlen x ->
  cut_section kernel_read (id :: p ++ x) = Some (id, take (Z.to_nat v) x, id :: p ++ take (Z.to_nat v) x, drop (Z.to_nat v) x).
Proof.
  intros Hp Hv. unfold cut_section, kernel_read. rewrite Hp. cbn [fmap option_fmap option_map]. rewrite zlen_app.
  replace (zlen p + zlen x - zlen x) with (zlen p) by lia. pose proof (zlen_nonneg p). rewrite (proj2 (Z.ltb_ge _ _)) by lia.
  unfold slice. replace (zlen p + v - zlen p) with v by lia.
  replace (drop (Z.to_nat (zlen p)) (p ++ x)) with x by (unfold zlen; by rewrite Nat2Z.id, drop_app_length).
  replace (drop (Z.to_nat (zlen p + v)) (p ++ x)) with (drop (Z.to_nat v) x).
  2: { rewrite drop_app_ge by (unfold zlen in *; lia). f_equal. unfold zlen in *. lia. }
  replace (Z.to_nat (1 + zlen p + v)) with (S (length p + Z.to_nat v)) by (unfold zlen in *; lia).
  cbn [take]. rewrite take_app_ge by lia. do 4 f_equal. f_equal. f_equal. lia.
Qed.

(** A section the kernel has read. *)
Lemma good_intro id s1 size s2 :
  uleb32 s1 = Some (size, s2) -> size <= zlen s2 ->
  (b2z id = 0 -> is_Some (rd_name (take (Z.to_nat size) s2))) ->
  exists x, good x /\ sc_id x = id /\ sc_payload x = take (Z.to_nat size) s2 /\ id :: s1 = sc_raw x ++ drop (Z.to_nat size) s2.
Proof.
  intros E Hs Hn. destruct (uleb32_loop_split _ _ _ _ _ _ E) as (p & -> & _ & Hx). pose proof (uleb32_loop_range _ _ _ _ _ _ E).
  exists (mkSect id (take (Z.to_nat size) s2) (id :: p ++ take (Z.to_nat size) s2)). cbn [sc_id sc_payload sc_raw]. split_and!; [|done..|].
  - split; cbn [sc_id sc_payload sc_raw]; [|intros E0; unfold sc_custom; cbn [sc_id sc_payload]; rewrite E0; by apply Hn]. intros rest.
    cbn [app]. rewrite <- app_assoc, (cut_intro id p size); [|done|].
    + rewrite take_app_length', drop_app_length' by (rewrite length_take; unfold zlen in *; lia). done.
    + rewrite zlen_app. unfold zlen in *. rewrite length_take. lia.
  - cbn [app]. by rewrite <- app_assoc, take_drop.
Qed.

Lemma need_some {A} st (f : list byte -> option (A * list byte)) s x s' : need st f s = (Ok x, s') <-> f s = Some (x, s').
Proof. unfold need. destruct (f s) as [[y t]|]; split; congruence. Qed.
Lemma rd_bytes_some n s x s' : rd_bytes n s = Some (x, s') <-> n <= zlen s /\ x = take (Z.to_nat n) s /\ s' = drop (Z.to_nat n) s.
Proof. unfold rd_bytes. destruct (Z.leb_spec n (zlen s)); (split; [intros E; simplify_eq; auto|intros (? & -> & ->)]); (done || lia). Qed.

Lemma decode_custom_ok b payload b' :
  in_payload (decode_custom b) payload = Ok b' <->
  exists name rest, rd_name payload = Some (name, rest)
    /\ b' = (if bool_decide (name = abi_ver) then match rest with v :: _ => (set_abi (Some (b2z v)) b.1, b.2) | [] => b end else b).
Proof.
  unfold in_payload, decode_custom, mbind, M_bind, need. destruct (rd_name payload) as [[name rest]|]; cbn.
  - split.
    + intros [= <-]. exists name, rest. split; [done|]. destruct rest; [by destruct (bool_decide _)|done].
    + intros (name' & rest' & [= <- <-] & ->). f_equal. destruct rest; [by destruct (bool_decide _)|done].
  - split; [done|]. by intros (? & ? & ? & ?).
Qed.

Lemma sections_list n last b s b' s' :
  sections n last b s = (Ok b', s') ->
  s' = [] /\ exists l, Forall good l /\ s = bytes l /\ (length l <= n)%nat /\ run_list last b l = Some b'.
Proof.
  revert last b s. induction n as [|n IH]; intros last b s Hs; cbn [sections] in Hs; rewrite bind_getS in Hs; destruct s as [|c s].
  - injection Hs as <- <-. split; [done|]. by exists [].
  - done.
  - injection Hs as <- <-. split; [done|]. exists []. split_and!; [done..|cbn; lia|done].
  - minv Hs.
    all: apply need_some in Hm, Hm0, Hm1; injection Hm as <- <-; apply rd_bytes_some in Hm1 as (Hsz & -> & ->).
    + injection Hm2 as Hc <-. pose proof Hc as (nm & bd & Hnm & _)%decode_custom_ok.
      destruct (good_intro c _ _ _ Hm0 Hsz) as (x & Hg & <- & Hp & Hraw); [by eexists|].
      destruct (IH _ _ _ Hs) as (-> & l & Hl & El & Hn & Hrun). split; [done|]. exists (x :: l).
      split_and!; [by constructor|by rewrite Hraw, El|cbn; lia|]. cbn [run_list]. by rewrite E, Hp, Hc.
    + destruct (section_order _) as [order|] eqn:Eo; [|done]. minv Hs. injection Hm1 as Hc <-. unfold check in Hm. destruct (last <? order) eqn:Elo; [|done].
      injection Hm as _ <-. destruct (good_intro c _ _ _ Hm0 Hsz) as (y & Hg & <- & Hp & Hraw); [by intros ?%Z.eqb_eq; congruence|].
      destruct (IH _ _ _ Hs) as (-> & l & Hl & El & Hn & Hrun). split; [done|]. exists (y :: l).
      split_and!; [by constructor|by rewrite Hraw, El|cbn; lia|]. cbn [run_list]. by rewrite E, Eo, Elo, Hp, Hc.
Qed.

(** The other direction. *)
Lemma cut_inv s id payload raw rest :
  cut_section kernel_read s = Some (id, payload, raw, rest) ->
  exists s1 size s2, s = id :: s1 /\ uleb32 s1 = Some (size, s2) /\ size <= zlen s2 /\ payload = take (Z.to_nat size) s2 /\ rest = drop (Z.to_nat size) s2
    /\ raw = take (length s - length rest) s.
Proof.
  unfold cut_section. destruct s as [|c s1]; [done|]. destruct (kernel_read s1) as [[v n]|] eqn:E; [|done].
  destruct (kernel_read_inv _ _ _ E) as (p & s2 & -> & E1 & -> & Hp & Hv & _). rewrite zlen_app. case_match eqn:Hc; [done|]. intros [= <- <- <- <-].
  apply Z.ltb_ge in Hc. exists (p ++ s2), v, s2. split_and!; try done; [lia| | |].
  - unfold slice. replace (zlen p + v - zlen p) with v by lia. unfold zlen. by rewrite Nat2Z.id, drop_app_length.
  - rewrite drop_app_ge by (unfold zlen in *; lia). f_equal. unfold zlen in *. lia.
  - cbn [length]. f_equal. rewrite length_drop, length_app. unfold zlen in *. lia.
Qed.

Lemma list_sections n last b l b' :
  Forall good l -> (length l <= n)%nat -> run_list last b l = Some b' -> sections n last b (bytes l) = (Ok b', []).
Proof.
  intros HF. revert n last b. induction HF as [|x l [Hg Hn] HF IH]; intros n last b Hlen Hrun.
  - injection Hrun as <-. by destruct n.
  - destruct n as [|n]; cbn in Hlen; [lia|]. change (bytes (x :: l)) with (sc_raw x ++ bytes l).
    destruct (cut_inv _ _ _ _ _ (Hg (bytes l))) as (s1 & size & s2 & Es & E1 & Hsz & Epay & Erest & _).
    cbn [run_list] in Hrun. rewrite Es. cbn [sections]. rewrite bind_getS.
    rewrite (bind_ok _ _ _ (b2z (sc_id x)) s1) by done. rewrite (bind_ok _ _ _ size s2) by (by apply need_some).
    rewrite (bind_ok _ _ _ (sc_payload x) (bytes l)) by (by apply need_some, rd_bytes_some). destruct (b2z (sc_id x) =? 0).
    + destruct (in_payload _ _) as [b1| |]; try done. rewrite (bind_ok _ _ _ b1 (bytes l)) by done. apply IH; [lia|done].
    + destruct (section_order _) as [order|]; [|done]. destruct (last <? order); [|done]. rewrite (bind_ok _ _ _ tt (bytes l)) by done.
      destruct (in_payload _ _) as [b1| |]; try done. rewrite (bind_ok _ _ _ b1 (bytes l)) by done. apply IH; [lia|done].
Qed.

(** ** The readers on the list *)

Definition named (name : list byte) (x : Sect) : option (list byte) :=
  match sc_custom x with
  | Some (nm, bd) => if bool_decide (nm = name) then Some bd else None
  | None => None
  end.
Fixpoint find_list (name : list byte) (i : Z) (l : list Sect) : option Found :=
  match l with
  | [] => None
  | x :: l =>
      match named name x with
      | Some bd => Some (mkFound i (zlen (sc_raw x)) bd)
      | None => find_list name (i + zlen (sc_raw x)) l
      end
  end.

Lemma name_split payload nm bd :
  rd_name payload = Some (nm, bd) ->
  exists n j, kernel_read payload = Some (n, j) /\ 0 < j <= 5 /\ 0 <= n < 2 ^ 32 /\ j + n <= zlen payload
    /\ slice payload j (j + n) = nm /\ drop (Z.to_nat (j + n)) payload = bd.
Proof.
  unfold rd_name. destruct (uleb32 payload) as [[n q]|] eqn:E; [|done]. intros (Hn & -> & ->)%rd_bytes_some.
  assert (kernel_read payload = Some (n, zlen payload - zlen q)) as Hk by (unfold kernel_read; by rewrite E).
  destruct (kernel_read_inv _ _ _ Hk) as (p & q' & -> & E' & Hj & Hp & Hv & _). assert (q' = q) as -> by congruence. rewrite Hj in *.
  exists n, (zlen p). rewrite zlen_app. split_and!; try done; try lia.
  - unfold slice. replace (zlen p + n - zlen p) with n by lia. unfold zlen. by rewrite Nat2Z.id, drop_app_length.
  - rewrite drop_app_ge by (unfold zlen in *; lia). f_equal. unfold zlen in *. lia.
Qed.

Lemma drop_cons_inv {A} n (l : list A) x r : drop n l = x :: r -> l !! n = Some x /\ drop (S n) l = r.
Proof.
  intros E. split.
  - rewrite <- (Nat.add_0_r n), <- lookup_drop, E. done.
  - rewrite <- Nat.add_1_r, <- drop_drop, E. done.
Qed.

(** The header of a section, at a position of the module. *)
Lemma section_at data i x rest :
  good x -> 0 <= i -> drop (Z.to_nat i) data = sc_raw x ++ rest ->
  exists size i', at_ data i = Some (sc_id x) /\ readLEB128 data (i + 1) = Some (size, i') /\ i' + size <= zlen data
    /\ slice data i' (i' + size) = sc_payload x /\ i' - i + size = zlen (sc_raw x) /\ drop (Z.to_nat (i + zlen (sc_raw x))) data = rest.
Proof.
  intros Hg Hi Hd. destruct (cut_inv _ _ _ _ _ (g_cut _ Hg rest)) as (s1 & size & s2 & Es & E1 & Hsz & Epay & Erest & Eraw).
  rewrite Es in Hd. destruct (drop_cons_inv _ _ _ _ Hd) as [Hl Hd1]. pose proof (uleb32_loop_range _ _ _ _ _ _ E1) as Hv.
  destruct (uleb32_loop_split _ _ _ _ _ _ E1) as (p & -> & Hp & _).
  assert (length data = Z.to_nat i + S (length p + length s2))%nat as Hlen.
  { apply lookup_lt_Some in Hl. apply (f_equal length) in Hd. rewrite length_drop in Hd. cbn in Hd. rewrite length_app in Hd. lia. }
  assert (zlen (sc_raw x) = 1 + zlen p + size) as Hraw.
  { apply (f_equal length) in Es. rewrite length_app in Es. cbn in Es. rewrite length_app, Erest, length_drop in Es. unfold zlen in *. lia. }
  assert (forall k, drop (Z.to_nat (i + 1 + zlen p) + k) data = drop k s2) as Hdr.
  { intros k. replace (Z.to_nat (i + 1 + zlen p) + k)%nat with (S (Z.to_nat i) + (length p + k))%nat by (unfold zlen; lia).
    rewrite <- drop_drop, Hd1. by rewrite drop_app_add. }
  exists size, (i + 1 + zlen p). split_and!.
  - unfold at_. rewrite (proj2 (Z.ltb_ge _ 0)) by lia. done.
  - unfold readLEB128. replace (Z.to_nat (i + 1)) with (S (Z.to_nat i)) by lia. rewrite Hd1, (uleb32_pkg 5 0 0 0 (i + 1) (p ++ s2) size s2) by done.
    do 2 f_equal. rewrite zlen_app. lia.
  - unfold zlen in *. lia.
  - unfold slice. rewrite Epay. replace (i + 1 + zlen p + size - (i + 1 + zlen p)) with size by lia.
    pose proof (Hdr 0%nat) as H0. rewrite Nat.add_0_r in H0. by rewrite H0.
  - lia.
  - rewrite Erest, <- Hdr. f_equal. unfold zlen in *. lia.
Qed.

Lemma good_raw x : good x -> sc_raw x <> [].
Proof. intros Hg E. pose proof (g_cut _ Hg []) as Hc. rewrite E in Hc. discriminate Hc. Qed.
Lemma length_bytes l : Forall good l -> (length l <= length (bytes l))%nat.
Proof.
  induction 1 as [|x l Hg HF IH]; [done|]. unfold bytes in *. cbn. rewrite length_app. pose proof (good_raw _ Hg).
  destruct (sc_raw x); [done|]. cbn. lia.
Qed.
Lemma at_end {A} (data : list A) i : 0 <= i -> drop (Z.to_nat i) data = [] -> at_ data i = None.
Proof.
  intros Hi Hd. unfold at_. rewrite (proj2 (Z.ltb_ge _ 0)) by lia. apply lookup_ge_None. apply (f_equal length) in Hd. rewrite length_drop in Hd. cbn in Hd. lia.
Qed.

Lemma scan_list f data name i l :
  Forall good l -> 0 <= i -> drop (Z.to_nat i) data = bytes l -> (length l <= f)%nat -> scan f data name i = find_list name i l.
Proof.
  intros HF. revert f i. induction HF as [|x l Hg HF IH]; intros f i Hi Hd Hf.
  - destruct f; [done|]. cbn [scan]. by rewrite at_end.
  - destruct f as [|f]; cbn in Hf; [lia|]. destruct (section_at _ _ _ _ Hg Hi Hd) as (size & i' & E1 & E2 & E3 & E4 & E5 & E6).
    cbn [scan find_list]. rewrite E1, E2, (proj2 (Z.ltb_ge _ _)), E4 by lia. pose proof (zlen_nonneg (sc_raw x)).
    assert (scan f data name (i' + size) = find_list name (i + zlen (sc_raw x)) l) as Hrest.
    { replace (i' + size) with (i + zlen (sc_raw x)) by lia. apply IH; [lia|done|lia]. }
    unfold named. destruct (Z.eqb_spec (b2z (sc_id x)) 0) as [E|E].
    + destruct (g_name _ Hg E) as [[nm bd] Hn]. rewrite Hn. unfold sc_custom in Hn. rewrite E in Hn.
      destruct (name_split _ _ _ Hn) as (n & j & Hk & Hj & _ & Hle & Hs & Hb). rewrite (agrees_full _ _ _ Hk), (proj2 (Z.leb_le _ _)), Hs, Hb by lia.
      cbn [andb]. rewrite E5. by destruct (bool_decide _).
    + unfold sc_custom. rewrite (proj2 (Z.eqb_neq _ 0)) by done. by destruct (readLEB128Full _).
Qed.

Lemma sign_scan_list f data name i l :
  Forall good l -> 0 <= i -> drop (Z.to_nat i) data = bytes l -> (length l <= f)%nat ->
  sign_scan f data name i = Ok (body <$> find_list name i l).
Proof.
  intros HF. revert f i. induction HF as [|x l Hg HF IH]; intros f i Hi Hd Hf.
  - destruct f; [done|]. cbn [sign_scan]. by rewrite at_end.
  - destruct f as [|f]; cbn in Hf; [lia|]. destruct (section_at _ _ _ _ Hg Hi Hd) as (size & i' & E1 & E2 & E3 & E4 & E5 & E6).
    cbn [sign_scan find_list]. rewrite E1, E2, (proj2 (Z.ltb_ge _ _)), E4 by lia. pose proof (zlen_nonneg (sc_raw x)).
    assert (sign_scan f data name (i' + size) = Ok (body <$> find_list name (i + zlen (sc_raw x)) l)) as Hrest.
    { replace (i' + size) with (i + zlen (sc_raw x)) by lia. apply IH; [lia|done|lia]. }
    unfold named. destruct (Z.eqb_spec (b2z (sc_id x)) 0) as [E|E].
    + destruct (g_name _ Hg E) as [[nm bd] Hn]. rewrite Hn. unfold sc_custom in Hn. rewrite E in Hn.
      destruct (name_split _ _ _ Hn) as (n & j & Hk & Hj & Hn2 & Hle & Hs & Hb). rewrite (agrees_sign _ _ _ Hk), i64_small by lia.
      rewrite (proj2 (Z.leb_le _ _)), (proj2 (Z.ltb_ge _ _)), Hs, Hb by lia. by destruct (bool_decide _).
    + unfold sc_custom. rewrite (proj2 (Z.eqb_neq _ 0)) by done. done.
Qed.

(** *** Removing stamps *)

Definition is_stamp (x : Sect) : bool := match named abi_ver x with Some _ => true | None => false end.
Definition plain (l : list Sect) : list Sect := List.filter (fun x => negb (is_stamp x)) l.

Lemma plain_cons x l : plain (x :: l) = if is_stamp x then plain l else x :: plain l.
Proof. unfold plain. cbn. by destruct (is_stamp x). Qed.

Lemma cut_agrees read s x : agrees read -> cut_section kernel_read s = Some x -> cut_section read s = Some x.
Proof.
  intros HA. unfold cut_section. destruct s as [|c s]; [done|]. destruct (kernel_read s) as [[v n]|] eqn:E; [|done]. by rewrite (HA _ _ _ E).
Qed.

Lemma find_list_shift name i j l : body <$> find_list name i l = body <$> find_list name j l.
Proof. revert i j. induction l as [|x l IH]; intros i j; [done|]. cbn [find_list]. destruct (named name x); [done|apply IH]. Qed.

Lemma abi_payload_named read x : agrees read -> good x -> abi_payload read (sc_id x) (sc_payload x) = named abi_ver x.
Proof.
  intros HA Hg. unfold abi_payload, named. destruct (Z.eqb_spec (b2z (sc_id x)) 0) as [E|E].
  - destruct (g_name _ Hg E) as [[nm bd] Hn]. rewrite Hn. unfold sc_custom in Hn. rewrite E in Hn.
    destruct (name_split _ _ _ Hn) as (n & j & Hk & Hj & Hn2 & Hle & Hs & Hb). rewrite (HA _ _ _ Hk), (proj2 (Z.leb_le _ _)), Hs, Hb by lia. done.
  - unfold sc_custom. by rewrite (proj2 (Z.eqb_neq _ 0)).
Qed.

Lemma drop_stamps_list read f l :
  agrees read -> Forall good l -> (length l <= f)%nat ->
  drop_stamps read f (bytes l) = (body <$> find_list abi_ver 0 l, bytes (plain l)).
Proof.
  intros HA HF. revert f. induction HF as [|x l Hg HF IH]; intros f Hf; [by destruct f|].
  destruct f as [|f]; cbn in Hf; [lia|]. change (bytes (x :: l)) with (sc_raw x ++ bytes l). cbn [drop_stamps].
  rewrite (cut_agrees _ _ _ HA (g_cut _ Hg _)), IH, abi_payload_named by (done || lia). rewrite plain_cons. unfold is_stamp. cbn [find_list].
  destruct (named abi_ver x); [done|]. by rewrite (find_list_shift _ (0 + _) 0).
Qed.

(** ** Adding a section *)

Definition custom (name payload : list byte) : Sect :=
  let section := Leb (zlen name) ++ name ++ payload in
  mkSect Byte.x00 section (Byte.x00 :: Leb (zlen section) ++ section).

Lemma uleb32_Leb_app v x : 0 <= v < 2 ^ 32 -> uleb32 (Leb v ++ x) = Some (v, x).
Proof. intros Hv. unfold uleb32, Leb. change 10%nat with (5 + 5)%nat. rewrite (uleb32_Leb 5 0 0 0 v x) by (done || lia). do 2 f_equal. lia. Qed.

Lemma custom_name name payload : zlen name < 2 ^ 32 -> sc_custom (custom name payload) = Some (name, payload).
Proof.
  intros Hn. pose proof (zlen_nonneg name). unfold sc_custom. cbn [custom sc_id sc_payload]. change (b2z Byte.x00 =? 0) with true. cbn iota.
  unfold rd_name. rewrite uleb32_Leb_app by lia. apply rd_bytes_some. rewrite zlen_app. pose proof (zlen_nonneg payload). split; [lia|].
  unfold zlen. rewrite Nat2Z.id, take_app_length, drop_app_length. done.
Qed.
Lemma named_custom name payload nm : zlen name < 2 ^ 32 -> named nm (custom name payload) = if bool_decide (name = nm) then Some payload else None.
Proof. intros Hn. unfold named. by rewrite custom_name. Qed.

Lemma good_custom name payload : zlen (sc_payload (custom name payload)) < 2 ^ 32 -> zlen name < 2 ^ 32 -> good (custom name payload).
Proof.
  intros Hs Hn. split; [|intros _; by rewrite custom_name]. intros rest. cbn [custom sc_id sc_payload sc_raw] in *. set (sec := Leb _ ++ name ++ payload) in *.
  pose proof (zlen_nonneg sec). cbn [app]. rewrite <- app_assoc, (cut_intro _ _ (zlen sec)).
  - unfold zlen. rewrite Nat2Z.id, take_app_length, drop_app_length. done.
  - intros y. apply uleb32_Leb_app. lia.
  - rewrite zlen_app. pose proof (zlen_nonneg rest). lia.
Qed.

Lemma bytes_app l1 l2 : bytes (l1 ++ l2) = bytes l1 ++ bytes l2.
Proof. unfold bytes. by rewrite fmap_app, concat_app. Qed.
Lemma bytes_one x : bytes [x] = sc_raw x.
Proof. unfold bytes. cbn. by rewrite app_nil_r. Qed.
Lemma append_custom buf name payload : appendCustomSection buf name payload = buf ++ sc_raw (custom name payload).
Proof. done. Qed.
Lemma custom_section name payload : customSection name payload = sc_raw (custom name payload).
Proof. unfold customSection. cbn [custom sc_raw]. by rewrite !stamp_leb_Leb by apply zlen_nonneg. Qed.

Lemma find_list_app name i l1 l2 :
  find_list name i (l1 ++ l2) = match find_list name i l1 with Some x => Some x | None => find_list name (i + zlen (bytes l1)) l2 end.
Proof.
  revert i. induction l1 as [|x l1 IH]; intros i; [cbn; by rewrite zlen_nil, Z.add_0_r|]. cbn [find_list app]. destruct (named name x); [done|]. rewrite IH.
  change (bytes (x :: l1)) with (sc_raw x ++ bytes l1). rewrite zlen_app. destruct (find_list _ _ l1); [done|]. f_equal. lia.
Qed.

Lemma find_list_split name i l f :
  find_list name i l = Some f ->
  exists l1 x l2, l = l1 ++ x :: l2 /\ named name x = Some (body f) /\ sectionStart f = i + zlen (bytes l1) /\ totalSize f = zlen (sc_raw x)
    /\ Forall (fun y => named name y = None) l1.
Proof.
  revert i. induction l as [|x l IH]; intros i; [done|]. cbn [find_list]. destruct (named name x) as [bd|] eqn:E.
  - intros [= <-]. exists [], x, l. cbn. rewrite zlen_nil. split_and!; [done..|lia|done|constructor].
  - intros (l1 & y & l2 & -> & H1 & H2 & H3 & H4)%IH. exists (x :: l1), y, l2. change (bytes (x :: l1)) with (sc_raw x ++ bytes l1).
    rewrite zlen_app. split_and!; [done..|lia|done|by constructor].
Qed.

(** ** The decoder and the stamp *)

Definition with_abi (a : option Z) (b : Builder) : Builder := (set_abi a b.1, b.2).

(** What [decode_impl] does after its last section. *)
Definition finish (b : Builder) : outcome Status.t ModuleData :=
  let '(m, dc) := b in
  if negb (zlen (m_function_types m) =? zlen (m_bodies m)) then Err Status.Malformed
  else if match dc with Some n => negb (n =? zlen (m_data m)) | None => false end then Err Status.Malformed
  else
    let m := set_bodies (m_branch_targets m) (with_types (m_function_types m) (m_bodies m)) m in
    if negb (forallb (fun t => t <? zlen (m_types m)) (m_function_types m)) then Err Status.TypeMismatch
    else if negb (forallb (fun im => im_type_index im <? zlen (m_types m)) (m_imports m)) then Err Status.TypeMismatch
    else
      match validate_bodies m 0 (m_bodies m) with
      | Ok l =>
          let m := set_bodies (m_branch_targets m) l m in
          match validate_module m with
          | None => Ok m
          | Some e => Err e
          end
      | Err e => Err e
      | Panic => Panic
      end.

Definition header : list byte := [Byte.x00; Byte.x61; Byte.x73; Byte.x6d; Byte.x01; Byte.x00; Byte.x00; Byte.x00].

Lemma decode_impl_list blob m :
  decode_impl blob = Ok m <->
  exists l b, blob = header ++ bytes l /\ Forall good l /\ (length l <= 64)%nat /\ run_list 0 (empty_module, None) l = Some b /\ finish b = Ok m.
Proof.
  unfold decode_impl. split.
  - destruct (zlen blob <? 8); [done|]. destruct (bool_decide _) eqn:Eh; [|done]. apply bool_decide_eq_true in Eh. cbn [negb].
    destruct (sections _ _ _ _) as [[[m1 dc]| |] s'] eqn:Es; [|done..]. intros Hm.
    destruct (sections_list _ _ _ _ _ _ Es) as (-> & l & HF & El & Hlen & Hrun). exists l, (m1, dc).
    split_and!; [|done..]. by rewrite <- El, <- (take_drop 8 blob), Eh at 1.
  - intros (l & b & -> & HF & Hlen & Hrun & Hfin). pose proof (zlen_nonneg (bytes l)).
    rewrite (proj2 (Z.ltb_ge _ _)) by (rewrite zlen_app; change (zlen header) with 8; lia).
    change (drop 8 (header ++ bytes l)) with (bytes l). change (take 8 (header ++ bytes l)) with header. rewrite bool_decide_eq_true_2 by done. cbn [negb]. change (Z.to_nat kMaxSections) with 64%nat.
    rewrite (list_sections _ _ _ _ _ HF Hlen Hrun). by destruct b.
Qed.

Lemma validate_body_abi a m idx b : validate_body (set_abi a m) idx b = validate_body m idx b.
Proof. reflexivity. Qed.
Lemma validate_bodies_abi a m idx l : validate_bodies (set_abi a m) idx l = validate_bodies m idx l.
Proof. revert idx. induction l as [|b l IH]; intros idx; [done|]. cbn [validate_bodies]. by rewrite validate_body_abi, IH. Qed.

Lemma finish_abi a b m : finish b = Ok m -> finish (with_abi a b) = Ok (set_abi a m).
Proof.
  destruct b as [m1 dc]. unfold finish, with_abi. cbn [fst snd]. set (X := with_types (m_function_types m1) (m_bodies m1)).
  change (with_types _ _) with X. set (m2 := set_bodies (m_branch_targets m1) X m1).
  change (set_bodies (m_branch_targets (set_abi a m1)) X (set_abi a m1)) with (set_abi a m2). rewrite validate_bodies_abi.
  change (m_bodies (set_abi a m2)) with (m_bodies m2). destruct (validate_bodies m2 0 (m_bodies m2)) as [l| |]; [|by repeat (case_match; try done)..].
  set (m3 := set_bodies (m_branch_targets m2) l m2). change (set_bodies _ l (set_abi a m2)) with (set_abi a m3).
  change (validate_module (set_abi a m3)) with (validate_module m3). cbn [set_abi m_function_types m_bodies m_data m_types m_imports m2 set_bodies].
  repeat (case_match; try done); by intros [= <-].
Qed.

Lemma section_abi a id b p b' :
  in_payload (decode_section id b) p = Ok b' -> in_payload (decode_section id (with_abi a b)) p = Ok (with_abi a b').
Proof.
  destruct b as [m dc]. unfold in_payload, decode_section, with_abi, on_module, mbind, M_bind, mret, M_ret. cbn [fst snd set_abi m_function_types m_memory].
  repeat (case_match; try done); intros; simplify_eq; done.
Qed.

(** *** Sections that come and go *)

Lemma run_custom last b x l nm bd :
  sc_custom x = Some (nm, bd) ->
  run_list last b (x :: l) =
  run_list last (if bool_decide (nm = abi_ver) then match bd with v :: _ => with_abi (Some (b2z v)) b | [] => b end else b) l.
Proof.
  unfold sc_custom. cbn [run_list]. destruct (_ =? 0); [|done]. intros Hn.
  set (b1 := if bool_decide (nm = abi_ver) then _ else b). by rewrite (proj2 (decode_custom_ok b (sc_payload x) b1)) by (exists nm, bd; done).
Qed.

(** A custom section that is no stamp does not matter. *)
Lemma run_other last b l1 x l2 name bd :
  named name x = Some bd -> name <> abi_ver -> run_list last b (l1 ++ x :: l2) = run_list last b (l1 ++ l2).
Proof.
  intros Hx Hne. unfold named in Hx. destruct (sc_custom x) as [[nm bd']|] eqn:Ec; [|done]. destruct (bool_decide (nm = name)) eqn:En; [|done].
  apply bool_decide_eq_true in En as ->. revert last b. induction l1 as [|y l1 IH]; intros last b.
  - cbn [app]. rewrite (run_custom _ _ _ _ _ _ Ec), bool_decide_eq_false_2 by done. done.
  - cbn [app run_list]. by repeat (case_match; try done).
Qed.

Lemma run_stamp_last last b l v b' :
  run_list last b l = Some b' -> run_list last b (l ++ [custom abi_ver [v]]) = Some (with_abi (Some (b2z v)) b').
Proof.
  revert last b. induction l as [|y l IH]; intros last b.
  - intros [= <-]. cbn [app]. rewrite (run_custom _ _ _ _ abi_ver [v]) by (by apply custom_name). by rewrite bool_decide_eq_true_2.
  - cbn [app run_list]. by repeat (case_match; try done); apply IH.
Qed.

(** Without its stamps a module is the same but for the version. *)
Lemma run_plain a last b l b' :
  Forall good l -> run_list last b l = Some b' -> run_list last (with_abi a b) (plain l) = Some (with_abi a b').
Proof.
  intros HF. revert last b. induction HF as [|x l Hg HF IH]; intros last b; [by intros [= <-]|].
  rewrite plain_cons. unfold is_stamp, named. destruct (sc_custom x) as [[nm bd]|] eqn:Ec.
  - rewrite (run_custom _ _ _ _ _ _ Ec). destruct (bool_decide (nm = abi_ver)) eqn:En.
    + intros Hrun. apply IH in Hrun. by destruct bd.
    + intros Hrun. rewrite (run_custom _ _ _ _ _ _ Ec), En. by apply IH.
  - cbn [run_list]. destruct (Z.eqb_spec (b2z (sc_id x)) 0) as [E|E]; [destruct (g_name _ Hg E); congruence|].
    destruct (section_order _) as [order|]; [|done]. destruct (last <? order); [|done].
    destruct (in_payload (decode_section _ b) _) as [b1| |] eqn:Ed; [|done..]. rewrite (section_abi a _ _ _ _ Ed). apply IH.
Qed.

(** ** The module as a whole *)

Lemma find_section_list name l : Forall good l -> find_section (header ++ bytes l) name = find_list name 8 l.
Proof.
  intros HF. unfold find_section, is_wasm. pose proof (zlen_nonneg (bytes l)). pose proof (length_bytes l HF).
  rewrite zlen_app, (proj2 (Z.leb_le _ _)) by (change (zlen header) with 8; lia). change (take 4 (header ++ bytes l)) with (take 4 header).
  rewrite bool_decide_eq_true_2 by done. cbn [andb]. apply scan_list; [done..|]. rewrite length_app. lia.
Qed.
Lemma sign_extract_list name l : Forall good l -> sign_extractCustomSection (header ++ bytes l) name = Ok (body <$> find_list name 8 l).
Proof.
  intros HF. pose proof (length_bytes l HF). apply sign_scan_list; [done..|]. rewrite length_app. lia.
Qed.

Lemma cut_list l1 x l2 : cut (header ++ bytes (l1 ++ x :: l2)) (8 + zlen (bytes l1)) (zlen (sc_raw x)) = header ++ bytes (l1 ++ l2).
Proof.
  unfold cut. rewrite !bytes_app. change (bytes (x :: l2)) with (sc_raw x ++ bytes l2). rewrite !app_assoc.
  replace (Z.to_nat (8 + zlen (bytes l1))) with (length (header ++ bytes l1)) by (rewrite length_app; unfold zlen; cbn; lia).
  rewrite <- (app_assoc (header ++ bytes l1)), take_app_length, app_assoc.
  replace (Z.to_nat (8 + zlen (bytes l1) + zlen (sc_raw x))) with (length ((header ++ bytes l1) ++ sc_raw x)) by (rewrite !length_app; unfold zlen; cbn; lia).
  by rewrite drop_app_length.
Qed.

Lemma strip_list l :
  Forall good l ->
  exists l', stripSigSection (header ++ bytes l) = header ++ bytes l' /\ Forall good l' /\ (length l' <= length l)%nat
    /\ forall last b, run_list last b l' = run_list last b l.
Proof.
  intros HF. unfold stripSigSection, findSectionSize. rewrite find_section_list by done. destruct (find_list _ 8 l) as [f|] eqn:E; cbn [fmap option_fmap option_map].
  - destruct (find_list_split _ _ _ _ E) as (l1 & x & l2 & -> & Hx & -> & -> & _). exists (l1 ++ l2). rewrite cut_list.
    apply Forall_app in HF as [H1 H2]. inversion H2; subst. split_and!; [done|by apply Forall_app|rewrite !length_app; cbn; lia|].
    intros last b. symmetry. by eapply run_other.
  - exists l. by split_and!.
Qed.
