(* ===== verification/ModuleTheorems.v ===== *)
(** * ModuleTheorems: stamping, signing, installing and running a module

    The host tools, the package manager and the kernel's decoder against each
    other; and the numbers and the sample module of the native compiler. *)

From S2P Require Import Prelude FsServer FsClient WasmNum WasmDecode WasmModule WasmRun WasmWalk WasmAccept.
From S2P Require Import WasmTheorems ModuleTools ModuleFacts WasmLower WasmPlain WasmSafe.

(** ** Facts on modules that decode *)

Lemma Ok_inj {E A} (a b : A) : Ok (E := E) a = Ok b -> a = b.
Proof. congruence. Qed.

Lemma append_list l x : (header ++ bytes l) ++ sc_raw x = header ++ bytes (l ++ [x]).
Proof. by rewrite bytes_app, bytes_one, app_assoc. Qed.
Lemma is_wasm_list l : is_wasm (header ++ bytes l) = true.
Proof.
  unfold is_wasm. pose proof (zlen_nonneg (bytes l)). rewrite zlen_app, (proj2 (Z.leb_le _ _)) by (change (zlen header) with 8; lia).
  change (take 4 (header ++ bytes l)) with (take 4 header). done.
Qed.
Lemma length_plain l : (length (plain l) <= length l)%nat.
Proof. induction l as [|x l IH]; [done|]. rewrite plain_cons. destruct (is_stamp x); cbn; lia. Qed.
Lemma good_plain l : Forall good l -> Forall good (plain l).
Proof. induction 1 as [|x l Hg HF IH]; [constructor|]. rewrite plain_cons. destruct (is_stamp x); [done|by constructor]. Qed.
Lemma plain_id i l : find_list abi_ver i l = None -> plain l = l.
Proof.
  revert i. induction l as [|x l IH]; intros i; [done|]. cbn [find_list]. destruct (named abi_ver x) eqn:E; [done|]. intros H1.
  rewrite plain_cons. unfold is_stamp. rewrite E. f_equal. by eapply IH.
Qed.
Lemma find_plain i l : find_list abi_ver i (plain l) = None.
Proof.
  revert i. induction l as [|x l IH]; intros i; [done|]. rewrite plain_cons. destruct (is_stamp x) eqn:E; [done|]. cbn [find_list].
  unfold is_stamp in E. destruct (named abi_ver x); [done|apply IH].
Qed.
Lemma find_none name i j l : find_list name i l = None -> find_list name j l = None.
Proof. intros H1. pose proof (find_list_shift name j i l) as E. rewrite H1 in E. by destruct (find_list name j l). Qed.

(** The number of sections. *)
Fixpoint count_loop (fuel : nat) (s : list byte) : nat :=
  match fuel with
  | O => O
  | S f => match cut_section kernel_read s with Some (_, _, _, rest) => S (count_loop f rest) | None => O end
  end.
Definition section_count (blob : list byte) : nat := count_loop (length blob) (drop 8 blob).
Lemma section_count_list l : Forall good l -> section_count (header ++ bytes l) = length l.
Proof.
  intros HF. unfold section_count. change (drop 8 (header ++ bytes l)) with (bytes l).
  assert (length l <= length (header ++ bytes l))%nat as Hf by (pose proof (length_bytes l HF); rewrite length_app; lia).
  revert Hf. generalize (length (header ++ bytes l)). induction HF as [|x l Hg HF IH]; intros f Hf; [by destruct f|].
  destruct f as [|f]; cbn in Hf; [lia|]. change (bytes (x :: l)) with (sc_raw x ++ bytes l). cbn [count_loop]. rewrite (g_cut _ Hg). cbn. f_equal. apply IH. lia.
Qed.

(** ** Stamps *)

Lemma good_stamp v : good (custom abi_ver [v]).
Proof. by apply good_custom. Qed.

Lemma stamp_list v l :
  Forall good l -> 1 <= v <= 255 ->
  stamp v false (header ++ bytes l) = Ok (header ++ bytes (plain l ++ [custom abi_ver [z2b v]])).
Proof.
  intros HF Hv. unfold stamp, findAbiVer. rewrite is_wasm_list. cbn [negb]. change (drop 8 (header ++ bytes l)) with (bytes l).
  pose proof (length_bytes l HF). rewrite (drop_stamps_list _ _ _ agrees_stamp HF) by (rewrite length_app; lia).
  rewrite (proj2 (Z.eqb_neq v 0)), (proj2 (Z.ltb_ge v 1)), (proj2 (Z.ltb_ge 255 v)) by lia. cbn [orb]. rewrite custom_section.
  destruct (find_list abi_ver 0 l) as [f|] eqn:E; cbn [fmap option_fmap option_map fst snd].
  - by rewrite <- append_list.
  - by rewrite (plain_id _ _ E), <- append_list.
Qed.

Lemma find_stamped i l v : body <$> find_list abi_ver i (plain l ++ [custom abi_ver [v]]) = Some [v].
Proof. rewrite find_list_app, find_plain. cbn [find_list]. rewrite named_custom by done. by rewrite bool_decide_eq_true_2. Qed.
Lemma extract_stamped l v : Forall good l -> extractABIVer (header ++ bytes (plain l ++ [custom abi_ver [v]])) = Some v.
Proof.
  intros HF. unfold extractABIVer, extractCustomSection. rewrite find_section_list by (apply Forall_app; split; [by apply good_plain|by constructor; [apply good_stamp|]]).
  by rewrite find_stamped.
Qed.

(** C21: a version stamped by [modulesign] is the version every reader sees.
    For any module the kernel decodes and that has room for one more section,
    the stamped file decodes to the same module with that version, even if it
    had other stamps, and the package manager and both tools read it back. *)
Theorem stamp_read_by_all wasm m v w :
  decode_impl wasm = Ok m -> (section_count wasm < 64)%nat -> 1 <= v <= 255 -> stamp v false wasm = Ok w ->
  decode_impl w = Ok (set_abi (Some v) m) /\ extractABIVer w = Some (z2b v) /\ sign_extractABIVer w = Ok (Some (z2b v))
  /\ (findAbiVer w).1.1 = v.
Proof.
  intros Hd Hc Hv Hw. apply decode_impl_list in Hd as (l & b & -> & HF & _ & Hrun & Hfin). rewrite section_count_list in Hc by done.
  rewrite stamp_list in Hw by done. apply Ok_inj in Hw as <-. pose proof (length_plain l). set (c := custom abi_ver [z2b v]).
  assert (b2z (z2b v) = v) as Eb by (rewrite b2z_z2b, Z.mod_small; lia).
  assert (Forall good (plain l ++ [c])) as HF2 by (apply Forall_app; split; [by apply good_plain|constructor; [apply good_stamp|constructor]]).
  split_and!.
  - apply decode_impl_list. exists (plain l ++ [c]), (with_abi (Some v) b). split_and!; try done.
    + rewrite length_app. cbn. lia.
    + pose proof (run_stamp_last 0 (empty_module, None) (plain l) (z2b v) _ (run_plain None _ _ _ _ HF Hrun)) as E. by rewrite Eb in E.
    + by apply finish_abi.
  - by apply extract_stamped.
  - unfold sign_extractABIVer. rewrite sign_extract_list by done. unfold c. by rewrite find_stamped.
  - unfold findAbiVer. rewrite is_wasm_list. change (drop 8 (header ++ bytes (plain l ++ [c]))) with (bytes (plain l ++ [c])).
    pose proof (length_bytes _ HF2). rewrite (drop_stamps_list _ _ _ agrees_stamp HF2) by (rewrite (length_app header); lia).
    unfold c. rewrite find_stamped. done.
Qed.

(** C39: a module stamped twice by [add_abiver.py] has two versions.  The
    package manager, [module verify] and the signature use the first stamp;
    the kernel uses the last one. *)
Theorem two_stamps_two_versions wasm m a v w :
  decode_impl wasm = Ok m -> (section_count wasm < 64)%nat -> extractABIVer wasm = Some a -> 0 <= v <= 255 ->
  add_abiver wasm v = Ok w ->
  extractABIVer w = Some a /\ ABIVer w = a /\ decode_impl w = Ok (set_abi (Some v) m).
Proof.
  intros Hd Hc Ha Hv Hw. apply decode_impl_list in Hd as (l & b & -> & HF & _ & Hrun & Hfin). rewrite section_count_list in Hc by done.
  unfold add_abiver in Hw. change (take 4 (header ++ bytes l)) with (take 4 header) in Hw. rewrite bool_decide_eq_true_2 in Hw by done. cbn [negb] in Hw.
  rewrite (proj2 (Z.ltb_ge v 0)), (proj2 (Z.ltb_ge 255 v)), custom_section, append_list in Hw by lia. apply Ok_inj in Hw as <-.
  assert (Forall good (l ++ [custom abi_ver [z2b v]])) as HF2 by (apply Forall_app; split; [done|constructor; [apply good_stamp|constructor]]).
  assert (extractABIVer (header ++ bytes (l ++ [custom abi_ver [z2b v]])) = Some a) as E.
  { unfold extractABIVer, extractCustomSection in *. rewrite find_section_list in * by done. rewrite find_list_app.
    destruct (find_list (bs "abi_ver") 8 l); [done|discriminate Ha]. }
  split_and!; [done|unfold ABIVer; by rewrite E|]. apply decode_impl_list. exists (l ++ [custom abi_ver [z2b v]]), (with_abi (Some v) b).
  split_and!; try done; [rewrite length_app; cbn; lia| |by apply finish_abi].
  pose proof (run_stamp_last 0 (empty_module, None) l (z2b v) _ Hrun) as E1. rewrite b2z_z2b, Z.mod_small in E1 by lia. done.
Qed.

(** ** Signatures *)

(** What the signer and the verifier rely on: a signature checks with the
    public half of the key that made it, and has 64 bytes. *)
Class Ed25519Ok `{!Ed25519} : Prop := {
  ed_correct : forall k msg, ed_Verify (ed_Public k) msg (ed_Sign k msg) = true;
  ed_length : forall k msg, zlen (ed_Sign k msg) = 64
}.

(** What the manager needs of the file system it is given. *)
Class FsLaws (F E : Type) `{!FS F E} := {
  content : F -> list byte -> option (list byte);
  law_create : forall p f,
    match fs_Create p f with (Ok _, f') => content f' p = Some [] | (Err _, _) => True | (Panic, _) => False end;
  law_write : forall p d f c, content f p = Some c ->
    match fs_WriteFile p (zlen c) d f with
    | (Ok n, f') => 0 <= n <= zlen d /\ content f' p = Some (c ++ take (Z.to_nat n) d)
    | (Err _, _) => True
    | (Panic, _) => False
    end
}.

Section signing.
Context {F E : Type} `{!FS F E} `{!Ed25519}.
Implicit Type s : Manager * F.

Lemma verify_ok wasm s s' :
  Verify wasm s = (Ok tt, s') ->
  exists key sig abi, key ∈ trusted s'.1 /\ extractSig wasm = Some sig /\ extractABIVer wasm = Some abi
    /\ ed_Verify key (abi :: stripSigSection wasm) sig = true.
Proof.
  intros Hv. unfold Verify in Hv. minv Hv. destruct (extractABIVer wasm) as [abi|]; [|done]. destruct (extractSig wasm) as [sig|] eqn:Es; [|done].
  destruct (existsb _ _) eqn:Ex; [|done]. injection Hv as <-. apply existsb_exists in Ex as (key & Hin & Hk). exists key, sig, abi.
  split_and!; [by apply list_elem_of_In|done..|]. rewrite <- Hk. unfold verifyMessage, stripSigSection. by destruct (findSectionSize wasm _) as [[]|].
Qed.

Lemma put_module_verified check wasm s n s' :
  put_module check wasm s = (Ok n, s') -> exists s1, Verify wasm s = (Ok tt, s1).
Proof. unfold put_module. destruct (Verify wasm s) as [[[]| |] s1]; [eauto|done..]. Qed.

(** C7: what is installed was signed, and the signature covers what runs.  When
    [Install] or [Update] succeeds, a trusted key signed the module's version
    byte and its bytes without the signature section; and if the kernel decodes
    the installed module, the signed bytes decode to that same module. *)
Theorem signed_is_what_runs wasm s n s' m :
  Install wasm s = (Ok n, s') \/ Update wasm s = (Ok n, s') -> decode_impl wasm = Ok m ->
  exists key sig abi, key ∈ trusted (Verify wasm s).2.1 /\ extractSig wasm = Some sig /\ extractABIVer wasm = Some abi
    /\ ed_Verify key (abi :: stripSigSection wasm) sig = true /\ decode_impl (stripSigSection wasm) = Ok m.
Proof.
  intros Hi Hd. assert (exists s1, Verify wasm s = (Ok tt, s1)) as [s1 Hv] by (destruct Hi as [Hi|Hi]; by eapply put_module_verified).
  destruct (verify_ok _ _ _ Hv) as (key & sig & abi & H1 & H2 & H3 & H4). exists key, sig, abi. rewrite Hv. split_and!; [done..|].
  apply decode_impl_list in Hd as (l & b & -> & HF & Hl & Hrun & Hfin). destruct (strip_list l HF) as (l' & -> & HF' & Hl' & Hr).
  apply decode_impl_list. exists l', b. rewrite Hr. split_and!; try done. lia.
Qed.

(** *** A module that was just signed *)

Lemma named_other name payload nm : zlen name < 2 ^ 32 -> name <> nm -> named nm (custom name payload) = None.
Proof. intros Hl Hn. rewrite named_custom by done. by rewrite bool_decide_eq_false_2. Qed.

(** The sections of the signed module. *)
Definition signed_sections (l : list Sect) (priv : list byte) (abi : byte) (name : list byte) : list Sect :=
  let l2 := l ++ [custom (bs "module_name") name] in
  l2 ++ [custom (bs "sig") (ed_Sign priv (abi :: header ++ bytes l2))].

Lemma sign_list l priv abi name :
  Forall good l -> find_list (bs "module_name") 8 l = None -> name <> [] ->
  sign (header ++ bytes l) priv abi name = Ok (header ++ bytes (signed_sections l priv abi name)).
Proof.
  intros HF Hn Hne. unfold sign, with_name. destruct name as [|c name]; [done|]. rewrite sign_extract_list by done. rewrite Hn.
  unfold mbind, outcome_bind, mret, outcome_ret. cbn [fmap option_fmap option_map].
  by rewrite !append_custom, !append_list.
Qed.

Lemma Leb_short f v : zlen (Leb_loop f v) <= Z.of_nat f.
Proof.
  revert v. induction f as [|f IH]; intros v; cbn [Leb_loop]; [done|].
  case_match; rewrite zlen_cons; [specialize (IH (Z.shiftr v 7))|rewrite zlen_nil]; lia.
Qed.
Lemma good_short name payload : zlen name < 2 ^ 16 -> zlen payload < 2 ^ 16 -> good (custom name payload).
Proof.
  intros Hn Hp. pose proof (Leb_short 10 (zlen name)). apply good_custom; [|lia]. cbn [custom sc_payload]. rewrite !zlen_app. unfold Leb. lia.
Qed.

Lemma good_signed `{!Ed25519Ok} l priv abi name : Forall good l -> zlen name < 2 ^ 16 -> Forall good (signed_sections l priv abi name).
Proof.
  intros HF Hn. unfold signed_sections. rewrite !Forall_app. split_and!; [done|constructor; [by apply good_short|constructor]|].
  constructor; [|constructor]. apply good_short; [done|]. rewrite ed_length. done.
Qed.

Lemma signed_find l priv abi name nm :
  nm <> bs "module_name" -> find_list nm 8 (signed_sections l priv abi name) =
  match find_list nm 8 l with
  | Some f => Some f
  | None => find_list nm (8 + zlen (bytes (l ++ [custom (bs "module_name") name])))
              [custom (bs "sig") (ed_Sign priv (abi :: header ++ bytes (l ++ [custom (bs "module_name") name])))]
  end.
Proof.
  intros Hne. unfold signed_sections. rewrite !find_list_app. destruct (find_list nm 8 l); [done|].
  cbn [find_list]. by rewrite (named_other (bs "module_name")) by done.
Qed.

Lemma signed_verifies `{!Ed25519Ok} l priv abi name mgr (fs : F) :
  Forall good l -> zlen name < 2 ^ 16 -> find_list (bs "sig") 8 l = None -> extractABIVer (header ++ bytes l) = Some abi ->
  ed_Public priv ∈ trusted mgr -> Verify (header ++ bytes (signed_sections l priv abi name)) (mgr, fs) = (Ok tt, (mgr, fs)).
Proof.
  intros HF Hn Hsig Habi Hin. assert (trusted mgr <> []) as Hne by (intros E0; rewrite E0 in Hin; by apply not_elem_of_nil in Hin).
  set (l2 := l ++ [custom (bs "module_name") name]). set (sig := ed_Sign priv (abi :: header ++ bytes l2)).
  pose proof (good_signed l priv abi name HF Hn) as HF2. 
  assert (ensureKeys (mgr, fs) = (Ok tt, (mgr, fs))) as Hk by (unfold ensureKeys; rewrite bind_getS; cbn [fst]; by rewrite bool_decide_eq_false_2).
  unfold Verify. rewrite (bind_ok _ _ _ tt (mgr, fs)) by done. rewrite bind_getS. cbn [fst]. rewrite bool_decide_eq_false_2 by done.
  assert (find_section (header ++ bytes (signed_sections l priv abi name)) (bs "sig") = Some (mkFound (8 + zlen (bytes l2)) (zlen (sc_raw (custom (bs "sig") sig))) sig)) as Hs.
  { rewrite find_section_list, signed_find, Hsig by done. cbn [find_list]. rewrite named_custom by done. by rewrite bool_decide_eq_true_2. }
  assert (extractABIVer (header ++ bytes (signed_sections l priv abi name)) = Some abi) as ->.
  { unfold extractABIVer, extractCustomSection in *. rewrite find_section_list in * by done. rewrite signed_find by done.
    destruct (find_list (bs "abi_ver") 8 l); [done|discriminate Habi]. }
  unfold extractSig, extractCustomSection, verifyMessage, findSectionSize. rewrite Hs. cbn [fmap option_fmap option_map body sectionStart totalSize].
  unfold signed_sections. fold l2. fold sig. rewrite (cut_list l2 _ []), app_nil_r.
  replace (existsb _ _) with true; [done|]. symmetry. apply existsb_exists. exists (ed_Public priv). split; [by apply list_elem_of_In|apply ed_correct].
Qed.

Lemma signed_name l priv abi name :
  Forall good (signed_sections l priv abi name) -> find_list (bs "module_name") 8 l = None -> name <> [] ->
  ModuleName (header ++ bytes (signed_sections l priv abi name)) = name.
Proof.
  intros HF Hn Hne. unfold ModuleName, extractCustomSection. rewrite find_section_list by done. unfold signed_sections.
  rewrite !find_list_app, Hn. cbn [find_list]. rewrite named_custom by done. rewrite bool_decide_eq_true_2 by done. cbn. by destruct name.
Qed.

Lemma write_all_ok `{!FsLaws F E} fuel dst wasm written mgr (fs : F) :
  content fs dst = Some (take (Z.to_nat written) wasm) -> 0 <= written <= zlen wasm -> zlen wasm - written <= Z.of_nat fuel ->
  match write_all fuel dst wasm written (mgr, fs) with
  | (Ok _, s') => s'.1 = mgr /\ content s'.2 dst = Some wasm
  | (Err (WriteFailed _ | ZeroProgress), _) => True
  | _ => False
  end.
Proof.
  revert written fs. induction fuel as [|fuel IH]; intros written fs Hc Hw Hf; cbn [write_all].
  - rewrite (proj2 (Z.leb_le _ _)) by lia. cbn. split; [done|]. rewrite Hc, take_ge; [done|unfold zlen in *; lia].
  - destruct (Z.leb_spec (zlen wasm) written) as [Hle|Hlt].
    + cbn. split; [done|]. rewrite Hc, take_ge; [done|unfold zlen in *; lia].
    + assert (zlen (take (Z.to_nat written) wasm) = written) as Ez by (unfold zlen in *; rewrite length_take; lia).
      pose proof (law_write dst (drop (Z.to_nat written) wasm) fs _ Hc) as L. rewrite Ez in L.
      unfold call at 1, mbind, M_bind. cbn [fst snd]. destruct (fs_WriteFile _ _ _ fs) as [[n|e|] fs'] eqn:Ew; [|done..].
      destruct L as [L1 L2]. destruct (Z.eqb_spec n 0); [done|]. unfold zlen in L1. rewrite length_drop in L1. apply IH; unfold zlen in *; try lia.
      rewrite L2. f_equal. replace (Z.to_nat (written + n)) with (Z.to_nat written + Z.to_nat n)%nat by lia. by rewrite take_take_drop.
Qed.

Lemma run_append last b l name payload :
  zlen name < 2 ^ 32 -> name <> abi_ver -> run_list last b (l ++ [custom name payload]) = run_list last b l.
Proof.
  intros Hn Hne. rewrite (run_other _ _ _ _ [] name payload), app_nil_r; [done| |done].
  rewrite named_custom by done. by rewrite bool_decide_eq_true_2.
Qed.

End signing.

(** ** A small file system and key *)

Module Toy.
(** The newest contents of a path come first. *)
Definition files : Type := list (list byte * list byte).
Definition contents (f : files) (p : list byte) : option (list byte) :=
  snd <$> List.find (fun e => bool_decide (e.1 = p)) f.
#[export] Instance store : FS files unit := {
  fs_List := fun _ f => (Ok ((fun e => mkFileInfo e.1 (zlen e.2) 0 0) <$> f), f);
  fs_ReadFile := fun p off n f => (match contents f p with Some c => Ok (slice c off (off + n)) | None => Err tt end, f);
  fs_WriteFile := fun p off d f =>
    match contents f p with
    | Some c => (Ok (Z.min 40 (zlen d)), (p, take (Z.to_nat off) c ++ take 40 d) :: f)
    | None => (Err tt, f)
    end;
  fs_Create := fun p f => (Ok tt, (p, []) :: f);
  fs_Delete := fun p f => (Ok tt, List.filter (fun e => negb (bool_decide (e.1 = p))) f);
  fs_Stat := fun p f => (match contents f p with Some c => Ok (mkFileInfo p (zlen c) 0 0) | None => Err tt end, f)
}.
Lemma contents_new p c f : contents ((p, c) :: f) p = Some c.
Proof. unfold contents. cbn. by rewrite bool_decide_eq_true_2. Qed.
#[export] Instance store_laws : FsLaws files unit.
Proof.
  refine {| content := contents |}.
  - intros p f. apply contents_new.
  - intros p d f c Hc. cbn. rewrite Hc. pose proof (zlen_nonneg d). split; [lia|]. rewrite contents_new. f_equal. f_equal.
    + apply take_ge. unfold zlen. lia.
    + unfold zlen. destruct (decide (length d <= 40)%nat); [rewrite !take_ge by lia; done|f_equal; lia].
Defined.

(** The key followed by a sum of the message. *)
Definition mac (k msg : list byte) : list byte :=
  take 64 (k ++ z2b (foldr (fun c n => b2z c + n) 0 msg) :: mkbuf 64).
#[export] Instance key : Ed25519 := {
  ed_Public := fun k => k; ed_Sign := mac; ed_Verify := fun k msg sig => bool_decide (sig = mac k msg)
}.
#[export] Instance key_ok : Ed25519Ok.
Proof.
  split; intros k msg; cbn; [by apply bool_decide_eq_true_2|]. unfold mac, zlen. rewrite length_take, length_app. cbn [length].
  unfold mkbuf. rewrite length_replicate. lia.
Qed.
Definition manager : Manager := mkManager [bs "key"] (bs "/boot/modules").
Definition get {E A} (d : A) (x : outcome E A) : A := match x with Ok a => a | _ => d end.
Definition signed : list byte := get [] (sign Demo.blob (bs "key") Byte.x02 (bs "demo")).
Definition decoded : ModuleData := get empty_module (decode_impl Demo.blob).
End Toy.
Import (hints) Toy.

Lemma stamp_read_by_all_witness :
  let w := Toy.get [] (stamp 7 false Demo.blob) in
  decode_impl w = Ok (set_abi (Some 7) Toy.decoded) /\ extractABIVer w = Some (z2b 7)
  /\ sign_extractABIVer w = Ok (Some (z2b 7)) /\ (findAbiVer w).1.1 = 7.
Proof. apply (stamp_read_by_all Demo.blob Toy.decoded 7); [by vm_compute|vm_compute; lia|lia|by vm_compute]. Defined.

Lemma two_stamps_two_versions_witness :
  let w := Toy.get [] (add_abiver Demo.blob 1) in
  extractABIVer w = Some Byte.x02 /\ ABIVer w = Byte.x02 /\ decode_impl w = Ok (set_abi (Some 1) Toy.decoded).
Proof. apply (two_stamps_two_versions Demo.blob Toy.decoded Byte.x02 1); [by vm_compute|vm_compute; lia|by vm_compute|lia|by vm_compute]. Defined.

Lemma signed_is_what_runs_witness :
  exists key sig abi, key ∈ trusted (Verify (E := unit) Toy.signed (Toy.manager, [] : Toy.files)).2.1 /\ extractSig Toy.signed = Some sig
    /\ extractABIVer Toy.signed = Some abi /\ ed_Verify key (abi :: stripSigSection Toy.signed) sig = true
    /\ decode_impl (stripSigSection Toy.signed) = Ok Toy.decoded.
Proof.
  apply (signed_is_what_runs (E := unit) Toy.signed (Toy.manager, []) (bs "demo") (Install (E := unit) Toy.signed (Toy.manager, [])).2);
    [left; by vm_compute|by vm_compute].
Defined.


(** * The numbers and the sample module of the native compiler

    The writers of [services/jitc] against the kernel's readers, and the
    sample module in the kernel's interpreter. *)

(** ** Signed numbers *)

Lemma land_40 x : 0 <= x < 128 -> (Z.land x 0x40 =? 0) = (x <? 64).
Proof.
  intros Hx. assert (forall n : nat, (n < 128)%nat -> (Z.land (Z.of_nat n) 0x40 =? 0) = (Z.of_nat n <? 64)) as Hall.
  { intros n Hn. do 128 (destruct n as [|n]; [done|]). lia. }
  rewrite <- (Z2Nat.id x) by lia. apply Hall. lia.
Qed.
Lemma land_70 v : -8 <= v < 8 -> Z.land (v mod 128) 0x70 = 0 \/ Z.land (v mod 128) 0x70 = 0x70.
Proof.
  intros Hv. assert (v = -8 \/ v = -7 \/ v = -6 \/ v = -5 \/ v = -4 \/ v = -3 \/ v = -2 \/ v = -1 \/ v = 0 \/ v = 1 \/ v = 2 \/ v = 3 \/ v = 4 \/ v = 5 \/ v = 6 \/ v = 7) as Hc by lia.
  repeat (destruct Hc as [->|Hc]; [vm_compute; auto|]). subst. vm_compute. auto.
Qed.

(** The last byte of a number. *)
Lemma slebEnc_last v :
  let b := v mod 128 in
  let q := v / 128 in
  (q =? 0) && (b <? 64) || (q =? -1) && negb (b <? 64) = bool_decide (-64 <= v < 64).
Proof.
  intros b q. pose proof (Z.mod_pos_bound v 128 ltac:(lia)). pose proof (Z.div_mod v 128 ltac:(lia)). subst b q.
  symmetry. destruct (Z.eqb_spec (v / 128) 0), (Z.eqb_spec (v / 128) (-1)), (Z.ltb_spec (v mod 128) 64); cbn;
    (apply bool_decide_eq_true_2 || apply bool_decide_eq_false_2); lia.
Qed.

(** The value of the last byte [v mod 128], at bit [shift]. *)
Lemma sleb_last shift res v :
  0 <= shift -> shift = 28 \/ shift + 7 < 32 -> 0 <= res < 2 ^ shift -> -64 <= v < 64 -> - 2 ^ (31 - shift) <= v < 2 ^ (31 - shift) ->
  swrap 32 (if (shift + 7 <? 32) && negb (v mod 128 <? 64)
            then Z.lor (res + v mod 128 * 2 ^ shift) (Z.shiftl (-1) (shift + 7)) else res + v mod 128 * 2 ^ shift)
  = res + v * 2 ^ shift.
Proof.
  intros Hs Hcase Hr Hv Hb. assert (2 ^ 31 = 2 ^ shift * 2 ^ (31 - shift)) as Hp by (rewrite <- Z.pow_add_r by lia; f_equal; lia).
  assert (- 2 ^ 31 <= res + v * 2 ^ shift < 2 ^ 31) as Hrange by nia.
  assert (v mod 128 = if v <? 0 then v + 128 else v) as ->.
  { destruct (Z.ltb_spec v 0); [|apply Z.mod_small; lia]. rewrite <- (Z.mod_add v 1 128) by lia. apply Z.mod_small. lia. }
  destruct (Z.ltb_spec v 0) as [Hneg|Hpos].
  - rewrite (proj2 (Z.ltb_ge (v + 128) 64)) by lia. cbn [negb]. rewrite andb_true_r. destruct (Z.ltb_spec (shift + 7) 32) as [Hlt|Hge].
    + rewrite lor_shift by (rewrite ?Z.pow_add_r by lia; lia || nia). rewrite Z.pow_add_r by lia.
      replace (res + (v + 128) * 2 ^ shift + -1 * (2 ^ shift * 2 ^ 7)) with (res + v * 2 ^ shift) by (change (2 ^ 7) with 128; ring).
      by apply swrap_small.
    + assert (shift = 28) as -> by lia. replace (res + (v + 128) * 2 ^ 28) with (res + v * 2 ^ 28 + 8 * 2 ^ 32) by lia.
      rewrite swrap_add by lia. by apply swrap_small.
  - rewrite (proj2 (Z.ltb_lt v 64)) by lia. cbn [negb]. rewrite andb_false_r. by apply swrap_small.
Qed.

Lemma sleb32_slebEnc n k shift res v x :
  n = (5 - k)%nat -> (k < 5)%nat -> shift = 7 * Z.of_nat k -> 0 <= res < 2 ^ shift -> - 2 ^ (31 - shift) <= v < 2 ^ (31 - shift) ->
  sleb_loop n 32 28 0x70 shift res (slebEnc_loop n v ++ x) = Some (res + v * 2 ^ shift, x).
Proof.
  revert k shift res v. induction n as [|n IH]; intros k shift res v Hn Hk Hsh Hr Hv; [lia|].
  cbn [slebEnc_loop]. rewrite land_7f, Z.shiftr_div_pow2 by lia. change (2 ^ 7) with 128.
  pose proof (Z.mod_pos_bound v 128 ltac:(lia)) as Hm. destruct (low_byte _ Hm) as (L1 & L2 & L3). rewrite land_40, slebEnc_last by done.
  assert (shift = 28 -> -8 <= v < 8) as H28 by (intros ->; change (2 ^ (31 - 28)) with 8 in Hv; lia).
  case_bool_decide as Hc; cbn [app sleb_loop]; rewrite b2z_z2b.
  - rewrite (Z.mod_small (v mod 128) 256) by lia. rewrite L1. rewrite land_7f. rewrite Z.mod_mod by lia. rewrite (lor_shift res) by lia. rewrite land_40 by lia. cbn [Z.eqb].
    replace ((shift =? 28) && _ && _) with false.
    + rewrite sleb_last; [done|lia| |done..]. destruct (decide (shift = 28)); [by left|right; lia].
    + destruct (Z.eqb_spec shift 28) as [E28|]; [|done]. destruct (land_70 v (H28 E28)) as [E|E]; rewrite E; done.
  - assert (shift <> 28) as Hne by (intros E28; specialize (H28 E28); lia). rewrite (proj2 (Z.eqb_neq _ 28)) by done. cbn [andb].
    rewrite (Z.mod_small (Z.lor _ _)) by lia. rewrite (proj2 (Z.eqb_neq _ 0)) by done.
    rewrite L3, land_7f, <- (Z.add_mod_idemp_r _ 128) by lia. change (128 mod 128) with 0. rewrite Z.add_0_r, Z.mod_mod, lor_shift by lia.
    pose proof (Z.div_mod v 128 ltac:(lia)) as Hdm. rewrite (IH (S k) (shift + 7)); try lia.
    + do 2 f_equal. rewrite Z.pow_add_r by lia. change (2 ^ 7) with 128. rewrite Hdm at 3. ring.
    + rewrite Z.pow_add_r by lia. change (2 ^ 7) with 128. clear -Hr Hm. nia.
    + assert (2 ^ (31 - shift) = 128 * 2 ^ (31 - (shift + 7))) as E.
      { change 128 with (2 ^ 7). rewrite <- Z.pow_add_r by lia. f_equal. lia. }
      rewrite E in Hv. split; [apply Z.div_le_lower_bound; lia|apply Z.div_lt_upper_bound; lia].
Qed.

Lemma ulebEnc_Leb n v : 0 <= v -> ulebEnc_loop n v = Leb_loop n v.
Proof.
  revert v. induction n as [|n IH]; intros v Hv; [done|]. cbn [ulebEnc_loop Leb_loop].
  assert (0 <= Z.shiftr v 7) by (by apply Z.shiftr_nonneg). rewrite IH by done.
  destruct (Z.ltb_spec 0 (Z.shiftr v 7)); [by rewrite (proj2 (Z.eqb_neq _ 0)) by lia|by rewrite (proj2 (Z.eqb_eq _ 0)) by lia].
Qed.

(** More fuel than a number has groups changes nothing. *)
Lemma Leb_fuel n k v : 0 <= v < 2 ^ (7 * Z.of_nat (S n)) -> Leb_loop (S n + k) v = Leb_loop (S n) v.
Proof.
  revert v. induction n as [|n IH]; intros v Hv; cbn [Leb_loop Nat.add].
  - change (2 ^ (7 * Z.of_nat 1)) with 128 in Hv. rewrite Z.shiftr_div_pow2, Z.div_small by lia. done.
  - destruct (0 <? Z.shiftr v 7); [|done]. f_equal. apply IH. rewrite Z.shiftr_div_pow2 by lia. split; [apply Z.div_pos; lia|].
    apply Z.div_lt_upper_bound; [lia|]. rewrite <- Z.pow_add_r by lia. replace (7 + 7 * Z.of_nat (S n)) with (7 * Z.of_nat (S (S n))) by lia. lia.
Qed.
Lemma ulebEnc_Leb_eq v : 0 <= v < 2 ^ 32 -> ulebEnc v = Leb v.
Proof. intros Hv. unfold ulebEnc, Leb. rewrite ulebEnc_Leb by lia. symmetry. apply (Leb_fuel 4 5). split; [lia|]. cbn. lia. Qed.

(** ** The cursor and the kernel's reader *)

Lemma cu8_cons c s : cu8 (c :: s) = (Ok (b2z c), s).
Proof. done. Qed.

Lemma u32leb_loop_kernel n k shift v s :
  n = (5 - k)%nat -> shift = 7 * Z.of_nat k -> 0 <= v < 2 ^ shift ->
  match uleb32_loop n shift v s with
  | Some (x, s') => u32leb_loop n shift v s = (Ok x, s')
  | None => exists e s', u32leb_loop n shift v s = (Err e, s')
  end.
Proof.
  revert k shift v s. induction n as [|n IH]; intros k shift v s Hn Hsh Hv; cbn [uleb32_loop u32leb_loop]; [by exists ErrOverflow, s|].
  destruct s as [|c s]; [by exists ErrTruncated, []|]. rewrite (bind_ok _ _ _ _ _ (cu8_cons c s)).
  destruct ((shift =? 28) && _) eqn:E1; [by exists ErrOverflow, s|].
  destruct (uleb32_value (S n) k shift v c) as [V1 V2]; try done; [lia|].
  assert (u32 (Z.shiftl (Z.land (b2z c) 127) shift) = Z.shiftl (Z.land (b2z c) 127) shift) as ->.
  { apply u32_small. pose proof (group_small c shift ltac:(lia)). rewrite land_7f in *. pose proof (Z.mod_pos_bound (b2z c) 128 ltac:(lia)).
    rewrite lor_shift in V2 by lia. rewrite Z.shiftl_mul_pow2 in * by lia. lia. }
  destruct (Z.land (b2z c) 0x80 =? 0); [by rewrite u32_small|]. apply (IH (S k)); [lia|lia|done].
Qed.

Lemma sleb_cursor_kernel n shift res v s x s' :
  v = swrap 32 res -> sleb_loop n 32 28 0x70 shift res s = Some (x, s') -> sleb_cursor 32 n shift v s = (Ok x, s').
Proof.
  revert shift res v s. induction n as [|n IH]; intros shift res v [|c s] Hv Hk; try discriminate. cbn [sleb_loop sleb_cursor] in *.
  rewrite (bind_ok _ _ _ _ _ (cu8_cons c s)). cbv zeta. destruct ((shift =? 28) && _ && _); [discriminate|].
  rewrite Hv, <- swrap_lor by lia. destruct (Z.land (b2z c) 0x80 =? 0); [|by eapply IH]. injection Hk as <- <-.
  destruct ((shift + 7 <? 32) && _); [|done]. by rewrite <- swrap_lor.
Qed.

(** C30: the compiler's writers, its reader and the kernel's reader agree on
    numbers.  Any 32-bit number the compiler writes is read back by the kernel,
    whatever follows it; on unsigned numbers the two readers accept the same
    bytes with the same value, and any signed number the kernel accepts the
    compiler reads as the same one. *)
Theorem leb_numbers_agree :
  (forall v x, 0 <= v < 2 ^ 32 -> uleb32 (ulebEnc v ++ x) = Some (v, x)) /\
  (forall v x, - 2 ^ 31 <= v < 2 ^ 31 -> sleb32 (slebEnc v ++ x) = Some (v, x)) /\
  (forall s, match uleb32 s with
             | Some (v, s') => u32leb s = (Ok v, s')
             | None => exists e s', u32leb s = (Err e, s')
             end) /\
  (forall s v s', sleb32 s = Some (v, s') -> s32leb s = (Ok v, s')).
Proof.
  split_and!.
  - intros v x Hv. rewrite ulebEnc_Leb_eq by done. by apply uleb32_Leb_app.
  - intros v x Hv. unfold sleb32, slebEnc. rewrite (sleb32_slebEnc 5 0 0 0 v x) by (done || lia). do 2 f_equal. lia.
  - intros s. by apply (u32leb_loop_kernel 5 0).
  - intros s v s' Hs. by apply (sleb_cursor_kernel 5 0 0).
Qed.

(** ** The sample module in the kernel *)

Definition fib_decoded : ModuleData := Eval vm_compute in match decode_impl FibModule with Ok m => m | _ => empty_module end.
Lemma fib_decodes : decode_impl FibModule = Ok fib_decoded.
Proof. vm_compute. reflexivity. Qed.

Section start.
Context {T : Type} `{!Host T} `{!NaNs}.

(** A [_start] with results is refused. *)
Lemma start_with_results blob m idx ty n (s0 s1 : OwnedSession (T := T)) :
  decode_impl blob = Ok m -> find_function m (bs "_start") = Some idx -> function_type m idx = Some ty -> 0 < zlen (results ty) ->
  init blob engine_config engine_max_memory s0 = (Status.Ok, s1) -> start n 0 s1 = (Err RunStatus.Error, s1).
Proof.
  intros Hd F1 F2 F3 Hi. destruct (decode_accepted _ _ Hd) as [Hac _]. unfold init in Hi. case_match; [done|]. rewrite Hd in Hi. case_match; [by injection Hi|].
  destruct (instantiate m engine_config engine_max_memory (runtime s0)) as [[[]|e|] r] eqn:Hinst; simplify_eq; [|done..].
  unfold start. cbn [initialized negb runtime]. pose proof (instantiate_ready _ _ _ _ _ Hac engine_config_ok Hinst) as [Hev _ _ _ _].
  assert (begin_invoke (bs "_start") [] 0 r = (Err RunStatus.Error, r)) as Hb.
  { unfold begin_invoke. rewrite bind_getS. destruct (instantiated _); [|done]. cbn [negb].
    assert (find_function (r_module r) (bs "_start") = Some idx) as -> by (destruct Hev as (l & E & _); by rewrite E).
    rewrite (evolved_type _ _ _ Hev), F2. rewrite (proj2 (Z.ltb_lt 0 _)) by lia. by rewrite orb_true_r. }
  unfold invoke, mbind, M_bind. by rewrite Hb.
Qed.

(** the sample module of the smoke test is a valid module with the version
    the kernel asks for, but the kernel's interpreter refuses to start it: its
    [_start] returns a number, and [engine_start] takes no results.  The
    session is left as it was, with no error recorded. *)
Theorem fib_module_refused n (s0 s1 : OwnedSession (T := T)) :
  init FibModule engine_config engine_max_memory s0 = (Status.Ok, s1) ->
  (exists m, decode_impl FibModule = Ok m /\ m_abi m = Some 2) /\ start n 0 s1 = (Err RunStatus.Error, s1).
Proof.
  intros Hi. split; [exists fib_decoded; split; [apply fib_decodes|reflexivity]|].
  apply (start_with_results FibModule fib_decoded 1 (mkFuncType [] [ValueType.I32]) n s0 s1 fib_decodes); [reflexivity..|done].
Qed.
End start.
Import (hints) Demo.

Lemma fib_module_refused_witness :
  let s1 := (init FibModule engine_config engine_max_memory Demo.blank).2 in
  (exists m, decode_impl FibModule = Ok m /\ m_abi m = Some 2) /\ start 5 0 s1 = (Err RunStatus.Error, s1).
Proof.
  apply (fib_module_refused 5 Demo.blank). assert ((init FibModule engine_config engine_max_memory Demo.blank).1 = Status.Ok) as E.
  { vm_compute. reflexivity. }
  rewrite <- E. apply surjective_pairing.
Defined.
